(* ===== verification/_CoqProject ===== *)
-Q . S2P
Prelude.v
Text.v
External.v
Wire.v
Ordering.v
AgentConfig.v
Authz.v
Limiters.v
AuditLimiter.v
Nonce.v
PeerEcho.v
Server.v
ServerProofs.v
AgentProperties.v
AuditSpool.v
AuditSpoolLemmas.v
AuditSpoolProperties.v
Certificates.v
CertificateProperties.v
InputValidation.v
Net.v
StoreTypes.v
StoredText.v
StoragePayloads.v
StoreDb.v
TrustStore.v
Enrollment.v
ObservationPayloads.v
AlertWebhook.v
AlertWebhookProperties.v
SchedulerStore.v
NodeMetadata.v
TrustPolicy.v
TrustPolicyReview.v
AlertQueue.v
SchedulerProtocol.v
SchedulerFencing.v
SchedulerLiveness.v
StoreScenario.v
SchedulerProperties.v
AlertQueueProperties.v
StoreLemmas.v
TrustInvariant.v
TrustRefinement.v
EnrollmentInvariant.v
TrustTotality.v
StoreRuns.v
StoreProperties.v
TrustPolicySync.v
TrustPolicyReviewLemmas.v
TrustPolicyProperties.v
Slo.v
ApiPayloads.v
VersionGovernance.v
ApiStore.v
ApiMetrics.v
AuditExport.v
ApiProjections.v
ApiAuth.v
ApiCursor.v
ApiRoutes.v
ApiCursorLemmas.v
ApiPagination.v
ApiPages.v
ApiAuthLemmas.v
ApiScenario.v
ApiProperties.v
HealthStore.v
Health.v
HealthRollups.v
HealthRuns.v
HealthEvaluation.v
HealthSnapshots.v
HealthScenario.v
HealthProperties.v
AlertEvents.v
AlertWorker.v
Retention.v
RetentionLemmas.v
RetentionProperties.v
