(* ===== verification/Prelude.v ===== *)
(** * ocfleet: a verification development for the ocserv fleet agent

    The repository holds a small fleet of programs.  An agent
    (crates/ocfleet-agent) runs beside an ocserv installation and answers
    length-prefixed JSON requests over iroh connections.  A controller
    (crates/ocfleet-cli) keeps the registry of nodes and their endpoint
    identifiers in SQLite, enrolls new agents, runs scheduled observation jobs
    against them, evaluates the observations into health, delivers alerts to
    webhooks and reviews declared trust policies against the registry.  An HTTP
    service (crates/ocfleet-api) reads the same database without writing it.
    All use the protocol crate (crates/ocfleet-protocol) and the configuration
    crate (crates/ocfleet-config).  A request goes from the controller's trust check
    (TrustStore) over the frame codec (Wire) to the agent's pipeline (Server),
    which consults the authorisation sets built from the configuration (Authz,
    AgentConfig), the replay cache (Nonce) and the admission limits (Limiters),
    and answers once the audit writer (AuditSpool) has taken its event.

    ** Files and sources

    Foundations
    - Prelude: results with Rust's [?] operator, fixed-width integers, the
      tactics and the hint database [fleet] of the development.
    - Ordering: stable sorting by keys of optional text, and ordered sets.
    - Text, Net: what the sources use of Rust's [str], [char] and [std::net].
    - External: the interfaces of third-party code as classes (JSON values,
      endpoint identifiers, RFC 3339 timestamps, base64, SHA-256, Ed25519), with
      toy instances for the witnesses.

    Agent
    - Wire: ocfleet-protocol constants.rs, error.rs, rpc.rs, frame.rs,
      method.rs, metadata.rs.
    - AgentConfig: ocfleet-config agent.rs and validation.rs.
    - Authz: ocfleet-agent authz.rs.  Limiters: metrics.rs and the semaphores of
      server.rs, with interleavings as sequences of steps.  AuditLimiter:
      audit_limiter.rs.  Nonce: nonce.rs.  PeerEcho: the check of peer_echo.rs.
    - Server: the request pipeline and the handler of one stream of server.rs,
      with the audit event of audit.rs.  Its state holds the configuration, the
      nonce cache, the counters and the authorisation sets.
    - ServerProofs holds a concrete agent and the lemmas, AgentProperties the
      theorems.
    - AuditSpool: the log, the spool, the queue and the worker of audit.rs, with
      the files of private_file.rs as bytes.  AuditSpoolLemmas,
      AuditSpoolProperties: lemmas and theorems.
    - Certificates: the expiry reader of ocserv/cert.rs from the bytes of a file
      to its entry in the answer, with the panics of cutting text.
      CertificateProperties: an encoder of certificates, and the theorems.

    Controller: registry, trust and enrollment
    - InputValidation: ocfleet-cli input_validation.rs.
    - StoreTypes, StoreDb: the records and errors of store.rs and its tables.  A
      table is a finite map from primary key to row; a transaction returns the
      new database or leaves the old one.
    - StoredText: the filter of store.rs for stored text and documents.
    - StoragePayloads, ObservationPayloads: the versioned JSON columns of
      storage_payloads.rs, with serde's derived decoding written out.
    - TrustStore: nodes and endpoint trust of store.rs, and the check of
      controller_rpc.rs before a dispatch.  Enrollment: tokens, join requests,
      approval and legacy claims.
    - StoreScenario is a concrete store; StoreLemmas, TrustInvariant,
      TrustRefinement, EnrollmentInvariant, StoreRuns and TrustTotality hold the
      lemmas, StoreProperties the theorems.

    Controller: scheduler
    - SchedulerStore: jobs, claims, runs, outcomes and the maintenance window of
      store.rs.
    - SchedulerProtocol: the abstract steps of claims and runs, and that every
      operation is one of them.  SchedulerFencing and SchedulerLiveness: what
      holds over every script of operations.
    - SchedulerProperties: the theorems.

    Controller: alerts
    - AlertWebhook: alert_webhook.rs, alert_projection.rs and the payload of
      alert_delivery.rs.  AlertQueue: the delivery queue of store.rs.
    - AlertEvents: the tables of alerts and hooks of store.rs, with their checks,
      replays and audit events.  AlertWorker: the pass of the delivery worker of
      alerts.rs, and the histories of these tables under any number of workers.
    - AlertWebhookProperties, AlertQueueProperties, AlertWorker: lemmas and
      theorems.

    Controller: trust policies
    - NodeMetadata: the advisory metadata and maintenance windows of store.rs.
    - TrustPolicy: canonical form, validation and comparison of trust_policy.rs.
      TrustPolicyReview: its signatures, plans, approvals and history file.
    - TrustPolicySync (agreement of a policy and a registry),
      TrustPolicyReviewLemmas, TrustPolicyProperties: lemmas and theorems.

    Controller: health
    - HealthStore: the health policy, snapshots, history, rollups and evaluation
      runs of store.rs, with their audit events and replays.
    - Health: health.rs and duration_args.rs, from the observations of a node to
      its status, the pass of the evaluator, rollups and service levels, in a
      monad of state and errors.  Slo: slo.rs, with its theorem.
    - HealthRollups (windows as texts, slots and counters), HealthRuns (the
      invariant over every sequence of operations), HealthEvaluation (a pass and
      its repetition), HealthSnapshots (what a computed snapshot contains) hold
      the lemmas, HealthScenario a concrete fleet, HealthProperties the theorems.

    Controller: retention
    - Retention: retention.rs and the operations of store.rs it uses: settings,
      candidates, dry runs, the loop of batches and the replay of an operation.
      RetentionLemmas, RetentionProperties: lemmas and theorems.

    Read-only API
    - ApiStore, ApiMetrics: the queries of readonly_store.rs on tables as lists,
      and metrics.rs.  ApiPayloads: the payloads of storage_payloads.rs that only
      the API reads.  VersionGovernance: version_governance.rs.  AuditExport,
      ApiProjections: redaction and JSON of what is shown (audit_export.rs,
      observation.rs, projections.rs).
    - ApiAuth: auth.rs.  ApiCursor: cursor_keys.rs, the cursors of v1.rs and the
      errors of responses.rs.  ApiRoutes: args.rs, routes.rs and the handlers of
      v1.rs, from startup to the response with its headers.
    - ApiCursorLemmas, ApiPagination, ApiPages, ApiAuthLemmas hold the lemmas,
      ApiScenario a running service, ApiProperties the theorems.

    ** What the theorems show

    - Agent: a request is admitted once within its window (with the one instant
      where it is admitted twice), results go only to authorised endpoints,
      write methods never succeed, every answer follows its audit event,
      admission and memory stay within the configured limits, the nonce cache
      refines a cache in which pruning is a filter.  The certificate reader finds
      the validity of every certificate in DER or PEM, and panics exactly on the
      time texts described there.
    - Audit log: an acknowledged event is in the log or the spool for ever, in
      order and once, as long as a failed append leaves no bytes; the spool
      empties when files can be written again; an answer goes out only with its
      event on record.  A torn append can lose an acknowledged event.
    - Registry: the operations refine an abstract life cycle of endpoints;
      registry and trust table stay coherent; the dispatch check lets through
      exactly the current endpoint of an enabled node; a retired endpoint stays
      out; token budgets hold; approvals bind a fingerprint and can be repeated.
    - Stored text: the filter accepts exactly the documents described by a
      declarative predicate, and accepted text contains no address literal.
    - Scheduler: a superseded claim has no effect; a lease excludes others until
      it ends; a takeover closes the run left open; a claim can be taken once
      the lease is over; job clocks never go back; a run that is open when its
      claim is released stays open.
    - Alerts: a request is posted only to the URL of its hook, whose host is
      allowed, and reaches only addresses outside a table of reserved networks
      when that host is in normal form (with a trailing dot it escapes the pin);
      the payload of every stored alert has a closed shape; a claim records one
      outcome; under any interleaving of workers an item counts its outcomes,
      which are at most the limit of its hook; an outcome with an unknown status
      class cannot be recorded.
    - Trust policies: the order of a policy file does not matter; a plan reports
      drift exactly when the registry is not what the policy declares; a recorded
      approval was signed by a reviewer of the keyring for that plan; the chain
      from signature to history completes; the history only grows and stays
      readable.
    - Health: a node is healthy exactly under the conditions stated there, which
      ask for a recent observation but not for a successful one; an evaluation has one audited start and one audited end
      and does not change afterwards; a second pass in the same minute is a
      replay; rollups of evaluations at whole seconds are written by the store,
      and their counters are those of the slots.  An evaluation with a fraction
      of a second just after a bucket that is covered makes the store refuse the
      batch.  The projection of service levels is exact, column by column.
    - Retention: a run deletes the planned number of rows that are due, oldest
      first, whatever its batches; a repeated command with the same operation
      identifier answers from its records and changes nothing; a dry run
      predicts what a run deletes.
    - Read-only API: a caller is admitted exactly with a configured credential;
      a refused caller learns nothing of the database; a public listener is
      authenticated; cursors hold for a day and for one query, and following
      them lists every row of the health history once.

    Theorems about sequences quantify over every script of operations, failing
    ones included.  A theorem with hypotheses is applied at a concrete input by
    the lemma of the same name ending in [_witness].

    ** Conventions and bounds

    - Integers are [Z]; casts and wrapping or saturating arithmetic are written
      out at their width.  Instants are nanoseconds.  No definition of the
      programs uses fuel that could run out: loops are structural over lists or
      over the bytes that are left to read, or run a given number of rounds (the
      octets and groups of an address, the bytes of a length, the rounds of the
      alert worker).  The client that follows cursors in
      ApiPagination has fuel, and the theorem about it gives it one page more than
      there are rows, which is enough as every page with a cursor has a row.
    - Clock readings, random values and answers from the network are arguments.
    - Of a message that embeds the text of a third-party error the model keeps
      the fixed part.
    - Columns with JSON text hold the JSON value.  A read that the source
      unwraps right after the write of the same row is an error in the model
      that cannot occur; the check of the affected row count is left out where
      the row was read by its key in the same transaction.
    - Panics of the time crate on dates outside its range are not modelled.
    - Writing a response fails or succeeds as a whole.  The limits on the size of
      the files of a policy review, and the decoding of the path of a request,
      are left to the inputs.
    - A worker is known by its owner identifier, which is random for every pass,
      and acts on the claim it obtained last.

    ** Not modelled

    - I/O: accept loops and connections, file permissions, HTTP parsing, process
      entry points, command line and output, backup, doctor, the daemon loop of
      the health evaluator and the file of an audit export.
    - The PostgreSQL backend, a second implementation of the store over a
      server, and the migrations, SQL text from which the model reads the
      constraints it uses.
    - The candidates of the alert evaluation, the direct delivery and the output
      of alerts.rs, controlled_writes.rs, change.rs, governance.rs with its tables
      and the service loop of scheduler.rs, which work on top of the tables
      modelled here, and four writers of scheduler rows that only tests call.
    - The other ocserv providers, with sanitize.rs and the permission checks of
      their files: the answers are inputs of Server.
    - The payload types of capabilities.rs, controlled_write.rs and ocserv.rs,
      the snapshot schema and the dashboard. *)

From Stdlib Require Export ZArith Lia Bool Ascii String.
From stdpp Require Export base tactics option list numbers strings gmap fin_maps sets.

#[global] Open Scope Z_scope.
#[global] Set Default Goal Selector "!".

(** ** Results: Rust's [Result<A, E>] and the [?] operator *)

Inductive result (E A : Type) : Type :=
| Ok (a : A)
| Err (e : E).
Arguments Ok {E A} _.
Arguments Err {E A} _.

Declare Scope fleet_scope.
Delimit Scope fleet_scope with fleet.
#[global] Open Scope fleet_scope.

(** [let? x := e in k]: evaluate [e]; an [Err] is returned at once. *)
Notation "'let?' x ':=' e 'in' k" :=
  (match e with Ok x => k | Err err => Err err end)
  (at level 10, x pattern, e at level 100, k at level 200,
   format "'[v' 'let?'  x  ':='  e  'in' '//' k ']'") : fleet_scope.

(** [check? b else err in k]: the early return [if !b { return Err(err) }]. *)
Notation "'check?' b 'else' err 'in' k" :=
  (if b then k else Err err)
  (at level 10, b at level 100, err at level 100, k at level 200,
   format "'[v' 'check?'  b  'else'  err  'in' '//' k ']'") : fleet_scope.

(** [reject? b as err in k]: the early return [if b { return Err(err) }]. *)
Notation "'reject?' b 'as' err 'in' k" :=
  (if b then Err err else k)
  (at level 10, b at level 100, err at level 100, k at level 200,
   format "'[v' 'reject?'  b  'as'  err  'in' '//' k ']'") : fleet_scope.

#[global] Instance result_eq_dec {E A} `{EqDecision E, EqDecision A} :
  EqDecision (result E A).
Proof. solve_decision. Defined.

Definition is_ok {E A} (r : result E A) : bool :=
  match r with Ok _ => true | Err _ => false end.

Definition map_err {E F A} (f : E -> F) (r : result E A) : result F A :=
  match r with Ok a => Ok a | Err e => Err (f e) end.

(** [Option::ok_or]. *)
Definition ok_or {E A} (o : option A) (e : E) : result E A :=
  match o with Some a => Ok a | None => Err e end.

(** A [for] loop whose body may return early with [?]. *)
Fixpoint try_for_each {E A} (f : A -> result E unit) (l : list A) : result E unit :=
  match l with
  | [] => Ok tt
  | x :: l' => let? _ := f x in try_for_each f l'
  end.

(** ** Machine integers: values are [Z], the width is written out *)

Definition u8_max : Z := 2 ^ 8 - 1.
Definition u16_max : Z := 2 ^ 16 - 1.
Definition u32_max : Z := 2 ^ 32 - 1.
Definition u64_max : Z := 2 ^ 64 - 1.
Definition i64_min : Z := - 2 ^ 63.
Definition i64_max : Z := 2 ^ 63 - 1.

(** [x as u32]. *)
Definition as_u32 (x : Z) : Z := x mod 2 ^ 32.

(** [x as i64] from a 64-bit unsigned value. *)
Definition as_i64 (x : Z) : Z := (x + 2 ^ 63) mod 2 ^ 64 - 2 ^ 63.

(** [a.saturating_add(b)] on an unsigned type with maximum [mx]. *)
Definition saturating_add (mx a b : Z) : Z := Z.min (a + b) mx.

(** [a.saturating_sub(b)] on an unsigned type. *)
Definition saturating_sub (a b : Z) : Z := Z.max (a - b) 0.

(** [a.checked_add(b)] on a type with maximum [mx] and non-negative [b]. *)
Definition checked_add (mx a b : Z) : option Z :=
  if a + b <=? mx then Some (a + b) else None.

Definition in_range (lo hi x : Z) : bool := (lo <=? x) && (x <=? hi).

(** ** Lemmas on results *)

Lemma try_for_each_ok {E A} (f : A -> result E unit) l :
  try_for_each f l = Ok tt <-> Forall (fun x => f x = Ok tt) l.
Proof.
  induction l as [|x l IH]; simpl; [split; auto|].
  destruct (f x) as [[]|e] eqn:Hf; rewrite Forall_cons.
  - rewrite IH. tauto.
  - split; [discriminate|]. intros [H _]. congruence.
Qed.

Lemma try_for_each_err {E A} (f : A -> result E unit) l e :
  try_for_each f l = Err e -> exists x, x ∈ l /\ f x = Err e.
Proof.
  induction l as [|x l IH]; simpl; [discriminate|].
  destruct (f x) as [u|e'] eqn:Hf.
  - intros H. destruct (IH H) as (y & Hy & He). exists y. split; [by right|done].
  - intros [= ->]. exists x. split; [by left|done].
Qed.

Lemma ok_or_ok {E A} (o : option A) (e : E) a : ok_or o e = Ok a <-> o = Some a.
Proof. destruct o; simpl; split; congruence. Qed.

Lemma map_err_ok {E F A} (f : E -> F) (r : result E A) a : map_err f r = Ok a <-> r = Ok a.
Proof. destruct r; simpl; split; congruence. Qed.

Lemma in_range_spec lo hi x : in_range lo hi x = true <-> lo <= x <= hi.
Proof. unfold in_range. rewrite andb_true_iff, !Z.leb_le. tauto. Qed.

Lemma saturating_sub_nonneg a b : 0 <= saturating_sub a b.
Proof. unfold saturating_sub. lia. Qed.

Lemma saturating_sub_small a b : 0 <= b <= a -> saturating_sub a b = a - b.
Proof. unfold saturating_sub. lia. Qed.

Lemma as_i64_small x : 0 <= x <= i64_max -> as_i64 x = x.
Proof. unfold as_i64, i64_max. intros Hx. rewrite Z.mod_small by lia. lia. Qed.

Lemma saturating_add_small mx a b : a + b <= mx -> saturating_add mx a b = a + b.
Proof. unfold saturating_add. lia. Qed.

(** ** Lemmas on maps *)

(** Renaming the keys injectively keeps the number of entries. *)
Lemma map_size_kmap `{Countable K1, Countable K2} {A} (f : K1 -> K2) `{!Inj (=) (=) f}
    (m : gmap K1 A) :
  size (kmap (M2 := gmap K2) f m) = size m.
Proof.
  induction m as [|i x m Hi _ IH] using map_first_key_ind; [by rewrite kmap_empty|].
  rewrite (kmap_insert f), !map_size_insert_None; [by rewrite IH|done|].
  by rewrite (lookup_kmap f).
Qed.

(** ** Proof automation *)

Create HintDb fleet discriminated.
#[export] Hint Resolve saturating_sub_nonneg : fleet.

(** Turn boolean facts in the context into propositions. *)
Ltac bool_facts :=
  repeat match goal with
  | H : andb _ _ = true |- _ => apply andb_true_iff in H; destruct H
  | H : orb _ _ = false |- _ => apply orb_false_iff in H; destruct H
  | H : negb _ = true |- _ => apply negb_true_iff in H
  | H : negb _ = false |- _ => apply negb_false_iff in H
  | H : (_ =? _)%Z = true |- _ => apply Z.eqb_eq in H
  | H : (_ =? _)%Z = false |- _ => apply Z.eqb_neq in H
  | H : (_ <=? _)%Z = true |- _ => apply Z.leb_le in H
  | H : (_ <=? _)%Z = false |- _ => apply Z.leb_gt in H
  | H : (_ <? _)%Z = true |- _ => apply Z.ltb_lt in H
  | H : (_ <? _)%Z = false |- _ => apply Z.ltb_ge in H
  | H : in_range _ _ _ = true |- _ => apply in_range_spec in H
  | H : bool_decide (_ <> _) = false |- _ =>
      apply bool_decide_eq_false in H; apply dec_stable in H
  | H : bool_decide _ = true |- _ => apply bool_decide_eq_true in H
  | H : bool_decide _ = false |- _ => apply bool_decide_eq_false in H
  | H : String.eqb _ _ = true |- _ => apply String.eqb_eq in H
  | H : String.eqb _ _ = false |- _ => apply String.eqb_neq in H
  end.

(** Walk down one successful chain of [let?], [check?] and [reject?]: in a
    hypothesis [f ... = Ok r], split every scrutinee and drop the branches
    that return an error. *)
Ltac peel_in H :=
  repeat match type of H with
  | (if ?b then _ else _) = _ =>
      let E := fresh "Hc" in destruct b eqn:E; try discriminate H
  | (match ?s with _ => _ end) = _ =>
      let E := fresh "Hm" in destruct s eqn:E; try discriminate H
  | _ => progress cbv zeta in H
  end.

Ltac peel H := peel_in H; bool_facts; simplify_eq.

(** The same through [map_err], [ok_or] and results of type [unit]. *)
Ltac unwrap :=
  repeat match goal with
  | H : map_err _ _ = Ok _ |- _ => apply map_err_ok in H
  | H : ok_or _ _ = Ok _ |- _ => apply ok_or_ok in H
  | H : (if ?b then _ else _) = Ok _ |- _ =>
      let E := fresh "Hc" in destruct b eqn:E; try discriminate H
  | u : unit |- _ => destruct u
  end.

Ltac peel_all H := peel_in H; unwrap; bool_facts; simplify_eq.

(** The same into results that are themselves chains. *)
Ltac peel_deep H :=
  peel_all H;
  repeat match goal with
  | H' : (match ?s with _ => _ end) = Ok _ |- _ =>
      let E := fresh "Hm" in destruct s eqn:E; try discriminate H'
  end;
  unwrap; bool_facts; simplify_eq.
