(* ===== verification/Text.v ===== *)
(** * Text: the parts of Rust's [str] and [char] that the sources use

    A [str] is its UTF-8 bytes, a [string] here; [len] counts bytes.  [chars]
    decodes to Unicode scalar values, with [char::is_control] and
    [char::is_whitespace] on them.  The [is_ascii_*] family works on one byte
    as a [Z]. *)

From S2P Require Import Prelude.

(** ** Bytes *)

Definition byte_of (a : ascii) : Z := Z.of_N (N_of_ascii a).

(** [s.bytes()] / [s.as_bytes()]. *)
Definition str_bytes (s : string) : list Z := map byte_of (list_ascii_of_string s).

(** [s.len()]. *)
Definition str_len (s : string) : Z := Z.of_nat (String.length s).

(** [s.is_empty()]. *)
Definition str_is_empty (s : string) : bool := String.eqb s EmptyString.

Definition is_ascii_digit (b : Z) : bool := in_range 48 57 b.
Definition is_ascii_lowercase (b : Z) : bool := in_range 97 122 b.
Definition is_ascii_uppercase (b : Z) : bool := in_range 65 90 b.
Definition is_ascii_alphabetic (b : Z) : bool :=
  is_ascii_lowercase b || is_ascii_uppercase b.
Definition is_ascii_alphanumeric (b : Z) : bool :=
  is_ascii_alphabetic b || is_ascii_digit b.
Definition is_ascii_hexdigit (b : Z) : bool :=
  is_ascii_digit b || in_range 65 70 b || in_range 97 102 b.
Definition is_ascii_graphic (b : Z) : bool := in_range 33 126 b.
Definition is_ascii_control (b : Z) : bool := in_range 0 31 b || (b =? 127).
(** [u8::is_ascii_whitespace]: space, tab, LF, FF, CR. *)
Definition is_ascii_whitespace (b : Z) : bool :=
  (b =? 32) || (b =? 9) || (b =? 10) || (b =? 12) || (b =? 13).

(** [s.is_ascii()]. *)
Definition str_is_ascii (s : string) : bool := forallb (fun b => b <? 128) (str_bytes s).

Definition ascii_lower (a : ascii) : ascii :=
  if is_ascii_uppercase (byte_of a)
  then ascii_of_N (N_of_ascii a + 32) else a.

(** [s.to_ascii_lowercase()]. *)
Definition to_ascii_lowercase (s : string) : string :=
  string_of_list_ascii (map ascii_lower (list_ascii_of_string s)).

(** ** Unicode scalar values *)

(** The UTF-8 decoder behind [str::chars]; a [str] is always well formed, so
    continuation bytes are not checked again. *)
Fixpoint decode_utf8 (bs : list Z) : list Z :=
  match bs with
  | [] => []
  | b0 :: r0 =>
      if b0 <? 128 then b0 :: decode_utf8 r0
      else match r0 with
      | [] => []
      | b1 :: r1 =>
          if b0 <? 224 then (b0 mod 32) * 64 + b1 mod 64 :: decode_utf8 r1
          else match r1 with
          | [] => []
          | b2 :: r2 =>
              if b0 <? 240
              then (b0 mod 16) * 4096 + (b1 mod 64) * 64 + b2 mod 64 :: decode_utf8 r2
              else match r2 with
              | [] => []
              | b3 :: r3 =>
                  (b0 mod 8) * 262144 + (b1 mod 64) * 4096 + (b2 mod 64) * 64
                  + b3 mod 64 :: decode_utf8 r3
              end
          end
      end
  end.

(** [s.chars()]. *)
Definition chars (s : string) : list Z := decode_utf8 (str_bytes s).

(** [char::is_control]: the general category Cc. *)
Definition is_control (c : Z) : bool := in_range 0 31 c || in_range 127 159 c.

(** [char::is_whitespace]: the property White_Space. *)
Definition is_whitespace (c : Z) : bool :=
  in_range 9 13 c || (c =? 32) || (c =? 133) || (c =? 160) || (c =? 5760)
  || in_range 8192 8202 c || (c =? 8232) || (c =? 8233) || (c =? 8239)
  || (c =? 8287) || (c =? 12288).

(** [s.trim().is_empty()]. *)
Definition trim_is_empty (s : string) : bool := forallb is_whitespace (chars s).

(** [s.trim() == s]: neither end is white space. *)
Definition is_trimmed (s : string) : bool :=
  match chars s, last (chars s) with
  | c :: _, Some d => negb (is_whitespace c) && negb (is_whitespace d)
  | _, _ => true
  end.

(** The characters of a [str] with the bytes of each. *)
Fixpoint char_chunks (s : string) : list (Z * string) :=
  match s with
  | EmptyString => []
  | String a0 r0 =>
      let b0 := byte_of a0 in
      if b0 <? 128 then (b0, String a0 EmptyString) :: char_chunks r0
      else match r0 with
      | EmptyString => []
      | String a1 r1 =>
          let b1 := byte_of a1 in
          if b0 <? 224
          then ((b0 mod 32) * 64 + b1 mod 64, String a0 (String a1 EmptyString))
               :: char_chunks r1
          else match r1 with
          | EmptyString => []
          | String a2 r2 =>
              let b2 := byte_of a2 in
              if b0 <? 240
              then ((b0 mod 16) * 4096 + (b1 mod 64) * 64 + b2 mod 64,
                    String a0 (String a1 (String a2 EmptyString))) :: char_chunks r2
              else match r2 with
              | EmptyString => []
              | String a3 r3 =>
                  ((b0 mod 8) * 262144 + (b1 mod 64) * 4096 + (b2 mod 64) * 64
                   + byte_of a3 mod 64,
                   String a0 (String a1 (String a2 (String a3 EmptyString))))
                  :: char_chunks r3
              end
          end
      end
  end.

Fixpoint drop_while {A} (p : A -> bool) (l : list A) : list A :=
  match l with
  | [] => []
  | x :: l' => if p x then drop_while p l' else l
  end.

Definition concat_chunks (l : list (Z * string)) : string :=
  foldr (fun c acc => String.append c.2 acc) EmptyString l.

(** [s.trim()]. *)
Definition str_trim (s : string) : string :=
  let ws c := is_whitespace (fst c) in
  concat_chunks (rev (drop_while ws (rev (drop_while ws (char_chunks s))))).

(** [s.trim_end_matches(p)] for a predicate on characters. *)
Definition trim_end_matches (p : Z -> bool) (s : string) : string :=
  concat_chunks (rev (drop_while (fun c => p (fst c)) (rev (char_chunks s)))).

(** [s.split(p)]: the pieces between the matching characters, empty ones
    included. *)
Fixpoint split_chunks (p : Z -> bool) (l : list (Z * string)) : list (list (Z * string)) :=
  match l with
  | [] => [[]]
  | c :: l' =>
      if p c.1 then [] :: split_chunks p l'
      else match split_chunks p l' with
           | piece :: rest => (c :: piece) :: rest
           | [] => [[c]]
           end
  end.

Definition str_split (p : Z -> bool) (s : string) : list string :=
  map concat_chunks (split_chunks p (char_chunks s)).

(** [s.strip_prefix(p)]. *)
Fixpoint strip_prefix (p s : string) : option string :=
  match p, s with
  | EmptyString, _ => Some s
  | String a p', String b s' => if Ascii.eqb a b then strip_prefix p' s' else None
  | String _ _, EmptyString => None
  end.

(** ** Searching *)

(** [s.starts_with(p)]. *)
Definition starts_with (p s : string) : bool := String.prefix p s.

(** [s.contains(p)]. *)
Fixpoint str_contains (p s : string) : bool :=
  String.prefix p s ||
  match s with
  | EmptyString => false
  | String _ s' => str_contains p s'
  end.

(** [s.ends_with(p)]. *)
Definition ends_with (p s : string) : bool :=
  String.prefix (string_of_list_ascii (rev (list_ascii_of_string p)))
                (string_of_list_ascii (rev (list_ascii_of_string s))).

(** [s.contains(c)] for a byte character. *)
Definition contains_byte (c : Z) (s : string) : bool :=
  existsb (fun b => b =? c) (str_bytes s).

(** Byte-wise lexicographic order, Rust's [Ord] on [str]. *)
Fixpoint bytes_ltb (a b : list Z) : bool :=
  match a, b with
  | _, [] => false
  | [], _ :: _ => true
  | x :: a', y :: b' => if x <? y then true else if x =? y then bytes_ltb a' b' else false
  end.

Definition str_ltb (a b : string) : bool := bytes_ltb (str_bytes a) (str_bytes b).

(** [sort_unstable] on a slice of strings. *)
Fixpoint insert_str (x : string) (l : list string) : list string :=
  match l with
  | [] => [x]
  | y :: l' => if str_ltb y x then y :: insert_str x l' else x :: l
  end.

Definition sort_strs (l : list string) : list string := foldr insert_str [] l.

(** The text with the given bytes. *)
Definition str_of_bytes (bs : list Z) : string :=
  string_of_list_ascii (map (fun b => ascii_of_N (Z.to_N b)) bs).

(** [format!("{bytes:x}")]: two lowercase digits for every byte. *)
Definition hex_lower (bytes : list Z) : string :=
  string_of_list_ascii (flat_map (fun b =>
    let digit n := ascii_of_N (Z.to_N (if n <? 10 then 48 + n else 87 + n)) in
    [digit (b / 16); digit (b mod 16)]) bytes).

(** ** Bytes as text *)

Definition is_continuation (b : Z) : bool := in_range 128 191 b.

(** The sequence at the start of non-empty bytes: whether it encodes a scalar
    value, and how many bytes it or its longest proper start takes. *)
Definition utf8_sequence (bs : list Z) : bool * nat :=
  let at_ i := nth i bs 0 in
  let b0 := at_ 0%nat in
  if b0 <? 128 then (true, 1%nat)
  else if in_range 194 223 b0 then
    if is_continuation (at_ 1%nat) then (true, 2%nat) else (false, 1%nat)
  else if in_range 224 239 b0 then
    let lo := if b0 =? 224 then 160 else 128 in
    let hi := if b0 =? 237 then 159 else 191 in
    if negb (in_range lo hi (at_ 1%nat)) then (false, 1%nat)
    else if is_continuation (at_ 2%nat) then (true, 3%nat) else (false, 2%nat)
  else if in_range 240 244 b0 then
    let lo := if b0 =? 240 then 144 else 128 in
    let hi := if b0 =? 244 then 143 else 191 in
    if negb (in_range lo hi (at_ 1%nat)) then (false, 1%nat)
    else if negb (is_continuation (at_ 2%nat)) then (false, 2%nat)
    else if is_continuation (at_ 3%nat) then (true, 4%nat) else (false, 3%nat)
  else (false, 1%nat).

(** All sequences, in order; [skip] bytes belong to the one before. *)
Fixpoint utf8_sequences (skip : nat) (bs : list Z) : list (bool * list Z) :=
  match bs with
  | [] => []
  | _ :: rest =>
      match skip with
      | S k => utf8_sequences k rest
      | O => let '(ok, n) := utf8_sequence bs in
             (ok, take n bs) :: utf8_sequences (n - 1) rest
      end
  end.

(** [str::from_utf8(bs).is_ok()]. *)
Definition utf8_valid (bs : list Z) : bool := forallb fst (utf8_sequences 0 bs).

(** [String::from_utf8_lossy(bs)]: what is not valid becomes U+FFFD. *)
Definition from_utf8_lossy (bs : list Z) : list Z :=
  flat_map (fun '(ok, seq) => if (ok : bool) then seq else [239; 191; 189]) (utf8_sequences 0 bs).

(** [s.is_char_boundary(i)] and [&s[a..b]], which panics ([None]) between two
    bytes of a character or out of range. *)
Definition is_char_boundary (bs : list Z) (i : nat) : bool :=
  (i =? length bs)%nat || match bs !! i with Some b => negb (is_continuation b) | None => false end.
Definition str_slice (bs : list Z) (a b : nat) : option (list Z) :=
  if (a <=? b)%nat && is_char_boundary bs a && is_char_boundary bs b
  then Some (take (b - a) (drop a bs)) else None.

(** [s.lines()]. *)
Definition strip_cr (s : string) : string :=
  if ends_with (str_of_bytes [13]) s then String.substring 0 (String.length s - 1) s else s.
Fixpoint join_lines (parts : list string) : list string :=
  match parts with
  | [] => []
  | [lst] => if str_is_empty lst then [] else [lst]
  | p :: rest => strip_cr p :: join_lines rest
  end.
Definition str_lines (s : string) : list string := join_lines (str_split (fun c => c =? 10) s).

(** [s.parse::<T>()] for an integer type with bounds [lo] and [hi]: an optional
    sign (minus only for a signed type) and at least one digit. *)
Fixpoint parse_digits (neg : bool) (lo hi acc : Z) (bs : list Z) : option Z :=
  match bs with
  | [] => Some acc
  | b :: rest =>
      let acc' := if neg then acc * 10 - (b - 48) else acc * 10 + (b - 48) in
      if is_ascii_digit b && in_range lo hi acc' then parse_digits neg lo hi acc' rest else None
  end.
Definition int_from_str (lo hi : Z) (bs : list Z) : option Z :=
  match bs with
  | [] => None
  | b :: rest =>
      if (b =? 43) || (b =? 45) && (lo <? 0) then
        match rest with [] => None | _ => parse_digits (b =? 45) lo hi 0 rest end
      else parse_digits false lo hi 0 bs
  end.

(** Every line with a line feed after it. *)
Definition unlines (ls : list string) : string :=
  foldr (fun l acc => l +:+ String (ascii_of_nat 10) acc) EmptyString ls.

Definition printable (s : string) : bool := forallb (in_range 32 126) (str_bytes s).

(** ** Lemmas *)

Lemma byte_of_bound a : 0 <= byte_of a <= 255.
Proof.
  unfold byte_of. pose proof (N_ascii_bounded a). lia.
Qed.

Lemma str_bytes_bound s : Forall (fun b => 0 <= b <= 255) (str_bytes s).
Proof.
  unfold str_bytes. apply Forall_forall. intros b Hb.
  apply list_elem_of_In, in_map_iff in Hb as (a & <- & _). apply byte_of_bound.
Qed.

Lemma str_bytes_length s : Z.of_nat (length (str_bytes s)) = str_len s.
Proof.
  unfold str_bytes, str_len. rewrite length_map. f_equal.
  induction s; simpl; congruence.
Qed.

Lemma str_len_nonneg s : 0 <= str_len s.
Proof. unfold str_len. lia. Qed.

Lemma byte_of_inj a b : byte_of a = byte_of b -> a = b.
Proof.
  unfold byte_of. intros H.
  rewrite <- (ascii_N_embedding a), <- (ascii_N_embedding b). f_equal. lia.
Qed.

Lemma str_bytes_inj s t : str_bytes s = str_bytes t -> s = t.
Proof.
  unfold str_bytes. revert t. induction s as [|a s IH]; intros [|b t] H; try discriminate; [done|].
  simpl in H. injection H as Hb Ht. apply byte_of_inj in Hb. subst. f_equal. by apply IH.
Qed.

Lemma bytes_ltb_irrefl a : bytes_ltb a a = false.
Proof. induction a as [|x a IH]; simpl; [done|]. rewrite Z.ltb_irrefl, Z.eqb_refl. done. Qed.

Lemma bytes_ltb_trans a b c :
  bytes_ltb a b = true -> bytes_ltb b c = true -> bytes_ltb a c = true.
Proof.
  revert b c. induction a as [|x a IH]; intros [|y b] [|z c]; simpl; try done.
  destruct (x <? y) eqn:H1; destruct (y <? z) eqn:H2;
    destruct (x =? y) eqn:H3; destruct (y =? z) eqn:H4; try done; intros Ha Hb.
  all: destruct (x <? z) eqn:H5; try done; destruct (x =? z) eqn:H6; bool_facts;
    try lia; eauto.
Qed.

Lemma bytes_ltb_total a b : a <> b -> bytes_ltb a b = true \/ bytes_ltb b a = true.
Proof.
  revert b. induction a as [|x a IH]; intros [|y b] H; simpl; try done; auto.
  destruct (Z.lt_trichotomy x y) as [Hl|[->|Hl]].
  - apply Z.ltb_lt in Hl as ->. auto.
  - rewrite Z.ltb_irrefl, Z.eqb_refl. apply IH. congruence.
  - right. apply Z.ltb_lt in Hl as ->. done.
Qed.

Lemma str_ltb_irrefl s : str_ltb s s = false.
Proof. apply bytes_ltb_irrefl. Qed.

Lemma str_ltb_trans a b c : str_ltb a b = true -> str_ltb b c = true -> str_ltb a c = true.
Proof. apply bytes_ltb_trans. Qed.

Lemma str_ltb_total a b : a <> b -> str_ltb a b = true \/ str_ltb b a = true.
Proof. intros H. apply bytes_ltb_total. intros E. apply H. by apply str_bytes_inj. Qed.

(** *** Pieces of a text *)

Lemma char_chunks_ascii s :
  forallb (fun b => b <? 128) (str_bytes s) = true ->
  char_chunks s = map (fun a => (byte_of a, String a EmptyString)) (list_ascii_of_string s).
Proof.
  induction s as [|a s IH]; [done|]. unfold str_bytes. simpl. intros H. bool_facts.
  destruct (byte_of a <? 128) eqn:E; [|bool_facts; lia]. f_equal. by apply IH.
Qed.

Lemma concat_chunks_ascii l :
  concat_chunks (map (fun a => (byte_of a, String a EmptyString)) l) = string_of_list_ascii l.
Proof. induction l as [|a l IH]; simpl; [done|]. by rewrite IH. Qed.

Lemma split_chunks_none p l :
  forallb (fun c => negb (p (fst c))) l = true -> split_chunks p l = [l].
Proof.
  induction l as [|c l IH]; simpl; [done|]. intros H. bool_facts.
  rewrite H, IH; done.
Qed.

Lemma split_chunks_head p l c l' :
  forallb (fun c => negb (p (fst c))) l = true -> p c.1 = true ->
  split_chunks p (l ++ c :: l') = l :: split_chunks p l'.
Proof.
  intros Hl Hc. induction l as [|b l IH]; simpl; [by rewrite Hc|].
  simpl in Hl. bool_facts. rewrite H, IH; done.
Qed.

Lemma split_chunks_nonempty p l : split_chunks p l <> [].
Proof. destruct l as [|c l]; simpl; [done|]. repeat case_match; done. Qed.

Lemma split_chunks_app p l c l' :
  p c.1 = true -> split_chunks p (l ++ c :: l') = split_chunks p l ++ split_chunks p l'.
Proof.
  intros Hc. induction l as [|b l IH]; simpl; [by rewrite Hc|].
  destruct (p b.1); [by rewrite IH|]. rewrite IH.
  pose proof (split_chunks_nonempty p l). destruct (split_chunks p l); done.
Qed.

Lemma list_ascii_app s t :
  list_ascii_of_string (s +:+ t) = list_ascii_of_string s ++ list_ascii_of_string t.
Proof. induction s as [|a s IH]; [done|]. simpl. by rewrite IH. Qed.

(** *** Bytes of ASCII text *)

Lemma str_of_bytes_str_bytes s : str_of_bytes (str_bytes s) = s.
Proof.
  unfold str_of_bytes, str_bytes. rewrite map_map.
  rewrite <- (string_of_list_ascii_of_string s) at 2. f_equal.
  induction (list_ascii_of_string s) as [|a l IH]; [done|]. simpl. rewrite IH. f_equal.
  unfold byte_of. by rewrite N2Z.id, ascii_N_embedding.
Qed.

Lemma utf8_sequences_ascii bs :
  Forall (fun b => b < 128) bs -> utf8_sequences 0 bs = map (fun b => (true, [b])) bs.
Proof.
  induction 1 as [|b bs Hb _ IH]; [done|]. cbn [utf8_sequences].
  unfold utf8_sequence. cbn [nth]. rewrite (proj2 (Z.ltb_lt _ _) Hb). simpl. by rewrite IH.
Qed.

Lemma utf8_valid_ascii bs : Forall (fun b => b < 128) bs -> utf8_valid bs = true.
Proof. intros Hb. unfold utf8_valid. rewrite utf8_sequences_ascii by done. by induction Hb. Qed.

Lemma from_utf8_lossy_ascii bs : Forall (fun b => b < 128) bs -> from_utf8_lossy bs = bs.
Proof.
  intros Hb. unfold from_utf8_lossy. rewrite utf8_sequences_ascii by done.
  induction Hb as [|b bs _ _ IH]; [done|]. simpl. by rewrite IH.
Qed.

(** *** Lines *)

Lemma str_bytes_app s t : str_bytes (s +:+ t) = str_bytes s ++ str_bytes t.
Proof. unfold str_bytes. by rewrite list_ascii_app, map_app. Qed.

Lemma printable_ascii s : printable s = true -> Forall (fun b => b < 128) (str_bytes s).
Proof.
  unfold printable. rewrite forallb_forall. intros Hs. apply Forall_forall. intros b Hb.
  apply list_elem_of_In, Hs, in_range_spec in Hb. lia.
Qed.

Lemma unlines_ascii ls :
  Forall (fun l => printable l = true) ls -> Forall (fun b => b < 128) (str_bytes (unlines ls)).
Proof.
  induction 1 as [|l ls Hl _ IH]; [constructor|]. cbn [unlines foldr].
  rewrite str_bytes_app. apply Forall_app_2; [by apply printable_ascii|].
  constructor; [done|]. exact IH.
Qed.

Lemma strip_cr_printable s : printable s = true -> strip_cr s = s.
Proof.
  intros Hs. unfold strip_cr, ends_with.
  destruct (rev (list_ascii_of_string s)) as [|a l] eqn:E; [done|].
  cbn. case_match; [|done]. case_match; [|done]. exfalso.
  assert (a ∈ list_ascii_of_string s) as Hin.
  { apply list_elem_of_In, in_rev. rewrite E. by left. }
  unfold printable in Hs. rewrite forallb_forall in Hs.
  assert (in_range 32 126 (byte_of a) = true) as Hr.
  { apply Hs, in_map. by apply list_elem_of_In. }
  subst a. discriminate.
Qed.

Lemma split_unlines ls :
  Forall (fun l => printable l = true) ls ->
  str_split (fun c => c =? 10) (unlines ls) = ls ++ [EmptyString].
Proof.
  intros Hls. unfold str_split. pose proof (unlines_ascii _ Hls) as Ha.
  rewrite char_chunks_ascii.
  2: { apply forallb_forall. intros b Hb. rewrite Forall_forall in Ha.
       apply Z.ltb_lt, Ha. by apply list_elem_of_In. }
  clear Ha. induction Hls as [|l ls Hl _ IH]; [done|].
  change (unlines (l :: ls)) with (l +:+ String (ascii_of_nat 10) (unlines ls)).
  rewrite list_ascii_app, map_app. cbn [list_ascii_of_string map].
  rewrite split_chunks_head; [|clear IH|done].
  - cbn [map]. rewrite IH, concat_chunks_ascii. simpl. f_equal. apply string_of_list_ascii_of_string.
  - unfold printable, str_bytes in Hl. induction (list_ascii_of_string l) as [|a s IHs]; [done|].
    simpl in *. bool_facts. rewrite IHs by done. rewrite (proj2 (Z.eqb_neq _ _)) by lia. done.
Qed.

Lemma str_lines_unlines ls :
  Forall (fun l => printable l = true) ls -> str_lines (unlines ls) = ls.
Proof.
  intros Hls. unfold str_lines. rewrite split_unlines by done.
  induction Hls as [|l ls Hl _ IH]; [done|]. cbn [app join_lines].
  destruct (ls ++ [EmptyString]) eqn:E; [by destruct ls|]. by rewrite IH, strip_cr_printable.
Qed.

(** *** Trimming *)

Lemma drop_while_none {A} (p : A -> bool) l :
  forallb (fun x => negb (p x)) l = true -> drop_while p l = l.
Proof. destruct l as [|x l]; [done|]. simpl. intros H. bool_facts. by rewrite H. Qed.

Lemma str_trim_graphic s : forallb (in_range 33 126) (str_bytes s) = true -> str_trim s = s.
Proof.
  intros Hs. unfold str_trim. rewrite char_chunks_ascii.
  2: { rewrite forallb_forall in *. intros b Hb. apply Hs, in_range_spec in Hb. apply Z.ltb_lt. lia. }
  assert (forallb (fun c : Z * string => negb (is_whitespace c.1))
            (map (fun a => (byte_of a, String a EmptyString)) (list_ascii_of_string s)) = true) as Hw.
  { unfold str_bytes in Hs. induction (list_ascii_of_string s) as [|a l IH]; [done|].
    simpl in *. bool_facts. rewrite IH by done. rewrite andb_true_r. apply negb_true_iff.
    unfold is_whitespace, in_range. repeat (apply orb_false_iff; split); lia. }
  cbv zeta. rewrite (drop_while_none _ (map _ _)) by exact Hw. rewrite drop_while_none.
  - rewrite rev_involutive, concat_chunks_ascii. apply string_of_list_ascii_of_string.
  - rewrite forallb_forall in *. intros c Hc. apply Hw. by apply in_rev.
Qed.

Lemma drop_while_last {A} (p : A -> bool) l x :
  p x = false -> exists l', drop_while p (l ++ [x]) = l' ++ [x].
Proof.
  intros Hx. induction l as [|y l IH]; simpl; [by rewrite Hx; exists []|].
  destruct (p y); [done|]. by exists (y :: l).
Qed.

(** A text that starts with a graphic character is not blank. *)
Lemma str_trim_head a s :
  in_range 33 126 (byte_of a) = true -> str_is_empty (str_trim (String a s)) = false.
Proof.
  intros Ha%in_range_spec. unfold str_trim. cbn [char_chunks].
  rewrite (proj2 (Z.ltb_lt _ _)) by lia.
  assert (is_whitespace (byte_of a) = false) as Hw.
  { unfold is_whitespace, in_range. repeat (apply orb_false_iff; split); lia. }
  cbn [drop_while fst]. rewrite Hw. cbn [rev].
  destruct (drop_while_last (fun c : Z * string => is_whitespace c.1) (rev (char_chunks s))
              (byte_of a, String a EmptyString) Hw) as [l' ->]. by rewrite rev_app_distr.
Qed.

Lemma str_bytes_of_ascii l : str_bytes (string_of_list_ascii l) = map byte_of l.
Proof. unfold str_bytes. by rewrite list_ascii_of_string_of_list_ascii. Qed.

(** *** Hexadecimal digests *)

Lemma str_len_hex_lower b : str_len (hex_lower b) = 2 * Z.of_nat (length b).
Proof.
  unfold str_len, hex_lower. induction b as [|x b IH]; [done|].
  cbn [flat_map app string_of_list_ascii String.length]. rewrite length_cons. lia.
Qed.

Lemma hex_digit_ok n :
  0 <= n < 16 ->
  let b := byte_of (ascii_of_N (Z.to_N (if n <? 10 then 48 + n else 87 + n))) in
  is_ascii_hexdigit b && negb (is_ascii_uppercase b) = true.
Proof.
  intros Hn. unfold byte_of. rewrite N_ascii_embedding by (case_match; lia).
  rewrite Z2N.id by (case_match; lia).
  unfold is_ascii_hexdigit, is_ascii_uppercase, is_ascii_digit, in_range. cbn zeta.
  case_match; lia.
Qed.

Lemma hex_lower_digits b :
  Forall (fun x => 0 <= x <= 255) b ->
  forallb (fun b => is_ascii_hexdigit b && negb (is_ascii_uppercase b)) (str_bytes (hex_lower b))
  = true.
Proof.
  intros Hb. unfold hex_lower. rewrite str_bytes_of_ascii.
  induction Hb as [|x b Hx _ IH]; [done|]. cbn [flat_map app map forallb].
  rewrite IH, !hex_digit_ok; [done| |].
  - by apply Z.mod_pos_bound.
  - split; [apply Z.div_pos; lia|]. apply Z.div_lt_upper_bound; lia.
Qed.

#[export] Hint Resolve byte_of_bound str_bytes_bound str_len_nonneg : fleet.
