(* ===== verification/External.v ===== *)
(** * External: code outside the repository, as classes of operations

    JSON values (serde_json), endpoint identifiers (iroh), RFC 3339 timestamps
    (time), base64 (base64), SHA-256 (sha2) and Ed25519 (ring) are
    third-party.  The development uses their documented interface: a data type or a class of operations, and a separate
    class with the laws some theorems rely on.  Every law class has an
    instance, so no theorem is about an empty class. *)

From S2P Require Import Prelude Text.

(** ** serde_json: [Value] *)

(** [Number]: serde_json keeps unsigned, negative and floating numbers apart;
    a float is identified by its bits. *)
Inductive Number :=
| PosInt (n : Z)
| NegInt (n : Z)
| Float (bits : Z).

(** [Value]; an object is the list of its members in the map's order. *)
Inductive Value :=
| Null
| VBool (b : bool)
| VNumber (n : Number)
| VString (s : string)
| VArray (l : list Value)
| VObject (m : list (string * Value)).

(** [Map::get]. *)
Fixpoint map_get (k : string) (m : list (string * Value)) : option Value :=
  match m with
  | [] => None
  | (k', v) :: m' => if String.eqb k k' then Some v else map_get k m'
  end.

Definition map_contains_key (k : string) (m : list (string * Value)) : bool :=
  match map_get k m with Some _ => true | None => false end.

(** [Value::get] with a string key. *)
Definition value_get (k : string) (v : Value) : option Value :=
  match v with VObject m => map_get k m | _ => None end.

Definition as_object (v : Value) : option (list (string * Value)) :=
  match v with VObject m => Some m | _ => None end.

Definition as_str (v : Value) : option string :=
  match v with VString s => Some s | _ => None end.

Definition as_array (v : Value) : option (list Value) :=
  match v with VArray l => Some l | _ => None end.

Definition as_bool (v : Value) : option bool :=
  match v with VBool b => Some b | _ => None end.

(** [Value::as_u64]. *)
Definition as_u64 (v : Value) : option Z :=
  match v with VNumber (PosInt n) => Some n | _ => None end.

(** [json!(n)] for an unsigned number. *)
Definition json_u64 (n : Z) : Value := VNumber (PosInt n).

(** [json!({})]. *)
Definition json_empty : Value := VObject [].

(** ** iroh: [EndpointId] *)

Class EndpointIdOps := {
  EndpointId : Type;
  EndpointId_eq_dec :: EqDecision EndpointId;
  EndpointId_countable :: Countable EndpointId;
  endpoint_from_str : string -> option EndpointId;
  endpoint_to_string : EndpointId -> string;
}.

(** Printing gives the canonical text, which parses back. *)
Class EndpointIdLaws `{EndpointIdOps} : Prop := {
  endpoint_parse_print : forall e, endpoint_from_str (endpoint_to_string e) = Some e;
}.

(** ** time: RFC 3339 text and instants in nanoseconds since the epoch *)

Class TimeOps := {
  rfc3339_parse : string -> option Z;
  rfc3339_format : Z -> string;
}.

Class TimeLaws `{TimeOps} : Prop := {
  rfc3339_parse_format : forall t, rfc3339_parse (rfc3339_format t) = Some t;
}.

(** ** base64

    The URL-safe alphabet without padding. *)

Class Base64Ops := {
  base64url_decode : string -> option (list Z);
}.

(** base64 with the standard alphabet and padding. *)
Class Base64Standard := { base64_decode : string -> option (list Z) }.

(** Encoding, which decoding inverts on bytes. *)
Class Base64Encode := { base64_encode : list Z -> string }.
Class Base64Laws `{Base64Standard, Base64Encode} : Prop := {
  base64_decode_encode : forall b, Forall (fun x => 0 <= x <= 255) b ->
    base64_decode (base64_encode b) = Some b;
}.

(** ** sha2 *)

Class Sha256Ops := { sha256 : list Z -> list Z }.

(** SHA-256 gives 32 bytes. *)
Class Sha256Laws `{Sha256Ops} : Prop := {
  sha256_length : forall b, length (sha256 b) = 32%nat;
  sha256_bytes : forall b, Forall (fun x => 0 <= x <= 255) (sha256 b);
}.

(** ** ring: Ed25519 *)

Class Ed25519Ops := {
  KeyPair : Type;
  key_from_pkcs8 : list Z -> option KeyPair;
  key_public : KeyPair -> list Z;
  key_sign : KeyPair -> list Z -> list Z;
  ed25519_verify : list Z -> list Z -> list Z -> bool;
}.

(** A signature has 64 bytes, a public key 32, and the key verifies what it
    signed. *)
Class Ed25519Laws `{Ed25519Ops} : Prop := {
  key_public_length : forall k, length (key_public k) = 32%nat;
  key_sign_length : forall k m, length (key_sign k m) = 64%nat;
  key_public_bytes : forall k, Forall (fun x => 0 <= x <= 255) (key_public k);
  key_sign_bytes : forall k m, Forall (fun x => 0 <= x <= 255) (key_sign k m);
  key_verifies : forall k m, ed25519_verify (key_public k) m (key_sign k m) = true;
}.

(** ** Instances

    Small models of the classes, used where a theorem is applied at a concrete
    input. *)

Module Toy.

(** An identifier is its text; it is written with a leading [k] and read with
    a leading [k] or [K], so that one identifier has two texts. *)
Definition toy_from_str (s : string) : option string :=
  match s with
  | String "k" e | String "K" e => Some e
  | _ => None
  end.

Definition toy_to_string (e : string) : string := String "k" e.

#[export] Instance toy_endpoint_ops : EndpointIdOps := {|
  EndpointId := string;
  endpoint_from_str := toy_from_str;
  endpoint_to_string := toy_to_string;
|}.

#[export] Instance toy_endpoint_laws : EndpointIdLaws.
Proof. by split. Qed.

(** An instant is its sign and its binary digits, least significant first,
    closed by [Z]. *)
Fixpoint toy_format_pos (p : positive) : string :=
  match p with
  | xH => "hZ"
  | xO q => String "0" (toy_format_pos q)
  | xI q => String "1" (toy_format_pos q)
  end.

Fixpoint toy_parse_pos (s : string) : option positive :=
  match s with
  | String "h" "Z" => Some xH
  | String "0" s' => xO <$> toy_parse_pos s'
  | String "1" s' => xI <$> toy_parse_pos s'
  | _ => None
  end.

Definition toy_format (t : Z) : string :=
  match t with
  | Z0 => "Z"
  | Zpos p => String "p" (toy_format_pos p)
  | Zneg p => String "n" (toy_format_pos p)
  end.

Definition toy_parse (s : string) : option Z :=
  match s with
  | "Z" => Some 0
  | String "p" s' => Zpos <$> toy_parse_pos s'
  | String "n" s' => Zneg <$> toy_parse_pos s'
  | _ => None
  end.

#[export] Instance toy_time_ops : TimeOps := {|
  rfc3339_parse := toy_parse;
  rfc3339_format := toy_format;
|}.

Lemma toy_parse_format_pos p : toy_parse_pos (toy_format_pos p) = Some p.
Proof. induction p as [p IH|p IH|]; simpl; rewrite ?IH; done. Qed.

#[export] Instance toy_time_laws : TimeLaws.
Proof. split. intros [|p|p]; simpl; [done| |]; by rewrite toy_parse_format_pos. Qed.

(** A decoder that returns the bytes of the text. *)
#[export] Instance toy_base64_ops : Base64Ops := {|
  base64url_decode s := Some (str_bytes s);
|}.

End Toy.
