(* ===== verification/Wire.v ===== *)
(** * Wire: the protocol crate (ocfleet-protocol/src)

    Constants, error codes, requests and responses, the length-prefixed frame
    codec (frame.rs), the method catalogue (method.rs) and the metadata checks
    (metadata.rs). *)

From S2P Require Import Prelude Text External.

(** ** constants.rs *)

Definition PROTOCOL_VERSION : Z := 1.
Definition DEFAULT_MAX_REQUEST_BYTES : Z := 65536.
Definition DEFAULT_MAX_RESPONSE_BYTES : Z := 2097152.
Definition DEFAULT_CLOCK_SKEW_SECONDS : Z := 60.
Definition DEFAULT_DEADLINE_MS : Z := 5000.
Definition DEFAULT_MAX_DEADLINE_MS : Z := 10000.
Definition DEFAULT_MAX_RPC_TIMEOUT_MS : Z := 5000.

(** ** error.rs *)

Inductive ErrorCode :=
| FrameTooLargeCode | FrameReadFailed | InvalidJson | InvalidVersion
| InvalidRequestId | InvalidTimestamp | RequestExpired | ClockSkewExceeded
| InvalidNonce | ReplayedNonce | InvalidDeadline | ParamsInvalid
| UnsupportedAuthScheme | ResponseTooLarge | InvalidResponse
| EndpointNotAllowed | EndpointMismatch | NodeNotFound | NodeDisabled
| MethodNotFound | MethodNotAllowed | ConnectFailed | RpcTimeout
| AuditWriteFailed | ResourceExhaustedCode | SqliteError | SqliteBusyTimeout
| SchemaMigrationFailed | SchemaVersionUnsupported | ConfigLoadFailed
| SecretKeyLoadFailed | SecretKeyPermissionInvalid | OcservReadonlyDisabled
| OcservProviderUnavailable | OcservProviderInvalidData
| OcservProviderUnsafeSource | OcservOutputBoundExceeded
| OcservUnsupportedField | InternalError.

#[global] Instance ErrorCode_eq_dec : EqDecision ErrorCode.
Proof. solve_decision. Defined.

Record RpcError := mkRpcError {
  code : ErrorCode;
  message : string;
  details : Value;
}.

(** [RpcError::new]. *)
Definition RpcError_new (c : ErrorCode) (msg : string) : RpcError :=
  mkRpcError c msg json_empty.

(** ** rpc.rs *)

Record RpcRequest := mkRpcRequest {
  req_version : Z;
  request_id : string;
  method : string;
  params : Value;
  issued_at : string;
  req_nonce : string;
  deadline_ms : Z;
  actor : option string;
  auth : option Value;
}.

Record RpcResponse := mkRpcResponse {
  resp_version : Z;
  resp_request_id : option string;
  ok : bool;
  resp_result : option Value;
  resp_error : option RpcError;
  started_at : string;
  finished_at : string;
  duration_ms : Z;
}.

(** ** frame.rs *)

Inductive FrameError :=
| FrameTooLarge (length max : Z)
| FrameTooShort
| FrameLengthMismatch (declared actual : Z).

(** [u32::to_be_bytes]. *)
Definition u32_to_be_bytes (n : Z) : list Z :=
  [n / 2 ^ 24 mod 256; n / 2 ^ 16 mod 256; n / 2 ^ 8 mod 256; n mod 256].

(** [u32::from_be_bytes]. *)
Definition u32_from_be_bytes (b0 b1 b2 b3 : Z) : Z :=
  b0 * 2 ^ 24 + b1 * 2 ^ 16 + b2 * 2 ^ 8 + b3.

Definition encode_frame (payload : list Z) (max_payload_bytes : Z)
    : result FrameError (list Z) :=
  let len := Z.of_nat (length payload) in
  reject? max_payload_bytes <? len as FrameTooLarge len max_payload_bytes in
  Ok (u32_to_be_bytes (as_u32 len) ++ payload).

Definition decode_frame (frame : list Z) (max_payload_bytes : Z)
    : result FrameError (list Z) :=
  match frame with
  | b0 :: b1 :: b2 :: b3 :: rest =>
      let declared := u32_from_be_bytes b0 b1 b2 b3 in
      reject? max_payload_bytes <? declared as FrameTooLarge declared max_payload_bytes in
      let actual := Z.of_nat (length frame) - 4 in
      reject? negb (declared =? actual) as FrameLengthMismatch declared actual in
      Ok rest
  | _ => Err FrameTooShort
  end.

(** ** method.rs *)

Inductive MethodStatus := MethodAllowed | KnownButNotAllowed | MethodUnknown.

#[global] Instance MethodStatus_eq_dec : EqDecision MethodStatus.
Proof. solve_decision. Defined.

Definition NODE_PING : string := "node.ping".
Definition NODE_INFO : string := "node.info".
Definition NODE_CAPABILITIES : string := "node.capabilities".
Definition PROBE_CONTROLLER_PING : string := "probe.controller.ping".
Definition PROBE_PEER_ECHO : string := "probe.peer.echo".
Definition PROBE_PATH_ECHO : string := "probe.path.echo".
Definition OCSERV_SERVICE_SUMMARY : string := "ocserv.service.summary".
Definition OCSERV_VERSION : string := "ocserv.version".
Definition OCSERV_SESSIONS_SUMMARY : string := "ocserv.sessions.summary".
Definition OCSERV_CERT_EXPIRY : string := "ocserv.cert.expiry".
Definition OCSERV_CONFIG_FINGERPRINT : string := "ocserv.config.fingerprint".
Definition OCSERV_RELOAD : string := "ocserv.reload".
Definition OCSERV_RESTART : string := "ocserv.restart".
Definition OCSERV_CONFIG_APPLY : string := "ocserv.config.apply".
Definition OCSERV_CONFIG_ROLLBACK : string := "ocserv.config.rollback".
Definition OCSERV_SESSION_DISCONNECT : string := "ocserv.session.disconnect".

(** [matches!(s, a | b | ...)] on string constants. *)
Definition str_in (s : string) (l : list string) : bool := existsb (String.eqb s) l.

Definition classify_phase_one_method (m : string) : MethodStatus :=
  if str_in m
       [NODE_PING; NODE_INFO; NODE_CAPABILITIES; PROBE_CONTROLLER_PING;
        OCSERV_SERVICE_SUMMARY; OCSERV_VERSION; OCSERV_SESSIONS_SUMMARY;
        OCSERV_CERT_EXPIRY; OCSERV_CONFIG_FINGERPRINT]
  then MethodAllowed
  else if str_in m
       ["ocserv.service.status"; "ocserv.status"; OCSERV_RELOAD; OCSERV_RESTART;
        OCSERV_CONFIG_APPLY; OCSERV_CONFIG_ROLLBACK; OCSERV_SESSION_DISCONNECT;
        "ocserv.users.list"; "ocserv.users.get"; "ocserv.logs.recent";
        "ocserv.cert.status"; "ocserv.config.summary"]%string
  then KnownButNotAllowed
  else MethodUnknown.

(** The methods that change an ocserv installation. *)
Definition write_methods : list string :=
  [OCSERV_RELOAD; OCSERV_RESTART; OCSERV_CONFIG_APPLY; OCSERV_CONFIG_ROLLBACK;
   OCSERV_SESSION_DISCONNECT].

(** ** metadata.rs *)

Definition validate_deadline_ms (deadline_ms max_deadline_ms : Z) : result RpcError unit :=
  reject? (deadline_ms =? 0) || (max_deadline_ms <? deadline_ms)
    as RpcError_new InvalidDeadline
         "deadline_ms must be greater than zero and no larger than max_deadline_ms" in
  Ok tt.

Definition execution_timeout_ms (deadline_ms max_rpc_timeout_ms : Z) : Z :=
  Z.min deadline_ms max_rpc_timeout_ms.

Definition ns_per_ms : Z := 1000000.
Definition ns_per_s : Z := 1000000000.

Section metadata.
Context `{TimeOps, Base64Ops}.

Definition metadata_validate_nonce (value : string) : result RpcError unit :=
  let? bytes := ok_or (base64url_decode value)
    (RpcError_new InvalidNonce "nonce must be base64url without padding") in
  reject? negb (Z.of_nat (length bytes) =? 16)
    as RpcError_new InvalidNonce "nonce must decode to 16 bytes" in
  Ok tt.

(** [validate_issued_at]; [now] is the wall clock in nanoseconds. *)
Definition metadata_validate_issued_at (issued_at : string)
    (now allowed_clock_skew_seconds deadline_ms : Z) : result RpcError unit :=
  let? parsed := ok_or (rfc3339_parse issued_at)
    (RpcError_new InvalidTimestamp "issued_at must be RFC3339 UTC") in
  let skew := if now <? parsed then parsed - now else now - parsed in
  reject? allowed_clock_skew_seconds * ns_per_s <? skew
    as RpcError_new ClockSkewExceeded
         "issued_at is outside the allowed clock skew window" in
  let deadline := parsed + as_i64 deadline_ms * ns_per_ms in
  reject? deadline <? now
    as RpcError_new RequestExpired "request deadline has expired" in
  Ok tt.
End metadata.

(** ** Lemmas *)

Lemma str_in_spec s l : str_in s l = true <-> s ∈ l.
Proof.
  unfold str_in. rewrite existsb_exists. setoid_rewrite String.eqb_eq.
  rewrite list_elem_of_In. naive_solver.
Qed.

Lemma u32_from_to_be_bytes n : 0 <= n < 2 ^ 32 ->
  u32_from_be_bytes (n / 2 ^ 24 mod 256) (n / 2 ^ 16 mod 256)
    (n / 2 ^ 8 mod 256) (n mod 256) = n.
Proof. unfold u32_from_be_bytes. intros Hn. Z.div_mod_to_equations. lia. Qed.

Definition is_byte (b : Z) : Prop := 0 <= b <= 255.

Lemma u32_from_be_bytes_bound b0 b1 b2 b3 :
  is_byte b0 -> is_byte b1 -> is_byte b2 -> is_byte b3 ->
  0 <= u32_from_be_bytes b0 b1 b2 b3 < 2 ^ 32.
Proof. unfold is_byte, u32_from_be_bytes. lia. Qed.

Lemma u32_to_from_be_bytes b0 b1 b2 b3 :
  is_byte b0 -> is_byte b1 -> is_byte b2 -> is_byte b3 ->
  u32_to_be_bytes (u32_from_be_bytes b0 b1 b2 b3) = [b0; b1; b2; b3].
Proof.
  unfold is_byte, u32_to_be_bytes, u32_from_be_bytes. intros.
  repeat f_equal; Z.div_mod_to_equations; lia.
Qed.

Lemma encode_frame_ok payload mx f :
  encode_frame payload mx = Ok f ->
  Z.of_nat (length payload) <= mx
  /\ f = u32_to_be_bytes (as_u32 (Z.of_nat (length payload))) ++ payload.
Proof. unfold encode_frame. intros H. peel H. done. Qed.

Lemma decode_frame_ok f mx p :
  decode_frame f mx = Ok p ->
  exists b0 b1 b2 b3, f = b0 :: b1 :: b2 :: b3 :: p
    /\ u32_from_be_bytes b0 b1 b2 b3 = Z.of_nat (length p)
    /\ Z.of_nat (length p) <= mx.
Proof.
  unfold decode_frame. intros H. peel H.
  repeat eexists; [|]; simpl in *; lia.
Qed.

Lemma decode_encode_frame p mx f :
  Z.of_nat (length p) < 2 ^ 32 -> encode_frame p mx = Ok f -> decode_frame f mx = Ok p.
Proof.
  intros Hl [Hle ->]%encode_frame_ok. unfold as_u32. rewrite Z.mod_small by lia.
  unfold u32_to_be_bytes, decode_frame. simpl app. cbv iota.
  rewrite u32_from_to_be_bytes by lia.
  destruct (mx <? _) eqn:E1; bool_facts; [lia|].
  replace (_ - 4) with (Z.of_nat (length p)) by (simpl length; lia).
  by rewrite Z.eqb_refl.
Qed.

Lemma encode_decode_frame f mx p :
  Forall is_byte f -> decode_frame f mx = Ok p ->
  encode_frame p mx = Ok f /\ Z.of_nat (length p) < 2 ^ 32.
Proof.
  intros Hb (b0 & b1 & b2 & b3 & -> & Hd & Hle)%decode_frame_ok.
  repeat (apply Forall_cons in Hb as [? Hb]).
  pose proof (u32_from_be_bytes_bound b0 b1 b2 b3 ltac:(done) ltac:(done) ltac:(done) ltac:(done)).
  split; [|lia]. unfold encode_frame, as_u32.
  destruct (mx <? _) eqn:E1; bool_facts; [lia|].
  rewrite Z.mod_small, <- Hd by lia. by rewrite u32_to_from_be_bytes.
Qed.

(** ** Properties *)

(** On byte lists, [decode_frame] and [encode_frame] are inverse to each
    other: a frame decodes to a payload exactly when the payload encodes to that
    frame and its length fits the 32-bit prefix. *)
Theorem frame_codec_inverse f mx p :
  Forall is_byte f ->
  decode_frame f mx = Ok p
  <-> encode_frame p mx = Ok f /\ Z.of_nat (length p) < 2 ^ 32.
Proof.
  intros Hb. split.
  - by apply encode_decode_frame.
  - intros [He Hl]. by apply decode_encode_frame.
Qed.

Lemma frame_codec_inverse_witness :
  decode_frame [0; 0; 0; 2; 65; 66] 16 = Ok [65; 66]
  <-> encode_frame [65; 66] 16 = Ok [0; 0; 0; 2; 65; 66]
      /\ Z.of_nat (length [65; 66]) < 2 ^ 32.
Proof. apply (frame_codec_inverse [0; 0; 0; 2; 65; 66] 16 [65; 66]). repeat constructor; lia. Defined.

