(* ===== verification/Ordering.v ===== *)
(** * Ordering: sorting by a key of texts

    [slice::sort_by] with a comparison of tuples of [&str] and [Option<&str>],
    and the order in which a [BTreeSet<String>] is iterated.  A stable sort of
    a list with distinct keys depends on its elements only. *)

From Stdlib Require Export Sorted.
From S2P Require Import Prelude Text.

(** ** Keys *)

(** [Option<&str>: Ord]: [None] comes first. *)
Definition opt_ltb (a b : option string) : bool :=
  match a, b with
  | None, Some _ => true
  | Some x, Some y => str_ltb x y
  | _, None => false
  end.

(** Tuples of the same length are compared from the left. *)
Fixpoint key_ltb (a b : list (option string)) : bool :=
  match a, b with
  | [], [] => false
  | [], _ :: _ => true
  | _ :: _, [] => false
  | x :: a', y :: b' => opt_ltb x y || (bool_decide (x = y) && key_ltb a' b')
  end.

(** ** Stable sorting *)

Section sort.
Context {A : Type} (key : A -> list (option string)).

Fixpoint insert_by (x : A) (l : list A) : list A :=
  match l with
  | [] => [x]
  | y :: l' => if key_ltb (key y) (key x) then y :: insert_by x l' else x :: l
  end.

Definition sort_by (l : list A) : list A := foldr insert_by [] l.
End sort.

(** The iteration order of a [BTreeSet<String>]. *)
Definition btree_iter (s : gset string) : list string := sort_by (fun x => [Some x]) (elements s).

(** ** Lemmas *)

Lemma opt_ltb_irrefl a : opt_ltb a a = false.
Proof. destruct a; [apply str_ltb_irrefl|done]. Qed.

Lemma opt_ltb_trans a b c : opt_ltb a b = true -> opt_ltb b c = true -> opt_ltb a c = true.
Proof. destruct a, b, c; simpl; try done. apply str_ltb_trans. Qed.

Lemma opt_ltb_total a b : a <> b -> opt_ltb a b = true \/ opt_ltb b a = true.
Proof.
  destruct a as [x|], b as [y|]; simpl; intros Hne; auto. apply str_ltb_total. congruence.
Qed.

Lemma key_ltb_irrefl a : key_ltb a a = false.
Proof. induction a as [|x a IH]; simpl; [done|]. by rewrite opt_ltb_irrefl, IH, andb_false_r. Qed.

Lemma key_ltb_trans a : forall b c,
  key_ltb a b = true -> key_ltb b c = true -> key_ltb a c = true.
Proof.
  induction a as [|x a IH]; intros [|y b] [|z c]; simpl; try done.
  rewrite !orb_true_iff, !andb_true_iff. intros [Hxy|[Hxy Hab]] [Hyz|[Hyz Hbc]]; bool_facts; subst.
  - left. by eapply opt_ltb_trans.
  - auto.
  - auto.
  - right. split; [by apply bool_decide_eq_true|]. by eapply IH.
Qed.

Lemma key_ltb_total a : forall b, a <> b -> key_ltb a b = true \/ key_ltb b a = true.
Proof.
  induction a as [|x a IH]; intros [|y b] Hne; simpl; auto.
  destruct (decide (x = y)) as [->|Hxy].
  - rewrite opt_ltb_irrefl, bool_decide_true by done. simpl. apply IH. congruence.
  - destruct (opt_ltb_total x y Hxy) as [->| ->]; auto.
Qed.

(** A key that determines another one is distinct where the other one is. *)
Lemma NoDup_finer {A B C} (f : A -> B) (g : A -> C) l :
  (forall x y, g x = g y -> f x = f y) -> NoDup (map f l) -> NoDup (map g l).
Proof.
  intros Hfg. induction l as [|x l IH]; simpl; [constructor|].
  intros [Hn Hnd]%NoDup_cons. constructor; [|auto].
  intros (y & He & Hin)%list_elem_of_fmap. apply Hn, list_elem_of_fmap. exists y. auto.
Qed.

Lemma filter_both {A} (p q : A -> bool) l :
  List.filter (fun x => p x && q x) l = List.filter p (List.filter q l).
Proof.
  induction l as [|x l IH]; [done|]. cbn. destruct (q x) eqn:Eq; cbn; destruct (p x); cbn; by rewrite IH.
Qed.

Lemma filter_elem {A} (f : A -> bool) l x : x ∈ List.filter f l <-> x ∈ l /\ f x = true.
Proof. by rewrite list_elem_of_In, filter_In, <- list_elem_of_In. Qed.

Lemma filter_keys {A B} (key : A -> B) (p : A -> bool) l : NoDup (map key l) -> NoDup (map key (List.filter p l)).
Proof.
  induction l as [|x l IH]; [done|]. cbn [map List.filter]. rewrite NoDup_cons. intros [Hn Hl].
  destruct (p x); [|by apply IH]. cbn [map]. rewrite NoDup_cons. split; [|by apply IH].
  intros Hin. apply Hn. apply list_elem_of_fmap in Hin as (y & -> & Hy).
  apply list_elem_of_fmap_2, list_elem_of_In. apply list_elem_of_In, filter_In in Hy. tauto.
Qed.

Section sort_lemmas.
Context {A : Type} (key : A -> list (option string)).

Lemma insert_by_perm x l : insert_by key x l ≡ₚ x :: l.
Proof.
  induction l as [|y l IH]; simpl; [done|]. destruct (key_ltb _ _); [|done].
  rewrite IH. apply Permutation_swap.
Qed.

Lemma sort_by_perm l : sort_by key l ≡ₚ l.
Proof. induction l as [|x l IH]; simpl; [done|]. by rewrite insert_by_perm, IH. Qed.

Lemma sort_by_length l : length (sort_by key l) = length l.
Proof. apply Permutation_length, sort_by_perm. Qed.

Lemma sort_by_elem x l : x ∈ sort_by key l <-> x ∈ l.
Proof. by rewrite sort_by_perm. Qed.

(** Inserting two elements with different keys commutes. *)
Lemma insert_by_swap x y l :
  key x <> key y -> insert_by key x (insert_by key y l) = insert_by key y (insert_by key x l).
Proof.
  intros Hne. induction l as [|z l IH]; simpl.
  - destruct (key_ltb (key y) (key x)) eqn:E1, (key_ltb (key x) (key y)) eqn:E2; try done.
    + pose proof (key_ltb_trans _ _ _ E1 E2) as E. by rewrite key_ltb_irrefl in E.
    + destruct (key_ltb_total _ _ Hne); congruence.
  - destruct (key_ltb (key z) (key y)) eqn:Ey, (key_ltb (key z) (key x)) eqn:Ex; simpl;
      rewrite ?Ex, ?Ey; [by rewrite IH| | |].
    + destruct (key_ltb (key x) (key y)) eqn:E; [done|].
      destruct (key_ltb_total _ _ Hne) as [E'|E']; [congruence|].
      pose proof (key_ltb_trans _ _ _ Ey E'). congruence.
    + destruct (key_ltb (key y) (key x)) eqn:E; [done|].
      destruct (key_ltb_total _ _ Hne) as [E'|E']; [|congruence].
      pose proof (key_ltb_trans _ _ _ Ex E'). congruence.
    + destruct (key_ltb (key y) (key x)) eqn:E1, (key_ltb (key x) (key y)) eqn:E2; try done.
      * pose proof (key_ltb_trans _ _ _ E1 E2) as E. by rewrite key_ltb_irrefl in E.
      * destruct (key_ltb_total _ _ Hne); congruence.
Qed.

(** With distinct keys the sorted list does not depend on the order given. *)
Lemma sort_by_unique l1 l2 : NoDup (map key l1) -> l1 ≡ₚ l2 -> sort_by key l1 = sort_by key l2.
Proof.
  intros Hnd Hp. induction Hp as [|x l1 l2 _ IH|x y l|l1 l2 l3 Hp1 IH1 _ IH2]; simpl in *.
  - done.
  - apply NoDup_cons in Hnd as [_ Hnd]. by rewrite IH.
  - apply NoDup_cons in Hnd as [Hn _]. apply insert_by_swap. intros He. apply Hn. rewrite He. left.
  - rewrite IH1 by done. apply IH2. by rewrite <- Hp1.
Qed.

Lemma insert_by_sorted x l :
  StronglySorted (fun a b => key_ltb (key b) (key a) = false) l ->
  StronglySorted (fun a b => key_ltb (key b) (key a) = false) (insert_by key x l).
Proof.
  induction 1 as [|y l Hl IH Hy]; simpl; [by repeat constructor|].
  destruct (key_ltb (key y) (key x)) eqn:E.
  - constructor; [done|]. apply Forall_forall. intros z. rewrite insert_by_perm.
    rewrite elem_of_cons. rewrite Forall_forall in Hy. intros [->|Hz]; [|by apply Hy].
    destruct (key_ltb (key x) (key y)) eqn:E'; [|done].
    pose proof (key_ltb_trans _ _ _ E E') as Ht. by rewrite key_ltb_irrefl in Ht.
  - constructor; [by constructor|]. constructor; [done|].
    rewrite Forall_forall in Hy |- *. intros z Hz.
    destruct (key_ltb (key z) (key x)) eqn:E'; [|done].
    destruct (decide (key z = key y)) as [He|Hne]; [congruence|].
    destruct (key_ltb_total _ _ Hne) as [Hzy|Hyz]; [by rewrite Hy in Hzy|].
    pose proof (key_ltb_trans _ _ _ Hyz E'). congruence.
Qed.

Lemma sort_by_weakly_sorted l :
  StronglySorted (fun a b => key_ltb (key b) (key a) = false) (sort_by key l).
Proof. induction l as [|x l IH]; [constructor|]. by apply insert_by_sorted. Qed.

(** With distinct keys the sorted list is strictly increasing. *)
Lemma sort_by_sorted l :
  NoDup (map key l) -> StronglySorted (fun a b => key_ltb (key a) (key b) = true) (sort_by key l).
Proof.
  intros Hnd. assert (NoDup (map key (sort_by key l))) as Hs by (by rewrite sort_by_perm).
  revert Hs. induction (sort_by_weakly_sorted l) as [|x s _ IH Hx]; [constructor|].
  cbn [map]. rewrite NoDup_cons. intros [Hn Hs]. constructor; [by apply IH|].
  rewrite Forall_forall in Hx |- *. intros y Hy.
  destruct (key_ltb_total (key x) (key y)) as [H|H]; [|done|].
  - intros He. apply Hn. rewrite He. by apply list_elem_of_fmap_2.
  - by rewrite (Hx y Hy) in H.
Qed.

(** *** Filtering a sorted list *)

Lemma sorted_filter {R : A -> A -> Prop} (p : A -> bool) l :
  StronglySorted R l -> StronglySorted R (List.filter p l).
Proof.
  induction 1 as [|x l _ IH Hx]; simpl; [constructor|]. destruct (p x); [|done].
  constructor; [done|]. rewrite Forall_forall in *. intros y Hy. apply Hx.
  apply list_elem_of_In in Hy. apply filter_In in Hy as [Hy _]. by apply list_elem_of_In.
Qed.

Lemma sort_by_id l :
  StronglySorted (fun a b => key_ltb (key b) (key a) = false) l -> sort_by key l = l.
Proof.
  induction 1 as [|x l _ IH Hx]; [done|].
  change (sort_by key (x :: l)) with (insert_by key x (sort_by key l)). rewrite IH.
  destruct l as [|y l]; [done|]. simpl. by rewrite (Forall_inv Hx).
Qed.

Lemma filter_perm (p : A -> bool) l1 l2 : l1 ≡ₚ l2 -> List.filter p l1 ≡ₚ List.filter p l2.
Proof.
  induction 1 as [|x l1 l2 _ IH|x y l|l1 l2 l3 _ IH1 _ IH2]; simpl; [done| | |by rewrite IH1].
  - destruct (p x); by rewrite IH.
  - destruct (p x), (p y); try done. apply Permutation_swap.
Qed.

Lemma sort_by_filter (p : A -> bool) l :
  NoDup (map key l) -> sort_by key (List.filter p l) = List.filter p (sort_by key l).
Proof.
  intros Hnd. rewrite (sort_by_unique _ (List.filter p (sort_by key l))).
  - apply sort_by_id, sorted_filter, sort_by_weakly_sorted.
  - by apply filter_keys.
  - apply filter_perm. symmetry. apply sort_by_perm.
Qed.
End sort_lemmas.

Lemma btree_iter_elem x s : x ∈ btree_iter s <-> x ∈ s.
Proof. unfold btree_iter. rewrite sort_by_elem. apply elem_of_elements. Qed.
