(* ===== verification/AgentConfig.v ===== *)
(** * AgentConfig: the agent configuration and its validation
      (ocfleet-config/src/agent.rs and validation.rs)

    The TOML decoding is outside the model: a configuration is the record that
    decoding produces.  [validate_agent_config] is the whole check, every
    branch with its error; the loops over controllers, peers and path probes
    carry the [HashSet]s of the source. *)

From S2P Require Import Prelude Text External.

(** ** validation.rs *)

Inductive ValidationError :=
| InvalidSafeString (field : string) (min max : Z) (pattern : string)
| InvalidServiceName
| EmptyPath (field : string)
| InvalidEndpointId (field : string)
| InvalidControllerRole
| NonPositiveNumber (field : string).

(** [b.is_ascii_alphanumeric() || matches!(b, b'.' | b'_' | b'-')]. *)
Definition safe_byte (b : Z) : bool :=
  is_ascii_alphanumeric b || (b =? 46) || (b =? 95) || (b =? 45).

Definition validate_safe (value field : string) (min max : Z) : result ValidationError unit :=
  let ok_len := (min <=? str_len value) && (str_len value <=? max) in
  let ok_chars := forallb safe_byte (str_bytes value) in
  if ok_len && ok_chars then Ok tt
  else Err (InvalidSafeString field min max "[a-zA-Z0-9._-]").

Definition validate_node_id (value : string) := validate_safe value "node_id" 1 64.
Definition validate_region (value : string) := validate_safe value "region" 1 32.

Definition validate_role (value : string) : result ValidationError unit :=
  if String.eqb value "ocserv" then Ok tt
  else Err (InvalidSafeString "role" 6 6 "ocserv").

Definition validate_service_name (value : string) : result ValidationError unit :=
  reject? str_is_empty value || (128 <? str_len value) as InvalidServiceName in
  if forallb (fun b => safe_byte b || (b =? 64)) (str_bytes value)
  then Ok tt else Err InvalidServiceName.

Definition validate_non_empty_path (path field : string) : result ValidationError unit :=
  if str_is_empty path then Err (EmptyPath field) else Ok tt.

Definition validate_controller_role (value : string) : result ValidationError unit :=
  if String.eqb value "viewer" then Ok tt else Err InvalidControllerRole.

(** [validate_positive_i64], [validate_positive_u64], [validate_positive_usize]. *)
Definition validate_positive (value : Z) (field : string) : result ValidationError unit :=
  if 0 <? value then Ok tt else Err (NonPositiveNumber field).

Section endpoint.
Context `{EndpointIdOps}.

Definition canonicalize_endpoint_id (value field : string)
    : result ValidationError string :=
  reject? str_is_empty value || existsb is_ascii_whitespace (str_bytes value)
    as InvalidEndpointId field in
  let? endpoint_id := ok_or (endpoint_from_str value) (InvalidEndpointId field) in
  Ok (endpoint_to_string endpoint_id).

Definition canonicalize_controller_endpoint_id (value : string) :=
  canonicalize_endpoint_id value "controller endpoint_id".
Definition canonicalize_peer_endpoint_id (value : string) :=
  canonicalize_endpoint_id value "peer endpoint_id".
Definition canonicalize_path_probe_endpoint_id (value : string) :=
  canonicalize_endpoint_id value "path probe endpoint_id".
Definition canonicalize_node_endpoint_id (value : string) :=
  canonicalize_endpoint_id value "node endpoint_id".

Definition validate_controller_endpoint_id (value : string) : result ValidationError unit :=
  let? _ := canonicalize_controller_endpoint_id value in Ok tt.
Definition validate_peer_endpoint_id (value : string) : result ValidationError unit :=
  let? _ := canonicalize_peer_endpoint_id value in Ok tt.
Definition validate_path_probe_endpoint_id (value : string) : result ValidationError unit :=
  let? _ := canonicalize_path_probe_endpoint_id value in Ok tt.
End endpoint.

(** ** agent.rs: the configuration *)

(** [ConfigError::Invalid]: the rendering of a validation error or a text. *)
Inductive ConfigError :=
| InvalidValue (e : ValidationError)
| Invalid (msg : string).

Record NodeConfig := mkNodeConfig { id : string; region : string; role : string }.

Record IrohConfig := mkIrohConfig { secret_key_path : string; alpn : string }.

Record ControllerConfig := mkControllerConfig {
  controller_endpoint : string;
  controller_role : string;
}.

Record PeerConfig := mkPeerConfig { peer_endpoint : string; peer_enabled : bool }.

Record PathProbeConfig := mkPathProbeConfig {
  controller_endpoint_id : string;
  target_endpoint_id : string;
  path_probe_enabled : bool;
}.

Record SecurityConfig := mkSecurityConfig {
  allowed_clock_skew_seconds : Z;
  default_deadline_ms : Z;
  max_deadline_ms : Z;
  max_rpc_timeout_ms : Z;
  max_handshake_duration_ms : Z;
  max_connection_idle_ms : Z;
  max_request_bytes : Z;
  max_response_bytes : Z;
  max_handshake_tasks_global : Z;
  max_connections_global : Z;
  max_connections_per_controller : Z;
  max_streams_global : Z;
  max_streams_per_controller : Z;
  max_live_nonces_global : Z;
  max_live_nonces_per_controller : Z;
  controllers : list ControllerConfig;
  peers : list PeerConfig;
  path_probes : list PathProbeConfig;
}.

Record AuditConfig := mkAuditConfig {
  path : string;
  audit_queue_capacity : Z;
  spool_path : option string;
  metrics_path : option string;
  spool_max_events : Z;
  rejected_peer_log_burst : Z;
  rejected_peer_log_refill_per_sec : Z;
  rejected_peer_log_max_buckets : Z;
  rejected_peer_log_bucket_ttl_seconds : Z;
  rejected_peer_log_aggregate_interval_seconds : Z;
}.

Inductive OcservReadonlyProviderKind := ProviderDisabled | Snapshot | CollectorSnapshot.

Inductive ConfigFingerprintMode := HmacSha256 | LegacySha256.

Record OcservCertificateConfig := mkOcservCertificateConfig {
  cert_name : string;
  cert_path : string;
}.

Record OcservConfigFingerprintConfig := mkOcservConfigFingerprintConfig {
  name : string;
  config_path : string;
  mode : ConfigFingerprintMode;
  key_id : option string;
  key_path : option string;
  previous_key_id : option string;
  previous_key_path : option string;
}.

Record OcservReadonlyConfig := mkOcservReadonlyConfig {
  readonly_enabled : bool;
  provider : OcservReadonlyProviderKind;
  snapshot_path : option string;
  config_fingerprint : option OcservConfigFingerprintConfig;
  certificates : list OcservCertificateConfig;
}.

Record ControlledWriteOperationPolicy := mkPolicy {
  enabled : bool;
  local_identity : option string;
  emergency_only : bool;
}.

Record ControlledWritesConfig := mkControlledWritesConfig {
  writes_enabled : bool;
  ocserv_reload : ControlledWriteOperationPolicy;
  ocserv_restart : ControlledWriteOperationPolicy;
  ocserv_config_apply : ControlledWriteOperationPolicy;
  ocserv_config_rollback : ControlledWriteOperationPolicy;
  ocserv_session_disconnect : ControlledWriteOperationPolicy;
}.

(** The optional [ocserv] and [logs] tables only matter by their presence. *)
Record AgentConfig := mkAgentConfig {
  node : NodeConfig;
  iroh : IrohConfig;
  security : SecurityConfig;
  audit : AuditConfig;
  ocserv_readonly : OcservReadonlyConfig;
  controlled_writes : ControlledWritesConfig;
  ocserv : option string;
  logs : option string;
}.

(** [x.map_err(|e| ConfigError::Invalid(e.to_string()))]. *)
Definition invalid {A} (r : result ValidationError A) : result ConfigError A :=
  map_err InvalidValue r.

(** [Option::is_some]. *)
Definition is_some {A} (o : option A) : bool := match o with Some _ => true | None => false end.

Definition validate_absolute_path (path field : string) : result ConfigError unit :=
  let? _ := invalid (validate_non_empty_path path field) in
  reject? negb (starts_with "/" path) as Invalid (field +:+ " must be an absolute path") in
  Ok tt.

Definition validate_ocserv_logical_name (value field : string) : result ConfigError unit :=
  let ok_len := negb (str_is_empty value) && (str_len value <=? 64) in
  let ok_chars := forallb safe_byte (str_bytes value) in
  if ok_len && ok_chars then Ok tt
  else Err (Invalid (field +:+ " must be 1-64 characters and contain only [a-zA-Z0-9._-]")).

(** The [match] on the fingerprint mode in [validate_ocserv_readonly_config]. *)
Definition validate_fingerprint_mode (fingerprint : OcservConfigFingerprintConfig)
    : result ConfigError unit :=
  match mode fingerprint with
  | LegacySha256 =>
      reject? is_some (key_id fingerprint) || is_some (key_path fingerprint)
              || is_some (previous_key_id fingerprint)
              || is_some (previous_key_path fingerprint)
        as Invalid "legacy config fingerprint mode cannot configure HMAC keys" in
      Ok tt
  | HmacSha256 =>
      let? id := ok_or (key_id fingerprint)
                   (Invalid "HMAC config fingerprint requires key_id") in
      let? _ := validate_ocserv_logical_name id
                  "ocserv_readonly.config_fingerprint.key_id" in
      let? kp := ok_or (key_path fingerprint)
                   (Invalid "HMAC config fingerprint requires key_path") in
      let? _ := validate_absolute_path kp "ocserv_readonly.config_fingerprint.key_path" in
      reject? negb (Bool.eqb (is_some (previous_key_id fingerprint))
                             (is_some (previous_key_path fingerprint)))
        as Invalid "previous HMAC key_id and key_path must be configured together" in
      let? _ := match previous_key_id fingerprint with
                | Some pid =>
                    let? _ := validate_ocserv_logical_name pid
                                "ocserv_readonly.config_fingerprint.previous_key_id" in
                    reject? String.eqb pid id
                      as Invalid "current and previous HMAC key IDs must differ" in
                    Ok tt
                | None => Ok tt
                end in
      match previous_key_path fingerprint with
      | Some pp => validate_absolute_path pp
                     "ocserv_readonly.config_fingerprint.previous_key_path"
      | None => Ok tt
      end
  end.

Definition validate_ocserv_readonly_config (config : OcservReadonlyConfig)
    : result ConfigError unit :=
  reject? readonly_enabled config
          && match provider config with ProviderDisabled => true | _ => false end
    as Invalid "ocserv_readonly.provider must not be disabled when enabled=true" in
  let? _ :=
    if readonly_enabled config
       && match provider config with Snapshot | CollectorSnapshot => true | _ => false end
    then
      let? sp := ok_or (snapshot_path config)
        (Invalid "ocserv_readonly.snapshot_path is required for snapshot-based provider") in
      validate_absolute_path sp "ocserv_readonly.snapshot_path"
    else Ok tt in
  let? _ := match snapshot_path config with
            | Some sp => validate_absolute_path sp "ocserv_readonly.snapshot_path"
            | None => Ok tt
            end in
  reject? 8 <? Z.of_nat (length (certificates config))
    as Invalid "ocserv_readonly.certificates must contain at most 8 entries" in
  let? _ := try_for_each (fun certificate =>
      let? _ := validate_ocserv_logical_name (cert_name certificate)
                  "ocserv_readonly.certificates.name" in
      validate_absolute_path (cert_path certificate)
        "ocserv_readonly.certificates.cert_path") (certificates config) in
  match config_fingerprint config with
  | Some fingerprint =>
      let? _ := validate_ocserv_logical_name (name fingerprint)
                  "ocserv_readonly.config_fingerprint.name" in
      let? _ := validate_absolute_path (config_path fingerprint)
                  "ocserv_readonly.config_fingerprint.config_path" in
      validate_fingerprint_mode fingerprint
  | None => Ok tt
  end.

Definition validate_safe_local_identity (value field : string) : result ConfigError unit :=
  reject? trim_is_empty value || (128 <? str_len value) || negb (is_trimmed value)
    as Invalid ("controlled_writes." +:+ field +:+ ".local_identity must be 1-128 bytes") in
  reject? negb (forallb (fun b => safe_byte b || (b =? 64) || (b =? 58)) (str_bytes value))
    as Invalid ("controlled_writes." +:+ field
                +:+ ".local_identity contains unsupported characters") in
  Ok tt.

Definition validate_controlled_write_policy (field : string)
    (policy : ControlledWriteOperationPolicy) : result ConfigError unit :=
  match local_identity policy with
  | Some identity => validate_safe_local_identity identity field
  | None => Ok tt
  end.

(** [feature] is the Cargo feature [controlled-writes]. *)
Definition validate_controlled_writes_config (feature : bool)
    (config : ControlledWritesConfig) : result ConfigError unit :=
  let? _ := validate_controlled_write_policy "ocserv_reload" (ocserv_reload config) in
  let? _ := validate_controlled_write_policy "ocserv_restart" (ocserv_restart config) in
  let? _ := validate_controlled_write_policy "ocserv_config_apply"
              (ocserv_config_apply config) in
  let? _ := validate_controlled_write_policy "ocserv_config_rollback"
              (ocserv_config_rollback config) in
  let? _ := validate_controlled_write_policy "ocserv_session_disconnect"
              (ocserv_session_disconnect config) in
  let has_operation_enabled :=
    enabled (ocserv_reload config) || enabled (ocserv_restart config)
    || enabled (ocserv_config_apply config) || enabled (ocserv_config_rollback config)
    || enabled (ocserv_session_disconnect config) in
  reject? has_operation_enabled && negb (writes_enabled config)
    as Invalid "controlled_writes.enabled must be true before any operation policy can be enabled" in
  if feature then
    reject? enabled (ocserv_restart config) && negb (emergency_only (ocserv_restart config))
      as Invalid "controlled_writes.ocserv_restart requires emergency_only=true" in
    reject? enabled (ocserv_session_disconnect config)
      as Invalid "controlled_writes.ocserv_session_disconnect is unavailable without a safe selector" in
    Ok tt
  else
    reject? writes_enabled config || has_operation_enabled
      as Invalid "controlled writes are disabled at compile time" in
    Ok tt.

Section config.
Context `{EndpointIdOps}.

(** The loop over [security.controllers]. *)
Fixpoint controllers_loop (cs : list ControllerConfig) (acc : gset string)
    : result ConfigError (gset string) :=
  match cs with
  | [] => Ok acc
  | controller :: cs' =>
      let? _ := invalid (validate_controller_endpoint_id (controller_endpoint controller)) in
      let? _ := invalid (validate_controller_role (controller_role controller)) in
      let? endpoint_id :=
        invalid (canonicalize_controller_endpoint_id (controller_endpoint controller)) in
      controllers_loop cs' ({[endpoint_id]} ∪ acc)
  end.

(** The loop over [security.peers]: all peers and the enabled ones. *)
Fixpoint peers_loop (controller_ids : gset string) (ps : list PeerConfig)
    (all on : gset string) : result ConfigError (gset string * gset string) :=
  match ps with
  | [] => Ok (all, on)
  | peer :: ps' =>
      let? _ := invalid (validate_peer_endpoint_id (peer_endpoint peer)) in
      let? endpoint_id := invalid (canonicalize_peer_endpoint_id (peer_endpoint peer)) in
      reject? bool_decide (endpoint_id ∈ all)
        as Invalid ("duplicate peer endpoint_id: " +:+ endpoint_id) in
      reject? bool_decide (endpoint_id ∈ controller_ids)
        as Invalid ("endpoint_id cannot be both controller and peer: " +:+ endpoint_id) in
      peers_loop controller_ids ps' ({[endpoint_id]} ∪ all)
        (if peer_enabled peer then {[endpoint_id]} ∪ on else on)
  end.

(** The loop over [security.path_probes]. *)
Fixpoint path_probes_loop (controller_ids enabled_peers : gset string)
    (pps : list PathProbeConfig) (pairs : gset (string * string))
    : result ConfigError (gset (string * string)) :=
  match pps with
  | [] => Ok pairs
  | path_probe :: pps' =>
      let? _ := invalid (validate_path_probe_endpoint_id
                           (controller_endpoint_id path_probe)) in
      let? _ := invalid (validate_path_probe_endpoint_id
                           (target_endpoint_id path_probe)) in
      let? c := invalid (canonicalize_path_probe_endpoint_id
                           (controller_endpoint_id path_probe)) in
      let? t := invalid (canonicalize_path_probe_endpoint_id
                           (target_endpoint_id path_probe)) in
      reject? negb (bool_decide (c ∈ controller_ids))
        as Invalid ("path probe controller_endpoint_id must exist in security.controllers: "
                    +:+ c) in
      reject? bool_decide (t ∈ controller_ids)
        as Invalid ("path probe target_endpoint_id must not exist in security.controllers: "
                    +:+ t) in
      reject? negb (bool_decide (t ∈ enabled_peers))
        as Invalid ("path probe target_endpoint_id must exist as an enabled peer in security.peers: "
                    +:+ t) in
      reject? bool_decide ((c, t) ∈ pairs)
        as Invalid ("duplicate path probe authorization entry: controller_endpoint_id="
                    +:+ c +:+ " target_endpoint_id=" +:+ t) in
      path_probes_loop controller_ids enabled_peers pps' ({[(c, t)]} ∪ pairs)
  end.

(** The numeric checks on [security] and [audit], in order. *)
Definition validate_limits (sec : SecurityConfig) (aud : AuditConfig)
    : result ConfigError unit :=
  let positive v f := invalid (validate_positive v f) in
  let? _ := positive (allowed_clock_skew_seconds sec) "allowed_clock_skew_seconds" in
  let? _ := positive (default_deadline_ms sec) "default_deadline_ms" in
  let? _ := positive (max_rpc_timeout_ms sec) "max_rpc_timeout_ms" in
  let? _ := positive (max_handshake_duration_ms sec) "max_handshake_duration_ms" in
  let? _ := positive (max_connection_idle_ms sec) "max_connection_idle_ms" in
  reject? max_deadline_ms sec <? default_deadline_ms sec
    as Invalid "max_deadline_ms must be >= default_deadline_ms" in
  let? _ := positive (max_request_bytes sec) "max_request_bytes" in
  let? _ := positive (max_response_bytes sec) "max_response_bytes" in
  reject? max_response_bytes sec <? 512 as Invalid "max_response_bytes must be >= 512" in
  let? _ := positive (max_handshake_tasks_global sec) "max_handshake_tasks_global" in
  let? _ := positive (max_connections_global sec) "max_connections_global" in
  let? _ := positive (max_connections_per_controller sec) "max_connections_per_controller" in
  reject? max_connections_global sec <? max_connections_per_controller sec
    as Invalid "max_connections_per_controller must be <= max_connections_global" in
  let? _ := positive (max_streams_global sec) "max_streams_global" in
  let? _ := positive (max_streams_per_controller sec) "max_streams_per_controller" in
  reject? max_streams_global sec <? max_streams_per_controller sec
    as Invalid "max_streams_per_controller must be <= max_streams_global" in
  let? _ := positive (max_live_nonces_global sec) "max_live_nonces_global" in
  let? _ := positive (max_live_nonces_per_controller sec) "max_live_nonces_per_controller" in
  reject? max_live_nonces_global sec <? max_live_nonces_per_controller sec
    as Invalid "max_live_nonces_per_controller must be <= max_live_nonces_global" in
  let? _ := positive (audit_queue_capacity aud) "audit_queue_capacity" in
  let? _ := match spool_path aud with
            | Some p => invalid (validate_non_empty_path p "audit.spool_path")
            | None => Ok tt end in
  let? _ := match metrics_path aud with
            | Some p => invalid (validate_non_empty_path p "audit.metrics_path")
            | None => Ok tt end in
  let? _ := positive (spool_max_events aud) "audit.spool_max_events" in
  let? _ := positive (rejected_peer_log_burst aud) "rejected_peer_log_burst" in
  let? _ := positive (rejected_peer_log_refill_per_sec aud)
              "rejected_peer_log_refill_per_sec" in
  let? _ := positive (rejected_peer_log_max_buckets aud) "rejected_peer_log_max_buckets" in
  let? _ := positive (rejected_peer_log_bucket_ttl_seconds aud)
              "rejected_peer_log_bucket_ttl_seconds" in
  let? _ := positive (rejected_peer_log_aggregate_interval_seconds aud)
              "rejected_peer_log_aggregate_interval_seconds" in
  reject? rejected_peer_log_bucket_ttl_seconds aud
          <? rejected_peer_log_aggregate_interval_seconds aud
    as Invalid "rejected_peer_log_bucket_ttl_seconds must be >= rejected_peer_log_aggregate_interval_seconds" in
  Ok tt.

Definition validate_agent_config (feature : bool) (config : AgentConfig)
    : result ConfigError unit :=
  let? _ := invalid (validate_node_id (id (node config))) in
  let? _ := invalid (validate_region (region (node config))) in
  let? _ := invalid (validate_role (role (node config))) in
  let? _ := invalid (validate_non_empty_path (secret_key_path (iroh config))
                       "iroh.secret_key_path") in
  let? _ := invalid (validate_non_empty_path (path (audit config)) "audit.path") in
  reject? is_some (ocserv config)
    as Invalid "[ocserv] is not part of the Phase 1 read-only MVP" in
  reject? is_some (logs config)
    as Invalid "[logs] is not part of the Phase 1 read-only MVP" in
  let? _ := validate_ocserv_readonly_config (ocserv_readonly config) in
  let? _ := validate_controlled_writes_config feature (controlled_writes config) in
  let? controller_ids := controllers_loop (controllers (security config)) ∅ in
  let? (_, enabled_peer_ids) := peers_loop controller_ids (peers (security config)) ∅ ∅ in
  let? _ := path_probes_loop controller_ids enabled_peer_ids
              (path_probes (security config)) ∅ in
  validate_limits (security config) (audit config).
End config.
