(* ===== verification/Authz.v ===== *)
(** * Authz: who may connect and call what (ocfleet-agent/src/authz.rs)

    [from_security_config] builds the endpoint sets from the configuration;
    [classify], [is_connection_admitted], [method_allowed] and
    [path_probe_decision] decide on them.  [authz_wf] is what a validated
    configuration guarantees of the sets. *)

From S2P Require Import Prelude Text External Wire AgentConfig.

(** ** Data *)

Inductive CallerClass := Controller | Peer | DisabledPeer | UnknownCaller.

Inductive PathProbeDecision :=
| ProbeAllowed | ProbeDisabled | ProbeMissing | TargetIsController | SelfTarget.

#[global] Instance CallerClass_eq_dec : EqDecision CallerClass.
Proof. solve_decision. Defined.
#[global] Instance PathProbeDecision_eq_dec : EqDecision PathProbeDecision.
Proof. solve_decision. Defined.

(** [AgentAuthorization::method_allowed]. *)
Definition method_allowed (caller : CallerClass) (m : string) : bool :=
  match caller with
  | Controller =>
      str_in m
        [NODE_PING; NODE_INFO; NODE_CAPABILITIES; PROBE_CONTROLLER_PING; PROBE_PATH_ECHO;
         OCSERV_SERVICE_SUMMARY; OCSERV_VERSION; OCSERV_SESSIONS_SUMMARY;
         OCSERV_CERT_EXPIRY; OCSERV_CONFIG_FINGERPRINT]
  | Peer => String.eqb m PROBE_PEER_ECHO
  | DisabledPeer | UnknownCaller => false
  end.

Section authz.
Context `{EndpointIdOps}.

Record AgentAuthorization := mkAgentAuthorization {
  auth_controllers : gset EndpointId;
  enabled_peers : gset EndpointId;
  disabled_peers : gset EndpointId;
  enabled_path_probes : gset (EndpointId * EndpointId);
  disabled_path_probes : gset (EndpointId * EndpointId);
}.

(** [server::parse_endpoint_id]. *)
Definition parse_endpoint_id (value : string) : result string EndpointId :=
  ok_or (endpoint_from_str value) "invalid endpoint id".

(** Collecting the controllers. *)
Fixpoint authz_controllers (cs : list ControllerConfig) (acc : gset EndpointId)
    : result string (gset EndpointId) :=
  match cs with
  | [] => Ok acc
  | c :: cs' =>
      let? e := map_err (fun _ => "invalid allowed controller endpoint id: "
                                  +:+ controller_endpoint c)
                  (parse_endpoint_id (controller_endpoint c)) in
      authz_controllers cs' ({[e]} ∪ acc)
  end.

(** The loop over the peers: enabled and disabled. *)
Fixpoint authz_peers (ps : list PeerConfig) (on off : gset EndpointId)
    : result string (gset EndpointId * gset EndpointId) :=
  match ps with
  | [] => Ok (on, off)
  | p :: ps' =>
      let? e := map_err (fun _ => "invalid allowed peer endpoint id: " +:+ peer_endpoint p)
                  (parse_endpoint_id (peer_endpoint p)) in
      if peer_enabled p then authz_peers ps' ({[e]} ∪ on) off
      else authz_peers ps' on ({[e]} ∪ off)
  end.

(** The loop over the path probes: enabled and disabled pairs. *)
Fixpoint authz_path_probes (pps : list PathProbeConfig)
    (on off : gset (EndpointId * EndpointId))
    : result string (gset (EndpointId * EndpointId) * gset (EndpointId * EndpointId)) :=
  match pps with
  | [] => Ok (on, off)
  | pp :: pps' =>
      let? c := map_err (fun _ => "invalid path probe controller endpoint id: "
                                  +:+ controller_endpoint_id pp)
                  (parse_endpoint_id (controller_endpoint_id pp)) in
      let? t := map_err (fun _ => "invalid path probe target endpoint id: "
                                  +:+ target_endpoint_id pp)
                  (parse_endpoint_id (target_endpoint_id pp)) in
      if path_probe_enabled pp then authz_path_probes pps' ({[(c, t)]} ∪ on) off
      else authz_path_probes pps' on ({[(c, t)]} ∪ off)
  end.

Definition from_security_config (config : SecurityConfig)
    : result string AgentAuthorization :=
  let? cs := authz_controllers (controllers config) ∅ in
  let? (on, off) := authz_peers (peers config) ∅ ∅ in
  let? (pon, poff) := authz_path_probes (path_probes config) ∅ ∅ in
  Ok (mkAgentAuthorization cs on off pon poff).

Definition classify (a : AgentAuthorization) (e : EndpointId) : CallerClass :=
  if bool_decide (e ∈ auth_controllers a) then Controller
  else if bool_decide (e ∈ enabled_peers a) then Peer
  else if bool_decide (e ∈ disabled_peers a) then DisabledPeer
  else UnknownCaller.

Definition is_connection_admitted (a : AgentAuthorization) (e : EndpointId) : bool :=
  match classify a e with Controller | Peer => true | _ => false end.

Definition path_probe_decision (a : AgentAuthorization)
    (controller_endpoint_id target_endpoint_id source_endpoint_id : EndpointId)
    : PathProbeDecision :=
  if bool_decide (target_endpoint_id = source_endpoint_id) then SelfTarget
  else if bool_decide (target_endpoint_id ∈ auth_controllers a) then TargetIsController
  else if negb (bool_decide (target_endpoint_id ∈ enabled_peers a)) then ProbeMissing
  else
    let pair := (controller_endpoint_id, target_endpoint_id) in
    if bool_decide (pair ∈ enabled_path_probes a) then ProbeAllowed
    else if bool_decide (pair ∈ disabled_path_probes a) then ProbeDisabled
    else ProbeMissing.

(** What validation guarantees: the three classes of endpoints are disjoint,
    and every path probe names a controller and an enabled peer, once. *)
Record authz_wf (a : AgentAuthorization) : Prop := {
  wf_controllers_on : auth_controllers a ## enabled_peers a;
  wf_controllers_off : auth_controllers a ## disabled_peers a;
  wf_on_off : enabled_peers a ## disabled_peers a;
  wf_probes : forall c t, (c, t) ∈ enabled_path_probes a ∪ disabled_path_probes a ->
                c ∈ auth_controllers a /\ t ∈ enabled_peers a;
  wf_probes_on_off : enabled_path_probes a ## disabled_path_probes a;
}.

(** ** From a validated configuration to the sets *)

Definition printed (X : gset EndpointId) : gset string := set_map endpoint_to_string X.
Definition print_pair (p : EndpointId * EndpointId) : string * string :=
  (endpoint_to_string p.1, endpoint_to_string p.2).
Definition printed_pairs (X : gset (EndpointId * EndpointId)) : gset (string * string) :=
  set_map print_pair X.

Context {laws : EndpointIdLaws}.

#[local] Instance endpoint_to_string_inj : Inj (=) (=) endpoint_to_string.
Proof.
  intros x y E. pose proof (endpoint_parse_print x) as H1.
  rewrite E, endpoint_parse_print in H1. by injection H1.
Qed.

Lemma elem_of_printed e X : endpoint_to_string e ∈ printed X <-> e ∈ X.
Proof.
  unfold printed. rewrite elem_of_map. split; [|eauto].
  by intros (x & ->%(inj endpoint_to_string) & Hx).
Qed.

Lemma elem_of_printed_pairs c t X :
  (endpoint_to_string c, endpoint_to_string t) ∈ printed_pairs X <-> (c, t) ∈ X.
Proof.
  unfold printed_pairs. rewrite elem_of_map. split.
  - intros ([c' t'] & [= ->%(inj endpoint_to_string) ->%(inj endpoint_to_string)] & Hx). done.
  - intros Hx. by exists (c, t).
Qed.

Lemma printed_empty : printed ∅ = ∅.
Proof. apply set_map_empty. Qed.

Lemma printed_insert e X : printed ({[e]} ∪ X) = {[endpoint_to_string e]} ∪ printed X.
Proof. unfold printed. by rewrite set_map_union_L, set_map_singleton_L. Qed.

Lemma printed_pairs_insert c t X :
  printed_pairs ({[(c, t)]} ∪ X)
  = {[(endpoint_to_string c, endpoint_to_string t)]} ∪ printed_pairs X.
Proof. unfold printed_pairs. by rewrite set_map_union_L, set_map_singleton_L. Qed.

Lemma canonicalize_ok v f s :
  canonicalize_endpoint_id v f = Ok s ->
  exists e, endpoint_from_str v = Some e /\ s = endpoint_to_string e.
Proof.
  unfold canonicalize_endpoint_id. intros Hc. peel Hc.
  match goal with Hm : ok_or _ _ = Ok _ |- _ => apply ok_or_ok in Hm; eauto end.
Qed.

Lemma invalid_ok {A} (r : result ValidationError A) a : invalid r = Ok a -> r = Ok a.
Proof. unfold invalid, map_err. intros H0. by destruct r; simplify_eq. Qed.

Lemma controllers_sim cs acc ids X :
  controllers_loop cs ids = Ok acc -> ids = printed X ->
  exists X', authz_controllers cs X = Ok X' /\ acc = printed X'.
Proof.
  revert ids X. induction cs as [|c cs IH]; simpl; intros ids X Hl ->.
  { simplify_eq. eauto. }
  peel_in Hl. repeat match goal with H0 : invalid _ = Ok _ |- _ => apply invalid_ok in H0 end.
  match goal with H0 : canonicalize_controller_endpoint_id _ = Ok _ |- _ =>
    apply canonicalize_ok in H0 as (e & He & ->) end.
  destruct (IH _ ({[e]} ∪ X) Hl) as (X' & HX & Hacc); [by rewrite printed_insert|].
  exists X'. unfold parse_endpoint_id. by rewrite He.
Qed.

Lemma peers_sim ctrl ps all on all' on' X Y :
  peers_loop (printed ctrl) ps all on = Ok (all', on') ->
  all = printed (X ∪ Y) -> on = printed X -> X ## Y -> ctrl ## X ∪ Y ->
  exists X' Y', authz_peers ps X Y = Ok (X', Y') /\ on' = printed X'
                /\ X' ## Y' /\ ctrl ## X' ∪ Y'.
Proof.
  revert all on X Y. induction ps as [|p ps IH]; simpl; intros all on X Y Hl -> -> HXY Hc.
  { simplify_eq. eauto 10. }
  peel_in Hl. repeat match goal with H0 : invalid _ = Ok _ |- _ => apply invalid_ok in H0 end.
  match goal with H0 : canonicalize_peer_endpoint_id _ = Ok _ |- _ =>
    apply canonicalize_ok in H0 as (e & He & ->) end.
  bool_facts. rewrite elem_of_printed in *.
  unfold parse_endpoint_id. rewrite He. simpl.
  destruct (peer_enabled p); apply (IH _ _ _ _ Hl).
  1,5: rewrite <- printed_insert; f_equal; set_solver.
  1: by rewrite printed_insert.
  3: done.
  all: clear Hl; set_solver.
Qed.

Lemma path_probes_sim ctrl on pps pairs pairs' X Y :
  path_probes_loop (printed ctrl) (printed on) pps pairs = Ok pairs' ->
  pairs = printed_pairs (X ∪ Y) -> X ## Y ->
  (forall c t, (c, t) ∈ X ∪ Y -> c ∈ ctrl /\ t ∈ on) ->
  exists X' Y', authz_path_probes pps X Y = Ok (X', Y') /\ X' ## Y'
                /\ (forall c t, (c, t) ∈ X' ∪ Y' -> c ∈ ctrl /\ t ∈ on).
Proof.
  revert pairs X Y. induction pps as [|p pps IH]; simpl; intros pairs X Y Hl -> HXY Hin.
  { simplify_eq. eauto. }
  peel_in Hl. repeat match goal with H0 : invalid _ = Ok _ |- _ => apply invalid_ok in H0 end.
  repeat match goal with H0 : canonicalize_path_probe_endpoint_id _ = Ok _ |- _ =>
    apply canonicalize_ok in H0 as (? & ? & ->) end.
  bool_facts. rewrite elem_of_printed_pairs, !elem_of_printed in *.
  unfold parse_endpoint_id.
  repeat match goal with H0 : endpoint_from_str _ = Some _ |- _ => rewrite H0; clear H0 end.
  simpl. destruct (path_probe_enabled p); apply (IH _ _ _ Hl).
  1,4: rewrite <- printed_pairs_insert; f_equal; set_solver.
  1,3: set_solver.
  all: intros c t; rewrite !elem_of_union, elem_of_singleton;
    intros Hct; clear Hl IH; set_solver.
Qed.

(** A validated configuration yields well-formed endpoint sets. *)
Lemma validated_authz feature config :
  validate_agent_config feature config = Ok tt ->
  exists a, from_security_config (security config) = Ok a /\ authz_wf a.
Proof.
  unfold validate_agent_config. intros Hv. peel_in Hv.
  match goal with H0 : controllers_loop _ _ = Ok _ |- _ =>
    destruct (controllers_sim _ _ _ ∅ H0) as (cs & Hcs & ->);
      [by rewrite <- printed_empty|] end.
  match goal with H0 : peers_loop _ _ _ _ = Ok _ |- _ =>
    destruct (peers_sim _ _ _ _ _ _ ∅ ∅ H0) as (on & off & Hon & -> & Hd & Hdis);
      [by rewrite ?union_empty_l_L, <- printed_empty..|set_solver|set_solver|] end.
  match goal with H0 : path_probes_loop _ _ _ _ = Ok _ |- _ =>
    destruct (path_probes_sim _ _ _ _ _ ∅ ∅ H0) as (pon & poff & Hp & Hpd & Hpc);
      [by rewrite union_empty_l_L|set_solver|set_solver|] end.
  unfold from_security_config. rewrite Hcs, Hon, Hp. eexists. split; [done|].
  split; simpl; [set_solver..| |done]. exact Hpc.
Qed.
End authz.
