(* ===== verification/Limiters.v ===== *)
(** * Limiters: metrics counters and admission control of the agent
      (ocfleet-agent/src/metrics.rs and [ServerLimiters] of server.rs)

    Counters are 64-bit and wrap.  A tokio semaphore is its number of free
    permits; [try_acquire_owned] takes one when there is one, dropping a permit
    gives it back.  [step] is the transition relation of admissions and drops
    with the permits that are out, [system_wf] its invariant. *)

From S2P Require Import Prelude Text External Wire AgentConfig.

(** ** metrics.rs *)

(** The fields of [AgentMetrics], one constructor each. *)
Inductive Counter :=
| handshake_active | handshake_rejected | connection_active | connection_rejected
| stream_active | stream_rejected | rpc_succeeded | rpc_failed
| rpc_duration_ms_sum | rpc_duration_count | rpc_code_success
| rpc_code_validation | rpc_code_authorization | rpc_code_resource
| rpc_code_timeout | rpc_code_dependency | rpc_code_internal
| nonce_replay_rejected | nonce_resource_rejected.

#[global] Instance Counter_eq_dec : EqDecision Counter.
Proof. solve_decision. Defined.

Definition AgentMetrics : Type := Counter -> Z.

Definition metrics_default : AgentMetrics := fun _ => 0.

(** [AtomicU64::fetch_add] and [fetch_sub], which wrap around. *)
Definition fetch_add (c : Counter) (n : Z) (m : AgentMetrics) : AgentMetrics :=
  fun c' => if decide (c' = c) then (m c' + n) mod 2 ^ 64 else m c'.

Definition fetch_sub (c : Counter) (n : Z) (m : AgentMetrics) : AgentMetrics :=
  fun c' => if decide (c' = c) then (m c' - n) mod 2 ^ 64 else m c'.

Inductive Resource := Handshake | Connection | Stream.

#[global] Instance Resource_eq_dec : EqDecision Resource.
Proof. solve_decision. Defined.

Definition active (r : Resource) : Counter :=
  match r with
  | Handshake => handshake_active
  | Connection => connection_active
  | Stream => stream_active
  end.

Definition rejected (r : Resource) : Counter :=
  match r with
  | Handshake => handshake_rejected
  | Connection => connection_rejected
  | Stream => stream_rejected
  end.

Definition admission_started (r : Resource) := fetch_add (active r) 1.
Definition admission_finished (r : Resource) := fetch_sub (active r) 1.
Definition admission_rejected (r : Resource) := fetch_add (rejected r) 1.

Definition rpc_code_counter (error : option ErrorCode) : Counter :=
  match error with
  | None => rpc_code_success
  | Some c =>
      match c with
      | FrameTooLargeCode | FrameReadFailed | InvalidJson | InvalidVersion
      | InvalidRequestId | InvalidTimestamp | RequestExpired | ClockSkewExceeded
      | InvalidNonce | ReplayedNonce | InvalidDeadline | ParamsInvalid
      | UnsupportedAuthScheme | ResponseTooLarge | InvalidResponse
      | MethodNotFound => rpc_code_validation
      | EndpointNotAllowed | EndpointMismatch | NodeNotFound | NodeDisabled
      | MethodNotAllowed => rpc_code_authorization
      | ResourceExhaustedCode | SqliteBusyTimeout => rpc_code_resource
      | RpcTimeout => rpc_code_timeout
      | ConnectFailed | SqliteError | SchemaMigrationFailed | SchemaVersionUnsupported
      | ConfigLoadFailed | SecretKeyLoadFailed | SecretKeyPermissionInvalid
      | OcservReadonlyDisabled | OcservProviderUnavailable | OcservProviderInvalidData
      | OcservProviderUnsafeSource | OcservOutputBoundExceeded
      | OcservUnsupportedField => rpc_code_dependency
      | AuditWriteFailed | InternalError => rpc_code_internal
      end
  end.

Definition record_rpc (error : option ErrorCode) (duration_ms : Z) (m : AgentMetrics)
    : AgentMetrics :=
  let m := match error with
           | None => fetch_add rpc_succeeded 1 m
           | Some _ => fetch_add rpc_failed 1 m
           end in
  let m := fetch_add (rpc_code_counter error) 1 m in
  let m := fetch_add rpc_duration_ms_sum duration_ms m in
  fetch_add rpc_duration_count 1 m.

Definition nonce_rejected (resource_exhausted : bool) (m : AgentMetrics) : AgentMetrics :=
  if resource_exhausted then fetch_add nonce_resource_rejected 1 m
  else fetch_add nonce_replay_rejected 1 m.

(** ** server.rs: [ServerLimiters] *)

Record ServerLimiters := mkServerLimiters {
  metrics : AgentMetrics;
  handshake_global : Z;
  connections_global : Z;
  connections_per_controller_limit : Z;
  connections_per_controller : gmap string Z;
  streams_global : Z;
  streams_per_controller_limit : Z;
  streams_per_controller : gmap string Z;
}.

(** [ServerLimiters::new]. *)
Definition limiters_new (max_handshake_tasks_global max_connections_global
    max_connections_per_controller max_streams_global max_streams_per_controller : Z)
    : ServerLimiters :=
  mkServerLimiters metrics_default max_handshake_tasks_global max_connections_global
    max_connections_per_controller ∅ max_streams_global max_streams_per_controller ∅.

(** [ServerLimiters::from_config]. *)
Definition limiters_from_config (c : SecurityConfig) : ServerLimiters :=
  limiters_new (max_handshake_tasks_global c) (max_connections_global c)
    (max_connections_per_controller c) (max_streams_global c)
    (max_streams_per_controller c).

Definition with_metrics (f : AgentMetrics -> AgentMetrics) (l : ServerLimiters)
    : ServerLimiters :=
  mkServerLimiters (f (metrics l)) (handshake_global l) (connections_global l)
    (connections_per_controller_limit l) (connections_per_controller l)
    (streams_global l) (streams_per_controller_limit l) (streams_per_controller l).

Definition with_handshake (n : Z) (l : ServerLimiters) : ServerLimiters :=
  mkServerLimiters (metrics l) n (connections_global l)
    (connections_per_controller_limit l) (connections_per_controller l)
    (streams_global l) (streams_per_controller_limit l) (streams_per_controller l).

Definition with_connections (n : Z) (m : gmap string Z) (l : ServerLimiters)
    : ServerLimiters :=
  mkServerLimiters (metrics l) (handshake_global l) n
    (connections_per_controller_limit l) m
    (streams_global l) (streams_per_controller_limit l) (streams_per_controller l).

Definition with_streams (n : Z) (m : gmap string Z) (l : ServerLimiters)
    : ServerLimiters :=
  mkServerLimiters (metrics l) (handshake_global l) (connections_global l)
    (connections_per_controller_limit l) (connections_per_controller l)
    n (streams_per_controller_limit l) m.

Definition try_acquire_handshake (l : ServerLimiters) : bool * ServerLimiters :=
  if handshake_global l <=? 0
  then (false, with_metrics (admission_rejected Handshake) l)
  else (true, with_metrics (admission_started Handshake)
                (with_handshake (handshake_global l - 1) l)).

(** [connection_controller_semaphore] creates the caller's semaphore on first
    use; when it has no permit the global permit is dropped again. *)
Definition try_acquire_connection (remote_endpoint_id : string) (l : ServerLimiters)
    : bool * ServerLimiters :=
  if connections_global l <=? 0
  then (false, with_metrics (admission_rejected Connection) l)
  else
    let free := default (connections_per_controller_limit l)
                  (connections_per_controller l !! remote_endpoint_id) in
    if free <=? 0
    then (false, with_metrics (admission_rejected Connection)
                   (with_connections (connections_global l)
                      (<[remote_endpoint_id := free]> (connections_per_controller l)) l))
    else (true, with_metrics (admission_started Connection)
                  (with_connections (connections_global l - 1)
                     (<[remote_endpoint_id := free - 1]> (connections_per_controller l)) l)).

Definition try_acquire_stream (remote_endpoint_id : string) (l : ServerLimiters)
    : bool * ServerLimiters :=
  if streams_global l <=? 0
  then (false, with_metrics (admission_rejected Stream) l)
  else
    let free := default (streams_per_controller_limit l)
                  (streams_per_controller l !! remote_endpoint_id) in
    if free <=? 0
    then (false, with_metrics (admission_rejected Stream)
                   (with_streams (streams_global l)
                      (<[remote_endpoint_id := free]> (streams_per_controller l)) l))
    else (true, with_metrics (admission_started Stream)
                  (with_streams (streams_global l - 1)
                     (<[remote_endpoint_id := free - 1]> (streams_per_controller l)) l)).

(** [Drop] of [HandshakePermit], [ConnectionPermits] and [StreamPermits]. *)
Definition drop_handshake (l : ServerLimiters) : ServerLimiters :=
  with_metrics (admission_finished Handshake) (with_handshake (handshake_global l + 1) l).

Definition drop_connection (remote_endpoint_id : string) (l : ServerLimiters)
    : ServerLimiters :=
  with_metrics (admission_finished Connection)
    (with_connections (connections_global l + 1)
       (alter (fun n => n + 1) remote_endpoint_id (connections_per_controller l)) l).

Definition drop_stream (remote_endpoint_id : string) (l : ServerLimiters)
    : ServerLimiters :=
  with_metrics (admission_finished Stream)
    (with_streams (streams_global l + 1)
       (alter (fun n => n + 1) remote_endpoint_id (streams_per_controller l)) l).

(** ** The system: limiters and the permits that are out *)

Record system := mkSystem {
  lim : ServerLimiters;
  handshakes_out : Z;
  connections_out : list string;
  streams_out : list string;
}.

Inductive step : system -> system -> Prop :=
| step_handshake l h cs ss l' b :
    try_acquire_handshake l = (b, l') ->
    step (mkSystem l h cs ss) (mkSystem l' (if b then h + 1 else h) cs ss)
| step_connection l h cs ss l' b id :
    try_acquire_connection id l = (b, l') ->
    step (mkSystem l h cs ss) (mkSystem l' h (if b then id :: cs else cs) ss)
| step_stream l h cs ss l' b id :
    try_acquire_stream id l = (b, l') ->
    step (mkSystem l h cs ss) (mkSystem l' h cs (if b then id :: ss else ss))
| step_drop_handshake l h cs ss :
    0 < h ->
    step (mkSystem l h cs ss) (mkSystem (drop_handshake l) (h - 1) cs ss)
| step_drop_connection l h cs1 cs2 id ss :
    step (mkSystem l h (cs1 ++ id :: cs2) ss)
         (mkSystem (drop_connection id l) h (cs1 ++ cs2) ss)
| step_drop_stream l h cs ss1 ss2 id :
    step (mkSystem l h cs (ss1 ++ id :: ss2))
         (mkSystem (drop_stream id l) h cs (ss1 ++ ss2)).

Definition initial (c : SecurityConfig) : system :=
  mkSystem (limiters_from_config c) 0 [] [].

(** How many of the permits belong to one endpoint. *)
Definition held_by (id : string) (l : list string) : Z :=
  Z.of_nat (length (filter (eq id) l)).

(** One resource with a global and a per-endpoint semaphore: free and taken
    permits add up to the limits, and no count is negative. *)
Record pool_wf (mx per : Z) (free : Z) (frees : gmap string Z) (out : list string)
    (gauge : Z) : Prop := {
  pool_global : free + Z.of_nat (length out) = mx;
  pool_global_nonneg : 0 <= free;
  pool_per : forall id, default per (frees !! id) + held_by id out = per;
  pool_per_nonneg : forall id, 0 <= default per (frees !! id);
  pool_known : forall id, id ∈ out -> is_Some (frees !! id);
  pool_gauge : gauge = Z.of_nat (length out) mod 2 ^ 64;
}.

Record system_wf (c : SecurityConfig) (s : system) : Prop := {
  sys_conn_limit : connections_per_controller_limit (lim s) = max_connections_per_controller c;
  sys_stream_limit : streams_per_controller_limit (lim s) = max_streams_per_controller c;
  sys_handshake : handshake_global (lim s) + handshakes_out s = max_handshake_tasks_global c;
  sys_handshake_nonneg : 0 <= handshake_global (lim s) /\ 0 <= handshakes_out s;
  sys_handshake_gauge : metrics (lim s) handshake_active = handshakes_out s mod 2 ^ 64;
  sys_connections : pool_wf (max_connections_global c) (max_connections_per_controller c)
    (connections_global (lim s)) (connections_per_controller (lim s)) (connections_out s)
    (metrics (lim s) connection_active);
  sys_streams : pool_wf (max_streams_global c) (max_streams_per_controller c)
    (streams_global (lim s)) (streams_per_controller (lim s)) (streams_out s)
    (metrics (lim s) stream_active);
}.

(** ** Lemmas on one pool *)

Lemma held_by_cons id x l : held_by id (x :: l) = (if decide (id = x) then 1 else 0) + held_by id l.
Proof. unfold held_by. rewrite filter_cons. destruct (decide (id = x)); simpl; lia. Qed.

Lemma held_by_app id l1 l2 : held_by id (l1 ++ l2) = held_by id l1 + held_by id l2.
Proof. unfold held_by. rewrite filter_app, length_app. lia. Qed.

Lemma pool_reject mx per free frees out gauge id :
  pool_wf mx per free frees out gauge ->
  pool_wf mx per free (<[id := default per (frees !! id)]> frees) out gauge.
Proof.
  intros [H1 H2 H3 H4 H5 H6].
  assert (forall i, default per (<[id := default per (frees !! id)]> frees !! i)
                    = default per (frees !! i)) as He.
  { intros i. destruct (decide (i = id)) as [->|];
      [by rewrite lookup_insert_eq|by rewrite lookup_insert_ne]. }
  split; try done; try (intros; rewrite He; eauto).
  intros i Hi. destruct (decide (i = id)) as [->|];
    [rewrite lookup_insert_eq; eauto|rewrite lookup_insert_ne by done; eauto].
Qed.

Lemma pool_take mx per free frees out gauge id :
  pool_wf mx per free frees out gauge ->
  0 < free -> 0 < default per (frees !! id) ->
  pool_wf mx per (free - 1) (<[id := default per (frees !! id) - 1]> frees) (id :: out)
    ((gauge + 1) mod 2 ^ 64).
Proof.
  intros [H1 H2 H3 H4 H5 H6] Hf Hp. split.
  - simpl. lia.
  - lia.
  - intros i. rewrite held_by_cons. specialize (H3 i). destruct (decide (i = id)) as [->|].
    + rewrite lookup_insert_eq. simpl. lia.
    + rewrite lookup_insert_ne by done. lia.
  - intros i. destruct (decide (i = id)) as [->|];
      [rewrite lookup_insert_eq; simpl; lia|rewrite lookup_insert_ne by done; done].
  - intros i Hi. destruct (decide (i = id)) as [->|];
      [rewrite lookup_insert_eq; eauto|rewrite lookup_insert_ne by done].
    apply elem_of_cons in Hi as [->|]; [done|eauto].
  - rewrite H6, Zplus_mod_idemp_l. simpl length. f_equal. lia.
Qed.

Lemma pool_drop mx per free frees out1 out2 gauge id :
  pool_wf mx per free frees (out1 ++ id :: out2) gauge ->
  pool_wf mx per (free + 1) (alter (fun n => n + 1) id frees) (out1 ++ out2)
    ((gauge - 1) mod 2 ^ 64).
Proof.
  intros [H1 H2 H3 H4 H5 H6].
  assert (forall i, default per (alter (fun n => n + 1) id frees !! i)
                    = default per (frees !! i) + (if decide (i = id) then 1 else 0)) as He.
  { intros i. destruct (decide (i = id)) as [->|].
    - rewrite lookup_alter_eq. destruct (H5 id) as [n Hn]; [set_solver|].
      rewrite Hn. simpl. lia.
    - rewrite lookup_alter_ne by done. lia. }
  split.
  - rewrite length_app in *. simpl in *. lia.
  - lia.
  - intros i. rewrite He. specialize (H3 i). rewrite held_by_app, held_by_cons in *. lia.
  - intros i. rewrite He. specialize (H4 i). destruct (decide (i = id)); lia.
  - intros i Hi. rewrite lookup_alter. destruct (decide _) as [->|]; [|apply H5; set_solver].
    destruct (H5 i) as [n Hn]; [set_solver|]. rewrite Hn. eauto.
  - rewrite H6, Zminus_mod_idemp_l. f_equal. rewrite !length_app. simpl. lia.
Qed.

(** ** The invariant of the system *)

Lemma pool_empty mx per : 0 <= mx -> 0 <= per -> pool_wf mx per mx ∅ [] 0.
Proof.
  intros. split; simpl; try lia; try done; intros id; rewrite ?lookup_empty; simpl; try lia.
  - unfold held_by. simpl. lia.
  - by intros ?%elem_of_nil.
Qed.

Lemma initial_wf c :
  0 <= max_handshake_tasks_global c -> 0 <= max_connections_global c ->
  0 <= max_connections_per_controller c -> 0 <= max_streams_global c ->
  0 <= max_streams_per_controller c -> system_wf c (initial c).
Proof. intros. split; simpl; try done; try lia; by apply pool_empty. Qed.

Lemma step_wf c s s' : system_wf c s -> step s s' -> system_wf c s'.
Proof.
  intros [Hcl Hsl Hh Hhn Hhg Hc Hs] Hstep.
  destruct Hstep as [l h cs ss l' b Ha|l h cs ss l' b id Ha|l h cs ss l' b id Ha
                    |l h cs ss Hpos|l h cs1 cs2 id ss|l h cs ss1 ss2 id];
    simpl in *.
  - unfold try_acquire_handshake in Ha. peel Ha; split; simpl in *; try done; try lia.
    unfold admission_started, fetch_add. simpl. rewrite Hhg, Zplus_mod_idemp_l. done.
  - unfold try_acquire_connection in Ha. rewrite Hcl in Ha.
    peel Ha; split; simpl in *; try done.
    + by apply pool_reject.
    + by apply pool_take.
  - unfold try_acquire_stream in Ha. rewrite Hsl in Ha.
    peel Ha; split; simpl in *; try done.
    + by apply pool_reject.
    + by apply pool_take.
  - split; simpl; try done; try lia.
    unfold admission_finished, fetch_sub. simpl. rewrite Hhg, Zminus_mod_idemp_l. done.
  - split; simpl; try done. by apply pool_drop.
  - split; simpl; try done. by apply pool_drop.
Qed.

Lemma reachable_wf c s s' : system_wf c s -> rtc step s s' -> system_wf c s'.
Proof. intros Hwf Hr. induction Hr; eauto using step_wf. Qed.

Lemma positive_ok v f u : invalid (validate_positive v f) = Ok u -> 0 < v.
Proof. unfold invalid, validate_positive. destruct (0 <? v) eqn:E; bool_facts; done. Qed.

(** The limits that validation accepts are positive and nested. *)
Lemma validate_limits_ok sec aud :
  validate_limits sec aud = Ok tt ->
  0 < max_handshake_tasks_global sec
  /\ 0 < max_connections_per_controller sec <= max_connections_global sec
  /\ 0 < max_streams_per_controller sec <= max_streams_global sec
  /\ 0 < max_live_nonces_per_controller sec <= max_live_nonces_global sec
  /\ 0 < allowed_clock_skew_seconds sec
  /\ 0 < default_deadline_ms sec <= max_deadline_ms sec
  /\ 0 < max_rpc_timeout_ms sec /\ 0 < max_request_bytes sec
  /\ 512 <= max_response_bytes sec.
Proof.
  unfold validate_limits. intros H. peel_in H.
  repeat match goal with
  | H0 : invalid (validate_positive _ _) = Ok _ |- _ => apply positive_ok in H0
  end. bool_facts. lia.
Qed.

Lemma validated_limits `{EndpointIdOps} feature config :
  validate_agent_config feature config = Ok tt ->
  validate_limits (security config) (audit config) = Ok tt.
Proof. unfold validate_agent_config. intros Hv. peel_in Hv. done. Qed.

(** The result class of a failed call is one of six. *)
Lemma failed_classes c :
  rpc_code_counter (Some c) ∈
    [rpc_code_validation; rpc_code_authorization; rpc_code_resource; rpc_code_timeout;
     rpc_code_dependency; rpc_code_internal].
Proof. repeat rewrite elem_of_cons. destruct c; simpl; tauto. Qed.

Definition class_sum (m : AgentMetrics) : Z :=
  m rpc_code_success + m rpc_code_validation + m rpc_code_authorization
  + m rpc_code_resource + m rpc_code_timeout + m rpc_code_dependency + m rpc_code_internal.

(** Agreement of the RPC counters, with [n] calls recorded. *)
Definition rpc_counters_ok (n : Z) (m : AgentMetrics) : Prop :=
  (m rpc_succeeded + m rpc_failed) mod 2 ^ 64 = n mod 2 ^ 64
  /\ m rpc_succeeded = m rpc_code_success
  /\ class_sum m mod 2 ^ 64 = n mod 2 ^ 64
  /\ m rpc_duration_count = n mod 2 ^ 64.

Lemma mod_add_one a b M : a mod M = b mod M -> (a + 1) mod M = (b + 1) mod M.
Proof. intros E. by rewrite <- (Zplus_mod_idemp_l a), E, Zplus_mod_idemp_l. Qed.

Lemma record_rpc_ok n e d m :
  rpc_counters_ok n m -> rpc_counters_ok (n + 1) (record_rpc e d m).
Proof.
  intros (H1 & H2 & H3 & H4). unfold rpc_counters_ok, class_sum in *. unfold record_rpc.
  assert (forall k x y z : Z, (x + y) mod 2 ^ 64 = k mod 2 ^ 64 ->
            (x mod 2 ^ 64 + y) mod 2 ^ 64 = k mod 2 ^ 64) by
    (intros k x y z E; by rewrite Zplus_mod_idemp_l).
  destruct e as [c|].
  - pose proof (failed_classes c) as Hc. revert Hc. generalize (rpc_code_counter (Some c)).
    intros k Hk. repeat rewrite elem_of_cons in Hk. rewrite elem_of_nil in Hk.
    destruct Hk as [->|[->|[->|[->|[->|[->|[]]]]]]]; unfold fetch_add; simpl;
      (split_and!; [| done | |]);
      try (rewrite H4, Zplus_mod_idemp_l; done);
      apply mod_add_one in H1, H3; rewrite <- ?H1, <- ?H3;
      Z.div_mod_to_equations; lia.
  - unfold fetch_add; simpl. split_and!; [| by rewrite H2 | |].
    + apply mod_add_one in H1. rewrite <- H1, Zplus_mod_idemp_l. f_equal. lia.
    + apply mod_add_one in H3. rewrite <- H3. Z.div_mod_to_equations. lia.
    + by rewrite H4, Zplus_mod_idemp_l.
Qed.

(** ** Properties *)

(** the RPC counters agree with each other after any number of calls: the
    calls that succeeded and failed add up to the number of durations, and so do
    the seven result classes (modulo the counter width). *)
Theorem rpc_counters_agree (calls : list (option ErrorCode * Z)) :
  let m := fold_left (fun m c => record_rpc c.1 c.2 m) calls metrics_default in
  (m rpc_succeeded + m rpc_failed) mod 2 ^ 64 = m rpc_duration_count
  /\ m rpc_succeeded = m rpc_code_success
  /\ class_sum m mod 2 ^ 64 = m rpc_duration_count
  /\ m rpc_duration_count = Z.of_nat (length calls) mod 2 ^ 64.
Proof.
  assert (rpc_counters_ok (Z.of_nat (length calls))
            (fold_left (fun m c => record_rpc c.1 c.2 m) calls metrics_default))
    as (H1 & H2 & H3 & H4).
  { induction calls as [|[e d] calls IH] using rev_ind; [done|].
    rewrite fold_left_app, length_app. simpl length.
    replace (Z.of_nat (length calls + 1)) with (Z.of_nat (length calls) + 1) by lia.
    by apply record_rpc_ok. }
  simpl. by rewrite H4.
Qed.
