(* ===== verification/AuditLimiter.v ===== *)
(** * AuditLimiter: rate limiting of rejection audit events
      (ocfleet-agent/src/audit_limiter.rs)

    One token bucket per (endpoint, resource, error code), at most
    [max_buckets] of them, and one overflow bucket for the rest.  A suppressed
    event is counted and the count is reported with the next event written.
    Instants and durations are nanoseconds; [now] is an argument. *)

From S2P Require Import Prelude Text External Wire AgentConfig.

(** ** Data *)

Inductive AuditLimitDecision :=
| DecisionWrite (suppressed_count : Z) (limit_key : string)
| DecisionSuppress.

(** [LimitKey]: endpoint, resource, error code. *)
Definition LimitKey : Type := string * string * string.

Definition LimitKey_new (remote_endpoint_id : option string) (resource error_code : string)
    : LimitKey :=
  (default "unknown" remote_endpoint_id, resource, error_code).

Definition label (k : LimitKey) : string :=
  k.1.1 +:+ ":" +:+ k.1.2 +:+ ":" +:+ k.2.

Record Bucket := mkBucket {
  tokens : Z;
  suppressed_count : Z;
  last_refill : Z;
  last_seen : Z;
  last_write : option Z;
}.

Record RejectedAuditLimiter := mkRejectedAuditLimiter {
  burst : Z;
  refill_per_sec : Z;
  max_buckets : Z;
  bucket_ttl : Z;
  aggregate_interval : Z;
  buckets : gmap LimitKey Bucket;
  overflow : option Bucket;
}.

(** ** Operations *)

(** [RejectedAuditLimiter::new]. *)
Definition limiter_new (config : AuditConfig) : RejectedAuditLimiter :=
  mkRejectedAuditLimiter (rejected_peer_log_burst config)
    (rejected_peer_log_refill_per_sec config) (rejected_peer_log_max_buckets config)
    (rejected_peer_log_bucket_ttl_seconds config * ns_per_s)
    (rejected_peer_log_aggregate_interval_seconds config * ns_per_s) ∅ None.

(** [Bucket::new]. *)
Definition Bucket_new (burst now : Z) : Bucket := mkBucket burst 0 now now None.

(** [a.saturating_duration_since(b)]. *)
Definition since (a b : Z) : Z := saturating_sub a b.

(** [Duration::as_secs]. *)
Definition as_secs (d : Z) : Z := d / ns_per_s.

(** [Bucket::refill]. *)
Definition refill (burst refill_per_sec now : Z) (b : Bucket) : Bucket :=
  let elapsed_secs := as_secs (since now (last_refill b)) in
  if elapsed_secs =? 0 then b
  else
    let amount := Z.min (elapsed_secs * refill_per_sec) u64_max in
    mkBucket (Z.min (saturating_add u64_max (tokens b) amount) burst)
      (suppressed_count b) now (last_seen b) (last_write b).

Definition check_bucket (burst refill_per_sec now : Z) (limit_key : string)
    (aggregate_interval : Z) (b0 : Bucket) : Bucket * AuditLimitDecision :=
  let b := refill burst refill_per_sec now b0 in
  let b := mkBucket (tokens b) (suppressed_count b) (last_refill b) now (last_write b) in
  let suppressed :=
    mkBucket (tokens b) (saturating_add u64_max (suppressed_count b) 1)
      (last_refill b) (last_seen b) (last_write b) in
  if 0 <? tokens b then
    if (0 <? suppressed_count b)
       && match last_write b with
          | Some lw => since now lw <? aggregate_interval
          | None => false
          end
    then (suppressed, DecisionSuppress)
    else
      (mkBucket (tokens b - 1) 0 (last_refill b) (last_seen b) (Some now),
       DecisionWrite (suppressed_count b) limit_key)
  else (suppressed, DecisionSuppress).

Definition prune_stale (now : Z) (l : RejectedAuditLimiter) : RejectedAuditLimiter :=
  let ttl := bucket_ttl l in
  mkRejectedAuditLimiter (burst l) (refill_per_sec l) (max_buckets l) (bucket_ttl l)
    (aggregate_interval l)
    (filter (fun kb => since now (last_seen kb.2) <= ttl) (buckets l))
    (match overflow l with
     | Some b => if ttl <? since now (last_seen b) then None else Some b
     | None => None
     end).

Definition check (now : Z) (remote_endpoint_id : option string)
    (resource error_code : string) (l0 : RejectedAuditLimiter)
    : RejectedAuditLimiter * AuditLimitDecision :=
  let l := prune_stale now l0 in
  let key := LimitKey_new remote_endpoint_id resource error_code in
  if bool_decide (is_Some (buckets l !! key))
     || (Z.of_nat (size (buckets l)) <? max_buckets l)
  then
    let bucket := default (Bucket_new (burst l) now) (buckets l !! key) in
    let '(bucket', d) := check_bucket (burst l) (refill_per_sec l) now (label key)
                           (aggregate_interval l) bucket in
    (mkRejectedAuditLimiter (burst l) (refill_per_sec l) (max_buckets l) (bucket_ttl l)
       (aggregate_interval l) (<[key := bucket']> (buckets l)) (overflow l), d)
  else
    let bucket := default (Bucket_new (burst l) now) (overflow l) in
    let '(bucket', d) := check_bucket (burst l) (refill_per_sec l) now "overflow"
                           (aggregate_interval l) bucket in
    (mkRejectedAuditLimiter (burst l) (refill_per_sec l) (max_buckets l) (bucket_ttl l)
       (aggregate_interval l) (buckets l) (Some bucket'), d).

(** ** Runs of one bucket *)

(** The decisions of consecutive checks of a bucket at the given instants. *)
Fixpoint run_bucket (burst refill_per_sec : Z) (key : string) (interval : Z)
    (times : list Z) (b : Bucket) : Bucket * list AuditLimitDecision :=
  match times with
  | [] => (b, [])
  | now :: times' =>
      let '(b1, d) := check_bucket burst refill_per_sec now key interval b in
      let '(b2, ds) := run_bucket burst refill_per_sec key interval times' b1 in
      (b2, d :: ds)
  end.

(** The events written, and the suppressed events they report. *)
Fixpoint writes (ds : list AuditLimitDecision) : Z :=
  match ds with
  | [] => 0
  | DecisionWrite _ _ :: ds' => 1 + writes ds'
  | DecisionSuppress :: ds' => writes ds'
  end.

Fixpoint reported (ds : list AuditLimitDecision) : Z :=
  match ds with
  | [] => 0
  | DecisionWrite n _ :: ds' => n + reported ds'
  | DecisionSuppress :: ds' => reported ds'
  end.

(** ** Invariants *)

Definition bucket_wf (burst : Z) (b : Bucket) : Prop :=
  0 <= tokens b <= burst /\ 0 <= suppressed_count b <= u64_max.

Record limiter_wf (l : RejectedAuditLimiter) : Prop := {
  lim_buckets : forall k b, buckets l !! k = Some b -> bucket_wf (burst l) b;
  lim_overflow : forall b, overflow l = Some b -> bucket_wf (burst l) b;
  lim_size : Z.of_nat (size (buckets l)) <= max_buckets l;
}.

Lemma refill_wf burst r now b :
  0 <= r -> bucket_wf burst b -> burst <= u64_max -> bucket_wf burst (refill burst r now b).
Proof.
  unfold bucket_wf, refill, saturating_add. intros Hr Hb Hm.
  destruct (_ =? 0) eqn:E; [done|]. simpl.
  assert (0 <= as_secs (since now (last_refill b))).
  { unfold as_secs. apply Z.div_pos; [apply saturating_sub_nonneg|unfold ns_per_s; lia]. }
  assert (0 <= as_secs (since now (last_refill b)) * r) by nia. lia.
Qed.

Lemma check_bucket_wf burst r now k i b :
  0 <= r -> burst <= u64_max -> bucket_wf burst b ->
  bucket_wf burst (check_bucket burst r now k i b).1.
Proof.
  intros Hr Hm Hb. pose proof (refill_wf burst r now b Hr Hb Hm) as Hb'.
  unfold check_bucket. revert Hb'. generalize (refill burst r now b). intros b' [Ht Hs].
  unfold bucket_wf, saturating_add. simpl.
  destruct (0 <? tokens b') eqn:E; [destruct (_ && _)|]; bool_facts; simpl; lia.
Qed.

(** What one check does to the tokens and the refill time. *)
Lemma check_bucket_tokens burst r now k i b :
  0 <= r -> burst <= u64_max -> bucket_wf burst b ->
  let '(b', d) := check_bucket burst r now k i b in
  last_refill b <= last_refill b' <= Z.max (last_refill b) now
  /\ tokens b' + writes [d]
     <= tokens b + r * ((last_refill b' - last_refill b) / ns_per_s).
Proof.
  intros Hr Hm Hb.
  assert (last_refill b <= last_refill (refill burst r now b) <= Z.max (last_refill b) now
          /\ tokens (refill burst r now b)
             <= tokens b + r * ((last_refill (refill burst r now b) - last_refill b) / ns_per_s))
    as [Hl Ht].
  { unfold refill, since, saturating_sub, saturating_add, as_secs.
    destruct (_ =? 0) eqn:E; simpl.
    { rewrite Z.sub_diag, Z.div_0_l by (unfold ns_per_s; lia). lia. }
    apply Z.eqb_neq in E. destruct (Z.max_spec (now - last_refill b) 0) as [[? Hx]|[? Hx]];
      rewrite Hx in *; [by rewrite Z.div_0_l in E by (unfold ns_per_s; lia)|].
    split; [lia|]. lia. }
  unfold check_bucket. revert Hl Ht. generalize (refill burst r now b). intros b' Hl Ht. simpl.
  destruct (0 <? tokens b'); [destruct (_ && _)|]; simpl; split; lia.
Qed.

Lemma run_bucket_tokens burst r k i times b :
  0 <= r -> burst <= u64_max -> bucket_wf burst b ->
  let '(b', ds) := run_bucket burst r k i times b in
  last_refill b <= last_refill b' <= foldr Z.max (last_refill b) times
  /\ 0 <= tokens b'
  /\ tokens b' + writes ds <= tokens b + r * ((last_refill b' - last_refill b) / ns_per_s).
Proof.
  intros Hr Hm. revert b. induction times as [|now times IH]; intros b Hb; simpl.
  { rewrite Z.sub_diag, Z.div_0_l by (unfold ns_per_s; lia).
    destruct Hb as [Ht Hs]. lia. }
  pose proof (check_bucket_tokens burst r now k i b Hr Hm Hb) as H1.
  pose proof (check_bucket_wf burst r now k i b Hr Hm Hb) as Hw.
  destruct (check_bucket burst r now k i b) as [b1 d]. simpl in Hw.
  specialize (IH b1 Hw). destruct (run_bucket burst r k i times b1) as [b2 ds].
  destruct H1 as [Hl1 Ht1], IH as (Hl2 & Hp & Ht2).
  assert (foldr Z.max (last_refill b1) times
          <= Z.max (Z.max now (last_refill b)) (foldr Z.max (last_refill b) times)) as Hf.
  { clear -Hl1. induction times as [|t ts IH]; simpl; lia. }
  assert (last_refill b <= foldr Z.max (last_refill b) times) as Hg.
  { clear. induction times as [|t ts IH]; simpl; lia. }
  assert ((last_refill b1 - last_refill b) / ns_per_s + (last_refill b2 - last_refill b1) / ns_per_s
          <= (last_refill b2 - last_refill b) / ns_per_s) as Hd.
  { unfold ns_per_s in *. Z.div_mod_to_equations. lia. }
  split_and!; try lia. destruct d; simpl writes in *; nia.
Qed.

Lemma refill_suppressed burst r now b :
  suppressed_count (refill burst r now b) = suppressed_count b.
Proof. unfold refill. by destruct (_ =? 0). Qed.

(** Every suppressed event is still pending or has been reported. *)
Lemma run_bucket_accounting burst r k i times b :
  0 <= suppressed_count b ->
  suppressed_count b + Z.of_nat (length times) <= u64_max ->
  let '(b', ds) := run_bucket burst r k i times b in
  length ds = length times
  /\ 0 <= suppressed_count b'
  /\ reported ds + suppressed_count b'
     = suppressed_count b + (Z.of_nat (length ds) - writes ds).
Proof.
  revert b. induction times as [|now times IH]; intros b H0 Hm; simpl; [lia|].
  assert (let '(b1, d) := check_bucket burst r now k i b in
          0 <= suppressed_count b1 <= suppressed_count b + 1 /\
          reported [d] + suppressed_count b1 = suppressed_count b + (1 - writes [d])) as H1.
  { unfold check_bucket. pose proof (refill_suppressed burst r now b) as Hr. revert Hr.
    generalize (refill burst r now b). intros b0 Hr. simpl in Hm. simpl. rewrite Hr.
    unfold saturating_add.
    destruct (0 <? tokens b0); [destruct (_ && _)|]; simpl; lia. }
  destruct (check_bucket burst r now k i b) as [b1 d]. destruct H1 as [Hb1 Hd].
  simpl length in Hm. specialize (IH b1 ltac:(lia) ltac:(lia)).
  destruct (run_bucket burst r k i times b1) as [b2 ds]. destruct IH as (Hlen & Hp & Heq).
  split; [simpl; lia|]. split; [done|]. simpl length.
  destruct d; simpl reported in *; simpl writes in *; lia.
Qed.

(** ** The limiter *)

Lemma Bucket_new_wf burst now : 0 <= burst -> bucket_wf burst (Bucket_new burst now).
Proof. unfold bucket_wf, Bucket_new, u64_max. simpl. lia. Qed.

Lemma prune_stale_wf now l : limiter_wf l -> limiter_wf (prune_stale now l).
Proof.
  intros [Hb Ho Hs]. split; simpl.
  - intros k b [? _]%map_lookup_filter_Some. eauto.
  - intros b Hb'. destruct (overflow l) as [b0|] eqn:E; [|done].
    destruct (_ <? _); simplify_eq. eauto.
  - pose proof (map_size_filter (fun kb : LimitKey * Bucket => since now (last_seen kb.2) <= bucket_ttl l)
                  (buckets l)). lia.
Qed.

Lemma check_wf now ep res err l :
  0 <= refill_per_sec l -> 0 <= burst l <= u64_max -> limiter_wf l ->
  limiter_wf (check now ep res err l).1.
Proof.
  intros Hr Hb Hwf. unfold check.
  pose proof (prune_stale_wf now l Hwf) as [Hb' Ho Hs].
  set (l1 := prune_stale now l) in *. set (key := LimitKey_new ep res err).
  assert (0 <= refill_per_sec l1 /\ 0 <= burst l1 <= u64_max) as [Hr1 Hb1] by done.
  clearbody l1.
  destruct (bool_decide (is_Some (buckets l1 !! key)) || _) eqn:E.
  - pose proof (check_bucket_wf (burst l1) (refill_per_sec l1) now (label key)
      (aggregate_interval l1) (default (Bucket_new (burst l1) now) (buckets l1 !! key))
      Hr1 (proj2 Hb1)) as Hc.
    destruct (check_bucket _ _ _ _ _ _) as [b' d]. simpl in *.
    assert (bucket_wf (burst l1) b') as Hbw.
    { apply Hc. destruct (buckets l1 !! key) eqn:Ek; simpl; [by eapply Hb'|]. apply Bucket_new_wf; lia. }
    split; simpl; [|done|].
    + intros k b. destruct (decide (k = key)) as [->|];
        [rewrite lookup_insert_eq; intros [= <-]; done|rewrite lookup_insert_ne by done; eauto].
    + destruct (buckets l1 !! key) eqn:Ek.
      * rewrite map_size_insert_Some by eauto. done.
      * rewrite map_size_insert_None by done. simpl in E. bool_facts. lia.
  - pose proof (check_bucket_wf (burst l1) (refill_per_sec l1) now "overflow"
      (aggregate_interval l1) (default (Bucket_new (burst l1) now) (overflow l1))
      Hr1 (proj2 Hb1)) as Hc.
    destruct (check_bucket _ _ _ _ _ _) as [b' d]. simpl in *.
    split; simpl; [done| |done]. intros b [= <-]. apply Hc.
    destruct (overflow l1) eqn:Eo; simpl; [by apply Ho|]. apply Bucket_new_wf; lia.
Qed.

(** ** Properties *)

(** the audit log cannot be flooded through one bucket.  From its creation
    at [start] until [stop], a bucket lets at most the burst plus the refill for
    the whole seconds that passed through, however many events arrive. *)
Theorem write_rate_bounded burst r key interval start stop times :
  0 <= r -> 0 <= burst <= u64_max -> start <= stop ->
  Forall (fun t => t <= stop) times ->
  writes (run_bucket burst r key interval times (Bucket_new burst start)).2
  <= burst + r * ((stop - start) / ns_per_s).
Proof.
  intros Hr Hb Hs Ht.
  pose proof (run_bucket_tokens burst r key interval times (Bucket_new burst start) Hr
                (proj2 Hb) (Bucket_new_wf burst start (proj1 Hb))) as H.
  destruct (run_bucket _ _ _ _ _ _) as [b' ds]. simpl in *.
  destruct H as (Hl & Hp & Hw).
  assert (foldr Z.max start times <= stop) as Hm.
  { clear -Hs Ht. induction Ht; simpl; lia. }
  assert ((last_refill b' - start) / ns_per_s <= (stop - start) / ns_per_s) as Hd.
  { apply Z.div_le_mono; unfold ns_per_s; lia. }
  nia.
Qed.

Lemma write_rate_bounded_witness :
  writes (run_bucket 2 1 "k" 0 [0; 1; 2; 3; 1000000003] (Bucket_new 2 0)).2 <= 2 + 1 * 1.
Proof.
  apply (write_rate_bounded 2 1 "k" 0 0 1000000003 [0; 1; 2; 3; 1000000003]).
  - lia.
  - vm_compute. split; discriminate.
  - lia.
  - repeat constructor; lia.
Defined.

(** No suppressed event is lost from the account.  Over any sequence of
    events on one bucket, the counts reported by the written events plus the
    count still pending are exactly the events that were not written. *)
Theorem suppressed_events_accounted burst r key interval start times :
  Z.of_nat (length times) <= u64_max ->
  let '(b', ds) := run_bucket burst r key interval times (Bucket_new burst start) in
  reported ds + suppressed_count b' = Z.of_nat (length times) - writes ds.
Proof.
  intros Hm.
  pose proof (run_bucket_accounting burst r key interval times (Bucket_new burst start)
                ltac:(simpl; lia) Hm) as H.
  destruct (run_bucket _ _ _ _ _ _) as [b' ds]. destruct H as (Hl & _ & He).
  simpl in He. rewrite <- Hl. lia.
Qed.

Lemma suppressed_events_accounted_witness :
  let '(b', ds) := run_bucket 1 1 "k" 0 [0; 1; 2; 1000000003; 1000000004] (Bucket_new 1 0) in
  reported ds + suppressed_count b' = 3 /\ writes ds = 2.
Proof.
  pose proof (suppressed_events_accounted 1 1 "k" 0 0 [0; 1; 2; 1000000003; 1000000004]
                ltac:(vm_compute; discriminate)) as H.
  vm_compute in H |- *. split; [exact H|reflexivity].
Defined.

Definition check_op (l : RejectedAuditLimiter) (c : Z * option string * string * string)
    : RejectedAuditLimiter :=
  (check c.1.1.1 c.1.1.2 c.1.2 c.2 l).1.

Lemma check_config now ep res err l :
  let l' := (check now ep res err l).1 in
  burst l' = burst l /\ refill_per_sec l' = refill_per_sec l /\ max_buckets l' = max_buckets l.
Proof.
  unfold check. destruct (_ || _); destruct (check_bucket _ _ _ _ _ _) as [b d]; done.
Qed.

(** memory is bounded: whatever endpoints, resources and codes are rejected
    and whenever, the limiter never keeps more than the configured number of
    buckets, and no bucket ever holds more tokens than the burst. *)
Theorem limiter_memory_bounded cfg cs :
  0 <= rejected_peer_log_burst cfg <= u64_max ->
  0 <= rejected_peer_log_refill_per_sec cfg ->
  0 <= rejected_peer_log_max_buckets cfg ->
  let l := fold_left check_op cs (limiter_new cfg) in
  Z.of_nat (size (buckets l)) <= rejected_peer_log_max_buckets cfg
  /\ (forall k b, buckets l !! k = Some b -> 0 <= tokens b <= rejected_peer_log_burst cfg).
Proof.
  intros Hb Hr Hm. cbv zeta.
  assert (let l := fold_left check_op cs (limiter_new cfg) in
          limiter_wf l /\ burst l = rejected_peer_log_burst cfg
          /\ refill_per_sec l = rejected_peer_log_refill_per_sec cfg
          /\ max_buckets l = rejected_peer_log_max_buckets cfg) as (Hwf & Eb & _ & Em).
  { induction cs as [|c cs IH] using rev_ind.
    { simpl. by split_and!. }
    rewrite fold_left_app. simpl. destruct IH as (Hwf & Eb & Er & Em).
    set (l := fold_left check_op cs (limiter_new cfg)) in *.
    destruct (check_config c.1.1.1 c.1.1.2 c.1.2 c.2 l) as (E1 & E2 & E3).
    unfold check_op at 1 2 3 4. split_and!; [|congruence..].
    apply check_wf; [lia|lia|done]. }
  destruct Hwf as [Hbk _ Hsz]. rewrite <- Em, <- Eb. split; [done|].
  intros k b Hk. by apply (Hbk k).
Qed.

Definition small_audit_config : AuditConfig := mkAuditConfig "a" 1 None None 1 2 1 1 10 5.

Definition two_rejections : list (Z * option string * string * string) :=
  [(0, Some "x", "connection", "E"); (1, Some "y", "connection", "E")]%string.

Lemma limiter_memory_bounded_witness :
  Z.of_nat (size (buckets (fold_left check_op two_rejections (limiter_new small_audit_config))))
  <= rejected_peer_log_max_buckets small_audit_config.
Proof.
  refine (proj1 (limiter_memory_bounded small_audit_config two_rejections _ _ _)).
  - vm_compute. split; discriminate.
  - vm_compute. discriminate.
  - vm_compute. discriminate.
Defined.
