(* ===== verification/Nonce.v ===== *)
(** * Nonce: the agent's replay cache (ocfleet-agent/src/nonce.rs)

    [NonceCache] keeps, per remote endpoint, the nonces still live with their
    expiry instant, a min-heap of expiries and a running total.  Instants and
    durations are nanoseconds in [Z].  [BinaryHeap<Reverse<ExpiryEntry>>] is
    the list of its entries in the derived order: [peek] is the head, [pop]
    drops it, [push] inserts in order.

    The abstract cache [SpecCache] is a finite map from (peer, nonce) to the
    expiry; pruning is a filter.  [register_refines] shows that the
    implementation computes the abstract decision and the abstract map. *)

From stdpp Require Import sorting.
From S2P Require Import Prelude Text.

(** ** Data *)

Inductive NonceLimitScope := Global | PerPeer.

Inductive NonceDecision :=
| Accepted
| Replay
| ResourceExhausted (scope : NonceLimitScope) (limit : Z).

Record ExpiryEntry := mkExpiryEntry {
  expires_at : Z;
  peer_id : string;
  nonce : string;
}.

Record NonceCache := mkNonceCache {
  peers : gmap string (gmap string Z);
  expirations : list ExpiryEntry;
  live_total : Z;
  max_live_global : Z;
  max_live_per_peer : Z;
}.

#[global] Instance NonceLimitScope_eq_dec : EqDecision NonceLimitScope.
Proof. solve_decision. Defined.
#[global] Instance NonceDecision_eq_dec : EqDecision NonceDecision.
Proof. solve_decision. Defined.
#[global] Instance ExpiryEntry_eq_dec : EqDecision ExpiryEntry.
Proof. solve_decision. Defined.

(** ** Operations *)

(** The largest [Instant]: a 64-bit count of seconds and the nanoseconds. *)
Definition instant_max : Z := i64_max * 1000000000 + 999999999.

Definition with_limits (max_live_global max_live_per_peer : Z) : NonceCache :=
  mkNonceCache ∅ [] 0 max_live_global max_live_per_peer.

(** The derived [Ord] of [ExpiryEntry]: the fields in order. *)
Definition entry_ltb (a b : ExpiryEntry) : bool :=
  if expires_at a <? expires_at b then true
  else if expires_at a =? expires_at b then
    if str_ltb (peer_id a) (peer_id b) then true
    else if String.eqb (peer_id a) (peer_id b) then str_ltb (nonce a) (nonce b)
    else false
  else false.

(** [BinaryHeap::push]. *)
Fixpoint heap_push (e : ExpiryEntry) (h : list ExpiryEntry) : list ExpiryEntry :=
  match h with
  | [] => [e]
  | x :: h' => if entry_ltb x e then x :: heap_push e h' else e :: h
  end.

(** [peer.nonces.remove(..)] and, when that leaves the peer with no live nonce,
    [self.peers.remove(..)]. *)
Definition remove_live (peer_id nonce : string) (ns : gmap string Z)
    (ps : gmap string (gmap string Z)) : gmap string (gmap string Z) :=
  let ns' := delete nonce ns in
  if bool_decide (ns' = ∅)
  then delete peer_id (<[peer_id := ns']> ps)
  else <[peer_id := ns']> ps.

(** The loop of [prune_expired_at] over the peers, the heap, the total and the
    number of entries popped. *)
Fixpoint prune_loop (now : Z) (ps : gmap string (gmap string Z))
    (h : list ExpiryEntry) (total popped : Z)
    : gmap string (gmap string Z) * list ExpiryEntry * Z * Z :=
  match h with
  | [] => (ps, [], total, popped)
  | entry :: h' =>
      if now <? expires_at entry then (ps, h, total, popped)
      else
        let current_expires_at := (ps !! peer_id entry) ≫= (fun ns => ns !! nonce entry) in
        if bool_decide (current_expires_at <> Some (expires_at entry))
        then prune_loop now ps h' total (popped + 1)
        else
          match ps !! peer_id entry with
          | None => prune_loop now ps h' total (popped + 1)
          | Some ns =>
              let total' :=
                match ns !! nonce entry with
                | Some _ => saturating_sub total 1
                | None => total
                end in
              prune_loop now (remove_live (peer_id entry) (nonce entry) ns ps) h'
                total' (popped + 1)
          end
  end.

Definition prune_expired_at (now : Z) (c : NonceCache) : NonceCache * Z :=
  let '(ps, h, total, popped) :=
    prune_loop now (peers c) (expirations c) (live_total c) 0 in
  (mkNonceCache ps h total (max_live_global c) (max_live_per_peer c), popped).

Definition register_at (now : Z) (remote_endpoint_id nonce : string) (ttl : Z)
    (c0 : NonceCache) : NonceCache * NonceDecision :=
  let c := (prune_expired_at now c0).1 in
  let peer_live_count :=
    match peers c !! remote_endpoint_id with
    | Some ns => Z.of_nat (size ns)
    | None => 0
    end in
  if match peers c !! remote_endpoint_id with
     | Some ns => bool_decide (is_Some (ns !! nonce))
     | None => false
     end
  then (c, Replay)
  else if max_live_per_peer c <=? peer_live_count
  then (c, ResourceExhausted PerPeer (max_live_per_peer c))
  else if max_live_global c <=? live_total c
  then (c, ResourceExhausted Global (max_live_global c))
  else
    let expires_at := default now (checked_add instant_max now ttl) in
    let ns := default ∅ (peers c !! remote_endpoint_id) in
    (mkNonceCache
       (<[remote_endpoint_id := <[nonce := expires_at]> ns]> (peers c))
       (heap_push (mkExpiryEntry expires_at remote_endpoint_id nonce) (expirations c))
       (live_total c + 1)
       (max_live_global c) (max_live_per_peer c),
     Accepted).

(** ** The abstract cache *)

(** The live nonces as one map from (peer, nonce) to the expiry. *)
Definition abs_live (ps : gmap string (gmap string Z)) : gmap (string * string) Z :=
  map_uncurry (M1 := gmap string) (M2 := gmap string) (M12 := gmap (string * string)) ps.

Record SpecCache := mkSpecCache {
  spec_live : gmap (string * string) Z;
  spec_global : Z;
  spec_per_peer : Z;
}.

Definition abs (c : NonceCache) : SpecCache :=
  mkSpecCache (abs_live (peers c)) (max_live_global c) (max_live_per_peer c).

(** The live nonces of one peer. *)
Definition spec_peer (p : string) (m : gmap (string * string) Z) : gmap (string * string) Z :=
  filter (fun kv => kv.1.1 = p) m.

Definition spec_prune (now : Z) (m : gmap (string * string) Z) : gmap (string * string) Z :=
  filter (fun kv => now < kv.2) m.

Definition spec_register (now : Z) (p n : string) (ttl : Z) (s : SpecCache)
    : SpecCache * NonceDecision :=
  let m := spec_prune now (spec_live s) in
  let s' := mkSpecCache m (spec_global s) (spec_per_peer s) in
  if bool_decide (is_Some (m !! (p, n))) then (s', Replay)
  else if spec_per_peer s <=? Z.of_nat (size (spec_peer p m))
  then (s', ResourceExhausted PerPeer (spec_per_peer s))
  else if spec_global s <=? Z.of_nat (size m)
  then (s', ResourceExhausted Global (spec_global s))
  else (mkSpecCache (<[(p, n) := default now (checked_add instant_max now ttl)]> m)
          (spec_global s) (spec_per_peer s), Accepted).

(** ** The invariant *)

(** The heap holds exactly the live nonces, each once. *)
Definition heap_covers (h : list ExpiryEntry) (m : gmap (string * string) Z) : Prop :=
  NoDup h /\ forall e, e ∈ h <-> m !! (peer_id e, nonce e) = Some (expires_at e).

Definition heap_sorted : list ExpiryEntry -> Prop :=
  StronglySorted (fun a b => expires_at a <= expires_at b).

(** The well-formedness of a [NonceCache]. *)
Record cache_wf (c : NonceCache) : Prop := {
  wf_sorted : heap_sorted (expirations c);
  wf_covers : heap_covers (expirations c) (abs_live (peers c));
  wf_total : live_total c = Z.of_nat (size (abs_live (peers c)));
  wf_no_empty_peer : forall p, peers c !! p <> Some ∅;
  wf_per_peer : forall p ns, peers c !! p = Some ns ->
                  Z.of_nat (size ns) <= max_live_per_peer c;
  wf_global : live_total c <= max_live_global c;
}.

(** ** Lemmas on the abstraction *)

Lemma abs_live_lookup ps p n : abs_live ps !! (p, n) = (ps !! p) ≫= (.!! n).
Proof. apply lookup_map_uncurry. Qed.

Lemma abs_live_insert ps p n x :
  abs_live (<[p := <[n := x]> (default ∅ (ps !! p))]> ps) = <[(p, n) := x]> (abs_live ps).
Proof.
  apply map_eq. intros [q k]. rewrite abs_live_lookup.
  destruct (decide (q = p)) as [->|Hq].
  - rewrite lookup_insert_eq. simpl. destruct (decide (k = n)) as [->|Hk].
    + by rewrite !lookup_insert_eq.
    + rewrite !lookup_insert_ne by congruence. rewrite abs_live_lookup.
      destruct (ps !! p); simpl; [done|]. by rewrite lookup_empty.
  - rewrite !lookup_insert_ne by congruence. by rewrite abs_live_lookup.
Qed.

Lemma abs_live_delete ps p n ns :
  ps !! p = Some ns ->
  abs_live (<[p := delete n ns]> ps) = delete (p, n) (abs_live ps).
Proof.
  intros Hp. apply map_eq. intros [q k]. rewrite abs_live_lookup.
  destruct (decide (q = p)) as [->|Hq].
  - rewrite lookup_insert_eq. simpl. destruct (decide (k = n)) as [->|Hk].
    + by rewrite !lookup_delete_eq.
    + rewrite !lookup_delete_ne by congruence. rewrite abs_live_lookup, Hp. done.
  - rewrite lookup_insert_ne by congruence. rewrite lookup_delete_ne by congruence.
    by rewrite abs_live_lookup.
Qed.

(** Dropping a peer whose map is empty does not change the live nonces. *)
Lemma abs_live_drop_empty ps p :
  abs_live (delete p (<[p := ∅]> ps)) = abs_live (<[p := ∅]> ps).
Proof.
  apply map_eq. intros [q k]. rewrite !abs_live_lookup.
  destruct (decide (q = p)) as [->|Hq].
  - rewrite lookup_delete_eq, lookup_insert_eq. simpl. by rewrite lookup_empty.
  - by rewrite lookup_delete_ne by congruence.
Qed.

Lemma spec_peer_size ps p :
  size (spec_peer p (abs_live ps)) = size (default ∅ (ps !! p)).
Proof.
  assert (spec_peer p (abs_live ps) = kmap (p,.) (default ∅ (ps !! p))) as ->.
  { apply map_eq. intros [q k]. unfold spec_peer.
    destruct (decide (q = p)) as [->|Hq].
    - rewrite (lookup_kmap (p,.)), map_lookup_filter, abs_live_lookup.
      destruct (ps !! p) as [ns|]; simpl; [|by rewrite lookup_empty].
      destruct (ns !! k) as [x|] eqn:Hk; [|done]; simpl.
      by rewrite option_guard_True.
    - rewrite map_lookup_filter.
      assert (kmap (p,.) (default ∅ (ps !! p)) !! (q, k) = None) as ->.
      { apply (lookup_kmap_None (p,.)). intros i [= -> ->]. done. }
      destruct (abs_live ps !! (q, k)); simpl; [|done].
      by rewrite option_guard_False by (simpl; congruence). }
  apply (map_size_kmap (p,.)).
Qed.

(** ** Lemmas on the heap *)

Lemma heap_push_perm e h : heap_push e h ≡ₚ e :: h.
Proof.
  induction h as [|x h IH]; simpl; [done|].
  destruct (entry_ltb x e); [|done]. rewrite IH. apply Permutation_swap.
Qed.

Lemma entry_ltb_expires a b : entry_ltb a b = true -> expires_at a <= expires_at b.
Proof.
  unfold entry_ltb. destruct (expires_at a <? expires_at b) eqn:H1; bool_facts; [lia|].
  destruct (expires_at a =? expires_at b) eqn:H2; bool_facts; [lia|done].
Qed.

Lemma entry_nltb_expires a b : entry_ltb a b = false -> expires_at b <= expires_at a.
Proof.
  unfold entry_ltb. destruct (expires_at a <? expires_at b) eqn:H1; bool_facts; [done|lia].
Qed.

Lemma heap_push_sorted e h : heap_sorted h -> heap_sorted (heap_push e h).
Proof.
  unfold heap_sorted. induction h as [|x h IH]; simpl; intros Hs.
  { repeat constructor. }
  apply StronglySorted_inv in Hs as [Hs Hx].
  destruct (entry_ltb x e) eqn:He.
  - constructor; [by apply IH|]. rewrite heap_push_perm. constructor; [|done].
    by apply entry_ltb_expires.
  - apply entry_nltb_expires in He. constructor; [by constructor|].
    constructor; [done|]. eapply Forall_impl; [exact Hx|]. simpl. lia.
Qed.

Lemma heap_covers_push h m e :
  heap_covers h m -> m !! (peer_id e, nonce e) = None ->
  heap_covers (heap_push e h) (<[(peer_id e, nonce e) := expires_at e]> m).
Proof.
  intros [Hnd Hcov] Hnone. split.
  - rewrite heap_push_perm. constructor; [|done]. rewrite Hcov, Hnone. done.
  - intros x. rewrite heap_push_perm, elem_of_cons, Hcov.
    destruct (decide ((peer_id x, nonce x) = (peer_id e, nonce e))) as [Hk|Hk].
    + rewrite Hk, lookup_insert_eq, Hnone. destruct x, e; simpl in *. naive_solver.
    + rewrite lookup_insert_ne by congruence. naive_solver.
Qed.

Lemma heap_covers_pop h m e :
  heap_covers (e :: h) m -> heap_covers h (delete (peer_id e, nonce e) m).
Proof.
  intros [Hnd Hcov]. apply NoDup_cons in Hnd as [Hni Hnd]. split; [done|].
  intros x. destruct (decide ((peer_id x, nonce x) = (peer_id e, nonce e))) as [Hk|Hk].
  - rewrite Hk, lookup_delete_eq. split; [|done]. intros Hx.
    assert (m !! (peer_id x, nonce x) = Some (expires_at x)) as H1 by (apply Hcov; by right).
    assert (m !! (peer_id e, nonce e) = Some (expires_at e)) as H2 by (apply Hcov; by left).
    rewrite Hk, H2 in H1. destruct x, e; simpl in *; by simplify_eq.
  - rewrite lookup_delete_ne by congruence. rewrite <- Hcov, elem_of_cons.
    naive_solver.
Qed.

(** ** Pruning *)

Lemma remove_live_abs ps p n ns :
  ps !! p = Some ns -> abs_live (remove_live p n ns ps) = delete (p, n) (abs_live ps).
Proof.
  intros Hp. unfold remove_live. case_bool_decide as Hd.
  - by rewrite Hd, abs_live_drop_empty, <- Hd, abs_live_delete.
  - by apply abs_live_delete.
Qed.

Lemma remove_live_lookup ps p n ns q :
  remove_live p n ns ps !! q =
  if decide (q = p) then (if bool_decide (delete n ns = ∅) then None else Some (delete n ns))
  else ps !! q.
Proof.
  unfold remove_live. destruct (decide (q = p)) as [->|Hq]; case_bool_decide.
  - by rewrite lookup_delete_eq.
  - by rewrite lookup_insert_eq.
  - by rewrite lookup_delete_ne, lookup_insert_ne by congruence.
  - by rewrite lookup_insert_ne by congruence.
Qed.

(** What the loop of [prune_expired_at] keeps true of its variables. *)
Record loop_wf (ps : gmap string (gmap string Z)) (h : list ExpiryEntry) (total : Z)
    : Prop := {
  loop_sorted : heap_sorted h;
  loop_covers : heap_covers h (abs_live ps);
  loop_total : total = Z.of_nat (size (abs_live ps));
  loop_no_empty : forall p, ps !! p <> Some ∅;
}.

Lemma loop_wf_head ps e h total :
  loop_wf ps (e :: h) total ->
  exists ns, ps !! peer_id e = Some ns /\ ns !! nonce e = Some (expires_at e).
Proof.
  intros [_ [_ Hcov] _ _].
  assert (abs_live ps !! (peer_id e, nonce e) = Some (expires_at e)) as He
    by (apply Hcov; by left).
  rewrite abs_live_lookup in He. apply bind_Some in He as (ns & ? & ?). eauto.
Qed.

Lemma loop_wf_pop ps e h total ns :
  loop_wf ps (e :: h) total -> ps !! peer_id e = Some ns ->
  loop_wf (remove_live (peer_id e) (nonce e) ns ps) h (saturating_sub total 1).
Proof.
  intros [Hs Hc Ht Hne] Hp.
  assert (is_Some (abs_live ps !! (peer_id e, nonce e))) as Hk.
  { exists (expires_at e). apply (proj2 Hc). by left. }
  split.
  - by apply StronglySorted_inv in Hs as [Hs _].
  - rewrite remove_live_abs by done. by apply heap_covers_pop.
  - rewrite remove_live_abs, map_size_delete_Some by done.
    pose proof (map_size_ne_0_lookup_2 _ _ Hk). unfold saturating_sub. lia.
  - intros q. rewrite remove_live_lookup. destruct (decide (q = peer_id e)); [|done].
    case_bool_decide; congruence.
Qed.

Lemma spec_prune_id now h m :
  heap_covers h m -> Forall (fun e => now < expires_at e) h -> spec_prune now m = m.
Proof.
  intros [_ Hcov] Hall. apply map_filter_id. intros [p n] x Hx. simpl.
  rewrite Forall_forall in Hall.
  apply (Hall (mkExpiryEntry x p n)). by apply Hcov.
Qed.

Lemma spec_prune_delete now k m x :
  m !! k = Some x -> x <= now -> spec_prune now (delete k m) = spec_prune now m.
Proof.
  intros Hk Hx. unfold spec_prune. rewrite map_filter_delete.
  apply delete_id. rewrite map_lookup_filter_None. right. intros y Hy. simpl.
  rewrite Hk in Hy. simplify_eq. lia.
Qed.

Lemma heap_sorted_all now e h :
  heap_sorted (e :: h) -> now < expires_at e -> Forall (fun x => now < expires_at x) (e :: h).
Proof.
  intros Hs He. apply StronglySorted_inv in Hs as [_ Hf]. constructor; [done|].
  eapply Forall_impl; [exact Hf|]. simpl. lia.
Qed.

(** The loop removes exactly the expired nonces. *)
Lemma prune_loop_spec now h ps total popped ps' h' total' popped' :
  loop_wf ps h total ->
  prune_loop now ps h total popped = (ps', h', total', popped') ->
  loop_wf ps' h' total' /\ abs_live ps' = spec_prune now (abs_live ps)
  /\ (forall p ns', ps' !! p = Some ns' -> exists ns, ps !! p = Some ns /\ size ns' <= size ns)%nat.
Proof.
  revert ps total popped. induction h as [|e h IH]; intros ps total popped Hwf Hrun; simpl in Hrun.
  { simplify_eq. split_and!; [done| |eauto].
    symmetry. eapply spec_prune_id; [apply Hwf|constructor]. }
  destruct (now <? expires_at e) eqn:He; bool_facts.
  { simplify_eq. split_and!; [done| |eauto].
    symmetry. eapply spec_prune_id; [apply Hwf|].
    apply heap_sorted_all; [apply Hwf|done]. }
  destruct (loop_wf_head _ _ _ _ Hwf) as (ns & Hp & Hn).
  rewrite Hp in Hrun. simpl in Hrun. rewrite Hn, bool_decide_eq_false_2 in Hrun by tauto.
  destruct (IH _ _ _ (loop_wf_pop _ _ _ _ _ Hwf Hp) Hrun) as (Hwf' & Habs & Hsub).
  split_and!; [done| |].
  - rewrite Habs, remove_live_abs by done.
    apply spec_prune_delete with (expires_at e); [|lia].
    by rewrite abs_live_lookup, Hp.
  - intros p ns' Hns'. destruct (Hsub _ _ Hns') as (ns1 & Hns1 & Hle).
    rewrite remove_live_lookup in Hns1. destruct (decide (p = peer_id e)) as [->|]; [|eauto].
    case_bool_decide; simplify_eq. exists ns. split; [done|].
    rewrite map_size_delete_Some in Hle by eauto. lia.
Qed.

Lemma cache_wf_loop c : cache_wf c -> loop_wf (peers c) (expirations c) (live_total c).
Proof. intros []. by split. Qed.

Lemma prune_expired_at_spec now c :
  cache_wf c ->
  cache_wf (prune_expired_at now c).1
  /\ abs (prune_expired_at now c).1
     = mkSpecCache (spec_prune now (abs_live (peers c)))
         (max_live_global c) (max_live_per_peer c).
Proof.
  intros Hwf. unfold prune_expired_at.
  destruct (prune_loop _ _ _ _ _) as [[[ps h] total] popped] eqn:Hrun. simpl.
  destruct (prune_loop_spec _ _ _ _ _ _ _ _ _ (cache_wf_loop c Hwf) Hrun)
    as ([Hs Hc Ht Hne] & Habs & Hsub).
  unfold abs. simpl. rewrite Habs. split; [|done]. split; simpl; try done.
  - intros p ns Hp. destruct (Hsub _ _ Hp) as (ns0 & H0 & Hle).
    pose proof (wf_per_peer c Hwf _ _ H0). lia.
  - rewrite Ht, Habs.
    pose proof (map_size_filter (fun kv : string * string * Z => now < kv.2) (abs_live (peers c))).
    pose proof (wf_total c Hwf). pose proof (wf_global c Hwf). unfold spec_prune. lia.
Qed.

(** ** Registration *)

(** The part of [register_at] that follows the pruning. *)
Lemma register_at_insert_wf c p n x :
  cache_wf c -> abs_live (peers c) !! (p, n) = None ->
  Z.of_nat (size (default ∅ (peers c !! p))) < max_live_per_peer c ->
  live_total c < max_live_global c ->
  cache_wf (mkNonceCache (<[p := <[n := x]> (default ∅ (peers c !! p))]> (peers c))
              (heap_push (mkExpiryEntry x p n) (expirations c)) (live_total c + 1)
              (max_live_global c) (max_live_per_peer c)).
Proof.
  intros [Hs Hc Ht Hne Hpp Hg] Hfresh Hlp Hlg. split; simpl.
  - by apply heap_push_sorted.
  - rewrite abs_live_insert. by apply (heap_covers_push _ _ (mkExpiryEntry x p n)).
  - rewrite abs_live_insert, map_size_insert_None by done. lia.
  - intros q. destruct (decide (q = p)) as [->|].
    + rewrite lookup_insert_eq. intros [= He]. by apply insert_non_empty in He.
    + by rewrite lookup_insert_ne.
  - intros q ns. destruct (decide (q = p)) as [->|].
    + rewrite lookup_insert_eq. intros [= <-]. rewrite map_size_insert_None; [lia|].
      rewrite abs_live_lookup in Hfresh. by destruct (peers c !! p).
    + rewrite lookup_insert_ne by done. apply Hpp.
  - lia.
Qed.

Lemma peer_lookup_abs (ps : gmap string (gmap string Z)) p n :
  match ps !! p with
  | Some ns => bool_decide (is_Some (ns !! n))
  | None => false
  end = bool_decide (is_Some (abs_live ps !! (p, n))).
Proof.
  rewrite abs_live_lookup. by destruct (ps !! p).
Qed.

Lemma peer_count_abs (ps : gmap string (gmap string Z)) p :
  match ps !! p with Some ns => Z.of_nat (size ns) | None => 0 end
  = Z.of_nat (size (spec_peer p (abs_live ps))).
Proof. rewrite spec_peer_size. destruct (ps !! p); simpl; [done|]. by rewrite map_size_empty. Qed.

(** Both halves of the correctness of [register_at] at once. *)
Lemma register_at_correct now p n ttl c :
  cache_wf c ->
  cache_wf (register_at now p n ttl c).1
  /\ (abs (register_at now p n ttl c).1, (register_at now p n ttl c).2)
     = spec_register now p n ttl (abs c).
Proof.
  intros Hwf. destruct (prune_expired_at_spec now c Hwf) as [Hwf' Habs].
  unfold register_at, spec_register. cbv zeta.
  revert Hwf' Habs. generalize (prune_expired_at now c).1. intros c' Hwf' Habs.
  assert (spec_live (abs c') = spec_prune now (spec_live (abs c))) as Hl by (by rewrite Habs).
  assert (max_live_global c' = spec_global (abs c)
          /\ max_live_per_peer c' = spec_per_peer (abs c)) as [Hg Hp]
    by (change (max_live_global c') with (spec_global (abs c'));
        change (max_live_per_peer c') with (spec_per_peer (abs c')); by rewrite Habs).
  rewrite peer_lookup_abs, peer_count_abs, (wf_total c' Hwf').
  rewrite <- Hl, <- Hg, <- Hp. simpl.
  case_bool_decide as Hin; [done|].
  destruct (max_live_per_peer c' <=? _) eqn:Hlp; [done|].
  destruct (max_live_global c' <=? _) eqn:Hlg; [done|]. bool_facts. simpl. split.
  - rewrite <- (wf_total c' Hwf'). apply register_at_insert_wf; [done| | |].
    + by apply eq_None_not_Some.
    + by rewrite <- spec_peer_size.
    + by rewrite (wf_total c' Hwf').
  - unfold abs. simpl. by rewrite abs_live_insert.
Qed.

(** ** Runs *)

(** One call of [register_at]. *)
Record Registration := mkRegistration {
  r_now : Z;
  r_peer : string;
  r_nonce : string;
  r_ttl : Z;
}.

Definition register_op (c : NonceCache) (r : Registration) : NonceCache :=
  (register_at (r_now r) (r_peer r) (r_nonce r) (r_ttl r) c).1.

Definition run_registrations (c : NonceCache) (rs : list Registration) : NonceCache :=
  fold_left register_op rs c.

Lemma with_limits_wf g pp : 0 <= g -> cache_wf (with_limits g pp).
Proof.
  intros Hg.
  assert (abs_live (peers (with_limits g pp)) = ∅) as He.
  { apply map_eq. intros [p n]. rewrite abs_live_lookup. simpl. by rewrite !lookup_empty. }
  split; rewrite ?He; simpl; try done.
  - constructor.
  - split; [constructor|]. intros e. rewrite lookup_empty. split; [|done]. by intros ?%elem_of_nil.
Qed.

Lemma run_registrations_wf rs c : cache_wf c -> cache_wf (run_registrations c rs).
Proof.
  revert c. induction rs as [|r rs IH]; intros c Hwf; simpl; [done|].
  apply IH. by apply register_at_correct.
Qed.

Lemma heap_length_total h m : heap_covers h m -> length h = size m.
Proof.
  intros [Hnd Hcov].
  set (f := fun e => ((peer_id e, nonce e), expires_at e)).
  assert (f <$> h ≡ₚ map_to_list m) as Hp.
  { apply NoDup_Permutation.
    - apply NoDup_fmap_2; [|done]. intros [] [] [=]. by subst.
    - apply NoDup_map_to_list.
    - intros [[p n] x]. rewrite list_elem_of_fmap, elem_of_map_to_list. split.
      + intros (e & [= -> -> ->] & He). by apply Hcov.
      + intros Hx. exists (mkExpiryEntry x p n). split; [done|]. by apply Hcov. }
  apply Permutation_length in Hp. by rewrite length_fmap, length_map_to_list in Hp.
Qed.

(** A live nonce stays, with its expiry, through a registration made before it
    expires. *)
Lemma spec_register_keeps now p n ttl s k x :
  spec_live s !! k = Some x -> now < x ->
  spec_live (spec_register now p n ttl s).1 !! k = Some x.
Proof.
  intros Hk Hx.
  assert (spec_prune now (spec_live s) !! k = Some x) as Hk'.
  { unfold spec_prune. by apply map_lookup_filter_Some. }
  unfold spec_register. case_bool_decide as Hin; [done|].
  destruct (_ <=? _); [done|]. destruct (_ <=? _); [done|]. simpl.
  rewrite lookup_insert_ne; [done|]. intros <-. apply Hin. eauto.
Qed.

Lemma run_registrations_keeps rs c k x :
  cache_wf c -> abs_live (peers c) !! k = Some x -> Forall (fun r => r_now r < x) rs ->
  abs_live (peers (run_registrations c rs)) !! k = Some x.
Proof.
  revert c. induction rs as [|r rs IH]; intros c Hwf Hk Hall; simpl; [done|].
  apply Forall_cons in Hall as [Hr Hall].
  destruct (register_at_correct (r_now r) (r_peer r) (r_nonce r) (r_ttl r) c Hwf) as [Hwf' Heq].
  apply IH; [done| |done]. unfold register_op.
  pose proof (spec_register_keeps (r_now r) (r_peer r) (r_nonce r) (r_ttl r) (abs c) k x Hk Hr) as H.
  by rewrite <- Heq in H.
Qed.

Lemma register_live_replay now p n ttl c x :
  cache_wf c -> abs_live (peers c) !! (p, n) = Some x -> now < x ->
  (register_at now p n ttl c).2 = Replay.
Proof.
  intros Hwf Hk Hx. destruct (register_at_correct now p n ttl c Hwf) as [_ Heq].
  assert (spec_prune now (spec_live (abs c)) !! (p, n) = Some x) as Hk'.
  { unfold spec_prune. by apply map_lookup_filter_Some. }
  unfold spec_register in Heq. rewrite bool_decide_eq_true_2 in Heq by eauto. congruence.
Qed.

Lemma register_accepted_live now p n ttl c c' :
  cache_wf c -> register_at now p n ttl c = (c', Accepted) ->
  cache_wf c' /\ abs_live (peers c') !! (p, n)
                 = Some (default now (checked_add instant_max now ttl)).
Proof.
  intros Hwf Hr. destruct (register_at_correct now p n ttl c Hwf) as [Hwf' Heq].
  rewrite Hr in *. simpl in *. split; [done|].
  symmetry in Heq. unfold spec_register in Heq. peel_in Heq.
  injection Heq as Hl _ _. simpl in Hl. by rewrite <- Hl, lookup_insert_eq.
Qed.

(** ** Properties *)

(** C25: [register_at] implements the abstract cache: on a well-formed cache its
    decision and its live nonces are those of [spec_register], in which pruning
    removes exactly the expired nonces and a nonce is a replay exactly when it
    is live. *)
Theorem register_refines now p n ttl c :
  cache_wf c ->
  (abs (register_at now p n ttl c).1, (register_at now p n ttl c).2)
  = spec_register now p n ttl (abs c).
Proof. intros Hwf. by apply register_at_correct. Qed.

Lemma register_refines_witness :
  (abs (register_at 5 "peer" "n" 10 (with_limits 2 1)).1,
   (register_at 5 "peer" "n" 10 (with_limits 2 1)).2)
  = spec_register 5 "peer" "n" 10 (abs (with_limits 2 1)).
Proof. apply (register_refines 5 "peer" "n" 10 (with_limits 2 1)), with_limits_wf. lia. Defined.

(** Whatever is registered, in whatever order of instants, the cache keeps
    to its limits: the running total is the number of live nonces, the heap has
    one entry per live nonce, neither exceeds the global limit, no peer exceeds
    its own limit and no peer without live nonces is kept. *)
Theorem cache_bounded g pp rs :
  0 <= g ->
  let c := run_registrations (with_limits g pp) rs in
  live_total c = Z.of_nat (size (abs_live (peers c)))
  /\ Z.of_nat (length (expirations c)) = live_total c
  /\ live_total c <= max_live_global c
  /\ (forall p ns, peers c !! p = Some ns -> 0 < Z.of_nat (size ns) <= max_live_per_peer c).
Proof.
  intros Hg c. destruct (run_registrations_wf rs _ (with_limits_wf g pp Hg))
    as [Hs Hc Ht Hne Hpp Hgl].
  split_and!; [done| |done|].
  - unfold c. by rewrite (heap_length_total _ _ Hc), <- Ht.
  - intros p ns Hp. split; [|by eapply Hpp].
    destruct (decide (ns = ∅)) as [->|Hn]; [by apply Hne in Hp|].
    apply map_size_non_empty_iff in Hn. lia.
Qed.

Lemma cache_bounded_witness :
  let c := run_registrations (with_limits 2 1)
             [mkRegistration 5 "a" "n" 10; mkRegistration 6 "b" "m" 10;
              mkRegistration 7 "c" "k" 10] in
  live_total c = 2 /\ Z.of_nat (length (expirations c)) = live_total c
  /\ live_total c <= max_live_global c.
Proof.
  pose proof (cache_bounded 2 1
    [mkRegistration 5 "a" "n" 10; mkRegistration 6 "b" "m" 10; mkRegistration 7 "c" "k" 10]
    ltac:(lia)) as (_ & H2 & H3 & _).
  split; [vm_compute; reflexivity|]. split; [exact H2|exact H3].
Defined.

(** A nonce that was accepted is answered with a replay until its life time
    has passed, whatever other registrations come in between. *)
Theorem replay_until_expiry now p n ttl c c' rs now' ttl' :
  cache_wf c -> now + ttl <= instant_max ->
  register_at now p n ttl c = (c', Accepted) ->
  Forall (fun r => r_now r < now + ttl) rs -> now' < now + ttl ->
  (register_at now' p n ttl' (run_registrations c' rs)).2 = Replay.
Proof.
  intros Hwf Hmax Hacc Hrs Hnow'.
  destruct (register_accepted_live _ _ _ _ _ _ Hwf Hacc) as [Hwf' Hlive].
  unfold checked_add in Hlive. rewrite (proj2 (Z.leb_le _ _) Hmax) in Hlive. simpl in Hlive.
  eapply register_live_replay; [by apply run_registrations_wf| |exact Hnow'].
  by apply run_registrations_keeps.
Qed.

Lemma replay_until_expiry_witness :
  (register_at 14 "a" "n" 3
     (run_registrations (register_at 5 "a" "n" 10 (with_limits 9 9)).1
        [mkRegistration 6 "b" "m" 2; mkRegistration 12 "a" "m" 2])).2 = Replay.
Proof.
  eapply (replay_until_expiry 5 "a" "n" 10 (with_limits 9 9)).
  - apply with_limits_wf. lia.
  - vm_compute. discriminate.
  - vm_compute. reflexivity.
  - repeat constructor.
  - lia.
Defined.
