(* ===== verification/PeerEcho.v ===== *)
(** * PeerEcho: the source agent's check of a peer echo response
      (ocfleet-agent/src/peer_echo.rs)

    [validate_peer_echo_response] is the whole check, with the closed set of
    result fields. *)

From stdpp Require Import pretty.
From S2P Require Import Prelude Text External Wire.

Record PeerEchoError := mkPeerEchoError {
  pe_code : ErrorCode;
  pe_message : string;
  pe_details : Value;
  pe_request_id : option string;
}.

(** [PeerEchoError::structured]. *)
Definition pe_structured (c : ErrorCode) (msg : string) (details : Value) : PeerEchoError :=
  mkPeerEchoError c msg details None.

Definition with_request_id (err : PeerEchoError) (request_id : string) : PeerEchoError :=
  match pe_request_id err with
  | None => mkPeerEchoError (pe_code err) (pe_message err) (pe_details err) (Some request_id)
  | Some _ => err
  end.

Record PeerEchoOutput := mkPeerEchoOutput {
  peo_request_id : string;
  peo_result : Value;
}.

Definition invalid_response (msg : string) : PeerEchoError :=
  pe_structured InvalidResponse msg json_empty.

Definition require_string_field (object : list (string * Value)) (field : string)
    : result PeerEchoError string :=
  ok_or (map_get field object ≫= as_str)
    (invalid_response (field +:+ " must be a string")).

Definition require_str (object : list (string * Value)) (field expected : string)
    : result PeerEchoError unit :=
  let? actual := require_string_field object field in
  reject? negb (String.eqb actual expected)
    as invalid_response (field +:+ " mismatch: expected=" +:+ expected
                         +:+ " actual=" +:+ actual) in
  Ok tt.

(** The text of a list of field names in an error message. *)
Definition debug_fields (fields : list string) : string :=
  String.concat ", " fields.

Definition validate_closed_fields (object : list (string * Value))
    : result PeerEchoError unit :=
  let fields := sort_strs (map fst object) in
  let expected :=
    ["agent_version"; "message"; "probe"; "source_agent_endpoint_id";
     "target_agent_endpoint_id"; "target_node_id"; "time_utc"] in
  reject? negb (bool_decide (fields = expected))
    as invalid_response ("peer echo result fields mismatch: " +:+ debug_fields fields) in
  Ok tt.

Section peer_echo.
Context `{EndpointIdOps, TimeOps}.

Definition validate_peer_echo_response (response : RpcResponse)
    (expected_request_id : string)
    (expected_source_endpoint_id expected_target_endpoint_id : EndpointId)
    : result PeerEchoError Value :=
  reject? negb (resp_version response =? PROTOCOL_VERSION)
    as invalid_response ("invalid response version: expected "
         +:+ pretty PROTOCOL_VERSION +:+ ", got " +:+ pretty (resp_version response)) in
  reject? negb (bool_decide (resp_request_id response = Some expected_request_id))
    as invalid_response "response request_id does not match request" in
  if negb (ok response) then
    match resp_error response with
    | None => Err (invalid_response "error response must include error")
    | Some error => Err (pe_structured (code error) (message error) (details error))
    end
  else
  match resp_error response with
  | Some _ => Err (invalid_response "ok response must omit error")
  | None =>
      let? res := ok_or (resp_result response)
        (invalid_response "ok response must include result") in
      let? object := ok_or (as_object res)
        (invalid_response "peer echo result must be an object") in
      let? _ := validate_closed_fields object in
      let? _ := require_str object "message" "pong" in
      let? _ := require_str object "probe" "peer.echo" in
      let? _ := require_str object "source_agent_endpoint_id"
                  (endpoint_to_string expected_source_endpoint_id) in
      let? _ := require_str object "target_agent_endpoint_id"
                  (endpoint_to_string expected_target_endpoint_id) in
      let? _ := require_string_field object "target_node_id" in
      let? _ := require_string_field object "agent_version" in
      let? time_utc := require_string_field object "time_utc" in
      let? _ := ok_or (rfc3339_parse time_utc) (invalid_response "invalid time_utc") in
      Ok res
  end.
End peer_echo.
