(* ===== verification/Server.v ===== *)
(** * Server: request handling of the agent (ocfleet-agent/src/server.rs)

    [validate_and_dispatch_request] is the pipeline of one request: metadata
    checks, nonce registration, authorisation, parameter checks, dispatch.  It
    passes the mutable state explicitly.  What the outside world supplies while
    a request is handled (the two clocks, the answers of the ocserv provider
    and of the peer, whether the deadline elapsed) is the record [RequestEnv].
    [handle_bi_stream] adds framing, decoding, audit and the response; its
    effects are a list in the order they happen.

    Texts: where the source renders an error of a third-party library or a
    [Debug] form into a message, the model keeps the fixed part. *)

From stdpp Require Import pretty.
From S2P Require Import Prelude Text External Wire AgentConfig Authz Limiters Nonce PeerEcho.

(** The crate version constant [AGENT_VERSION] is set by the build. *)
Class AgentBuild := { AGENT_VERSION : string }.

Record RequestDispatchError := mkRequestDispatchError {
  rde_request_id : option string;
  rde_code : ErrorCode;
  rde_message : string;
  rde_details : Value;
}.

(** ** Stateless checks *)

(** The loop of [valid_request_id] over the bytes and their index. *)
Fixpoint request_id_bytes_ok (index : nat) (bytes : list Z) : bool :=
  match bytes with
  | [] => true
  | b :: bytes' =>
      (if match index with 8 | 13 | 18 | 23 => true | _ => false end%nat
       then b =? 45 else is_ascii_hexdigit b)
      && request_id_bytes_ok (S index) bytes'
  end.

Definition valid_request_id (value : string) : bool :=
  (str_len value =? 36) && request_id_bytes_ok 0 (str_bytes value).

Definition params_are_empty (params : Value) : bool :=
  match params with
  | Null => true
  | VObject [] => true
  | _ => false
  end.

(** [nonce_ttl], as a duration in nanoseconds. *)
Definition nonce_ttl (deadline_ms allowed_clock_skew_seconds : Z) : Z :=
  let skew_ms := Z.min ((if 0 <=? allowed_clock_skew_seconds
                         then allowed_clock_skew_seconds else 0) * 1000) u64_max in
  saturating_add u64_max deadline_ms skew_ms * ns_per_ms.

Definition nonce_limit_scope_name (scope : NonceLimitScope) : string :=
  match scope with Global => "global" | PerPeer => "per_peer" end.

Section checks.
Context `{TimeOps, Base64Ops}.

Definition validate_nonce (nonce : string) : result string unit :=
  let? bytes := ok_or (base64url_decode nonce) "nonce must be base64url without padding" in
  reject? negb (Z.of_nat (length bytes) =? 16)
    as "nonce must decode to exactly 16 bytes" in
  Ok tt.

Definition validate_issued_at (now : Z) (issued_at : string)
    (deadline_ms allowed_clock_skew_seconds : Z)
    : result (ErrorCode * string * Value) unit :=
  reject? negb (ends_with "Z" issued_at)
    as (InvalidTimestamp, "issued_at must be RFC3339 UTC", json_empty) in
  let? issued := ok_or (rfc3339_parse issued_at)
    (InvalidTimestamp, "", VObject [("issued_at", VString issued_at)]) in
  let skew := allowed_clock_skew_seconds * ns_per_s in
  reject? now + skew <? issued
    as (ClockSkewExceeded, "issued_at is too far in the future",
        VObject [("allowed_clock_skew_seconds", json_u64 allowed_clock_skew_seconds)]) in
  let deadline := as_i64 deadline_ms * ns_per_ms in
  reject? issued + deadline <? now
    as (RequestExpired, "request deadline has expired",
        VObject [("deadline_ms", json_u64 deadline_ms)]) in
  reject? issued <? now - skew
    as (ClockSkewExceeded, "issued_at is too far in the past",
        VObject [("allowed_clock_skew_seconds", json_u64 allowed_clock_skew_seconds)]) in
  Ok tt.
End checks.

(** ** Authorisation *)

Definition known_but_not_allowed (request_id method : string) : RequestDispatchError :=
  mkRequestDispatchError (Some request_id) MethodNotAllowed
    ("method is known but not allowed in phase 1: " +:+ method)
    (VObject [("method", VString method)]).

Definition caller_class_name (c : CallerClass) : string :=
  match c with
  | Controller => "Controller"
  | Peer => "Peer"
  | DisabledPeer => "DisabledPeer"
  | UnknownCaller => "Unknown"
  end.

Definition method_not_allowed_for_caller (request_id method : string) (c : CallerClass)
    : RequestDispatchError :=
  mkRequestDispatchError (Some request_id) MethodNotAllowed
    ("method is not allowed for " +:+ caller_class_name c +:+ ": " +:+ method)
    (VObject [("method", VString method)]).

Definition method_not_found (request_id method : string) : RequestDispatchError :=
  mkRequestDispatchError (Some request_id) MethodNotFound
    ("method not found: " +:+ method) (VObject [("method", VString method)]).

Definition authorize_controller_method (method request_id : string)
    : result RequestDispatchError unit :=
  match classify_phase_one_method method with
  | KnownButNotAllowed => Err (known_but_not_allowed request_id method)
  | MethodUnknown =>
      if starts_with "ocserv." method
      then Err (known_but_not_allowed request_id method)
      else Err (method_not_found request_id method)
  | MethodAllowed => Ok tt
  end.

Definition authorize_peer_method (method request_id : string)
    : result RequestDispatchError unit :=
  match classify_phase_one_method method with
  | MethodAllowed | KnownButNotAllowed =>
      Err (method_not_allowed_for_caller request_id method Peer)
  | MethodUnknown =>
      if String.eqb method PROBE_PATH_ECHO
      then Err (method_not_allowed_for_caller request_id method Peer)
      else if starts_with "ocserv." method
      then Err (method_not_allowed_for_caller request_id method Peer)
      else Err (method_not_found request_id method)
  end.

Definition authorize_request_method (c : CallerClass) (method request_id : string)
    : result RequestDispatchError unit :=
  match c with
  | DisabledPeer | UnknownCaller =>
      Err (mkRequestDispatchError (Some request_id) EndpointNotAllowed
             "remote endpoint is not authorized" (VObject [("method", VString method)]))
  | Controller =>
      if method_allowed Controller method then Ok tt
      else if String.eqb method PROBE_PEER_ECHO
      then Err (method_not_allowed_for_caller request_id method Controller)
      else authorize_controller_method method request_id
  | Peer =>
      if method_allowed Peer method then Ok tt
      else authorize_peer_method method request_id
  end.

(** ** State and environment *)

Section server.
Context `{EndpointIdOps, TimeOps, Base64Ops, AgentBuild}.

Record AgentServerState := mkAgentServerState {
  config : AgentConfig;
  nonce_cache : NonceCache;
  srv_metrics : AgentMetrics;
  authz : AgentAuthorization;
  agent_endpoint_id : string;
  outbound_endpoint : bool;
}.

Definition with_nonce_cache (c : NonceCache) (st : AgentServerState) : AgentServerState :=
  mkAgentServerState (config st) c (srv_metrics st) (authz st) (agent_endpoint_id st)
    (outbound_endpoint st).

Definition with_srv_metrics (f : AgentMetrics -> AgentMetrics) (st : AgentServerState)
    : AgentServerState :=
  mkAgentServerState (config st) (nonce_cache st) (f (srv_metrics st)) (authz st)
    (agent_endpoint_id st) (outbound_endpoint st).

(** What is read from outside while one request is handled. *)
Record RequestEnv := mkRequestEnv {
  env_now : Z;              (** [OffsetDateTime::now_utc] in [validate_issued_at] *)
  env_instant : Z;          (** [Instant::now] in [NonceCache::register] *)
  env_dispatch_now : Z;     (** the wall clock during dispatch *)
  env_timed_out : bool;     (** [tokio::time::timeout] elapsed *)
  env_provider : string -> result (ErrorCode * string) Value;
                            (** the ocserv provider's answer, by method *)
  env_capabilities : Value; (** the serialised node capabilities *)
  env_peer_echo : EndpointId -> result PeerEchoError PeerEchoOutput;
                            (** [call_peer_echo] *)
}.

Definition security_of (st : AgentServerState) : SecurityConfig := security (config st).

(** The checks of [validate_and_dispatch_request] before the nonce. *)
Definition validate_request_metadata (env : RequestEnv) (st : AgentServerState)
    (request : RpcRequest) : result RequestDispatchError string :=
  let request_id_for_error :=
    if valid_request_id (request_id request) then Some (request_id request) else None in
  reject? negb (req_version request =? PROTOCOL_VERSION)
    as mkRequestDispatchError request_id_for_error InvalidVersion
         ("unsupported protocol version: " +:+ pretty (req_version request))
         (VObject [("actual", json_u64 (req_version request));
                   ("expected", json_u64 PROTOCOL_VERSION)]) in
  reject? negb (valid_request_id (request_id request))
    as mkRequestDispatchError None InvalidRequestId "request_id must be a UUID" json_empty in
  let rid := request_id request in
  reject? is_some (auth request)
    as mkRequestDispatchError (Some rid) UnsupportedAuthScheme
         "auth must be null for phase 1" json_empty in
  reject? (deadline_ms request =? 0)
          || (max_deadline_ms (security_of st) <? deadline_ms request)
    as mkRequestDispatchError (Some rid) InvalidDeadline
         "deadline_ms must be positive and no larger than max_deadline_ms"
         (VObject [("deadline_ms", json_u64 (deadline_ms request));
                   ("max_deadline_ms", json_u64 (max_deadline_ms (security_of st)))]) in
  let? _ := map_err (fun msg => mkRequestDispatchError (Some rid) InvalidNonce msg json_empty)
              (validate_nonce (req_nonce request)) in
  let? _ := map_err (fun err => mkRequestDispatchError (Some rid) err.1.1 err.1.2 err.2)
              (validate_issued_at (env_now env) (issued_at request) (deadline_ms request)
                 (allowed_clock_skew_seconds (security_of st))) in
  Ok rid.

(** The nonce registration and the [match] on its decision. *)
Definition register_nonce (env : RequestEnv) (st : AgentServerState)
    (remote_endpoint_id : string) (request : RpcRequest) (rid : string)
    : AgentServerState * result RequestDispatchError unit :=
  let ttl := nonce_ttl (deadline_ms request)
               (allowed_clock_skew_seconds (security_of st)) in
  let '(cache, decision) :=
    register_at (env_instant env) remote_endpoint_id (req_nonce request) ttl
      (nonce_cache st) in
  let st' := with_nonce_cache cache st in
  match decision with
  | Accepted => (st', Ok tt)
  | Replay =>
      (with_srv_metrics (nonce_rejected false) st',
       Err (mkRequestDispatchError (Some rid) ReplayedNonce
              "nonce was already used by this remote endpoint" json_empty))
  | ResourceExhausted scope limit =>
      (with_srv_metrics (nonce_rejected true) st',
       Err (mkRequestDispatchError (Some rid) ResourceExhaustedCode
              "nonce cache limit exceeded"
              (VObject [("limit", json_u64 limit);
                        ("resource", VString "nonce_cache");
                        ("scope", VString (nonce_limit_scope_name scope))])))
  end.

Definition classify_request_caller (st : AgentServerState) (remote_endpoint_id : string)
    : CallerClass :=
  match parse_endpoint_id remote_endpoint_id with
  | Ok e => classify (authz st) e
  | Err _ => UnknownCaller
  end.

Definition validate_path_echo_params (params : Value) (rid : string)
    : result RequestDispatchError EndpointId :=
  let err msg := mkRequestDispatchError (Some rid) ParamsInvalid msg json_empty in
  let? object := ok_or (as_object params)
    (err "probe.path.echo params must be an object with target_agent_endpoint_id") in
  reject? negb (Z.of_nat (length object) =? 1)
          || negb (map_contains_key "target_agent_endpoint_id" object)
    as err "probe.path.echo params must contain only target_agent_endpoint_id" in
  let? target := ok_or (map_get "target_agent_endpoint_id" object ≫= as_str)
    (err "target_agent_endpoint_id must be a string") in
  map_err (fun e => err ("invalid target_agent_endpoint_id: " +:+ e))
    (parse_endpoint_id target).

Definition authorize_path_probe_target (st : AgentServerState)
    (remote_endpoint_id : string) (target : EndpointId) (rid : string)
    : result RequestDispatchError unit :=
  let? controller := map_err
    (fun e => mkRequestDispatchError (Some rid) EndpointNotAllowed
                ("invalid controller EndpointID: " +:+ e) json_empty)
    (parse_endpoint_id remote_endpoint_id) in
  let? source := map_err
    (fun e => mkRequestDispatchError (Some rid) InternalError
                ("invalid source agent EndpointID: " +:+ e) json_empty)
    (parse_endpoint_id (agent_endpoint_id st)) in
  let details := VObject [("target_agent_endpoint_id", VString (endpoint_to_string target))] in
  match path_probe_decision (authz st) controller target source with
  | ProbeAllowed => Ok tt
  | SelfTarget =>
      Err (mkRequestDispatchError (Some rid) ParamsInvalid
             "probe.path.echo target must not be the source agent" details)
  | TargetIsController =>
      Err (mkRequestDispatchError (Some rid) EndpointNotAllowed
             "probe.path.echo target must not be a controller EndpointID" details)
  | ProbeDisabled =>
      Err (mkRequestDispatchError (Some rid) EndpointNotAllowed
             "probe.path.echo authorization is disabled" details)
  | ProbeMissing =>
      Err (mkRequestDispatchError (Some rid) EndpointNotAllowed
             "probe.path.echo authorization is missing" details)
  end.

(** ** Dispatch *)

Definition normalize_peer_echo_result (res : Value) (rid : string)
    : result RequestDispatchError Value :=
  let? object := ok_or (as_object res)
    (mkRequestDispatchError (Some rid) InvalidResponse
       "peer echo result must be an object" json_empty) in
  let probe := map_get "probe" object ≫= as_str in
  let message := map_get "message" object ≫= as_str in
  reject? negb (bool_decide (probe = Some "peer.echo"))
          || negb (bool_decide (message = Some "pong"))
    as mkRequestDispatchError (Some rid) InvalidResponse
         "peer echo result did not contain expected fixed response" json_empty in
  Ok (VObject [("message", VString "pong"); ("probe", VString "peer.echo")]).

(** The wire name of an error code: its name in upper snake case. *)
Definition error_code_name (c : ErrorCode) : string :=
  match c with
  | FrameTooLargeCode => "FRAME_TOO_LARGE" | FrameReadFailed => "FRAME_READ_FAILED"
  | InvalidJson => "INVALID_JSON" | InvalidVersion => "INVALID_VERSION"
  | InvalidRequestId => "INVALID_REQUEST_ID" | InvalidTimestamp => "INVALID_TIMESTAMP"
  | RequestExpired => "REQUEST_EXPIRED" | ClockSkewExceeded => "CLOCK_SKEW_EXCEEDED"
  | InvalidNonce => "INVALID_NONCE" | ReplayedNonce => "REPLAYED_NONCE"
  | InvalidDeadline => "INVALID_DEADLINE" | ParamsInvalid => "PARAMS_INVALID"
  | UnsupportedAuthScheme => "UNSUPPORTED_AUTH_SCHEME"
  | ResponseTooLarge => "RESPONSE_TOO_LARGE" | InvalidResponse => "INVALID_RESPONSE"
  | EndpointNotAllowed => "ENDPOINT_NOT_ALLOWED" | EndpointMismatch => "ENDPOINT_MISMATCH"
  | NodeNotFound => "NODE_NOT_FOUND" | NodeDisabled => "NODE_DISABLED"
  | MethodNotFound => "METHOD_NOT_FOUND" | MethodNotAllowed => "METHOD_NOT_ALLOWED"
  | ConnectFailed => "CONNECT_FAILED" | RpcTimeout => "RPC_TIMEOUT"
  | AuditWriteFailed => "AUDIT_WRITE_FAILED"
  | ResourceExhaustedCode => "RESOURCE_EXHAUSTED" | SqliteError => "SQLITE_ERROR"
  | SqliteBusyTimeout => "SQLITE_BUSY_TIMEOUT"
  | SchemaMigrationFailed => "SCHEMA_MIGRATION_FAILED"
  | SchemaVersionUnsupported => "SCHEMA_VERSION_UNSUPPORTED"
  | ConfigLoadFailed => "CONFIG_LOAD_FAILED"
  | SecretKeyLoadFailed => "SECRET_KEY_LOAD_FAILED"
  | SecretKeyPermissionInvalid => "SECRET_KEY_PERMISSION_INVALID"
  | OcservReadonlyDisabled => "OCSERV_READONLY_DISABLED"
  | OcservProviderUnavailable => "OCSERV_PROVIDER_UNAVAILABLE"
  | OcservProviderInvalidData => "OCSERV_PROVIDER_INVALID_DATA"
  | OcservProviderUnsafeSource => "OCSERV_PROVIDER_UNSAFE_SOURCE"
  | OcservOutputBoundExceeded => "OCSERV_OUTPUT_BOUND_EXCEEDED"
  | OcservUnsupportedField => "OCSERV_UNSUPPORTED_FIELD"
  | InternalError => "INTERNAL_ERROR"
  end.

Definition dispatch_path_echo (env : RequestEnv) (st : AgentServerState) (rid : string)
    (target : EndpointId) : result RequestDispatchError Value :=
  let? source := map_err
    (fun e => mkRequestDispatchError (Some rid) InternalError
                ("invalid source agent EndpointID: " +:+ e) json_empty)
    (parse_endpoint_id (agent_endpoint_id st)) in
  reject? negb (outbound_endpoint st)
    as mkRequestDispatchError (Some rid) InternalError
         "source agent outbound endpoint is unavailable" json_empty in
  let reply (fine : bool) (peer_request_id target_result : Value) :=
    VObject [("ok", VBool fine);
             ("peer_request_id", peer_request_id);
             ("probe", VString "path.echo");
             ("root_request_id", VString rid);
             ("source_agent_endpoint_id", VString (endpoint_to_string source));
             ("target_agent_endpoint_id", VString (endpoint_to_string target));
             ("target_result", target_result);
             ("time_utc", VString (rfc3339_format (env_dispatch_now env)))] in
  match env_peer_echo env target with
  | Ok output =>
      let? target_result := normalize_peer_echo_result (peo_result output) rid in
      Ok (reply true (VString (peo_request_id output)) target_result)
  | Err err =>
      if decide (pe_code err = AuditWriteFailed)
      then Err (mkRequestDispatchError (Some rid) (pe_code err) (pe_message err)
                  (pe_details err))
      else Ok (reply false (match pe_request_id err with Some i => VString i | None => Null end)
                 (VObject [("error_code", VString (error_code_name (pe_code err)));
                           ("ok", VBool false);
                           ("reason", VString "target peer echo failed");
                           ("stage", VString "target_peer_echo")]))
  end.

Definition dispatch_ocserv_readonly (env : RequestEnv) (method rid : string)
    : result RequestDispatchError Value :=
  map_err (fun e => mkRequestDispatchError (Some rid) e.1 e.2
                      (VObject [("result_class", VString "low_sensitive_summary")]))
    (env_provider env method).

Definition is_ocserv_readonly_method (method : string) : bool :=
  str_in method [OCSERV_SERVICE_SUMMARY; OCSERV_VERSION; OCSERV_SESSIONS_SUMMARY;
                 OCSERV_CERT_EXPIRY; OCSERV_CONFIG_FINGERPRINT].

Definition dispatch_allowed_method (env : RequestEnv) (st : AgentServerState)
    (remote_endpoint_id method rid : string) (path_probe : option EndpointId)
    : result RequestDispatchError Value :=
  let node_id := VString (id (node (config st))) in
  let time_utc := VString (rfc3339_format (env_dispatch_now env)) in
  if String.eqb method NODE_PING then
    Ok (VObject [("agent_version", VString AGENT_VERSION); ("message", VString "pong");
                 ("node_id", node_id); ("time_utc", time_utc)])
  else if String.eqb method PROBE_CONTROLLER_PING then
    Ok (VObject [("agent_endpoint_id", VString (agent_endpoint_id st));
                 ("agent_version", VString AGENT_VERSION); ("message", VString "pong");
                 ("node_id", node_id); ("probe", VString "controller.ping");
                 ("time_utc", time_utc)])
  else if String.eqb method PROBE_PEER_ECHO then
    Ok (VObject [("agent_version", VString AGENT_VERSION); ("message", VString "pong");
                 ("probe", VString "peer.echo");
                 ("source_agent_endpoint_id", VString remote_endpoint_id);
                 ("target_agent_endpoint_id", VString (agent_endpoint_id st));
                 ("target_node_id", node_id); ("time_utc", time_utc)])
  else if String.eqb method PROBE_PATH_ECHO then
    let? target := ok_or path_probe
      (mkRequestDispatchError (Some rid) InternalError
         "missing validated path probe params" json_empty) in
    dispatch_path_echo env st rid target
  else if String.eqb method NODE_INFO then
    Ok (VObject [("agent_endpoint_id", VString (agent_endpoint_id st));
                 ("agent_version", VString AGENT_VERSION);
                 ("current_time_utc", time_utc); ("node_id", node_id);
                 ("region", VString (region (node (config st))));
                 ("role", VString (role (node (config st))))])
  else if String.eqb method NODE_CAPABILITIES then Ok (env_capabilities env)
  else if is_ocserv_readonly_method method then dispatch_ocserv_readonly env method rid
  else Err (method_not_found rid method).

(** Authorisation, parameters and dispatch: the part after the nonce. *)
Definition authorize_and_dispatch (env : RequestEnv) (st : AgentServerState)
    (remote_endpoint_id : string) (request : RpcRequest) (rid : string)
    : result RequestDispatchError (string * Value) :=
  let caller := classify_request_caller st remote_endpoint_id in
  let? _ := authorize_request_method caller (method request) rid in
  let? path_probe :=
    if String.eqb (method request) PROBE_PATH_ECHO then
      let? target := validate_path_echo_params (params request) rid in
      let? _ := authorize_path_probe_target st remote_endpoint_id target rid in
      Ok (Some target)
    else
      reject? negb (params_are_empty (params request))
        as mkRequestDispatchError (Some rid) ParamsInvalid
             "this fixed rpc method accepts only null or empty object params" json_empty in
      Ok None in
  let timeout := Z.min (deadline_ms request) (max_rpc_timeout_ms (security_of st)) in
  reject? env_timed_out env
    as mkRequestDispatchError (Some (request_id request)) RpcTimeout
         "rpc execution exceeded timeout" (VObject [("timeout_ms", json_u64 timeout)]) in
  let? value := dispatch_allowed_method env st remote_endpoint_id (method request) rid
                  path_probe in
  Ok (request_id request, value).

Definition validate_and_dispatch_request (env : RequestEnv) (st : AgentServerState)
    (remote_endpoint_id : string) (request : RpcRequest)
    : AgentServerState * result RequestDispatchError (string * Value) :=
  match validate_request_metadata env st request with
  | Err e => (st, Err e)
  | Ok rid =>
      let '(st', r) := register_nonce env st remote_endpoint_id request rid in
      match r with
      | Err e => (st', Err e)
      | Ok _ => (st', authorize_and_dispatch env st' remote_endpoint_id request rid)
      end
  end.

(** ** Responses, audit and streams *)

(** [error_response] and [ok_response]; [now] is the wall clock. *)
Definition error_response (now : Z) (request_id : option string) (c : ErrorCode)
    (msg : string) (details : Value) : RpcResponse :=
  mkRpcResponse PROTOCOL_VERSION request_id false None
    (Some (mkRpcError c msg details)) (rfc3339_format now) (rfc3339_format now) 0.

Definition ok_response (now : Z) (request_id : string) (res : Value) : RpcResponse :=
  mkRpcResponse PROTOCOL_VERSION (Some request_id) true (Some res) None
    (rfc3339_format now) (rfc3339_format now) 0.

Definition with_response_timing (response : RpcResponse) (started_at finished_at : Z)
    : RpcResponse :=
  mkRpcResponse (resp_version response) (resp_request_id response) (ok response)
    (resp_result response) (resp_error response)
    (rfc3339_format started_at) (rfc3339_format finished_at)
    (Z.max (Z.quot (finished_at - started_at) ns_per_ms) 0).

Record RpcServerError := Structured { rse_code : ErrorCode; rse_message : string }.

Record AgentAuditEvent := mkAgentAuditEvent {
  event_id : string; ts : string; event : string;
  ev_request_id : option string;
  root_request_id : option string;
  peer_request_id : option string;
  path_target_endpoint_id : option string;
  ev_remote_endpoint_id : option string;
  ev_method : option string;
  params_hash : option string;
  nonce_hash : option string;
  ev_allowed : option bool;
  ev_ok : option bool;
  error_code : option string;
  ev_duration_ms : option Z;
  response_bytes : option Z;
  stage : option string;
  reason : option string;
  result_class : option string;
  ev_suppressed_count : option Z;
  limit_key : option string;
  ev_resource : option string;
}.

(** serde and blake3: decoding and encoding of JSON texts, and hashes. *)
Class Codec := {
  json_from_slice : list Z -> result string Value;
  request_from_value : Value -> result string RpcRequest;
  response_to_vec : RpcResponse -> result string (list Z);
  hash_json_value : Value -> string;
  hash_string : string -> string;
}.

(** What is read from outside while one stream is handled. *)
Record StreamEnv := mkStreamEnv {
  se_request : RequestEnv;
  se_event_id : string;
  se_wall : Z;            (** wall clock of [error_response] and the event *)
  se_started_at : Z;      (** wall clock at the start of [handle_request] *)
  se_finished_at : Z;     (** wall clock at its end *)
  se_elapsed_ms : Z;      (** [started.elapsed()] of [base_audit_event] *)
  se_read_timed_out : bool;
  se_audit_ok : bool;     (** the audit writer accepted the event *)
  se_write_ok : bool;     (** the stream accepted the response *)
}.

Inductive Effect :=
| AuditEvent (e : AgentAuditEvent) (written : bool)
| ResponseFrame (bytes : list Z).

(** [read_frame] on the bytes the stream delivers before it ends. *)
Definition read_frame (input : list Z) (max_request_bytes : Z)
    : result RpcServerError (list Z) :=
  match input with
  | b0 :: b1 :: b2 :: b3 :: rest =>
      let declared := u32_from_be_bytes b0 b1 b2 b3 in
      reject? max_request_bytes <? declared
        as Structured FrameTooLargeCode
             ("frame too large: " +:+ pretty declared +:+ " > "
              +:+ pretty max_request_bytes) in
      reject? Z.of_nat (length rest) <? declared
        as Structured FrameReadFailed "" in
      Ok (take (Z.to_nat declared) rest)
  | _ => Err (Structured FrameReadFailed "")
  end.

Definition read_frame_with_timeout (timed_out : bool) (input : list Z)
    (max_request_bytes timeout_ms : Z) : result RpcServerError (list Z) :=
  reject? timed_out
    as Structured RpcTimeout
         ("frame read timed out after " +:+ pretty timeout_ms +:+ " ms") in
  read_frame input max_request_bytes.

Definition handle_request (env : StreamEnv) (st : AgentServerState)
    (remote_endpoint_id : string) (request : RpcRequest)
    : AgentServerState * RpcResponse :=
  let '(st', r) :=
    validate_and_dispatch_request (se_request env) st remote_endpoint_id request in
  let response :=
    match r with
    | Ok (rid, res) => ok_response (se_wall env) rid res
    | Err err => error_response (se_wall env) (rde_request_id err) (rde_code err)
                   (rde_message err) (rde_details err)
    end in
  (st', with_response_timing response (se_started_at env) (se_finished_at env)).

Definition base_audit_event (env : StreamEnv) (remote_endpoint_id stage : string)
    : AgentAuditEvent :=
  mkAgentAuditEvent (se_event_id env) (rfc3339_format (se_wall env)) "rpc_request"
    None None None None (Some remote_endpoint_id) None None None None None None
    (Some (Z.min (se_elapsed_ms env) u64_max)) None (Some stage) None None None None None.

Definition response_error_code (response : RpcResponse) : option string :=
  (fun e => error_code_name (code e)) <$> resp_error response.

(** The fields [handle_bi_stream] sets on the event of a failed stage. *)
Definition rejected_event (e : AgentAuditEvent) (rid m ph nh : option string)
    (response : RpcResponse) (why : string) : AgentAuditEvent :=
  mkAgentAuditEvent (event_id e) (ts e) (event e) rid (root_request_id e)
    (peer_request_id e) (path_target_endpoint_id e) (ev_remote_endpoint_id e) m ph nh
    (Some false) (Some false) (response_error_code response) (ev_duration_ms e)
    (response_bytes e) (stage e) (Some why) (result_class e) (ev_suppressed_count e)
    (limit_key e) (ev_resource e).

Definition sync_audit_event_with_response (e : AgentAuditEvent) (response : RpcResponse)
    (bytes : Z) : AgentAuditEvent :=
  mkAgentAuditEvent (event_id e) (ts e) (event e) (ev_request_id e) (root_request_id e)
    (peer_request_id e) (path_target_endpoint_id e) (ev_remote_endpoint_id e)
    (ev_method e) (params_hash e) (nonce_hash e)
    (Some (ok response)) (Some (ok response)) (response_error_code response)
    (ev_duration_ms e) (Some bytes) (stage e) (reason e) (result_class e)
    (ev_suppressed_count e) (limit_key e) (ev_resource e).

Definition with_path_fields (e : AgentAuditEvent) (root peer target : option string)
    : AgentAuditEvent :=
  mkAgentAuditEvent (event_id e) (ts e) (event e) (ev_request_id e) root peer target
    (ev_remote_endpoint_id e) (ev_method e) (params_hash e) (nonce_hash e)
    (ev_allowed e) (ev_ok e) (error_code e) (ev_duration_ms e) (response_bytes e)
    (stage e) (reason e) (result_class e) (ev_suppressed_count e) (limit_key e)
    (ev_resource e).

Definition parsed_endpoint (v : option Value) : option string :=
  s ← v ≫= as_str; endpoint_to_string <$> endpoint_from_str s.

(** [Option::or] as it is used by the assignments below. *)
Definition or_keep {A} (new old : option A) : option A :=
  match new with Some a => Some a | None => old end.

Definition sync_path_audit_fields (e : AgentAuditEvent) (method : string)
    (params : Value) (response : RpcResponse) : AgentAuditEvent :=
  if negb (String.eqb method PROBE_PATH_ECHO) then e
  else
    let target := or_keep (parsed_endpoint (value_get "target_agent_endpoint_id" params))
                    (path_target_endpoint_id e) in
    match resp_result response ≫= as_object with
    | None => with_path_fields e (ev_request_id e) (peer_request_id e) target
    | Some obj =>
        with_path_fields e
          (or_keep (map_get "root_request_id" obj ≫= as_str) (ev_request_id e))
          (or_keep (map_get "peer_request_id" obj ≫= as_str) (peer_request_id e))
          (or_keep (parsed_endpoint (map_get "target_agent_endpoint_id" obj)) target)
    end.

Context `{Codec}.

Definition serialize_response (response : RpcResponse) (max_response_bytes : Z)
    : result RpcServerError (list Z) :=
  let? payload := map_err (Structured InvalidResponse) (response_to_vec response) in
  let len := Z.of_nat (length payload) in
  reject? max_response_bytes <? len
    as Structured ResponseTooLarge
         ("response too large: " +:+ pretty len +:+ " > " +:+ pretty max_response_bytes) in
  Ok payload.

(** The bytes [write_response_payload] puts on the stream. *)
Definition response_frame (payload : list Z) : list Z :=
  u32_to_be_bytes (as_u32 (Z.of_nat (length payload))) ++ payload.

Definition write_response_payload (env : StreamEnv) (payload : list Z)
    : list Effect * result RpcServerError unit :=
  if se_write_ok env then ([ResponseFrame (response_frame payload)], Ok tt)
  else ([], Err (Structured InternalError "")).

Definition write_response (env : StreamEnv) (response : RpcResponse)
    (max_response_bytes : Z) : list Effect * result RpcServerError unit :=
  match serialize_response response max_response_bytes with
  | Ok payload => write_response_payload env payload
  | Err e => ([], Err e)
  end.

(** The response that goes out: the original, or the error that replaces one
    that is too large. *)
Definition fit_response (env : StreamEnv) (response : RpcResponse)
    (max_response_bytes : Z) : result RpcServerError (RpcResponse * list Z) :=
  match serialize_response response max_response_bytes with
  | Ok payload => Ok (response, payload)
  | Err err =>
      if decide (rse_code err = ResponseTooLarge) then
        let response' := error_response (se_wall env) (resp_request_id response)
          ResponseTooLarge (rse_message err)
          (VObject [("max_response_bytes", json_u64 max_response_bytes)]) in
        let? payload := serialize_response response' max_response_bytes in
        Ok (response', payload)
      else Err err
  end.

Definition audit_then_write_response (env : StreamEnv) (st : AgentServerState)
    (response : RpcResponse) (e : AgentAuditEvent) (max_response_bytes : Z)
    : AgentServerState * list Effect * result RpcServerError unit :=
  match fit_response env response max_response_bytes with
  | Err err => (st, [], Err err)
  | Ok (response, payload) =>
      let e := sync_audit_event_with_response e response (Z.of_nat (length payload)) in
      let st := with_srv_metrics
        (record_rpc (code <$> resp_error response)
           (default (duration_ms response) (ev_duration_ms e))) st in
      if se_audit_ok env then
        let '(effects, r) := write_response_payload env payload in
        (st, AuditEvent e true :: effects, r)
      else
        let audit_response := error_response (se_wall env) (resp_request_id response)
          AuditWriteFailed "failed to write agent audit event" json_empty in
        let '(effects, r) := write_response env audit_response max_response_bytes in
        (st, AuditEvent e false :: effects, r)
  end.

Definition handle_bi_stream (env : StreamEnv) (st : AgentServerState)
    (remote_endpoint_id : string) (input : list Z)
    : AgentServerState * list Effect * result RpcServerError unit :=
  let sec := security_of st in
  match read_frame_with_timeout (se_read_timed_out env) input (max_request_bytes sec)
          (max_rpc_timeout_ms sec) with
  | Err err =>
      let response := error_response (se_wall env) None (rse_code err) (rse_message err)
        (VObject [("max_request_bytes", json_u64 (max_request_bytes sec))]) in
      let e := rejected_event (base_audit_event env remote_endpoint_id "read_frame")
        None None None None response (rse_message err) in
      audit_then_write_response env st response e (max_response_bytes sec)
  | Ok payload =>
      let payload_length :=
        VObject [("payload_length", json_u64 (Z.of_nat (length payload)))] in
      let why err := "payload_length=" +:+ pretty (length payload) +:+ "; " +:+ err in
      match json_from_slice payload with
      | Err err =>
          let response := error_response (se_wall env) None InvalidJson err payload_length in
          let e := rejected_event (base_audit_event env remote_endpoint_id "decode_json")
            None None None None response (why err) in
          audit_then_write_response env st response e (max_response_bytes sec)
      | Ok request_value =>
          let rid := v ← value_get "request_id" request_value ≫= as_str;
                     if valid_request_id v then Some v else None in
          let m := value_get "method" request_value ≫= as_str in
          let ph := hash_json_value <$> value_get "params" request_value in
          let nh := hash_string <$> (value_get "nonce" request_value ≫= as_str) in
          match request_from_value request_value with
          | Err err =>
              let response := error_response (se_wall env) rid InvalidJson err
                payload_length in
              let e := rejected_event
                (base_audit_event env remote_endpoint_id "decode_request")
                rid m ph nh response (why err) in
              audit_then_write_response env st response e (max_response_bytes sec)
          | Ok request =>
              let '(st', response) := handle_request env st remote_endpoint_id request in
              let b := base_audit_event env remote_endpoint_id "dispatch" in
              let e := mkAgentAuditEvent (event_id b) (ts b) (event b)
                (resp_request_id response) None None None (ev_remote_endpoint_id b)
                (Some (method request)) (Some (hash_json_value (params request)))
                (Some (hash_string (req_nonce request)))
                (Some (ok response)) (Some (ok response)) (response_error_code response)
                (ev_duration_ms b) None (stage b) None
                (if is_ocserv_readonly_method (method request)
                 then Some "low_sensitive_summary" else None) None None None in
              let e := sync_path_audit_fields e (method request) (params request)
                         response in
              audit_then_write_response env st' response e (max_response_bytes sec)
          end
      end
  end.
End server.
