(* ===== verification/ServerProofs.v ===== *)
(** * ServerProofs: a concrete agent, and what its pipeline guarantees

    The concrete agent is one node with one controller, one enabled peer, one
    disabled peer and one path probe, built from the toy instances of External;
    the theorems with hypotheses are applied to it here and in the files that
    follow.  The lemmas are those of the request pipeline of Server. *)

From S2P Require Import Prelude Text External Wire AgentConfig Authz Limiters AuditLimiter Nonce.
From S2P Require Import PeerEcho Server.

Import Toy.

#[export] Instance scenario_build : AgentBuild := {| AGENT_VERSION := "1.0.0" |}.

Definition sample_security : SecurityConfig :=
  mkSecurityConfig 60 5000 10000 5000 5000 5000 65536 2097152 256 256 32 1024 128 100000 10000
    [mkControllerConfig "kctrl" "viewer"]
    [mkPeerConfig "Kpeer" true; mkPeerConfig "kold" false]
    [mkPathProbeConfig "Kctrl" "kpeer" true].

Definition sample_audit : AuditConfig :=
  mkAuditConfig "/var/log/audit" 1024 None None 10000 10 1 4096 3600 60.

Definition no_policy : ControlledWriteOperationPolicy := mkPolicy false None false.

Definition sample_config : AgentConfig :=
  mkAgentConfig (mkNodeConfig "node-1" "eu" "ocserv") (mkIrohConfig "/etc/key" "/alpn")
    sample_security sample_audit
    (mkOcservReadonlyConfig false ProviderDisabled None None [])
    (mkControlledWritesConfig false no_policy no_policy no_policy no_policy no_policy)
    None None.

Definition sample_authz : AgentAuthorization :=
  mkAgentAuthorization {["ctrl"]} {["peer"]} {["old"]} {[("ctrl", "peer")]} ∅.

Definition sample_state : AgentServerState :=
  mkAgentServerState sample_config (with_limits 100000 10000) metrics_default sample_authz
    "kself" true.

Definition sample_env (now instant : Z) : RequestEnv :=
  mkRequestEnv now instant now false (fun _ => Ok Null) Null
    (fun _ => Err (pe_structured ConnectFailed "" Null)).

Definition sample_request (m : string) (issued : Z) : RpcRequest :=
  mkRpcRequest 1 "123e4567-e89b-12d3-a456-426614174000" m Null (rfc3339_format issued)
    "0123456789abcdef" 5000 None None.

Definition sample_codec : Codec := {|
  json_from_slice _ := Ok Null;
  request_from_value _ := Ok (sample_request NODE_PING 1000);
  response_to_vec r := Ok [if ok r then 1 else 0];
  hash_json_value _ := EmptyString;
  hash_string s := s;
|}.

Lemma sample_config_valid : validate_agent_config false sample_config = Ok tt.
Proof. vm_compute. reflexivity. Qed.

Lemma sample_authz_wf : authz_wf sample_authz.
Proof.
  split; simpl.
  - intros x. rewrite !elem_of_singleton. by intros ->.
  - intros x. rewrite !elem_of_singleton. by intros ->.
  - intros x. rewrite !elem_of_singleton. by intros ->.
  - intros c t. rewrite elem_of_union, elem_of_empty, !elem_of_singleton. naive_solver.
  - intros x. rewrite elem_of_empty. done.
Qed.

(** ** What the agent's request pipeline guarantees

    Authorisation (only allowed methods are dispatched, write methods never),
    replay protection over runs of the server, the order of audit and response,
    and the agreement of the two sides of a peer echo. *)

(** ** Authorisation *)

Lemma classified_allowed m :
  classify_phase_one_method m = MethodAllowed -> method_allowed Controller m = true.
Proof.
  unfold classify_phase_one_method. intros Hc.
  destruct (str_in m _) eqn:E in Hc; [|by destruct (str_in m _) in Hc].
  apply str_in_spec in E. unfold method_allowed. apply str_in_spec.
  repeat rewrite elem_of_cons in *. naive_solver.
Qed.

Lemma authorize_ok_iff c m rid :
  authorize_request_method c m rid = Ok tt <-> method_allowed c m = true.
Proof.
  unfold authorize_request_method. destruct c; try (split; [discriminate|done]).
  - destruct (method_allowed Controller m) eqn:E; [done|]. split; [|done].
    destruct (String.eqb m PROBE_PEER_ECHO); [done|].
    unfold authorize_controller_method.
    destruct (classify_phase_one_method m) eqn:Hc; try (by destruct (starts_with _ _)); [|done].
    apply classified_allowed in Hc. congruence.
  - destruct (method_allowed Peer m); [done|]. split; [|done].
    unfold authorize_peer_method. destruct (classify_phase_one_method m); try done.
    destruct (String.eqb m PROBE_PATH_ECHO); [done|]. by destruct (starts_with _ _).
Qed.

Lemma write_methods_not_allowed c m : m ∈ write_methods -> method_allowed c m = false.
Proof.
  intros Hm. unfold write_methods in Hm. repeat rewrite elem_of_cons in Hm.
  rewrite elem_of_nil in Hm.
  destruct Hm as [->|[->|[->|[->|[->|[]]]]]]; by destruct c.
Qed.

Section server_proofs.
Context `{EndpointIdOps, TimeOps, Base64Ops, AgentBuild}.

Implicit Types (env : RequestEnv) (st : AgentServerState) (req : RpcRequest).

Lemma register_nonce_state env st remote req rid :
  let st' := (register_nonce env st remote req rid).1 in
  config st' = config st /\ authz st' = authz st
  /\ agent_endpoint_id st' = agent_endpoint_id st
  /\ outbound_endpoint st' = outbound_endpoint st
  /\ nonce_cache st' = (register_at (env_instant env) remote (req_nonce req)
       (nonce_ttl (deadline_ms req) (allowed_clock_skew_seconds (security_of st)))
       (nonce_cache st)).1.
Proof.
  unfold register_nonce. destruct (register_at _ _ _ _ _) as [c d]. by destruct d.
Qed.

Lemma register_nonce_ok env st remote req rid :
  (register_nonce env st remote req rid).2 = Ok tt <->
  (register_at (env_instant env) remote (req_nonce req)
     (nonce_ttl (deadline_ms req) (allowed_clock_skew_seconds (security_of st)))
     (nonce_cache st)).2 = Accepted.
Proof.
  unfold register_nonce. destruct (register_at _ _ _ _ _) as [c d]. by destruct d.
Qed.

(** The state after a request: unchanged but for the cache and counters. *)
Lemma validate_and_dispatch_state env st remote req :
  let st' := (validate_and_dispatch_request env st remote req).1 in
  config st' = config st /\ authz st' = authz st
  /\ agent_endpoint_id st' = agent_endpoint_id st.
Proof.
  unfold validate_and_dispatch_request.
  destruct (validate_request_metadata env st req) as [rid|e]; [|done].
  pose proof (register_nonce_state env st remote req rid) as Hs.
  destruct (register_nonce env st remote req rid) as [st' [u|e]]; simpl in *; naive_solver.
Qed.

(** What the metadata checks establish. *)
Lemma metadata_ok env st req rid :
  validate_request_metadata env st req = Ok rid ->
  rid = request_id req /\ valid_request_id rid = true
  /\ req_version req = PROTOCOL_VERSION /\ auth req = None
  /\ deadline_ms req <> 0 /\ deadline_ms req <= max_deadline_ms (security_of st)
  /\ exists issued, rfc3339_parse (issued_at req) = Some issued
     /\ issued <= env_now env + allowed_clock_skew_seconds (security_of st) * ns_per_s
     /\ env_now env - allowed_clock_skew_seconds (security_of st) * ns_per_s <= issued
     /\ env_now env <= issued + as_i64 (deadline_ms req) * ns_per_ms.
Proof.
  unfold validate_request_metadata. intros Hm. peel_in Hm. bool_facts.
  repeat match goal with
  | H0 : map_err _ _ = Ok _ |- _ => unfold map_err in H0; peel_in H0
  end.
  match goal with H0 : validate_issued_at _ _ _ _ = Ok _ |- _ =>
    unfold validate_issued_at in H0; peel_in H0 end.
  match goal with H0 : ok_or (rfc3339_parse _) _ = Ok _ |- _ => apply ok_or_ok in H0 end.
  bool_facts. simplify_eq. split_and!; try done.
  - by destruct (auth req).
  - eexists. split_and!; [eassumption|lia..].
Qed.

Lemma parse_endpoint_id_ok v e : parse_endpoint_id v = Ok e <-> endpoint_from_str v = Some e.
Proof. apply ok_or_ok. Qed.

Lemma validate_path_echo_params_ok ps rid t :
  validate_path_echo_params ps rid = Ok t ->
  exists s, ps = VObject [("target_agent_endpoint_id"%string, VString s)]
            /\ endpoint_from_str s = Some t.
Proof.
  unfold validate_path_echo_params. intros Hv. peel_in Hv.
  rewrite map_err_ok, parse_endpoint_id_ok in Hv.
  repeat match goal with H0 : ok_or _ _ = Ok _ |- _ => apply ok_or_ok in H0 end.
  destruct ps as [| | | | |o]; try discriminate. simpl in *. simplify_eq.
  bool_facts. destruct a as [|[k v] [|]]; try (simpl in *; lia).
  unfold map_contains_key, map_get in *.
  destruct (String.eqb "target_agent_endpoint_id" k) eqn:Ek; [|done].
  bool_facts. subst k. destruct v; simplify_eq/=. eauto.
Qed.

Lemma authorize_path_probe_target_ok st remote t rid :
  authorize_path_probe_target st remote t rid = Ok tt ->
  exists c source, endpoint_from_str remote = Some c
    /\ endpoint_from_str (agent_endpoint_id st) = Some source
    /\ path_probe_decision (authz st) c t source = ProbeAllowed.
Proof.
  unfold authorize_path_probe_target. intros Hv. peel_in Hv.
  rewrite map_err_ok, parse_endpoint_id_ok in Hm, Hm0. eauto 10.
Qed.

(** Everything a successful answer implies about the caller. *)
Lemma dispatch_ok env st remote req st' r :
  validate_and_dispatch_request env st remote req = (st', Ok r) ->
  r.1 = request_id req
  /\ validate_request_metadata env st req = Ok (request_id req)
  /\ (register_nonce env st remote req (request_id req)).2 = Ok tt
  /\ exists e, endpoint_from_str remote = Some e
     /\ method_allowed (classify (authz st) e) (method req) = true
     /\ (method req = PROBE_PATH_ECHO ->
         exists s t source,
           params req = VObject [("target_agent_endpoint_id"%string, VString s)]
           /\ endpoint_from_str s = Some t
           /\ endpoint_from_str (agent_endpoint_id st) = Some source
           /\ path_probe_decision (authz st) e t source = ProbeAllowed).
Proof.
  unfold validate_and_dispatch_request. intros Hv.
  destruct (validate_request_metadata env st req) as [rid|] eqn:Hmeta; [|done].
  destruct (metadata_ok _ _ _ _ Hmeta) as [-> _].
  pose proof (register_nonce_state env st remote req (request_id req)) as (_ & Haz & Hag & _).
  destruct (register_nonce env st remote req (request_id req)) as [st1 [u|]]; [|done].
  simpl in *. injection Hv as -> Hv. rewrite <- Haz, <- Hag. destruct u.
  unfold authorize_and_dispatch in Hv. peel_in Hv. simplify_eq. split_and!; try done.
  destruct a. match goal with H0 : authorize_request_method _ _ _ = Ok _ |- _ =>
    apply authorize_ok_iff in H0 as Hall end.
  unfold classify_request_caller in Hall.
  destruct (parse_endpoint_id remote) as [e|] eqn:He; [|done].
  apply parse_endpoint_id_ok in He. exists e. split_and!; [done..|].
  intros Hp. rewrite Hp in *. simpl in Hm0. peel_in Hm0.
  match goal with H0 : validate_path_echo_params _ _ = Ok _ |- _ =>
    apply validate_path_echo_params_ok in H0 as (s & Hs & Ht) end.
  match goal with H0 : authorize_path_probe_target _ _ _ _ = Ok ?u |- _ => destruct u;
    apply authorize_path_probe_target_ok in H0 as (c & source & Hc' & Hso & Hd) end.
  simplify_eq. eauto 10.
Qed.

(** ** Replay protection *)

(** One request as it reaches the pipeline. *)
Record Call := mkCall {
  c_env : RequestEnv;
  c_remote : string;
  c_req : RpcRequest;
}.

Definition serve (st : AgentServerState) (c : Call) : AgentServerState :=
  (validate_and_dispatch_request (c_env c) st (c_remote c) (c_req c)).1.

(** The request passes the metadata checks and its nonce is registered. *)
Definition admitted (st : AgentServerState) (c : Call) : bool :=
  match validate_request_metadata (c_env c) st (c_req c) with
  | Ok rid => is_ok (register_nonce (c_env c) st (c_remote c) (c_req c) rid).2
  | Err _ => false
  end.

Definition call_registration (st : AgentServerState) (c : Call) : Registration :=
  mkRegistration (env_instant (c_env c)) (c_remote c) (req_nonce (c_req c))
    (nonce_ttl (deadline_ms (c_req c)) (allowed_clock_skew_seconds (security_of st))).

(** A call changes the cache by at most one registration. *)
Lemma serve_cache st c :
  nonce_cache (serve st c) = nonce_cache st
  \/ nonce_cache (serve st c) = register_op (nonce_cache st) (call_registration st c).
Proof.
  unfold serve, validate_and_dispatch_request.
  destruct (validate_request_metadata _ _ _) as [rid|]; [|by left]. right.
  pose proof (register_nonce_state (c_env c) st (c_remote c) (c_req c) rid)
    as (_ & _ & _ & _ & Hn).
  destruct (register_nonce _ _ _ _ _) as [st' [u|]]; done.
Qed.

Lemma serve_security st c : security_of (serve st c) = security_of st.
Proof.
  unfold security_of. f_equal.
  apply (validate_and_dispatch_state (c_env c) st (c_remote c) (c_req c)).
Qed.

Lemma serve_wf st c : cache_wf (nonce_cache st) -> cache_wf (nonce_cache (serve st c)).
Proof.
  intros Hwf. destruct (serve_cache st c) as [->| ->]; [done|].
  by apply (run_registrations_wf [_]).
Qed.

Lemma serves_security st cs : security_of (fold_left serve cs st) = security_of st.
Proof.
  revert st. induction cs as [|c cs IH]; intros st; simpl; [done|].
  by rewrite IH, serve_security.
Qed.

Lemma serves_wf st cs :
  cache_wf (nonce_cache st) -> cache_wf (nonce_cache (fold_left serve cs st)).
Proof. revert st. induction cs; simpl; auto using serve_wf. Qed.

(** A live nonce survives calls made before its expiry. *)
Lemma serves_keep st cs k x :
  cache_wf (nonce_cache st) -> abs_live (Nonce.peers (nonce_cache st)) !! k = Some x ->
  Forall (fun c => env_instant (c_env c) < x) cs ->
  abs_live (Nonce.peers (nonce_cache (fold_left serve cs st))) !! k = Some x.
Proof.
  revert st. induction cs as [|c cs IH]; intros st Hwf Hk Hall; simpl; [done|].
  apply Forall_cons in Hall as [Hc Hall]. apply IH; [by apply serve_wf| |done].
  destruct (serve_cache st c) as [->| ->]; [done|].
  apply (run_registrations_keeps [_]); [done|done|by repeat constructor].
Qed.

Lemma admitted_live st c :
  cache_wf (nonce_cache st) -> admitted st c = true ->
  abs_live (Nonce.peers (nonce_cache (serve st c))) !! (c_remote c, req_nonce (c_req c))
  = Some (default (env_instant (c_env c))
      (checked_add instant_max (env_instant (c_env c))
         (nonce_ttl (deadline_ms (c_req c)) (allowed_clock_skew_seconds (security_of st))))).
Proof.
  unfold admitted, serve, validate_and_dispatch_request. intros Hwf Ha.
  destruct (validate_request_metadata _ _ _) as [rid|]; [|done].
  pose proof (register_nonce_state (c_env c) st (c_remote c) (c_req c) rid)
    as (_ & _ & _ & _ & Hn).
  pose proof (register_nonce_ok (c_env c) st (c_remote c) (c_req c) rid) as Hr.
  destruct (register_nonce _ _ _ _ _) as [st' [[]|]]; [|done]. simpl in *. rewrite Hn.
  eapply register_accepted_live; [exact Hwf|].
  destruct (register_at _ _ _ _ _). simpl in *. f_equal. by apply Hr.
Qed.

Lemma admitted_not_live st c x :
  cache_wf (nonce_cache st) ->
  abs_live (Nonce.peers (nonce_cache st)) !! (c_remote c, req_nonce (c_req c)) = Some x ->
  env_instant (c_env c) < x -> admitted st c = false.
Proof.
  unfold admitted. intros Hwf Hx Hlt.
  destruct (validate_request_metadata _ _ _) as [rid|]; [|done].
  pose proof (register_nonce_ok (c_env c) st (c_remote c) (c_req c) rid) as Hr.
  destruct (register_nonce _ _ _ _ _) as [st' [[]|]]; [|done]. simpl in *.
  rewrite (register_live_replay _ _ _ _ _ x Hwf Hx Hlt) in Hr. naive_solver.
Qed.

(** The life time of a nonce covers the deadline and the clock skew. *)
Lemma nonce_ttl_exact d s :
  0 <= d -> 0 <= s -> d + s * 1000 <= u64_max -> nonce_ttl d s = d * ns_per_ms + s * ns_per_s.
Proof.
  unfold nonce_ttl, saturating_add, ns_per_ms, ns_per_s. intros Hd Hs Hb.
  destruct (0 <=? s) eqn:E; bool_facts; lia.
Qed.

(** The time checks and the life time of the nonce together: a second copy of
    a request that still passes the checks meets its live nonce. *)
Lemma replay_rejected st c1 mid c2 issued :
  cache_wf (nonce_cache st) ->
  c_remote c2 = c_remote c1 -> c_req c2 = c_req c1 ->
  0 <= deadline_ms (c_req c1) <= i64_max ->
  0 <= allowed_clock_skew_seconds (security_of st) ->
  deadline_ms (c_req c1) + allowed_clock_skew_seconds (security_of st) * 1000 <= u64_max ->
  env_instant (c_env c1)
    + nonce_ttl (deadline_ms (c_req c1)) (allowed_clock_skew_seconds (security_of st))
    <= instant_max ->
  rfc3339_parse (issued_at (c_req c1)) = Some issued ->
  issued < env_now (c_env c1) + allowed_clock_skew_seconds (security_of st) * ns_per_s ->
  Forall (fun c => env_instant (c_env c) <= env_instant (c_env c2)) mid ->
  env_instant (c_env c2) - env_instant (c_env c1) <= env_now (c_env c2) - env_now (c_env c1) ->
  admitted st c1 = true ->
  admitted (fold_left serve mid (serve st c1)) c2 = false.
Proof.
  intros Hwf Hrem Hreq Hd Hs Hb Hi Hiss Hstrict Hmid Hclock Ha.
  set (st2 := fold_left serve mid (serve st c1)).
  assert (security_of st2 = security_of st) as Hsec
    by (unfold st2; by rewrite serves_security, serve_security).
  destruct (admitted st2 c2) eqn:Ha2; [|done]. exfalso.
  assert (env_now (c_env c2) <= issued + deadline_ms (c_req c1) * ns_per_ms) as Hdl.
  { unfold admitted in Ha2.
    destruct (validate_request_metadata (c_env c2) st2 (c_req c2)) as [rid|] eqn:Hm; [|done].
    apply metadata_ok in Hm as (_ & _ & _ & _ & _ & _ & t & Ht & _ & _ & Hle).
    rewrite Hreq in *. rewrite Hiss in Ht. simplify_eq.
    by rewrite as_i64_small in Hle by lia. }
  pose proof (admitted_live st c1 Hwf Ha) as Hlive.
  unfold checked_add in Hlive. rewrite (proj2 (Z.leb_le _ _) Hi) in Hlive. simpl in Hlive.
  rewrite nonce_ttl_exact in Hlive by lia.
  assert (env_instant (c_env c2) < env_instant (c_env c1)
            + (deadline_ms (c_req c1) * ns_per_ms
               + allowed_clock_skew_seconds (security_of st) * ns_per_s)) as Hlt by lia.
  assert (admitted st2 c2 = false); [|congruence].
  eapply admitted_not_live; [by apply serves_wf, serve_wf| |exact Hlt].
  rewrite Hrem, Hreq. apply serves_keep; [by apply serve_wf|done|].
  eapply Forall_impl; [exact Hmid|]. simpl. lia.
Qed.

(** ** Peer echo: the answer of the target satisfies the source's check *)

Lemma peer_echo_reply env st remote req st' r :
  validate_and_dispatch_request env st remote req = (st', Ok r) ->
  method req = PROBE_PEER_ECHO ->
  r = (request_id req,
       VObject [("agent_version", VString AGENT_VERSION); ("message", VString "pong");
                ("probe", VString "peer.echo");
                ("source_agent_endpoint_id", VString remote);
                ("target_agent_endpoint_id", VString (agent_endpoint_id st));
                ("target_node_id", VString (id (node (config st))));
                ("time_utc", VString (rfc3339_format (env_dispatch_now env)))])%string.
Proof.
  unfold validate_and_dispatch_request. intros Hv Hp.
  destruct (validate_request_metadata env st req) as [rid|]; [|done].
  pose proof (register_nonce_state env st remote req rid) as (Hc & _ & Ha & _).
  destruct (register_nonce env st remote req rid) as [st1 [u|]]; [|done].
  simpl in *. injection Hv as -> Hv. rewrite <- Hc, <- Ha.
  unfold authorize_and_dispatch in Hv. peel_in Hv. simplify_eq.
  match goal with H0 : dispatch_allowed_method _ _ _ _ _ _ = Ok _ |- _ =>
    rewrite Hp in H0; vm_compute in H0 || cbn in H0; by simplify_eq end.
Qed.

(** ** Audit before response *)

Context `{!Codec}.

(** The shape of the effects of one stream: the audit event first, then at
    most one response.  When the event was written, it describes the response
    that goes out; otherwise the response only says that auditing failed. *)
Definition audited (mx : Z) (effects : list Effect) : Prop :=
  match effects with
  | [] => True
  | [AuditEvent _ _] => True
  | [AuditEvent e true; ResponseFrame b] =>
      exists response payload,
        serialize_response response mx = Ok payload /\ b = response_frame payload
        /\ ev_ok e = Some (ok response) /\ ev_allowed e = Some (ok response)
        /\ error_code e = response_error_code response
        /\ response_bytes e = Some (Z.of_nat (length payload))
  | [AuditEvent _ false; ResponseFrame b] =>
      exists now rid payload,
        serialize_response (error_response now rid AuditWriteFailed
          "failed to write agent audit event" json_empty) mx = Ok payload
        /\ b = response_frame payload
  | _ => False
  end.

Lemma serialize_response_size response mx payload :
  serialize_response response mx = Ok payload -> Z.of_nat (length payload) <= mx.
Proof. unfold serialize_response. intros Hs. peel Hs. lia. Qed.

Lemma fit_response_ok (senv : StreamEnv) response mx response' payload :
  fit_response senv response mx = Ok (response', payload) ->
  serialize_response response' mx = Ok payload.
Proof.
  unfold fit_response. intros Hf.
  destruct (serialize_response response mx) eqn:E; [by simplify_eq|].
  destruct (decide _); [|done]. cbv zeta in Hf. peel_in Hf. by simplify_eq.
Qed.

Lemma audit_then_write_audited (senv : StreamEnv) st response e mx :
  audited mx (audit_then_write_response senv st response e mx).1.2.
Proof.
  unfold audit_then_write_response.
  destruct (fit_response senv response mx) as [[response' payload]|] eqn:Hf; [|done].
  apply fit_response_ok in Hf. unfold write_response_payload.
  destruct (se_audit_ok senv).
  - destruct (se_write_ok senv); simpl; [|done]. eauto 10.
  - unfold write_response.
    destruct (serialize_response (error_response _ _ _ _ _) mx) as [p|] eqn:Hs; [|done].
    unfold write_response_payload. destruct (se_write_ok senv); simpl; [|done]. eauto 10.
Qed.

Lemma handle_bi_stream_audited_lemma (senv : StreamEnv) st remote input :
  audited (max_response_bytes (security_of st))
    (handle_bi_stream senv st remote input).1.2.
Proof.
  unfold handle_bi_stream.
  destruct (read_frame_with_timeout _ _ _ _) as [payload|err];
    [|apply audit_then_write_audited].
  destruct (json_from_slice payload) as [v|err]; [|apply audit_then_write_audited].
  destruct (request_from_value v) as [req|err]; [|apply audit_then_write_audited].
  destruct (handle_request senv st remote req) as [st' response].
  apply audit_then_write_audited.
Qed.

Lemma audited_frames mx effects b :
  audited mx effects -> ResponseFrame b ∈ effects ->
  exists response payload, serialize_response response mx = Ok payload
                           /\ b = response_frame payload.
Proof.
  unfold audited. intros Ha Hb.
  destruct effects as [|[e w|] [|[|b'] [|]]]; try done;
    repeat rewrite elem_of_cons in Hb; rewrite ?elem_of_nil in Hb; try naive_solver.
  all: destruct w; try done; naive_solver.
Qed.

Lemma response_frame_decodes payload mx :
  Z.of_nat (length payload) <= mx -> mx < 2 ^ 32 ->
  decode_frame (response_frame payload) mx = Ok payload.
Proof.
  intros Hle Hmx. apply decode_encode_frame; [lia|].
  unfold encode_frame. destruct (mx <? _) eqn:E; bool_facts; [lia|done].
Qed.
End server_proofs.
