(* ===== verification/AgentProperties.v ===== *)
(** * AgentProperties: the guarantees of the agent

    Each theorem is applied at the agent of Scenario. *)

From S2P Require Import Prelude Text External Wire AgentConfig Authz Limiters AuditLimiter.
From S2P Require Import Nonce PeerEcho Server ServerProofs.
Import Toy.

(** ** Configuration and authorisation *)

(** A validated configuration always yields the endpoint sets, and they are
    coherent: no endpoint is both controller and peer or both enabled and
    disabled, and every path probe names a configured controller and an enabled
    peer, as enabled or as disabled but not both. *)
Theorem validated_config_coherent `{EndpointIdLaws} feature cfg :
  validate_agent_config feature cfg = Ok tt ->
  exists a, from_security_config (security cfg) = Ok a /\ authz_wf a.
Proof. apply validated_authz. Qed.

Lemma validated_config_coherent_witness :
  exists a, from_security_config (security sample_config) = Ok a /\ authz_wf a.
Proof. apply (validated_config_coherent false sample_config). exact sample_config_valid. Defined.

(** With coherent endpoint sets, the path probe decision allows exactly the
    enabled (controller, target) pairs whose target is not the agent itself. *)
Theorem path_probe_allowed_iff `{EndpointIdOps} a c t s :
  authz_wf a ->
  path_probe_decision a c t s = ProbeAllowed
  <-> (c, t) ∈ enabled_path_probes a /\ t <> s.
Proof.
  intros [Hon Hoff Hd Hp Hpd]. unfold path_probe_decision.
  pose proof (Hp c t) as Hct. split.
  - intros Hdec. peel Hdec. done.
  - intros [He Hs]. destruct Hct as [Hc Ht]; [set_solver|].
    rewrite bool_decide_eq_false_2 by done.
    rewrite bool_decide_eq_false_2 by set_solver.
    rewrite (bool_decide_eq_true_2 _ Ht). simpl. by rewrite bool_decide_eq_true_2.
Qed.

Lemma path_probe_allowed_iff_witness :
  path_probe_decision sample_authz "ctrl" "peer" "self" = ProbeAllowed
  <-> ("ctrl", "peer")%string ∈ enabled_path_probes sample_authz /\ "peer" <> "self".
Proof.
  apply (path_probe_allowed_iff sample_authz "ctrl" "peer" "self"). exact sample_authz_wf.
Defined.

(** ** Admission *)

(** In every state reachable from a validated configuration, through any
    interleaving of admissions, rejections and drops, the permits that are out
    respect the global and the per-endpoint limits, and the active gauges show
    their number. *)
Theorem admission_bounded `{EndpointIdOps} feature cfg s :
  validate_agent_config feature cfg = Ok tt ->
  rtc step (initial (security cfg)) s ->
  let c := security cfg in
  0 <= handshakes_out s <= max_handshake_tasks_global c
  /\ Z.of_nat (length (connections_out s)) <= max_connections_global c
  /\ Z.of_nat (length (streams_out s)) <= max_streams_global c
  /\ (forall id, held_by id (connections_out s) <= max_connections_per_controller c)
  /\ (forall id, held_by id (streams_out s) <= max_streams_per_controller c)
  /\ metrics (lim s) connection_active = Z.of_nat (length (connections_out s)) mod 2 ^ 64
  /\ metrics (lim s) stream_active = Z.of_nat (length (streams_out s)) mod 2 ^ 64
  /\ metrics (lim s) handshake_active = handshakes_out s mod 2 ^ 64.
Proof.
  intros Hv Hr. cbv zeta. apply validated_limits, validate_limits_ok in Hv.
  destruct (reachable_wf _ _ s (initial_wf (security cfg) ltac:(lia) ltac:(lia) ltac:(lia)
    ltac:(lia) ltac:(lia)) Hr) as [_ _ Hh [Hh1 Hh2] Hhg [Hg1 Hn1 Hp1 Hq1 _ Ha1]
                                    [Hg2 Hn2 Hp2 Hq2 _ Ha2]].
  split_and!; [lia..| | |done|done|done]; intros i.
  - specialize (Hp1 i). specialize (Hq1 i). lia.
  - specialize (Hp2 i). specialize (Hq2 i). lia.
Qed.


Lemma admission_bounded_witness :
  let s := mkSystem (try_acquire_connection "kctrl" (lim (initial sample_security))).2 0
             ["kctrl"%string] [] in
  Z.of_nat (length (connections_out s)) <= max_connections_global sample_security
  /\ held_by "kctrl" (connections_out s) <= max_connections_per_controller sample_security.
Proof.
  simpl.
  destruct (admission_bounded false sample_config
    (mkSystem (try_acquire_connection "kctrl" (lim (initial sample_security))).2 0
       ["kctrl"%string] []) sample_config_valid) as (_ & H2 & _ & H4 & _).
  - apply rtc_once. apply (step_connection _ 0 [] [] _ true "kctrl"). reflexivity.
  - split; [exact H2|apply H4].
Defined.

(** ** Requests *)

Section requests.
Context `{EndpointIdOps, TimeOps, Base64Ops, AgentBuild}.

(** C2: a request is answered with a result only if its sender is a configured
    controller or enabled peer, the method is one its class may call, the
    request is inside its time window and uses no authentication scheme, its
    nonce was not live, and a path probe names a pair that is allowed. *)
Theorem dispatch_authorized env st remote req st' r :
  validate_and_dispatch_request env st remote req = (st', Ok r) ->
  let skew := allowed_clock_skew_seconds (security_of st) * ns_per_s in
  r.1 = request_id req /\ auth req = None
  /\ (register_nonce env st remote req (request_id req)).2 = Ok tt
  /\ (exists issued, rfc3339_parse (issued_at req) = Some issued
      /\ env_now env - skew <= issued <= env_now env + skew
      /\ env_now env <= issued + as_i64 (deadline_ms req) * ns_per_ms)
  /\ exists e, endpoint_from_str remote = Some e
     /\ is_connection_admitted (authz st) e = true
     /\ method_allowed (classify (authz st) e) (method req) = true
     /\ (method req = PROBE_PATH_ECHO ->
         exists s t source,
           params req = VObject [("target_agent_endpoint_id"%string, VString s)]
           /\ endpoint_from_str s = Some t
           /\ endpoint_from_str (agent_endpoint_id st) = Some source
           /\ path_probe_decision (authz st) e t source = ProbeAllowed).
Proof.
  intros Hv skew. destruct (dispatch_ok _ _ _ _ _ _ Hv) as (Hr & Hm & Hn & e & He & Ha & Hp).
  destruct (metadata_ok _ _ _ _ Hm) as (_ & _ & _ & Hau & _ & _ & t & Ht & Hlo & Hhi & Hd).
  split_and!; try done; [exists t; split_and!; done|].
  exists e. split_and!; try done.
  unfold is_connection_admitted. by destruct (classify (authz st) e).
Qed.

(** C3: a method that would change an ocserv installation is never executed:
    whatever the state, the sender and the environment, the request fails. *)
Theorem write_methods_never_executed env st remote req :
  method req ∈ write_methods ->
  exists e, (validate_and_dispatch_request env st remote req).2 = Err e.
Proof.
  intros Hw. destruct (validate_and_dispatch_request env st remote req) as [st' [r|e]] eqn:E;
    [|by eexists].
  destruct (dispatch_ok _ _ _ _ _ _ E) as (_ & _ & _ & e & _ & Ha & _).
  rewrite write_methods_not_allowed in Ha by done. done.
Qed.

Lemma normalize_error res rid e :
  normalize_peer_echo_result res rid = Err e -> rde_code e = InvalidResponse.
Proof.
  unfold normalize_peer_echo_result, ok_or.
  destruct (as_object res); [|by intros [= <-]].
  destruct (_ || _); [by intros [= <-]|done].
Qed.

Lemma dispatch_path_echo_found env st rid target m :
  dispatch_path_echo env st rid target <> Err (method_not_found rid m).
Proof.
  unfold dispatch_path_echo. intros Hd.
  destruct (map_err _ _) as [source|e] eqn:Hs.
  2: { unfold map_err in Hs. destruct (parse_endpoint_id _); simplify_eq. }
  destruct (negb (outbound_endpoint st)); [done|].
  destruct (env_peer_echo env target) as [out|err].
  - destruct (normalize_peer_echo_result _ _) as [v|e] eqn:Hn; [done|].
    apply normalize_error in Hn. injection Hd as ->. done.
  - destruct (decide _) as [Hc|]; [|done]. injection Hd as Hc'. congruence.
Qed.

Lemma dispatch_allowed_found c m rid env st remote probe :
  method_allowed c m = true ->
  dispatch_allowed_method env st remote m rid probe <> Err (method_not_found rid m).
Proof.
  intros Ha.
  assert (m ∈ [PROBE_PEER_ECHO; NODE_PING; NODE_INFO; NODE_CAPABILITIES;
               PROBE_CONTROLLER_PING; PROBE_PATH_ECHO; OCSERV_SERVICE_SUMMARY;
               OCSERV_VERSION; OCSERV_SESSIONS_SUMMARY; OCSERV_CERT_EXPIRY;
               OCSERV_CONFIG_FINGERPRINT]) as Hm.
  { destruct c; try done; unfold method_allowed in Ha.
    - right. by apply str_in_spec.
    - apply String.eqb_eq in Ha as ->. by left. }
  clear Ha. repeat rewrite elem_of_cons in Hm. rewrite elem_of_nil in Hm.
  destruct Hm as [->|[->|[->|[->|[->|[->|Hm]]]]]]; try done.
  { unfold dispatch_allowed_method. simpl. destruct probe; simpl; [|done].
    apply dispatch_path_echo_found. }
  destruct Hm as [->|[->|[->|[->|[->|[]]]]]]; unfold dispatch_allowed_method, dispatch_ocserv_readonly;
    simpl; destruct (env_provider env _); done.
Qed.

(** Authorisation accepts only methods of the caller's class, and every
    method it accepts has a handler: dispatch never falls through to the
    method-not-found answer. *)
Theorem authorised_methods_have_handlers c m rid env st remote probe :
  authorize_request_method c m rid = Ok tt ->
  method_allowed c m = true
  /\ dispatch_allowed_method env st remote m rid probe <> Err (method_not_found rid m).
Proof.
  intros Ha%authorize_ok_iff. split; [done|]. by apply (dispatch_allowed_found c).
Qed.

(** C1: a request cannot be replayed.  If a request was admitted and a second
    copy from the same endpoint arrives later, with any other requests served
    in between, the second copy is not admitted: either the time checks reject
    it or its nonce is still live.  The hypotheses on the clocks: the
    monotonic clock advanced no further than the wall clock, and the request
    was not stamped at the very end of the allowed future skew. *)
Theorem replay_protection st c1 mid c2 issued :
  cache_wf (nonce_cache st) ->
  c_remote c2 = c_remote c1 -> c_req c2 = c_req c1 ->
  0 <= deadline_ms (c_req c1) <= i64_max ->
  0 <= allowed_clock_skew_seconds (security_of st) ->
  deadline_ms (c_req c1) + allowed_clock_skew_seconds (security_of st) * 1000 <= u64_max ->
  env_instant (c_env c1)
    + nonce_ttl (deadline_ms (c_req c1)) (allowed_clock_skew_seconds (security_of st))
    <= instant_max ->
  rfc3339_parse (issued_at (c_req c1)) = Some issued ->
  issued < env_now (c_env c1) + allowed_clock_skew_seconds (security_of st) * ns_per_s ->
  Forall (fun c => env_instant (c_env c) <= env_instant (c_env c2)) mid ->
  env_instant (c_env c2) - env_instant (c_env c1) <= env_now (c_env c2) - env_now (c_env c1) ->
  admitted st c1 = true ->
  admitted (fold_left serve mid (serve st c1)) c2 = false.
Proof. apply replay_rejected. Qed.

(** the two sides of a peer echo agree: when the target answers a
    [probe.peer.echo] request with a result, the source's check accepts that
    response for the pair of endpoints and returns the target's result. *)
Theorem peer_echo_agreement `{!TimeLaws} senv st remote req source target :
  remote = endpoint_to_string source ->
  agent_endpoint_id st = endpoint_to_string target ->
  method req = PROBE_PEER_ECHO ->
  ok (handle_request senv st remote req).2 = true ->
  exists v, validate_peer_echo_response (handle_request senv st remote req).2
              (request_id req) source target = Ok v
            /\ resp_result (handle_request senv st remote req).2 = Some v.
Proof.
  intros Hrem Hag Hm. unfold handle_request.
  destruct (validate_and_dispatch_request (se_request senv) st remote req) as [st' [[rid v]|e]]
    eqn:E; [|done].
  intros _. pose proof (peer_echo_reply _ _ _ _ _ _ E Hm) as [= -> ->].
  simpl. eexists. split; [|done].
  unfold validate_peer_echo_response. simpl.
  rewrite bool_decide_eq_true_2 by done. simpl.
  unfold require_str, require_string_field. simpl.
  rewrite Hrem, Hag, !String.eqb_refl. simpl. by rewrite rfc3339_parse_format.
Qed.
End requests.

Definition ping_call (now instant : Z) : Call :=
  mkCall (sample_env now instant) "kctrl" (sample_request NODE_PING 1000).

Lemma dispatch_authorized_witness :
  exists e, endpoint_from_str "kctrl" = Some e
    /\ method_allowed (classify (authz sample_state) e) NODE_PING = true.
Proof.
  destruct (dispatch_authorized (sample_env 1000 5) sample_state "kctrl"
    (sample_request NODE_PING 1000) (serve sample_state (ping_call 1000 5))
    ("123e4567-e89b-12d3-a456-426614174000"%string,
     VObject [("agent_version", VString "1.0.0"); ("message", VString "pong");
              ("node_id", VString "node-1");
              ("time_utc", VString (rfc3339_format 1000))]%string))
    as (_ & _ & _ & _ & e & He & _ & Hm & _).
  - vm_compute. reflexivity.
  - exists e. split; [exact He|exact Hm].
Defined.

Lemma write_methods_never_executed_witness :
  exists e, (validate_and_dispatch_request (sample_env 1000 5) sample_state "kctrl"
               (sample_request OCSERV_RESTART 1000)).2 = Err e.
Proof.
  apply (write_methods_never_executed (sample_env 1000 5) sample_state "kctrl"
           (sample_request OCSERV_RESTART 1000)).
  apply (proj1 (str_in_spec _ _)). vm_compute. reflexivity.
Defined.

Lemma authorised_methods_have_handlers_witness :
  dispatch_allowed_method (sample_env 1000 5) sample_state "kctrl" OCSERV_VERSION "r" None
  <> Err (method_not_found "r" OCSERV_VERSION).
Proof.
  apply (authorised_methods_have_handlers Controller OCSERV_VERSION "r" (sample_env 1000 5)
           sample_state "kctrl" None). reflexivity.
Defined.

(** The second copy comes one second later, still inside its window. *)
Lemma replay_protection_witness :
  admitted sample_state (ping_call 1000 5) = true
  /\ admitted (fold_left serve [ping_call 1000 7] (serve sample_state (ping_call 1000 5)))
       (ping_call 1000001000 1000000005) = false.
Proof.
  assert (admitted sample_state (ping_call 1000 5) = true) as Ha by (vm_compute; reflexivity).
  split; [exact Ha|].
  apply (replay_protection sample_state (ping_call 1000 5) [ping_call 1000 7]
           (ping_call 1000001000 1000000005) 1000).
  - apply with_limits_wf. lia.
  - reflexivity.
  - reflexivity.
  - vm_compute. split; discriminate.
  - vm_compute. discriminate.
  - vm_compute. discriminate.
  - vm_compute. discriminate.
  - vm_compute. reflexivity.
  - vm_compute. reflexivity.
  - constructor; [vm_compute; discriminate|constructor].
  - vm_compute. discriminate.
  - exact Ha.
Defined.

Definition echo_env : StreamEnv :=
  mkStreamEnv (sample_env 1000 5) "event-1" 1000 1000 2000 0 false true true.

Lemma peer_echo_agreement_witness :
  exists v, validate_peer_echo_response
              (handle_request echo_env sample_state "kpeer"
                 (sample_request PROBE_PEER_ECHO 1000)).2
              "123e4567-e89b-12d3-a456-426614174000" "peer"%string "self"%string = Ok v.
Proof.
  destruct (peer_echo_agreement echo_env sample_state "kpeer"
    (sample_request PROBE_PEER_ECHO 1000) "peer"%string "self"%string) as (v & Hv & _).
  - reflexivity.
  - reflexivity.
  - reflexivity.
  - vm_compute. reflexivity.
  - exists v. exact Hv.
Defined.

(** ** The edge of the replay window *)

(** A request stamped exactly at the end of the allowed future skew. *)
Definition edge_call (now instant : Z) : Call :=
  mkCall (sample_env now instant) "kctrl" (sample_request NODE_PING (60 * ns_per_s)).

(** The hypothesis of [replay_protection] on the stamp is needed.  A request
    stamped exactly [allowed_clock_skew_seconds] ahead of the agent's clock is
    admitted; its nonce expires at the same instant at which its deadline still
    passes, so a second copy that arrives then is admitted again although both
    clocks advanced together. *)
Theorem replay_at_window_edge :
  let t := 65 * ns_per_s in
  admitted sample_state (edge_call 0 0) = true
  /\ admitted (serve sample_state (edge_call 0 0)) (edge_call t t) = true
  /\ is_ok (validate_and_dispatch_request (c_env (edge_call t t))
              (serve sample_state (edge_call 0 0)) "kctrl" (c_req (edge_call t t))).2 = true.
Proof. vm_compute. auto. Qed.

(** ** Audit *)

(** C26: on every stream the audit event comes before the response.  A response
    goes out either after the event that describes it (same outcome, error code
    and size) was written, or, when writing failed, it is the audit-failure
    error; nothing else is ever sent, and every frame decodes on the other
    side. *)
Theorem audit_before_response `{EndpointIdOps, TimeOps, Base64Ops, AgentBuild, !Codec}
    senv st remote input :
  audited (max_response_bytes (security_of st)) (handle_bi_stream senv st remote input).1.2
  /\ (max_response_bytes (security_of st) < 2 ^ 32 ->
      forall b, ResponseFrame b ∈ (handle_bi_stream senv st remote input).1.2 ->
      is_ok (decode_frame b (max_response_bytes (security_of st))) = true).
Proof.
  split; [apply handle_bi_stream_audited_lemma|]. intros Hmx b Hb.
  destruct (audited_frames _ _ _ (handle_bi_stream_audited_lemma senv st remote input) Hb)
    as (response & payload & Hs & ->).
  rewrite response_frame_decodes; [done| |done].
  by eapply serialize_response_size.
Qed.
