(* ===== verification/AuditSpool.v ===== *)
(** * AuditSpool: the agent's audit log and its spool
      (ocfleet-agent/src/audit.rs, ocfleet-agent/src/private_file.rs)

    Events go to a log of one JSON object per line; when it cannot be written
    they go to a bounded spool, which is replayed before the next event and
    every few seconds.  Files are their bytes, a missing file is an empty one;
    each access to a file consults an environment that lets it succeed or fail,
    an append possibly after some of its bytes.  A replacement writes a new file
    and renames it, so that it happens as a whole or not at all. *)

From S2P Require Import Prelude Text External Server.

Definition DEFAULT_AUDIT_QUEUE_CAPACITY : Z := 1024.
Definition DEFAULT_AUDIT_SPOOL_MAX_EVENTS : Z := 10000.

(** ** Accesses to files *)

Inductive IoErr := WouldBlock | BrokenPipe | InvalidData | OtherIo.

(** One access: it succeeds, or fails after [written] bytes of an append or
    [read] lines of a file. *)
Inductive IoOutcome :=
| Done
| Failed (err : IoErr) (written read : nat).

(** [BufRead::lines]: the parts between line feeds, without a carriage return
    before the line feed; what follows the last line feed is a line unless it is
    empty.  A line that is not UTF-8 is an error. *)
Definition line_text (bs : list Z) : result IoErr string :=
  if utf8_valid bs then Ok (str_of_bytes bs) else Err InvalidData.

Definition strip_cr_byte (bs : list Z) : list Z :=
  match rev bs with 13 :: r => rev r | _ => bs end.

Fixpoint byte_lines (acc bs : list Z) : list (list Z) :=
  match bs with
  | [] => match acc with [] => [] | _ => [acc] end
  | b :: rest =>
      if b =? 10 then strip_cr_byte acc :: byte_lines [] rest else byte_lines (acc ++ [b]) rest
  end.

Definition buf_lines (file : list Z) : list (result IoErr string) :=
  map line_text (byte_lines [] file).

(** The lines that a reader sees. *)
Definition seen_lines (o : IoOutcome) (file : list Z) : list (result IoErr string) :=
  match o with
  | Done => buf_lines file
  | Failed err _ n => take n (buf_lines file) ++ [Err err]
  end.

(** [open_private_append], [serde_json::to_writer] and [write_all(b"\n")]. *)
Definition append_line (o : IoOutcome) (file bytes : list Z) : list Z * result IoErr unit :=
  match o with
  | Done => (file ++ bytes ++ [10], Ok tt)
  | Failed err n _ => (file ++ take n bytes, Err err)
  end.

(** [write_private_replace]. *)
Definition write_private_replace {A} (o : IoOutcome) (old new : A) : A * result IoErr unit :=
  match o with Done => (new, Ok tt) | Failed err _ _ => (old, Err err) end.

(** ** State *)

Record SpoolRecord := { queued_at : string; sr_event : AgentAuditEvent }.

Record AuditMetricsSnapshot := {
  audit_queued : Z;
  audit_dropped : Z;
  audit_replayed : Z;
  audit_flush_failures : Z;
  audit_oldest_age_seconds : option Z;
}.

(** The counters are [AtomicU64]. *)
Record AuditMetrics := { am_queued : Z; am_dropped : Z; am_replayed : Z; am_flush_failures : Z }.

Record AuditDurability := {
  primary : list Z;
  spool : list Z;
  metrics_file : option AuditMetricsSnapshot;
  ad_metrics : AuditMetrics;
  (* the number of accesses and readings of the clock so far *)
  ad_tick : nat;
}.

Record AuditPaths := { has_metrics_path : bool; spool_max_events : Z }.

(** serde_json for events and records. *)
Class AuditJson := {
  event_bytes : AgentAuditEvent -> list Z;
  (** [from_str::<Value>(line).ok()?.get("event_id")?.as_str()] *)
  line_event_id : string -> option string;
  record_bytes : SpoolRecord -> list Z;
  record_parse : string -> option SpoolRecord;
}.

Definition fetch_add (x : Z) : Z := (x + 1) mod 2 ^ 64.

Definition with_primary (f : list Z) (d : AuditDurability) : AuditDurability :=
  {| primary := f; spool := spool d; metrics_file := metrics_file d; ad_metrics := ad_metrics d;
     ad_tick := S (ad_tick d) |}.
Definition with_spool (f : list Z) (d : AuditDurability) : AuditDurability :=
  {| primary := primary d; spool := f; metrics_file := metrics_file d; ad_metrics := ad_metrics d;
     ad_tick := S (ad_tick d) |}.
Definition with_metrics_file (f : option AuditMetricsSnapshot) (d : AuditDurability)
    : AuditDurability :=
  {| primary := primary d; spool := spool d; metrics_file := f; ad_metrics := ad_metrics d;
     ad_tick := S (ad_tick d) |}.
Definition with_metrics (m : AuditMetrics) (d : AuditDurability) : AuditDurability :=
  {| primary := primary d; spool := spool d; metrics_file := metrics_file d; ad_metrics := m;
     ad_tick := ad_tick d |}.
Definition ticked (d : AuditDurability) : AuditDurability := with_primary (primary d) d.

Definition count_queued (d : AuditDurability) : AuditDurability :=
  let m := ad_metrics d in
  with_metrics {| am_queued := fetch_add (am_queued m); am_dropped := am_dropped m;
    am_replayed := am_replayed m; am_flush_failures := am_flush_failures m |} d.
Definition count_dropped (d : AuditDurability) : AuditDurability :=
  let m := ad_metrics d in
  with_metrics {| am_queued := am_queued m; am_dropped := fetch_add (am_dropped m);
    am_replayed := am_replayed m; am_flush_failures := am_flush_failures m |} d.
Definition count_replayed (d : AuditDurability) : AuditDurability :=
  let m := ad_metrics d in
  with_metrics {| am_queued := am_queued m; am_dropped := am_dropped m;
    am_replayed := fetch_add (am_replayed m); am_flush_failures := am_flush_failures m |} d.
Definition count_flush_failure (d : AuditDurability) : AuditDurability :=
  let m := ad_metrics d in
  with_metrics {| am_queued := am_queued m; am_dropped := am_dropped m;
    am_replayed := am_replayed m; am_flush_failures := fetch_add (am_flush_failures m) |} d.

(** ** Operations *)

Section spool.
Context `{TimeOps, AuditJson}.
Context (io : nat -> IoOutcome) (clock : nat -> Z) (paths : AuditPaths).

Definition outcome (d : AuditDurability) : IoOutcome := io (ad_tick d).

(** [FileAuditStorage]. *)
Definition primary_write_event (e : AgentAuditEvent) (d : AuditDurability)
    : AuditDurability * result IoErr unit :=
  let '(file, r) := append_line (outcome d) (primary d) (event_bytes e) in
  (with_primary file d, r).

Fixpoint find_event_id (id : string) (lines : list (result IoErr string)) : result IoErr bool :=
  match lines with
  | [] => Ok false
  | Err err :: _ => Err err
  | Ok line :: rest =>
      if bool_decide (line_event_id line = Some id) then Ok true else find_event_id id rest
  end.

Definition contains_event_id (id : string) (d : AuditDurability)
    : AuditDurability * result IoErr bool :=
  (ticked d, find_event_id id (seen_lines (outcome d) (primary d))).

(** The loop over the lines of the spool. *)
Fixpoint spool_lines (records : list SpoolRecord) (lines : list (result IoErr string))
    (d : AuditDurability) : AuditDurability * result IoErr (list SpoolRecord) :=
  match lines with
  | [] => (d, Ok records)
  | Err err :: _ => (d, Err err)
  | Ok line :: rest =>
      if str_is_empty (str_trim line) then spool_lines records rest d
      else match record_parse line with
           | Some record => spool_lines (records ++ [record]) rest d
           | None => spool_lines records rest (count_dropped d)
           end
  end.

Definition read_spool_records (d : AuditDurability)
    : AuditDurability * result IoErr (list SpoolRecord) :=
  spool_lines [] (seen_lines (outcome d) (spool d)) (ticked d).

Definition rewrite_spool (records : list SpoolRecord) (d : AuditDurability)
    : AuditDurability * result IoErr unit :=
  let payload := flat_map (fun r => record_bytes r ++ [10]) records in
  let '(file, r) := write_private_replace (outcome d) (spool d) payload in
  (with_spool file d, r).

Definition spool_event_count (d : AuditDurability) : AuditDurability * result IoErr Z :=
  let '(d, r) := read_spool_records d in
  (d, let? records := r in Ok (Z.of_nat (length records))).

Definition oldest_spool_age_seconds (d : AuditDurability)
    : AuditDurability * result IoErr (option Z) :=
  let '(d, r) := read_spool_records d in
  (ticked d,
   let? records := r in
   match records with
   | [] => Ok None
   | oldest :: _ =>
       let? at_ := ok_or (rfc3339_parse (queued_at oldest)) OtherIo in
       Ok (Some (Z.max (Z.quot (clock (ad_tick d) - at_) 1000000000) 0))
   end).

Definition metrics_snapshot (d : AuditDurability) : AuditDurability * AuditMetricsSnapshot :=
  let '(d, age) := oldest_spool_age_seconds d in
  let m := ad_metrics d in
  (d, {| audit_queued := am_queued m; audit_dropped := am_dropped m;
         audit_replayed := am_replayed m; audit_flush_failures := am_flush_failures m;
         audit_oldest_age_seconds := match age with Ok o => o | Err _ => None end |}).

Definition write_metrics_snapshot (d : AuditDurability) : AuditDurability :=
  if has_metrics_path paths then
    let '(d, snapshot) := metrics_snapshot d in
    with_metrics_file (write_private_replace (outcome d) (metrics_file d) (Some snapshot)).1 d
  else d.

(** The loop over the records: the error that stopped it with the records from
    there on. *)
Fixpoint replay (records : list SpoolRecord) (d : AuditDurability)
    : AuditDurability * option (IoErr * list SpoolRecord) :=
  match records with
  | [] => (d, None)
  | record :: rest =>
      let '(d, r) := contains_event_id (event_id (sr_event record)) d in
      match r with
      | Ok true => replay rest d
      | Ok false =>
          let '(d, r) := primary_write_event (sr_event record) d in
          match r with
          | Ok _ => replay rest (count_replayed d)
          | Err err => (d, Some (err, records))
          end
      | Err err => (d, Some (err, records))
      end
  end.

Definition flush_spool (d : AuditDurability) : AuditDurability * result IoErr unit :=
  let '(d, r) := read_spool_records d in
  match r with
  | Err err => (d, Err err)
  | Ok [] => (write_metrics_snapshot d, Ok tt)
  | Ok records =>
      let '(d, stopped) := replay records d in
      match stopped with
      | Some (err, remaining) =>
          let '(d, r) := rewrite_spool remaining d in
          match r with
          | Err rewrite_err => (d, Err rewrite_err)
          | Ok _ => (write_metrics_snapshot (count_flush_failure d), Err err)
          end
      | None =>
          let '(d, r) := rewrite_spool [] d in
          match r with
          | Err rewrite_err => (d, Err rewrite_err)
          | Ok _ => (write_metrics_snapshot d, Ok tt)
          end
      end
  end.

Definition enqueue_spool (e : AgentAuditEvent) (d : AuditDurability)
    : AuditDurability * result IoErr unit :=
  let '(d, r) := spool_event_count d in
  match r with
  | Err err => (d, Err err)
  | Ok current_events =>
      if spool_max_events paths <=? current_events then
        (write_metrics_snapshot (count_dropped d), Err WouldBlock)
      else
        let record := {| queued_at := rfc3339_format (clock (ad_tick d)); sr_event := e |} in
        let d := ticked d in
        let '(file, r) := append_line (outcome d) (spool d) (record_bytes record) in
        let d := with_spool file d in
        match r with
        | Err err => (d, Err err)
        | Ok _ => (write_metrics_snapshot (count_queued d), Ok tt)
        end
  end.

Definition write_event (e : AgentAuditEvent) (d : AuditDurability)
    : AuditDurability * result IoErr unit :=
  let '(d, _) := flush_spool d in
  let '(d, r) := primary_write_event e d in
  match r with
  | Ok _ => (write_metrics_snapshot d, Ok tt)
  | Err _ => enqueue_spool e d
  end.

(** ** The queue and its worker *)

(** A queued command is its event and the number of its acknowledgement. *)
Record JsonlAuditWriter := {
  aw_queue : list (nat * AgentAuditEvent);
  aw_durability : AuditDurability;
  aw_acks : list (nat * result IoErr unit);
  aw_next : nat;
}.

(** [try_send] of [enqueue]: the number of the acknowledgement. *)
Definition enqueue (queue_capacity : Z) (e : AgentAuditEvent) (w : JsonlAuditWriter)
    : JsonlAuditWriter * result IoErr nat :=
  if queue_capacity <=? Z.of_nat (length (aw_queue w)) then (w, Err WouldBlock)
  else ({| aw_queue := aw_queue w ++ [(aw_next w, e)]; aw_durability := aw_durability w;
           aw_acks := aw_acks w; aw_next := S (aw_next w) |}, Ok (aw_next w)).

(** One round of the worker: the next command, or the flush after a pause. *)
Definition worker_step (w : JsonlAuditWriter) : JsonlAuditWriter :=
  match aw_queue w with
  | (n, e) :: rest =>
      let '(d, r) := write_event e (aw_durability w) in
      {| aw_queue := rest; aw_durability := d; aw_acks := aw_acks w ++ [(n, r)];
         aw_next := aw_next w |}
  | [] =>
      {| aw_queue := []; aw_durability := (flush_spool (aw_durability w)).1;
         aw_acks := aw_acks w; aw_next := aw_next w |}
  end.
End spool.
