(* ===== verification/AuditSpoolLemmas.v ===== *)
(** * AuditSpoolLemmas: the files as lists of events and records

    While no failed append leaves bytes behind, the log and the spool are lines
    that serde_json wrote, and every operation is one on the lists of their
    events and records. *)

From S2P Require Import Prelude Text External Server AuditSpool.

(** ** Specifications *)

(** A line as serde_json writes it: UTF-8 without line breaks, from a brace to
    a brace. *)
Definition json_text (l : string) : Prop :=
  utf8_valid (str_bytes l) = true /\ (10 ∉ str_bytes l) /\
  (exists t, l = String "{" t) /\ last (str_bytes l) = Some 125.

(** The texts and numbers of an event are those of their types. *)
Definition event_text (e : AgentAuditEvent) : Prop :=
  Forall (fun s => utf8_valid (str_bytes s) = true)
    ([event_id e; ts e; event e] ++ omap id
       [ev_request_id e; root_request_id e; peer_request_id e; path_target_endpoint_id e;
        ev_remote_endpoint_id e; ev_method e; params_hash e; nonce_hash e; error_code e; stage e;
        reason e; result_class e; limit_key e; ev_resource e]) /\
  Forall (fun n => 0 <= n <= u64_max)
    (omap id [ev_duration_ms e; response_bytes e; ev_suppressed_count e]).

#[export] Instance event_text_dec e : Decision (event_text e).
Proof. unfold event_text. apply _. Defined.

Definition record_text (r : SpoolRecord) : Prop :=
  event_text (sr_event r) /\ utf8_valid (str_bytes (queued_at r)) = true.

(** serde_json writes an object in one line, reads a record back, and finds the
    member of an event. *)
Class AuditJsonLaws `{AuditJson} : Prop := {
  event_line : forall e, event_text e -> exists l, event_bytes e = str_bytes l /\ json_text l /\
    line_event_id l = Some (event_id e);
  record_line : forall r, record_text r -> exists l, record_bytes r = str_bytes l /\ json_text l /\
    record_parse l = Some r;
}.

(** The time crate writes ASCII. *)
Class TimeUtf8 `{TimeOps} : Prop := {
  rfc3339_format_utf8 : forall t, utf8_valid (str_bytes (rfc3339_format t)) = true;
}.

(** No failed append leaves bytes behind. *)
Definition clean (io : nat -> IoOutcome) : Prop :=
  forall t err written read, io t = Failed err written read -> written = O.

(** No access fails from now on. *)
Definition healthy (io : nat -> IoOutcome) (d : AuditDurability) : Prop :=
  forall t, (ad_tick d <= t)%nat -> io t = Done.

Section files.
Context `{TimeOps, AuditJson}.

Definition log_file (es : list AgentAuditEvent) : list Z :=
  flat_map (fun e => event_bytes e ++ [10]) es.
Definition spool_file (rs : list SpoolRecord) : list Z :=
  flat_map (fun r => record_bytes r ++ [10]) rs.

(** An event that a reader of the files finds. *)
Definition logged (e : AgentAuditEvent) (d : AuditDurability) : Prop :=
  exists l, Ok l ∈ buf_lines (primary d) /\ str_bytes l = event_bytes e.
Definition spooled (e : AgentAuditEvent) (d : AuditDurability) : Prop :=
  exists l r, Ok l ∈ buf_lines (spool d) /\ record_parse l = Some r /\ sr_event r = e.

(** The files hold events of [es], no event twice. *)
Record spool_inv (max : Z) (es : list AgentAuditEvent) (ps : list AgentAuditEvent)
    (rs : list SpoolRecord) (d : AuditDurability) : Prop := {
  si_primary : primary d = log_file ps;
  si_spool : spool d = spool_file rs;
  si_log : Forall (fun e => e ∈ es) ps;
  si_records : Forall (fun r => record_text r /\ sr_event r ∈ es) rs;
  si_once : NoDup (map event_id ps);
  si_spool_once : NoDup (map (fun r => event_id (sr_event r)) rs);
  si_bound : Z.of_nat (length rs) <= max;
}.

(** The events that the files hold. *)
Definition kept (ps : list AgentAuditEvent) (rs : list SpoolRecord) (e : AgentAuditEvent) : Prop :=
  e ∈ ps \/ e ∈ map sr_event rs.

(** Events with distinct identifiers. *)
Record events_ok (es : list AgentAuditEvent) : Prop := {
  eo_text : Forall event_text es;
  eo_ids : NoDup (map event_id es);
}.

Definition same_files (d d' : AuditDurability) : Prop :=
  primary d' = primary d /\ spool d' = spool d.
End files.

(** ** Lines *)

Lemma byte_lines_one l rest : forall acc,
  10 ∉ l -> byte_lines acc (l ++ 10 :: rest) = strip_cr_byte (acc ++ l) :: byte_lines [] rest.
Proof.
  induction l as [|b l IH]; intros acc Hl; cbn [app byte_lines].
  - by rewrite app_nil_r.
  - rewrite (proj2 (Z.eqb_neq b 10)) by set_solver. rewrite IH by set_solver.
    by rewrite <- app_assoc.
Qed.

Lemma strip_cr_json bs : last bs = Some 125 -> strip_cr_byte bs = bs.
Proof.
  destruct bs as [|b bs] using rev_ind; [done|]. rewrite last_snoc. intros [= ->].
  unfold strip_cr_byte. by rewrite rev_app_distr.
Qed.

Lemma json_text_read l : json_text l -> line_text (str_bytes l) = Ok l.
Proof. intros [Hu _]. unfold line_text. by rewrite Hu, str_of_bytes_str_bytes. Qed.

(** A file of such lines is read as these lines. *)
Lemma buf_lines_json ls :
  Forall json_text ls -> buf_lines (flat_map (fun l => str_bytes l ++ [10]) ls) = map Ok ls.
Proof.
  unfold buf_lines. induction 1 as [|l ls Hl _ IH]; [done|]. cbn [flat_map map].
  rewrite <- app_assoc. cbn [app]. pose proof Hl as (_ & Hn & _ & Hc).
  rewrite byte_lines_one by done. cbn [app map]. rewrite strip_cr_json by done.
  by rewrite IH, json_text_read.
Qed.

Lemma json_text_not_blank l : json_text l -> str_is_empty (str_trim l) = false.
Proof. intros (_ & _ & (t & ->) & _). by apply str_trim_head. Qed.

Lemma flat_map_ext_Forall {A B} (f g : A -> list B) l :
  Forall (fun x => f x = g x) l -> flat_map f l = flat_map g l.
Proof. induction 1 as [|x l Hx _ IH]; cbn; [done|]. by rewrite Hx, IH. Qed.

Section lines.
Context `{TimeOps, AuditJson, !AuditJsonLaws}.

Lemma event_line_of e :
  event_text e -> let l := str_of_bytes (event_bytes e) in
  event_bytes e = str_bytes l /\ json_text l /\ line_event_id l = Some (event_id e).
Proof. intros (l & -> & ? & ?)%event_line. by rewrite str_of_bytes_str_bytes. Qed.

Lemma record_line_of r :
  record_text r -> let l := str_of_bytes (record_bytes r) in
  record_bytes r = str_bytes l /\ json_text l /\ record_parse l = Some r.
Proof. intros (l & -> & ? & ?)%record_line. by rewrite str_of_bytes_str_bytes. Qed.

Lemma log_lines ps :
  Forall event_text ps ->
  buf_lines (log_file ps) = map Ok (map (fun e => str_of_bytes (event_bytes e)) ps).
Proof.
  intros Hps. rewrite <- buf_lines_json.
  - f_equal. unfold log_file. rewrite !flat_map_concat_map, map_map. f_equal.
    apply map_ext_Forall. eapply Forall_impl; [exact Hps|]. cbn.
    intros e (<- & _)%event_line_of. done.
  - apply Forall_map. eapply Forall_impl; [exact Hps|]. by intros e (_ & ? & _)%event_line_of.
Qed.

Lemma spool_lines_of rs :
  Forall record_text rs ->
  buf_lines (spool_file rs) = map Ok (map (fun r => str_of_bytes (record_bytes r)) rs).
Proof.
  intros Hrs. rewrite <- buf_lines_json.
  - f_equal. unfold spool_file. rewrite !flat_map_concat_map, map_map. f_equal.
    apply map_ext_Forall. eapply Forall_impl; [exact Hrs|]. cbn.
    intros r (<- & _)%record_line_of. done.
  - apply Forall_map. eapply Forall_impl; [exact Hrs|]. by intros r (_ & ? & _)%record_line_of.
Qed.

(** Looking for an identifier among the lines that could be read. *)
Lemma find_event_id_lines id ps more r :
  Forall event_text ps ->
  find_event_id id (map Ok (map (fun e => str_of_bytes (event_bytes e)) ps) ++ more) = Ok r ->
  (r = true /\ id ∈ map event_id ps) \/ ((id ∉ map event_id ps) /\ find_event_id id more = Ok r).
Proof.
  induction 1 as [|e ps He _ IH]; cbn [map app find_event_id]; [set_solver|].
  destruct (event_line_of e He) as (_ & _ & ->). case_bool_decide as Hd.
  - intros [= <-]. left. injection Hd as ->. set_solver.
  - intros [[-> ?]|[? ?]]%IH; [left|right]; set_solver.
Qed.

Lemma contains_spec io max es ps rs d d' r id :
  events_ok es -> spool_inv max es ps rs d -> contains_event_id io id d = (d', Ok r) ->
  same_files d d' /\ (r = true <-> id ∈ map event_id ps).
Proof.
  intros [Ht _] Hinv Hk. unfold contains_event_id in Hk. injection Hk as <- Hk. split; [done|].
  assert (Forall event_text ps) as Hps.
  { eapply Forall_impl; [apply Hinv|]. intros e He. by eapply Forall_forall in Ht. }
  rewrite (si_primary _ _ _ _ _ Hinv) in Hk. unfold seen_lines in Hk. rewrite log_lines in Hk by done.
  destruct (outcome io d) as [|err w n].
  - rewrite <- (app_nil_r (map Ok _)) in Hk.
    apply find_event_id_lines in Hk as [[-> ?]|[? [= <-]]]; [done..|]. done.
  - rewrite !firstn_map in Hk.
    apply find_event_id_lines in Hk as [[-> Hin]|[_ ?]]; [|done|by apply Forall_take].
    split; [intros _|done]. rewrite <- (take_drop n ps), map_app. set_solver.
Qed.

(** Reading the spool gives its records or an error, and changes no file. *)
Lemma spool_lines_files records lines : forall d,
  same_files d (spool_lines records lines d).1.
Proof.
  revert records. induction lines as [|[l|err] lines IH]; intros records d; cbn; [done| |done].
  destruct (str_is_empty _); [apply IH|]. destruct (record_parse l); [apply IH|].
  apply (IH records (count_dropped d)).
Qed.

Lemma spool_lines_json rs : forall records d more,
  Forall record_text rs ->
  spool_lines records (map Ok (map (fun r => str_of_bytes (record_bytes r)) rs) ++ more) d
  = spool_lines (records ++ rs) more d.
Proof.
  induction rs as [|r rs IH]; intros records d more Hrs; cbn [map app spool_lines].
  { by rewrite app_nil_r. }
  apply Forall_cons in Hrs as [Hr Hrs]. destruct (record_line_of r Hr) as (_ & Hj & ->).
  rewrite json_text_not_blank by done. rewrite IH by done. by rewrite <- app_assoc.
Qed.

Lemma read_spool_spec io max es ps rs d d' r :
  spool_inv max es ps rs d -> read_spool_records io d = (d', r) ->
  same_files d d' /\ (forall records, r = Ok records -> records = rs) /\
  (outcome io d = Done -> r = Ok rs).
Proof.
  intros Hinv Hr. unfold read_spool_records in Hr. split.
  { pose proof (spool_lines_files [] (seen_lines (outcome io d) (spool d)) (ticked d)) as Hs.
    by rewrite Hr in Hs. }
  assert (Forall record_text rs) as Hrs.
  { eapply Forall_impl; [apply Hinv|]. by intros ? []. }
  rewrite (si_spool _ _ _ _ _ Hinv) in Hr. unfold seen_lines in Hr.
  rewrite spool_lines_of in Hr by done. destruct (outcome io d) as [|err w n].
  - rewrite <- (app_nil_r (map Ok _)) in Hr. rewrite spool_lines_json in Hr by done.
    injection Hr as _ <-. split; [by intros ? [= <-]|done].
  - rewrite !firstn_map, spool_lines_json in Hr by (by apply Forall_take). cbn in Hr.
    injection Hr as _ <-. done.
Qed.

Lemma write_metrics_files io clock paths d : same_files d (write_metrics_snapshot io clock paths d).
Proof.
  unfold write_metrics_snapshot, metrics_snapshot, oldest_spool_age_seconds.
  destruct (has_metrics_path paths); [|done].
  pose proof (spool_lines_files [] (seen_lines (outcome io d) (spool d)) (ticked d)) as Hs.
  unfold read_spool_records. destruct (spool_lines _ _ _) as [d' r]. done.
Qed.

Lemma inv_files max es ps rs d d' :
  spool_inv max es ps rs d -> same_files d d' -> spool_inv max es ps rs d'.
Proof. intros [] [Hp Hs]. by split; rewrite ?Hp, ?Hs. Qed.

Lemma inv_more max es ps rs d e :
  spool_inv max es ps rs d -> spool_inv max (es ++ [e]) ps rs d.
Proof.
  intros []. split; try done.
  - eapply Forall_impl; [done|]. cbn. set_solver.
  - eapply Forall_impl; [done|]. cbn. set_solver.
Qed.

Lemma NoDup_map_inj {A B} (f : A -> B) l x y :
  NoDup (map f l) -> x ∈ l -> y ∈ l -> f x = f y -> x = y.
Proof.
  induction l as [|z l IH]; [set_solver|]. cbn. intros [Hn Hnd]%NoDup_cons Hx Hy He.
  apply elem_of_cons in Hx as [->|Hx], Hy as [->|Hy]; [done|..|by apply IH]; exfalso; apply Hn.
  - rewrite He. by apply (list_elem_of_fmap_2 f).
  - rewrite <- He. by apply (list_elem_of_fmap_2 f).
Qed.

(** The event with an identifier of the log is in the log. *)
Lemma logged_by_id max es ps rs d e :
  events_ok es -> spool_inv max es ps rs d -> e ∈ es -> event_id e ∈ map event_id ps -> e ∈ ps.
Proof.
  intros [_ Hids] Hinv He (e' & Heq & Hin)%list_elem_of_fmap.
  assert (e' ∈ es) as He' by (eapply Forall_forall in Hin; [|apply Hinv]; done).
  by rewrite (NoDup_map_inj _ _ _ _ Hids He He' Heq).
Qed.

Section steps.
Context (io : nat -> IoOutcome) (clock : nat -> Z) (paths : AuditPaths) (Hclean : clean io).

Lemma primary_write_spec max es ps rs d d' r e :
  spool_inv max es ps rs d -> e ∈ es -> (event_id e ∉ map event_id ps) ->
  primary_write_event io e d = (d', r) ->
  match r with
  | Ok _ => spool_inv max es (ps ++ [e]) rs d'
  | Err _ => same_files d d'
  end.
Proof.
  intros Hinv He Hfresh Hw. unfold primary_write_event in Hw.
  destruct (outcome io d) as [|err w n] eqn:Ho; cbn in Hw; injection Hw as <- <-.
  - destruct Hinv as [Hp Hs Hl Hr Hn Hsn Hb]. split; cbn; try done.
    + rewrite Hp. unfold log_file. rewrite flat_map_app. cbn. by rewrite app_nil_r.
    + apply Forall_app_2; [done|]. by constructor.
    + rewrite map_app, NoDup_app. split_and!; [done| |apply NoDup_singleton]. set_solver.
  - rewrite (Hclean _ _ _ _ Ho). split; [|done]. cbn. apply app_nil_r.
Qed.

Lemma replay_spec max es rs records : forall ps d d' stopped,
  events_ok es -> spool_inv max es ps rs d -> Forall (fun r => sr_event r ∈ es) records ->
  replay io records d = (d', stopped) ->
  exists ps', spool_inv max es ps' rs d' /\ ps ⊆ ps' /\
    match stopped with
    | None => Forall (fun r => sr_event r ∈ ps') records
    | Some (_, rest) => exists over, records = over ++ rest /\ Forall (fun r => sr_event r ∈ ps') over
    end.
Proof.
  induction records as [|r records IH]; intros ps d d' stopped Hok Hinv Hin Hr; cbn [replay] in Hr.
  { injection Hr as <- <-. exists ps. by split_and!. }
  apply Forall_cons in Hin as [He Hin].
  destruct (contains_event_id io (event_id (sr_event r)) d) as [d1 [found|err]] eqn:Hc.
  2: { unfold contains_event_id in Hc. injection Hc as <- _. injection Hr as <- <-. exists ps.
       split_and!; [|done|by exists []; split; [|constructor]].
       by apply (inv_files _ _ _ _ _ _ Hinv). }
  destruct (contains_spec _ _ _ _ _ _ _ _ _ Hok Hinv Hc) as [Hsf Hfound].
  pose proof (inv_files _ _ _ _ _ _ Hinv Hsf) as Hinv1. destruct found.
  - destruct (IH _ _ _ _ Hok Hinv1 Hin Hr) as (ps' & Hi & Hsub & Hst). exists ps'.
    split_and!; [done..|]. assert (sr_event r ∈ ps') as Hrp.
    { apply Hsub. eapply logged_by_id; eauto. by apply Hfound. }
    destruct stopped as [[err rest]|]; [|by constructor]. destruct Hst as (dn & -> & Hd).
    exists (r :: dn). by split; [|constructor].
  - destruct (primary_write_event io (sr_event r) d1) as [d2 w] eqn:Hw.
    assert (event_id (sr_event r) ∉ map event_id ps) as Hfresh
      by (intros Hx; by apply Hfound in Hx).
    pose proof (primary_write_spec _ _ _ _ _ _ _ _ Hinv1 He Hfresh Hw) as Hps.
    destruct w as [u|err].
    + assert (spool_inv max es (ps ++ [sr_event r]) rs (count_replayed d2)) as Hinv2
        by (by apply (inv_files _ _ _ _ _ _ Hps)).
      destruct (IH _ _ _ _ Hok Hinv2 Hin Hr) as (ps' & Hi & Hsub & Hst). exists ps'.
      split_and!; [done|set_solver|]. assert (sr_event r ∈ ps') as Hrp by set_solver.
      destruct stopped as [[err rest]|]; [|by constructor]. destruct Hst as (dn & -> & Hd).
      exists (r :: dn). by split; [|constructor].
    + injection Hr as <- <-. exists ps. split_and!; [|done|by exists []; split; [|constructor]].
      by apply (inv_files _ _ _ _ _ _ Hinv1).
Qed.

(** A file that is cut down to a part of its records. *)
Lemma rewrite_spec max es ps rs d d' r over rest :
  spool_inv max es ps rs d -> rs = over ++ rest -> rewrite_spool io rest d = (d', r) ->
  match r with
  | Ok _ => spool_inv max es ps rest d'
  | Err _ => same_files d d'
  end.
Proof.
  intros Hinv -> Hr. unfold rewrite_spool in Hr. fold (spool_file rest) in Hr.
  destruct (outcome io d) as [|err w n]; cbn in Hr; injection Hr as <- <-; [|done].
  destruct Hinv as [Hp Hs Hl Hrs Hn Hsn Hb]. rewrite Forall_app in Hrs.
  rewrite map_app, NoDup_app in Hsn. rewrite length_app in Hb. split; cbn; try tauto. lia.
Qed.

(** After a replay the spool keeps what the log does not have. *)
Lemma replayed_spec max es ps ps' rs over rest d d' r :
  spool_inv max es ps' rs d -> ps ⊆ ps' -> rs = over ++ rest ->
  Forall (fun r => sr_event r ∈ ps') over -> rewrite_spool io rest d = (d', r) ->
  exists rs', spool_inv max es ps' rs' d' /\ (forall e, kept ps rs e -> kept ps' rs' e) /\
    (r = Ok tt -> rs' = rest).
Proof.
  intros Hinv Hsub Hsplit Hover Hrw.
  pose proof (rewrite_spec _ _ _ _ _ _ _ _ _ Hinv Hsplit Hrw) as Hsp. destruct r as [[]|err].
  - exists rest. split_and!; [done| |done]. subst rs.
    intros e [He|(x & -> & Hx)%list_elem_of_fmap]; [left; set_solver|].
    apply elem_of_app in Hx as [Hx|Hx]; [left; by eapply Forall_forall in Hover|right].
    by apply (list_elem_of_fmap_2 sr_event).
  - exists rs. split_and!; [by apply (inv_files _ _ _ _ _ _ Hinv)| |done].
    intros e [He|He]; [left; set_solver|by right].
Qed.

Lemma flush_spec max es ps rs d d' r :
  events_ok es -> spool_inv max es ps rs d -> flush_spool io clock paths d = (d', r) ->
  exists ps' rs', spool_inv max es ps' rs' d' /\ (forall e, kept ps rs e -> kept ps' rs' e) /\
    ps ⊆ ps' /\ (r = Ok tt -> rs' = []).
Proof.
  intros Hok Hinv Hf. unfold flush_spool in Hf.
  destruct (read_spool_records io d) as [d1 rr] eqn:Hr.
  destruct (read_spool_spec _ _ _ _ _ _ _ _ Hinv Hr) as (Hsf & Hrec & _).
  pose proof (inv_files _ _ _ _ _ _ Hinv Hsf) as Hinv1.
  destruct rr as [records|err]; [|injection Hf as <- <-; exists ps, rs; by split_and!].
  specialize (Hrec _ eq_refl) as ->. destruct rs as [|r0 rs].
  { injection Hf as <- <-. exists ps, []. split_and!; try done.
    apply (inv_files _ _ _ _ _ _ Hinv1), write_metrics_files. }
  destruct (replay io (r0 :: rs) d1) as [d2 stopped] eqn:Hrep.
  assert (Forall (fun r => sr_event r ∈ es) (r0 :: rs)) as Hin.
  { eapply Forall_impl; [apply Hinv|]. by intros ? []. }
  destruct (replay_spec _ _ _ _ _ _ _ _ Hok Hinv1 Hin Hrep) as (ps' & Hinv2 & Hsub & Hst).
  destruct stopped as [[err rest]|].
  - destruct Hst as (over & Hsplit & Hover).
    destruct (rewrite_spool io rest d2) as [d3 rr] eqn:Hrw.
    destruct (replayed_spec _ _ _ _ _ _ _ _ _ _ Hinv2 Hsub Hsplit Hover Hrw)
      as (rs' & Hinv3 & Hk & _).
    exists ps', rs'. destruct rr; injection Hf as <- <-; split_and!; try done.
    apply (inv_files _ _ _ _ _ _ Hinv3), (write_metrics_files io clock paths (count_flush_failure d3)).
  - destruct (rewrite_spool io [] d2) as [d3 rr] eqn:Hrw.
    destruct (replayed_spec _ _ _ _ _ _ _ _ _ _ Hinv2 Hsub (eq_sym (app_nil_r _)) Hst Hrw)
      as (rs' & Hinv3 & Hk & Hnil).
    exists ps', rs'. destruct rr as [[]|]; injection Hf as <- <-; split_and!; try done; auto.
    apply (inv_files _ _ _ _ _ _ Hinv3), write_metrics_files.
Qed.

(** *** Without failures *)

Lemma healthy_later d d' : (ad_tick d <= ad_tick d')%nat -> healthy io d -> healthy io d'.
Proof. intros Hle Hh t Ht. apply Hh. lia. Qed.

Lemma healthy_outcome d : healthy io d -> outcome io d = Done.
Proof. intros Hh. by apply Hh. Qed.

Lemma spool_lines_tick records lines : forall d,
  ad_tick (spool_lines records lines d).1 = ad_tick d.
Proof.
  revert records. induction lines as [|[l|err] lines IH]; intros records d; cbn; [done| |done].
  destruct (str_is_empty _); [apply IH|]. destruct (record_parse l); [apply IH|].
  apply (IH records (count_dropped d)).
Qed.

Lemma find_event_id_total id ls : exists r, find_event_id id (map Ok ls) = Ok r.
Proof.
  induction ls as [|l ls IH]; cbn; [by exists false|]. case_bool_decide; [by exists true|done].
Qed.

Lemma contains_healthy max es ps rs d id :
  events_ok es -> spool_inv max es ps rs d -> healthy io d ->
  exists r, contains_event_id io id d = (ticked d, Ok r).
Proof.
  intros [Ht _] Hinv Hh. unfold contains_event_id. rewrite healthy_outcome by done.
  rewrite (si_primary _ _ _ _ _ Hinv). cbn [seen_lines]. rewrite log_lines.
  - destruct (find_event_id_total id (map (fun e => str_of_bytes (event_bytes e)) ps)) as [r ->].
    by exists r.
  - eapply Forall_impl; [apply Hinv|]. intros e He. by eapply Forall_forall in Ht.
Qed.

Lemma replay_healthy max es rs records : forall ps d,
  events_ok es -> spool_inv max es ps rs d -> Forall (fun r => sr_event r ∈ es) records ->
  healthy io d -> exists d', replay io records d = (d', None) /\ (ad_tick d <= ad_tick d')%nat.
Proof.
  induction records as [|r records IH]; intros ps d Hok Hinv Hin Hh; cbn [replay]; [by exists d|].
  apply Forall_cons in Hin as [He Hin].
  destruct (contains_healthy _ _ _ _ _ (event_id (sr_event r)) Hok Hinv Hh) as [found Hc].
  destruct (contains_spec _ _ _ _ _ _ _ _ _ Hok Hinv Hc) as [Hsf Hfound]. rewrite Hc.
  pose proof (inv_files _ _ _ _ _ _ Hinv Hsf) as Hinv1.
  assert (healthy io (ticked d)) as Hh1 by (eapply healthy_later; [|done]; cbn; lia). destruct found.
  - destruct (IH ps (ticked d) Hok Hinv1 Hin Hh1) as (d' & -> & Ht). exists d'. cbn in Ht.
    split; [done|lia].
  - destruct (primary_write_event io (sr_event r) (ticked d)) as [d2 w] eqn:Hw.
    assert (event_id (sr_event r) ∉ map event_id ps) as Hfresh
      by (intros Hx; by apply Hfound in Hx).
    pose proof (primary_write_spec _ _ _ _ _ _ _ _ Hinv1 He Hfresh Hw) as Hps.
    unfold primary_write_event in Hw. rewrite healthy_outcome in Hw by done. injection Hw as <- <-.
    set (d2 := with_primary _ (ticked d)) in *.
    assert (spool_inv max es (ps ++ [sr_event r]) rs (count_replayed d2)) as Hinv2
      by (by apply (inv_files _ _ _ _ _ _ Hps)).
    assert (healthy io (count_replayed d2)) as Hh2 by (eapply healthy_later; [|exact Hh1]; cbn; lia).
    destruct (IH _ _ Hok Hinv2 Hin Hh2) as (d' & -> & Ht). exists d'. cbn in Ht. split; [done|lia].
Qed.

Lemma write_metrics_tick d : (ad_tick d <= ad_tick (write_metrics_snapshot io clock paths d))%nat.
Proof.
  unfold write_metrics_snapshot, metrics_snapshot, oldest_spool_age_seconds.
  destruct (has_metrics_path paths); [|done].
  pose proof (spool_lines_tick [] (seen_lines (outcome io d) (spool d)) (ticked d)) as Hs.
  unfold read_spool_records. destruct (spool_lines _ _ _) as [d' r]. cbn in *. lia.
Qed.

(** A flush that meets no failure succeeds, which by [flush_spec] empties the
    spool. *)
Lemma flush_healthy max es ps rs d :
  events_ok es -> spool_inv max es ps rs d -> healthy io d ->
  exists d', flush_spool io clock paths d = (d', Ok tt) /\ (ad_tick d <= ad_tick d')%nat.
Proof.
  intros Hok Hinv Hh. unfold flush_spool.
  destruct (read_spool_records io d) as [d1 rr] eqn:Hr.
  assert (ad_tick d1 = S (ad_tick d)) as Ht1.
  { pose proof (spool_lines_tick [] (seen_lines (outcome io d) (spool d)) (ticked d)) as Hs.
    unfold read_spool_records in Hr. by rewrite Hr in Hs. }
  destruct (read_spool_spec _ _ _ _ _ _ _ _ Hinv Hr) as (Hsf & _ & Hdone).
  rewrite (Hdone (healthy_outcome d Hh)). pose proof (inv_files _ _ _ _ _ _ Hinv Hsf) as Hinv1.
  destruct rs as [|r0 rs].
  { eexists. split; [done|]. pose proof (write_metrics_tick d1). lia. }
  assert (Forall (fun r => sr_event r ∈ es) (r0 :: rs)) as Hin.
  { eapply Forall_impl; [apply Hinv|]. by intros ? []. }
  assert (healthy io d1) as Hh1 by (eapply healthy_later; [|done]; lia).
  destruct (replay_healthy _ _ _ _ _ _ Hok Hinv1 Hin Hh1) as (d2 & -> & Ht2).
  unfold rewrite_spool. rewrite healthy_outcome by (eapply healthy_later; [|exact Hh1]; lia).
  eexists. split; [done|]. etrans; [|apply write_metrics_tick]. cbn. lia.
Qed.
(** *** Writing *)

Lemma enqueue_spec `{!TimeUtf8} es ps rs d d' r e :
  events_ok es -> spool_inv (spool_max_events paths) es ps rs d -> e ∈ es ->
  (event_id e ∉ map (fun r => event_id (sr_event r)) rs) ->
  enqueue_spool io clock paths e d = (d', r) ->
  exists rs', spool_inv (spool_max_events paths) es ps rs' d' /\
    (forall x, kept ps rs x -> kept ps rs' x) /\ (r = Ok tt -> e ∈ map sr_event rs').
Proof.
  intros Hok Hinv He Hfresh Hq. unfold enqueue_spool, spool_event_count in Hq.
  destruct (read_spool_records io d) as [d1 rr] eqn:Hr.
  destruct (read_spool_spec _ _ _ _ _ _ _ _ Hinv Hr) as (Hsf & Hrec & _).
  pose proof (inv_files _ _ _ _ _ _ Hinv Hsf) as Hinv1.
  destruct rr as [records|err]; [|injection Hq as <- <-; exists rs; by split_and!].
  specialize (Hrec _ eq_refl) as ->. destruct (Z.leb_spec (spool_max_events paths)
    (Z.of_nat (length rs))) as [|Hroom].
  { injection Hq as <- <-. exists rs. split_and!; try done.
    apply (inv_files _ _ _ _ _ _ Hinv1), (write_metrics_files io clock paths (count_dropped d1)). }
  set (record := {| queued_at := _; sr_event := e |}) in Hq.
  destruct (outcome io (ticked d1)) as [|err w n] eqn:Ho; cbn in Hq; injection Hq as <- <-.
  2: { exists rs. split_and!; try done. apply (inv_files _ _ _ _ _ _ Hinv1).
       rewrite (Hclean _ _ _ _ Ho). split; [done|]. apply app_nil_r. }
  exists (rs ++ [record]). split_and!.
  - eapply inv_files; [|apply write_metrics_files]. destruct Hinv1 as [Hp Hs Hl Hrs Hn Hsn Hb].
    split; cbn; try done.
    + rewrite Hs. unfold spool_file. rewrite flat_map_app. cbn. by rewrite app_nil_r.
    + apply Forall_app_2; [done|]. constructor; [|done]. split; [|done]. split; [|apply rfc3339_format_utf8].
      destruct Hok as [Ht _]. by eapply Forall_forall in Ht.
    + rewrite map_app, NoDup_app. split_and!; [done| |apply NoDup_singleton]. set_solver.
    + rewrite length_app. cbn. lia.
  - intros x [Hx|Hx]; [by left|right]. rewrite map_app. set_solver.
  - intros _. rewrite map_app. set_solver.
Qed.

Lemma inv_ids max es ps rs d :
  spool_inv max es ps rs d ->
  (forall i, i ∈ map event_id ps -> i ∈ map event_id es) /\
  (forall i, i ∈ map (fun r => event_id (sr_event r)) rs -> i ∈ map event_id es).
Proof.
  intros Hinv. pose proof (proj1 (Forall_forall _ _) (si_log _ _ _ _ _ Hinv)) as Hl.
  pose proof (proj1 (Forall_forall _ _) (si_records _ _ _ _ _ Hinv)) as Hr. split.
  - intros i (e & -> & He)%list_elem_of_fmap. apply (list_elem_of_fmap_2 event_id). auto.
  - intros i (r & -> & Hin)%list_elem_of_fmap. apply (list_elem_of_fmap_2 event_id). by apply Hr.
Qed.

(** A new event is kept if the write succeeds, and nothing is lost. *)
Lemma write_event_spec `{!TimeUtf8} es ps rs d d' r e :
  events_ok (es ++ [e]) -> spool_inv (spool_max_events paths) es ps rs d ->
  write_event io clock paths e d = (d', r) ->
  exists ps' rs', spool_inv (spool_max_events paths) (es ++ [e]) ps' rs' d' /\
    (forall x, kept ps rs x -> kept ps' rs' x) /\ (r = Ok tt -> kept ps' rs' e) /\
    (healthy io d -> r = Ok tt /\ rs' = []).
Proof.
  intros Hok Hinv Hw. unfold write_event in Hw.
  assert (events_ok es /\ event_id e ∉ map event_id es) as [Hok0 Hnew].
  { destruct Hok as [Ht Hids]. rewrite Forall_app in Ht. rewrite map_app, NoDup_app in Hids.
    split; [split; tauto|]. intros Hx. destruct Hids as (_ & Hd & _). apply (Hd _ Hx). set_solver. }
  destruct (flush_spool io clock paths d) as [d1 fr] eqn:Hf.
  destruct (flush_spec _ _ _ _ _ _ _ Hok0 Hinv Hf) as (ps1 & rs1 & Hinv1 & Hk1 & _ & Hnil).
  assert (healthy io d -> outcome io d1 = Done /\ rs1 = []) as Hh.
  { intros Hh. destruct (flush_healthy _ _ _ _ _ Hok0 Hinv Hh) as (dx & Hdx & Htx).
    rewrite Hf in Hdx. injection Hdx as <- ->. split; [|auto].
    by apply healthy_outcome, (healthy_later d). }
  destruct (inv_ids _ _ _ _ _ Hinv1) as [Hpi Hri]. apply (inv_more _ _ _ _ _ e) in Hinv1.
  assert (e ∈ es ++ [e]) as He by set_solver.
  destruct (primary_write_event io e d1) as [d2 w] eqn:Hp.
  pose proof (primary_write_spec _ _ _ _ _ _ _ _ Hinv1 He (fun H => Hnew (Hpi _ H)) Hp) as Hps.
  destruct w as [u|err].
  - injection Hw as <- <-. exists (ps1 ++ [e]), rs1. split_and!.
    + apply (inv_files _ _ _ _ _ _ Hps), write_metrics_files.
    + intros x [Hx|Hx]%Hk1; [left; set_solver|by right].
    + intros _. left. set_solver.
    + intros Hhd. by destruct (Hh Hhd) as [_ ->].
  - pose proof (inv_files _ _ _ _ _ _ Hinv1 Hps) as Hinv2.
    destruct (enqueue_spec _ _ _ _ _ _ _ Hok Hinv2 He (fun H => Hnew (Hri _ H)) Hw)
      as (rs2 & Hinv3 & Hk & Hin).
    exists ps1, rs2. split_and!; [done|by auto|intros Hr; right; auto|].
    intros [Ho _]%Hh. unfold primary_write_event in Hp. by rewrite Ho in Hp.
Qed.

End steps.
End lines.
