(* ===== verification/AuditSpoolProperties.v ===== *)
(** * AuditSpoolProperties: what the audit writer guarantees

    An acknowledged event stays in the log or the spool, the log has no event
    twice, and the spool is bounded and empties once the log can be written;
    the guarantees need that a failed append leaves nothing behind. *)

From stdpp Require Import countable.
From S2P Require Import Prelude Text External Wire AgentConfig Authz Server ServerProofs.
From S2P Require Import AuditSpool AuditSpoolLemmas.
Import Toy.

(** ** Instances

    Events are written as binary digits between braces. *)

Fixpoint toy_bits (p : positive) : string :=
  match p with
  | xH => "}"
  | xO q => String "0" (toy_bits q)
  | xI q => String "1" (toy_bits q)
  end.

Fixpoint toy_unbits (s : string) : option positive :=
  match s with
  | String "}" EmptyString => Some xH
  | String "0" s' => xO <$> toy_unbits s'
  | String "1" s' => xI <$> toy_unbits s'
  | _ => None
  end.

Definition toy_bool (b : bool) : string := if b then "t" else "f".

(** The members of an event as optional texts, and back. *)
Definition event_members (e : AgentAuditEvent) : list (option string) :=
  [Some (event_id e); Some (ts e); Some (event e); ev_request_id e; root_request_id e;
   peer_request_id e; path_target_endpoint_id e; ev_remote_endpoint_id e; ev_method e;
   params_hash e; nonce_hash e; toy_bool <$> ev_allowed e; toy_bool <$> ev_ok e; error_code e;
   toy_format <$> ev_duration_ms e; toy_format <$> response_bytes e; stage e; reason e;
   result_class e; toy_format <$> ev_suppressed_count e; limit_key e; ev_resource e].

Definition event_of_members (l : list (option string)) : option AgentAuditEvent :=
  match l with
  | [Some a; Some b; Some c; d; e; f; g; h; i; j; k; l; m; n; o; p; q; r; s; t; u; v] =>
      Some (mkAgentAuditEvent a b c d e f g h i j k (String.eqb "t" <$> l) (String.eqb "t" <$> m) n
              (o ≫= toy_parse) (p ≫= toy_parse) q r s (t ≫= toy_parse) u v)
  | _ => None
  end.

Definition toy_line (l : list (option string)) : string := String "{" (toy_bits (encode l)).
Definition toy_unline (s : string) : option (list (option string)) :=
  match s with String "{" t => p ← toy_unbits t; decode p | _ => None end.

#[export] Instance toy_audit_json : AuditJson := {|
  event_bytes e := str_bytes (toy_line (event_members e));
  line_event_id s := l ← toy_unline s; event_id <$> event_of_members l;
  record_bytes r := str_bytes (toy_line (Some (queued_at r) :: event_members (sr_event r)));
  record_parse s :=
    l ← toy_unline s;
    match l with
    | Some q :: l => e ← event_of_members l; Some {| queued_at := q; sr_event := e |}
    | _ => None
    end;
|}.

Lemma toy_unbits_bits p : toy_unbits (toy_bits p) = Some p.
Proof. induction p as [p IH|p IH|]; cbn; rewrite ?IH; done. Qed.

Lemma toy_members e : event_of_members (event_members e) = Some e.
Proof.
  pose proof rfc3339_parse_format as Ht. cbn [rfc3339_parse rfc3339_format toy_time_ops] in Ht.
  assert (forall o : option Z, (toy_format <$> o) ≫= toy_parse = o) as Hz by (by intros [x|]; cbn).
  assert (forall o : option bool, String.eqb "t" <$> (toy_bool <$> o) = o) as Hb by (by intros [[]|]).
  unfold event_members, event_of_members. rewrite !Hz, !Hb. by destruct e.
Qed.

(** ASCII without line breaks that ends in a brace. *)
Definition toy_closed (s : string) : Prop :=
  Forall (fun b => b < 128) (str_bytes s) /\ (10 ∉ str_bytes s) /\ last (str_bytes s) = Some 125.

Lemma toy_closed_cons c s :
  byte_of c < 128 -> byte_of c <> 10 -> toy_closed s -> toy_closed (String c s).
Proof.
  intros Hc Hn (I1 & I2 & I3). unfold toy_closed.
  change (str_bytes (String c s)) with (byte_of c :: str_bytes s).
  split; [by constructor|]. split; [set_solver|]. by rewrite last_cons, I3.
Qed.

Lemma toy_bits_closed p : toy_closed (toy_bits p).
Proof.
  induction p as [p IH|p IH|]; [by apply toy_closed_cons..|].
  split; [by repeat constructor|]. split; [cbn; set_solver|done].
Qed.

Lemma toy_json_text p : json_text (String "{" (toy_bits p)).
Proof.
  destruct (toy_closed_cons "{" _ eq_refl ltac:(done) (toy_bits_closed p)) as (I1 & I2 & I3).
  split; [by apply utf8_valid_ascii|]. eauto.
Qed.

Lemma toy_unline_line l : toy_unline (toy_line l) = Some l.
Proof.
  unfold toy_unline, toy_line. rewrite toy_unbits_bits. cbn [mbind option_bind]. apply decode_encode.
Qed.

#[export] Instance toy_audit_json_laws : AuditJsonLaws.
Proof.
  split.
  - intros e _. exists (toy_line (event_members e)). split; [done|]. split; [apply toy_json_text|].
    cbn [line_event_id toy_audit_json]. rewrite toy_unline_line. cbn [mbind option_bind].
    by rewrite toy_members.
  - intros r _. eexists. split; [done|]. split; [apply toy_json_text|].
    cbn [record_parse toy_audit_json]. rewrite toy_unline_line. cbn [mbind option_bind].
    rewrite toy_members. by destruct r.
Qed.

Lemma toy_format_pos_ascii p : Forall (fun b => b < 128) (str_bytes (toy_format_pos p)).
Proof. induction p as [p IH|p IH|]; [constructor; [done|exact IH]..|by repeat constructor]. Qed.

#[export] Instance toy_time_utf8 : TimeUtf8.
Proof.
  split. intros t. apply utf8_valid_ascii. destruct t as [|p|p]; [by repeat constructor|..];
    (constructor; [done|apply toy_format_pos_ascii]).
Qed.

(** ** Runs *)

Inductive WriterAction := Submit (e : AgentAuditEvent) | Work.

Definition new_writer : JsonlAuditWriter :=
  {| aw_queue := [];
     aw_durability := {| primary := []; spool := []; metrics_file := None;
       ad_metrics := {| am_queued := 0; am_dropped := 0; am_replayed := 0; am_flush_failures := 0 |};
       ad_tick := 0 |};
     aw_acks := []; aw_next := 0 |}.

Definition submitted (acts : list WriterAction) : list AgentAuditEvent :=
  omap (fun a => match a with Submit e => Some e | Work => None end) acts.

Section writer.
Context `{TimeOps, AuditJson}.
Context (io : nat -> IoOutcome) (clock : nat -> Z) (paths : AuditPaths) (capacity : Z).

(** A run of the writer with the events that its queue accepted, in order. *)
Fixpoint run_writer (acts : list WriterAction) (w : JsonlAuditWriter)
    (accepted : list AgentAuditEvent) : JsonlAuditWriter * list AgentAuditEvent :=
  match acts with
  | [] => (w, accepted)
  | Submit e :: rest =>
      let '(w, r) := enqueue capacity e w in
      run_writer rest w (match r with Ok _ => accepted ++ [e] | Err _ => accepted end)
  | Work :: rest => run_writer rest (worker_step io clock paths w) accepted
  end.

(** The first [k] accepted events were written or refused, the others wait. *)
Record writer_inv (k : nat) (ps : list AgentAuditEvent) (rs : list SpoolRecord)
    (accepted : list AgentAuditEvent) (w : JsonlAuditWriter) : Prop := {
  wi_next : aw_next w = length accepted;
  wi_queue : aw_queue w = zip (seq k (length accepted - k)) (drop k accepted);
  wi_acks : map fst (aw_acks w) = seq 0 k;
  wi_k : (k <= length accepted)%nat;
  wi_bound : Z.of_nat (length (aw_queue w)) <= capacity;
  wi_files : spool_inv (spool_max_events paths) (take k accepted) ps rs (aw_durability w);
  wi_kept n e : (n, Ok tt) ∈ aw_acks w -> accepted !! n = Some e -> kept ps rs e;
}.

Section run.
Context `{!AuditJsonLaws, !TimeUtf8} (Hclean : clean io).

Lemma zip_seq_snoc {A} (l : list A) x k :
  (k <= length l)%nat ->
  zip (seq k (length l - k)) (drop k l) ++ [(length l, x)]
  = zip (seq k (length (l ++ [x]) - k)) (drop k (l ++ [x])).
Proof.
  intros Hk. rewrite length_app, drop_app_le by done. cbn [length].
  replace (length l + 1 - k)%nat with (length l - k + 1)%nat by lia.
  rewrite seq_app, zip_with_app by (rewrite length_seq, length_drop; done).
  cbn. by replace (k + (length l - k))%nat with (length l) by lia.
Qed.

Lemma enqueue_inv k ps rs accepted w w' r e :
  writer_inv k ps rs accepted w -> enqueue capacity e w = (w', r) ->
  writer_inv k ps rs (match r with Ok _ => accepted ++ [e] | Err _ => accepted end) w'.
Proof.
  intros Hinv He. unfold enqueue in He.
  destruct (Z.leb_spec capacity (Z.of_nat (length (aw_queue w)))) as [|Hlt].
  { by injection He as <- <-. }
  injection He as <- <-. destruct Hinv as [Hn Hq Ha Hk Hb Hf Hkept]. split; cbn.
  - rewrite length_app. cbn. lia.
  - rewrite Hq, Hn. by apply zip_seq_snoc.
  - done.
  - rewrite length_app. lia.
  - rewrite length_app. cbn. lia.
  - by rewrite take_app_le.
  - intros n x Hin Hx. apply (Hkept n); [done|].
    assert (n ∈ seq 0 k) as Hseq by (rewrite <- Ha; apply (list_elem_of_fmap_2 fst _ (n, Ok tt) Hin)).
    apply elem_of_seq in Hseq. by rewrite lookup_app_l in Hx by lia.
Qed.

Lemma events_ok_take k es : events_ok es -> events_ok (take k es).
Proof.
  intros [Ht Hn]. split; [by apply Forall_take|]. rewrite <- firstn_map.
  rewrite <- (take_drop k (map event_id es)) in Hn. by apply NoDup_app in Hn as (? & _).
Qed.

Lemma worker_inv k ps rs accepted w :
  events_ok accepted -> writer_inv k ps rs accepted w ->
  exists k' ps' rs', writer_inv k' ps' rs' accepted (worker_step io clock paths w) /\
    (healthy io (aw_durability w) -> rs' = [] /\
       forall n e rest, aw_queue w = (n, e) :: rest ->
         aw_acks (worker_step io clock paths w) = aw_acks w ++ [(n, Ok tt)] /\
         aw_queue (worker_step io clock paths w) = rest).
Proof.
  intros Hok [Hn Hq Ha Hk Hb Hf Hkept]. unfold worker_step.
  destruct (aw_queue w) as [|[n e] rest] eqn:Eq.
  - destruct (flush_spool io clock paths (aw_durability w)) as [d r] eqn:Hfl.
    destruct (flush_spec _ _ _ Hclean _ _ _ _ _ _ _ (events_ok_take k _ Hok) Hf Hfl)
      as (ps' & rs' & Hf' & Hmono & _ & Hnil). exists k, ps', rs'. split; [split; cbn; eauto|].
    intros Hh. split; [|done]. apply Hnil.
    destruct (flush_healthy io clock paths Hclean _ _ _ _ _ (events_ok_take k _ Hok) Hf Hh) as (dx & Hdx & _).
    rewrite Hfl in Hdx. by injection Hdx.
  - destruct (drop k accepted) as [|x xs] eqn:Ed; [by destruct (seq _ _)|].
    destruct (length accepted - k)%nat as [|m] eqn:Em; [done|]. cbn in Hq. injection Hq as -> -> ->.
    assert (accepted !! k = Some x) as Hx by (by rewrite <- (Nat.add_0_r k), <- lookup_drop, Ed).
    destruct (write_event io clock paths x (aw_durability w)) as [d r] eqn:Hw.
    pose proof (take_S_r _ _ _ Hx) as HtS.
    assert (events_ok (take k accepted ++ [x])) as Hok' by (rewrite <- HtS; by apply events_ok_take).
    destruct (write_event_spec _ _ _ Hclean _ _ _ _ _ _ _ Hok' Hf Hw)
      as (ps' & rs' & Hf' & Hmono & Hnew & Hh). exists (S k), ps', rs'. split.
    2: { intros [-> ->]%Hh. split; [done|]. by intros ? ? ? [= -> -> ->]. }
    split; cbn.
    + done.
    + replace (length accepted - S k)%nat with m by lia. f_equal.
      by rewrite <- Nat.add_1_r, <- drop_drop, Ed.
    + change (0%nat :: seq 1 k) with (seq 0 (S k)). by rewrite map_app, Ha, seq_S.
    + lia.
    + cbn in Hb. lia.
    + by rewrite HtS.
    + intros i y [Hin|Hin%list_elem_of_singleton]%elem_of_app Hy; [eauto|].
      injection Hin as -> <-. rewrite Hx in Hy. injection Hy as <-. auto.
Qed.

Lemma events_ok_sub es e more : events_ok (es ++ e :: more) -> events_ok (es ++ more).
Proof.
  intros [Ht Hn]. rewrite Forall_app, Forall_cons in Ht. rewrite map_app in *.
  apply NoDup_app in Hn as (Hn1 & Hd & [_ Hn2]%NoDup_cons).
  split; [apply Forall_app; tauto|]. rewrite map_app. apply NoDup_app. split_and!; [done| |done].
  intros x Hx Hm. apply (Hd x Hx). cbn. set_solver.
Qed.

Lemma run_writer_inv acts : forall k ps rs w accepted w' accepted',
  events_ok (accepted ++ submitted acts) -> writer_inv k ps rs accepted w ->
  run_writer acts w accepted = (w', accepted') ->
  exists k' ps' rs', writer_inv k' ps' rs' accepted' w' /\ events_ok accepted'.
Proof.
  induction acts as [|[e|] acts IH]; intros k ps rs w accepted w' accepted' Hok Hinv Hrun;
    cbn [run_writer submitted omap list_omap] in *.
  - injection Hrun as <- <-. rewrite app_nil_r in Hok. eauto.
  - destruct (enqueue capacity e w) as [w1 r] eqn:He.
    pose proof (enqueue_inv _ _ _ _ _ _ _ _ Hinv He) as Hinv1.
    eapply IH; [|exact Hinv1|exact Hrun]. destruct r; [by rewrite <- app_assoc|].
    by eapply events_ok_sub.
  - assert (events_ok accepted) as Hok0.
    { rewrite <- (app_nil_r accepted), <- (take_app_length accepted (submitted acts)), app_nil_r.
      by apply events_ok_take. }
    destruct (worker_inv _ _ _ _ _ Hok0 Hinv) as (k1 & ps1 & rs1 & Hinv1 & _). eauto.
Qed.

Lemma new_writer_inv : 0 <= capacity -> 0 <= spool_max_events paths -> writer_inv 0 [] [] [] new_writer.
Proof.
  intros Hc Hm. split; cbn; [done|done|done|lia|done| |set_solver].
  split; [done|done|constructor|constructor|constructor|constructor|done].
Qed.

(** The lists of a coherent state as seen by a reader of the files. *)
Lemma kept_readable max es ps rs d e :
  events_ok es -> spool_inv max es ps rs d -> kept ps rs e -> logged e d \/ spooled e d.
Proof.
  intros [Ht _] Hinv Hk. assert (Forall event_text ps) as Hps.
  { eapply Forall_impl; [apply Hinv|]. intros x Hx. by eapply Forall_forall in Ht. }
  assert (Forall record_text rs) as Hrs by (eapply Forall_impl; [apply Hinv|]; by intros ? []).
  destruct Hk as [He|(r & -> & Hr)%list_elem_of_fmap].
  - left. exists (str_of_bytes (event_bytes e)).
    rewrite (si_primary _ _ _ _ _ Hinv), log_lines by done. split.
    + rewrite map_map. apply list_elem_of_fmap. by exists e.
    + eapply Forall_forall in Hps; [|exact He]. by destruct (event_line_of e Hps) as (<- & _).
  - right. exists (str_of_bytes (record_bytes r)), r.
    rewrite (si_spool _ _ _ _ _ Hinv), spool_lines_of by done. split.
    + rewrite map_map. apply list_elem_of_fmap. by exists r.
    + eapply Forall_forall in Hrs; [|exact Hr]. by destruct (record_line_of r Hrs) as (_ & _ & ->).
Qed.

(** No line of the log is there twice. *)
Lemma log_once max es ps rs d :
  events_ok es -> spool_inv max es ps rs d -> NoDup (buf_lines (primary d)).
Proof.
  intros [Ht _] Hinv. assert (Forall event_text ps) as Hps.
  { eapply Forall_impl; [apply Hinv|]. intros x Hx. by eapply Forall_forall in Ht. }
  rewrite (si_primary _ _ _ _ _ Hinv), log_lines by done. apply NoDup_fmap; [by intros ?? [=]|].
  pose proof (si_once _ _ _ _ _ Hinv) as Hn. clear Hinv. induction Hps as [|e ps He Hps IH]; cbn in *.
  { constructor. }
  apply NoDup_cons in Hn as [Hni Hn]. constructor; [|auto].
  intros (e' & Heq & Hin)%list_elem_of_fmap. apply Hni. apply list_elem_of_fmap. exists e'.
  split; [|done]. eapply Forall_forall in Hps; [|exact Hin].
  destruct (event_line_of e He) as (_ & _ & Hi1), (event_line_of e' Hps) as (_ & _ & Hi2). congruence.
Qed.
End run.

Lemma acked_durable `{!AuditJsonLaws, !TimeUtf8} acts w accepted n e :
  clean io -> 0 <= capacity -> 0 <= spool_max_events paths ->
  Forall event_text (submitted acts) -> NoDup (map event_id (submitted acts)) ->
  run_writer acts new_writer [] = (w, accepted) ->
  (n, Ok tt) ∈ aw_acks w -> accepted !! n = Some e ->
  logged e (aw_durability w) \/ spooled e (aw_durability w).
Proof.
  intros Hclean Hc Hm Ht Hids Hrun Hin He.
  destruct (run_writer_inv Hclean acts 0 [] [] new_writer [] w accepted)
    as (k & ps & rs & [_ _ _ _ _ Hf Hkept] & Hok); [by split|by apply new_writer_inv|done|].
  eapply kept_readable; [by apply (events_ok_take k)|done|eauto].
Qed.

(** C21: an acknowledged audit event is durable.  In every run of the audit writer,
    with any pattern of failing files in which a failed append leaves nothing
    behind, every event whose write was acknowledged is in the log or in the
    spool; the commands are answered in the order in which the queue accepted
    them and none is lost; no line is in the log twice; and the queue and the
    spool stay within their bounds. *)
Theorem acknowledged_events_durable `{!AuditJsonLaws, !TimeUtf8} acts w accepted :
  clean io -> 0 <= capacity -> 0 <= spool_max_events paths ->
  Forall event_text (submitted acts) -> NoDup (map event_id (submitted acts)) ->
  run_writer acts new_writer [] = (w, accepted) ->
  (forall n e, (n, Ok tt) ∈ aw_acks w -> accepted !! n = Some e ->
     logged e (aw_durability w) \/ spooled e (aw_durability w)) /\
  (exists k, map fst (aw_acks w) = seq 0 k /\ map snd (aw_queue w) = drop k accepted) /\
  NoDup (buf_lines (primary (aw_durability w))) /\
  Z.of_nat (length (buf_lines (spool (aw_durability w)))) <= spool_max_events paths /\
  Z.of_nat (length (aw_queue w)) <= capacity.
Proof.
  intros Hclean Hc Hm Ht Hids Hrun.
  destruct (run_writer_inv Hclean acts 0 [] [] new_writer [] w accepted)
    as (k & ps & rs & [Hn Hq Ha Hk Hb Hf Hkept] & Hok); [by split|by apply new_writer_inv|done|].
  assert (events_ok (take k accepted)) as Hokk by by apply events_ok_take.
  split_and!; [|exists k| | |done].
  - intros n e Hin He. eapply acked_durable; eauto.
  - split; [done|]. rewrite Hq. apply snd_zip. rewrite length_seq, length_drop. done.
  - by eapply log_once.
  - rewrite (si_spool _ _ _ _ _ Hf), spool_lines_of, !length_map; [apply Hf|].
    eapply Forall_impl; [apply Hf|]. by intros ? [].
Qed.

(** C29: the spool empties once files can be written again.  From any state that a
    run reaches, if no access fails from then on, the next round of the worker
    leaves the spool empty and every acknowledged event in the log, each line
    once; a command that it takes is acknowledged as written. *)
Theorem spool_drains `{!AuditJsonLaws, !TimeUtf8} acts w accepted :
  clean io -> 0 <= capacity -> 0 <= spool_max_events paths ->
  Forall event_text (submitted acts) -> NoDup (map event_id (submitted acts)) ->
  run_writer acts new_writer [] = (w, accepted) -> healthy io (aw_durability w) ->
  let w' := worker_step io clock paths w in
  spool (aw_durability w') = [] /\ NoDup (buf_lines (primary (aw_durability w'))) /\
  (forall n e, (n, Ok tt) ∈ aw_acks w' -> accepted !! n = Some e -> logged e (aw_durability w')) /\
  (forall n e rest, aw_queue w = (n, e) :: rest ->
     aw_acks w' = aw_acks w ++ [(n, Ok tt)] /\ aw_queue w' = rest).
Proof.
  intros Hclean Hc Hm Ht Hids Hrun Hh w'.
  destruct (run_writer_inv Hclean acts 0 [] [] new_writer [] w accepted)
    as (k & ps & rs & Hinv & Hok); [by split|by apply new_writer_inv|done|].
  destruct (worker_inv Hclean _ _ _ _ _ Hok Hinv) as (k' & ps' & rs' & Hinv' & Hack).
  fold w' in Hinv', Hack. destruct (Hack Hh) as [-> Hstep].
  assert (events_ok (take k' accepted)) as Hokk by by apply events_ok_take.
  destruct Hinv' as [_ _ _ _ _ Hf Hkept]. split_and!.
  - apply Hf.
  - by eapply log_once.
  - intros n e Hin He. destruct (Hkept n e Hin He) as [Hps|Hx]; [|set_solver].
    destruct (kept_readable _ _ _ _ _ e Hokk Hf (or_introl Hps)) as [?|(l & r & Hl & _)]; [done|].
    rewrite (si_spool _ _ _ _ _ Hf) in Hl. set_solver.
  - done.
Qed.

(** ** Streams *)

Lemma stream_flag `{EndpointIdOps, Base64Ops, AgentBuild, !Codec} senv st remote input e b :
  AuditEvent e b ∈ (handle_bi_stream senv st remote input).1.2 -> b = se_audit_ok senv.
Proof.
  assert (forall st response ev mx,
    AuditEvent e b ∈ (audit_then_write_response senv st response ev mx).1.2 -> b = se_audit_ok senv)
    as Hw.
  { intros st0 response ev mx. unfold audit_then_write_response, write_response.
    destruct (fit_response senv response mx) as [[r' payload]|]; [|set_solver].
    unfold write_response_payload. repeat case_match; set_solver. }
  unfold handle_bi_stream. repeat case_match; apply Hw.
Qed.

Lemma audited_pair `{Codec} mx effects e b frame :
  audited mx effects -> AuditEvent e b ∈ effects -> ResponseFrame frame ∈ effects ->
  effects = [AuditEvent e b; ResponseFrame frame].
Proof.
  unfold audited. intros Ha He Hf. clear - Ha He Hf.
  destruct effects as [|[e0 b0|] [|[|frame'] [|]]]; try done;
    repeat rewrite elem_of_cons in He, Hf; rewrite ?elem_of_nil in He, Hf; try naive_solver.
  all: destruct b0; naive_solver.
Qed.

(** A client gets an answer only after its request is on record.  A stream
    reports success of the audit only if the writer acknowledged its event;
    then, of whatever frame the stream sends, either the event is in the log or
    the spool of the writer and describes that response (outcome, error code and
    size), or the frame is the error that auditing failed. *)
Theorem answered_requests_are_durable
    `{EndpointIdOps, Base64Ops, AgentBuild, !Codec, !AuditJsonLaws, !TimeUtf8}
    acts w accepted n e written senv st remote input frame :
  clean io -> 0 <= capacity -> 0 <= spool_max_events paths ->
  Forall event_text (submitted acts) -> NoDup (map event_id (submitted acts)) ->
  run_writer acts new_writer [] = (w, accepted) -> accepted !! n = Some e ->
  AuditEvent e written ∈ (handle_bi_stream senv st remote input).1.2 ->
  (se_audit_ok senv = true -> (n, Ok tt) ∈ aw_acks w) ->
  ResponseFrame frame ∈ (handle_bi_stream senv st remote input).1.2 ->
  let mx := max_response_bytes (security_of st) in
  ((logged e (aw_durability w) \/ spooled e (aw_durability w)) /\
   exists response payload, serialize_response response mx = Ok payload /\
     frame = response_frame payload /\ ev_ok e = Some (ok response) /\
     error_code e = response_error_code response /\
     response_bytes e = Some (Z.of_nat (length payload))) \/
  (exists now rid payload,
     serialize_response (error_response now rid AuditWriteFailed
       "failed to write agent audit event" json_empty) mx = Ok payload /\
     frame = response_frame payload).
Proof.
  intros Hclean Hc Hm Ht Hids Hrun Hn He Hack Hframe mx.
  pose proof (handle_bi_stream_audited_lemma senv st remote input) as Haud.
  pose proof (stream_flag _ _ _ _ _ _ He) as Hflag. fold mx in Haud.
  destruct (handle_bi_stream senv st remote input) as [[st' effs] r]. cbn [fst snd] in *.
  rewrite (audited_pair _ _ _ _ _ Haud He Hframe) in Haud. destruct written; [left|by right].
  destruct Haud as (response & payload & ? & ? & ? & _ & ? & ?). split; [|by exists response, payload].
  eapply acked_durable; eauto.
Qed.
End writer.

(** ** A torn append *)

Definition sample_event (id : string) : AgentAuditEvent :=
  mkAgentAuditEvent id "Z" "rpc_request" None None None None (Some "kctrl") None None None
    (Some true) (Some true) None (Some 3) (Some 1) (Some "dispatch") None None None None None.

(** The second access, which is the first append to the log, fails after some
    bytes. *)
Definition failing_io (bytes : nat) (t : nat) : IoOutcome :=
  if (t =? 1)%nat then Failed OtherIo bytes 0 else Done.

Definition sample_paths : AuditPaths := {| has_metrics_path := false; spool_max_events := 2 |}.

Definition sample_acts : list WriterAction :=
  [Submit (sample_event "a"); Work; Submit (sample_event "b"); Work].

(** An append that fails after some of its bytes loses an acknowledged event:
    the event goes to the spool, its replay continues the torn line, which no
    reader can parse, and the spool is emptied. *)
Lemma torn_append_loses_event :
  let w := (run_writer (failing_io 5) (fun _ => 0) sample_paths 8 sample_acts new_writer []).1 in
  aw_acks w = [(0%nat, Ok tt); (1%nat, Ok tt)] /\ spool (aw_durability w) = [] /\
  forallb (fun l => match l with
                    | Ok l => negb (bool_decide (line_event_id l = Some "a"))
                    | Err _ => true end) (buf_lines (primary (aw_durability w))) = true.
Proof. vm_compute. auto. Qed.

(** A line of the spool that is not a record is counted as dropped by every
    flush and every snapshot of the metrics, and stays: after [n] flushes of a
    spool with this line only, the counter is [2 n]. *)
Definition malformed_spool : AuditDurability :=
  {| primary := []; spool := [123; 10]; metrics_file := None;
     ad_metrics := {| am_queued := 0; am_dropped := 0; am_replayed := 0; am_flush_failures := 0 |};
     ad_tick := 0 |}.

Definition flushes (n : nat) (d : AuditDurability) : AuditDurability :=
  Nat.iter n (fun d => (flush_spool (fun _ => Done) (fun _ => 0)
                          {| has_metrics_path := true; spool_max_events := 2 |} d).1) d.

Lemma malformed_flush d :
  spool d = [123; 10] ->
  spool (flushes 1 d) = [123; 10] /\
  am_dropped (ad_metrics (flushes 1 d)) = fetch_add (fetch_add (am_dropped (ad_metrics d))).
Proof. destruct d as [p sp mf [q dr rp ff] t]. cbn [spool]. intros ->. by split. Qed.

Lemma malformed_line_counted_again n :
  Z.of_nat n < 2 ^ 62 ->
  spool (flushes n malformed_spool) = [123; 10] /\
  am_dropped (ad_metrics (flushes n malformed_spool)) = 2 * Z.of_nat n.
Proof.
  induction n as [|n IH]; intros Hn; [done|]. destruct IH as [Hs Hd]; [lia|].
  change (flushes (S n) malformed_spool) with (flushes 1 (flushes n malformed_spool)).
  destruct (malformed_flush _ Hs) as [-> ->]. split; [done|]. rewrite Hd. unfold fetch_add.
  rewrite (Z.mod_small (2 * Z.of_nat n + 1)) by lia. rewrite Z.mod_small by lia. lia.
Qed.

(** ** Witnesses *)

Lemma failing_io_clean : clean (failing_io 0).
Proof. intros t err w r. unfold failing_io. destruct (t =? 1)%nat; [|done]. by intros [= <- <- <-]. Qed.

Lemma acknowledged_events_durable_witness :
  exists w accepted,
    run_writer (failing_io 0) (fun _ => 0) sample_paths 8 (take 2 sample_acts) new_writer []
      = (w, accepted) /\ aw_acks w = [(0%nat, Ok tt)] /\
    (logged (sample_event "a") (aw_durability w) \/ spooled (sample_event "a") (aw_durability w)).
Proof.
  destruct (run_writer (failing_io 0) (fun _ => 0) sample_paths 8 (take 2 sample_acts) new_writer [])
    as [w accepted] eqn:E.
  assert (aw_acks w = [(0%nat, Ok tt)] /\ accepted = [sample_event "a"]) as [Ha Hacc].
  { assert (let r := run_writer (failing_io 0) (fun _ => 0) sample_paths 8 (take 2 sample_acts)
                       new_writer [] in
            aw_acks r.1 = [(0%nat, Ok tt)] /\ r.2 = [sample_event "a"]) as Hr by (vm_compute; auto).
    by rewrite E in Hr. }
  destruct (acknowledged_events_durable (failing_io 0) (fun _ => 0) sample_paths 8 (take 2 sample_acts)
              w accepted) as [Hd _].
  - exact failing_io_clean.
  - discriminate.
  - discriminate.
  - apply (bool_decide_eq_true_1 _). vm_compute. reflexivity.
  - apply NoDup_singleton.
  - exact E.
  - exists w, accepted. split; [done|]. split; [exact Ha|].
    apply (Hd 0%nat); [rewrite Ha; by left|by rewrite Hacc].
Defined.

Lemma spool_drains_witness :
  exists w accepted,
    run_writer (failing_io 0) (fun _ => 0) sample_paths 8 (take 2 sample_acts) new_writer []
      = (w, accepted) /\ spool (aw_durability w) <> [] /\
    spool (aw_durability (worker_step (failing_io 0) (fun _ => 0) sample_paths w)) = [] /\
    logged (sample_event "a")
      (aw_durability (worker_step (failing_io 0) (fun _ => 0) sample_paths w)).
Proof.
  destruct (run_writer (failing_io 0) (fun _ => 0) sample_paths 8 (take 2 sample_acts) new_writer [])
    as [w accepted] eqn:E.
  assert (spool (aw_durability w) <> [] /\ ad_tick (aw_durability w) = 5%nat /\
          accepted = [sample_event "a"] /\
          aw_acks (worker_step (failing_io 0) (fun _ => 0) sample_paths w) = [(0%nat, Ok tt)])
    as (Hne & Ht & Hacc & Ha).
  { assert (let r := run_writer (failing_io 0) (fun _ => 0) sample_paths 8 (take 2 sample_acts)
                       new_writer [] in
            spool (aw_durability r.1) <> [] /\ ad_tick (aw_durability r.1) = 5%nat /\
            r.2 = [sample_event "a"] /\
            aw_acks (worker_step (failing_io 0) (fun _ => 0) sample_paths r.1) = [(0%nat, Ok tt)])
      as Hr by (vm_compute; split_and!; done). by rewrite E in Hr. }
  destruct (spool_drains (failing_io 0) (fun _ => 0) sample_paths 8 (take 2 sample_acts) w accepted)
    as (Hs & _ & Hl & _).
  - exact failing_io_clean.
  - discriminate.
  - discriminate.
  - apply (bool_decide_eq_true_1 _). vm_compute. reflexivity.
  - apply NoDup_singleton.
  - exact E.
  - intros t Hle. rewrite Ht in Hle. unfold failing_io.
    destruct (Nat.eqb_spec t 1); [lia|done].
  - exists w, accepted. split; [done|]. split; [exact Hne|]. split; [exact Hs|].
    apply (Hl 0%nat); [rewrite Ha; by left|by rewrite Hacc].
Defined.

Definition stream_env : StreamEnv :=
  mkStreamEnv (sample_env 1000 5) "event-1" 1000 1000 2000 0 false true true.
Definition stream_input : list Z := [0; 0; 0; 0].
Definition stream_effects : list Effect :=
  (@handle_bi_stream _ _ _ _ sample_codec stream_env sample_state "kctrl" stream_input).1.2.
Definition stream_event : AgentAuditEvent :=
  match stream_effects with AuditEvent e _ :: _ => e | _ => sample_event EmptyString end.

Lemma answered_requests_are_durable_witness :
  exists frame, stream_effects = [AuditEvent stream_event true; ResponseFrame frame] /\
  exists w accepted,
    run_writer (failing_io 0) (fun _ => 0) sample_paths 8 [Submit stream_event; Work] new_writer []
      = (w, accepted) /\
    (logged stream_event (aw_durability w) \/ spooled stream_event (aw_durability w) \/
     exists now rid payload,
       @serialize_response sample_codec (error_response now rid AuditWriteFailed
         "failed to write agent audit event" json_empty)
         (max_response_bytes (security_of sample_state)) = Ok payload /\
       frame = response_frame payload).
Proof.
  assert (exists frame, stream_effects = [AuditEvent stream_event true; ResponseFrame frame])
    as [frame Heff] by (eexists; vm_compute; reflexivity).
  exists frame. split; [exact Heff|].
  destruct (run_writer (failing_io 0) (fun _ => 0) sample_paths 8 [Submit stream_event; Work]
              new_writer []) as [w accepted] eqn:E. exists w, accepted. split; [done|].
  assert (aw_acks w = [(0%nat, Ok tt)] /\ accepted = [stream_event]) as [Ha Hacc].
  { assert (let r := run_writer (failing_io 0) (fun _ => 0) sample_paths 8
                       [Submit stream_event; Work] new_writer [] in
            aw_acks r.1 = [(0%nat, Ok tt)] /\ r.2 = [stream_event]) as Hr by (vm_compute; auto).
    by rewrite E in Hr. }
  destruct (@answered_requests_are_durable _ _ (failing_io 0) (fun _ => 0) sample_paths 8 _ _ _
    sample_codec _ _ [Submit stream_event; Work] w accepted 0%nat stream_event true stream_env
    sample_state "kctrl" stream_input frame) as [[[Hl|Hs] _]|Hf].
  - exact failing_io_clean.
  - discriminate.
  - discriminate.
  - apply (bool_decide_eq_true_1 _). vm_compute. reflexivity.
  - apply NoDup_singleton.
  - exact E.
  - by rewrite Hacc.
  - fold stream_effects. rewrite Heff. by left.
  - intros _. rewrite Ha. by left.
  - fold stream_effects. rewrite Heff. right. by left.
  - by left.
  - by right; left.
  - by right; right.
Defined.
