(* ===== verification/Certificates.v ===== *)
(** * Certificates: the expiry reader of the agent
      (ocfleet-agent/src/ocserv/cert.rs)

    A certificate file is PEM or DER.  [DerReader] walks over the DER bytes to
    the validity field; its two times are cut out of a text by byte offsets.
    Cutting a text inside a character panics, so the functions that do it
    return an [attempt].  Reading the file is an argument. *)

From S2P Require Import Prelude Text External Wire AgentConfig.

(** ** Functions that return an option and may panic *)

Inductive attempt (A : Type) :=
| Got (a : A)
| Missing
| Panicked.
Arguments Got {A} _.
Arguments Missing {A}.
Arguments Panicked {A}.

Notation "'let^' x ':=' e 'in' k" :=
  (match e with Got x => k | Missing => Missing | Panicked => Panicked end)
  (at level 10, x pattern, e at level 100, k at level 200,
   format "'[v' 'let^'  x  ':='  e  'in' '//' k ']'") : fleet_scope.

Definition of_option {A} (o : option A) : attempt A :=
  match o with Some a => Got a | None => Missing end.

(** ** The time crate: dates, times of day and durations *)

Class CalendarOps := {
  Month : Type;
  Date : Type;
  Time : Type;
  month_try_from : Z -> option Month;
  from_calendar_date : Z -> Month -> Z -> option Date;
  from_hms : Z -> Z -> Z -> option Time;
  assume_utc : Date -> Time -> Z;
  whole_days : Z -> Z;
}.

(** ** The answer (ocfleet-protocol/src/ocserv.rs) *)

Inductive OcservCertStatus := Valid | ExpiringSoon | Expired | Unreadable | Invalid | Unknown.

Record OcservCertExpiry := mkOcservCertExpiry {
  ce_name : string;
  ce_not_before : option string;
  ce_not_after : option string;
  ce_days_remaining : option Z;
  ce_status : OcservCertStatus;
  ce_fingerprint_sha256 : option string;
}.

Definition is_valid_ocserv_name (value : string) : bool :=
  negb (str_is_empty value) && (str_len value <=? 64)
  && forallb (fun b => is_ascii_alphanumeric b || (b =? 46) || (b =? 95) || (b =? 45))
       (str_bytes value).

Record OcservReadonlyError := mkOcservReadonlyError { oe_code : ErrorCode; oe_message : string }.

Record ParsedCertificate := mkParsedCertificate {
  not_before : Z;
  not_after : Z;
  fingerprint_sha256 : string;
}.

(** ** The DER reader *)

Record DerReader := mkDerReader { dr_data : list Z; dr_position : Z }.

Definition der_new (data : list Z) : DerReader := mkDerReader data 0.

(** [data.get(i)] and [data.get(a..b)]. *)
Definition get_byte (data : list Z) (i : Z) : option Z := data !! Z.to_nat i.
Definition get_range (data : list Z) (a b : Z) : option (list Z) :=
  if (a <=? b) && (b <=? Z.of_nat (length data))
  then Some (take (Z.to_nat (b - a)) (drop (Z.to_nat a) data)) else None.

Definition advance (r : DerReader) (position : Z) : DerReader := mkDerReader (dr_data r) position.

Definition peek_tag (r : DerReader) : option Z := get_byte (dr_data r) (dr_position r).

(** The loop over the bytes of a long length; [length << 8] drops what leaves
    the 64 bits of [usize]. *)
Fixpoint read_length_bytes (count : nat) (len : Z) (r : DerReader) : option (Z * DerReader) :=
  match count with
  | O => Some (len, r)
  | S count' =>
      b ← get_byte (dr_data r) (dr_position r);
      read_length_bytes count' (Z.lor (Z.land (Z.shiftl len 8) u64_max) b)
        (advance r (dr_position r + 1))
  end.

Definition read_length (r : DerReader) : option (Z * DerReader) :=
  first ← get_byte (dr_data r) (dr_position r);
  let r := advance r (dr_position r + 1) in
  if Z.land first 128 =? 0 then Some (first, r)
  else
    let count := Z.land first 127 in
    if (count =? 0) || (4 <? count) then None
    else read_length_bytes (Z.to_nat count) 0 r.

Definition read_tlv (r : DerReader) : option ((Z * list Z) * DerReader) :=
  tag ← get_byte (dr_data r) (dr_position r);
  '(len, r) ← read_length (advance r (dr_position r + 1));
  end_ ← checked_add u64_max (dr_position r) len;
  value ← get_range (dr_data r) (dr_position r) end_;
  Some ((tag, value), advance r end_).

Definition read_any (r : DerReader) : option (list Z * DerReader) :=
  '((_, value), r) ← read_tlv r; Some (value, r).

Definition read_expected (expected_tag : Z) (r : DerReader) : option (list Z * DerReader) :=
  '((tag, value), r) ← read_tlv r;
  if tag =? expected_tag then Some (value, r) else None.

(** ** Times *)

Definition parse_u8 (value : list Z) : option Z := int_from_str 0 u8_max value.
Definition parse_i32 (value : list Z) : option Z := int_from_str (- 2 ^ 31) (2 ^ 31 - 1) value.

(** [parse_u8(&value[a..b])?]. *)
Definition u8_at (value : list Z) (a b : nat) : attempt Z :=
  match str_slice value a b with Some t => of_option (parse_u8 t) | None => Panicked end.

Definition ends_with_z (value : list Z) : bool :=
  match last value with Some b => b =? 90 | None => false end.

Section reader.
Context `{CalendarOps, TimeOps, Sha256Ops, Base64Standard}.

Definition parse_datetime (year month day hour minute second : Z) : option Z :=
  month ← month_try_from month;
  date ← from_calendar_date year month day;
  time ← from_hms hour minute second;
  Some (assume_utc date time).

Definition parse_utc_time (value : list Z) : attempt Z :=
  if negb (length value =? 13)%nat || negb (ends_with_z value) then Missing
  else
    let^ year := u8_at value 0 2 in
    let year := if 50 <=? year then 1900 + year else 2000 + year in
    let^ month := u8_at value 2 4 in
    let^ day := u8_at value 4 6 in
    let^ hour := u8_at value 6 8 in
    let^ minute := u8_at value 8 10 in
    let^ second := u8_at value 10 12 in
    of_option (parse_datetime year month day hour minute second).

Definition parse_generalized_time (value : list Z) : attempt Z :=
  if negb (length value =? 15)%nat || negb (ends_with_z value) then Missing
  else
    let^ year := match str_slice value 0 4 with
                 | Some t => of_option (parse_i32 t) | None => Panicked end in
    let^ month := u8_at value 4 6 in
    let^ day := u8_at value 6 8 in
    let^ hour := u8_at value 8 10 in
    let^ minute := u8_at value 10 12 in
    let^ second := u8_at value 12 14 in
    of_option (parse_datetime year month day hour minute second).

Definition read_time (r : DerReader) : attempt (Z * DerReader) :=
  let^ p := of_option (read_tlv r) in
  let '((tag, value), r) := p in
  if negb (utf8_valid value) then Missing
  else
    let^ t := (if tag =? 23 then parse_utc_time value
               else if tag =? 24 then parse_generalized_time value
               else Missing) in
    Got (t, r).

Definition parse_der_validity (der : list Z) : attempt (Z * Z) :=
  let^ p := of_option (read_expected 48 (der_new der)) in
  let^ p := of_option (read_expected 48 (der_new p.1)) in
  let tbs := der_new p.1 in
  let^ tbs := of_option (if bool_decide (peek_tag tbs = Some 160)
                         then '(_, r) ← read_any tbs; Some r else Some tbs) in
  let^ p := of_option (read_any tbs) in
  let^ p := of_option (read_any p.2) in
  let^ p := of_option (read_any p.2) in
  let^ p := of_option (read_expected 48 p.2) in
  let^ b := read_time (der_new p.1) in
  let^ a := read_time b.2 in
  Got (b.1, a.1).

(** ** The file *)

Definition PEM_BEGIN : string := "-----BEGIN CERTIFICATE-----".
Definition PEM_END : string := "-----END CERTIFICATE-----".

(** The loop over the lines of a PEM file. *)
Fixpoint pem_body (in_body : bool) (lines : list string) : string :=
  match lines with
  | [] => EmptyString
  | line :: rest =>
      if String.eqb (str_trim line) PEM_BEGIN then pem_body true rest
      else if String.eqb (str_trim line) PEM_END then EmptyString
      else if in_body then String.append (str_trim line) (pem_body in_body rest)
      else pem_body in_body rest
  end.

Definition certificate_der (bytes : list Z) : option (list Z) :=
  let text := str_of_bytes (from_utf8_lossy bytes) in
  if negb (str_contains PEM_BEGIN text) then Some bytes
  else
    let encoded := pem_body false (str_lines text) in
    if str_is_empty encoded then None else base64_decode encoded.

Definition parse_certificate (bytes : list Z) : attempt ParsedCertificate :=
  let^ der := of_option (certificate_der bytes) in
  let^ validity := parse_der_validity der in
  Got (mkParsedCertificate validity.1 validity.2 (hex_lower (sha256 der))).

Definition cert_expiry_from_parsed (now : Z) (name : string) (parsed : ParsedCertificate)
    : OcservCertExpiry :=
  let days_remaining := whole_days (not_after parsed - now) in
  let status := if not_after parsed <=? now then Expired
                else if days_remaining <=? 30 then ExpiringSoon else Valid in
  mkOcservCertExpiry name (Some (rfc3339_format (not_before parsed)))
    (Some (rfc3339_format (not_after parsed))) (Some days_remaining) status
    (Some (fingerprint_sha256 parsed)).

Definition invalid_cert (name : string) (status : OcservCertStatus) : OcservCertExpiry :=
  mkOcservCertExpiry name None None None status None.

(** [read] is what reading the file gives, [now] the clock. *)
Definition read_certificate (read : string -> result OcservReadonlyError (list Z)) (now : Z)
    (certificate : OcservCertificateConfig)
    : attempt (result OcservReadonlyError OcservCertExpiry) :=
  let name := cert_name certificate in
  if negb (is_valid_ocserv_name name) then Got (Ok (invalid_cert name Invalid))
  else match read (cert_path certificate) with
  | Err err =>
      if bool_decide (oe_code err = OcservOutputBoundExceeded)
         || bool_decide (oe_code err = OcservProviderUnsafeSource)
      then Got (Err err)
      else Got (Ok (mkOcservCertExpiry name None None None Unreadable None))
  | Ok bytes =>
      match parse_certificate bytes with
      | Got parsed => Got (Ok (cert_expiry_from_parsed now name parsed))
      | Missing => Got (Ok (invalid_cert name Invalid))
      | Panicked => Panicked
      end
  end.
End reader.
