(* ===== verification/CertificateProperties.v ===== *)
(** * CertificateProperties: what the certificate reader finds

    An encoder of certificates in DER, and what the reader makes of its output:
    it finds the two times of every certificate shorter than 4 GiB, and it
    panics exactly when a time text has a character across a field boundary. *)

From S2P Require Import Prelude Text External Wire AgentConfig Certificates.

(** ** Certificates in DER *)

(** A length in its shortest form. *)
Definition der_length (n : Z) : list Z :=
  if n <? 128 then [n]
  else if n <? 2 ^ 8 then [129; n]
  else if n <? 2 ^ 16 then [130; n / 2 ^ 8; n mod 2 ^ 8]
  else if n <? 2 ^ 24 then [131; n / 2 ^ 16; n / 2 ^ 8 mod 2 ^ 8; n mod 2 ^ 8]
  else [132; n / 2 ^ 24; n / 2 ^ 16 mod 2 ^ 8; n / 2 ^ 8 mod 2 ^ 8; n mod 2 ^ 8].

Definition tlv (tag : Z) (body : list Z) : list Z :=
  tag :: der_length (Z.of_nat (length body)) ++ body.

(** The parts of a certificate up to its validity; what follows a part inside
    its sequence is any bytes. *)
Record Layout := mkLayout {
  ly_version : option (list Z);
  ly_serial : list Z;
  ly_algorithm : list Z;
  ly_issuer : list Z;
  ly_not_before : Z * list Z;
  ly_not_after : Z * list Z;
  ly_validity_rest : list Z;
  ly_tbs_rest : list Z;
  ly_certificate_rest : list Z;
  ly_trailer : list Z;
}.

Definition der_validity (l : Layout) : list Z :=
  tlv (ly_not_before l).1 (ly_not_before l).2
  ++ tlv (ly_not_after l).1 (ly_not_after l).2 ++ ly_validity_rest l.

Definition der_tbs (l : Layout) : list Z :=
  match ly_version l with Some v => tlv 160 v | None => [] end
  ++ tlv 2 (ly_serial l) ++ tlv 48 (ly_algorithm l) ++ tlv 48 (ly_issuer l)
  ++ tlv 48 (der_validity l) ++ ly_tbs_rest l.

Definition der_certificate (l : Layout) : list Z :=
  tlv 48 (tlv 48 (der_tbs l) ++ ly_certificate_rest l) ++ ly_trailer l.

(** A date and time of day, and its two texts. *)
Record Civil := mkCivil {
  cv_year : Z; cv_month : Z; cv_day : Z; cv_hour : Z; cv_minute : Z; cv_second : Z
}.

Inductive TimeForm := UtcTime | GeneralizedTime.

Definition two_digits (n : Z) : list Z := [48 + n / 10; 48 + n mod 10].

Definition time_field (form : TimeForm) (c : Civil) : Z * list Z :=
  let rest := two_digits (cv_month c) ++ two_digits (cv_day c) ++ two_digits (cv_hour c)
              ++ two_digits (cv_minute c) ++ two_digits (cv_second c) ++ [90] in
  match form with
  | UtcTime => (23, two_digits (cv_year c mod 100) ++ rest)
  | GeneralizedTime => (24, two_digits (cv_year c / 100) ++ two_digits (cv_year c mod 100) ++ rest)
  end.

(** What the form can write: UTCTime has two digits for the years 1950 to 2049. *)
Definition civil_writable (form : TimeForm) (c : Civil) : bool :=
  match form with
  | UtcTime => in_range 1950 2049 (cv_year c)
  | GeneralizedTime => in_range 0 9999 (cv_year c)
  end
  && in_range 0 99 (cv_month c) && in_range 0 99 (cv_day c) && in_range 0 99 (cv_hour c)
  && in_range 0 99 (cv_minute c) && in_range 0 99 (cv_second c).

(** A character of the text lies across one of the offsets 0, 2, .., 12 and
    every field that is cut out before that offset is a number. *)
Definition cut_inside (v : list Z) : Prop :=
  exists k : nat, (k <= 6)%nat /\
    (exists b, v !! (2 * k)%nat = Some b /\ is_continuation b = true) /\
    forall i : nat, (S i < k)%nat -> exists n, u8_at v (2 * i) (2 * i + 2) = Got n.

(** The lines of a PEM file around base64 text. *)
Definition base64_byte (b : Z) : bool :=
  is_ascii_alphanumeric b || (b =? 43) || (b =? 47) || (b =? 61).
Definition base64_line (s : string) : bool :=
  negb (str_is_empty s) && forallb base64_byte (str_bytes s).
Definition pem_file (lines : list string) : list Z :=
  str_bytes (unlines (PEM_BEGIN :: lines ++ [PEM_END])).

(** A file that holds the certificate: the DER bytes, or PEM lines that decode
    to them. *)
Inductive holds_certificate `{Base64Standard} (der : list Z) : list Z -> Prop :=
| holds_der :
    str_contains PEM_BEGIN (str_of_bytes (from_utf8_lossy der)) = false ->
    holds_certificate der der
| holds_pem lines :
    lines <> [] -> forallb base64_line lines = true ->
    base64_decode (foldr String.append EmptyString lines) = Some der ->
    holds_certificate der (pem_file lines).

(** ** Reading what was encoded *)

(** The reader is inside its data and [rest] is what it has not read. *)
Record reader_at (rest : list Z) (r : DerReader) : Prop := {
  at_nonneg : 0 <= dr_position r;
  at_inside : dr_position r <= Z.of_nat (length (dr_data r));
  at_small : Z.of_nat (length (dr_data r)) <= u64_max;
  at_rest : drop (Z.to_nat (dr_position r)) (dr_data r) = rest;
}.

Lemma reader_at_new data : Z.of_nat (length data) <= u64_max -> reader_at data (der_new data).
Proof. intros Hd. split; simpl; [lia|lia|done|done]. Qed.

Lemma reader_at_length rest r :
  reader_at rest r -> Z.of_nat (length rest) = Z.of_nat (length (dr_data r)) - dr_position r.
Proof. intros [H0 H1 _ <-]. rewrite length_drop. lia. Qed.

Lemma reader_at_app body post r :
  reader_at (body ++ post) r ->
  get_range (dr_data r) (dr_position r) (dr_position r + Z.of_nat (length body)) = Some body /\
  reader_at post (advance r (dr_position r + Z.of_nat (length body))).
Proof.
  intros Hr. pose proof (reader_at_length _ _ Hr) as Hl. destruct Hr as [H0 H1 H2 H3].
  rewrite length_app in Hl. unfold get_range. split.
  - rewrite (proj2 (Z.leb_le _ _)) by lia. rewrite (proj2 (Z.leb_le _ _)) by lia. simpl. f_equal.
    replace (Z.to_nat _) with (length body) by lia. rewrite H3. apply take_app_length.
  - split; simpl; [lia|lia|done|]. rewrite Z2Nat.inj_add, Nat2Z.id by lia.
    rewrite <- drop_drop, H3. apply drop_app_length.
Qed.

Lemma reader_at_byte b rest r :
  reader_at (b :: rest) r ->
  get_byte (dr_data r) (dr_position r) = Some b /\ reader_at rest (advance r (dr_position r + 1)).
Proof.
  intros Hr. split; [|exact (proj2 (reader_at_app [b] rest r Hr))].
  destruct Hr as [_ _ _ Hr]. unfold get_byte.
  rewrite <- (Nat.add_0_r (Z.to_nat _)), <- lookup_drop, Hr. done.
Qed.

Lemma length_step len b :
  0 <= len < 2 ^ 24 -> 0 <= b < 2 ^ 8 ->
  Z.lor (Z.land (Z.shiftl len 8) u64_max) b = len * 2 ^ 8 + b.
Proof.
  intros Hl Hb. change u64_max with (Z.ones 64). rewrite Z.land_ones, Z.shiftl_mul_pow2 by lia.
  rewrite Z.mod_small by lia.
  assert (Z.land (len * 2 ^ 8) b = 0) as Hno.
  { rewrite <- (Z.mod_small b (2 ^ 8)), <- Z.land_ones, (Z.land_comm b), Z.land_assoc by lia.
    rewrite Z.land_ones, Z.mod_mul by lia. apply Z.land_0_l. }
  by rewrite <- Z.lxor_lor, <- Z.add_nocarry_lxor.
Qed.

Lemma read_length_bytes_at bs : forall len rest r,
  Forall (fun b => 0 <= b < 2 ^ 8) bs -> (length bs <= 4)%nat ->
  0 <= len < 2 ^ (8 * (4 - Z.of_nat (length bs))) -> reader_at (bs ++ rest) r ->
  exists r', read_length_bytes (length bs) len r = Some (foldl (fun a b => a * 2 ^ 8 + b) len bs, r')
             /\ reader_at rest r'.
Proof.
  induction bs as [|b bs IH]; intros len rest r Hbs Hc Hlen Hr; cbn [length] in *.
  { exists r. by split. }
  apply Forall_cons in Hbs as [Hb Hbs].
  destruct (reader_at_byte _ _ _ Hr) as [Hget Hr1]. cbn [read_length_bytes foldl]. rewrite Hget.
  cbn [mbind option_bind]. assert (len < 2 ^ 24) as Hsmall.
  { apply Z.lt_le_trans with (1 := proj2 Hlen), Z.pow_le_mono_r; lia. }
  rewrite length_step by lia. apply IH; [done|lia| |done].
  replace (8 * (4 - Z.of_nat (length bs))) with (8 + 8 * (4 - Z.of_nat (S (length bs)))) by lia.
  rewrite Z.pow_add_r by lia. lia.
Qed.

Lemma land_short n : 0 <= n < 128 -> Z.land n 128 = 0.
Proof.
  intros Hn. rewrite <- (Z.mod_small n (2 ^ 7)) by lia. rewrite <- Z.land_ones by lia.
  rewrite <- Z.land_assoc. apply Z.land_0_r.
Qed.

Lemma read_length_long n count bs rest r :
  count = Z.of_nat (length bs) -> 1 <= count <= 4 -> Forall (fun b => 0 <= b < 2 ^ 8) bs ->
  foldl (fun a b => a * 2 ^ 8 + b) 0 bs = n -> reader_at (128 + count :: bs ++ rest) r ->
  exists r', read_length r = Some (n, r') /\ reader_at rest r'.
Proof.
  intros Hc Hle Hbs <- Hr. destruct (reader_at_byte _ _ _ Hr) as [Hget Hr1].
  unfold read_length. rewrite Hget. cbn [mbind option_bind].
  assert (count = 1 \/ count = 2 \/ count = 3 \/ count = 4) as Hcases by lia.
  assert (0 <= 0 < 2 ^ (8 * (4 - Z.of_nat (length bs)))) as H0.
  { split; [lia|]. apply Z.pow_pos_nonneg; lia. }
  destruct (read_length_bytes_at bs 0 rest _ Hbs ltac:(lia) H0 Hr1) as (r' & Hread & Hr').
  exists r'. split; [|done].
  replace (length bs) with (Z.to_nat count) in Hread by lia.
  destruct Hcases as [->|[->|[->| ->]]]; exact Hread.
Qed.

Lemma read_length_der n rest r :
  0 <= n < 2 ^ 32 -> reader_at (der_length n ++ rest) r ->
  exists r', read_length r = Some (n, r') /\ reader_at rest r'.
Proof.
  intros Hn Hr. unfold der_length in Hr.
  pose proof (Z.div_mod n (2 ^ 8)). pose proof (Z.div_mod (n / 2 ^ 8) (2 ^ 8)).
  pose proof (Z.div_mod (n / 2 ^ 16) (2 ^ 8)).
  assert (n / 2 ^ 16 = n / 2 ^ 8 / 2 ^ 8) as H16 by (by rewrite Z.div_div).
  assert (n / 2 ^ 24 = n / 2 ^ 16 / 2 ^ 8) as H24 by (by rewrite Z.div_div).
  pose proof (Z.mod_pos_bound n (2 ^ 8)). pose proof (Z.mod_pos_bound (n / 2 ^ 8) (2 ^ 8)).
  pose proof (Z.mod_pos_bound (n / 2 ^ 16) (2 ^ 8)).
  repeat case_match; bool_facts.
  { destruct (reader_at_byte _ _ _ Hr) as [Hget Hr1]. unfold read_length. rewrite Hget.
    cbn [mbind option_bind]. rewrite land_short by lia. simpl. eauto. }
  all: match type of Hr with reader_at ((_ :: ?bs) ++ _) _ =>
         apply (read_length_long n (Z.of_nat (length bs)) bs rest r); [done|simpl; lia| |simpl|exact Hr]
       end.
  all: try (repeat apply Forall_cons_2; try apply Forall_nil_2; lia).
  all: lia.
Qed.

Lemma read_tlv_at tag body post r :
  reader_at (tlv tag body ++ post) r -> Z.of_nat (length body) < 2 ^ 32 ->
  exists r', read_tlv r = Some ((tag, body), r') /\ reader_at post r'.
Proof.
  intros Hr Hb. unfold tlv in Hr. cbn [app] in Hr. rewrite <- app_assoc in Hr.
  destruct (reader_at_byte _ _ _ Hr) as [Hget Hr1].
  destruct (read_length_der (Z.of_nat (length body)) (body ++ post) _ ltac:(lia) Hr1)
    as (r2 & Hlen & Hr2).
  destruct (reader_at_app _ _ _ Hr2) as [Hrange Hr3]. pose proof (at_inside _ _ Hr3) as Hin.
  pose proof (at_small _ _ Hr3) as Hsm. simpl in Hin, Hsm.
  unfold read_tlv. rewrite Hget. cbn [mbind option_bind]. rewrite Hlen. cbn [mbind option_bind].
  unfold checked_add. rewrite (proj2 (Z.leb_le _ _)) by lia. cbn [mbind option_bind].
  rewrite Hrange. simpl. eauto.
Qed.

Lemma read_any_at tag body post r :
  reader_at (tlv tag body ++ post) r -> Z.of_nat (length body) < 2 ^ 32 ->
  exists r', read_any r = Some (body, r') /\ reader_at post r'.
Proof.
  intros Hr Hb. destruct (read_tlv_at _ _ _ _ Hr Hb) as (r' & He & Hr').
  unfold read_any. rewrite He. simpl. eauto.
Qed.

Lemma read_expected_at tag body post r :
  reader_at (tlv tag body ++ post) r -> Z.of_nat (length body) < 2 ^ 32 ->
  exists r', read_expected tag r = Some (body, r') /\ reader_at post r'.
Proof.
  intros Hr Hb. destruct (read_tlv_at _ _ _ _ Hr Hb) as (r' & He & Hr').
  unfold read_expected. rewrite He. simpl. rewrite Z.eqb_refl. eauto.
Qed.

Lemma tlv_length tag body : Z.of_nat (length body) < Z.of_nat (length (tlv tag body)).
Proof. unfold tlv. cbn [length]. rewrite length_app. lia. Qed.

(** ** Times *)

Definition digit (b : Z) : Prop := 48 <= b <= 57.

Lemma digit_boundary v i b :
  v !! i = Some b -> is_continuation b = false -> is_char_boundary v i = true.
Proof. intros Hi Hb. unfold is_char_boundary. rewrite Hi, Hb. apply orb_true_r. Qed.

Lemma digit_not_continuation b : digit b -> is_continuation b = false.
Proof.
  intros Hb. apply not_true_is_false. intros He%in_range_spec. unfold digit in Hb. lia.
Qed.

Lemma digit_is_ascii b : digit b -> is_ascii_digit b = true.
Proof. intros Hb. by apply in_range_spec. Qed.

Lemma int_digits lo hi x rest :
  digit x -> int_from_str lo hi (x :: rest) = parse_digits false lo hi 0 (x :: rest).
Proof.
  unfold digit, int_from_str. intros Hx.
  rewrite (proj2 (Z.eqb_neq x 43)), (proj2 (Z.eqb_neq x 45)) by lia. done.
Qed.

Lemma u8_at_digits v a b x y z :
  b = S (S a) -> v !! a = Some x -> v !! S a = Some y -> v !! b = Some z ->
  digit x -> digit y -> is_continuation z = false ->
  u8_at v a b = Got ((x - 48) * 10 + (y - 48)).
Proof.
  intros -> Hx Hy Hz Dx Dy Dz. unfold u8_at, str_slice.
  rewrite (digit_boundary v a x Hx), (digit_boundary _ _ z Hz)
    by (done || by apply digit_not_continuation).
  rewrite (proj2 (Nat.leb_le _ _)) by lia. cbn [andb].
  replace (S (S a) - a)%nat with 2%nat by lia.
  rewrite (drop_S v x a Hx), (drop_S v y (S a) Hy). cbn [take]. unfold parse_u8.
  rewrite int_digits by done. cbn [parse_digits]. rewrite !digit_is_ascii by done.
  unfold digit, u8_max in *. cbn [andb].
  rewrite (proj2 (in_range_spec _ _ _)) by lia. rewrite (proj2 (in_range_spec _ _ _)) by lia.
  done.
Qed.

Lemma year_digits v a b x y z :
  str_slice v 0 4 = Some [a; b; x; y] -> digit a -> digit b -> digit x -> digit y ->
  z = (a - 48) * 1000 + (b - 48) * 100 + (x - 48) * 10 + (y - 48) ->
  match str_slice v 0 4 with Some t => of_option (parse_i32 t) | None => Panicked end = Got z.
Proof.
  intros -> Da Db Dx Dy ->. unfold parse_i32. rewrite int_digits by done. cbn [parse_digits].
  rewrite !digit_is_ascii by done. unfold digit in *. cbn [andb].
  do 4 rewrite (proj2 (in_range_spec _ _ _)) by lia. simpl. f_equal. lia.
Qed.

Lemma two_digits_digit n : 0 <= n <= 99 -> digit (48 + n / 10) /\ digit (48 + n mod 10).
Proof.
  intros Hn. unfold digit.
  pose proof (Z.div_mod n 10). pose proof (Z.mod_pos_bound n 10). lia.
Qed.

Lemma two_digits_value n : (48 + n / 10 - 48) * 10 + (48 + n mod 10 - 48) = n.
Proof. pose proof (Z.div_mod n 10). lia. Qed.

Section reading.
Context `{CalendarOps, TimeOps, Sha256Ops, Base64Standard}.

(** What a time field with this tag and content is read as. *)
Definition time_of (field : Z * list Z) : attempt Z :=
  if negb (utf8_valid field.2) then Missing
  else if field.1 =? 23 then parse_utc_time field.2
  else if field.1 =? 24 then parse_generalized_time field.2
  else Missing.

Lemma read_time_at tag body post r :
  reader_at (tlv tag body ++ post) r -> Z.of_nat (length body) < 2 ^ 32 ->
  exists r', reader_at post r' /\
    read_time r = let^ t := time_of (tag, body) in Got (t, r').
Proof.
  intros Hr Hb. destruct (read_tlv_at _ _ _ _ Hr Hb) as (r' & He & Hr').
  exists r'. split; [done|]. unfold read_time, time_of. rewrite He. simpl.
  by destruct (utf8_valid body).
Qed.

Lemma skip_version l rest r :
  Z.of_nat (length (default [] (ly_version l))) < 2 ^ 32 ->
  reader_at (match ly_version l with Some v => tlv 160 v | None => [] end
             ++ tlv 2 (ly_serial l) ++ rest) r ->
  exists r', (if bool_decide (peek_tag r = Some 160) then '(_, r) ← read_any r; Some r else Some r)
             = Some r' /\ reader_at (tlv 2 (ly_serial l) ++ rest) r'.
Proof.
  intros Hb Hr. destruct (ly_version l) as [v|].
  - destruct (read_any_at _ _ _ _ Hr Hb) as (r' & He & Hr'). exists r'. split; [|done].
    destruct (reader_at_byte 160 _ _ Hr) as [Hg _].
    unfold peek_tag. rewrite Hg, bool_decide_true by done. by rewrite He.
  - exists r. split; [|done]. destruct (reader_at_byte 2 _ _ Hr) as [Hg _].
    unfold peek_tag. rewrite Hg. by rewrite bool_decide_false.
Qed.

Lemma validity_times l :
  Z.of_nat (length (der_validity l)) < 2 ^ 32 ->
  (let^ b := read_time (der_new (der_validity l)) in let^ a := read_time b.2 in Got (b.1, a.1))
  = let^ b := time_of (ly_not_before l) in let^ a := time_of (ly_not_after l) in Got (b, a).
Proof.
  intros Hl. assert (reader_at (der_validity l) (der_new (der_validity l))) as Hr.
  { apply reader_at_new. unfold u64_max. lia. }
  unfold der_validity in Hl. unfold der_validity in Hr at 1. rewrite !length_app in Hl.
  pose proof (tlv_length (ly_not_before l).1 (ly_not_before l).2).
  pose proof (tlv_length (ly_not_after l).1 (ly_not_after l).2).
  destruct (ly_not_before l) as [bt bv], (ly_not_after l) as [at_ av]. cbn [fst snd] in *.
  destruct (read_time_at _ _ _ _ Hr) as (r1 & Hr1 & ->); [lia|].
  destruct (time_of (bt, bv)); [|done|done].
  destruct (read_time_at _ _ _ _ Hr1) as (r2 & _ & Hb); [lia|]. simpl. rewrite Hb.
  by destruct (time_of (at_, av)).
Qed.

(** The reader finds the two time fields of an encoded certificate. *)
Lemma validity_located l :
  Z.of_nat (length (der_certificate l)) < 2 ^ 32 ->
  parse_der_validity (der_certificate l)
  = let^ b := time_of (ly_not_before l) in let^ a := time_of (ly_not_after l) in Got (b, a).
Proof.
  intros Hl. rewrite <- validity_times; unfold der_certificate in Hl; rewrite length_app in Hl;
  pose proof (tlv_length 48 (tlv 48 (der_tbs l) ++ ly_certificate_rest l)) as Hl1;
  rewrite length_app in Hl1; pose proof (tlv_length 48 (der_tbs l)) as Hl2;
  pose proof Hl2 as Hl4; unfold der_tbs in Hl4 at 1; rewrite !length_app in Hl4;
  pose proof (tlv_length 48 (der_validity l)) as Hl3; [|lia].
  pose proof (tlv_length 2 (ly_serial l)). pose proof (tlv_length 48 (ly_algorithm l)).
  pose proof (tlv_length 48 (ly_issuer l)).
  assert (Z.of_nat (length (default [] (ly_version l))) < 2 ^ 32).
  { destruct (ly_version l) as [v|]; cbn -[tlv Z.pow Z.of_nat] in *; [pose proof (tlv_length 160 v)|]; lia. }
  assert (reader_at (der_certificate l) (der_new (der_certificate l))) as Hr.
  { apply reader_at_new. unfold der_certificate, u64_max. rewrite length_app. lia. }
  unfold parse_der_validity.
  destruct (read_expected_at _ _ _ _ Hr) as (r1 & -> & _); [rewrite length_app; lia|]. cbn [of_option fst].
  assert (reader_at (tlv 48 (der_tbs l) ++ ly_certificate_rest l)
            (der_new (tlv 48 (der_tbs l) ++ ly_certificate_rest l))) as Hr2.
  { apply reader_at_new. unfold u64_max. rewrite length_app. lia. }
  destruct (read_expected_at _ _ _ _ Hr2) as (r3 & -> & _); [lia|]. cbn [of_option fst].
  assert (reader_at (der_tbs l) (der_new (der_tbs l))) as Hr4.
  { apply reader_at_new. unfold u64_max. lia. }
  destruct (skip_version l _ _ ltac:(lia) Hr4) as (r5 & -> & Hr5). cbn [of_option].
  destruct (read_any_at _ _ _ _ Hr5) as (r6 & -> & Hr6); [lia|]. cbn [of_option snd].
  destruct (read_any_at _ _ _ _ Hr6) as (r7 & -> & Hr7); [lia|]. cbn [of_option snd].
  destruct (read_any_at _ _ _ _ Hr7) as (r8 & -> & Hr8); [lia|]. cbn [of_option snd].
  by destruct (read_expected_at _ _ _ _ Hr8) as (r9 & -> & _); [lia|].
Qed.

(** The instant of a date and time of day, if the calendar has it. *)
Definition civil_instant (c : Civil) : option Z :=
  parse_datetime (cv_year c) (cv_month c) (cv_day c) (cv_hour c) (cv_minute c) (cv_second c).

(** Read the six fields of a text whose bytes are given one by one. *)
Ltac read_fields :=
  repeat match goal with
  | |- context [u8_at ?v ?a ?b] =>
      erewrite (u8_at_digits v a b) by
        first [reflexivity | assumption | apply digit_not_continuation; assumption];
      rewrite two_digits_value
  end.

Ltac digits_of c :=
  pose proof (two_digits_digit (cv_month c) ltac:(lia)) as [? ?];
  pose proof (two_digits_digit (cv_day c) ltac:(lia)) as [? ?];
  pose proof (two_digits_digit (cv_hour c) ltac:(lia)) as [? ?];
  pose proof (two_digits_digit (cv_minute c) ltac:(lia)) as [? ?];
  pose proof (two_digits_digit (cv_second c) ltac:(lia)) as [? ?];
  pose proof (Z.mod_pos_bound (cv_year c) 100);
  pose proof (two_digits_digit (cv_year c mod 100) ltac:(lia)) as [? ?].

Ltac all_digits :=
  unfold two_digits; cbn [app]; repeat (apply Forall_cons_2; [auto|]); apply Forall_nil_2.

Lemma time_of_ascii tag v :
  Forall (fun b => digit b \/ b = 90) v ->
  time_of (tag, v) = if tag =? 23 then parse_utc_time v
                     else if tag =? 24 then parse_generalized_time v else Missing.
Proof.
  intros Hv. unfold time_of. cbn [fst snd]. rewrite utf8_valid_ascii; [done|].
  eapply Forall_impl; [exact Hv|]. unfold digit. simpl. lia.
Qed.

Lemma time_of_utc c :
  civil_writable UtcTime c = true -> time_of (time_field UtcTime c) = of_option (civil_instant c).
Proof.
  intros Hw. unfold civil_writable in Hw. bool_facts. digits_of c.
  pose proof (Z.div_mod (cv_year c) 100).
  unfold time_field. rewrite time_of_ascii by all_digits.
  cbn [Z.eqb Pos.eqb two_digits app]. unfold parse_utc_time. cbn [length Nat.eqb negb orb ends_with_z last].
  read_fields. unfold civil_instant. do 2 f_equal.
  destruct (Z.leb_spec 50 (cv_year c mod 100)); lia.
Qed.

Lemma time_of_generalized c :
  civil_writable GeneralizedTime c = true ->
  time_of (time_field GeneralizedTime c) = of_option (civil_instant c).
Proof.
  intros Hw. unfold civil_writable in Hw. bool_facts. digits_of c.
  pose proof (Z.div_mod (cv_year c) 100).
  pose proof (two_digits_digit (cv_year c / 100) ltac:(lia)) as [? ?].
  unfold time_field. rewrite time_of_ascii by all_digits.
  cbn [Z.eqb Pos.eqb two_digits app]. unfold parse_generalized_time.
  cbn [length Nat.eqb negb orb ends_with_z last].
  rewrite (year_digits _ (48 + cv_year c / 100 / 10) (48 + cv_year c / 100 mod 10)
    (48 + cv_year c mod 100 / 10) (48 + (cv_year c mod 100) mod 10) (cv_year c)).
  7: { pose proof (two_digits_value (cv_year c / 100)).
       pose proof (two_digits_value (cv_year c mod 100)). lia. }
  all: try assumption.
  - read_fields. done.
  - unfold str_slice. cbn [Nat.leb andb].
    erewrite !digit_boundary by
      first [reflexivity | apply digit_not_continuation; assumption]. done.
Qed.

Lemma time_of_field form c :
  civil_writable form c = true -> time_of (time_field form c) = of_option (civil_instant c).
Proof. destruct form; [apply time_of_utc|apply time_of_generalized]. Qed.
End reading.

(** ** PEM files *)

Lemma base64_graphic s :
  base64_line s = true -> forallb (in_range 33 126) (str_bytes s) = true.
Proof.
  unfold base64_line. intros Hs. bool_facts. rewrite forallb_forall in *. intros b Hb.
  assert (base64_byte b = true) as Hbb by auto. unfold base64_byte, is_ascii_alphanumeric,
    is_ascii_alphabetic, is_ascii_digit, is_ascii_lowercase, is_ascii_uppercase, in_range in *. lia.
Qed.

Lemma base64_printable s : base64_line s = true -> printable s = true.
Proof.
  intros Hs%base64_graphic. unfold printable. rewrite forallb_forall in *. intros b Hb.
  apply Hs, in_range_spec in Hb. apply in_range_spec. lia.
Qed.

Lemma base64_not_marker s : base64_line s = true -> s <> PEM_BEGIN /\ s <> PEM_END.
Proof. intros Hs. split; intros ->; discriminate. Qed.

Lemma pem_body_lines lines :
  forallb base64_line lines = true ->
  pem_body true (lines ++ [PEM_END]) = foldr String.append EmptyString lines.
Proof.
  induction lines as [|l lines IH]; [done|]. cbn [forallb app pem_body foldr]. intros Hl.
  apply andb_true_iff in Hl as [Hl Hls]. destruct (base64_not_marker l Hl) as [Hb He].
  rewrite str_trim_graphic by (by apply base64_graphic).
  rewrite (proj2 (String.eqb_neq _ _) Hb), (proj2 (String.eqb_neq _ _) He). by rewrite IH.
Qed.

Lemma prefix_app p s : String.prefix p (p +:+ s) = true.
Proof. induction p as [|a p IH]; [by destruct s|]. simpl. by destruct (ascii_dec a a). Qed.

Lemma holds_certificate_der `{Base64Standard} der file :
  holds_certificate der file -> certificate_der file = Some der.
Proof.
  intros [Hno|lines Hne Hls Hdec]; unfold certificate_der; [by rewrite Hno|].
  assert (Forall (fun l => printable l = true) (PEM_BEGIN :: lines ++ [PEM_END])) as Hp.
  { constructor; [done|]. apply Forall_app_2; [|repeat constructor].
    apply Forall_forall. intros l Hl. rewrite forallb_forall in Hls.
    apply base64_printable, Hls. by apply list_elem_of_In. }
  unfold pem_file. rewrite from_utf8_lossy_ascii by (by apply unlines_ascii).
  rewrite str_of_bytes_str_bytes.
  assert (str_contains PEM_BEGIN (unlines (PEM_BEGIN :: lines ++ [PEM_END])) = true) as ->.
  { destruct (unlines _) eqn:E; [done|]. cbn [str_contains]. rewrite <- E.
    change (unlines (PEM_BEGIN :: ?l)) with (PEM_BEGIN +:+ String (ascii_of_nat 10) (unlines l)).
    by rewrite prefix_app. }
  cbn [negb]. rewrite str_lines_unlines by done.
  change (pem_body false (PEM_BEGIN :: lines ++ [PEM_END])) with (pem_body true (lines ++ [PEM_END])).
  rewrite pem_body_lines by done. rewrite Hdec.
  destruct lines as [|l lines]; [done|]. cbn [forallb] in Hls. apply andb_true_iff in Hls as [Hl _].
  destruct l; [done|]. done.
Qed.

(** ** Panics *)

Lemma boundary_false v i :
  (i < length v)%nat ->
  is_char_boundary v i = false <-> exists b, v !! i = Some b /\ is_continuation b = true.
Proof.
  intros Hi. unfold is_char_boundary. rewrite (proj2 (Nat.eqb_neq _ _)) by lia. cbn [orb].
  destruct (lookup_lt_is_Some_2 _ _ Hi) as [b Hb]. rewrite Hb. split.
  - intros He. bool_facts. eauto.
  - intros (b' & [= <-] & ->). done.
Qed.

Lemma u8_at_panics v a b :
  (a <= b)%nat ->
  u8_at v a b = Panicked <-> is_char_boundary v a = false \/ is_char_boundary v b = false.
Proof.
  intros Hab. unfold u8_at, str_slice. rewrite (proj2 (Nat.leb_le _ _) Hab). cbn [andb].
  destruct (is_char_boundary v a), (is_char_boundary v b); simpl; try (split; [by auto|done]).
  destruct (parse_u8 _); simpl; split; try done; intros [?|?]; done.
Qed.

Lemma of_option_returns {A} (o : option A) : of_option o <> Panicked.
Proof. by destruct o. Qed.

(** The fields from [j] on, read one after the other. *)
Fixpoint fields (v : list Z) (j n : nat) : attempt (list Z) :=
  match n with
  | O => Got []
  | S n' =>
      let^ x := u8_at v (2 * j) (2 * j + 2) in
      let^ xs := fields v (S j) n' in
      Got (x :: xs)
  end.

Lemma fields_panic v n : forall j,
  fields v j n = Panicked <->
  exists m, (m < n)%nat /\ u8_at v (2 * (j + m)) (2 * (j + m) + 2) = Panicked /\
    forall i, (i < m)%nat -> exists x, u8_at v (2 * (j + i)) (2 * (j + i) + 2) = Got x.
Proof.
  induction n as [|n IH]; intros j; cbn [fields].
  { split; [done|]. intros (m & Hm & _). lia. }
  destruct (u8_at v (2 * j) (2 * j + 2)) as [x| |] eqn:E.
  - trans (fields v (S j) n = Panicked); [by destruct (fields v (S j) n)|]. rewrite IH. split.
    + intros (m & Hm & Hp & Hg). exists (S m). rewrite Nat.add_succ_r. split_and!; [lia|done|].
      intros [|i] Hi; [rewrite Nat.add_0_r; eauto|]. rewrite Nat.add_succ_r. apply Hg. lia.
    + intros ([|m] & Hm & Hp & Hg); [rewrite Nat.add_0_r in Hp; congruence|].
      rewrite Nat.add_succ_r in Hp. exists m. split_and!; [lia|done|].
      intros i Hi. specialize (Hg (S i) ltac:(lia)). by rewrite Nat.add_succ_r in Hg.
  - split; [done|]. intros ([|m] & Hm & Hp & Hg).
    + rewrite Nat.add_0_r in Hp. congruence.
    + destruct (Hg 0%nat ltac:(lia)) as [y Hy]. rewrite Nat.add_0_r in Hy. congruence.
  - split; [|done]. intros _. exists 0%nat. rewrite Nat.add_0_r. split_and!; [lia|done|lia].
Qed.

Lemma fields_cut v :
  length v = 13%nat -> fields v 0 6 = Panicked <-> cut_inside v.
Proof.
  intros Hl. rewrite fields_panic. cbn [Nat.add]. split.
  - intros (m & Hm & [Hc|Hc]%u8_at_panics & Hg); [| |lia].
    + exists m. split_and!; [lia|apply boundary_false; [lia|done]|]. intros i Hi. apply Hg. lia.
    + exists (S m). replace (2 * S m)%nat with (2 * m + 2)%nat by lia.
      split_and!; [lia|apply boundary_false; [lia|done]|]. intros i Hi. apply Hg. lia.
  - intros (k & Hk & Hb & Hg). apply boundary_false in Hb; [|lia].
    exists (k - 1)%nat. split_and!; [lia| |intros i Hi; apply Hg; lia].
    apply u8_at_panics; [lia|]. destruct k as [|k]; [by left|right].
    by replace (2 * (S k - 1) + 2)%nat with (2 * S k)%nat by lia.
Qed.

Section panics.
Context `{CalendarOps}.

Lemma parse_utc_time_panics v :
  parse_utc_time v = Panicked <-> length v = 13%nat /\ last v = Some 90 /\ cut_inside v.
Proof.
  unfold parse_utc_time, ends_with_z.
  destruct (length v =? 13)%nat eqn:Hl; cbn [negb orb].
  2: { apply Nat.eqb_neq in Hl. split; [done|]. by intros [? _]. }
  apply Nat.eqb_eq in Hl. destruct (last v) as [z|]; [|split; [done|]; by intros (_ & ? & _)].
  destruct (z =? 90) eqn:Hz; cbn [negb]; bool_facts; subst.
  2: { split; [done|]. intros (_ & [= ->] & _). done. }
  rewrite <- fields_cut by done. cbn [fields Nat.mul Nat.add]. split.
  - intros Hp. split_and!; [done..|]. revert Hp. repeat case_match; try done.
    all: by intros ?%of_option_returns.
  - intros (_ & _ & Hp). revert Hp. repeat case_match; done.
Qed.

Lemma civil_never_panics form c :
  civil_writable form c = true -> time_of (time_field form c) <> Panicked.
Proof. intros Hw. rewrite time_of_field by done. apply of_option_returns. Qed.
End panics.

(** ** Theorems *)

Section properties.
Context `{CalendarOps, TimeOps, Sha256Ops, Base64Standard}.

(** C27: from a file that holds a certificate below 4 GiB, in DER or as PEM with any
    line lengths, the reader takes exactly the two times of its validity, in
    either of the two forms of a time, and the fingerprint of the DER bytes. *)
Theorem certificate_validity_read file l fb b fa a tb ta :
  holds_certificate (der_certificate l) file ->
  Z.of_nat (length (der_certificate l)) < 2 ^ 32 ->
  ly_not_before l = time_field fb b -> civil_writable fb b = true -> civil_instant b = Some tb ->
  ly_not_after l = time_field fa a -> civil_writable fa a = true -> civil_instant a = Some ta ->
  parse_certificate file
  = Got (mkParsedCertificate tb ta (hex_lower (sha256 (der_certificate l)))).
Proof.
  intros Hf Hl Hb Hbw Hbt Ha Haw Hat. unfold parse_certificate.
  rewrite (holds_certificate_der _ _ Hf). cbn [of_option]. rewrite validity_located by done.
  rewrite Hb, Ha, !time_of_field by done. by rewrite Hbt, Hat.
Qed.

(** C28: reading a certificate whose first time is written as UTCTime panics exactly
    when that text has thirteen bytes, ends with Z and has a character across
    one of the offsets at which it is cut, after fields that are numbers. *)
Theorem certificate_reader_panics_iff l v form c :
  Z.of_nat (length (der_certificate l)) < 2 ^ 32 ->
  ly_not_before l = (23, v) -> utf8_valid v = true ->
  ly_not_after l = time_field form c -> civil_writable form c = true ->
  parse_der_validity (der_certificate l) = Panicked
  <-> length v = 13%nat /\ last v = Some 90 /\ cut_inside v.
Proof.
  intros Hl Hb Hv Ha Hw. rewrite validity_located by done. rewrite <- parse_utc_time_panics.
  rewrite Hb, Ha. unfold time_of at 1. cbn [fst snd]. rewrite Hv. cbn [negb Z.eqb Pos.eqb].
  destruct (parse_utc_time v); [|done|done].
  pose proof (civil_never_panics form c Hw). destruct (time_of (time_field form c)); done.
Qed.
End properties.

(** ** Witnesses *)

(** A calendar with months of 31 days, a constant digest, and hexadecimal text
    in place of base64. *)
Module ToyCertificates.

#[export] Instance toy_calendar : CalendarOps := {|
  Month := Z; Date := Z; Time := Z;
  month_try_from m := if in_range 1 12 m then Some m else None;
  from_calendar_date y m d := if in_range 1 31 d then Some ((y * 12 + (m - 1)) * 31 + (d - 1)) else None;
  from_hms h m s :=
    if in_range 0 23 h && in_range 0 59 m && in_range 0 59 s then Some ((h * 60 + m) * 60 + s) else None;
  assume_utc date time := (date * 86400 + time) * 10 ^ 9;
  whole_days d := Z.quot d (86400 * 10 ^ 9);
|}.

#[export] Instance toy_sha256 : Sha256Ops := {| sha256 _ := replicate 32 0 |}.

Definition hex_value (b : Z) : Z := if b <? 58 then b - 48 else b - 87.
Fixpoint unhex (bs : list Z) : list Z :=
  match bs with x :: y :: rest => hex_value x * 16 + hex_value y :: unhex rest | _ => [] end.

#[export] Instance toy_base64 : Base64Standard := {| base64_decode s := Some (unhex (str_bytes s)) |}.

Definition start : Civil := mkCivil 2025 3 1 12 0 0.
Definition finish : Civil := mkCivil 2055 3 1 12 0 0.

Definition layout (not_before : Z * list Z) : Layout :=
  mkLayout (Some [2; 1; 2]) [7] [6; 1; 42] (replicate 300 0) not_before
    (time_field GeneralizedTime finish) [] [48; 0] [3; 1; 0] [].

Definition certificate : Layout := layout (time_field UtcTime start).

(** One line for the first bytes and one for the others. *)
Definition pem_lines : list string :=
  [hex_lower (take 24 (der_certificate certificate));
   hex_lower (drop 24 (der_certificate certificate))].

(** A digit and a letter of two bytes where the year should be. *)
Definition damaged : list Z := [50; 195; 169; 48; 49; 48; 49; 48; 48; 48; 48; 48; 90].

End ToyCertificates.
Import ToyCertificates.

Lemma certificate_validity_read_witness :
  parse_certificate (pem_file pem_lines)
  = Got (mkParsedCertificate 65090520000000000000 66054744000000000000 (hex_lower (replicate 32 0))).
Proof.
  refine (certificate_validity_read _ certificate UtcTime start GeneralizedTime finish _ _
    (holds_pem _ pem_lines _ _ _) _ eq_refl _ _ eq_refl _ _); try (vm_compute; reflexivity).
  discriminate.
Defined.

Lemma certificate_reader_panics_iff_witness :
  parse_der_validity (der_certificate (layout (23, damaged))) = Panicked.
Proof.
  apply (certificate_reader_panics_iff (layout (23, damaged)) damaged GeneralizedTime finish);
    try (vm_compute; reflexivity).
  split_and!; [done..|]. exists 1%nat. split_and!; [lia| |lia]. by exists 169.
Defined.
