(* ===== verification/InputValidation.v ===== *)
(** * InputValidation: checks on operator and agent input
      (ocfleet-cli/src/input_validation.rs)

    The validators trim their argument first and look at the trimmed text, as
    the source does; the text that is stored afterwards is the caller's.  The
    process-wide actor (environment variables, a lock) is not modelled. *)

From stdpp Require Import pretty.
From S2P Require Import Prelude Text External.

Definition MAX_ACTOR_LEN : Z := 128.
Definition MAX_REASON_LEN : Z := 256.
Definition MAX_DESCRIPTION_LEN : Z := 256.
Definition MAX_AGENT_VERSION_LEN : Z := 64.
Definition MAX_AGENT_PUBLIC_KEY_LEN : Z := 256.
Definition MAX_FINGERPRINT_LEN : Z := 128.
Definition MAX_HOSTNAME_LEN : Z := 253.
Definition MAX_SELECTOR_LEN : Z := 128.
Definition MAX_LABEL_ENTRIES : Z := 32.
Definition MAX_LABEL_KEY_LEN : Z := 64.
Definition MAX_LABEL_VALUE_LEN : Z := 128.
Definition MAX_METADATA_VALUE_LEN : Z := 64.

(** [b == b' ' || (b.is_ascii_graphic() && b != 0x7f)]. *)
Definition printable_byte (b : Z) : bool :=
  (b =? 32) || (is_ascii_graphic b && negb (b =? 127)).

Definition validate_printable_text (value field : string) (max_len : Z)
    : result string unit :=
  let trimmed := str_trim value in
  reject? str_is_empty trimmed as (field +:+ " must not be empty")%string in
  reject? max_len <? str_len trimmed
    as (field +:+ " must be at most " +:+ pretty max_len +:+ " bytes")%string in
  reject? negb (forallb printable_byte (str_bytes trimmed))
    as (field +:+ " must contain only printable ASCII")%string in
  Ok tt.

Definition validate_no_ascii_whitespace (value field : string) : result string unit :=
  if existsb is_ascii_whitespace (str_bytes value)
  then Err (field +:+ " must not contain ASCII whitespace")%string
  else Ok tt.

Definition validate_actor (value : string) : result string unit :=
  validate_printable_text value "actor" MAX_ACTOR_LEN.

Definition normalize_actor (value : string) : result string string :=
  let? _ := validate_actor value in
  Ok (str_trim value).

Definition validate_reason (value : string) : result string unit :=
  validate_printable_text value "reason" MAX_REASON_LEN.

Definition validate_description (value : string) : result string unit :=
  validate_printable_text value "description" MAX_DESCRIPTION_LEN.

Definition validate_agent_version (value : string) : result string unit :=
  validate_printable_text value "agent_version" MAX_AGENT_VERSION_LEN.

Definition validate_agent_public_key (value : string) : result string unit :=
  let? _ := validate_printable_text value "agent_public_key" MAX_AGENT_PUBLIC_KEY_LEN in
  validate_no_ascii_whitespace (str_trim value) "agent_public_key".

Definition validate_agent_fingerprint (value : string) : result string unit :=
  let? _ := validate_printable_text value "fingerprint" MAX_FINGERPRINT_LEN in
  validate_no_ascii_whitespace (str_trim value) "fingerprint".

Definition validate_selector (value : string) : result string unit :=
  validate_printable_text value "selector" MAX_SELECTOR_LEN.

(** One round of the loop over the labels of a host name. *)
Definition validate_hostname_label (label : string) : result string unit :=
  reject? str_is_empty label || (63 <? str_len label)
    as "hostname labels must be 1-63 characters" in
  let bytes := str_bytes label in
  reject? bool_decide (head bytes = Some 45) || bool_decide (last bytes = Some 45)
    as "hostname labels must not start or end with '-'" in
  reject? negb (forallb (fun b => is_ascii_alphanumeric b || (b =? 45)) bytes)
    as "hostname labels may contain only ASCII letters, digits, and '-'" in
  Ok tt.

Definition validate_hostname (value : string) : result string unit :=
  let? _ := validate_printable_text value "hostname" MAX_HOSTNAME_LEN in
  let hostname := str_trim value in
  reject? starts_with "." hostname || ends_with "." hostname
    as "hostname must not start or end with '.'" in
  try_for_each validate_hostname_label (str_split (fun c => c =? 46) hostname).

Definition validate_label_key (value field : string) : result string unit :=
  reject? str_is_empty value || (MAX_LABEL_KEY_LEN <? str_len value)
    as (field +:+ " keys must be 1-" +:+ pretty MAX_LABEL_KEY_LEN +:+ " characters")%string in
  reject? negb (forallb (fun b => is_ascii_alphanumeric b || (b =? 46) || (b =? 95) || (b =? 45))
                        (str_bytes value))
    as (field +:+ " keys may contain only ASCII letters, digits, '.', '_', and '-'")%string in
  Ok tt.

(** One round of the loop over the members of a label object. *)
Definition validate_label_entry (field : string) (entry : string * Value)
    : result string unit :=
  let? _ := validate_label_key entry.1 field in
  match entry.2 with
  | Null | VBool _ | VNumber _ => Ok tt
  | VString text => validate_printable_text text field MAX_LABEL_VALUE_LEN
  | VArray _ | VObject _ => Err (field +:+ " values must be scalar")%string
  end.

Definition validate_label_json (value : Value) (field : string) : result string unit :=
  let? object := ok_or (as_object value) (field +:+ " must be a JSON object")%string in
  reject? MAX_LABEL_ENTRIES <? Z.of_nat (length object)
    as (field +:+ " must contain at most " +:+ pretty MAX_LABEL_ENTRIES +:+ " entries")%string in
  try_for_each (validate_label_entry field) object.

Definition validate_metadata_value (value field : string) : result string unit :=
  let? _ := validate_printable_text value field MAX_METADATA_VALUE_LEN in
  reject? negb (forallb (fun b => is_ascii_alphanumeric b || (b =? 46) || (b =? 95)
                                  || (b =? 45) || (b =? 64)) (str_bytes value))
    as (field +:+ " may contain only ASCII letters, digits, '.', '_', '-', and '@'")%string in
  Ok tt.

Section endpoint.
Context `{EndpointIdOps}.

(** [validate_endpoint_id]: the canonical text of the identifier. *)
Definition validate_endpoint_id (value : string) : result string string :=
  let endpoint_id := str_trim value in
  reject? str_is_empty endpoint_id as "endpoint_id must not be empty" in
  match endpoint_from_str endpoint_id with
  | Some parsed => Ok (endpoint_to_string parsed)
  | None => Err "endpoint_id must be a canonical iroh EndpointID"
  end.
End endpoint.
