(* ===== verification/Net.v ===== *)
(** * Net: textual IP addresses, the parser of [std::net]

    A cursor is the list of bytes still to read; a reader returns the value
    and the rest, or [None] with the cursor where it was. *)

From S2P Require Import Prelude Text.

(** [char::to_digit]. *)
Definition to_digit (radix c : Z) : option Z :=
  let d := if is_ascii_digit c then Some (c - 48)
           else if is_ascii_lowercase c then Some (c - 87)
           else if is_ascii_uppercase c then Some (c - 55) else None in
  match d with
  | Some d => if d <? radix then Some d else None
  | None => None
  end.

(** The digits a cursor starts with, as values, and the rest. *)
Fixpoint read_digits (radix : Z) (p : list Z) : list Z * list Z :=
  match p with
  | c :: p' =>
      match to_digit radix c with
      | Some d => let '(ds, rest) := read_digits radix p' in (d :: ds, rest)
      | None => ([], p)
      end
  | [] => ([], [])
  end.

Definition digits_value (radix : Z) (ds : list Z) : Z :=
  fold_left (fun acc d => acc * radix + d) ds 0.

(** [Parser::read_number] for a type with maximum [mx]. *)
Definition read_number (radix mx : Z) (max_digits : option Z) (allow_zero_prefix : bool)
    (p : list Z) : option (Z * list Z) :=
  let has_leading_zero := bool_decide (head p = Some 48) in
  let '(ds, rest) := read_digits radix p in
  let digit_count := Z.of_nat (length ds) in
  let result := digits_value radix ds in
  if match max_digits with Some m => m <? digit_count | None => false end then None
  else if mx <? result then None
  else if digit_count =? 0 then None
  else if negb allow_zero_prefix && has_leading_zero && (1 <? digit_count) then None
  else Some (result, rest).

(** [Parser::read_given_char]. *)
Definition read_given_char (c : Z) (p : list Z) : option (list Z) :=
  match p with
  | b :: p' => if b =? c then Some p' else None
  | [] => None
  end.

(** [Parser::read_separator]: a separator first, unless the index is 0. *)
Definition read_separator {A} (sep : Z) (index : nat)
    (inner : list Z -> option (A * list Z)) (p : list Z) : option (A * list Z) :=
  match index with
  | O => inner p
  | S _ => match read_given_char sep p with Some p' => inner p' | None => None end
  end.

Definition read_octet (p : list Z) : option (Z * list Z) := read_number 10 255 (Some 3) false p.

(** [Parser::read_ipv4_addr]: four octets between dots. *)
Fixpoint read_octets (n index : nat) (p : list Z) : option (list Z * list Z) :=
  match n with
  | O => Some ([], p)
  | S n' =>
      match read_separator 46 index read_octet p with
      | Some (o, p1) =>
          match read_octets n' (S index) p1 with
          | Some (os, p2) => Some (o :: os, p2)
          | None => None
          end
      | None => None
      end
  end.

Definition read_ipv4_addr (p : list Z) : option (list Z * list Z) := read_octets 4 0 p.

(** The two groups an embedded IPv4 address stands for. *)
Definition ipv4_groups (octets : list Z) : list Z :=
  match octets with
  | [a; b; c; d] => [a * 256 + b; c * 256 + d]
  | _ => []
  end.

(** [read_groups] for the slots [i .. i + n - 1]: the groups read, whether the
    last two come from an IPv4 address, and the rest. *)
Fixpoint read_groups (n i : nat) (p : list Z) : list Z * bool * list Z :=
  match n with
  | O => ([], false, p)
  | S n' =>
      let v4 := match n' with
                | O => None
                | S _ => read_separator 58 i read_ipv4_addr p
                end in
      match v4 with
      | Some (octets, p1) => (ipv4_groups octets, true, p1)
      | None =>
          match read_separator 58 i (read_number 16 65535 (Some 4) true) p with
          | Some (g, p1) =>
              let '(gs, v4_tail, p2) := read_groups n' (S i) p1 in (g :: gs, v4_tail, p2)
          | None => ([], false, p)
          end
      end
  end.

(** [Parser::read_ipv6_addr]. *)
Definition read_ipv6_addr (p : list Z) : option (list Z * list Z) :=
  let '(head_groups, head_ipv4, p1) := read_groups 8 0 p in
  if Nat.eqb (length head_groups) 8 then Some (head_groups, p1)
  else if head_ipv4 then None
  else match read_given_char 58 p1 with
  | None => None
  | Some p2 =>
      match read_given_char 58 p2 with
      | None => None
      | Some p3 =>
          let '(tail, _, p4) := read_groups (7 - length head_groups) 0 p3 in
          Some (head_groups ++ replicate (8 - length head_groups - length tail)%nat 0
                  ++ tail, p4)
      end
  end.

Inductive IpAddr :=
| V4 (octets : list Z)
| V6 (groups : list Z).

(** [parse_with]: the reader must consume the whole text. *)
Definition parse_with {A} (inner : list Z -> option (A * list Z)) (s : string) : option A :=
  match inner (str_bytes s) with
  | Some (a, []) => Some a
  | _ => None
  end.

(** [Parser::read_ip_addr]. *)
Definition read_ip_addr (p : list Z) : option (IpAddr * list Z) :=
  match read_ipv4_addr p with
  | Some (o, p') => Some (V4 o, p')
  | None => match read_ipv6_addr p with
            | Some (g, p') => Some (V6 g, p')
            | None => None
            end
  end.

(** [str::parse::<IpAddr>]. *)
Definition parse_ip_addr (s : string) : option IpAddr := parse_with read_ip_addr s.

(** [str::parse::<SocketAddr>] on text without brackets, where only the IPv4
    form can be read: an address, a colon and a port. *)
Definition read_socket_addr_v4 (p : list Z) : option (list Z * Z * list Z) :=
  match read_ipv4_addr p with
  | Some (o, p1) =>
      match read_given_char 58 p1 with
      | Some p2 =>
          match read_number 10 65535 None true p2 with
          | Some (port, p3) => Some (o, port, p3)
          | None => None
          end
      | None => None
      end
  | None => None
  end.

Definition parse_socket_addr_v4 (s : string) : option (list Z * Z) :=
  parse_with (fun p => match read_socket_addr_v4 p with
                       | Some (o, port, p') => Some ((o, port), p')
                       | None => None
                       end) s.
