(* ===== verification/StoreTypes.v ===== *)
(** * StoreTypes: errors, statuses and records of the controller store
      (ocfleet-cli/src/store.rs and audit.rs, ocfleet-protocol/src/enrollment.rs) *)

From S2P Require Import Prelude Text External.

(** ** enrollment.rs: the status enums and the trust bundle *)

Inductive EnrollmentTokenStatus := TokenActive | TokenExpired | TokenRevoked.
Inductive JoinRequestStatus := JoinPending | JoinApproved | JoinRejected | JoinExpired.
Inductive EndpointStatus := Active | Rotated | Revoked | Quarantined.

#[export] Instance EnrollmentTokenStatus_eq_dec : EqDecision EnrollmentTokenStatus.
Proof. solve_decision. Defined.
#[export] Instance JoinRequestStatus_eq_dec : EqDecision JoinRequestStatus.
Proof. solve_decision. Defined.
#[export] Instance EndpointStatus_eq_dec : EqDecision EndpointStatus.
Proof. solve_decision. Defined.

Definition token_status_as_str (s : EnrollmentTokenStatus) : string :=
  match s with
  | TokenActive => "active" | TokenExpired => "expired" | TokenRevoked => "revoked"
  end.

Definition join_status_as_str (s : JoinRequestStatus) : string :=
  match s with
  | JoinPending => "pending" | JoinApproved => "approved"
  | JoinRejected => "rejected" | JoinExpired => "expired"
  end.

Definition endpoint_status_as_str (s : EndpointStatus) : string :=
  match s with
  | Active => "active" | Rotated => "rotated"
  | Revoked => "revoked" | Quarantined => "quarantined"
  end.

(** [EndpointStatus::from_str]. *)
Definition endpoint_status_from_str (value : string) : option EndpointStatus :=
  if String.eqb value "active" then Some Active
  else if String.eqb value "rotated" then Some Rotated
  else if String.eqb value "revoked" then Some Revoked
  else if String.eqb value "quarantined" then Some Quarantined
  else None.

Record TrustBundle := {
  tb_endpoint_id : string;
  tb_generation : Z;
  tb_status : EndpointStatus;
  tb_trusted_controllers : list string;
  tb_trusted_peers : list string;
  tb_authorized_path_probes : list (string * string);
}.

(** ** StoreError *)

(** The [rusqlite::Error]s the statements of the model can raise. *)
Inductive SqliteError :=
| ConstraintViolation (column : string)
| FromSqlConversionFailure (column : Z)
| ToSqlConversionFailure
| InvalidParameterName (name : string)
| InvalidQuery.

(** The variants that the modelled operations return. *)
Inductive StoreError :=
| Sqlite (e : SqliteError)
| NodeNotFound (node_id : string)
| NodeAlreadyExists (node_id : string)
| ObservabilityJobNotFound (job_id : string)
| ObservabilityRunNotFound (run_id : string)
| SchedulerClaimLost (job_id : string)
| ObservabilityRunNotRunning (run_id : string)
| EnrollmentRejected (reason : string)
| EnrollmentTokenNotFound (token_id : string)
| EnrollmentTokenConflict (token_id detail : string)
| InvalidEnrollmentTokenTransition (token_id status action : string)
| JoinRequestNotFound (request_id : string)
| EnrollmentRequestConflict (request_id detail : string)
| RetentionOperationConflict (operation_id detail : string)
| HealthEvaluationConflict (evaluation_id detail : string)
| AlertEvaluationConflict (evaluation_id detail : string)
| AlertMutationConflict (operation_id detail : string)
| InvalidJoinRequestStatus (request_id status expected : string)
| InvalidEnrollmentBinding (request_id detail : string)
| EndpointNotFound (endpoint_id : string)
| EndpointAlreadyExists (endpoint_id : string)
| InvalidEndpointTransition (endpoint_id from action : string)
| EndpointBindingMismatch (endpoint_id detail : string)
| AmbiguousActiveEndpointBinding (node_id : string)
| EndpointGenerationExhausted (endpoint_id : string)
| EndpointLineageInvalid (endpoint_id : string)
| InvalidInput (message : string).

(** ** Records *)

Record NodeInsert := {
  ni_node_id : string;
  ni_endpoint_id : string;
  ni_name : string;
  ni_region : string;
  ni_role : string;
}.

Record NodeRecord := {
  node_id : string;
  node_endpoint_id : string;
  node_name : string;
  node_region : string;
  node_role : string;
  node_enabled : bool;
}.

Record EnrollmentTokenInsert := {
  ti_token_id : string;
  ti_token_hash : string;
  ti_expires_at : string;
  ti_max_uses : Z;
  ti_description : option string;
  ti_labels_json : Value;
  ti_scope_json : Value;
}.

Record EnrollmentTokenRecord := {
  tok_token_id : string;
  tok_token_hash : string;
  tok_created_at : string;
  tok_created_by : string;
  tok_expires_at : string;
  tok_max_uses : Z;
  tok_used_count : Z;
  tok_status : EnrollmentTokenStatus;
  tok_description : option string;
  tok_labels_json : Value;
  tok_scope_json : Value;
}.

Record JoinRequestInsert := {
  ji_request_id : string;
  ji_token_plaintext : string;
  ji_agent_public_key : string;
  ji_fingerprint : string;
  ji_requested_endpoint_id : option string;
  ji_hostname : string;
  ji_agent_version : string;
  ji_requested_labels_json : Value;
}.

Record ApprovalInput := {
  ap_request_id : string;
  ap_endpoint_id : string;
  ap_node_id : string;
  ap_region : string;
  ap_role : string;
  ap_reason : string;
  ap_approved_labels_json : Value;
}.

Record LegacyEnrollmentClaimInput := {
  lc_request_id : string;
  lc_endpoint_id : string;
  lc_node_id : string;
  lc_region : string;
  lc_role : string;
  lc_reason : string;
}.

Record JoinRequestRecord := {
  jr_request_id : string;
  jr_token_id : string;
  jr_status : JoinRequestStatus;
  jr_agent_public_key : string;
  jr_fingerprint : string;
  jr_requested_endpoint_id : option string;
  jr_assigned_endpoint_id : option string;
  jr_hostname : string;
  jr_agent_version : string;
  jr_requested_labels_json : Value;
  jr_approved_labels_json : Value;
  jr_created_at : string;
  jr_approved_at : option string;
  jr_approved_by : option string;
  jr_rejection_reason : option string;
  jr_audit_correlation_id : string;
}.

Record EndpointTrustRecord := {
  et_endpoint_id : string;
  et_node_id : option string;
  et_fingerprint : option string;
  et_status : EndpointStatus;
  et_generation : Z;
  et_previous_endpoint_id : option string;
  et_rotated_to : option string;
  et_trust_bundle_json : Value;
  et_created_at : string;
  et_updated_at : string;
}.

Record EndpointDispatchBinding := {
  edb_status : EndpointStatus;
  edb_trust_node_id : option string;
  edb_registry_node_id : option string;
  edb_registry_endpoint_id : option string;
  edb_registry_enabled : option bool;
  edb_active_endpoint_count_for_node : Z;
}.

(** audit.rs. *)
Record AuditEvent := {
  ae_ts : string;
  ae_actor : string;
  ae_event : string;
  ae_node_id : option string;
  ae_endpoint_id : option string;
  ae_method : option string;
  ae_request_id : option string;
  ae_params_hash : option string;
  ae_ok : option bool;
  ae_error_code : option string;
  ae_duration_ms : option Z;
  ae_detail_json : Value;
}.

(** [Option<T>] in [json!]. *)
Definition json_opt {A} (f : A -> Value) (o : option A) : Value :=
  match o with Some a => f a | None => Null end.

Definition json_opt_str : option string -> Value := json_opt VString.

(** ** Equality of JSON values ([Value: PartialEq]) *)

Definition number_eqb (a b : Number) : bool :=
  match a, b with
  | PosInt m, PosInt n | NegInt m, NegInt n | Float m, Float n => m =? n
  | _, _ => false
  end.

Fixpoint value_eqb (a b : Value) {struct a} : bool :=
  match a, b with
  | Null, Null => true
  | VBool x, VBool y => Bool.eqb x y
  | VNumber x, VNumber y => number_eqb x y
  | VString x, VString y => String.eqb x y
  | VArray l, VArray k =>
      (fix go (l k : list Value) : bool :=
         match l, k with
         | [], [] => true
         | x :: l', y :: k' => value_eqb x y && go l' k'
         | _, _ => false
         end) l k
  | VObject l, VObject k =>
      (fix go (l k : list (string * Value)) : bool :=
         match l, k with
         | [], [] => true
         | (s, x) :: l', (t, y) :: k' => String.eqb s t && value_eqb x y && go l' k'
         | _, _ => false
         end) l k
  | _, _ => false
  end.

(** ** Lemmas *)

(** Induction over a JSON value with hypotheses for the elements. *)
Fixpoint Value_nested_ind (P : Value -> Prop)
    (Hnull : P Null) (Hbool : forall b, P (VBool b)) (Hnum : forall n, P (VNumber n))
    (Hstr : forall s, P (VString s))
    (Harr : forall l, Forall P l -> P (VArray l))
    (Hobj : forall m, Forall (fun e => P e.2) m -> P (VObject m))
    (v : Value) {struct v} : P v :=
  let rec := Value_nested_ind P Hnull Hbool Hnum Hstr Harr Hobj in
  match v with
  | Null => Hnull
  | VBool b => Hbool b
  | VNumber n => Hnum n
  | VString s => Hstr s
  | VArray l =>
      Harr l ((fix go (l : list Value) : Forall P l :=
                 match l with
                 | [] => List.Forall_nil P
                 | x :: l' => List.Forall_cons P x l' (rec x) (go l')
                 end) l)
  | VObject m =>
      Hobj m ((fix go (m : list (string * Value)) : Forall (fun e => P e.2) m :=
                 match m with
                 | [] => List.Forall_nil _
                 | e :: m' => List.Forall_cons (fun e => P e.2) e m' (rec e.2) (go m')
                 end) m)
  end.

Lemma number_eqb_spec a b : number_eqb a b = true <-> a = b.
Proof. destruct a, b; simpl; rewrite ?Z.eqb_eq; split; congruence. Qed.

Lemma value_eqb_spec a b : value_eqb a b = true <-> a = b.
Proof.
  revert b. induction a as [|x|x|x|l IH|m IH] using Value_nested_ind;
    intros [|y|y|y|k|k]; simpl; try (split; congruence).
  - rewrite eqb_true_iff. split; congruence.
  - rewrite number_eqb_spec. split; congruence.
  - rewrite String.eqb_eq. split; congruence.
  - transitivity (l = k); [|split; congruence]. revert k.
    induction IH as [|v l Hv _ IHl]; intros [|w k]; try (split; congruence).
    rewrite andb_true_iff, Hv, IHl. split; [intros [-> ->]; done|by intros [= -> ->]].
  - transitivity (m = k); [|split; congruence]. revert k.
    induction IH as [|[s v] m Hv _ IHm]; intros [|[t w] k]; try (split; congruence).
    simpl in Hv. rewrite !andb_true_iff, Hv, IHm, String.eqb_eq.
    split; [by intros [[-> ->] ->]|by intros [= -> -> ->]].
Qed.

#[export] Instance Value_eq_dec : EqDecision Value.
Proof.
  intros a b. destruct (value_eqb a b) eqn:E; [left|right];
    rewrite <- value_eqb_spec; congruence.
Defined.

Lemma endpoint_status_roundtrip s :
  endpoint_status_from_str (endpoint_status_as_str s) = Some s.
Proof. by destruct s. Qed.

#[export] Hint Resolve endpoint_status_roundtrip : fleet.
