(* ===== verification/StoredText.v ===== *)
(** * StoredText: what may be written to the controller database
      (ocfleet-cli/src/store.rs: validate_audit_text, validate_low_sensitive_json,
      forbidden_stored_key, forbidden_stored_value)

    Every JSON document and audit text passes these checks before it is
    stored: bounded size, depth and number of entries, no field names that
    hold credentials or personal data, no paths, commands or IP addresses in
    strings.  The number of bytes of the serialised document is serde_json's
    ([JsonOps]). *)

From stdpp Require Import pretty.
From S2P Require Import Prelude Text External Net StoreTypes.

(** [serde_json::to_vec(value).len()]. *)
Class JsonOps := { json_encoded_len : Value -> Z }.

Definition str_in_list (s : string) (l : list string) : bool := existsb (String.eqb s) l.

Lemma str_in_list_elem x l : str_in_list x l = true <-> x ∈ l.
Proof.
  unfold str_in_list. rewrite existsb_exists, list_elem_of_In. split.
  - intros (y & Hy & E). bool_facts. by subst.
  - intros Hx. exists x. by rewrite String.eqb_refl.
Qed.

(** ** forbidden_stored_key *)

Definition exempt_keys : list string := ["token_id"; "hmac_key_id"; "key_id"].

Definition forbidden_keys : list string :=
  ["body"; "user_name"; "client_ip"; "client_address"; "ip_address"; "assigned_vpn_ip";
   "session_id"; "session_token"; "certificate_san"; "certificate_pem"; "private_key";
   "config_content"; "provider_selector"].

Definition forbidden_key_markers : list string :=
  ["rawbody"; "username"; "clientip"; "sessionid"; "sessiontoken"; "privatekey"; "apitoken";
   "apikey"; "hmackey"; "authorization"; "bearertoken"; "stdout"; "stderr"].

Definition forbidden_key_segments : list string :=
  ["raw"; "stdout"; "stderr"; "username"; "user"; "account"; "password"; "secret";
   "credential"; "token"; "cookie"; "authorization"; "san"; "subject"; "issuer"; "serial";
   "command"; "shell"; "script"; "journal"].

(** [key.chars().filter(|c| c.is_ascii_alphanumeric()).collect()]. *)
Definition compact_key (key : string) : string :=
  concat_chunks (List.filter (fun c => is_ascii_alphanumeric c.1) (char_chunks key)).

Definition forbidden_stored_key (key : string) : bool :=
  let key := to_ascii_lowercase key in
  if str_in_list key exempt_keys then false
  else
    let compact := compact_key key in
    if str_in_list key forbidden_keys then true
    else if existsb (fun marker => str_contains marker compact) forbidden_key_markers then true
    else existsb (fun segment => str_in_list segment forbidden_key_segments)
                 (str_split (fun c => (c =? 95) || (c =? 45)) key).

(** ** forbidden_stored_value *)

Definition forbidden_value_markers : list string :=
  ["/etc/"; "/home/"; "/users/"; "/run/secrets/"; "/var/log"; "systemctl"; "journalctl";
   "occtl"; "shell.exec"; "command.run"; "file.read"; "username"; "client_ip"; "session_id";
   "password="; "password:"; "secret="; "secret:"; "token="; "token:"; "authorization:";
   "bearer "; "-----begin certificate-----"; "-----begin private key-----"].

(** The characters an address literal is made of: [is_ascii_hexdigit], a dot
    and a colon. *)
Definition address_char (c : Z) : bool := is_ascii_hexdigit c || (c =? 46) || (c =? 58).

Definition is_address_literal (part : string) : bool :=
  let sentence_trimmed := trim_end_matches (fun c => (c =? 46) || (c =? 58)) part in
  bool_decide (is_Some (parse_ip_addr part))
  || bool_decide (is_Some (parse_socket_addr_v4 part))
  || bool_decide (is_Some (parse_ip_addr sentence_trimmed))
  || bool_decide (is_Some (parse_socket_addr_v4 sentence_trimmed)).

Definition forbidden_stored_value (value : string) (key_context : option string) : bool :=
  let value := to_ascii_lowercase value in
  if existsb (fun marker => str_contains marker value) forbidden_value_markers then true
  else
    let contains_ip :=
      existsb is_address_literal (str_split (fun c => negb (address_char c)) value) in
    contains_ip
    && negb (match key_context with
             | Some k => String.eqb k "endpoint_host" || String.eqb k "host_allow"
             | None => false
             end).

(** ** validate_audit_text *)

(** [!byte.is_ascii() || byte.is_ascii_control()]. *)
Definition unsafe_byte (b : Z) : bool := negb (b <? 128) || is_ascii_control b.

Definition validate_audit_text (value field : string) (max : Z) : result StoreError unit :=
  reject? str_is_empty value || (max <? str_len value)
          || existsb unsafe_byte (str_bytes value) || forbidden_stored_value value None
    as InvalidInput (field +:+ " is not a bounded low-sensitive value") in
  Ok tt.

(** ** validate_low_sensitive_json *)

Definition MAX_JSON_BYTES : Z := 16 * 1024.
Definition MAX_DEPTH : Z := 8.
Definition MAX_ENTRIES : Z := 256.
Definition MAX_STRING_BYTES : Z := 512.

(** [validate_low_sensitive_json_value]; the counter [entries] is threaded
    through and returned. *)
Fixpoint validate_low_sensitive_json_value (value : Value) (field : string) (depth : Z)
    (entries : Z) (key_context : option string) {struct value} : result StoreError Z :=
  reject? MAX_DEPTH <? depth as InvalidInput (field +:+ " exceeds nesting limit") in
  match value with
  | VObject m =>
      (fix go (m : list (string * Value)) (entries : Z) : result StoreError Z :=
         match m with
         | [] => Ok entries
         | (key, v) :: m' =>
             let entries := entries + 1 in
             reject? MAX_ENTRIES <? entries
               as InvalidInput (field +:+ " exceeds entry limit") in
             reject? (64 <? str_len key) || forbidden_stored_key key
               as InvalidInput (field +:+ " contains a forbidden field") in
             let? entries :=
               validate_low_sensitive_json_value v field (depth + 1) entries (Some key) in
             go m' entries
         end) m entries
  | VArray l =>
      (fix go (l : list Value) (entries : Z) : result StoreError Z :=
         match l with
         | [] => Ok entries
         | v :: l' =>
             let entries := entries + 1 in
             reject? MAX_ENTRIES <? entries
               as InvalidInput (field +:+ " exceeds entry limit") in
             let? entries :=
               validate_low_sensitive_json_value v field (depth + 1) entries key_context in
             go l' entries
         end) l entries
  | VString s =>
      reject? (MAX_STRING_BYTES <? str_len s) || existsb unsafe_byte (str_bytes s)
              || forbidden_stored_value s key_context
        as InvalidInput (field +:+ " contains an unsafe string") in
      Ok entries
  | Null | VBool _ | VNumber _ => Ok entries
  end.

Definition validate_low_sensitive_json `{JsonOps} (value : Value) (field : string)
    : result StoreError unit :=
  reject? MAX_JSON_BYTES <? json_encoded_len value
    as InvalidInput (field +:+ " exceeds " +:+ pretty MAX_JSON_BYTES +:+ " bytes") in
  let? _ := validate_low_sensitive_json_value value field 0 0 None in
  Ok tt.

(** ** What acceptance means *)

(** [stored_safe ctx d v n]: the document [v] at depth [d], under the key
    [ctx], has [n] entries in all and nothing forbidden. *)
Inductive stored_safe : option string -> Z -> Value -> Z -> Prop :=
| safe_scalar ctx d v :
    d <= MAX_DEPTH ->
    (match v with Null | VBool _ | VNumber _ => True | _ => False end) ->
    stored_safe ctx d v 0
| safe_string ctx d s :
    d <= MAX_DEPTH -> str_len s <= MAX_STRING_BYTES ->
    Forall (fun b => 32 <= b <= 126) (str_bytes s) ->
    forbidden_stored_value s ctx = false ->
    stored_safe ctx d (VString s) 0
| safe_array ctx d l n :
    d <= MAX_DEPTH -> safe_elems ctx d l n -> stored_safe ctx d (VArray l) n
| safe_object ctx d m n :
    d <= MAX_DEPTH -> safe_members d m n -> stored_safe ctx d (VObject m) n
with safe_elems : option string -> Z -> list Value -> Z -> Prop :=
| elems_nil ctx d : safe_elems ctx d [] 0
| elems_cons ctx d v l n k :
    stored_safe ctx (d + 1) v n -> safe_elems ctx d l k ->
    safe_elems ctx d (v :: l) (1 + n + k)
with safe_members : Z -> list (string * Value) -> Z -> Prop :=
| members_nil d : safe_members d [] 0
| members_cons d key v m n k :
    str_len key <= 64 -> forbidden_stored_key key = false ->
    stored_safe (Some key) (d + 1) v n -> safe_members d m k ->
    safe_members d ((key, v) :: m) (1 + n + k).

(** ** Proofs *)

Lemma unsafe_bytes_none s :
  existsb unsafe_byte (str_bytes s) = false -> Forall (fun b => 32 <= b <= 126) (str_bytes s).
Proof.
  intros H. apply Forall_forall. intros b Hb.
  pose proof (str_bytes_bound s) as Hs. rewrite Forall_forall in Hs. specialize (Hs b Hb).
  assert (unsafe_byte b = false) as Hu.
  { destruct (unsafe_byte b) eqn:E; [|done]. rewrite <- H. symmetry.
    apply existsb_exists. exists b. split; [by apply list_elem_of_In|done]. }
  unfold unsafe_byte, is_ascii_control, in_range in Hu. bool_facts. lia.
Qed.

(** An accepted document is safe and the counter grows by its entries. *)
Lemma validate_value_sound v field d entries ctx entries' :
  validate_low_sensitive_json_value v field d entries ctx = Ok entries' ->
  exists n, stored_safe ctx d v n /\ 0 <= n /\ entries' = entries + n.
Proof.
  revert d entries ctx entries'.
  induction v as [|b|n|s|l IH|m IH] using Value_nested_ind; intros d entries ctx entries' Hv;
    simpl in Hv; destruct (MAX_DEPTH <? d) eqn:Hd; try discriminate; apply Z.ltb_ge in Hd.
  - simplify_eq. exists 0. split; [by constructor|lia].
  - simplify_eq. exists 0. split; [by constructor|lia].
  - simplify_eq. exists 0. split; [by constructor|lia].
  - peel Hv. exists 0. split; [|lia]. apply safe_string; auto using unsafe_bytes_none.
  - assert (exists k, safe_elems ctx d l k /\ 0 <= k /\ entries' = entries + k) as (k & ? & ? & ->);
      [|exists k; split; [by apply safe_array|done]].
    revert entries Hv. induction IH as [|v l Hx _ IHl]; intros entries Hv.
    + simplify_eq. exists 0. split; [constructor|lia].
    + destruct (_ <? _); [done|].
      destruct (validate_low_sensitive_json_value v _ _ _ _) as [e1|] eqn:E; [|done].
      apply Hx in E as (n1 & Hn1 & ? & ->). apply IHl in Hv as (k1 & Hk1 & ? & ->).
      exists (1 + n1 + k1). split; [by constructor|lia].
  - assert (exists k, safe_members d m k /\ 0 <= k /\ entries' = entries + k) as (k & ? & ? & ->);
      [|exists k; split; [by apply safe_object|done]].
    revert entries Hv. induction IH as [|[key v] m Hx _ IHm]; intros entries Hv.
    + simplify_eq. exists 0. split; [constructor|lia].
    + destruct (_ <? _); [done|]. destruct (_ || _) eqn:Hk; [done|].
      destruct (validate_low_sensitive_json_value v _ _ _ _) as [e1|] eqn:E; [|done].
      simpl in Hx. apply Hx in E as (n1 & Hn1 & ? & ->). apply IHm in Hv as (k1 & Hk1 & ? & ->).
      bool_facts. exists (1 + n1 + k1). split; [by constructor|lia].
Qed.

Scheme stored_safe_mut := Minimality for stored_safe Sort Prop
  with safe_elems_mut := Minimality for safe_elems Sort Prop
  with safe_members_mut := Minimality for safe_members Sort Prop.

Lemma stored_safe_nonneg ctx d v n : stored_safe ctx d v n -> 0 <= n.
Proof.
  induction 1 using stored_safe_mut with
    (P0 := fun _ _ _ n => 0 <= n) (P1 := fun _ _ n => 0 <= n); lia.
Qed.

Lemma safe_elems_nonneg ctx d l n : safe_elems ctx d l n -> 0 <= n.
Proof. induction 1 as [|????? ? Hv]; [done|]. apply stored_safe_nonneg in Hv. lia. Qed.

Lemma safe_members_nonneg d m n : safe_members d m n -> 0 <= n.
Proof. induction 1 as [|?????? ?? Hv]; [done|]. apply stored_safe_nonneg in Hv. lia. Qed.

Lemma safe_bytes_ok s :
  Forall (fun b => 32 <= b <= 126) (str_bytes s) -> existsb unsafe_byte (str_bytes s) = false.
Proof.
  induction 1 as [|b l Hb _ IH]; [done|]. simpl. rewrite IH.
  unfold unsafe_byte, is_ascii_control, in_range.
  destruct (b <? 128) eqn:?, (0 <=? b) eqn:?, (b <=? 31) eqn:?, (b =? 127) eqn:?;
    bool_facts; simpl; try done; lia.
Qed.

(** A safe document within the entry limit is accepted. *)
Lemma validate_value_complete ctx d v n field entries :
  stored_safe ctx d v n -> entries + n <= MAX_ENTRIES ->
  validate_low_sensitive_json_value v field d entries ctx = Ok (entries + n).
Proof.
  revert d entries ctx n.
  induction v as [|b|x|s|l IH|m IH] using Value_nested_ind; intros d entries ctx n Hs Hn;
    simpl; inversion Hs; subst; try done;
    (destruct (MAX_DEPTH <? d) eqn:?; [bool_facts; lia|]); try (f_equal; lia).
  - match goal with H : str_len s <= _ |- _ => apply Z.ltb_ge in H as -> end.
    rewrite safe_bytes_ok by done.
    match goal with H : forbidden_stored_value s _ = false |- _ => rewrite H end.
    simpl. f_equal. lia.
  - clear Hs. match goal with H : safe_elems _ _ _ _ |- _ => rename H into He end.
    revert entries n He Hn. induction IH as [|v l Hv _ IHl]; intros entries n He Hn;
      inversion He; subst; [f_equal; lia|].
    match goal with H : safe_elems _ _ l _ |- _ => rename H into Hl end.
    match goal with H : stored_safe _ _ v _ |- _ => rename H into Hsv end.
    pose proof (safe_elems_nonneg _ _ _ _ Hl). pose proof (stored_safe_nonneg _ _ _ _ Hsv).
    destruct (MAX_ENTRIES <? entries + 1) eqn:?; [bool_facts; lia|].
    rewrite (Hv (d + 1) (entries + 1) ctx n0 Hsv) by lia.
    rewrite (IHl _ k Hl) by lia. f_equal. lia.
  - clear Hs. match goal with H : safe_members _ _ _ |- _ => rename H into He end.
    revert entries n He Hn. induction IH as [|[key v] m Hv _ IHm]; intros entries n He Hn;
      inversion He; subst; [f_equal; lia|].
    match goal with H : safe_members _ m _ |- _ => rename H into Hm end.
    match goal with H : stored_safe _ _ v _ |- _ => rename H into Hsv end.
    pose proof (safe_members_nonneg _ _ _ Hm). pose proof (stored_safe_nonneg _ _ _ _ Hsv).
    destruct (MAX_ENTRIES <? entries + 1) eqn:?; [bool_facts; lia|].
    match goal with H : str_len key <= 64 |- _ => apply Z.ltb_ge in H as -> end.
    match goal with H : forbidden_stored_key key = false |- _ => rewrite H end.
    simpl in Hv |- *.
    rewrite (Hv (d + 1) (entries + 1) (Some key) n0 Hsv) by lia.
    rewrite (IHm _ k Hm) by lia. f_equal. lia.
Qed.

(** The counter never passes the entry limit. *)
Lemma validate_value_bound v field d entries ctx entries' :
  validate_low_sensitive_json_value v field d entries ctx = Ok entries' ->
  entries' <= Z.max entries MAX_ENTRIES.
Proof.
  revert d entries ctx entries'.
  induction v as [|b|n|s|l IH|m IH] using Value_nested_ind; intros d entries ctx entries' Hv;
    simpl in Hv; destruct (MAX_DEPTH <? d); try discriminate; try (peel Hv; lia).
  - revert entries Hv. induction IH as [|v l Hx _ IHl]; intros entries Hv; [simplify_eq; lia|].
    destruct (_ <? _) eqn:?; [done|].
    destruct (validate_low_sensitive_json_value v _ _ _ _) as [e1|] eqn:E; [|done].
    apply Hx in E. apply IHl in Hv. bool_facts. lia.
  - revert entries Hv. induction IH as [|[k v] m Hx _ IHm]; intros entries Hv; [simplify_eq; lia|].
    destruct (_ <? _) eqn:?; [done|]. destruct (_ || _); [done|].
    destruct (validate_low_sensitive_json_value v _ _ _ _) as [e1|] eqn:E; [|done].
    simpl in Hx. apply Hx in E. apply IHm in Hv. bool_facts. lia.
Qed.

(** ** Address literals are found wherever they are delimited *)

(** A stretch without separators, delimited on both sides, is a piece. *)
Lemma split_chunks_piece p pre mid post :
  forallb (fun c => negb (p (fst c))) mid = true ->
  (forall c, last pre = Some c -> p c.1 = true) ->
  (forall c, head post = Some c -> p c.1 = true) ->
  mid ∈ split_chunks p (pre ++ mid ++ post).
Proof.
  intros Hmid Hpre Hpost.
  assert (exists rest, split_chunks p (mid ++ post) = mid :: rest) as [rest Hrest].
  { destruct post as [|c post]; [rewrite app_nil_r; eauto using split_chunks_none|].
    eexists. apply split_chunks_head; [done|]. by apply Hpost. }
  destruct (decide (pre = [])) as [->|Hne]; [simpl; rewrite Hrest; left|].
  destruct (exists_last Hne) as (pre' & c & ->). rewrite <- app_assoc. simpl.
  rewrite (split_chunks_app p pre' c (mid ++ post)); [rewrite Hrest; set_solver|].
  apply Hpre. apply last_snoc.
Qed.

Lemma lower_byte a : byte_of (ascii_lower a) =
  if is_ascii_uppercase (byte_of a) then byte_of a + 32 else byte_of a.
Proof.
  unfold ascii_lower, byte_of. destruct (is_ascii_uppercase _) eqn:E; [|done].
  unfold is_ascii_uppercase in E. bool_facts.
  rewrite N_ascii_embedding; lia.
Qed.

Lemma address_char_lower a : address_char (byte_of (ascii_lower a)) = address_char (byte_of a).
Proof. destruct a as [[] [] [] [] [] [] [] []]; reflexivity. Qed.

Lemma list_ascii_lower s :
  list_ascii_of_string (to_ascii_lowercase s) = map ascii_lower (list_ascii_of_string s).
Proof. unfold to_ascii_lowercase. apply list_ascii_of_string_of_list_ascii. Qed.

Lemma ascii_lower_ascii s :
  existsb unsafe_byte (str_bytes s) = false ->
  forallb (fun b => b <? 128) (str_bytes (to_ascii_lowercase s)) = true.
Proof.
  unfold str_bytes. rewrite list_ascii_lower, map_map.
  induction (list_ascii_of_string s) as [|a l IH]; [done|]. simpl. intros H. bool_facts.
  rewrite IH by done. rewrite andb_true_r, lower_byte.
  unfold unsafe_byte, is_ascii_uppercase in *. bool_facts.
  destruct (in_range _ _ _) eqn:E; bool_facts; apply Z.ltb_lt; lia.
Qed.

(** A delimited address literal makes the value forbidden. *)
Lemma forbidden_address pre addr post :
  existsb unsafe_byte (str_bytes (pre +:+ addr +:+ post)) = false ->
  is_Some (parse_ip_addr (to_ascii_lowercase addr)) ->
  forallb address_char (str_bytes addr) = true ->
  (forall b, last (str_bytes pre) = Some b -> address_char b = false) ->
  (forall b, head (str_bytes post) = Some b -> address_char b = false) ->
  forbidden_stored_value (pre +:+ addr +:+ post) None = true.
Proof.
  intros Hsafe Hip Haddr Hpre Hpost. unfold forbidden_stored_value.
  destruct (existsb _ forbidden_value_markers); [done|]. rewrite andb_true_r.
  apply existsb_exists. exists (to_ascii_lowercase addr). split.
  2: { unfold is_address_literal. rewrite (bool_decide_eq_true_2 _ Hip). done. }
  set (f := fun a => (byte_of a, String a EmptyString)).
  assert (to_ascii_lowercase addr =
          concat_chunks (map f (map ascii_lower (list_ascii_of_string addr)))) as ->.
  { unfold f. rewrite concat_chunks_ascii. done. }
  unfold str_split. apply in_map, list_elem_of_In.
  rewrite char_chunks_ascii by by apply ascii_lower_ascii.
  rewrite list_ascii_lower, !list_ascii_app, !map_app. fold f.
  apply split_chunks_piece.
  - unfold str_bytes in Haddr. rewrite forallb_forall in Haddr |- *. intros c Hc.
    apply in_map_iff in Hc as (a & <- & Ha). apply in_map_iff in Ha as (a' & <- & Ha').
    simpl. rewrite negb_involutive, address_char_lower. apply Haddr. by apply in_map.
  - intros c Hc. unfold str_bytes in Hpre. rewrite !fmap_last in Hc. rewrite fmap_last in Hpre.
    destruct (last (list_ascii_of_string pre)) as [a|]; [|done]. simpl in Hc, Hpre. simplify_eq.
    simpl. rewrite address_char_lower, Hpre; done.
  - intros c Hc. unfold str_bytes in Hpost.
    destruct (list_ascii_of_string post) as [|a l]; [done|]. simpl in Hc, Hpost. simplify_eq.
    simpl. rewrite address_char_lower, Hpost; done.
Qed.

(** ** Properties *)

(** A JSON document is accepted for storage exactly when its encoding has
    at most 16 KiB and it is safe throughout: nesting of at most eight levels,
    at most 256 entries counted over the whole tree, every member name at most
    64 bytes and not on the forbidden lists, every string at most 512 bytes of
    printable ASCII without forbidden content for the member it stands under.
    Nothing safe is refused. *)
Theorem stored_document_accepted_iff `{JsonOps} (v : Value) (field : string) :
  validate_low_sensitive_json v field = Ok tt <->
  json_encoded_len v <= MAX_JSON_BYTES /\
  exists n, stored_safe None 0 v n /\ n <= MAX_ENTRIES.
Proof.
  unfold validate_low_sensitive_json. split.
  - intros Hv. peel Hv. split; [done|].
    pose proof (validate_value_sound _ _ _ _ _ _ Hm) as (n & Hn & Hpos & Ha).
    exists n. split; [done|]. pose proof (validate_value_bound _ _ _ _ _ _ Hm) as Hb. unfold MAX_ENTRIES in *. lia.
  - intros (Hlen & n & Hn & Hle). apply Z.ltb_ge in Hlen as ->.
    by rewrite (validate_value_complete _ _ _ n).
Qed.

(** No audit text that contains an IP address is accepted: if some part
    of the text parses as an IPv4 or IPv6 address once lowered, consists of
    address characters and is delimited on both sides by the end of the text
    or by any other character, [validate_audit_text] refuses the text. *)
Theorem audit_text_without_addresses (pre addr post field : string) (max : Z) :
  is_Some (parse_ip_addr (to_ascii_lowercase addr)) ->
  forallb address_char (str_bytes addr) = true ->
  (forall b, last (str_bytes pre) = Some b -> address_char b = false) ->
  (forall b, head (str_bytes post) = Some b -> address_char b = false) ->
  validate_audit_text (pre +:+ addr +:+ post) field max
  = Err (InvalidInput (field +:+ " is not a bounded low-sensitive value")).
Proof.
  intros Hip Haddr Hpre Hpost. unfold validate_audit_text.
  destruct (existsb unsafe_byte (str_bytes (pre +:+ addr +:+ post))) eqn:Hs.
  - by rewrite orb_true_r.
  - by rewrite forbidden_address, !orb_true_r.
Qed.

Lemma audit_text_without_addresses_witness :
  validate_audit_text ("peer " +:+ "FE80::1" +:+ ", slow") "reason" 256
  = Err (InvalidInput ("reason" +:+ " is not a bounded low-sensitive value")).
Proof.
  refine (audit_text_without_addresses "peer " "FE80::1" ", slow" "reason" 256 _ _ _ _).
  - vm_compute. eauto.
  - reflexivity.
  - intros b Hb. vm_compute in Hb. injection Hb as <-. reflexivity.
  - intros b Hb. vm_compute in Hb. injection Hb as <-. reflexivity.
Defined.
