(* ===== verification/StoragePayloads.v ===== *)
(** * StoragePayloads: the JSON payloads of the trust, enrollment and audit tables
      (ocfleet-cli/src/storage_payloads.rs)

    A payload is decoded from a JSON value with serde's derived rules, checked,
    and written back as a JSON value.  Object members are kept in key order, as
    serde_json's map keeps them. *)

From stdpp Require Import pretty.
From S2P Require Import Prelude Text External InputValidation StoreTypes StoredText.

(** ** serde: derived decoding from a [Value] *)

(** The members of a struct in declaration order, from an object (all members
    present, unknown ones refused when [deny] is set) or from an array of
    exactly as many elements. *)
Definition struct_fields (deny : bool) (names : list string) (v : Value)
    : option (list Value) :=
  match v with
  | VObject m =>
      if deny && existsb (fun e => negb (str_in_list e.1 names)) m then None
      else mapM (fun name => map_get name m) names
  | VArray l => if Nat.eqb (length l) (length names) then Some l else None
  | _ => None
  end.

Definition de_vec {A} (de : Value -> option A) (v : Value) : option (list A) :=
  match as_array v with Some l => mapM de l | None => None end.

Definition de_pair (v : Value) : option (string * string) :=
  match v with VArray [VString a; VString b] => Some (a, b) | _ => None end.

(** A field of type [Option<T>]: [null] is [None]. *)
Definition de_opt {A} (de : Value -> option A) (v : Value) : option (option A) :=
  match v with Null => Some None | _ => Some <$> de v end.

(** A fieldless enum: its name, or an object with the name and [null]. *)
Definition de_unit_variant {A} (from_str : string -> option A) (v : Value) : option A :=
  match v with
  | VString s => from_str s
  | VObject [(s, Null)] => from_str s
  | _ => None
  end.

Definition json_strs (l : list string) : Value := VArray (map VString l).
Definition json_pairs (l : list (string * string)) : Value :=
  VArray (map (fun p => VArray [VString p.1; VString p.2]) l).

(** ** Identifiers *)

Definition validate_fixed_id (value : string) (max_len : Z) (field : string)
    : result string unit :=
  if negb (str_is_empty value) && (str_len value <=? max_len)
     && forallb (fun b => is_ascii_alphanumeric b || (b =? 46) || (b =? 95) || (b =? 45)
                          || (b =? 58)) (str_bytes value)
  then Ok tt
  else Err (field +:+ " must be 1-" +:+ pretty max_len
            +:+ " chars and contain only [a-zA-Z0-9._:-]").

(** ** TrustBundlePayloadV1 *)

Definition TRUST_BUNDLE_SCHEMA_V1 : string := "ocfleet.trust.bundle.v1".

Record TrustBundlePayloadV1 := {
  tbp_schema : string;
  tbp_endpoint_id : string;
  tbp_generation : Z;
  tbp_status : string;
  tbp_trusted_controllers : list string;
  tbp_trusted_peers : list string;
  tbp_authorized_path_probes : list (string * string);
}.

(** The loop of [validate_trust_id_list] with the set of values seen. *)
Fixpoint trust_ids_loop (field : string) (unique : list string) (values : list string)
    : result string unit :=
  match values with
  | [] => Ok tt
  | value :: values' =>
      let? _ := validate_fixed_id value 128 field in
      reject? str_in_list value unique
        as ("trust bundle " +:+ field +:+ " entries must be unique") in
      trust_ids_loop field (value :: unique) values'
  end.

Definition validate_trust_id_list (values : list string) (field : string)
    : result string unit :=
  reject? 1024 <? Z.of_nat (length values)
    as ("trust bundle has too many " +:+ field +:+ " entries") in
  trust_ids_loop field [] values.

(** The loop over the authorized path probes. *)
Fixpoint path_pairs_loop (pairs : list (string * string)) (l : list (string * string))
    : result string unit :=
  match l with
  | [] => Ok tt
  | (source, target) :: l' =>
      let? _ := validate_fixed_id source 128 "authorized path source" in
      let? _ := validate_fixed_id target 128 "authorized path target" in
      reject? String.eqb source target
        as "authorized path probe requires distinct endpoints" in
      reject? bool_decide ((source, target) ∈ pairs)
        as "trust bundle authorized path probes must be unique" in
      path_pairs_loop ((source, target) :: pairs) l'
  end.

Definition tbp_validate (p : TrustBundlePayloadV1) : result string unit :=
  reject? negb (String.eqb (tbp_schema p) TRUST_BUNDLE_SCHEMA_V1)
    as "trust bundle payload schema is unsupported" in
  let? _ := validate_fixed_id (tbp_endpoint_id p) 128 "trust bundle endpoint ID" in
  reject? (tbp_generation p =? 0) || (i64_max <? tbp_generation p)
    as "trust bundle generation is out of range" in
  reject? negb (str_in_list (tbp_status p) ["active"; "rotated"; "revoked"; "quarantined"])
    as "trust bundle status is unsupported" in
  let? _ := validate_trust_id_list (tbp_trusted_controllers p) "trusted controller" in
  let? _ := validate_trust_id_list (tbp_trusted_peers p) "trusted peer" in
  reject? 1024 <? Z.of_nat (length (tbp_authorized_path_probes p))
    as "trust bundle has too many authorized path probes" in
  path_pairs_loop [] (tbp_authorized_path_probes p).

Definition tbp_new (endpoint_id : string) (generation : Z) (status : string)
    (controllers peers : list string) (probes : list (string * string))
    : result string TrustBundlePayloadV1 :=
  let payload := {| tbp_schema := TRUST_BUNDLE_SCHEMA_V1; tbp_endpoint_id := endpoint_id;
                    tbp_generation := generation; tbp_status := status;
                    tbp_trusted_controllers := controllers; tbp_trusted_peers := peers;
                    tbp_authorized_path_probes := probes |} in
  let? _ := tbp_validate payload in
  Ok payload.

(** The derived decoder of the payload. *)
Definition tbp_decode (v : Value) : option TrustBundlePayloadV1 :=
  match struct_fields true ["schema"; "endpoint_id"; "generation"; "status";
          "trusted_controllers"; "trusted_peers"; "authorized_path_probes"] v with
  | Some [a; b; c; d; e; f; g] =>
      match as_str a, as_str b, as_u64 c, as_str d,
            de_vec as_str e, de_vec as_str f, de_vec de_pair g with
      | Some a, Some b, Some c, Some d, Some e, Some f, Some g =>
          Some {| tbp_schema := a; tbp_endpoint_id := b; tbp_generation := c; tbp_status := d;
                  tbp_trusted_controllers := e; tbp_trusted_peers := f;
                  tbp_authorized_path_probes := g |}
      | _, _, _, _, _, _, _ => None
      end
  | _ => None
  end.

Definition tbp_from_value (v : Value) : result string TrustBundlePayloadV1 :=
  let? payload := ok_or (tbp_decode v) "trust bundle payload is not closed v1 data" in
  let? _ := tbp_validate payload in
  Ok payload.

Definition legacy_bundle_fields : list string :=
  ["endpoint_id"; "generation"; "status"; "trusted_controllers"; "trusted_peers";
   "authorized_path_probes"].

(** A field of the legacy bundle, its default when the member is missing. *)
Definition de_default {A} (de : Value -> option A) (default : A) (o : option Value)
    : option A :=
  match o with Some v => de v | None => Some default end.

(** [LegacyTrustBundleV1], decoded from the members of an object. *)
Definition legacy_decode (m : list (string * Value))
    : option (option string * option Z * option string
              * list string * list string * list (string * string)) :=
  if existsb (fun e => negb (str_in_list e.1 legacy_bundle_fields)) m then None
  else match de_default (de_opt as_str) None (map_get "endpoint_id" m),
             de_default (de_opt as_u64) None (map_get "generation" m),
             de_default (de_opt as_str) None (map_get "status" m),
             de_default (de_vec as_str) [] (map_get "trusted_controllers" m),
             de_default (de_vec as_str) [] (map_get "trusted_peers" m),
             de_default (de_vec de_pair) [] (map_get "authorized_path_probes" m) with
  | Some a, Some b, Some c, Some d, Some e, Some f => Some (a, b, c, d, e, f)
  | _, _, _, _, _, _ => None
  end.

(** [stored.is_some_and(|stored| stored != expected)]. *)
Definition differs {A} `{EqDecision A} (stored : option A) (expected : A) : bool :=
  match stored with Some s => bool_decide (s <> expected) | None => false end.

Definition tbp_from_legacy (endpoint_id : string) (generation : Z) (status : string)
    (v : Value) : result string TrustBundlePayloadV1 :=
  let? object := ok_or (as_object v) "legacy trust bundle must be an object" in
  reject? negb (Nat.eqb (length object) 0)
          && (negb (Nat.eqb (length object) 6)
              || existsb (fun field => negb (map_contains_key field object))
                         legacy_bundle_fields)
    as "legacy trust bundle must be empty or complete" in
  let? legacy := ok_or (legacy_decode object)
                       "trust bundle contains unsupported fields or values" in
  let '(l_endpoint, l_generation, l_status, controllers, peers, probes) := legacy in
  reject? differs l_endpoint endpoint_id || differs l_generation generation
          || differs l_status status
    as "legacy trust bundle is inconsistent with endpoint state" in
  tbp_new endpoint_id generation status controllers peers probes.

Definition tbp_to_value (p : TrustBundlePayloadV1) : Value :=
  VObject [("authorized_path_probes", json_pairs (tbp_authorized_path_probes p));
           ("endpoint_id", VString (tbp_endpoint_id p));
           ("generation", json_u64 (tbp_generation p));
           ("schema", VString (tbp_schema p));
           ("status", VString (tbp_status p));
           ("trusted_controllers", json_strs (tbp_trusted_controllers p));
           ("trusted_peers", json_strs (tbp_trusted_peers p))].

Definition tbp_public_bundle (p : TrustBundlePayloadV1) : Value :=
  VObject [("authorized_path_probes", json_pairs (tbp_authorized_path_probes p));
           ("endpoint_id", VString (tbp_endpoint_id p));
           ("generation", json_u64 (tbp_generation p));
           ("status", VString (tbp_status p));
           ("trusted_controllers", json_strs (tbp_trusted_controllers p));
           ("trusted_peers", json_strs (tbp_trusted_peers p))].

Definition tbp_validate_relationship (p : TrustBundlePayloadV1) (endpoint_id : string)
    (generation : Z) (status : string) : result string unit :=
  reject? negb (String.eqb (tbp_endpoint_id p) endpoint_id)
          || negb (tbp_generation p =? generation)
          || negb (String.eqb (tbp_status p) status)
    as "trust bundle does not match relational endpoint, generation, or status" in
  Ok tt.

(** ** EnrollmentMetadataPayloadV1 *)

Definition ENROLLMENT_METADATA_SCHEMA_V1 : string := "ocfleet.enrollment.metadata.v1".

Inductive EnrollmentMetadataKindV1 := TokenLabels | TokenScope | RequestedLabels | ApprovedLabels.

#[export] Instance EnrollmentMetadataKindV1_eq_dec : EqDecision EnrollmentMetadataKindV1.
Proof. solve_decision. Defined.

Definition kind_field_name (k : EnrollmentMetadataKindV1) : string :=
  match k with
  | TokenLabels => "labels" | TokenScope => "scope"
  | RequestedLabels => "requested_labels" | ApprovedLabels => "approved_labels"
  end.

(** The serde names of the kinds, [rename_all = "snake_case"]. *)
Definition kind_name (k : EnrollmentMetadataKindV1) : string :=
  match k with
  | TokenLabels => "token_labels" | TokenScope => "token_scope"
  | RequestedLabels => "requested_labels" | ApprovedLabels => "approved_labels"
  end.

Definition kind_from_name (s : string) : option EnrollmentMetadataKindV1 :=
  if String.eqb s "token_labels" then Some TokenLabels
  else if String.eqb s "token_scope" then Some TokenScope
  else if String.eqb s "requested_labels" then Some RequestedLabels
  else if String.eqb s "approved_labels" then Some ApprovedLabels
  else None.

(** [BTreeMap<String, EnrollmentMetadataValueV1>]: members that are scalars. *)
Record EnrollmentMetadataPayloadV1 := {
  emp_schema : string;
  emp_kind : EnrollmentMetadataKindV1;
  emp_values : list (string * Value);
}.

Definition is_scalar (v : Value) : bool :=
  match v with VArray _ | VObject _ => false | _ => true end.

Definition de_scalar_map (v : Value) : option (list (string * Value)) :=
  match v with
  | VObject m => if forallb (fun e => is_scalar e.2) m then Some m else None
  | _ => None
  end.

Definition emp_to_value (p : EnrollmentMetadataPayloadV1) : Value :=
  VObject [("kind", VString (kind_name (emp_kind p)));
           ("schema", VString (emp_schema p));
           ("values", VObject (emp_values p))].

Definition emp_public_value (p : EnrollmentMetadataPayloadV1) : Value := VObject (emp_values p).

(** [StoreError::to_string] for the error of [validate_low_sensitive_json]. *)
Definition invalid_input_text (e : StoreError) : string :=
  match e with InvalidInput m => ("invalid input: " +:+ m)%string | _ => EmptyString end.

Section metadata.
Context `{JsonOps}.

Definition emp_validate (p : EnrollmentMetadataPayloadV1)
    (expected_kind : EnrollmentMetadataKindV1) : result string unit :=
  reject? negb (String.eqb (emp_schema p) ENROLLMENT_METADATA_SCHEMA_V1)
    as "enrollment metadata payload schema is unsupported" in
  reject? bool_decide (emp_kind p <> expected_kind)
    as "enrollment metadata payload kind is inconsistent" in
  let? _ := validate_label_json (emp_public_value p) (kind_field_name (emp_kind p)) in
  map_err invalid_input_text
    (validate_low_sensitive_json (emp_to_value p) "enrollment metadata payload").

Definition emp_new (kind : EnrollmentMetadataKindV1) (v : Value)
    : result string EnrollmentMetadataPayloadV1 :=
  let? values := ok_or (de_scalar_map v)
                       (kind_field_name kind +:+ " must contain scalar values")%string in
  let payload := {| emp_schema := ENROLLMENT_METADATA_SCHEMA_V1; emp_kind := kind;
                    emp_values := values |} in
  let? _ := emp_validate payload kind in
  Ok payload.

Definition emp_decode (v : Value) : option EnrollmentMetadataPayloadV1 :=
  match struct_fields true ["schema"; "kind"; "values"] v with
  | Some [a; b; c] =>
      match as_str a, de_unit_variant kind_from_name b, de_scalar_map c with
      | Some a, Some b, Some c =>
          Some {| emp_schema := a; emp_kind := b; emp_values := c |}
      | _, _, _ => None
      end
  | _ => None
  end.

Definition emp_from_value (expected_kind : EnrollmentMetadataKindV1) (v : Value)
    : result string EnrollmentMetadataPayloadV1 :=
  let? payload := ok_or (emp_decode v) "enrollment metadata payload is not closed v1 data" in
  let? _ := emp_validate payload expected_kind in
  Ok payload.
End metadata.

(** ** AuditDetailPayloadV1 *)

Definition AUDIT_DETAIL_SCHEMA_V1 : string := "ocfleet.audit.detail.v1".

(** The audit record under [_audit] repeats the relational columns. *)
Record AuditDetailPayloadV1 := {
  adp_record : AuditEvent;
  adp_fields : list (string * Value);
}.

Definition known_audit_detail_keys : list string :=
  ["action"; "actions_enabled"; "active_endpoint"; "actor_type"; "after"; "after_state";
   "agent_controllers"; "agent_version"; "agent_path_probes"; "agent_peers"; "alert_count";
   "alert_created_or_updated_count"; "alert_evaluation"; "alert_evaluation_error_code";
   "alert_evaluation_error_message"; "alert_evaluation_ok"; "alert_evaluated_candidates";
   "alert_events"; "alert_events_upserted"; "alert_id"; "alert_open_alerts";
   "alert_silenced_alerts"; "algorithm"; "assigned_endpoint_id"; "attempt_id"; "attempt_no";
   "attempted_at"; "authoritative_policy"; "batch_count"; "batch_size"; "before";
   "before_state"; "bytes_sent"; "bytes_written"; "cert_count"; "cert_critical_days";
   "cert_warning_days"; "checksum"; "claimed_at"; "code"; "computed_at"; "compatible";
   "controlled_writes_compiled"; "controlled_writes_locally_enabled"; "correlation_id";
   "created_at"; "created_database"; "created_identity_file"; "created_or_updated_count";
   "cutoff"; "dedupe_key"; "degraded_methods"; "deleted_count"; "description_present";
   "detail"; "diff_count"; "diffs"; "disabled"; "disabled_node_count"; "dry_run";
   "due_jobs"; "duration_ms"; "enabled"; "enabled_jobs"; "enabled_node_count"; "endpoint";
   "endpoint_filter"; "endpoint_host"; "endpoint_id"; "endpoint_status";
   "endpoint_trust_state"; "endpoint_url_redacted"; "entries"; "error"; "error_code";
   "evaluated_candidates"; "executed_jobs"; "expires_at"; "failed_observation_count";
   "failed_observations"; "feature_flag_count"; "fence_token"; "fingerprint_present";
   "finished_at"; "first_seen_at"; "freshness_seconds"; "from"; "generation"; "group_key";
   "groups"; "health_score"; "hmac_key_id"; "hook_id"; "hook_type"; "host_allow";
   "http_status_class"; "id"; "ignored"; "interval_seconds"; "issuance"; "jitter_seconds";
   "job"; "job_count"; "job_id"; "jobs"; "join_request"; "kind"; "label_count";
   "last_error_code"; "last_failure_at"; "last_run_at"; "last_run_job_id"; "last_seen_at";
   "last_sent_at"; "last_success_at"; "last_observation"; "lease_expires_at"; "limit";
   "matched_count"; "max_age_days"; "max_attempts"; "max_concurrency"; "max_rows";
   "max_uses"; "message"; "method"; "name"; "new_endpoint"; "new_endpoint_id"; "new_value";
   "newest_candidate"; "next_attempt_at"; "next_run_at"; "no_config_generated";
   "no_forwarding"; "no_probe_executed"; "no_route_discovery"; "node"; "node_count";
   "node_filter"; "node_id"; "nodes"; "observation_count"; "observation_id"; "observations";
   "observed_at"; "ocserv_snapshot_max"; "ocserv_snapshot_min"; "ok"; "old_endpoint";
   "old_value"; "oldest_candidate"; "open_alerts"; "owner_id"; "output_path_hash";
   "params_hash"; "peer_request_id"; "planned_delete_count"; "policy_class";
   "previous_endpoint_id"; "protocol_max"; "protocol_min"; "provider_schema_count";
   "queue_id"; "reason"; "reason_code"; "record_count"; "records"; "redaction_mode";
   "region"; "registered_node_count"; "registry"; "registry_authorizes_probe";
   "registry_endpoint"; "registry_potential_pair_count"; "report_checksum"; "request_id";
   "requested_cutoff"; "requested_endpoint_id_present"; "requested_label_count";
   "required_source_policy"; "required_target_policy"; "resolved_at"; "result";
   "result_class"; "role"; "rotated_to"; "root_request_id"; "row_count"; "rows_deleted";
   "rpc_methods"; "run"; "run_count"; "run_id"; "run_ids"; "runs"; "schema";
   "schema_version"; "scope"; "scope_count"; "selector"; "selector_class"; "sessions";
   "severity"; "signature_algorithm"; "signature_public_key_fingerprint"; "signed_at";
   "signed_file"; "silenced_alerts"; "since"; "skipped_jobs"; "skipped_tasks"; "snapshots";
   "source"; "source_endpoint_id"; "source_node_id"; "source_status";
   "stale_window_seconds"; "started_at"; "state"; "status"; "status_counts"; "summary";
   "summary_json"; "supported_method_count"; "supported_probe_methods";
   "target_agent_endpoint_id"; "target_count"; "target_endpoint_id";
   "target_endpoint_status"; "target_endpoint_trust_state"; "target_id"; "target_node_id";
   "target_status"; "target_type"; "tick_seconds"; "timeout_ms"; "to"; "token_id";
   "topology_discovery"; "total"; "triggered_by"; "ts"; "unreachable_consecutive_failures";
   "updated_alerts"; "updated_at"; "upserted_alerts"; "used_count"; "valid"].

Definition is_known_audit_detail_key (key : string) : bool :=
  str_in_list key known_audit_detail_keys.

Definition adp_record_value (e : AuditEvent) : Value :=
  VObject [("actor", VString (ae_actor e));
           ("duration_ms", json_opt json_u64 (ae_duration_ms e));
           ("endpoint_id", json_opt_str (ae_endpoint_id e));
           ("error_code", json_opt_str (ae_error_code e));
           ("event", VString (ae_event e));
           ("method", json_opt_str (ae_method e));
           ("node_id", json_opt_str (ae_node_id e));
           ("ok", json_opt VBool (ae_ok e));
           ("params_hash", json_opt_str (ae_params_hash e));
           ("request_id", json_opt_str (ae_request_id e));
           ("schema", VString AUDIT_DETAIL_SCHEMA_V1);
           ("ts", VString (ae_ts e))].

Definition adp_to_value (p : AuditDetailPayloadV1) : Value :=
  VObject (("_audit", adp_record_value (adp_record p)) :: adp_fields p).

Definition validate_audit_payload_text (value : string) (max : Z) (field : string)
    : result string unit :=
  reject? str_is_empty value || (max <? str_len value) || existsb unsafe_byte (str_bytes value)
    as (field +:+ " is not bounded ASCII text")%string in
  Ok tt.

(** [if let Some(value) = value { check(value)?; }]. *)
Definition check_opt {E A} (check : A -> result E unit) (o : option A) : result E unit :=
  match o with Some a => check a | None => Ok tt end.

Section audit_detail.
Context `{JsonOps, TimeOps}.

Definition adp_validate (p : AuditDetailPayloadV1) : result string unit :=
  let e := adp_record p in
  let? _ := validate_audit_payload_text (ae_ts e) 64 "audit timestamp" in
  let? _ := ok_or (rfc3339_parse (ae_ts e)) "audit timestamp must be RFC3339" in
  let? _ := validate_audit_payload_text (ae_actor e) 128 "audit actor" in
  let? _ := validate_audit_payload_text (ae_event e) 128 "audit event" in
  let? _ := try_for_each
    (fun '(value, field) => check_opt (fun v => validate_audit_payload_text v 128 field) value)
    [(ae_node_id e, "audit node ID"); (ae_endpoint_id e, "audit endpoint ID");
     (ae_method e, "audit method"); (ae_request_id e, "audit request ID");
     (ae_params_hash e, "audit params hash"); (ae_error_code e, "audit error code")] in
  reject? match ae_duration_ms e with Some value => i64_max <? value | None => false end
    as "audit duration exceeds i64" in
  reject? 128 <? Z.of_nat (length (adp_fields p))
    as "audit detail has too many top-level fields" in
  let? _ := match List.find (fun entry => negb (is_known_audit_detail_key entry.1))
                            (adp_fields p) with
            | Some (key, _) =>
                Err ("audit detail contains unknown top-level field " +:+ key)%string
            | None => Ok tt
            end in
  map_err invalid_input_text
    (validate_low_sensitive_json (adp_to_value p) "audit detail payload").

Definition adp_new (e : AuditEvent) : result string AuditDetailPayloadV1 :=
  let? fields := ok_or (as_object (ae_detail_json e)) "audit detail must be a typed object" in
  let payload := {| adp_record := e; adp_fields := fields |} in
  let? _ := adp_validate payload in
  Ok payload.
End audit_detail.
