(* ===== verification/StoreDb.v ===== *)
(** * StoreDb: the tables behind the trust operations and the statements on them
      (ocfleet-cli/src/store.rs, schema from migrations.rs)

    A table is a finite map from its primary key to its row; UNIQUE columns and
    the failures they cause are written out.  A JSON column holds the [Value]
    whose text is stored.  A statement is a function of the tables; a
    transaction body threads the tables and its failure means that none of its
    writes are kept.  The columns [created_at] and [updated_at] of [nodes] are
    never read by the modelled operations and are left out. *)

From stdpp Require Import pretty.
From S2P Require Import Prelude Text External AgentConfig InputValidation StoreTypes.
From S2P Require Import StoredText StoragePayloads.

Record Db := {
  db_nodes : gmap string NodeRecord;
  db_trust : gmap string EndpointTrustRecord;
  db_tokens : gmap string EnrollmentTokenRecord;
  db_joins : gmap string JoinRequestRecord;
  db_audit : list AuditEvent;
}.

Definition empty_db : Db :=
  {| db_nodes := ∅; db_trust := ∅; db_tokens := ∅; db_joins := ∅; db_audit := [] |}.

Definition set_nodes (n : gmap string NodeRecord) (db : Db) : Db :=
  {| db_nodes := n; db_trust := db_trust db; db_tokens := db_tokens db;
     db_joins := db_joins db; db_audit := db_audit db |}.
Definition set_trust (t : gmap string EndpointTrustRecord) (db : Db) : Db :=
  {| db_nodes := db_nodes db; db_trust := t; db_tokens := db_tokens db;
     db_joins := db_joins db; db_audit := db_audit db |}.
Definition set_tokens (t : gmap string EnrollmentTokenRecord) (db : Db) : Db :=
  {| db_nodes := db_nodes db; db_trust := db_trust db; db_tokens := t;
     db_joins := db_joins db; db_audit := db_audit db |}.
Definition set_joins (j : gmap string JoinRequestRecord) (db : Db) : Db :=
  {| db_nodes := db_nodes db; db_trust := db_trust db; db_tokens := db_tokens db;
     db_joins := j; db_audit := db_audit db |}.
Definition set_audit (a : list AuditEvent) (db : Db) : Db :=
  {| db_nodes := db_nodes db; db_trust := db_trust db; db_tokens := db_tokens db;
     db_joins := db_joins db; db_audit := a |}.

(** What an operation reads of its surroundings: the wall clock in
    [token_is_expired] and in [AuditEvent::new], SQLite's
    [strftime('%Y-%m-%dT%H:%M:%SZ','now')] and a fresh UUID. *)
Record StoreEnv := {
  env_now : Z;
  env_audit_now : Z;
  env_sql_now : string;
  env_uuid : string;
}.

(** The end of a transaction: commit on success, roll back on an error. *)
Definition transact {D A} (db : D) (body : result StoreError (D * A))
    : D * result StoreError A :=
  match body with
  | Ok (db', a) => (db', Ok a)
  | Err e => (db, Err e)
  end.

Lemma transact_body {D A} (d : D) (body : result StoreError (D * A)) d' a :
  transact d body = (d', Ok a) -> body = Ok (d', a).
Proof. unfold transact. destruct body as [[d1 b]|e]; congruence. Qed.

Lemma transact_rolled_back {D A} (d : D) (body : result StoreError (D * A)) d' e :
  transact d body = (d', Err e) -> d' = d.
Proof. unfold transact. destruct body as [[d1 b]|e']; congruence. Qed.

Lemma transact_keeps {D A} (P : D -> Prop) (d : D) (body : result StoreError (D * A)) :
  P d -> (forall d' a, body = Ok (d', a) -> P d') -> P (transact d body).1.
Proof. intros Hd Hb. destruct body as [[d' a]|e]; [by eapply Hb|done]. Qed.

(** [collect::<Result<Vec<_>, _>>()]. *)
Fixpoint try_map {E A B} (f : A -> result E B) (l : list A) : result E (list B) :=
  match l with
  | [] => Ok []
  | x :: l' =>
      let? y := f x in
      let? ys := try_map f l' in
      Ok (y :: ys)
  end.

Lemma try_map_Forall2 {E A B} (f : A -> result E B) l r :
  try_map f l = Ok r <-> Forall2 (fun x y => f x = Ok y) l r.
Proof.
  revert r. induction l as [|x l IH]; intros r; simpl.
  - split; [intros [= <-]; constructor|]. by inversion 1.
  - split.
    + intros Hr. peel_in Hr. injection Hr as <-. constructor; [done|]. by apply IH.
    + inversion 1 as [|? y ? ys Hx Hl]; subst. rewrite Hx. by rewrite (proj2 (IH ys) Hl).
Qed.

Lemma try_map_ok_elem {E A B} (f : A -> result E B) l r y :
  try_map f l = Ok r -> y ∈ r <-> exists x, x ∈ l /\ f x = Ok y.
Proof.
  rewrite try_map_Forall2. intros Hf. split.
  - intros (i & Hi)%list_elem_of_lookup. destruct (Forall2_lookup_r _ _ _ _ _ Hf Hi) as (x & Hx & He).
    exists x. split; [|done]. by eapply list_elem_of_lookup_2.
  - intros (x & (i & Hi)%list_elem_of_lookup & He).
    destruct (Forall2_lookup_l _ _ _ _ _ Hf Hi) as (y' & Hy & He'). rewrite He in He'.
    injection He' as ->. by eapply list_elem_of_lookup_2.
Qed.

Lemma try_map_each {E A B} (f : A -> result E B) l r x :
  try_map f l = Ok r -> x ∈ l -> exists y, f x = Ok y.
Proof.
  rewrite try_map_Forall2. intros Hf (i & Hi)%list_elem_of_lookup.
  destruct (Forall2_lookup_l _ _ _ _ _ Hf Hi) as (y & _ & Hy). eauto.
Qed.

Lemma try_map_length {E A B} (f : A -> result E B) l ys :
  try_map f l = Ok ys -> length ys = length l.
Proof.
  revert ys. induction l as [|x l IH]; simpl; intros ys Hm; peel Hm; [done|].
  simpl. f_equal. by apply IH.
Qed.

(** ** Reading rows *)

(** [endpoint_trust_from_row]; the row's bundle column holds the stored
    payload, the record's field the public bundle. *)
Definition endpoint_trust_from_row (row : EndpointTrustRecord)
    : result StoreError EndpointTrustRecord :=
  check? 0 <=? et_generation row else Sqlite (FromSqlConversionFailure 0) in
  let? payload := map_err (fun _ => Sqlite (FromSqlConversionFailure 7))
                          (tbp_from_value (et_trust_bundle_json row)) in
  let? _ := map_err (fun _ => Sqlite (FromSqlConversionFailure 7))
              (tbp_validate_relationship payload (et_endpoint_id row) (et_generation row)
                 (endpoint_status_as_str (et_status row))) in
  Ok {| et_endpoint_id := et_endpoint_id row; et_node_id := et_node_id row;
        et_fingerprint := et_fingerprint row; et_status := et_status row;
        et_generation := et_generation row;
        et_previous_endpoint_id := et_previous_endpoint_id row;
        et_rotated_to := et_rotated_to row;
        et_trust_bundle_json := tbp_public_bundle payload;
        et_created_at := et_created_at row; et_updated_at := et_updated_at row |}.

(** [query_row(...).optional()]. *)
Definition optional_row {A} (from_row : A -> result StoreError A) (o : option A)
    : result StoreError (option A) :=
  match o with
  | None => Ok None
  | Some row => let? r := from_row row in Ok (Some r)
  end.

Definition get_node_tx (db : Db) (node_id : string) : option NodeRecord :=
  db_nodes db !! node_id.

(** The rows of a table that satisfy a condition. *)
Definition select {A} (P : A -> bool) (m : gmap string A) : list A :=
  List.filter P (map snd (map_to_list m)).

(** [endpoint_id] is UNIQUE in [nodes]: there is at most one such row. *)
Definition get_node_by_endpoint_tx (db : Db) (endpoint_id : string) : option NodeRecord :=
  head (select (fun n => String.eqb (node_endpoint_id n) endpoint_id) (db_nodes db)).

Definition get_endpoint_trust_tx (db : Db) (endpoint_id : string)
    : result StoreError (option EndpointTrustRecord) :=
  optional_row endpoint_trust_from_row (db_trust db !! endpoint_id).

(** [ORDER BY endpoint_id] with SQLite's byte order. *)
Fixpoint insert_by_endpoint (x : EndpointTrustRecord) (l : list EndpointTrustRecord)
    : list EndpointTrustRecord :=
  match l with
  | [] => [x]
  | y :: l' =>
      if str_ltb (et_endpoint_id y) (et_endpoint_id x)
      then y :: insert_by_endpoint x l' else x :: l
  end.

Definition order_by_endpoint (l : list EndpointTrustRecord) : list EndpointTrustRecord :=
  foldr insert_by_endpoint [] l.

Definition active_row (node_id : string) (row : EndpointTrustRecord) : bool :=
  bool_decide (et_node_id row = Some node_id) && bool_decide (et_status row = Active).

(** [WHERE node_id = ?1 AND status = 'active' ORDER BY endpoint_id LIMIT 2]. *)
Definition get_active_endpoint_trust_for_node_tx (db : Db) (node_id : string)
    : result StoreError (list EndpointTrustRecord) :=
  try_map endpoint_trust_from_row
    (firstn 2 (order_by_endpoint (select (active_row node_id) (db_trust db)))).

Definition endpoint_trust_count_for_node_tx (db : Db) (node_id : string) : Z :=
  Z.of_nat (length (select (fun row => bool_decide (et_node_id row = Some node_id))
                           (db_trust db))).

(** [get_endpoint_dispatch_binding_conn]. *)
Definition get_endpoint_dispatch_binding (db : Db) (expected_node_id endpoint_id : string)
    : option EndpointDispatchBinding :=
  match db_trust db !! endpoint_id with
  | None => None
  | Some trust =>
      let registry := db_nodes db !! expected_node_id in
      Some {| edb_status := et_status trust;
              edb_trust_node_id := et_node_id trust;
              edb_registry_node_id := node_id <$> registry;
              edb_registry_endpoint_id := node_endpoint_id <$> registry;
              edb_registry_enabled := node_enabled <$> registry;
              edb_active_endpoint_count_for_node :=
                Z.of_nat (length (select (active_row expected_node_id) (db_trust db))) |}
  end.

(** ** Writing rows *)

(** [INSERT INTO nodes ... enabled = 1]: PRIMARY KEY [node_id], UNIQUE
    [endpoint_id]. *)
Definition insert_node_tx (db : Db) (node : NodeInsert) : result StoreError Db :=
  match db_nodes db !! ni_node_id node with
  | Some _ => Err (Sqlite (ConstraintViolation "nodes.node_id"))
  | None =>
      match get_node_by_endpoint_tx db (ni_endpoint_id node) with
      | Some _ => Err (Sqlite (ConstraintViolation "nodes.endpoint_id"))
      | None =>
          Ok (set_nodes (<[ni_node_id node :=
                {| node_id := ni_node_id node; node_endpoint_id := ni_endpoint_id node;
                   node_name := ni_name node; node_region := ni_region node;
                   node_role := ni_role node; node_enabled := true |}]> (db_nodes db)) db)
      end
  end.

Definition with_enabled (enabled : bool) (n : NodeRecord) : NodeRecord :=
  {| node_id := node_id n; node_endpoint_id := node_endpoint_id n; node_name := node_name n;
     node_region := node_region n; node_role := node_role n; node_enabled := enabled |}.

Definition with_endpoint (endpoint_id : string) (n : NodeRecord) : NodeRecord :=
  {| node_id := node_id n; node_endpoint_id := endpoint_id; node_name := node_name n;
     node_region := node_region n; node_role := node_role n; node_enabled := node_enabled n |}.

(** [UPDATE nodes SET endpoint_id = new, enabled = CASE WHEN disable THEN 0
    ELSE enabled END WHERE node_id = ? AND endpoint_id = old]: the number of
    rows changed, or the UNIQUE failure of the new endpoint. *)
Definition update_node_endpoint_tx (db : Db) (id old new : string) (disable : bool)
    : result StoreError (Db * Z) :=
  match db_nodes db !! id with
  | Some n =>
      if String.eqb (node_endpoint_id n) old then
        match get_node_by_endpoint_tx db new with
        | Some other =>
            if String.eqb (node_id other) id
            then Ok (set_nodes (<[id := with_endpoint new
                       (if disable then with_enabled false n else n)]> (db_nodes db)) db, 1)
            else Err (Sqlite (ConstraintViolation "nodes.endpoint_id"))
        | None =>
            Ok (set_nodes (<[id := with_endpoint new
                  (if disable then with_enabled false n else n)]> (db_nodes db)) db, 1)
        end
      else Ok (db, 0)
  | None => Ok (db, 0)
  end.

(** [i64::try_from(generation)]. *)
Definition endpoint_generation_to_i64 (endpoint_id : string) (generation : Z)
    : result StoreError Z :=
  if generation <=? i64_max then Ok generation
  else Err (EndpointGenerationExhausted endpoint_id).

Definition next_endpoint_generation (endpoint : EndpointTrustRecord) : result StoreError Z :=
  reject? i64_max <=? et_generation endpoint
    as EndpointGenerationExhausted (et_endpoint_id endpoint) in
  Ok (et_generation endpoint + 1).

(** [serde_json::to_value(TrustBundle { ... })] with empty lists. *)
Definition trust_bundle_json (endpoint_id : string) (generation : Z) (status : EndpointStatus)
    : Value :=
  VObject [("authorized_path_probes", VArray []);
           ("endpoint_id", VString endpoint_id);
           ("generation", json_u64 generation);
           ("status", VString (endpoint_status_as_str status));
           ("trusted_controllers", VArray []);
           ("trusted_peers", VArray [])].

Definition canonical_trust_bundle (endpoint_id : string) (generation : Z)
    (status : EndpointStatus) (value : Value) : result StoreError Value :=
  let? payload :=
    map_err InvalidInput
      (match tbp_from_value value with
       | Ok p => Ok p
       | Err _ => tbp_from_legacy endpoint_id generation (endpoint_status_as_str status) value
       end) in
  let? _ := map_err InvalidInput
              (tbp_validate_relationship payload endpoint_id generation
                 (endpoint_status_as_str status)) in
  Ok (tbp_to_value payload).

(** [INSERT INTO endpoint_trust]: PRIMARY KEY [endpoint_id]. *)
Definition insert_endpoint_trust_tx (env : StoreEnv) (db : Db) (endpoint : EndpointTrustRecord)
    : result StoreError Db :=
  let? generation :=
    endpoint_generation_to_i64 (et_endpoint_id endpoint) (et_generation endpoint) in
  let? bundle := canonical_trust_bundle (et_endpoint_id endpoint) (et_generation endpoint)
                   (et_status endpoint) (et_trust_bundle_json endpoint) in
  match db_trust db !! et_endpoint_id endpoint with
  | Some _ => Err (Sqlite (ConstraintViolation "endpoint_trust.endpoint_id"))
  | None =>
      Ok (set_trust (<[et_endpoint_id endpoint :=
            {| et_endpoint_id := et_endpoint_id endpoint; et_node_id := et_node_id endpoint;
               et_fingerprint := et_fingerprint endpoint; et_status := et_status endpoint;
               et_generation := generation;
               et_previous_endpoint_id := et_previous_endpoint_id endpoint;
               et_rotated_to := et_rotated_to endpoint; et_trust_bundle_json := bundle;
               et_created_at := env_sql_now env; et_updated_at := env_sql_now env |}]>
            (db_trust db)) db)
  end.

(** A row after [SET status, generation, trust_bundle_json, updated_at]. *)
Definition with_status (status : EndpointStatus) (generation : Z) (bundle : Value)
    (now : string) (r : EndpointTrustRecord) : EndpointTrustRecord :=
  {| et_endpoint_id := et_endpoint_id r; et_node_id := et_node_id r;
     et_fingerprint := et_fingerprint r; et_status := status; et_generation := generation;
     et_previous_endpoint_id := et_previous_endpoint_id r; et_rotated_to := et_rotated_to r;
     et_trust_bundle_json := bundle; et_created_at := et_created_at r; et_updated_at := now |}.

Definition with_rotated_to (target : option string) (r : EndpointTrustRecord)
    : EndpointTrustRecord :=
  {| et_endpoint_id := et_endpoint_id r; et_node_id := et_node_id r;
     et_fingerprint := et_fingerprint r; et_status := et_status r;
     et_generation := et_generation r; et_previous_endpoint_id := et_previous_endpoint_id r;
     et_rotated_to := target; et_trust_bundle_json := et_trust_bundle_json r;
     et_created_at := et_created_at r; et_updated_at := et_updated_at r |}.

Definition with_bound_node (node : option string) (now : string) (r : EndpointTrustRecord)
    : EndpointTrustRecord :=
  {| et_endpoint_id := et_endpoint_id r; et_node_id := node;
     et_fingerprint := et_fingerprint r; et_status := et_status r;
     et_generation := et_generation r; et_previous_endpoint_id := et_previous_endpoint_id r;
     et_rotated_to := et_rotated_to r; et_trust_bundle_json := et_trust_bundle_json r;
     et_created_at := et_created_at r; et_updated_at := now |}.

(** ** The audit log *)

(** [AuditEvent::new]. *)
Definition AuditEvent_new `{TimeOps} (env : StoreEnv) (actor event : string) : AuditEvent :=
  {| ae_ts := rfc3339_format (env_audit_now env); ae_actor := actor; ae_event := event;
     ae_node_id := None; ae_endpoint_id := None; ae_method := None; ae_request_id := None;
     ae_params_hash := None; ae_ok := None; ae_error_code := None; ae_duration_ms := None;
     ae_detail_json := json_empty |}.

(** The fields the operations fill in after [AuditEvent::new]. *)
Definition audit_fields (node_id endpoint_id request_id : option string) (ok : bool)
    (error_code : option string) (detail : Value) (e : AuditEvent) : AuditEvent :=
  {| ae_ts := ae_ts e; ae_actor := ae_actor e; ae_event := ae_event e;
     ae_node_id := node_id; ae_endpoint_id := endpoint_id; ae_method := ae_method e;
     ae_request_id := request_id; ae_params_hash := ae_params_hash e; ae_ok := Some ok;
     ae_error_code := error_code; ae_duration_ms := ae_duration_ms e;
     ae_detail_json := detail |}.

Definition with_detail (detail : Value) (e : AuditEvent) : AuditEvent :=
  {| ae_ts := ae_ts e; ae_actor := ae_actor e; ae_event := ae_event e;
     ae_node_id := ae_node_id e; ae_endpoint_id := ae_endpoint_id e; ae_method := ae_method e;
     ae_request_id := ae_request_id e; ae_params_hash := ae_params_hash e; ae_ok := ae_ok e;
     ae_error_code := ae_error_code e; ae_duration_ms := ae_duration_ms e;
     ae_detail_json := detail |}.

Section audit.
Context `{JsonOps, TimeOps}.

Definition insert_audit_tx (db : Db) (event : AuditEvent) : result StoreError Db :=
  let? _ := map_err InvalidInput (validate_actor (ae_actor event)) in
  reject? (64 <? str_len (ae_ts event)) || bool_decide (rfc3339_parse (ae_ts event) = None)
    as InvalidInput "audit timestamp must be bounded RFC3339" in
  let? _ := validate_audit_text (ae_event event) "audit event" 128 in
  let? _ := try_for_each
    (fun '(field, value, max) => check_opt (fun v => validate_audit_text v field max) value)
    [("audit node_id", ae_node_id event, 128); ("audit endpoint_id", ae_endpoint_id event, 128);
     ("audit method", ae_method event, 128); ("audit request_id", ae_request_id event, 128);
     ("audit params_hash", ae_params_hash event, 128);
     ("audit error_code", ae_error_code event, 128)] in
  let? _ := validate_low_sensitive_json (ae_detail_json event) "audit detail" in
  reject? match ae_duration_ms event with Some d => i64_max <? d | None => false end
    as InvalidInput "audit duration_ms exceeds i64" in
  let? detail := map_err InvalidInput (adp_new event) in
  Ok (set_audit (db_audit db ++ [with_detail (adp_to_value detail) event]) db).

(** [insert_audit]. *)
Definition insert_audit (db : Db) (event : AuditEvent) : Db * result StoreError unit :=
  transact db (let? db' := insert_audit_tx db event in Ok (db', tt)).
End audit.

(** ** Audit details *)

Definition node_audit_json (node : NodeRecord) : Value :=
  VObject [("enabled", VBool (node_enabled node));
           ("endpoint_id", VString (node_endpoint_id node));
           ("node_id", VString (node_id node));
           ("region", VString (node_region node));
           ("role", VString (node_role node))].

Definition endpoint_audit_json (endpoint : EndpointTrustRecord) : Value :=
  VObject [("endpoint_id", VString (et_endpoint_id endpoint));
           ("fingerprint_present", VBool (bool_decide (is_Some (et_fingerprint endpoint))));
           ("generation", json_u64 (et_generation endpoint));
           ("node_id", json_opt_str (et_node_id endpoint));
           ("previous_endpoint_id", json_opt_str (et_previous_endpoint_id endpoint));
           ("rotated_to", json_opt_str (et_rotated_to endpoint));
           ("status", VString (endpoint_status_as_str (et_status endpoint)))].

Definition json_detail (target_type target_id : string) (before after : option Value)
    (reason : option string) : Value :=
  VObject [("actor_type", VString "user");
           ("after", json_opt (fun v => v) after);
           ("before", json_opt (fun v => v) before);
           ("reason", json_opt_str reason);
           ("target_id", VString target_id);
           ("target_type", VString target_type)].

Definition node_removal_audit_json (node : option NodeRecord)
    (registry_endpoint active_endpoint : option EndpointTrustRecord) : Value :=
  VObject [("active_endpoint", json_opt endpoint_audit_json active_endpoint);
           ("node", json_opt node_audit_json node);
           ("registry_endpoint", json_opt endpoint_audit_json registry_endpoint)].
