(* ===== verification/TrustStore.v ===== *)
(** * TrustStore: node registry and endpoint trust
      (ocfleet-cli/src/store.rs: add_node, enable/disable/remove_node,
      rotate_endpoint, revoke_endpoint, quarantine_endpoint and their helpers;
      controller_rpc.rs: the trust check before a dispatch)

    An operation maps the tables to the tables after the transaction and its
    result.  Helpers carry the names of the source. *)

From S2P Require Import Prelude Text External AgentConfig InputValidation StoreTypes.
From S2P Require Import StoredText StoragePayloads StoreDb.

(** ** Lineage and binding checks *)

Definition invalid_endpoint_transition (endpoint : EndpointTrustRecord) (action : string)
    : StoreError :=
  InvalidEndpointTransition (et_endpoint_id endpoint)
    (endpoint_status_as_str (et_status endpoint)) action.

(** The derived decoder of [TrustBundle] (unknown members are ignored). *)
Definition TrustBundle_decode (v : Value) : option TrustBundle :=
  match struct_fields false legacy_bundle_fields v with
  | Some [a; b; c; d; e; f] =>
      match as_str a, as_u64 b, de_unit_variant endpoint_status_from_str c,
            de_vec as_str d, de_vec as_str e, de_vec de_pair f with
      | Some a, Some b, Some c, Some d, Some e, Some f =>
          Some {| tb_endpoint_id := a; tb_generation := b; tb_status := c;
                  tb_trusted_controllers := d; tb_trusted_peers := e;
                  tb_authorized_path_probes := f |}
      | _, _, _, _, _, _ => None
      end
  | _ => None
  end.

Definition validate_endpoint_bundle_projection (endpoint : EndpointTrustRecord)
    : result StoreError unit :=
  let? bundle := ok_or (TrustBundle_decode (et_trust_bundle_json endpoint))
                       (EndpointLineageInvalid (et_endpoint_id endpoint)) in
  reject? negb (String.eqb (tb_endpoint_id bundle) (et_endpoint_id endpoint))
          || negb (tb_generation bundle =? et_generation endpoint)
          || bool_decide (tb_status bundle <> et_status endpoint)
    as EndpointLineageInvalid (et_endpoint_id endpoint) in
  Ok tt.

Definition validate_unrotated_lineage (db : Db) (endpoint : EndpointTrustRecord)
    : result StoreError unit :=
  let invalid := EndpointLineageInvalid (et_endpoint_id endpoint) in
  let? _ := validate_endpoint_bundle_projection endpoint in
  reject? bool_decide (is_Some (et_rotated_to endpoint)) as invalid in
  match et_previous_endpoint_id endpoint with
  | None => Ok tt
  | Some previous_endpoint_id =>
      let? found := get_endpoint_trust_tx db previous_endpoint_id in
      let? previous := ok_or found invalid in
      let? _ := validate_endpoint_bundle_projection previous in
      reject? bool_decide (et_status previous <> Rotated)
              || bool_decide (et_rotated_to previous <> Some (et_endpoint_id endpoint))
              || bool_decide (et_node_id previous <> et_node_id endpoint)
              || bool_decide (et_fingerprint previous <> et_fingerprint endpoint)
              || (et_generation endpoint <? et_generation previous)
        as invalid in
      Ok tt
  end.

Definition validate_rotation_edge (db : Db) (old new : EndpointTrustRecord)
    : result StoreError unit :=
  let invalid := EndpointLineageInvalid (et_endpoint_id old) in
  let? _ := validate_endpoint_bundle_projection old in
  let? _ := validate_endpoint_bundle_projection new in
  reject? bool_decide (et_status old <> Rotated)
          || bool_decide (et_rotated_to old <> Some (et_endpoint_id new))
          || bool_decide (et_previous_endpoint_id new <> Some (et_endpoint_id old))
          || bool_decide (et_node_id old <> et_node_id new)
          || bool_decide (et_fingerprint old <> et_fingerprint new)
          || (et_generation new <? et_generation old)
    as invalid in
  let? _ := if bool_decide (et_status new <> Rotated)
            then validate_unrotated_lineage db new else Ok tt in
  match et_previous_endpoint_id old with
  | None => Ok tt
  | Some previous_endpoint_id =>
      let? found := get_endpoint_trust_tx db previous_endpoint_id in
      let? previous := ok_or found invalid in
      reject? bool_decide (et_status previous <> Rotated)
              || bool_decide (et_rotated_to previous <> Some (et_endpoint_id old))
        as invalid in
      Ok tt
  end.

(** [active.len() == 1 && active[0].endpoint_id == endpoint_id]. *)
Definition single_active (active : list EndpointTrustRecord) (endpoint_id : string) : bool :=
  match active with [a] => String.eqb (et_endpoint_id a) endpoint_id | _ => false end.

Definition validate_rotation_binding_tx (db : Db) (endpoint : EndpointTrustRecord)
    : result StoreError NodeRecord :=
  let mismatch := EndpointBindingMismatch (et_endpoint_id endpoint) in
  match et_node_id endpoint with
  | None => Err (mismatch "unbound endpoint cannot be rotated")
  | Some id =>
      let? node := ok_or (get_node_tx db id) (mismatch "bound node is missing") in
      reject? negb (String.eqb (node_endpoint_id node) (et_endpoint_id endpoint))
        as mismatch "bound node does not point to the endpoint" in
      let? active := get_active_endpoint_trust_for_node_tx db id in
      let clean := match et_status endpoint with
                   | Active => single_active active (et_endpoint_id endpoint)
                   | Quarantined => Nat.eqb (length active) 0
                   | Revoked | Rotated => false
                   end in
      if negb clean then
        if Nat.ltb 1 (length active) then Err (AmbiguousActiveEndpointBinding id)
        else Err (mismatch "node has an inconsistent active endpoint binding")
      else Ok node
  end.

Definition validate_legacy_rotation_reconciliation_tx (db : Db) (id : string)
    (rotated_to : EndpointTrustRecord) : result StoreError unit :=
  let mismatch := EndpointBindingMismatch (et_endpoint_id rotated_to) in
  reject? bool_decide (et_status rotated_to = Rotated)
    as mismatch "rotated child is not a deterministic current endpoint" in
  let? active := get_active_endpoint_trust_for_node_tx db id in
  let clean := match et_status rotated_to with
               | Active => single_active active (et_endpoint_id rotated_to)
               | Quarantined | Revoked => Nat.eqb (length active) 0
               | Rotated => false
               end in
  if negb clean then
    if Nat.ltb 1 (length active) then Err (AmbiguousActiveEndpointBinding id)
    else Err (mismatch "legacy rotation does not have one deterministic child")
  else Ok tt.

Definition get_exact_bound_node_tx (db : Db) (endpoint : EndpointTrustRecord)
    : option NodeRecord :=
  match et_node_id endpoint with
  | None => None
  | Some id =>
      match get_node_tx db id with
      | Some node =>
          if String.eqb (node_endpoint_id node) (et_endpoint_id endpoint)
          then Some node else None
      | None => None
      end
  end.

Definition validate_active_node_binding_tx (db : Db) (node : NodeRecord)
    : result StoreError unit :=
  let mismatch := EndpointBindingMismatch (node_endpoint_id node) in
  let? found := get_endpoint_trust_tx db (node_endpoint_id node) in
  let? endpoint := ok_or found (mismatch "endpoint trust is missing") in
  let? _ := validate_unrotated_lineage db endpoint in
  reject? bool_decide (et_status endpoint <> Active)
          || bool_decide (et_node_id endpoint <> Some (node_id node))
    as mismatch "node does not have an active bidirectional endpoint binding" in
  let? active := get_active_endpoint_trust_for_node_tx db (node_id node) in
  reject? Nat.ltb 1 (length active) as AmbiguousActiveEndpointBinding (node_id node) in
  reject? negb (single_active active (node_endpoint_id node))
    as mismatch "node does not have exactly one active endpoint binding" in
  Ok tt.

(** ** Changing the status of an endpoint *)

(** The update also requires the status and generation that were read, which
    are those of the row inside one transaction. *)
Definition transition_endpoint_status_tx (env : StoreEnv) (db : Db)
    (before : EndpointTrustRecord) (status : EndpointStatus)
    : result StoreError (Db * EndpointTrustRecord) :=
  let id := et_endpoint_id before in
  let? _ := validate_unrotated_lineage db before in
  let? generation := next_endpoint_generation before in
  let? new_generation := endpoint_generation_to_i64 id generation in
  let? bundle := canonical_trust_bundle id generation status
                   (trust_bundle_json id generation status) in
  let? old_generation := endpoint_generation_to_i64 id (et_generation before) in
  match db_trust db !! id with
  | Some row =>
      if bool_decide (et_status row = et_status before)
         && (et_generation row =? old_generation)
      then
        let db' := set_trust (<[id := with_status status new_generation bundle
                                        (env_sql_now env) row]> (db_trust db)) db in
        let? found := get_endpoint_trust_tx db' id in
        let? after := ok_or found (EndpointNotFound id) in
        Ok (db', after)
      else Err (EndpointBindingMismatch id "endpoint state changed during transition")
  | None => Err (EndpointBindingMismatch id "endpoint state changed during transition")
  end.

Section operations.
Context `{EndpointIdOps, TimeOps, JsonOps}.
Implicit Types (env : StoreEnv) (actor reason : string).

(** ** Nodes *)

Definition add_node env (db : Db) (node : NodeInsert) actor : Db * result StoreError unit :=
  transact db
    (let? _ := map_err InvalidInput (validate_actor actor) in
     let? db := insert_node_tx db node in
     let? db := insert_endpoint_trust_tx env db
       {| et_endpoint_id := ni_endpoint_id node; et_node_id := Some (ni_node_id node);
          et_fingerprint := None; et_status := Active; et_generation := 1;
          et_previous_endpoint_id := None; et_rotated_to := None;
          et_trust_bundle_json := trust_bundle_json (ni_endpoint_id node) 1 Active;
          et_created_at := EmptyString; et_updated_at := EmptyString |} in
     let? after := ok_or (get_node_tx db (ni_node_id node)) (NodeNotFound (ni_node_id node)) in
     let? db := insert_audit_tx db
       (audit_fields (Some (node_id after)) (Some (node_endpoint_id after)) None true None
          (json_detail "node" (node_id after) None (Some (node_audit_json after)) None)
          (AuditEvent_new env actor "node.add")) in
     Ok (db, tt)).

Definition set_node_enabled env (db : Db) (id : string) (enabled : bool) actor (event_name : string)
    : Db * result StoreError unit :=
  transact db
    (let? _ := map_err InvalidInput (validate_actor actor) in
     let? before := ok_or (get_node_tx db id) (NodeNotFound id) in
     let? _ := if enabled then validate_active_node_binding_tx db before else Ok tt in
     let after := with_enabled enabled before in
     let db := set_nodes (<[id := after]> (db_nodes db)) db in
     let? db := insert_audit_tx db
       (audit_fields (Some (node_id after)) (Some (node_endpoint_id after)) None true None
          (json_detail "node" (node_id after) (Some (node_audit_json before))
             (Some (node_audit_json after)) None)
          (AuditEvent_new env actor event_name)) in
     Ok (db, tt)).

Definition disable_node env (db : Db) id actor := set_node_enabled env db id false actor "node.disable".
Definition enable_node env (db : Db) id actor := set_node_enabled env db id true actor "node.enable".

(** The candidates for revocation: the active endpoints bound to the node and
    the registry's endpoint, if that is active. *)
Definition removal_candidates (active : list EndpointTrustRecord)
    (registry : option EndpointTrustRecord) : list EndpointTrustRecord :=
  match registry with
  | Some endpoint =>
      if bool_decide (et_status endpoint = Active)
         && negb (existsb (fun c => String.eqb (et_endpoint_id c) (et_endpoint_id endpoint))
                          active)
      then active ++ [endpoint] else active
  | None => active
  end.

Definition remove_node env (db : Db) (id : string) actor : Db * result StoreError unit :=
  transact db
    (let? _ := map_err InvalidInput (validate_actor actor) in
     let? before := ok_or (get_node_tx db id) (NodeNotFound id) in
     let? registry_before := get_endpoint_trust_tx db (node_endpoint_id before) in
     let? active := get_active_endpoint_trust_for_node_tx db id in
     let candidates := removal_candidates active registry_before in
     reject? Nat.ltb 1 (length candidates) as AmbiguousActiveEndpointBinding id in
     let active_before := last candidates in
     let? _ := match active_before with
               | Some active =>
                   match get_node_by_endpoint_tx db (et_endpoint_id active) with
                   | Some other =>
                       if negb (String.eqb (node_id other) id)
                       then Err (EndpointBindingMismatch (et_endpoint_id active)
                                   "active endpoint is the current endpoint of another node")
                       else Ok tt
                   | None => Ok tt
                   end
               | None => Ok tt
               end in
     let? (db, active_after) :=
       match active_before with
       | Some active =>
           let? (db, after) := transition_endpoint_status_tx env db active Revoked in
           Ok (db, Some after)
       | None => Ok (db, None)
       end in
     let registry_after :=
       match registry_before, active_after with
       | Some registry, Some active =>
           if String.eqb (et_endpoint_id registry) (et_endpoint_id active)
           then Some active else Some registry
       | registry, _ => registry
       end in
     let db := set_nodes (delete id (db_nodes db)) db in
     let? db := insert_audit_tx db
       (audit_fields (Some (node_id before)) (Some (node_endpoint_id before)) None true None
          (json_detail "node" (node_id before)
             (Some (node_removal_audit_json (Some before) registry_before active_before))
             (Some (node_removal_audit_json None registry_after active_after)) None)
          (AuditEvent_new env actor "node.remove")) in
     Ok (db, tt)).

(** ** Rotation *)

Definition audit_endpoint_rotation_tx env (db : Db) actor (action old_endpoint_id : string)
    (node_before node_after : option NodeRecord)
    (old_before old_after new_after : EndpointTrustRecord) reason : result StoreError Db :=
  insert_audit_tx db
    (audit_fields (et_node_id old_before) (Some old_endpoint_id) None true None
       (VObject [("actor_type", VString "user");
                 ("after", VObject [("new_endpoint", endpoint_audit_json new_after);
                                    ("node", json_opt node_audit_json node_after);
                                    ("old_endpoint", endpoint_audit_json old_after)]);
                 ("before", VObject [("node", json_opt node_audit_json node_before);
                                     ("old_endpoint", endpoint_audit_json old_before)]);
                 ("new_endpoint_id", VString (et_endpoint_id new_after));
                 ("reason", VString reason);
                 ("target_id", VString old_endpoint_id);
                 ("target_type", VString "endpoint_rotation")])
       (AuditEvent_new env actor action)).

(** The branch of [rotate_endpoint] for an endpoint that is already rotated:
    a retry, or the reconciliation of a registry pointer left behind. *)
Definition rotate_endpoint_retry env (db : Db) (old_before : EndpointTrustRecord)
    (new_endpoint_id : string) actor reason : result StoreError (Db * EndpointTrustRecord) :=
  let old_endpoint_id := et_endpoint_id old_before in
  reject? bool_decide (et_rotated_to old_before <> Some new_endpoint_id)
    as invalid_endpoint_transition old_before "rotate to a different endpoint" in
  let? found := get_endpoint_trust_tx db new_endpoint_id in
  let? new_after := ok_or found (EndpointLineageInvalid old_endpoint_id) in
  let? _ := validate_rotation_edge db old_before new_after in
  let? id := ok_or (et_node_id old_before)
               (EndpointBindingMismatch old_endpoint_id
                  "unbound rotation edge cannot be retried") in
  let? node_before := ok_or (get_node_tx db id)
               (EndpointBindingMismatch old_endpoint_id "bound node is missing") in
  let? _ := validate_legacy_rotation_reconciliation_tx db id new_after in
  if String.eqb (node_endpoint_id node_before) new_endpoint_id then
    reject? bool_decide (et_status new_after <> Active) && node_enabled node_before
      as EndpointBindingMismatch new_endpoint_id
           "inactive rotated endpoint is bound to an enabled node" in
    Ok (db, new_after)
  else
    reject? negb (String.eqb (node_endpoint_id node_before) old_endpoint_id)
      as EndpointBindingMismatch old_endpoint_id
           "bound node does not point to the old or rotated endpoint" in
    let disable := bool_decide (et_status new_after <> Active) in
    let? (db, affected) :=
      update_node_endpoint_tx db id old_endpoint_id new_endpoint_id disable in
    reject? negb (affected =? 1)
      as EndpointBindingMismatch old_endpoint_id
           "legacy registry pointer changed during reconciliation" in
    let node_after := get_node_tx db id in
    let? db := audit_endpoint_rotation_tx env db actor "endpoint.rotate.reconcile"
                 old_endpoint_id (Some node_before) node_after old_before old_before new_after
                 reason in
    Ok (db, new_after).

(** The branch of [rotate_endpoint] that rotates. *)
Definition rotate_endpoint_fresh env (db : Db) (old_before : EndpointTrustRecord)
    (new_endpoint_id : string) actor reason : result StoreError (Db * EndpointTrustRecord) :=
  let old_endpoint_id := et_endpoint_id old_before in
  reject? negb (bool_decide (et_status old_before = Active)
                || bool_decide (et_status old_before = Quarantined))
    as invalid_endpoint_transition old_before "rotate" in
  let? existing := get_endpoint_trust_tx db new_endpoint_id in
  reject? bool_decide (is_Some existing) as EndpointAlreadyExists new_endpoint_id in
  let? _ := validate_unrotated_lineage db old_before in
  let? node_before := validate_rotation_binding_tx db old_before in
  let? new_generation := next_endpoint_generation old_before in
  let? stored_generation := endpoint_generation_to_i64 old_endpoint_id new_generation in
  let? bundle := canonical_trust_bundle old_endpoint_id new_generation Rotated
                   (trust_bundle_json old_endpoint_id new_generation Rotated) in
  let? row := ok_or (db_trust db !! old_endpoint_id) (EndpointNotFound old_endpoint_id) in
  let db := set_trust (<[old_endpoint_id :=
              with_rotated_to (Some new_endpoint_id)
                (with_status Rotated stored_generation bundle (env_sql_now env) row)]>
              (db_trust db)) db in
  let? db := insert_endpoint_trust_tx env db
    {| et_endpoint_id := new_endpoint_id; et_node_id := et_node_id old_before;
       et_fingerprint := et_fingerprint old_before; et_status := Active;
       et_generation := new_generation; et_previous_endpoint_id := Some old_endpoint_id;
       et_rotated_to := None;
       et_trust_bundle_json := trust_bundle_json new_endpoint_id new_generation Active;
       et_created_at := EmptyString; et_updated_at := EmptyString |} in
  let? (db, affected) :=
    update_node_endpoint_tx db (node_id node_before) old_endpoint_id new_endpoint_id
      (bool_decide (et_status old_before = Quarantined)) in
  reject? negb (affected =? 1)
    as EndpointBindingMismatch old_endpoint_id "bound node endpoint changed during rotation" in
  let node_after := get_node_tx db (node_id node_before) in
  let? found := get_endpoint_trust_tx db old_endpoint_id in
  let? old_after := ok_or found (EndpointNotFound old_endpoint_id) in
  let? found := get_endpoint_trust_tx db new_endpoint_id in
  let? new_after := ok_or found (EndpointNotFound new_endpoint_id) in
  let? db := audit_endpoint_rotation_tx env db actor "endpoint.rotate" old_endpoint_id
               (Some node_before) node_after old_before old_after new_after reason in
  Ok (db, new_after).

Definition rotate_endpoint env (db : Db) (old_endpoint new_endpoint actor reason : string)
    : Db * result StoreError EndpointTrustRecord :=
  transact db
    (let? _ := map_err InvalidInput (validate_actor actor) in
     let? _ := map_err InvalidInput (validate_reason reason) in
     let? old_endpoint_id := map_err InvalidInput (validate_endpoint_id old_endpoint) in
     let? new_endpoint_id := map_err InvalidInput (validate_endpoint_id new_endpoint) in
     reject? String.eqb old_endpoint_id new_endpoint_id
       as InvalidInput "new endpoint_id must differ from old endpoint_id" in
     let? found := get_endpoint_trust_tx db old_endpoint_id in
     let? old_before := ok_or found (EndpointNotFound old_endpoint_id) in
     let? _ := validate_endpoint_bundle_projection old_before in
     if bool_decide (et_status old_before = Rotated)
     then rotate_endpoint_retry env db old_before new_endpoint_id actor reason
     else rotate_endpoint_fresh env db old_before new_endpoint_id actor reason).

(** ** Revocation and quarantine *)

Definition audit_endpoint_status_tx env (db : Db) actor (action endpoint_id : string)
    (node_before node_after : option NodeRecord)
    (endpoint_before endpoint_after : EndpointTrustRecord) reason : result StoreError Db :=
  insert_audit_tx db
    (audit_fields (et_node_id endpoint_before) (Some endpoint_id) None true None
       (VObject [("actor_type", VString "user");
                 ("after", VObject [("endpoint", endpoint_audit_json endpoint_after);
                                    ("node", json_opt node_audit_json node_after)]);
                 ("before", VObject [("endpoint", endpoint_audit_json endpoint_before);
                                     ("node", json_opt node_audit_json node_before)]);
                 ("reason", VString reason);
                 ("target_id", VString endpoint_id);
                 ("target_type", VString "endpoint")])
       (AuditEvent_new env actor action)).

(** [(before.status, status)] of the [matches!]. *)
Definition transition_allowed (from to : EndpointStatus) : bool :=
  match from, to with
  | Active, Revoked | Active, Quarantined | Quarantined, Revoked => true
  | _, _ => false
  end.

(** [action.strip_prefix("endpoint.").unwrap_or(action)]. *)
Definition transition_action (action : string) : string :=
  match strip_prefix "endpoint." action with Some a => a | None => action end.

(** [UPDATE nodes SET enabled = 0 ... WHERE node_id = ?1 AND endpoint_id = ?2]
    with the check that it changed one row. *)
Definition disable_bound_node_tx (db : Db) (id endpoint_id : string) : result StoreError Db :=
  let changed := EndpointBindingMismatch endpoint_id
                   "bound node changed during endpoint status update" in
  let? row := ok_or (db_nodes db !! id) changed in
  check? String.eqb (node_endpoint_id row) endpoint_id else changed in
  Ok (set_nodes (<[id := with_enabled false row]> (db_nodes db)) db).

Definition update_endpoint_status env (db : Db) (endpoint : string) (status : EndpointStatus)
    actor reason (action : string) : Db * result StoreError EndpointTrustRecord :=
  transact db
    (let? _ := map_err InvalidInput (validate_actor actor) in
     let? _ := map_err InvalidInput (validate_reason reason) in
     let? endpoint_id := map_err InvalidInput (validate_endpoint_id endpoint) in
     let? found := get_endpoint_trust_tx db endpoint_id in
     let? before := ok_or found (EndpointNotFound endpoint_id) in
     let? _ := validate_endpoint_bundle_projection before in
     if bool_decide (et_status before = status) then
       let? _ := validate_unrotated_lineage db before in
       Ok (db, before)
     else
       reject? negb (transition_allowed (et_status before) status)
         as invalid_endpoint_transition before (transition_action action) in
       let node_before := get_exact_bound_node_tx db before in
       let? (db, after) := transition_endpoint_status_tx env db before status in
       let? (db, node_after) :=
         match node_before with
         | Some node =>
             if node_enabled node then
               let? db := disable_bound_node_tx db (node_id node) endpoint_id in
               Ok (db, get_node_tx db (node_id node))
             else Ok (db, node_before)
         | None => Ok (db, node_before)
         end in
       let? db := audit_endpoint_status_tx env db actor action endpoint_id node_before
                    node_after before after reason in
       Ok (db, after)).

Definition revoke_endpoint env (db : Db) endpoint actor reason :=
  update_endpoint_status env db endpoint Revoked actor reason "endpoint.revoke".
Definition quarantine_endpoint env (db : Db) endpoint actor reason :=
  update_endpoint_status env db endpoint Quarantined actor reason "endpoint.quarantine".
End operations.

(** ** The check before a request is sent (controller_rpc.rs) *)

Inductive EndpointTrustRejection :=
| Missing
| Inactive (status : EndpointStatus)
| Unbound
| BindingMismatch.

Definition classify_endpoint_trust (binding : option EndpointDispatchBinding)
    (expected_node_id endpoint_id : string) : option EndpointTrustRejection :=
  match binding with
  | None => Some Missing
  | Some binding =>
      match edb_status binding with
      | Active =>
          match edb_trust_node_id binding with
          | None => Some Unbound
          | Some trust_node_id =>
              if negb (String.eqb trust_node_id expected_node_id)
                 || bool_decide (edb_registry_node_id binding <> Some expected_node_id)
                 || bool_decide (edb_registry_endpoint_id binding <> Some endpoint_id)
                 || bool_decide (edb_registry_enabled binding <> Some true)
                 || negb (edb_active_endpoint_count_for_node binding =? 1)
              then Some BindingMismatch else None
          end
      | status => Some (Inactive status)
      end
  end.

Definition endpoint_trust_rejection (db : Db) (expected_node_id endpoint_id : string)
    : option EndpointTrustRejection :=
  classify_endpoint_trust (get_endpoint_dispatch_binding db expected_node_id endpoint_id)
    expected_node_id endpoint_id.
