(* ===== verification/Enrollment.v ===== *)
(** * Enrollment: tokens, join requests, approval and legacy claims
      (ocfleet-cli/src/store.rs: create/revoke_enrollment_token,
      submit/reject/approve_join_request, claim_legacy_enrollment and helpers)

    BLAKE3 and the UUID parser are third-party ([DigestOps]). *)

From stdpp Require Import pretty.
From S2P Require Import Prelude Text External AgentConfig InputValidation StoreTypes.
From S2P Require Import StoredText StoragePayloads StoreDb TrustStore.

(** [blake3::hash(..).to_hex()] and [Uuid::parse_str(..).is_ok()]. *)
Class DigestOps := {
  blake3_hex : string -> string;
  uuid_parses : string -> bool;
}.

Definition MAX_ENROLLMENT_TOKEN_USES : Z := 10000.

(** ** Checks on input *)

Section validation.
Context `{EndpointIdOps, TimeOps, JsonOps, DigestOps}.

Definition validate_enrollment_request_id (request_id : string) : result StoreError unit :=
  let? _ := validate_audit_text request_id "join request_id" 128 in
  match strip_prefix "join-" request_id with
  | None => Err (InvalidInput "join request_id must use the join-<uuid> format")
  | Some uuid =>
      if uuid_parses uuid then Ok tt
      else Err (InvalidInput "join request_id must contain a UUID")
  end.

Definition validate_enrollment_token_id (token_id : string) : result StoreError unit :=
  let? _ := validate_audit_text token_id "enrollment token_id" 128 in
  check? starts_with "tok-" token_id
    else InvalidInput "enrollment token_id must start with tok-" in
  Ok tt.

Definition validate_enrollment_token_input (token : EnrollmentTokenInsert)
    : result StoreError unit :=
  let? _ := validate_enrollment_token_id (ti_token_id token) in
  reject? negb (str_len (ti_token_hash token) =? 64)
          || negb (forallb (fun b => is_ascii_digit b || in_range 97 102 b)
                           (str_bytes (ti_token_hash token)))
    as InvalidInput "enrollment token hash must be lowercase BLAKE3 hex" in
  reject? bool_decide (rfc3339_parse (ti_expires_at token) = None)
    as InvalidInput "enrollment token expires_at must be RFC3339" in
  reject? (ti_max_uses token =? 0) || (MAX_ENROLLMENT_TOKEN_USES <? ti_max_uses token)
    as InvalidInput ("enrollment token max_uses must be 1-"
                     +:+ pretty MAX_ENROLLMENT_TOKEN_USES) in
  Ok tt.

Definition validate_enrollment_token_plaintext (token : string) : result StoreError unit :=
  reject? str_is_empty token || (512 <? str_len token)
          || negb (forallb is_ascii_graphic (str_bytes token))
    as InvalidInput "enrollment token must be 1-512 ASCII non-whitespace characters" in
  Ok tt.

Definition canonical_enrollment_metadata (kind : EnrollmentMetadataKindV1) (value : Value)
    : result StoreError Value :=
  let? payload := map_err InvalidInput
    (match emp_from_value kind value with
     | Ok p => Ok p
     | Err _ => emp_new kind value
     end) in
  Ok (emp_to_value payload).

(** [ValidationError::to_string]. *)
Definition validation_error_text (e : ValidationError) : string :=
  match e with
  | InvalidSafeString field min max pattern =>
      (field +:+ " must be " +:+ pretty min +:+ "-" +:+ pretty max
       +:+ " characters and contain only " +:+ pattern)%string
  | InvalidServiceName => "service_name contains unsupported characters"
  | EmptyPath field => (field +:+ " must not be empty")%string
  | InvalidEndpointId field =>
      (field +:+ " must be non-empty and contain no ASCII whitespace")%string
  | InvalidControllerRole => "controller role must be viewer"
  | NonPositiveNumber field => (field +:+ " must be greater than zero")%string
  end.

Definition enrollment_node_insert (id endpoint region role : string)
    : result StoreError NodeInsert :=
  let invalid e := InvalidInput (validation_error_text e) in
  let? _ := map_err invalid (validate_node_id id) in
  let? endpoint_id := map_err InvalidInput (validate_endpoint_id endpoint) in
  let? _ := map_err invalid (validate_region region) in
  let? _ := map_err invalid (validate_role role) in
  Ok {| ni_node_id := id; ni_endpoint_id := endpoint_id; ni_name := id;
        ni_region := region; ni_role := role |}.

(** ** Rows *)

Definition enrollment_metadata_from_column (value : Value) (column : Z)
    (kind : EnrollmentMetadataKindV1) : result StoreError EnrollmentMetadataPayloadV1 :=
  map_err (fun _ => Sqlite (FromSqlConversionFailure column)) (emp_from_value kind value).

(** [i64_to_u32]. *)
Definition i64_to_u32 (value : Z) : result StoreError Z :=
  if in_range 0 u32_max value then Ok value else Err (Sqlite (FromSqlConversionFailure 0)).

Definition enrollment_token_from_row (row : EnrollmentTokenRecord)
    : result StoreError EnrollmentTokenRecord :=
  let? labels := enrollment_metadata_from_column (tok_labels_json row) 9 TokenLabels in
  let? scope := enrollment_metadata_from_column (tok_scope_json row) 10 TokenScope in
  let? max_uses := i64_to_u32 (tok_max_uses row) in
  let? used_count := i64_to_u32 (tok_used_count row) in
  Ok {| tok_token_id := tok_token_id row; tok_token_hash := tok_token_hash row;
        tok_created_at := tok_created_at row; tok_created_by := tok_created_by row;
        tok_expires_at := tok_expires_at row; tok_max_uses := max_uses;
        tok_used_count := used_count; tok_status := tok_status row;
        tok_description := tok_description row;
        tok_labels_json := emp_public_value labels; tok_scope_json := emp_public_value scope |}.

Definition join_request_from_row (row : JoinRequestRecord)
    : result StoreError JoinRequestRecord :=
  let? requested := enrollment_metadata_from_column (jr_requested_labels_json row) 9
                      RequestedLabels in
  let? approved := enrollment_metadata_from_column (jr_approved_labels_json row) 10
                     ApprovedLabels in
  reject? bool_decide (jr_status row <> JoinApproved)
          && negb (Nat.eqb (length (emp_values approved)) 0)
    as Sqlite (FromSqlConversionFailure 10) in
  Ok {| jr_request_id := jr_request_id row; jr_token_id := jr_token_id row;
        jr_status := jr_status row; jr_agent_public_key := jr_agent_public_key row;
        jr_fingerprint := jr_fingerprint row;
        jr_requested_endpoint_id := jr_requested_endpoint_id row;
        jr_assigned_endpoint_id := jr_assigned_endpoint_id row;
        jr_hostname := jr_hostname row; jr_agent_version := jr_agent_version row;
        jr_requested_labels_json := emp_public_value requested;
        jr_approved_labels_json := emp_public_value approved;
        jr_created_at := jr_created_at row; jr_approved_at := jr_approved_at row;
        jr_approved_by := jr_approved_by row; jr_rejection_reason := jr_rejection_reason row;
        jr_audit_correlation_id := jr_audit_correlation_id row |}.

Definition get_enrollment_token_tx (db : Db) (token_id : string)
    : result StoreError (option EnrollmentTokenRecord) :=
  optional_row enrollment_token_from_row (db_tokens db !! token_id).

(** [token_hash] is UNIQUE. *)
Definition get_enrollment_token_by_hash_tx (db : Db) (token_hash : string)
    : result StoreError (option EnrollmentTokenRecord) :=
  optional_row enrollment_token_from_row
    (head (select (fun t => String.eqb (tok_token_hash t) token_hash) (db_tokens db))).

Definition get_join_request_tx (db : Db) (request_id : string)
    : result StoreError (option JoinRequestRecord) :=
  optional_row join_request_from_row (db_joins db !! request_id).

Definition with_token_status (s : EnrollmentTokenStatus) (t : EnrollmentTokenRecord)
    : EnrollmentTokenRecord :=
  {| tok_token_id := tok_token_id t; tok_token_hash := tok_token_hash t;
     tok_created_at := tok_created_at t; tok_created_by := tok_created_by t;
     tok_expires_at := tok_expires_at t; tok_max_uses := tok_max_uses t;
     tok_used_count := tok_used_count t; tok_status := s; tok_description := tok_description t;
     tok_labels_json := tok_labels_json t; tok_scope_json := tok_scope_json t |}.

Definition with_used_count (n : Z) (t : EnrollmentTokenRecord) : EnrollmentTokenRecord :=
  {| tok_token_id := tok_token_id t; tok_token_hash := tok_token_hash t;
     tok_created_at := tok_created_at t; tok_created_by := tok_created_by t;
     tok_expires_at := tok_expires_at t; tok_max_uses := tok_max_uses t;
     tok_used_count := n; tok_status := tok_status t; tok_description := tok_description t;
     tok_labels_json := tok_labels_json t; tok_scope_json := tok_scope_json t |}.

(** [UPDATE enrollment_tokens SET status = ? WHERE token_id = ? AND status =
    'active']: the tables and the number of rows changed. *)
Definition update_token_status (db : Db) (token_id : string) (s : EnrollmentTokenStatus)
    : Db * Z :=
  match db_tokens db !! token_id with
  | Some row =>
      if bool_decide (tok_status row = TokenActive)
      then (set_tokens (<[token_id := with_token_status s row]> (db_tokens db)) db, 1)
      else (db, 0)
  | None => (db, 0)
  end.

(** [UPDATE enrollment_tokens SET used_count = used_count + 1 WHERE token_id
    = ? AND status = 'active' AND used_count = ? AND used_count < max_uses]. *)
Definition use_token (db : Db) (token_id : string) (seen : Z) : Db * Z :=
  match db_tokens db !! token_id with
  | Some row =>
      if bool_decide (tok_status row = TokenActive) && (tok_used_count row =? seen)
         && (tok_used_count row <? tok_max_uses row)
      then (set_tokens (<[token_id := with_used_count (tok_used_count row + 1) row]>
                          (db_tokens db)) db, 1)
      else (db, 0)
  | None => (db, 0)
  end.

(** ** Audit provenance: how often the log holds a given event *)

(** [json_extract(detail_json, '$.k') = s]. *)
Definition detail_is (k : string) (s : string) (e : AuditEvent) : bool :=
  bool_decide (value_get k (ae_detail_json e) = Some (VString s)).

Definition event_ok (event : string) (e : AuditEvent) : bool :=
  String.eqb (ae_event e) event && bool_decide (ae_ok e = Some true).

Definition count_events (P : AuditEvent -> bool) (db : Db) : Z :=
  Z.of_nat (length (List.filter P (db_audit db))).

Definition validate_enrollment_token_audit_provenance_tx (db : Db)
    (event token_id actor : string) (reason : option string) : result StoreError unit :=
  reject? negb (count_events (fun e =>
            event_ok event e && detail_is "target_id" token_id e
            && String.eqb (ae_actor e) actor
            && match reason with Some r => detail_is "reason" r e | None => true end) db =? 1)
    as EnrollmentTokenConflict token_id "token audit provenance is missing or ambiguous" in
  Ok tt.

Definition validate_join_submission_audit_provenance_tx (db : Db) (join : JoinRequestRecord)
    (actor : string) : result StoreError unit :=
  let id := jr_request_id join in
  reject? negb (count_events (fun e =>
            event_ok "enrollment.token.use" e && bool_decide (ae_request_id e = Some id)
            && detail_is "target_id" id e && String.eqb (ae_actor e) actor) db =? 1)
    as EnrollmentRequestConflict id
         "request submission audit provenance is missing or ambiguous" in
  Ok tt.

Definition validate_join_rejection_audit_provenance_tx (db : Db)
    (request_id actor reason : string) : result StoreError unit :=
  reject? negb (count_events (fun e =>
            event_ok "enrollment.reject" e && bool_decide (ae_request_id e = Some request_id)
            && detail_is "target_id" request_id e && String.eqb (ae_actor e) actor
            && detail_is "reason" reason e) db =? 1)
    as EnrollmentRequestConflict request_id
         "request rejection audit provenance is missing or ambiguous" in
  Ok tt.

Definition approved_join_assignment_count_tx (db : Db) (endpoint_id : string) : Z :=
  Z.of_nat (length (select (fun j => bool_decide (jr_status j = JoinApproved)
              && bool_decide (jr_assigned_endpoint_id j = Some endpoint_id)) (db_joins db))).

(** [actor = ?3] with a NULL [approved_by] holds for no row. *)
Definition approved_join_audit_count_tx (db : Db) (join : JoinRequestRecord)
    (endpoint_id : string) (id : option string) : Z :=
  count_events (fun e =>
    event_ok "enrollment.approve" e && bool_decide (ae_request_id e = Some (jr_request_id join))
    && bool_decide (ae_endpoint_id e = Some endpoint_id)
    && match jr_approved_by join with Some a => String.eqb (ae_actor e) a | None => false end
    && bool_decide (ae_node_id e = id)) db.

Definition enrollment_claim_audit_count_tx (db : Db) (request_id endpoint_id id : string) : Z :=
  count_events (fun e =>
    event_ok "enrollment.claim" e && bool_decide (ae_request_id e = Some request_id)
    && bool_decide (ae_endpoint_id e = Some endpoint_id)
    && bool_decide (ae_node_id e = Some id)) db.

(** ** Checks on stored enrollment state *)

Definition validate_approved_join_provenance_tx (db : Db) (join : JoinRequestRecord)
    (endpoint_id : string) : result StoreError unit :=
  let reject := InvalidEnrollmentBinding (jr_request_id join) in
  reject? bool_decide (jr_status join <> JoinApproved)
    as reject "join request is not approved" in
  reject? bool_decide (jr_assigned_endpoint_id join <> Some endpoint_id)
    as reject "assigned endpoint does not match" in
  reject? differs (jr_requested_endpoint_id join) endpoint_id
    as reject "assigned endpoint does not match requested endpoint" in
  let? approved_by := ok_or (jr_approved_by join) (reject "approval metadata is incomplete") in
  reject? negb (is_ok (validate_actor approved_by))
          || match jr_approved_at join with
             | Some at_ => bool_decide (rfc3339_parse at_ = None)
             | None => true
             end
          || bool_decide (is_Some (jr_rejection_reason join))
    as reject "approval metadata is invalid" in
  let? _ := map_err (fun _ => reject "stored fingerprint is invalid")
              (validate_agent_fingerprint (jr_fingerprint join)) in
  let? _ := map_err (fun _ => reject "approved labels are invalid")
              (validate_label_json (jr_approved_labels_json join) "approved_labels") in
  reject? negb (approved_join_assignment_count_tx db endpoint_id =? 1)
    as reject "approved endpoint assignment is ambiguous" in
  Ok tt.

Definition validate_approved_join_audit_provenance_tx (db : Db) (join : JoinRequestRecord)
    (endpoint_id : string) (id : option string) : result StoreError unit :=
  reject? negb (approved_join_audit_count_tx db join endpoint_id id =? 1)
    as InvalidEnrollmentBinding (jr_request_id join)
         "approval audit provenance is missing or ambiguous" in
  Ok tt.

Definition validate_enrollment_claim_audit_provenance_tx (db : Db) (join : JoinRequestRecord)
    (endpoint_id id : string) : result StoreError unit :=
  reject? negb (enrollment_claim_audit_count_tx db (jr_request_id join) endpoint_id id =? 1)
    as InvalidEnrollmentBinding (jr_request_id join)
         "claim retry audit provenance is missing or ambiguous" in
  Ok tt.

Definition validate_enrollment_endpoint_origin (join : JoinRequestRecord)
    (endpoint : EndpointTrustRecord) (request_id : string) : result StoreError unit :=
  let reject := InvalidEnrollmentBinding request_id in
  reject? negb (String.eqb (et_endpoint_id endpoint)
                  (match jr_assigned_endpoint_id join with Some e => e | None => EmptyString end))
          || bool_decide (et_status endpoint <> Active)
          || negb (et_generation endpoint =? 1)
          || bool_decide (is_Some (et_previous_endpoint_id endpoint))
          || bool_decide (is_Some (et_rotated_to endpoint))
    as reject "endpoint trust is not an original active enrollment" in
  reject? bool_decide (et_fingerprint endpoint <> Some (jr_fingerprint join))
    as reject "endpoint fingerprint does not match join request" in
  let? _ := map_err (fun _ => reject "endpoint trust bundle is inconsistent")
              (validate_endpoint_bundle_projection endpoint) in
  reject? negb (value_eqb (et_trust_bundle_json endpoint)
                  (trust_bundle_json (et_endpoint_id endpoint) 1 Active))
    as reject "endpoint trust bundle is not the enrollment bundle" in
  Ok tt.

Definition validate_pending_join_for_approval (join : JoinRequestRecord)
    : result StoreError unit :=
  let reject := InvalidEnrollmentBinding (jr_request_id join) in
  let checked {A B} (r : result A B) (detail : string) := map_err (fun _ => reject detail) r in
  reject? bool_decide (jr_status join <> JoinPending)
          || bool_decide (is_Some (jr_assigned_endpoint_id join))
          || bool_decide (is_Some (jr_approved_at join))
          || bool_decide (is_Some (jr_approved_by join))
          || bool_decide (is_Some (jr_rejection_reason join))
          || match as_object (jr_approved_labels_json join) with
             | Some labels => negb (Nat.eqb (length labels) 0)
             | None => true
             end
    as reject "pending join request has decision metadata" in
  let? _ := checked (validate_agent_public_key (jr_agent_public_key join))
              "stored agent public key is invalid" in
  let? _ := checked (validate_agent_fingerprint (jr_fingerprint join))
              "stored fingerprint is invalid" in
  let? _ := checked (validate_hostname (jr_hostname join)) "stored hostname is invalid" in
  let? _ := checked (validate_agent_version (jr_agent_version join))
              "stored agent version is invalid" in
  let? _ := checked (validate_label_json (jr_requested_labels_json join) "requested_labels")
              "stored requested labels are invalid" in
  let? _ := checked (validate_audit_text (jr_audit_correlation_id join) "join correlation_id" 128)
              "stored audit correlation is invalid" in
  Ok tt.

Definition validate_exact_enrollment_binding_tx (db : Db) (join : JoinRequestRecord)
    (endpoint : EndpointTrustRecord) (expected_node : NodeInsert)
    (expected_approved_labels : option Value) (failure_detail : string)
    : result StoreError unit :=
  let failure := InvalidEnrollmentBinding (jr_request_id join) failure_detail in
  let? _ := validate_approved_join_provenance_tx db join (ni_endpoint_id expected_node) in
  let? _ := validate_enrollment_endpoint_origin join endpoint (jr_request_id join) in
  reject? match expected_approved_labels with
          | Some expected => negb (value_eqb expected (jr_approved_labels_json join))
          | None => false
          end
          || bool_decide (et_node_id endpoint <> Some (ni_node_id expected_node))
    as failure in
  let? node := ok_or (get_node_tx db (ni_node_id expected_node)) failure in
  reject? negb (String.eqb (node_id node) (ni_node_id expected_node))
          || negb (String.eqb (node_endpoint_id node) (ni_endpoint_id expected_node))
          || negb (String.eqb (node_name node) (ni_name expected_node))
          || negb (String.eqb (node_region node) (ni_region expected_node))
          || negb (String.eqb (node_role node) (ni_role expected_node))
          || match get_node_by_endpoint_tx db (ni_endpoint_id expected_node) with
             | Some by_endpoint =>
                 negb (String.eqb (node_id by_endpoint) (ni_node_id expected_node))
             | None => true
             end
    as failure in
  let? active := get_active_endpoint_trust_for_node_tx db (ni_node_id expected_node) in
  reject? negb (single_active active (ni_endpoint_id expected_node)) as failure in
  Ok tt.
End validation.

(** ** Audit details *)

Definition object_len (v : Value) : Z :=
  match as_object v with Some m => Z.of_nat (length m) | None => 0 end.

Definition enrollment_join_audit_json (join : JoinRequestRecord) : Value :=
  VObject [("assigned_endpoint_id", json_opt_str (jr_assigned_endpoint_id join));
           ("request_id", VString (jr_request_id join));
           ("requested_endpoint_id_present",
             VBool (bool_decide (is_Some (jr_requested_endpoint_id join))));
           ("status", VString (join_status_as_str (jr_status join)))].

Definition enrollment_token_audit_json (token : EnrollmentTokenRecord) : Value :=
  VObject [("description_present", VBool (bool_decide (is_Some (tok_description token))));
           ("expires_at", VString (tok_expires_at token));
           ("label_count", json_u64 (object_len (tok_labels_json token)));
           ("max_uses", json_u64 (tok_max_uses token));
           ("scope_count", json_u64 (object_len (tok_scope_json token)));
           ("status", VString (token_status_as_str (tok_status token)));
           ("token_id", VString (tok_token_id token));
           ("used_count", json_u64 (tok_used_count token))].

Definition enrollment_token_transition_audit_json (token_id : string)
    (before after : option EnrollmentTokenRecord) (reason : option string) : Value :=
  json_detail "enrollment_token" token_id (enrollment_token_audit_json <$> before)
    (enrollment_token_audit_json <$> after) reason.

Definition enrollment_token_use_audit_json (before after : EnrollmentTokenRecord)
    (join : JoinRequestRecord) : Value :=
  json_detail "join_request" (jr_request_id join)
    (Some (VObject [("issuance", enrollment_token_audit_json before);
                    ("join_request", Null)]))
    (Some (VObject [("issuance", enrollment_token_audit_json after);
                    ("join_request", VObject
                       [("correlation_id", VString (jr_audit_correlation_id join));
                        ("fingerprint_present", VBool (negb (str_is_empty (jr_fingerprint join))));
                        ("request_id", VString (jr_request_id join));
                        ("requested_endpoint_id_present",
                          VBool (bool_decide (is_Some (jr_requested_endpoint_id join))));
                        ("requested_label_count",
                          json_u64 (object_len (jr_requested_labels_json join)));
                        ("status", VString (join_status_as_str (jr_status join)));
                        ("token_id", VString (jr_token_id join))])]))
    None.

Definition enrollment_request_transition_audit_json (request_id : string)
    (before after : JoinRequestRecord) (reason : string) : Value :=
  json_detail "join_request" request_id (Some (enrollment_join_audit_json before))
    (Some (enrollment_join_audit_json after)) (Some reason).

(** [a.or(b)]. *)
Definition option_or {A} (a b : option A) : option A :=
  match a with Some _ => a | None => b end.

Section operations.
Context `{EndpointIdOps, TimeOps, JsonOps, DigestOps}.
Implicit Types (env : StoreEnv) (actor reason : string).

Definition audit_join_rejection_tx env (db : Db) actor (request_id token_id : option string)
    reason : result StoreError Db :=
  insert_audit_tx db
    (audit_fields None None request_id false (Some "ENROLLMENT_REJECTED")
       (VObject [("action", VString "enrollment.token.reject");
                 ("actor_type", VString "user");
                 ("reason", VString reason);
                 ("target_id", json_opt_str token_id);
                 ("target_type", VString "enrollment_token")])
       (AuditEvent_new env actor "enrollment.token.reject")).

Definition audit_enrollment_binding_tx env (db : Db) actor (action request_id : string)
    (join_before join_after : JoinRequestRecord) (node_before node_after : option NodeRecord)
    (endpoint_before endpoint_after : option EndpointTrustRecord) reason
    : result StoreError Db :=
  insert_audit_tx db
    (audit_fields (node_id <$> option_or node_after node_before)
       (et_endpoint_id <$> option_or endpoint_after endpoint_before) (Some request_id) true None
       (json_detail "enrollment_binding" request_id
          (Some (VObject [("endpoint", json_opt endpoint_audit_json endpoint_before);
                          ("join_request", enrollment_join_audit_json join_before);
                          ("node", json_opt node_audit_json node_before)]))
          (Some (VObject [("endpoint", json_opt endpoint_audit_json endpoint_after);
                          ("join_request", enrollment_join_audit_json join_after);
                          ("node", json_opt node_audit_json node_after)]))
          (Some reason))
       (AuditEvent_new env actor action)).

(** ** Tokens *)

Definition enrollment_token_matches_create (existing : EnrollmentTokenRecord)
    (requested : EnrollmentTokenInsert) actor : bool :=
  String.eqb (tok_token_id existing) (ti_token_id requested)
  && String.eqb (tok_token_hash existing) (ti_token_hash requested)
  && String.eqb (tok_created_by existing) actor
  && String.eqb (tok_expires_at existing) (ti_expires_at requested)
  && (tok_max_uses existing =? ti_max_uses requested)
  && bool_decide (tok_description existing = ti_description requested)
  && value_eqb (tok_labels_json existing) (ti_labels_json requested)
  && value_eqb (tok_scope_json existing) (ti_scope_json requested).

Definition token_is_expired env (expires_at : string) : bool :=
  match rfc3339_parse expires_at with
  | Some expires_at => expires_at <=? env_now env
  | None => true
  end.

Definition create_enrollment_token env (db : Db) (token : EnrollmentTokenInsert) actor
    : Db * result StoreError EnrollmentTokenRecord :=
  transact db
    (let? _ := map_err InvalidInput (validate_actor actor) in
     let? _ := validate_enrollment_token_input token in
     let? _ := map_err InvalidInput
                 (check_opt validate_description (ti_description token)) in
     let? _ := map_err InvalidInput (validate_label_json (ti_labels_json token) "labels") in
     let? _ := map_err InvalidInput (validate_label_json (ti_scope_json token) "scope") in
     let? _ := validate_low_sensitive_json (ti_labels_json token) "enrollment token labels" in
     let? _ := validate_low_sensitive_json (ti_scope_json token) "enrollment token scope" in
     let? labels := canonical_enrollment_metadata TokenLabels (ti_labels_json token) in
     let? scope := canonical_enrollment_metadata TokenScope (ti_scope_json token) in
     let? found := get_enrollment_token_tx db (ti_token_id token) in
     match found with
     | Some existing =>
         if enrollment_token_matches_create existing token actor then
           let? _ := validate_enrollment_token_audit_provenance_tx db
                       "enrollment.token.create" (ti_token_id token) actor None in
           Ok (db, existing)
         else Err (EnrollmentTokenConflict (ti_token_id token)
                     "token id already exists with different issuance metadata")
     | None =>
         let? by_hash := get_enrollment_token_by_hash_tx db (ti_token_hash token) in
         reject? bool_decide (is_Some by_hash)
           as EnrollmentTokenConflict (ti_token_id token)
                "token credential is already assigned to another token id" in
         let db := set_tokens (<[ti_token_id token :=
                     {| tok_token_id := ti_token_id token;
                        tok_token_hash := ti_token_hash token;
                        tok_created_at := env_sql_now env; tok_created_by := actor;
                        tok_expires_at := ti_expires_at token;
                        tok_max_uses := ti_max_uses token; tok_used_count := 0;
                        tok_status := TokenActive; tok_description := ti_description token;
                        tok_labels_json := labels; tok_scope_json := scope |}]>
                     (db_tokens db)) db in
         let? found := get_enrollment_token_tx db (ti_token_id token) in
         let? after := ok_or found (EnrollmentTokenNotFound (ti_token_id token)) in
         let? db := insert_audit_tx db
           (audit_fields None None None true None
              (enrollment_token_transition_audit_json (ti_token_id token) None (Some after) None)
              (AuditEvent_new env actor "enrollment.token.create")) in
         Ok (db, after)
     end).

Definition revoke_enrollment_token env (db : Db) (token_id actor reason : string)
    : Db * result StoreError EnrollmentTokenRecord :=
  transact db
    (let? _ := map_err InvalidInput (validate_actor actor) in
     let? _ := map_err InvalidInput (validate_reason reason) in
     let? _ := validate_enrollment_token_id token_id in
     let? found := get_enrollment_token_tx db token_id in
     let? before := ok_or found (EnrollmentTokenNotFound token_id) in
     match tok_status before with
     | TokenRevoked =>
         let? _ := validate_enrollment_token_audit_provenance_tx db
                     "enrollment.token.revoke" token_id actor (Some reason) in
         Ok (db, before)
     | TokenExpired =>
         Err (InvalidEnrollmentTokenTransition token_id
                (token_status_as_str (tok_status before)) "revoke")
     | TokenActive =>
         reject? token_is_expired env (tok_expires_at before)
           as InvalidEnrollmentTokenTransition token_id
                (token_status_as_str TokenExpired) "revoke" in
         let '(db, affected) := update_token_status db token_id TokenRevoked in
         reject? negb (affected =? 1)
           as EnrollmentTokenConflict token_id "token state changed during revocation" in
         let? found := get_enrollment_token_tx db token_id in
         let? after := ok_or found (EnrollmentTokenNotFound token_id) in
         let? db := insert_audit_tx db
           (audit_fields None None None true None
              (enrollment_token_transition_audit_json token_id (Some before) (Some after)
                 (Some reason))
              (AuditEvent_new env actor "enrollment.token.revoke")) in
         Ok (db, after)
     end).

(** ** Join requests *)

Definition join_request_matches_submission (existing : JoinRequestRecord)
    (requested : JoinRequestInsert) (token_id : string) (requested_endpoint_id : option string)
    : bool :=
  String.eqb (jr_request_id existing) (ji_request_id requested)
  && String.eqb (jr_token_id existing) token_id
  && String.eqb (jr_agent_public_key existing) (ji_agent_public_key requested)
  && String.eqb (jr_fingerprint existing) (ji_fingerprint requested)
  && bool_decide (jr_requested_endpoint_id existing = requested_endpoint_id)
  && String.eqb (jr_hostname existing) (ji_hostname requested)
  && String.eqb (jr_agent_version existing) (ji_agent_version requested)
  && value_eqb (jr_requested_labels_json existing) (ji_requested_labels_json requested).

(** [request.requested_endpoint_id.as_deref().map(validate_endpoint_id).transpose()]. *)
Definition validate_requested_endpoint (o : option string)
    : result StoreError (option string) :=
  match o with
  | None => Ok None
  | Some e =>
      let? e := map_err (fun err => InvalidInput ("requested_endpoint_id: " +:+ err))
                        (validate_endpoint_id e) in
      Ok (Some e)
  end.

(** An outcome of [submit_join_request] that commits: the value returned to
    the caller, which may be the rejection that was just recorded. *)
Definition Committed (A : Type) : Type := result StoreError (Db * result StoreError A).

Definition transact_committed {A} (db : Db) (body : Committed A) : Db * result StoreError A :=
  match body with
  | Ok (db', r) => (db', r)
  | Err e => (db, Err e)
  end.

(** Record the rejection, commit and return it. *)
Definition reject_submission env (db : Db) actor (request_id : string)
    (token_id : option string) reason : Committed JoinRequestRecord :=
  let? db := audit_join_rejection_tx env db actor (Some request_id) token_id reason in
  Ok (db, Err (EnrollmentRejected reason)).

(** The branch for a token that has passed its expiry. *)
Definition expire_and_reject env (db : Db) actor (request_id : string)
    (token : EnrollmentTokenRecord) : Committed JoinRequestRecord :=
  let token_id := tok_token_id token in
  let '(db, affected) := update_token_status db token_id TokenExpired in
  reject? negb (affected =? 1)
    as EnrollmentTokenConflict token_id "token state changed during expiry" in
  let? found := get_enrollment_token_tx db token_id in
  let? expired := ok_or found (EnrollmentTokenNotFound token_id) in
  let? db := insert_audit_tx db
    (audit_fields None None (Some request_id) true None
       (enrollment_token_transition_audit_json token_id (Some token) (Some expired)
          (Some "expired"))
       (AuditEvent_new env actor "enrollment.token.expire")) in
  reject_submission env db actor request_id (Some token_id) "expired".

(** The branch that stores the request and counts the use. *)
Definition accept_submission env (db : Db) actor (request : JoinRequestInsert)
    (token : EnrollmentTokenRecord) (requested_endpoint_id : option string)
    (requested_labels approved_labels : Value) : Committed JoinRequestRecord :=
  let request_id := ji_request_id request in
  let token_id := tok_token_id token in
  let? db := match db_joins db !! request_id with
    | Some _ => Err (Sqlite (ConstraintViolation "join_requests.request_id"))
    | None =>
        Ok (set_joins (<[request_id :=
          {| jr_request_id := request_id; jr_token_id := token_id; jr_status := JoinPending;
             jr_agent_public_key := ji_agent_public_key request;
             jr_fingerprint := ji_fingerprint request;
             jr_requested_endpoint_id := requested_endpoint_id;
             jr_assigned_endpoint_id := None; jr_hostname := ji_hostname request;
             jr_agent_version := ji_agent_version request;
             jr_requested_labels_json := requested_labels;
             jr_approved_labels_json := approved_labels;
             jr_created_at := env_sql_now env; jr_approved_at := None; jr_approved_by := None;
             jr_rejection_reason := None;
             jr_audit_correlation_id := ("corr-" +:+ env_uuid env)%string |}]>
          (db_joins db)) db)
    end in
  let '(db, affected) := use_token db token_id (tok_used_count token) in
  reject? negb (affected =? 1)
    as EnrollmentTokenConflict token_id
         "token use count changed during request submission" in
  let? found := get_join_request_tx db request_id in
  let? joined := ok_or found (JoinRequestNotFound request_id) in
  let? found := get_enrollment_token_tx db token_id in
  let? token_after := ok_or found (EnrollmentTokenNotFound token_id) in
  let? db := insert_audit_tx db
    (audit_fields None None (Some request_id) true None
       (enrollment_token_use_audit_json token token_after joined)
       (AuditEvent_new env actor "enrollment.token.use")) in
  Ok (db, Ok joined).

Definition submit_join_request env (db : Db) (request : JoinRequestInsert) actor
    : Db * result StoreError JoinRequestRecord :=
  transact_committed db
    (let? _ := map_err InvalidInput (validate_actor actor) in
     let? _ := validate_enrollment_request_id (ji_request_id request) in
     let? _ := validate_enrollment_token_plaintext (ji_token_plaintext request) in
     let? _ := map_err InvalidInput (validate_agent_public_key (ji_agent_public_key request)) in
     let? _ := map_err InvalidInput (validate_agent_fingerprint (ji_fingerprint request)) in
     let? requested_endpoint_id :=
       validate_requested_endpoint (ji_requested_endpoint_id request) in
     let? _ := map_err InvalidInput (validate_hostname (ji_hostname request)) in
     let? _ := map_err InvalidInput (validate_agent_version (ji_agent_version request)) in
     let? _ := map_err InvalidInput
                 (validate_label_json (ji_requested_labels_json request) "requested_labels") in
     let? _ := validate_low_sensitive_json (ji_requested_labels_json request)
                 "enrollment requested labels" in
     let? requested_labels :=
       canonical_enrollment_metadata RequestedLabels (ji_requested_labels_json request) in
     let? approved_labels := canonical_enrollment_metadata ApprovedLabels json_empty in
     let? found := get_enrollment_token_by_hash_tx db
                     (blake3_hex (ji_token_plaintext request)) in
     match found with
     | None => reject_submission env db actor (ji_request_id request) None "unknown_token"
     | Some token =>
         let? found := get_join_request_tx db (ji_request_id request) in
         match found with
         | Some existing =>
             if join_request_matches_submission existing request (tok_token_id token)
                  requested_endpoint_id
             then let? _ := validate_join_submission_audit_provenance_tx db existing actor in
                  Ok (db, Ok existing)
             else Err (EnrollmentRequestConflict (ji_request_id request)
                         "request id already exists with different enrollment input")
         | None =>
             if bool_decide (tok_status token <> TokenActive) then
               reject_submission env db actor (ji_request_id request)
                 (Some (tok_token_id token)) (token_status_as_str (tok_status token))
             else if token_is_expired env (tok_expires_at token) then
               expire_and_reject env db actor (ji_request_id request) token
             else if tok_max_uses token <=? tok_used_count token then
               reject_submission env db actor (ji_request_id request)
                 (Some (tok_token_id token)) "max_uses_exhausted"
             else
               accept_submission env db actor request token requested_endpoint_id
                 requested_labels approved_labels
         end
     end).

(** [UPDATE join_requests SET status, ... WHERE request_id = ? AND status =
    'pending']: the tables and the number of rows changed. *)
Definition update_pending_join (db : Db) (request_id : string)
    (f : JoinRequestRecord -> JoinRequestRecord) : Db * Z :=
  match db_joins db !! request_id with
  | Some row =>
      if bool_decide (jr_status row = JoinPending)
      then (set_joins (<[request_id := f row]> (db_joins db)) db, 1)
      else (db, 0)
  | None => (db, 0)
  end.

Definition rejected_join reason (j : JoinRequestRecord) : JoinRequestRecord :=
  {| jr_request_id := jr_request_id j; jr_token_id := jr_token_id j;
     jr_status := JoinRejected; jr_agent_public_key := jr_agent_public_key j;
     jr_fingerprint := jr_fingerprint j;
     jr_requested_endpoint_id := jr_requested_endpoint_id j;
     jr_assigned_endpoint_id := jr_assigned_endpoint_id j; jr_hostname := jr_hostname j;
     jr_agent_version := jr_agent_version j;
     jr_requested_labels_json := jr_requested_labels_json j;
     jr_approved_labels_json := jr_approved_labels_json j; jr_created_at := jr_created_at j;
     jr_approved_at := jr_approved_at j; jr_approved_by := jr_approved_by j;
     jr_rejection_reason := Some reason;
     jr_audit_correlation_id := jr_audit_correlation_id j |}.

Definition approved_join (endpoint_id : string) (labels : Value) (now : string) actor
    (j : JoinRequestRecord) : JoinRequestRecord :=
  {| jr_request_id := jr_request_id j; jr_token_id := jr_token_id j;
     jr_status := JoinApproved; jr_agent_public_key := jr_agent_public_key j;
     jr_fingerprint := jr_fingerprint j;
     jr_requested_endpoint_id := jr_requested_endpoint_id j;
     jr_assigned_endpoint_id := Some endpoint_id; jr_hostname := jr_hostname j;
     jr_agent_version := jr_agent_version j;
     jr_requested_labels_json := jr_requested_labels_json j;
     jr_approved_labels_json := labels; jr_created_at := jr_created_at j;
     jr_approved_at := Some now; jr_approved_by := Some actor;
     jr_rejection_reason := jr_rejection_reason j;
     jr_audit_correlation_id := jr_audit_correlation_id j |}.

Definition reject_join_request env (db : Db) (request_id actor reason : string)
    : Db * result StoreError JoinRequestRecord :=
  transact db
    (let? _ := map_err InvalidInput (validate_actor actor) in
     let? _ := map_err InvalidInput (validate_reason reason) in
     let? _ := validate_enrollment_request_id request_id in
     let? found := get_join_request_tx db request_id in
     let? before := ok_or found (JoinRequestNotFound request_id) in
     if bool_decide (jr_status before = JoinRejected) then
       reject? bool_decide (jr_rejection_reason before <> Some reason)
         as EnrollmentRequestConflict request_id
              "request was already rejected for a different reason" in
       let? _ := validate_join_rejection_audit_provenance_tx db request_id actor reason in
       Ok (db, before)
     else
       reject? bool_decide (jr_status before <> JoinPending)
         as InvalidJoinRequestStatus request_id
              (join_status_as_str (jr_status before)) "pending" in
       let? _ := validate_pending_join_for_approval before in
       let '(db, affected) := update_pending_join db request_id (rejected_join reason) in
       reject? negb (affected =? 1)
         as EnrollmentRequestConflict request_id "request state changed during rejection" in
       let? found := get_join_request_tx db request_id in
       let? after := ok_or found (JoinRequestNotFound request_id) in
       let? db := insert_audit_tx db
         (audit_fields None None (Some request_id) true None
            (enrollment_request_transition_audit_json request_id before after reason)
            (AuditEvent_new env actor "enrollment.reject")) in
       Ok (db, after)).

(** ** Approval *)

(** The branch of [approve_join_request] for a request already approved. *)
Definition approve_retry (db : Db) (approval : ApprovalInput) (node : NodeInsert)
    (before : JoinRequestRecord) : result StoreError (Db * JoinRequestRecord) :=
  let request_id := ap_request_id approval in
  let endpoint_id := ni_endpoint_id node in
  let? _ := validate_approved_join_provenance_tx db before endpoint_id in
  let? found := get_endpoint_trust_tx db endpoint_id in
  let? endpoint := ok_or found
    (InvalidEnrollmentBinding request_id "approved endpoint trust is missing") in
  let? _ := validate_enrollment_endpoint_origin before endpoint request_id in
  match et_node_id endpoint with
  | None =>
      let? _ := validate_approved_join_audit_provenance_tx db before endpoint_id None in
      Err (InvalidEnrollmentBinding request_id "legacy claim required")
  | Some _ =>
      let? _ := validate_approved_join_audit_provenance_tx db before endpoint_id
                  (Some (ni_node_id node)) in
      let? _ := validate_exact_enrollment_binding_tx db before endpoint node
                  (Some (ap_approved_labels_json approval))
                  "approval retry does not match the existing binding" in
      Ok (db, before)
  end.

(** The branch that approves a pending request. *)
Definition approve_pending env (db : Db) (approval : ApprovalInput) (node : NodeInsert)
    (approved_labels : Value) (before : JoinRequestRecord) actor
    : result StoreError (Db * JoinRequestRecord) :=
  let request_id := ap_request_id approval in
  let endpoint_id := ni_endpoint_id node in
  reject? bool_decide (jr_status before <> JoinPending)
    as InvalidJoinRequestStatus request_id (join_status_as_str (jr_status before)) "pending" in
  let? _ := validate_pending_join_for_approval before in
  reject? differs (jr_requested_endpoint_id before) endpoint_id
    as InvalidEnrollmentBinding request_id
         "approved endpoint does not match requested endpoint" in
  reject? bool_decide (is_Some (get_node_tx db (ni_node_id node)))
    as NodeAlreadyExists (ni_node_id node) in
  reject? bool_decide (is_Some (get_node_by_endpoint_tx db endpoint_id))
    as EndpointAlreadyExists endpoint_id in
  let? existing := get_endpoint_trust_tx db endpoint_id in
  reject? bool_decide (is_Some existing) as EndpointAlreadyExists endpoint_id in
  reject? negb (endpoint_trust_count_for_node_tx db (ni_node_id node) =? 0)
    as InvalidEnrollmentBinding request_id "node id has existing endpoint trust history" in
  let? db := insert_node_tx db node in
  let? db := insert_endpoint_trust_tx env db
    {| et_endpoint_id := endpoint_id; et_node_id := Some (ni_node_id node);
       et_fingerprint := Some (jr_fingerprint before); et_status := Active;
       et_generation := 1; et_previous_endpoint_id := None; et_rotated_to := None;
       et_trust_bundle_json := trust_bundle_json endpoint_id 1 Active;
       et_created_at := EmptyString; et_updated_at := EmptyString |} in
  let '(db, affected) := update_pending_join db request_id
    (approved_join endpoint_id approved_labels (env_sql_now env) actor) in
  reject? negb (affected =? 1)
    as InvalidEnrollmentBinding request_id "join request changed during approval" in
  let? found := get_join_request_tx db request_id in
  let? after := ok_or found (JoinRequestNotFound request_id) in
  let? node_after := ok_or (get_node_tx db (ni_node_id node)) (NodeNotFound (ni_node_id node)) in
  let? found := get_endpoint_trust_tx db endpoint_id in
  let? endpoint_after := ok_or found (EndpointNotFound endpoint_id) in
  let? _ := validate_exact_enrollment_binding_tx db after endpoint_after node
              (Some (ap_approved_labels_json approval)) "approved binding is inconsistent" in
  let? db := audit_enrollment_binding_tx env db actor "enrollment.approve" request_id before
               after None (Some node_after) None (Some endpoint_after) (ap_reason approval) in
  Ok (db, after).

Definition approve_join_request env (db : Db) (approval : ApprovalInput) actor
    : Db * result StoreError JoinRequestRecord :=
  transact db
    (let? _ := map_err InvalidInput (validate_actor actor) in
     let? _ := map_err InvalidInput (validate_reason (ap_reason approval)) in
     let? _ := validate_enrollment_request_id (ap_request_id approval) in
     let? node := enrollment_node_insert (ap_node_id approval) (ap_endpoint_id approval)
                    (ap_region approval) (ap_role approval) in
     let? _ := map_err InvalidInput
                 (validate_label_json (ap_approved_labels_json approval) "approved_labels") in
     let? approved_labels :=
       canonical_enrollment_metadata ApprovedLabels (ap_approved_labels_json approval) in
     let? found := get_join_request_tx db (ap_request_id approval) in
     let? before := ok_or found (JoinRequestNotFound (ap_request_id approval)) in
     if bool_decide (jr_status before = JoinApproved)
     then approve_retry db approval node before
     else approve_pending env db approval node approved_labels before actor).

(** ** Claims of endpoints approved before they were bound to nodes *)

(** The [WHERE] clause of the claim's update. *)
Definition claimable (fingerprint : string) (r : EndpointTrustRecord) : bool :=
  bool_decide (et_node_id r = None) && bool_decide (et_status r = Active)
  && (et_generation r =? 1) && bool_decide (et_previous_endpoint_id r = None)
  && bool_decide (et_rotated_to r = None)
  && bool_decide (et_fingerprint r = Some fingerprint).

(** The branch that binds the endpoint to a new node. *)
Definition claim_unbound env (db : Db) (claim : LegacyEnrollmentClaimInput) (node : NodeInsert)
    (join : JoinRequestRecord) (endpoint_before : EndpointTrustRecord) actor
    : result StoreError (Db * JoinRequestRecord) :=
  let request_id := lc_request_id claim in
  let endpoint_id := ni_endpoint_id node in
  reject? bool_decide (is_Some (get_node_tx db (ni_node_id node)))
    as NodeAlreadyExists (ni_node_id node) in
  reject? bool_decide (is_Some (get_node_by_endpoint_tx db endpoint_id))
    as EndpointAlreadyExists endpoint_id in
  reject? negb (endpoint_trust_count_for_node_tx db (ni_node_id node) =? 0)
    as InvalidEnrollmentBinding request_id "node id has existing endpoint trust history" in
  let? db := insert_node_tx db node in
  let changed := InvalidEnrollmentBinding request_id
                   "legacy endpoint trust changed during claim" in
  let? row := ok_or (db_trust db !! endpoint_id) changed in
  check? claimable (jr_fingerprint join) row else changed in
  let db := set_trust (<[endpoint_id := with_bound_node (Some (ni_node_id node))
                                          (env_sql_now env) row]> (db_trust db)) db in
  let? node_after := ok_or (get_node_tx db (ni_node_id node)) (NodeNotFound (ni_node_id node)) in
  let? found := get_endpoint_trust_tx db endpoint_id in
  let? endpoint_after := ok_or found (EndpointNotFound endpoint_id) in
  let? _ := validate_exact_enrollment_binding_tx db join endpoint_after node None
              "claimed binding is inconsistent" in
  let? db := audit_enrollment_binding_tx env db actor "enrollment.claim" request_id join join
               None (Some node_after) (Some endpoint_before) (Some endpoint_after)
               (lc_reason claim) in
  Ok (db, join).

Definition claim_legacy_enrollment env (db : Db) (claim : LegacyEnrollmentClaimInput) actor
    : Db * result StoreError JoinRequestRecord :=
  transact db
    (let? _ := map_err InvalidInput (validate_actor actor) in
     let? _ := map_err InvalidInput (validate_reason (lc_reason claim)) in
     let? _ := validate_enrollment_request_id (lc_request_id claim) in
     let? node := enrollment_node_insert (lc_node_id claim) (lc_endpoint_id claim)
                    (lc_region claim) (lc_role claim) in
     let endpoint_id := ni_endpoint_id node in
     let? found := get_join_request_tx db (lc_request_id claim) in
     let? join := ok_or found (JoinRequestNotFound (lc_request_id claim)) in
     reject? bool_decide (jr_status join <> JoinApproved)
       as InvalidJoinRequestStatus (lc_request_id claim)
            (join_status_as_str (jr_status join)) "approved" in
     let? _ := validate_approved_join_provenance_tx db join endpoint_id in
     let? _ := validate_approved_join_audit_provenance_tx db join endpoint_id None in
     let? found := get_endpoint_trust_tx db endpoint_id in
     let? endpoint_before := ok_or found
       (InvalidEnrollmentBinding (lc_request_id claim) "approved endpoint trust is missing") in
     let? _ := validate_enrollment_endpoint_origin join endpoint_before (lc_request_id claim) in
     match et_node_id endpoint_before with
     | Some _ =>
         let? _ := validate_enrollment_claim_audit_provenance_tx db join endpoint_id
                     (ni_node_id node) in
         let? _ := validate_exact_enrollment_binding_tx db join endpoint_before node None
                     "claim retry does not match the existing binding" in
         Ok (db, join)
     | None => claim_unbound env db claim node join endpoint_before actor
     end).
End operations.
