(* ===== verification/ObservationPayloads.v ===== *)
(** * ObservationPayloads: the JSON payloads of the scheduler tables
      (ocfleet-cli/src/storage_payloads.rs: degraded methods, run and
      observation summaries, selectors and pairs of a job)

    Same conventions as StoragePayloads. *)

From S2P Require Import Prelude Text External Wire AgentConfig InputValidation StoreTypes.
From S2P Require Import StoredText StoragePayloads Enrollment.

(** ** serde: optional members *)

(** Like [struct_fields], for members of which some are of type [Option]: a
    missing one of these is [null]. *)
Definition opt_struct_fields (names : list (string * bool)) (v : Value)
    : option (list Value) :=
  match v with
  | VObject m =>
      if existsb (fun e => negb (str_in_list e.1 (map fst names))) m then None
      else mapM (fun '(name, optional) =>
                   match map_get name m with
                   | Some x => Some x
                   | None => if optional : bool then Some Null else None
                   end) names
  | VArray l => if Nat.eqb (length l) (length names) then Some l else None
  | _ => None
  end.

(** A struct with [#[serde(default)]] whose members are all of type [Option]:
    members that are missing, or beyond the end of an array, are [null]. *)
Definition default_fields (names : list string) (v : Value) : option (list Value) :=
  match v with
  | VObject m =>
      if existsb (fun e => negb (str_in_list e.1 names)) m then None
      else Some (map (fun name => default Null (map_get name m)) names)
  | VArray l =>
      if Nat.leb (length l) (length names)
      then Some (l ++ replicate (length names - length l) Null) else None
  | _ => None
  end.

Definition json_of_opt_str (o : option string) : Value :=
  match o with Some s => VString s | None => Null end.
Definition json_of_opt_u64 (o : option Z) : Value :=
  match o with Some n => json_u64 n | None => Null end.

(** ** HealthDegradedMethodsPayloadV1 *)

Definition HEALTH_DEGRADED_METHODS_SCHEMA_V1 : string := "ocfleet.health.degraded-methods.v1".

Definition HEALTH_DEGRADED_METHODS : list string :=
  ["ocserv.cert.expiry"; "ocserv.config.fingerprint"; "ocserv.service.summary";
   "ocserv.sessions.summary"; "ocserv.version"].

Record HealthDegradedMethodsPayloadV1 := {
  hdm_schema : string;
  hdm_methods : list string;
}.

(** [Vec::dedup]: runs of equal elements become one. *)
Fixpoint dedup (l : list string) : list string :=
  match l with
  | x :: ((y :: _) as l') => if String.eqb x y then dedup l' else x :: dedup l'
  | _ => l
  end.

(** [windows(2).any(|pair| pair[0] >= pair[1])]. *)
Fixpoint not_ascending (l : list string) : bool :=
  match l with
  | x :: ((y :: _) as l') => negb (str_ltb x y) || not_ascending l'
  | _ => false
  end.

Definition hdm_validate (p : HealthDegradedMethodsPayloadV1) : result string unit :=
  reject? negb (String.eqb (hdm_schema p) HEALTH_DEGRADED_METHODS_SCHEMA_V1)
    as "health degraded-methods payload schema is unsupported" in
  reject? Nat.ltb (length HEALTH_DEGRADED_METHODS) (length (hdm_methods p))
    as "health degraded-methods payload has too many methods" in
  reject? not_ascending (hdm_methods p)
    as "health degraded methods must be sorted and unique" in
  reject? existsb (fun m => negb (str_in_list m HEALTH_DEGRADED_METHODS)) (hdm_methods p)
    as "health degraded-methods payload contains an unsupported method" in
  Ok tt.

Definition hdm_new (methods : list string) : result string HealthDegradedMethodsPayloadV1 :=
  let payload := {| hdm_schema := HEALTH_DEGRADED_METHODS_SCHEMA_V1;
                    hdm_methods := dedup (sort_strs methods) |} in
  let? _ := hdm_validate payload in
  Ok payload.

Definition hdm_decode (v : Value) : option HealthDegradedMethodsPayloadV1 :=
  match struct_fields true ["schema"; "methods"] v with
  | Some [a; b] =>
      match as_str a, de_vec as_str b with
      | Some a, Some b => Some {| hdm_schema := a; hdm_methods := b |}
      | _, _ => None
      end
  | _ => None
  end.

Definition hdm_from_value (v : Value) : result string HealthDegradedMethodsPayloadV1 :=
  let? payload := ok_or (hdm_decode v)
                        "health degraded-methods payload is not closed v1 data" in
  let? _ := hdm_validate payload in
  Ok payload.

Definition hdm_to_value (p : HealthDegradedMethodsPayloadV1) : Value :=
  VObject [("methods", json_strs (hdm_methods p)); ("schema", VString (hdm_schema p))].

(** ** HealthSummaryPayloadV1 *)

Definition HEALTH_SUMMARY_SCHEMA_V1 : string := "ocfleet.health.summary.v1".

Record HealthSummaryPayloadV1 := {
  hsp_schema : string;
  hsp_region : option string;
  hsp_role : option string;
  hsp_status : string;
  hsp_endpoint_status : option string;
  hsp_consecutive_failures : option Z;
}.

Definition opt_check {A E} (f : A -> result E unit) (o : option A) : result E unit :=
  match o with Some a => f a | None => Ok tt end.

Definition hsp_validate (p : HealthSummaryPayloadV1) : result string unit :=
  reject? negb (String.eqb (hsp_schema p) HEALTH_SUMMARY_SCHEMA_V1)
    as "health summary payload schema is unsupported" in
  let? _ := map_err validation_error_text (opt_check validate_region (hsp_region p)) in
  let? _ := map_err validation_error_text (opt_check validate_role (hsp_role p)) in
  reject? negb (str_in_list (hsp_status p)
                  ["healthy"; "degraded"; "unreachable"; "stale"; "disabled"; "unknown"])
    as "health summary status is unsupported" in
  reject? match hsp_endpoint_status p with
          | Some s => negb (str_in_list s ["active"; "revoked"; "quarantined"; "rotated"])
          | None => false
          end
    as "health summary endpoint status is unsupported" in
  reject? match hsp_consecutive_failures p with Some n => 1000 <? n | None => false end
    as "health summary consecutive failures exceeds 1000" in
  Ok tt.

Definition hsp_new (region role : option string) (status : string)
    (endpoint_status : option string) (consecutive_failures : option Z)
    : result string HealthSummaryPayloadV1 :=
  let payload := {| hsp_schema := HEALTH_SUMMARY_SCHEMA_V1; hsp_region := region;
                    hsp_role := role; hsp_status := status;
                    hsp_endpoint_status := endpoint_status;
                    hsp_consecutive_failures := consecutive_failures |} in
  let? _ := hsp_validate payload in
  Ok payload.

Definition hsp_decode (v : Value) : option HealthSummaryPayloadV1 :=
  match opt_struct_fields [("schema", false); ("region", true); ("role", true);
          ("status", false); ("endpoint_status", true); ("consecutive_failures", true)] v with
  | Some [a; b; c; d; e; f] =>
      match as_str a, de_opt as_str b, de_opt as_str c, as_str d, de_opt as_str e,
            de_opt as_u64 f with
      | Some a, Some b, Some c, Some d, Some e, Some f =>
          Some {| hsp_schema := a; hsp_region := b; hsp_role := c; hsp_status := d;
                  hsp_endpoint_status := e; hsp_consecutive_failures := f |}
      | _, _, _, _, _, _ => None
      end
  | _ => None
  end.

Definition hsp_from_value (v : Value) : result string HealthSummaryPayloadV1 :=
  let? payload := ok_or (hsp_decode v) "health summary payload is not closed v1 data" in
  let? _ := hsp_validate payload in
  Ok payload.

Definition hsp_to_value (p : HealthSummaryPayloadV1) : Value :=
  VObject [("consecutive_failures", json_of_opt_u64 (hsp_consecutive_failures p));
           ("endpoint_status", json_of_opt_str (hsp_endpoint_status p));
           ("region", json_of_opt_str (hsp_region p));
           ("role", json_of_opt_str (hsp_role p));
           ("schema", VString (hsp_schema p));
           ("status", VString (hsp_status p))].

Definition validate_health_payload_relationship (status : string)
    (summary : HealthSummaryPayloadV1) : result string unit :=
  reject? negb (String.eqb (hsp_status summary) status)
    as "health summary status does not match snapshot status" in
  Ok tt.

(** ** RunSummaryPayloadV1 *)

Definition RUN_SUMMARY_SCHEMA_V1 : string := "ocfleet.run.summary.v1".

Definition scheduler_job_kinds : list string :=
  ["controller-ping"; "ocserv-status"; "ocserv-cert"; "ocserv-sessions"; "path-probe"].

Record RunSummaryPayloadV1 := {
  rsp_schema : string;
  rsp_result_class : string;
  rsp_job_id : option string;
  rsp_kind : option string;
  rsp_status : string;
  rsp_triggered_by : string;
  rsp_observations : option Z;
  rsp_failed_observations : option Z;
}.

Definition rsp_validate (p : RunSummaryPayloadV1) : result string unit :=
  reject? negb (String.eqb (rsp_schema p) RUN_SUMMARY_SCHEMA_V1)
    as "run summary payload schema is unsupported" in
  reject? negb (String.eqb (rsp_result_class p) "scheduler_summary")
    as "run summary result class is unsupported" in
  let? _ := opt_check (fun id => validate_fixed_id id 128 "run summary job ID")
                      (rsp_job_id p) in
  reject? match rsp_kind p with
          | Some kind => negb (str_in_list kind scheduler_job_kinds)
          | None => false
          end
    as "run summary job kind is unsupported" in
  reject? negb (str_in_list (rsp_status p) ["running"; "succeeded"; "failed"; "skipped"])
    as "run summary status is unsupported" in
  reject? negb (str_in_list (rsp_triggered_by p) ["manual"; "scheduler.run.once"])
    as "run summary trigger is unsupported" in
  let over (o : option Z) := match o with Some n => 1000000 <? n | None => false end in
  reject? over (rsp_observations p) || over (rsp_failed_observations p)
    as "run summary observation count exceeds limit" in
  reject? match rsp_observations p, rsp_failed_observations p with
          | Some observations, Some failed => observations <? failed
          | _, _ => false
          end
    as "run summary failed count exceeds observation count" in
  reject? bool_decide (is_Some (rsp_failed_observations p))
          && bool_decide (rsp_observations p = None)
    as "run summary failed count requires an observation count" in
  reject? String.eqb (rsp_status p) "running"
          && (bool_decide (is_Some (rsp_observations p))
              || bool_decide (is_Some (rsp_failed_observations p)))
    as "running run summary cannot contain terminal counts" in
  Ok tt.

Definition rsp_new (job_id kind : option string) (status triggered_by : string)
    (observations failed_observations : option Z) : result string RunSummaryPayloadV1 :=
  let payload := {| rsp_schema := RUN_SUMMARY_SCHEMA_V1;
                    rsp_result_class := "scheduler_summary"; rsp_job_id := job_id;
                    rsp_kind := kind; rsp_status := status; rsp_triggered_by := triggered_by;
                    rsp_observations := observations;
                    rsp_failed_observations := failed_observations |} in
  let? _ := rsp_validate payload in
  Ok payload.

(** [LegacyRunSummaryV1]. *)
Record LegacyRunSummaryV1 := {
  lrs_result_class : option string;
  lrs_job_id : option string;
  lrs_kind : option string;
  lrs_status : option string;
  lrs_triggered_by : option string;
  lrs_observations : option Z;
  lrs_failed_observations : option Z;
  lrs_started : option bool;
}.

Definition lrs_decode (v : Value) : option LegacyRunSummaryV1 :=
  match default_fields ["result_class"; "job_id"; "kind"; "status"; "triggered_by";
          "observations"; "failed_observations"; "started"] v with
  | Some [a; b; c; d; e; f; g; h] =>
      match de_opt as_str a, de_opt as_str b, de_opt as_str c, de_opt as_str d,
            de_opt as_str e, de_opt as_u64 f, de_opt as_u64 g, de_opt as_bool h with
      | Some a, Some b, Some c, Some d, Some e, Some f, Some g, Some h =>
          Some {| lrs_result_class := a; lrs_job_id := b; lrs_kind := c; lrs_status := d;
                  lrs_triggered_by := e; lrs_observations := f; lrs_failed_observations := g;
                  lrs_started := h |}
      | _, _, _, _, _, _, _, _ => None
      end
  | _ => None
  end.

Definition rsp_from_legacy (job_id kind_hint : option string) (status triggered_by : string)
    (v : Value) : result string RunSummaryPayloadV1 :=
  let? legacy := ok_or (lrs_decode v) "run summary contains unsupported fields or values" in
  reject? differs (lrs_result_class legacy) "scheduler_summary"
    as "run summary result class is inconsistent" in
  reject? bool_decide (is_Some (lrs_job_id legacy)) && bool_decide (lrs_job_id legacy <> job_id)
    as "run summary job ID is inconsistent" in
  reject? differs (lrs_status legacy) status as "run summary status is inconsistent" in
  reject? differs (lrs_triggered_by legacy) triggered_by
    as "run summary trigger is inconsistent" in
  reject? match lrs_started legacy with
          | Some started => negb started || negb (String.eqb status "running")
          | None => false
          end
    as "legacy run summary started marker is inconsistent" in
  reject? match lrs_kind legacy, kind_hint with
          | Some kind, Some hint => negb (String.eqb kind hint)
          | _, _ => false
          end
    as "run summary job kind is inconsistent" in
  rsp_new job_id (option_or (lrs_kind legacy) kind_hint) status triggered_by
    (lrs_observations legacy) (lrs_failed_observations legacy).

Definition rsp_decode (v : Value) : option RunSummaryPayloadV1 :=
  match opt_struct_fields [("schema", false); ("result_class", false); ("job_id", true);
          ("kind", true); ("status", false); ("triggered_by", false); ("observations", true);
          ("failed_observations", true)] v with
  | Some [a; b; c; d; e; f; g; h] =>
      match as_str a, as_str b, de_opt as_str c, de_opt as_str d, as_str e, as_str f,
            de_opt as_u64 g, de_opt as_u64 h with
      | Some a, Some b, Some c, Some d, Some e, Some f, Some g, Some h =>
          Some {| rsp_schema := a; rsp_result_class := b; rsp_job_id := c; rsp_kind := d;
                  rsp_status := e; rsp_triggered_by := f; rsp_observations := g;
                  rsp_failed_observations := h |}
      | _, _, _, _, _, _, _, _ => None
      end
  | _ => None
  end.

Definition rsp_from_value (v : Value) : result string RunSummaryPayloadV1 :=
  let? payload := ok_or (rsp_decode v) "run summary payload is not closed v1 data" in
  let? _ := rsp_validate payload in
  Ok payload.

Definition rsp_to_value (p : RunSummaryPayloadV1) : Value :=
  VObject [("failed_observations", json_of_opt_u64 (rsp_failed_observations p));
           ("job_id", json_of_opt_str (rsp_job_id p));
           ("kind", json_of_opt_str (rsp_kind p));
           ("observations", json_of_opt_u64 (rsp_observations p));
           ("result_class", VString (rsp_result_class p));
           ("schema", VString (rsp_schema p));
           ("status", VString (rsp_status p));
           ("triggered_by", VString (rsp_triggered_by p))].

(** [Map::retain(|_, value| !value.is_null())]. *)
Definition retain_non_null (m : list (string * Value)) : list (string * Value) :=
  List.filter (fun e => match e.2 with Null => false | _ => true end) m.

Definition rsp_public_summary (p : RunSummaryPayloadV1) : Value :=
  VObject (retain_non_null
    [("failed_observations", json_of_opt_u64 (rsp_failed_observations p));
     ("job_id", json_of_opt_str (rsp_job_id p));
     ("kind", json_of_opt_str (rsp_kind p));
     ("observations", json_of_opt_u64 (rsp_observations p));
     ("result_class", VString (rsp_result_class p));
     ("status", VString (rsp_status p));
     ("triggered_by", VString (rsp_triggered_by p))]).

Definition rsp_validate_relationship (p : RunSummaryPayloadV1) (job_id kind : option string)
    (status triggered_by : string) : result string unit :=
  reject? bool_decide (rsp_job_id p <> job_id) || bool_decide (rsp_kind p <> kind)
          || negb (String.eqb (rsp_status p) status)
          || negb (String.eqb (rsp_triggered_by p) triggered_by)
    as "run summary does not match relational job, kind, status, or trigger" in
  Ok tt.

(** ** Selector and pair of a scheduler job *)

Definition SCHEDULER_SELECTOR_SCHEMA_V1 : string := "ocfleet.scheduler.selector.v1".
Definition SCHEDULER_PAIR_SCHEMA_V1 : string := "ocfleet.scheduler.pair.v1".

Record SchedulerSelectorPayloadV1 := {
  ssp_schema : string;
  ssp_selector : string;
  ssp_name : option string;
}.

Record SchedulerPairPayloadV1 := {
  spp_schema : string;
  spp_source_node_id : string;
  spp_target_node_id : string;
}.

(** [str::split_once('=')]. *)
Fixpoint split_once_eq (s : string) : option (string * string) :=
  match s with
  | EmptyString => None
  | String c s' =>
      if Ascii.eqb c "=" then Some (EmptyString, s')
      else match split_once_eq s' with
           | Some (a, b) => Some (String c a, b)
           | None => None
           end
  end.

(** The chain of conditions on the selector. *)
Definition validate_selector_text (selector : string) : result string unit :=
  if String.eqb selector "explicit-pair" then Ok tt
  else match strip_prefix "role=" selector with
  | Some role => map_err validation_error_text (validate_role role)
  | None =>
  match strip_prefix "node_id=" selector with
  | Some id => map_err validation_error_text (validate_node_id id)
  | None =>
  match split_once_eq selector with
  | Some (field, value) =>
      if str_in_list field ["environment"; "site"; "owner_team"; "service_tier"]
      then validate_metadata_value value "selector value"
      else match strip_prefix "label." field with
           | Some key => validate_label_json (VObject [(key, VString value)]) "selector label"
           | None => Err "scheduler selector field is not allowed"
           end
  | None => Err "scheduler selector must use a bounded node, role, metadata, or label field"
  end end end.

Definition ssp_validate (p : SchedulerSelectorPayloadV1) : result string unit :=
  reject? negb (String.eqb (ssp_schema p) SCHEDULER_SELECTOR_SCHEMA_V1)
    as "scheduler selector payload schema is unsupported" in
  let? _ := validate_selector_text (ssp_selector p) in
  opt_check validate_description (ssp_name p).

Definition ssp_decode (v : Value) : option SchedulerSelectorPayloadV1 :=
  match opt_struct_fields [("schema", false); ("selector", false); ("name", true)] v with
  | Some [a; b; c] =>
      match as_str a, as_str b, de_opt as_str c with
      | Some a, Some b, Some c =>
          Some {| ssp_schema := a; ssp_selector := b; ssp_name := c |}
      | _, _, _ => None
      end
  | _ => None
  end.

Definition ssp_from_value (v : Value) : result string SchedulerSelectorPayloadV1 :=
  let? payload := ok_or (ssp_decode v) "scheduler selector payload is not closed v1 data" in
  let? _ := ssp_validate payload in
  Ok payload.

Definition ssp_new (selector : string) (name : option string)
    : result string SchedulerSelectorPayloadV1 :=
  let payload := {| ssp_schema := SCHEDULER_SELECTOR_SCHEMA_V1; ssp_selector := selector;
                    ssp_name := name |} in
  let? _ := ssp_validate payload in
  Ok payload.

Definition ssp_to_value (p : SchedulerSelectorPayloadV1) : Value :=
  VObject [("name", json_of_opt_str (ssp_name p)); ("schema", VString (ssp_schema p));
           ("selector", VString (ssp_selector p))].

Definition spp_validate (p : SchedulerPairPayloadV1) : result string unit :=
  reject? negb (String.eqb (spp_schema p) SCHEDULER_PAIR_SCHEMA_V1)
    as "scheduler pair payload schema is unsupported" in
  let? _ := map_err validation_error_text (validate_node_id (spp_source_node_id p)) in
  let? _ := map_err validation_error_text (validate_node_id (spp_target_node_id p)) in
  reject? String.eqb (spp_source_node_id p) (spp_target_node_id p)
    as "scheduler pair payload requires distinct nodes" in
  Ok tt.

Definition spp_decode (v : Value) : option SchedulerPairPayloadV1 :=
  match struct_fields true ["schema"; "source_node_id"; "target_node_id"] v with
  | Some [a; b; c] =>
      match as_str a, as_str b, as_str c with
      | Some a, Some b, Some c =>
          Some {| spp_schema := a; spp_source_node_id := b; spp_target_node_id := c |}
      | _, _, _ => None
      end
  | _ => None
  end.

Definition spp_from_value (v : Value) : result string SchedulerPairPayloadV1 :=
  let? payload := ok_or (spp_decode v) "scheduler pair payload is not closed v1 data" in
  let? _ := spp_validate payload in
  Ok payload.

Definition spp_new (source target : string) : result string SchedulerPairPayloadV1 :=
  let payload := {| spp_schema := SCHEDULER_PAIR_SCHEMA_V1; spp_source_node_id := source;
                    spp_target_node_id := target |} in
  let? _ := spp_validate payload in
  Ok payload.

Definition spp_to_value (p : SchedulerPairPayloadV1) : Value :=
  VObject [("schema", VString (spp_schema p)); ("source_node_id", VString (spp_source_node_id p));
           ("target_node_id", VString (spp_target_node_id p))].

Definition validate_scheduler_payload_relationship (kind : string)
    (selector : SchedulerSelectorPayloadV1) (pair : option SchedulerPairPayloadV1)
    : result string unit :=
  if String.eqb kind "path-probe" then
    reject? negb (String.eqb (ssp_selector selector) "explicit-pair")
            || bool_decide (pair = None)
      as "path-probe job requires an explicit typed pair" in
    Ok tt
  else
    reject? String.eqb (ssp_selector selector) "explicit-pair" || bool_decide (is_Some pair)
      as "non-path job cannot use an explicit pair" in
    Ok tt.

(** ** ObservationSummaryPayloadV1 *)

Definition OBSERVATION_SUMMARY_SCHEMA_V1 : string := "ocfleet.observation.summary.v1".

Inductive FieldType := FStr | FBool | FU64 | FI64 | FStrs.

(** The members of [ObservationSummaryFieldsV1], all optional, in key order. *)
Definition observation_fields : list (string * FieldType) :=
  [("agent_endpoint_id", FStr); ("agent_version", FStr); ("auth_failure_count_rolling", FU64);
   ("cert_count", FU64); ("cert_min_days_remaining", FI64); ("collector_status", FStr);
   ("config_fingerprint_algorithm", FStr); ("config_fingerprint_key_id", FStr);
   ("config_fingerprint_prefix", FStr); ("config_fingerprint_previous_key_id", FStr);
   ("config_fingerprint_previous_prefix", FStr); ("config_fingerprint_short", FStr);
   ("config_fingerprint_status", FStr); ("connection_failure_count_rolling", FU64);
   ("current_time_utc", FStr); ("days_remaining", FI64); ("degraded_methods", FStrs);
   ("endpoint_status", FStr); ("endpoint_trust_state", FStr); ("error_code", FStr);
   ("job_id", FStr); ("kind", FStr); ("last_snapshot_at", FStr); ("message", FStr);
   ("node_id", FStr); ("ok", FBool); ("peer_request_id", FStr); ("probe", FStr);
   ("reason_code", FStr); ("region", FStr); ("request_id", FStr); ("role", FStr);
   ("root_request_id", FStr); ("selector_class", FStr); ("service_enabled", FStr);
   ("service_state", FStr); ("sessions_status", FStr); ("sessions_total", FU64);
   ("skipped_tasks", FU64); ("source_agent_endpoint_id", FStr); ("source_endpoint_id", FStr);
   ("source_node_id", FStr); ("status", FStr); ("target_agent_endpoint_id", FStr);
   ("target_endpoint_id", FStr); ("target_error_code", FStr); ("target_node_id", FStr);
   ("time_utc", FStr); ("version", FStr)].

(** A value of the type of the member, or [null]. *)
Definition field_value (t : FieldType) (v : Value) : bool :=
  match v, t with
  | Null, _ => true
  | VString _, FStr => true
  | VBool _, FBool => true
  | VNumber (PosInt _), FU64 => true
  | VNumber (PosInt n), FI64 => n <=? i64_max
  | VNumber (NegInt _), FI64 => true
  | VArray l, FStrs => forallb (fun x => match x with VString _ => true | _ => false end) l
  | _, _ => false
  end.

(** The members in the order of the declaration, the order of an array. *)
Definition observation_field_order : list string :=
  ["message"; "node_id"; "agent_version"; "time_utc"; "region"; "role"; "current_time_utc";
   "agent_endpoint_id"; "probe"; "ok"; "source_agent_endpoint_id"; "target_agent_endpoint_id";
   "root_request_id"; "peer_request_id"; "target_error_code"; "service_state";
   "service_enabled"; "collector_status"; "last_snapshot_at"; "auth_failure_count_rolling";
   "connection_failure_count_rolling"; "cert_min_days_remaining"; "config_fingerprint_short";
   "version"; "status"; "sessions_total"; "sessions_status"; "cert_count"; "days_remaining";
   "config_fingerprint_algorithm"; "config_fingerprint_key_id"; "config_fingerprint_status";
   "config_fingerprint_prefix"; "config_fingerprint_previous_key_id";
   "config_fingerprint_previous_prefix"; "request_id"; "target_node_id"; "target_endpoint_id";
   "job_id"; "kind"; "skipped_tasks"; "error_code"; "selector_class"; "reason_code";
   "endpoint_trust_state"; "endpoint_status"; "source_node_id"; "source_endpoint_id";
   "degraded_methods"].

Definition osf_decode_members (m : list (string * Value)) : option (list (string * Value)) :=
  if existsb (fun e => negb (str_in_list e.1 (map fst observation_fields))) m then None
  else mapM (fun '(name, t) =>
               let x := default Null (map_get name m) in
               if field_value t x then Some (name, x) else None) observation_fields.

(** The decoded fields: the value of every member, [null] for [None]. *)
Definition osf_decode (v : Value) : option (list (string * Value)) :=
  match v with
  | VObject m => osf_decode_members m
  | VArray l =>
      if Nat.leb (length l) (length observation_field_order)
      then osf_decode_members (zip observation_field_order l) else None
  | _ => None
  end.

Record ObservationSummaryPayloadV1 := {
  osp_schema : string;
  osp_result_class : string;
  osp_method : string;
  osp_fields : list (string * Value);
}.

Definition observation_methods : list string :=
  [PROBE_CONTROLLER_PING; PROBE_PATH_ECHO; OCSERV_SERVICE_SUMMARY; OCSERV_VERSION;
   OCSERV_SESSIONS_SUMMARY; OCSERV_CERT_EXPIRY; OCSERV_CONFIG_FINGERPRINT].

Definition observation_result_classes : list string :=
  ["controller_rpc_summary"; "low_sensitive_summary"; "scheduler_summary"].

Section observation.
Context `{JsonOps}.

Definition osp_validate (p : ObservationSummaryPayloadV1) : result string unit :=
  reject? negb (String.eqb (osp_schema p) OBSERVATION_SUMMARY_SCHEMA_V1)
    as "observation summary payload schema is unsupported" in
  reject? negb (str_in_list (osp_method p) observation_methods)
    as "observation summary method is unsupported" in
  reject? negb (str_in_list (osp_result_class p) observation_result_classes)
    as "observation summary result class is unsupported" in
  let? _ := map_err invalid_input_text
    (validate_low_sensitive_json (VObject (osp_fields p)) "observation summary fields") in
  match map_get "degraded_methods" (osp_fields p) with
  | Some v => match de_vec as_str v with
              | Some methods => let? _ := hdm_new methods in Ok tt
              | None => Ok tt
              end
  | None => Ok tt
  end.

Definition osp_from_legacy (method result_class : string) (v : Value)
    : result string ObservationSummaryPayloadV1 :=
  let? object := ok_or (as_object v) "observation summary must be an object" in
  reject? match map_get "result_class" object with
          | Some embedded => bool_decide (as_str embedded <> Some result_class)
          | None => false
          end
    as "observation summary result class is inconsistent" in
  let object := List.filter (fun e => negb (String.eqb e.1 "result_class")) object in
  let? fields := ok_or (osf_decode (VObject object))
                       "observation summary contains unsupported fields or values" in
  let payload := {| osp_schema := OBSERVATION_SUMMARY_SCHEMA_V1;
                    osp_result_class := result_class; osp_method := method;
                    osp_fields := fields |} in
  let? _ := osp_validate payload in
  Ok payload.

Definition osp_decode (v : Value) : option ObservationSummaryPayloadV1 :=
  match struct_fields true ["schema"; "result_class"; "method"; "fields"] v with
  | Some [a; b; c; d] =>
      match as_str a, as_str b, as_str c, osf_decode d with
      | Some a, Some b, Some c, Some d =>
          Some {| osp_schema := a; osp_result_class := b; osp_method := c; osp_fields := d |}
      | _, _, _, _ => None
      end
  | _ => None
  end.

Definition osp_from_value (v : Value) : result string ObservationSummaryPayloadV1 :=
  let? payload := ok_or (osp_decode v)
                        "observation summary payload is not closed v1 data" in
  let? _ := osp_validate payload in
  Ok payload.

Definition osp_to_value (p : ObservationSummaryPayloadV1) : Value :=
  VObject [("fields", VObject (retain_non_null (osp_fields p)));
           ("method", VString (osp_method p));
           ("result_class", VString (osp_result_class p));
           ("schema", VString (osp_schema p))].
End observation.

(** ** Sorting and removing duplicates *)

Lemma insert_str_elem x y l : y ∈ insert_str x l <-> y = x \/ y ∈ l.
Proof.
  induction l as [|z l IH]; simpl; [by rewrite list_elem_of_singleton, elem_of_nil; tauto|].
  destruct (str_ltb z x); rewrite ?elem_of_cons, ?IH; tauto.
Qed.

Lemma sort_strs_elem y l : y ∈ sort_strs l <-> y ∈ l.
Proof.
  induction l as [|x l IH]; [done|]. cbn [sort_strs foldr].
  change (foldr insert_str [] l) with (sort_strs l). by rewrite insert_str_elem, elem_of_cons, IH.
Qed.

Lemma dedup_elem y l : y ∈ dedup l <-> y ∈ l.
Proof.
  induction l as [|x [|z l] IH]; [done|done|].
  change (dedup (x :: z :: l)) with (if String.eqb x z then dedup (z :: l) else x :: dedup (z :: l)).
  destruct (String.eqb x z) eqn:E; bool_facts.
  - rewrite IH. subst. rewrite !elem_of_cons. tauto.
  - by rewrite (elem_of_cons (dedup (z :: l))), IH, <- elem_of_cons.
Qed.
