(* ===== verification/AlertWebhook.v ===== *)
(** * AlertWebhook: where an alert may be sent, and what is sent

    The checks of alert_webhook.rs on the target of a webhook, the payload of
    alert_delivery.rs with the projection of alert_projection.rs, and the
    signature.  The [url] crate, name resolution, the HTTP client and SHA-256
    are parameters. *)

From stdpp Require Import pretty.
From S2P Require Import Prelude Text External Wire InputValidation Net StoredText.
From S2P Require Import ObservationPayloads.

(** ** Parameters *)

(** The accessors of a parsed [url::Url]. *)
Class UrlOps := {
  Url : Type;
  url_parse : string -> option Url;
  url_to_string : Url -> string;
  url_scheme : Url -> string;
  url_username : Url -> string;
  url_password : Url -> option string;
  url_fragment : Url -> option string;
  url_query : Url -> option string;
  url_path : Url -> string;
  url_host_str : Url -> option string;
  url_port : Url -> option Z;
  url_port_or_known_default : Url -> option Z;
}.

Definition SocketAddr : Type := IpAddr * Z.

(** What one request gives: the status with the body, or [None] for a body
    that could not be read. *)
Inductive HttpReply :=
| ReplyTimeout
| ReplyError
| ReplyResponse (status_code : Z) (body : option (list Z)).

(** Name resolution and the HTTP client: [client_build] is a client without
    redirects for which [resolve_to_addrs] overrides the resolution of a name,
    and [client_connects] the addresses to which it may connect for the host of
    a URL.  [name_lookup] is what the system resolves at that time. *)
Class NetOps := {
  to_socket_addrs : string -> Z -> option (list SocketAddr);
  Client : Type;
  client_build : string -> list SocketAddr -> option Client;
  client_connects : Client -> string -> list IpAddr;
  name_lookup : string -> list IpAddr;
  header_name_valid : string -> bool;
  header_value_valid : string -> bool;
  client_post : Client -> string -> Z -> list (string * string) -> list Z -> HttpReply;
}.

(** The bytes of [serde_json::to_vec]. *)
Class JsonBytes := { json_bytes : Value -> list Z }.

(** ** Addresses *)

(** [Ipv4Addr]: loopback, private, link-local, unspecified, multicast. *)
Definition v4_is_loopback (o : list Z) : bool :=
  match o with a :: _ => a =? 127 | _ => false end.
Definition v4_is_private (o : list Z) : bool :=
  match o with
  | a :: b :: _ => (a =? 10) || ((a =? 172) && in_range 16 31 b) || ((a =? 192) && (b =? 168))
  | _ => false
  end.
Definition v4_is_link_local (o : list Z) : bool :=
  match o with a :: b :: _ => (a =? 169) && (b =? 254) | _ => false end.
Definition v4_is_unspecified (o : list Z) : bool := bool_decide (o = [0; 0; 0; 0]).
Definition v4_is_multicast (o : list Z) : bool :=
  match o with a :: _ => in_range 224 239 a | _ => false end.

(** [Ipv6Addr]: loopback, unique local, link-local, unspecified, multicast, and
    the IPv4 address of a mapped one. *)
Definition v6_is_loopback (g : list Z) : bool := bool_decide (g = [0; 0; 0; 0; 0; 0; 0; 1]).
Definition v6_is_unspecified (g : list Z) : bool := bool_decide (g = [0; 0; 0; 0; 0; 0; 0; 0]).
Definition v6_is_unique_local (g : list Z) : bool :=
  match g with s :: _ => Z.land s 65024 =? 64512 | _ => false end.
Definition v6_is_unicast_link_local (g : list Z) : bool :=
  match g with s :: _ => Z.land s 65472 =? 65152 | _ => false end.
Definition v6_is_multicast (g : list Z) : bool :=
  match g with s :: _ => Z.land s 65280 =? 65280 | _ => false end.
Definition to_ipv4_mapped (g : list Z) : option (list Z) :=
  match g with
  | [0; 0; 0; 0; 0; 65535; ab; cd] => Some [ab / 256; ab mod 256; cd / 256; cd mod 256]
  | _ => None
  end.

Definition is_ipv4_shared_address (o : list Z) : bool :=
  match o with a :: b :: _ => (a =? 100) && in_range 64 127 b | _ => false end.

Definition is_ipv4_non_public_special_use (o : list Z) : bool :=
  match o with
  | a :: b :: c :: _ =>
      (a =? 0) || (240 <=? a) || ((a =? 198) && in_range 18 19 b)
      || ((a =? 192) && (b =? 0) && (c =? 2)) || ((a =? 198) && (b =? 51) && (c =? 100))
      || ((a =? 203) && (b =? 0) && (c =? 113))
  | _ => false
  end.

Definition is_ipv6_documentation (g : list Z) : bool :=
  match g with a :: b :: _ => (a =? 8193) && (b =? 3512) | _ => false end.

(** The arm for IPv4; the arm for IPv6 calls it on a mapped address. *)
Definition is_forbidden_v4 (o : list Z) : bool :=
  v4_is_loopback o || v4_is_private o || v4_is_link_local o || v4_is_unspecified o
  || v4_is_multicast o || bool_decide (o = [255; 255; 255; 255])
  || bool_decide (o = [169; 254; 169; 254]) || is_ipv4_shared_address o
  || is_ipv4_non_public_special_use o.

Definition is_forbidden_ip (ip : IpAddr) : bool :=
  match ip with
  | V4 o => is_forbidden_v4 o
  | V6 g =>
      match to_ipv4_mapped g with Some o => is_forbidden_v4 o | None => false end
      || v6_is_loopback g || v6_is_unique_local g || v6_is_unicast_link_local g
      || v6_is_unspecified g || v6_is_multicast g || is_ipv6_documentation g
  end.

Definition is_metadata_hostname (host : string) : bool :=
  str_in_list host ["metadata.google.internal"; "metadata"; "169.254.169.254"; "100.100.100.200";
                    "metadata.azure.internal"].

(** ** The target *)

Definition MAX_WEBHOOK_PATH_BYTES : Z := 128.
Definition MAX_WEBHOOK_RESPONSE_BYTES : Z := 4096.
Definition MAX_JSONL_PAYLOAD_BYTES : Z := 16384.
Definition MAX_ALERT_METHODS : nat := 8.
Definition MAX_SUMMARY_STRING_BYTES : Z := 128.

(** [.trim_end_matches('.').to_ascii_lowercase()]. *)
Definition normal_host (host : string) : string :=
  to_ascii_lowercase (trim_end_matches (fun c => c =? 46) host).

Definition is_localhost (host : string) : bool :=
  String.eqb host "localhost" || ends_with ".localhost" host.

(** One round of the loop of [normalize_host_allow]. *)
Definition normalize_allow_entry (host : string) : result string string :=
  let host := normal_host (str_trim host) in
  reject? str_is_empty host || (253 <? str_len host) || contains_byte 47 host
          || contains_byte 58 host || existsb is_ascii_whitespace (str_bytes host)
    as "webhook host allow entry is invalid" in
  reject? is_localhost host || is_metadata_hostname host
    as "webhook host allow entry is forbidden" in
  Ok host.

Fixpoint normalize_allow_entries (l : list string) : result string (list string) :=
  match l with
  | [] => Ok []
  | h :: l' =>
      let? host := normalize_allow_entry h in
      let? output := normalize_allow_entries l' in
      Ok (host :: output)
  end.

Definition normalize_host_allow (host_allow : list string) : result string (list string) :=
  let n := Z.of_nat (length host_allow) in
  reject? (n =? 0) || (16 <? n) as "webhook host allowlist must contain 1-16 hosts" in
  let? output := normalize_allow_entries host_allow in
  Ok (dedup (sort_strs output)).

Record ValidatedWebhookEndpoint := {
  ve_url : string;
  ve_redacted_url : string;
  ve_host : string;
  ve_host_allow : list string;
}.

Section target.
Context `{UrlOps, NetOps}.

Definition resolve_public_addresses (host : string) (port : Z)
    : result string (list SocketAddr) :=
  reject? is_metadata_hostname host as "webhook URL host is forbidden" in
  let? addresses := match parse_ip_addr host with
                    | Some ip => Ok [(ip, port)]
                    | None => ok_or (to_socket_addrs host port) "webhook host DNS resolution failed"
                    end in
  reject? bool_decide (addresses = []) as "webhook host DNS resolution returned no addresses" in
  reject? existsb (fun a => is_forbidden_ip a.1) addresses as "webhook resolved IP is forbidden" in
  Ok addresses.

Definition validate_resolved_host (host : string) (port : Z) : result string unit :=
  let? _ := resolve_public_addresses host port in Ok tt.

Definition redact_webhook_url (url : Url) (host : string) : string :=
  let authority := match url_port url with
                   | Some port => host +:+ ":" +:+ pretty port
                   | None => host
                   end in
  "https://" +:+ authority +:+ "/<redacted>".

Definition path_byte (b : Z) : bool :=
  (b =? 47) || is_ascii_alphanumeric b || (b =? 46) || (b =? 95) || (b =? 45) || (b =? 126).

Definition validate_webhook_endpoint (url : string) (host_allow : list string)
    : result string ValidatedWebhookEndpoint :=
  let? url := ok_or (url_parse url) "webhook URL is invalid" in
  reject? negb (String.eqb (url_scheme url) "https") as "webhook URL must use https" in
  reject? negb (str_is_empty (url_username url)) || bool_decide (is_Some (url_password url))
    as "webhook URL must not contain userinfo" in
  reject? bool_decide (is_Some (url_fragment url)) as "webhook URL must not contain a fragment" in
  reject? bool_decide (is_Some (url_query url))
    as "webhook URL must not contain a query; store secrets only in the private HMAC file" in
  let path := url_path url in
  reject? (MAX_WEBHOOK_PATH_BYTES <? str_len path) || negb (forallb path_byte (str_bytes path))
    as "webhook URL path must be a bounded non-secret path" in
  reject? negb (str_in_list path ["/"; "/alerts"; "/webhook"; "/ocfleet/alerts"])
    as "webhook URL path is not in the fixed low-sensitive path catalog" in
  let? host := ok_or (url_host_str url) "webhook URL must include a host" in
  let host := normal_host host in
  reject? is_localhost host as "webhook URL host is forbidden" in
  let? normalized_allow := normalize_host_allow host_allow in
  reject? negb (str_in_list host normalized_allow)
    as "webhook URL host is not in the host allowlist" in
  let? _ := validate_resolved_host host (default 443 (url_port_or_known_default url)) in
  Ok {| ve_url := url_to_string url; ve_redacted_url := redact_webhook_url url host;
        ve_host := host; ve_host_allow := normalized_allow |}.

Definition pinned_https_client (url : string) : result string Client :=
  let? url := ok_or (url_parse url) "WEBHOOK_URL_INVALID" in
  reject? negb (String.eqb (url_scheme url) "https") as "WEBHOOK_SCHEME_FORBIDDEN" in
  let? host := ok_or (normal_host <$> url_host_str url) "WEBHOOK_HOST_MISSING" in
  let port := default 443 (url_port_or_known_default url) in
  let? addresses := map_err (fun _ => "WEBHOOK_RESOLVED_IP_FORBIDDEN")
                            (resolve_public_addresses host port) in
  ok_or (client_build host addresses) "WEBHOOK_CLIENT_BUILD_FAILED".

(** ** Sending *)

Record WebhookHttpRequest := {
  hr_url : string;
  hr_timeout_ms : Z;
  hr_headers : list (string * string);
  hr_body : list Z;
}.

Inductive WebhookHttpResult :=
| Completed (status_code : Z) (status_class : string) (response_bytes : Z)
| Failed (error_code : string).

Definition http_status_class (status : Z) : string :=
  if in_range 100 199 status then "1xx" else if in_range 200 299 status then "2xx"
  else if in_range 300 399 status then "3xx" else if in_range 400 499 status then "4xx"
  else if in_range 500 599 status then "5xx" else "unknown".

Definition webhook_error_for_status (status : Z) : option string :=
  if in_range 200 299 status then None
  else if in_range 300 399 status then Some "WEBHOOK_REDIRECT_FORBIDDEN"
  else if in_range 400 499 status then Some "WEBHOOK_HTTP_4XX"
  else if in_range 500 599 status then Some "WEBHOOK_HTTP_5XX"
  else Some "WEBHOOK_HTTP_STATUS_INVALID".

Definition is_retryable_webhook_error (error_code : string) : bool :=
  str_in_list error_code ["WEBHOOK_TIMEOUT"; "WEBHOOK_REQUEST_FAILED";
    "WEBHOOK_RESPONSE_READ_FAILED"; "WEBHOOK_RESPONSE_TOO_LARGE"; "WEBHOOK_HTTP_5XX"].

(** [HeaderMap::insert]: a later value replaces an earlier one. *)
Definition header_insert (name value : string) (h : list (string * string))
    : list (string * string) :=
  let key := to_ascii_lowercase name in
  List.filter (fun e => negb (String.eqb e.1 key)) h ++ [(key, value)].

Fixpoint insert_headers (l h : list (string * string)) : option (list (string * string)) :=
  match l with
  | [] => Some h
  | (name, value) :: l' =>
      if header_name_valid name && header_value_valid value
      then insert_headers l' (header_insert name value h) else None
  end.

Definition base_headers : list (string * string) :=
  [("content-type", "application/json"); ("user-agent", "ocfleet-alert-webhook/0.1")].

(** A request that leaves the controller: the client and what it posts. *)
Record HttpPost := {
  po_client : Client;
  po_url : string;
  po_timeout_ms : Z;
  po_headers : list (string * string);
  po_body : list Z;
}.

Definition post (p : HttpPost) : HttpReply :=
  client_post (po_client p) (po_url p) (po_timeout_ms p) (po_headers p) (po_body p).

(** The rest of [send] after the request: the body is read up to one byte past
    the limit. *)
Definition read_reply (reply : HttpReply) : WebhookHttpResult :=
  match reply with
  | ReplyTimeout => Failed "WEBHOOK_TIMEOUT"
  | ReplyError => Failed "WEBHOOK_REQUEST_FAILED"
  | ReplyResponse status_code None => Failed "WEBHOOK_RESPONSE_READ_FAILED"
  | ReplyResponse status_code (Some body) =>
      let read := firstn (Z.to_nat (MAX_WEBHOOK_RESPONSE_BYTES + 1)) body in
      if MAX_WEBHOOK_RESPONSE_BYTES <? Z.of_nat (length read)
      then Failed "WEBHOOK_RESPONSE_TOO_LARGE"
      else Completed status_code (http_status_class status_code) (Z.of_nat (length read))
  end.

(** [ReqwestWebhookSender::send], with the requests that it makes. *)
Definition send (request : WebhookHttpRequest) : list HttpPost * WebhookHttpResult :=
  match pinned_https_client (hr_url request) with
  | Err error_code => ([], Failed error_code)
  | Ok client =>
      match insert_headers (hr_headers request) base_headers with
      | None => ([], Failed "WEBHOOK_HEADER_INVALID")
      | Some headers =>
          let p := {| po_client := client; po_url := hr_url request;
                      po_timeout_ms := hr_timeout_ms request; po_headers := headers;
                      po_body := hr_body request |} in
          ([p], read_reply (post p))
      end
  end.
End target.

(** ** The payload *)

Record AlertEventRecord := {
  al_alert_id : string;
  al_dedupe_key : string;
  al_node_id : option string;
  al_severity : string;
  al_state : string;
  al_reason_code : string;
  al_first_seen_at : string;
  al_last_seen_at : string;
  al_last_sent_at : option string;
  al_resolved_at : option string;
  al_detail_json : Value;
}.

Record AlertWebhookHookRecord := {
  wh_hook_id : string;
  wh_name : string;
  wh_hook_type : string;
  wh_endpoint_url : string;
  wh_endpoint_url_redacted : string;
  wh_endpoint_host : string;
  wh_host_allow : list string;
  wh_hmac_key_id : string;
  wh_enabled : bool;
  wh_max_attempts : Z;
  wh_timeout_ms : Z;
  wh_created_at : string;
  wh_updated_at : string;
}.

Definition is_allowed_alert_method (method : string) : bool :=
  str_in_list method [PROBE_CONTROLLER_PING; PROBE_PATH_ECHO; OCSERV_SERVICE_SUMMARY;
    OCSERV_VERSION; OCSERV_SESSIONS_SUMMARY; OCSERV_CERT_EXPIRY; OCSERV_CONFIG_FINGERPRINT].

Definition is_bounded_safe_token (value : string) : bool :=
  negb (str_is_empty value) && (str_len value <=? MAX_SUMMARY_STRING_BYTES)
  && forallb (fun b => is_ascii_alphanumeric b || (b =? 46) || (b =? 95) || (b =? 45) || (b =? 58))
             (str_bytes value).

Definition methods_from_detail (detail : Value) : list string :=
  firstn MAX_ALERT_METHODS
    (List.filter is_allowed_alert_method
       (omap as_str (default [] (value_get "methods" detail ≫= as_array)))).

(** [Value::as_i64] and [Value::from] an [i64]. *)
Definition value_as_i64 (v : Value) : option Z :=
  match v with
  | VNumber (PosInt n) => if n <=? i64_max then Some n else None
  | VNumber (NegInt n) => Some n
  | _ => None
  end.
Definition json_i64 (n : Z) : Value := VNumber (if 0 <=? n then PosInt n else NegInt n).

Definition opt_filter {A} (p : A -> bool) (o : option A) : option A :=
  match o with Some a => if p a then Some a else None | None => None end.

Section payload.
Context `{EndpointIdOps}.

Definition project_summary_field (key : string) (value : Value) : option Value :=
  if str_in_list key ["freshness_seconds"; "consecutive_failures"] then
    json_u64 <$> opt_filter (fun n => n <=? u32_max) (as_u64 value)
  else if String.eqb key "days_remaining" then
    json_i64 <$> opt_filter (in_range (-365000) 365000) (value_as_i64 value)
  else if String.eqb key "endpoint_id" then
    match as_str value with
    | Some s => match validate_endpoint_id s with Ok e => Some (VString e) | Err _ => None end
    | None => None
    end
  else if str_in_list key ["status"; "last_error_code"; "endpoint_status"; "result_class"] then
    VString <$> opt_filter is_bounded_safe_token (as_str value)
  else None.

(** The members in the order of the map, whose keys are distinct. *)
Definition project_summary (value : Value) : Value :=
  match value with
  | VObject m =>
      VObject (omap (fun e => (fun v => (e.1, v)) <$> project_summary_field e.1 e.2) m)
  | _ => VObject []
  end.

Definition summary_from_detail (detail : Value) : Value :=
  match value_get "summary" detail with Some v => project_summary v | None => VObject [] end.

Definition alert_delivery_payload_for_hook (alert : AlertEventRecord) (hook_type : string)
    : Value :=
  VObject [("alert_id", VString (al_alert_id alert));
           ("dedupe_key", VString (al_dedupe_key alert));
           ("first_seen_at", VString (al_first_seen_at alert));
           ("hook_type", VString hook_type);
           ("last_seen_at", VString (al_last_seen_at alert));
           ("last_sent_at", json_of_opt_str (al_last_sent_at alert));
           ("methods", VArray (map VString (methods_from_detail (al_detail_json alert))));
           ("node_id", json_of_opt_str (al_node_id alert));
           ("reason_code", VString (al_reason_code alert));
           ("resolved_at", json_of_opt_str (al_resolved_at alert));
           ("schema", VString "ocfleet.alert.v1");
           ("severity", VString (al_severity alert));
           ("state", VString (al_state alert));
           ("summary", summary_from_detail (al_detail_json alert))].

(** ** The signed request *)

Context `{UrlOps, NetOps, Sha256Ops, JsonBytes}.

Definition BLOCK_SIZE : nat := 64.

(** The key, or its digest when it is longer than a block, padded with zeros. *)
Definition key_block (secret : list Z) : list Z :=
  let k := if (BLOCK_SIZE <? length secret)%nat then sha256 secret else secret in
  k ++ replicate (BLOCK_SIZE - length k) 0.

Definition hmac_sha256_hex (secret message : list Z) : string :=
  let ipad := map (Z.lxor 54) (key_block secret) in
  let opad := map (Z.lxor 92) (key_block secret) in
  hex_lower (sha256 (opad ++ sha256 (ipad ++ message))).

Definition hmac_key_id (secret : list Z) : string := String.substring 0 16 (hex_lower (sha256 secret)).

Definition webhook_signature (secret : list Z) (timestamp delivery_id : string) (body : list Z)
    : string :=
  hmac_sha256_hex secret (str_bytes timestamp ++ [46] ++ str_bytes delivery_id ++ [46] ++ body).

Definition webhook_payload_bytes (payload : Value) : result string (list Z) :=
  let body := json_bytes payload in
  reject? MAX_JSONL_PAYLOAD_BYTES <? Z.of_nat (length body)
    as "alert delivery payload exceeds limit" in
  Ok body.

Definition build_webhook_request (hook : AlertWebhookHookRecord) (alert : AlertEventRecord)
    (secret : list Z) (timestamp delivery_id : string) : result string WebhookHttpRequest :=
  let? _ := validate_webhook_endpoint (wh_endpoint_url hook) (wh_host_allow hook) in
  let? body := webhook_payload_bytes (alert_delivery_payload_for_hook alert "webhook") in
  let signature := webhook_signature secret timestamp delivery_id body in
  Ok {| hr_url := wh_endpoint_url hook; hr_timeout_ms := wh_timeout_ms hook;
        hr_headers := [("X-Ocfleet-Signature", "sha256=" +:+ signature);
                       ("X-Ocfleet-Timestamp", timestamp);
                       ("X-Ocfleet-Delivery-Id", delivery_id);
                       ("X-Ocfleet-Hook-Id", wh_hook_id hook);
                       ("X-Ocfleet-Hmac-Key-Id", wh_hmac_key_id hook)];
        hr_body := body |}.
End payload.
