(* ===== verification/AlertWebhookProperties.v ===== *)
(** * AlertWebhookProperties: where an alert can go, and what it can carry

    The address filter agrees with a table of reserved networks, a request is
    sent only to allowed hosts, at public addresses unless the host ends in a
    dot, and the methods and the summary of a payload are closed whatever was
    stored with the alert. *)

From S2P Require Import Prelude Text External Wire InputValidation Net StoredText.
From S2P Require Import ObservationPayloads.
From S2P Require Import AlertWebhook.

(** ** Reserved networks *)







(** ** The filter is the table *)






(** A network that fixes the first octet, the first two or the first three. *)
Section octets.
Context (a b c d : Z).
Hypothesis Ha : 0 <= a <= 255.
Hypothesis Hb : 0 <= b <= 255.
Hypothesis Hc : 0 <= c <= 255.
Hypothesis Hd : 0 <= d <= 255.





End octets.

(** ** IPv6 *)



Section segments.
Context (s0 s1 s2 s3 s4 s5 s6 s7 : Z).
Hypothesis H0 : 0 <= s0 <= 65535.
Hypothesis H1 : 0 <= s1 <= 65535.
Hypothesis H2 : 0 <= s2 <= 65535.
Hypothesis H3 : 0 <= s3 <= 65535.
Hypothesis H4 : 0 <= s4 <= 65535.
Hypothesis H5 : 0 <= s5 <= 65535.
Hypothesis H6 : 0 <= s6 <= 65535.
Hypothesis H7 : 0 <= s7 <= 65535.

#[local] Abbreviation g := [s0; s1; s2; s3; s4; s5; s6; s7].











End segments.


(** ** Targets *)

Section targets.
Context `{EndpointIdOps, UrlOps, NetOps, Sha256Ops, JsonBytes}.







(** [client_connects] of a client whose resolution of [host] was overridden: an
    address is connected to as it is, the name to the given addresses, and any
    other name to what the system resolves. *)
Class PinLaws `{NetOps} : Prop := {
  connects_literal : forall client host ip,
    parse_ip_addr host = Some ip -> client_connects client host = [ip];
  connects_pinned : forall client host addrs,
    client_build host addrs = Some client -> parse_ip_addr host = None ->
    contains_byte 58 host = false -> client_connects client host = map fst addrs;
  connects_other : forall client host addrs other,
    client_build host addrs = Some client -> parse_ip_addr other = None ->
    contains_byte 58 other = false -> to_ascii_lowercase other <> to_ascii_lowercase host ->
    client_connects client other = name_lookup other;
}.



End targets.

(** ** Payloads *)

Section payloads.
Context `{EndpointIdOps}.

(** The values a member of a delivered summary can have, by its key. *)
Definition summary_member_ok (e : string * Value) : Prop :=
  match e.2 with
  | VNumber (PosInt n) =>
      str_in_list e.1 ["freshness_seconds"; "consecutive_failures"] = true /\ n <= u32_max
      \/ e.1 = "days_remaining" /\ 0 <= n <= 365000
  | VNumber (NegInt n) => e.1 = "days_remaining" /\ -365000 <= n < 0
  | VString s =>
      e.1 = "endpoint_id" /\ (exists i, s = endpoint_to_string i)
      \/ str_in_list e.1 ["status"; "last_error_code"; "endpoint_status"; "result_class"] = true
         /\ is_bounded_safe_token s = true
  | _ => False
  end.

Lemma opt_filter_some {A} (q : A -> bool) o a : opt_filter q o = Some a -> o = Some a /\ q a = true.
Proof. destruct o as [x|]; simpl; [|done]. destruct (q x) eqn:E; intros; by simplify_eq. Qed.

Lemma projected_field key value v :
  project_summary_field key value = Some v -> summary_member_ok (key, v).
Proof.
  unfold project_summary_field. intros Hp.
  destruct (str_in_list key ["freshness_seconds"; "consecutive_failures"]) eqn:E1.
  { apply fmap_Some in Hp as (n & (Hn & Hb)%opt_filter_some & ->). bool_facts. left. done. }
  destruct (String.eqb key "days_remaining") eqn:E2.
  { apply fmap_Some in Hp as (n & (Hn & Hb)%opt_filter_some & ->).
    apply String.eqb_eq in E2 as ->. apply in_range_spec in Hb. unfold json_i64.
    destruct (0 <=? n) eqn:E; bool_facts; simpl; [right|]; split; [done|lia|done|lia]. }
  destruct (String.eqb key "endpoint_id") eqn:E3.
  { apply String.eqb_eq in E3 as ->. destruct (as_str value) as [s|]; [|done].
    unfold validate_endpoint_id in Hp. repeat case_match; simplify_eq. left. eauto. }
  destruct (str_in_list key ["status"; _; _; _]) eqn:E4; [|done].
  apply fmap_Some in Hp as (t & (Ht & Hb)%opt_filter_some & ->). right. done.
Qed.

(** The methods and the summary of a payload, whatever is stored. *)
Lemma methods_allowed detail :
  (length (methods_from_detail detail) <= MAX_ALERT_METHODS)%nat /\
  Forall (fun x => is_allowed_alert_method x = true) (methods_from_detail detail).
Proof.
  unfold methods_from_detail. split; [rewrite length_take; lia|].
  apply Forall_take, Forall_forall. intros x Hx. apply list_elem_of_In, filter_In in Hx. by destruct Hx.
Qed.

Lemma project_members m :
  exists m', project_summary (VObject m) = VObject m' /\ Forall summary_member_ok m' /\
    sublist (map fst m') (map fst m).
Proof.
  eexists. split; [done|]. split.
  - apply Forall_forall. intros [k v] Hin. apply list_elem_of_omap in Hin as ([k' v'] & _ & Hv).
    apply fmap_Some in Hv as (w & Hw & [= -> ->]). by eapply projected_field.
  - induction m as [|[k v] m IH]; [constructor|]. cbn [omap list_omap map fst snd].
    destruct (project_summary_field k v); cbn [fmap option_fmap option_map map fst]; by constructor.
Qed.
End payloads.

(** ** A concrete hook *)

Module ToyNet.
Export Toy.

(** A URL is its host after the scheme; it has the path [/alerts]. *)
#[export] Instance toy_url_ops : UrlOps := {|
  Url := string;
  url_parse := strip_prefix "https://";
  url_to_string u := "https://" +:+ u;
  url_scheme _ := "https";
  url_username _ := EmptyString;
  url_password _ := None;
  url_fragment _ := None;
  url_query _ := None;
  url_path _ := "/alerts";
  url_host_str u := Some u;
  url_port _ := None;
  url_port_or_known_default _ := Some 443;
|}.

(** Every name has one public address; a client is what it is pinned to. *)
#[export] Instance toy_net_ops : NetOps := {|
  to_socket_addrs _ port := Some [(V4 [93; 184; 216; 34], port)];
  Client := string * list SocketAddr;
  client_build host addrs := Some (host, addrs);
  client_connects client host :=
    match parse_ip_addr host with
    | Some ip => [ip]
    | None => if String.eqb client.1 host then map fst client.2 else [V4 [127; 0; 0; 1]]
    end;
  name_lookup _ := [V4 [127; 0; 0; 1]];
  header_name_valid _ := true;
  header_value_valid _ := true;
  client_post _ _ _ _ _ := ReplyTimeout;
|}.

#[export] Instance toy_sha256_ops : Sha256Ops := {| sha256 _ := replicate 32 0 |}.
#[export] Instance toy_json_bytes : JsonBytes := {| json_bytes _ := [123; 125] |}.

#[export] Instance toy_pin_laws : PinLaws.
Proof.
  split; cbn.
  - by intros client host ip ->.
  - intros client host addrs [= <-] -> _. cbn. by rewrite String.eqb_refl.
  - intros client host addrs other [= <-] -> _ Hne. cbn.
    by destruct (String.eqb host other) eqn:E; [apply String.eqb_eq in E as <-|].
Qed.



End ToyNet.
Import ToyNet.

