(* ===== verification/SchedulerStore.v ===== *)
(** * SchedulerStore: jobs, claims and runs of the scheduler
      (ocfleet-cli/src/store.rs: the operations on observability_jobs,
      scheduler_job_claims, observability_runs, probe_observations and
      scheduler_maintenance)

    The tables of the scheduler sit beside the tables of StoreDb, whose audit
    log they share.  Timestamps are texts; SQLite compares them byte by byte,
    the Rust code parses them. *)

From stdpp Require Import pretty.
From S2P Require Import Prelude Text External Wire AgentConfig InputValidation StoreTypes.
From S2P Require Import StoredText StoragePayloads StoreDb Enrollment ObservationPayloads.

(** ** Records and tables *)

Record ObservabilityJobRecord := {
  job_id : string;
  job_kind : string;
  job_selector_json : Value;
  job_pair_selector_json : option Value;
  job_interval_seconds : Z;
  job_jitter_seconds : Z;
  job_timeout_ms : Z;
  job_enabled : bool;
  job_next_run_at : option string;
  job_last_run_at : option string;
  job_created_at : string;
  job_updated_at : string;
}.

Record ObservabilityRunInsert := {
  run_id : string;
  run_job_id : option string;
  run_started_at : string;
  run_finished_at : option string;
  run_status : string;
  run_triggered_by : string;
  run_summary_json : Value;
}.

Record ProbeObservationInsert := {
  ob_observation_id : string;
  ob_run_id : option string;
  ob_node_id : option string;
  ob_endpoint_id : option string;
  ob_method : string;
  ob_ok : option bool;
  ob_error_code : option string;
  ob_duration_ms : option Z;
  ob_observed_at : string;
  ob_expires_at : option string;
  ob_result_class : string;
  ob_summary_json : Value;
}.

Record SchedulerRunStart := {
  rs_run_id : string;
  rs_job_id : string;
  rs_started_at : string;
}.

Record SchedulerJobClaim := {
  cl_job_id : string;
  cl_owner_id : string;
  cl_fence_token : Z;
  cl_claimed_at : string;
  cl_lease_expires_at : string;
  cl_active_run_id : option string;
}.

Record SchedulerMaintenanceWindow := {
  mw_starts_at : string;
  mw_ends_at : string;
  mw_reason : string;
  mw_updated_at : string;
}.

Definition MIN_SCHEDULER_LEASE_SECONDS : Z := 5.
Definition MAX_SCHEDULER_LEASE_SECONDS : Z := 21600.
Definition MAX_SCHEDULER_OUTCOME_ENTRIES : Z := 4.

Record SchedulerJobClockUpdate := {
  ck_job_id : string;
  ck_next_run_at : string;
  ck_last_run_at : string;
}.

Record SchedulerOutcomeEntry := {
  oe_observation : ProbeObservationInsert;
  oe_audit : AuditEvent;
}.

Record SchedulerOutcomeWrite := {
  ow_job_id : string;
  ow_run_id : option string;
  ow_entries : list SchedulerOutcomeEntry;
  ow_job_clock : option SchedulerJobClockUpdate;
}.

Record SchedulerRunFinish := {
  rf_run_id : string;
  rf_finished_at : string;
  rf_job_clock : SchedulerJobClockUpdate;
}.

(** A row of [scheduler_job_claims]; the [CHECK] of the table lets owner, claim
    time and lease be NULL only together. *)
Record ClaimRow := {
  cr_fence_token : Z;
  cr_held : option (string * string * string);
  cr_active_run_id : option string;
  cr_updated_at : string;
}.

Definition cr_owner_id (r : ClaimRow) : option string := (fun h => h.1.1) <$> cr_held r.
Definition cr_lease_expires_at (r : ClaimRow) : option string := (fun h => h.2) <$> cr_held r.

Record SchedDb := {
  sd_core : Db;
  sd_jobs : gmap string ObservabilityJobRecord;
  sd_claims : gmap string ClaimRow;
  sd_runs : gmap string ObservabilityRunInsert;
  sd_observations : gmap string ProbeObservationInsert;
  sd_maintenance : option SchedulerMaintenanceWindow;
}.

Definition empty_sched : SchedDb :=
  {| sd_core := empty_db; sd_jobs := ∅; sd_claims := ∅; sd_runs := ∅; sd_observations := ∅;
     sd_maintenance := None |}.

Definition set_core (c : Db) (d : SchedDb) : SchedDb :=
  {| sd_core := c; sd_jobs := sd_jobs d; sd_claims := sd_claims d; sd_runs := sd_runs d;
     sd_observations := sd_observations d; sd_maintenance := sd_maintenance d |}.
Definition set_jobs (j : gmap string ObservabilityJobRecord) (d : SchedDb) : SchedDb :=
  {| sd_core := sd_core d; sd_jobs := j; sd_claims := sd_claims d; sd_runs := sd_runs d;
     sd_observations := sd_observations d; sd_maintenance := sd_maintenance d |}.
Definition set_claims (c : gmap string ClaimRow) (d : SchedDb) : SchedDb :=
  {| sd_core := sd_core d; sd_jobs := sd_jobs d; sd_claims := c; sd_runs := sd_runs d;
     sd_observations := sd_observations d; sd_maintenance := sd_maintenance d |}.
Definition set_runs (r : gmap string ObservabilityRunInsert) (d : SchedDb) : SchedDb :=
  {| sd_core := sd_core d; sd_jobs := sd_jobs d; sd_claims := sd_claims d; sd_runs := r;
     sd_observations := sd_observations d; sd_maintenance := sd_maintenance d |}.
Definition set_observations (o : gmap string ProbeObservationInsert) (d : SchedDb) : SchedDb :=
  {| sd_core := sd_core d; sd_jobs := sd_jobs d; sd_claims := sd_claims d; sd_runs := sd_runs d;
     sd_observations := o; sd_maintenance := sd_maintenance d |}.
Definition set_maintenance (w : option SchedulerMaintenanceWindow) (d : SchedDb) : SchedDb :=
  {| sd_core := sd_core d; sd_jobs := sd_jobs d; sd_claims := sd_claims d; sd_runs := sd_runs d;
     sd_observations := sd_observations d; sd_maintenance := w |}.

(** ** Small checks *)

Definition validate_safe_id (field value : string) (max_len : Z) : result StoreError unit :=
  if negb (str_is_empty value) && (str_len value <=? max_len)
     && forallb (fun b => is_ascii_alphanumeric b || (b =? 46) || (b =? 95) || (b =? 45)
                          || (b =? 58)) (str_bytes value)
  then Ok tt
  else Err (InvalidInput (field +:+ " must be 1-" +:+ pretty max_len
                          +:+ " chars and contain only [a-zA-Z0-9._:-]")).

Definition validate_u64_range (name : string) (value min max : Z) : result StoreError unit :=
  reject? negb (in_range min max value)
    as InvalidInput (name +:+ " must be between " +:+ pretty min +:+ " and " +:+ pretty max) in
  Ok tt.

Definition u64_to_i64 (value : Z) : result StoreError Z :=
  if value <=? i64_max then Ok value else Err (Sqlite ToSqlConversionFailure).

Definition option_u64_to_i64 (value : option Z) : result StoreError unit :=
  match value with Some v => let? _ := u64_to_i64 v in Ok tt | None => Ok tt end.

Definition validate_scheduler_job_kind (kind : string) : result StoreError unit :=
  if str_in_list kind scheduler_job_kinds then Ok tt
  else Err (InvalidInput "scheduler job kind is invalid").

Definition scheduler_job_kind_allows_method (kind method : string) : bool :=
  if String.eqb kind "controller-ping" then String.eqb method PROBE_CONTROLLER_PING
  else if String.eqb kind "ocserv-status" then
    str_in_list method [OCSERV_SERVICE_SUMMARY; OCSERV_VERSION; OCSERV_SESSIONS_SUMMARY;
                        OCSERV_CONFIG_FINGERPRINT]
  else if String.eqb kind "ocserv-cert" then String.eqb method OCSERV_CERT_EXPIRY
  else if String.eqb kind "ocserv-sessions" then String.eqb method OCSERV_SESSIONS_SUMMARY
  else if String.eqb kind "path-probe" then String.eqb method PROBE_PATH_ECHO
  else false.

(** [a <= b] and [a > b] of SQLite on texts; NULL compares as false. *)
Definition sql_le (a b : string) : bool := negb (str_ltb b a).
Definition sql_gt (a : option string) (b : string) : bool :=
  match a with Some a => str_ltb b a | None => false end.

Section scheduler.
Context `{EndpointIdOps, TimeOps, JsonOps}.
Implicit Types (env : StoreEnv).

Definition validate_bounded_rfc3339 (value field : string) : result StoreError Z :=
  reject? str_is_empty value || (64 <? str_len value)
    as InvalidInput (field +:+ " must be bounded RFC3339") in
  ok_or (rfc3339_parse value) (InvalidInput (field +:+ " must be bounded RFC3339")).

Definition validate_scheduler_claim_input (owner_id now : string) (lease_seconds : Z)
    (actor : string) : result StoreError unit :=
  let? _ := validate_safe_id "scheduler owner_id" owner_id 128 in
  let? _ := validate_bounded_rfc3339 now "scheduler claim timestamp" in
  let? _ := validate_u64_range "scheduler lease_seconds" lease_seconds
              MIN_SCHEDULER_LEASE_SECONDS MAX_SCHEDULER_LEASE_SECONDS in
  map_err InvalidInput (validate_actor actor).

Definition validate_scheduler_claim (claim : SchedulerJobClaim) : result StoreError unit :=
  let? _ := validate_safe_id "scheduler job_id" (cl_job_id claim) 128 in
  let? _ := validate_safe_id "scheduler owner_id" (cl_owner_id claim) 128 in
  reject? (cl_fence_token claim =? 0) || (i64_max <? cl_fence_token claim)
    as InvalidInput "scheduler fence token is out of range" in
  let? claimed_at := validate_bounded_rfc3339 (cl_claimed_at claim) "scheduler claimed_at" in
  let? lease_expires_at :=
    validate_bounded_rfc3339 (cl_lease_expires_at claim) "scheduler lease_expires_at" in
  let? _ := opt_check (fun run => validate_safe_id "scheduler active_run_id" run 128)
                      (cl_active_run_id claim) in
  reject? lease_expires_at <=? claimed_at
    as InvalidInput "scheduler lease must expire after it is claimed" in
  Ok tt.

Definition validate_scheduler_maintenance_window (window : SchedulerMaintenanceWindow)
    : result StoreError SchedulerMaintenanceWindow :=
  let? starts_at := validate_bounded_rfc3339 (mw_starts_at window) "maintenance starts_at" in
  let? ends_at := validate_bounded_rfc3339 (mw_ends_at window) "maintenance ends_at" in
  reject? ends_at <=? starts_at
    as InvalidInput "maintenance ends_at must be later than starts_at" in
  let? _ := map_err InvalidInput (validate_reason (mw_reason window)) in
  let? _ := validate_bounded_rfc3339 (mw_updated_at window) "maintenance updated_at" in
  Ok window.

Definition scheduler_lease_expiry (now : string) (lease_seconds : Z)
    : result StoreError string :=
  reject? i64_max <? lease_seconds as InvalidInput "scheduler lease_seconds exceeds i64" in
  let? instant := ok_or (rfc3339_parse now)
                        (InvalidInput "scheduler claim timestamp must be RFC3339") in
  Ok (rfc3339_format (instant + lease_seconds * 1000000000)).

Definition validate_scheduler_job_clock (clock : SchedulerJobClockUpdate)
    : result StoreError unit :=
  let? _ := validate_safe_id "scheduler clock job_id" (ck_job_id clock) 128 in
  let? next_run_at := validate_bounded_rfc3339 (ck_next_run_at clock) "scheduler next_run_at" in
  let? last_run_at := validate_bounded_rfc3339 (ck_last_run_at clock) "scheduler last_run_at" in
  reject? next_run_at <=? last_run_at
    as InvalidInput "scheduler next_run_at must be later than last_run_at" in
  Ok tt.

(** ** Statements *)

(** [insert_audit_tx] on the shared log. *)
Definition sched_audit (d : SchedDb) (e : AuditEvent) : result StoreError SchedDb :=
  let? core := insert_audit_tx (sd_core d) e in
  Ok (set_core core d).

Definition observability_job_from_row (row : ObservabilityJobRecord)
    : result StoreError ObservabilityJobRecord :=
  let failure column := Sqlite (FromSqlConversionFailure column) in
  let? selector := map_err (fun _ => failure 2) (ssp_from_value (job_selector_json row)) in
  let? pair_selector := match job_pair_selector_json row with
               | Some v => let? p := map_err (fun _ => failure 3) (spp_from_value v) in
                           Ok (Some p)
               | None => Ok None
               end in
  let? _ := map_err (fun _ => failure 2)
              (validate_scheduler_payload_relationship (job_kind row) selector pair_selector) in
  Ok row.

Definition get_observability_job_tx (d : SchedDb) (id : string)
    : result StoreError (option ObservabilityJobRecord) :=
  optional_row observability_job_from_row (sd_jobs d !! id).

Definition scheduler_job_selector_class (job : ObservabilityJobRecord) : string :=
  if bool_decide (is_Some (job_pair_selector_json job)) then "explicit_pair"
  else match value_get "selector" (job_selector_json job) ≫= as_str with
       | Some selector =>
           if String.eqb selector "all" then "all"
           else if starts_with "role=" selector then "role"
           else if starts_with "node_id=" selector then "node_id"
           else "invalid"
       | None => "invalid"
       end.

Definition observability_job_audit_json (job : ObservabilityJobRecord) : Value :=
  VObject [("enabled", VBool (job_enabled job));
           ("interval_seconds", json_u64 (job_interval_seconds job));
           ("jitter_seconds", json_u64 (job_jitter_seconds job));
           ("job_id", VString (job_id job));
           ("kind", VString (job_kind job));
           ("selector_class", VString (scheduler_job_selector_class job));
           ("timeout_ms", json_u64 (job_timeout_ms job))].

Definition scheduler_job_add_audit_detail (job : ObservabilityJobRecord) : Value :=
  VObject [("actor_type", VString "user");
           ("after", observability_job_audit_json job);
           ("before", Null);
           ("interval_seconds", json_u64 (job_interval_seconds job));
           ("job_id", VString (job_id job));
           ("kind", VString (job_kind job));
           ("reason", Null);
           ("result_class", VString "scheduler_summary");
           ("selector_class", VString (scheduler_job_selector_class job));
           ("target_id", VString (job_id job));
           ("target_type", VString "observability_job")].

Definition scheduler_job_state_audit_detail (before after : ObservabilityJobRecord) : Value :=
  VObject [("actor_type", VString "user");
           ("after", observability_job_audit_json after);
           ("before", observability_job_audit_json before);
           ("enabled", VBool (job_enabled after));
           ("job_id", VString (job_id after));
           ("reason", Null);
           ("result_class", VString "scheduler_summary");
           ("target_id", VString (job_id after));
           ("target_type", VString "observability_job")].

(** The fields of an audit event that the scheduler fills in. *)
Definition sched_event env actor (name : string) (ok : bool) (error_code : option string)
    (detail : Value) : AuditEvent :=
  audit_fields None None None ok error_code detail (AuditEvent_new env actor name).

(** The event of a claim. *)
Definition scheduler_claim_event env (event_name : string) (claim : SchedulerJobClaim)
    (actor state : string) : AuditEvent :=
  sched_event env actor event_name true None
    (VObject [("correlation_id", VString (cl_owner_id claim));
              ("expires_at", VString (cl_lease_expires_at claim));
              ("generation", json_u64 (cl_fence_token claim));
              ("job_id", VString (cl_job_id claim));
              ("state", VString state)]).

Definition insert_scheduler_claim_audit_tx env (d : SchedDb) (event_name : string)
    (claim : SchedulerJobClaim) (actor state : string) : result StoreError SchedDb :=
  sched_audit d (scheduler_claim_event env event_name claim actor state).

(** ** Jobs *)

Definition insert_observability_job env (d : SchedDb) (job : ObservabilityJobRecord) actor
    : SchedDb * result StoreError unit :=
  transact d
    (let? _ := map_err InvalidInput (validate_actor actor) in
     let? _ := validate_scheduler_job_kind (job_kind job) in
     let? selector := map_err InvalidInput (ssp_from_value (job_selector_json job)) in
     let? pair_selector := match job_pair_selector_json job with
                  | Some v => let? p := map_err InvalidInput (spp_from_value v) in Ok (Some p)
                  | None => Ok None
                  end in
     let? _ := map_err InvalidInput
                 (validate_scheduler_payload_relationship (job_kind job) selector pair_selector) in
     let? _ := validate_u64_range "interval_seconds" (job_interval_seconds job) 60 86400 in
     let? _ := validate_u64_range "jitter_seconds" (job_jitter_seconds job) 0 3600 in
     reject? job_interval_seconds job <? job_jitter_seconds job
       as InvalidInput "jitter_seconds must not exceed interval_seconds" in
     let? _ := validate_u64_range "timeout_ms" (job_timeout_ms job) 1000 30000 in
     reject? bool_decide (is_Some (sd_jobs d !! job_id job))
       as Sqlite (ConstraintViolation "observability_jobs.job_id") in
     let d := set_jobs (<[job_id job := job]> (sd_jobs d)) d in
     let? found := get_observability_job_tx d (job_id job) in
     let? after := ok_or found (ObservabilityJobNotFound (job_id job)) in
     let? d := sched_audit d (sched_event env actor "scheduler.job.add" true None
                                (scheduler_job_add_audit_detail after)) in
     Ok (d, tt)).

Definition with_job_enabled (enabled : bool) (now : string) (j : ObservabilityJobRecord)
    : ObservabilityJobRecord :=
  {| job_id := job_id j; job_kind := job_kind j; job_selector_json := job_selector_json j;
     job_pair_selector_json := job_pair_selector_json j;
     job_interval_seconds := job_interval_seconds j; job_jitter_seconds := job_jitter_seconds j;
     job_timeout_ms := job_timeout_ms j; job_enabled := enabled;
     job_next_run_at := job_next_run_at j; job_last_run_at := job_last_run_at j;
     job_created_at := job_created_at j; job_updated_at := now |}.

Definition set_observability_job_enabled env (d : SchedDb) (id : string) (enabled : bool) actor
    : SchedDb * result StoreError unit :=
  transact d
    (let? _ := map_err InvalidInput (validate_actor actor) in
     let? found := get_observability_job_tx d id in
     let? before := ok_or found (ObservabilityJobNotFound id) in
     let? row := ok_or (sd_jobs d !! id) (ObservabilityJobNotFound id) in
     let d := set_jobs (<[id := with_job_enabled enabled (env_sql_now env) row]> (sd_jobs d)) d in
     let? found := get_observability_job_tx d id in
     let? after := ok_or found (ObservabilityJobNotFound id) in
     let? d := sched_audit d (sched_event env actor
                  (if enabled then "scheduler.job.enable" else "scheduler.job.disable")
                  true None (scheduler_job_state_audit_detail before after)) in
     Ok (d, tt)).

(** ** Claims *)

(** [SELECT j.job_id ... ORDER BY COALESCE(j.next_run_at, ''), j.job_id LIMIT 1]:
    the due jobs that no unexpired claim holds, by text comparison. *)
Definition due_job (d : SchedDb) (now : string) (job : ObservabilityJobRecord) : bool :=
  job_enabled job
  && match job_next_run_at job with Some t => sql_le t now | None => true end
  && match sd_claims d !! job_id job with
     | Some c => match cr_lease_expires_at c with Some t => sql_le t now | None => true end
     | None => true
     end.

Definition job_order (a b : ObservabilityJobRecord) : bool :=
  let ka := default EmptyString (job_next_run_at a) in
  let kb := default EmptyString (job_next_run_at b) in
  str_ltb ka kb || (String.eqb ka kb && str_ltb (job_id a) (job_id b)).

Fixpoint first_job (l : list ObservabilityJobRecord) : option ObservabilityJobRecord :=
  match l with
  | [] => None
  | j :: l' =>
      match first_job l' with
      | Some k => if job_order k j then Some k else Some j
      | None => Some j
      end
  end.

Definition next_due_job (d : SchedDb) (now : string) : option string :=
  job_id <$> first_job (select (due_job d now) (sd_jobs d)).

(** The rows that [get_observability_run_state_tx] reads. *)
Definition get_observability_run_state_tx (d : SchedDb) (id : string)
    : option ObservabilityRunInsert := sd_runs d !! id.

Definition get_observability_job_kind_tx (d : SchedDb) (id : string) : option string :=
  job_kind <$> sd_jobs d !! id.

(** [run.status != "running" || run.finished_at.is_some()]. *)
Definition run_closed (run : ObservabilityRunInsert) : bool :=
  negb (String.eqb (run_status run) "running")
  || bool_decide (is_Some (run_finished_at run)).

Definition closed_run (status finished_at : string) (summary : Value)
    (r : ObservabilityRunInsert) : ObservabilityRunInsert :=
  {| run_id := run_id r; run_job_id := run_job_id r; run_started_at := run_started_at r;
     run_finished_at := Some finished_at; run_status := status;
     run_triggered_by := run_triggered_by r; run_summary_json := summary |}.

(** The event of a recovered run. *)
Definition scheduler_recover_event env (id kind run actor : string) : AuditEvent :=
  sched_event env actor "scheduler.run.recover" false (Some "SCHEDULER_LEASE_EXPIRED")
    (VObject [("job_id", VString id); ("kind", VString kind);
              ("reason_code", VString "SCHEDULER_LEASE_EXPIRED");
              ("result_class", VString "scheduler_summary"); ("run_id", VString run);
              ("status", VString "failed")]).

Definition recover_expired_scheduler_run_tx env (d : SchedDb)
    (id run : string) (recovered_at actor : string) : result StoreError SchedDb :=
  let? r := ok_or (get_observability_run_state_tx d run) (ObservabilityRunNotFound run) in
  reject? bool_decide (run_job_id r <> Some id)
    as InvalidInput "expired scheduler claim references a run for another job" in
  if run_closed r then Ok d
  else
    let? started_at := ok_or (rfc3339_parse (run_started_at r))
                             (InvalidInput "stored scheduler started_at is invalid") in
    let? recovered := ok_or (rfc3339_parse recovered_at)
                            (InvalidInput "scheduler claim timestamp must be RFC3339") in
    let finished_at := if recovered <? started_at then run_started_at r else recovered_at in
    let? kind := ok_or (get_observability_job_kind_tx d id) (ObservabilityJobNotFound id) in
    let? summary := map_err InvalidInput
      (rsp_new (Some id) (Some kind) "failed" "scheduler.run.once" (Some 0) (Some 0)) in
    let d := set_runs (<[run := closed_run "failed" finished_at (rsp_to_value summary) r]>
                         (sd_runs d)) d in
    sched_audit d (scheduler_recover_event env id kind run actor).

(** The lease of the row at an instant, by parsed times. *)
Definition lease_active (c : ClaimRow) (now : Z) : bool :=
  match cr_lease_expires_at c ≫= rfc3339_parse with
  | Some expires => now <? expires
  | None => false
  end.

Definition job_is_due (job : ObservabilityJobRecord) (now : Z) : bool :=
  match job_next_run_at job with
  | None => true
  | Some due => match rfc3339_parse due with Some due => due <=? now | None => true end
  end.

(** [INSERT INTO scheduler_job_claims ... ON CONFLICT(job_id) DO UPDATE]. *)
Definition upsert_claim (claim : SchedulerJobClaim) (d : SchedDb) : SchedDb :=
  set_claims (<[cl_job_id claim :=
    {| cr_fence_token := cl_fence_token claim;
       cr_held := Some (cl_owner_id claim, cl_claimed_at claim, cl_lease_expires_at claim);
       cr_active_run_id := None; cr_updated_at := cl_claimed_at claim |}]> (sd_claims d)) d.

Definition acquire_scheduler_claim_tx env (d : SchedDb) (id owner_id now : string)
    (lease_seconds : Z) actor (require_due : bool)
    : result StoreError (SchedDb * option SchedulerJobClaim) :=
  let? job := ok_or (sd_jobs d !! id) (ObservabilityJobNotFound id) in
  let? now_instant := ok_or (rfc3339_parse now)
                            (InvalidInput "scheduler claim timestamp must be RFC3339") in
  if negb (job_enabled job) || (require_due && negb (job_is_due job now_instant))
  then Ok (d, None)
  else
    let existing := sd_claims d !! id in
    if match existing with Some c => lease_active c now_instant | None => false end
    then Ok (d, None)
    else
      let previous_fence := match existing with Some c => cr_fence_token c | None => 0 end in
      let? fence_token := ok_or (checked_add i64_max previous_fence 1)
                                (InvalidInput "scheduler fence token is exhausted") in
      reject? fence_token <=? 0 as InvalidInput "stored scheduler fence token is invalid" in
      let? d := match existing ≫= cr_active_run_id with
                | Some run => recover_expired_scheduler_run_tx env d id run now actor
                | None => Ok d
                end in
      let? lease_expires_at := scheduler_lease_expiry now lease_seconds in
      let claim := {| cl_job_id := id; cl_owner_id := owner_id; cl_fence_token := fence_token;
                      cl_claimed_at := now; cl_lease_expires_at := lease_expires_at;
                      cl_active_run_id := None |} in
      let d := upsert_claim claim d in
      let? d := insert_scheduler_claim_audit_tx env d "scheduler.claim.acquire" claim actor
                  "acquired" in
      Ok (d, Some claim).

Definition claim_next_due_scheduler_job env (d : SchedDb) (owner_id now : string)
    (lease_seconds : Z) actor : SchedDb * result StoreError (option SchedulerJobClaim) :=
  transact d
    (let? _ := validate_scheduler_claim_input owner_id now lease_seconds actor in
     match next_due_job d now with
     | None => Ok (d, None)
     | Some id => acquire_scheduler_claim_tx env d id owner_id now lease_seconds actor true
     end).

(** [claim_scheduler_job] ([require_due = false]) and
    [claim_due_scheduler_job] ([require_due = true]). *)
Definition claim_job env (d : SchedDb) (id owner_id now : string) (lease_seconds : Z) actor
    (require_due : bool) : SchedDb * result StoreError (option SchedulerJobClaim) :=
  transact d
    (let? _ := validate_safe_id "scheduler job_id" id 128 in
     let? _ := validate_scheduler_claim_input owner_id now lease_seconds actor in
     acquire_scheduler_claim_tx env d id owner_id now lease_seconds actor require_due).

Definition claim_scheduler_job env (d : SchedDb) id owner_id now lease_seconds actor :=
  claim_job env d id owner_id now lease_seconds actor false.
Definition claim_due_scheduler_job env (d : SchedDb) id owner_id now lease_seconds actor :=
  claim_job env d id owner_id now lease_seconds actor true.

(** [WHERE job_id = ? AND owner_id = ? AND fence_token = ?]. *)
Definition claim_row (d : SchedDb) (claim : SchedulerJobClaim) : option ClaimRow :=
  match sd_claims d !! cl_job_id claim with
  | Some c =>
      if bool_decide (cr_owner_id c = Some (cl_owner_id claim))
         && (cr_fence_token c =? cl_fence_token claim)
      then Some c else None
  | None => None
  end.

Definition with_lease (lease updated : string) (c : ClaimRow) : ClaimRow :=
  {| cr_fence_token := cr_fence_token c;
     cr_held := (fun h => (h.1.1, h.1.2, lease)) <$> cr_held c;
     cr_active_run_id := cr_active_run_id c; cr_updated_at := updated |}.

Definition renew_scheduler_job_claim env (d : SchedDb) (claim : SchedulerJobClaim) (now : string)
    (lease_seconds : Z) actor : SchedDb * result StoreError SchedulerJobClaim :=
  transact d
    (let? _ := validate_scheduler_claim claim in
     let? _ := validate_scheduler_claim_input (cl_owner_id claim) now lease_seconds actor in
     let? lease_expires_at := scheduler_lease_expiry now lease_seconds in
     let? _ := u64_to_i64 (cl_fence_token claim) in
     let lost := SchedulerClaimLost (cl_job_id claim) in
     let? row := ok_or (claim_row d claim) lost in
     check? sql_gt (cr_lease_expires_at row) now else lost in
     let d := set_claims (<[cl_job_id claim := with_lease lease_expires_at now row]>
                            (sd_claims d)) d in
     let renewed := {| cl_job_id := cl_job_id claim; cl_owner_id := cl_owner_id claim;
                       cl_fence_token := cl_fence_token claim;
                       cl_claimed_at := cl_claimed_at claim;
                       cl_lease_expires_at := lease_expires_at;
                       cl_active_run_id := cl_active_run_id claim |} in
     let? d := insert_scheduler_claim_audit_tx env d "scheduler.claim.renew" renewed actor
                 "renewed" in
     Ok (d, renewed)).

Definition release_scheduler_job_claim env (d : SchedDb) (claim : SchedulerJobClaim)
    (released_at actor : string) : SchedDb * result StoreError unit :=
  transact d
    (let? _ := validate_scheduler_claim claim in
     let? _ := validate_bounded_rfc3339 released_at "scheduler released_at" in
     let? _ := map_err InvalidInput (validate_actor actor) in
     let? _ := u64_to_i64 (cl_fence_token claim) in
     let? row := ok_or (claim_row d claim) (SchedulerClaimLost (cl_job_id claim)) in
     let d := set_claims (<[cl_job_id claim :=
                {| cr_fence_token := cr_fence_token row; cr_held := None;
                   cr_active_run_id := None; cr_updated_at := released_at |}]>
                (sd_claims d)) d in
     let? d := insert_scheduler_claim_audit_tx env d "scheduler.claim.release" claim actor
                 "released" in
     Ok (d, tt)).

Definition get_scheduler_job_claim (d : SchedDb) (id : string)
    : result StoreError (option SchedulerJobClaim) :=
  let? _ := validate_safe_id "scheduler job_id" id 128 in
  match sd_claims d !! id with
  | None => Ok None
  | Some c =>
      match cr_held c with
      | None => Ok None
      | Some (owner, claimed, lease) =>
          reject? cr_fence_token c <=? 0 as Sqlite (FromSqlConversionFailure 2) in
          Ok (Some {| cl_job_id := id; cl_owner_id := owner; cl_fence_token := cr_fence_token c;
                      cl_claimed_at := claimed; cl_lease_expires_at := lease;
                      cl_active_run_id := cr_active_run_id c |})
      end
  end.

(** ** The maintenance window *)

Definition get_scheduler_maintenance (d : SchedDb)
    : result StoreError (option SchedulerMaintenanceWindow) :=
  match sd_maintenance d with
  | None => Ok None
  | Some w => let? w := validate_scheduler_maintenance_window w in Ok (Some w)
  end.

Definition scheduler_maintenance_active_at (d : SchedDb) (now : string)
    : result StoreError (option SchedulerMaintenanceWindow) :=
  let? now := validate_bounded_rfc3339 now "scheduler maintenance check timestamp" in
  let? window := get_scheduler_maintenance d in
  Ok (match window with
      | Some w =>
          match rfc3339_parse (mw_starts_at w), rfc3339_parse (mw_ends_at w) with
          | Some starts_at, Some ends_at =>
              if (starts_at <=? now) && (now <? ends_at) then Some w else None
          | _, _ => None
          end
      | None => None
      end).

(** [CHECK (length(reason) BETWEEN 1 AND 256)] counts characters. *)
Definition set_scheduler_maintenance env (d : SchedDb) (window : SchedulerMaintenanceWindow)
    actor : SchedDb * result StoreError unit :=
  transact d
    (let? _ := map_err InvalidInput (validate_actor actor) in
     let? window := validate_scheduler_maintenance_window window in
     reject? negb (in_range 1 256 (Z.of_nat (length (chars (mw_reason window)))))
       as Sqlite (ConstraintViolation "scheduler_maintenance.reason") in
     let d := set_maintenance (Some window) d in
     let? d := sched_audit d (sched_event env actor "scheduler.maintenance.set" true None
       (VObject [("from", VString (mw_starts_at window)); ("reason", VString (mw_reason window));
                 ("result_class", VString "scheduler_summary");
                 ("state", VString "configured"); ("to", VString (mw_ends_at window))])) in
     Ok (d, tt)).

Definition clear_scheduler_maintenance env (d : SchedDb) (cleared_at actor : string)
    : SchedDb * result StoreError bool :=
  transact d
    (let? _ := map_err InvalidInput (validate_actor actor) in
     let? _ := validate_bounded_rfc3339 cleared_at "scheduler maintenance cleared_at" in
     let removed := bool_decide (is_Some (sd_maintenance d)) in
     let d := set_maintenance None d in
     let? d := sched_audit d (sched_event env actor "scheduler.maintenance.clear" true None
       (VObject [("result_class", VString "scheduler_summary");
                 ("state", VString (if removed then "cleared" else "already_clear"))])) in
     Ok (d, removed)).

(** ** Runs *)

Definition canonical_run_summary (id kind_hint : option string) (status triggered_by : string)
    (summary : Value) : result StoreError Value :=
  let? payload := map_err InvalidInput
    (match rsp_from_value summary with
     | Ok p => Ok p
     | Err _ => rsp_from_legacy id kind_hint status triggered_by summary
     end) in
  let? _ := map_err InvalidInput
              (rsp_validate_relationship payload id kind_hint status triggered_by) in
  Ok (rsp_to_value payload).

Definition with_run_summary (summary : Value) (r : ObservabilityRunInsert)
    : ObservabilityRunInsert :=
  {| run_id := run_id r; run_job_id := run_job_id r; run_started_at := run_started_at r;
     run_finished_at := run_finished_at r; run_status := run_status r;
     run_triggered_by := run_triggered_by r; run_summary_json := summary |}.

(** [INSERT INTO observability_runs]: the primary key and the [CHECK]s of the
    table; the statuses and triggers it allows are those of the summary. *)
Definition insert_observability_run_tx (d : SchedDb) (run : ObservabilityRunInsert)
    : result StoreError SchedDb :=
  let kind := run_job_id run ≫= get_observability_job_kind_tx d in
  let? summary := canonical_run_summary (run_job_id run) kind (run_status run)
                    (run_triggered_by run) (run_summary_json run) in
  reject? bool_decide (is_Some (sd_runs d !! run_id run))
    as Sqlite (ConstraintViolation "observability_runs.run_id") in
  Ok (set_runs (<[run_id run := with_run_summary summary run]> (sd_runs d)) d).

Definition with_active_run (run : option string) (updated : string) (c : ClaimRow) : ClaimRow :=
  {| cr_fence_token := cr_fence_token c; cr_held := cr_held c; cr_active_run_id := run;
     cr_updated_at := updated |}.

(** The update that binds a run to the claim it was started under. *)
Definition bind_run_tx (d : SchedDb) (start : SchedulerRunStart) (claim : SchedulerJobClaim)
    : result StoreError SchedDb :=
  let? _ := u64_to_i64 (cl_fence_token claim) in
  let lost := SchedulerClaimLost (rs_job_id start) in
  let? row := ok_or (claim_row d claim) lost in
  check? bool_decide (cr_active_run_id row = None)
         && sql_gt (cr_lease_expires_at row) (rs_started_at start) else lost in
  Ok (set_claims (<[cl_job_id claim :=
        with_active_run (Some (rs_run_id start)) (rs_started_at start) row]> (sd_claims d)) d).

Definition write_scheduler_run_start_with_claim env (d : SchedDb) (start : SchedulerRunStart)
    (claim : option SchedulerJobClaim) actor : SchedDb * result StoreError unit :=
  transact d
    (let? _ := map_err InvalidInput (validate_actor actor) in
     let? _ := validate_safe_id "scheduler run_id" (rs_run_id start) 128 in
     let? _ := validate_safe_id "scheduler job_id" (rs_job_id start) 128 in
     let? _ := validate_bounded_rfc3339 (rs_started_at start) "scheduler started_at" in
     let? _ := match claim with
               | Some claim =>
                   let? _ := validate_scheduler_claim claim in
                   reject? negb (String.eqb (cl_job_id claim) (rs_job_id start))
                     as InvalidInput "scheduler claim job_id does not match run start" in
                   Ok tt
               | None => Ok tt
               end in
     let? job := ok_or (sd_jobs d !! rs_job_id start)
                       (ObservabilityJobNotFound (rs_job_id start)) in
     let? _ := validate_scheduler_job_kind (job_kind job) in
     reject? negb (job_enabled job)
       as InvalidInput ("scheduler job is disabled: " +:+ rs_job_id start) in
     let summary := VObject [("job_id", VString (rs_job_id start));
                             ("kind", VString (job_kind job));
                             ("result_class", VString "scheduler_summary");
                             ("status", VString "running")] in
     let? d := insert_observability_run_tx d
       {| run_id := rs_run_id start; run_job_id := Some (rs_job_id start);
          run_started_at := rs_started_at start; run_finished_at := None;
          run_status := "running"; run_triggered_by := "scheduler.run.once";
          run_summary_json := summary |} in
     let? d := match claim with
               | Some claim => bind_run_tx d start claim
               | None => Ok d
               end in
     let? d := sched_audit d (sched_event env actor "scheduler.run.start" true None
       (VObject [("job_id", VString (rs_job_id start)); ("kind", VString (job_kind job));
                 ("result_class", VString "scheduler_summary");
                 ("run_id", VString (rs_run_id start)); ("status", VString "running")])) in
     Ok (d, tt)).

Definition write_scheduler_run_start env (d : SchedDb) start actor :=
  write_scheduler_run_start_with_claim env d start None actor.
Definition write_scheduler_claimed_run_start env (d : SchedDb) start claim actor :=
  write_scheduler_run_start_with_claim env d start (Some claim) actor.

(** A run of a job that has a claim row must be the claim's active run, within
    the lease. *)
Definition ensure_active_scheduler_run_claim_tx (d : SchedDb) (id run check_at : string)
    : result StoreError unit :=
  match sd_claims d !! id with
  | None => Ok tt
  | Some c =>
      let? at_ := ok_or (rfc3339_parse check_at)
                        (InvalidInput "scheduler claim check timestamp is invalid") in
      check? bool_decide (is_Some (cr_owner_id c))
             && bool_decide (cr_active_run_id c = Some run) && lease_active c at_
        else SchedulerClaimLost id in
      Ok tt
  end.

Definition ensure_running_observability_run (run : ObservabilityRunInsert)
    : result StoreError unit :=
  reject? run_closed run as ObservabilityRunNotRunning (run_id run) in
  Ok tt.

(** ** Outcomes *)

Definition result_and_code_inconsistent (ok : option bool) (error_code : option string) : bool :=
  (bool_decide (ok = Some true) && bool_decide (is_Some error_code))
  || (bool_decide (ok = Some false) && bool_decide (error_code = None)).

Definition validate_scheduler_observation (ob : ProbeObservationInsert)
    : result StoreError unit :=
  let? _ := validate_safe_id "scheduler observation_id" (ob_observation_id ob) 128 in
  let? _ := opt_check (fun v => validate_safe_id "scheduler observation run_id" v 128)
                      (ob_run_id ob) in
  let? _ := opt_check (fun v => validate_safe_id "scheduler observation node_id" v 128)
                      (ob_node_id ob) in
  let? _ := opt_check (fun v => validate_safe_id "scheduler observation endpoint_id" v 128)
                      (ob_endpoint_id ob) in
  reject? negb (str_in_list (ob_method ob) observation_methods)
    as InvalidInput "scheduler observation method is invalid" in
  let? _ := opt_check (fun v => validate_safe_id "scheduler observation error_code" v 64)
                      (ob_error_code ob) in
  reject? bool_decide (ob_ok ob = None) || bool_decide (ob_duration_ms ob = None)
    as InvalidInput "scheduler observation ok and duration_ms are required" in
  reject? result_and_code_inconsistent (ob_ok ob) (ob_error_code ob)
    as InvalidInput "scheduler observation result and error_code are inconsistent" in
  let? _ := validate_bounded_rfc3339 (ob_observed_at ob) "scheduler observed_at" in
  let? _ := match ob_expires_at ob with
            | Some t => let? _ := validate_bounded_rfc3339 t "scheduler expires_at" in Ok tt
            | None => Ok tt
            end in
  reject? negb (str_in_list (ob_result_class ob) observation_result_classes)
    as InvalidInput "scheduler observation result_class is invalid" in
  validate_low_sensitive_json (ob_summary_json ob) "observation summary".

Definition validate_scheduler_outcome_audit (audit : AuditEvent) (ob : ProbeObservationInsert)
    (actor : string) : result StoreError unit :=
  reject? negb (String.eqb (ae_actor audit) actor)
    as InvalidInput "scheduler outcome audit actor does not match writer actor" in
  reject? bool_decide (ae_node_id audit <> ob_node_id ob)
          || bool_decide (ae_endpoint_id audit <> ob_endpoint_id ob)
          || bool_decide (ae_method audit <> Some (ob_method ob))
          || bool_decide (ae_ok audit <> ob_ok ob)
          || bool_decide (ae_duration_ms audit <> ob_duration_ms ob)
    as InvalidInput "scheduler outcome audit fields do not match observation" in
  reject? result_and_code_inconsistent (ae_ok audit) (ae_error_code audit)
    as InvalidInput "scheduler outcome audit result and error_code are inconsistent" in
  reject? negb (String.eqb (ae_event audit) "rpc.completed")
          && bool_decide (ae_error_code audit <> ob_error_code ob)
    as InvalidInput "scheduler outcome audit error_code does not match observation" in
  Ok tt.

Definition validate_run_entry (run : string) (entry : SchedulerOutcomeEntry)
    : result StoreError unit :=
  reject? bool_decide (ob_run_id (oe_observation entry) <> Some run)
    as InvalidInput "scheduler outcome contains a mismatched run_id" in
  reject? negb (str_in_list (ae_event (oe_audit entry))
                  ["rpc.completed"; "scheduler.task.outcome"])
    as InvalidInput "run-bound scheduler outcome audit event is invalid" in
  Ok tt.

(** The single entry of an outcome without a run. *)
Definition invalid_job_entry (entry : SchedulerOutcomeEntry) : bool :=
  let ob := oe_observation entry in
  bool_decide (ob_run_id ob = None)
  && String.eqb (ae_event (oe_audit entry)) "scheduler.job.invalid"
  && bool_decide (ob_ok ob = Some false)
  && bool_decide (ob_error_code ob = Some "SCHEDULER_JOB_INVALID").

Definition validate_scheduler_outcome (outcome : SchedulerOutcomeWrite) (actor : string)
    : result StoreError unit :=
  let? _ := map_err InvalidInput (validate_actor actor) in
  let? _ := validate_safe_id "scheduler job_id" (ow_job_id outcome) 128 in
  let n := Z.of_nat (length (ow_entries outcome)) in
  reject? (n =? 0) || (MAX_SCHEDULER_OUTCOME_ENTRIES <? n)
    as InvalidInput ("scheduler outcome must contain 1-"
                     +:+ pretty MAX_SCHEDULER_OUTCOME_ENTRIES +:+ " entries") in
  let? _ := match ow_run_id outcome with
            | Some run =>
                let? _ := validate_safe_id "scheduler run_id" run 128 in
                reject? bool_decide (is_Some (ow_job_clock outcome))
                  as InvalidInput "run-bound scheduler outcome cannot update job clocks" in
                try_for_each (validate_run_entry run) (ow_entries outcome)
            | None =>
                reject? match ow_entries outcome with
                        | [entry] => negb (invalid_job_entry entry)
                        | _ => true
                        end
                  as InvalidInput
                       "runless scheduler outcome must contain one failed scheduler.job.invalid entry"
                in Ok tt
            end in
  let? _ := match ow_job_clock outcome with
            | Some clock =>
                let? _ := validate_scheduler_job_clock clock in
                reject? negb (String.eqb (ck_job_id clock) (ow_job_id outcome))
                  as InvalidInput "scheduler outcome clock job_id does not match outcome" in
                Ok tt
            | None => Ok tt
            end in
  try_for_each (fun entry =>
      let? _ := validate_scheduler_observation (oe_observation entry) in
      validate_scheduler_outcome_audit (oe_audit entry) (oe_observation entry) actor)
    (ow_entries outcome).

Definition canonical_observation_summary (ob : ProbeObservationInsert)
    : result StoreError Value :=
  let? payload := map_err InvalidInput
    (match osp_from_value (ob_summary_json ob) with
     | Ok p => Ok p
     | Err _ => osp_from_legacy (ob_method ob) (ob_result_class ob) (ob_summary_json ob)
     end) in
  reject? negb (String.eqb (osp_method payload) (ob_method ob))
          || negb (String.eqb (osp_result_class payload) (ob_result_class ob))
    as InvalidInput "observation summary does not match relational method/result class" in
  Ok (osp_to_value payload).

Definition with_observation_summary (summary : Value) (o : ProbeObservationInsert)
    : ProbeObservationInsert :=
  {| ob_observation_id := ob_observation_id o; ob_run_id := ob_run_id o;
     ob_node_id := ob_node_id o; ob_endpoint_id := ob_endpoint_id o; ob_method := ob_method o;
     ob_ok := ob_ok o; ob_error_code := ob_error_code o; ob_duration_ms := ob_duration_ms o;
     ob_observed_at := ob_observed_at o; ob_expires_at := ob_expires_at o;
     ob_result_class := ob_result_class o; ob_summary_json := summary |}.

(** [INSERT INTO probe_observations]: the primary key and the foreign key on
    the run. *)
Definition insert_probe_observation_tx (d : SchedDb) (ob : ProbeObservationInsert)
    : result StoreError SchedDb :=
  let? summary := canonical_observation_summary ob in
  let? _ := option_u64_to_i64 (ob_duration_ms ob) in
  reject? bool_decide (is_Some (sd_observations d !! ob_observation_id ob))
    as Sqlite (ConstraintViolation "probe_observations.observation_id") in
  reject? match ob_run_id ob with
          | Some run => bool_decide (sd_runs d !! run = None)
          | None => false
          end
    as Sqlite (ConstraintViolation "probe_observations.run_id") in
  Ok (set_observations (<[ob_observation_id ob := with_observation_summary summary ob]>
                          (sd_observations d)) d).

Definition with_job_clock (next last now : string) (j : ObservabilityJobRecord)
    : ObservabilityJobRecord :=
  {| job_id := job_id j; job_kind := job_kind j; job_selector_json := job_selector_json j;
     job_pair_selector_json := job_pair_selector_json j;
     job_interval_seconds := job_interval_seconds j; job_jitter_seconds := job_jitter_seconds j;
     job_timeout_ms := job_timeout_ms j; job_enabled := job_enabled j;
     job_next_run_at := Some next; job_last_run_at := Some last;
     job_created_at := job_created_at j; job_updated_at := now |}.

Definition update_scheduler_job_clock_tx env (d : SchedDb) (clock : SchedulerJobClockUpdate)
    : result StoreError SchedDb :=
  let? job := ok_or (sd_jobs d !! ck_job_id clock)
                    (ObservabilityJobNotFound (ck_job_id clock)) in
  let? next_run_at := validate_bounded_rfc3339 (ck_next_run_at clock) "scheduler next_run_at" in
  let? last_run_at := validate_bounded_rfc3339 (ck_last_run_at clock) "scheduler last_run_at" in
  let? _ := match job_last_run_at job with
            | None => Ok tt
            | Some existing =>
                let? existing := validate_bounded_rfc3339 existing
                                   "stored scheduler last_run_at" in
                reject? last_run_at <? existing
                  as InvalidInput "scheduler job clock update would regress last_run_at" in
                match job_next_run_at job with
                | Some next =>
                    if existing =? last_run_at then
                      let? next := validate_bounded_rfc3339 next
                                     "stored scheduler next_run_at" in
                      reject? next_run_at <? next
                        as InvalidInput "scheduler job clock update would regress next_run_at" in
                      Ok tt
                    else Ok tt
                | None => Ok tt
                end
            end in
  Ok (set_jobs (<[ck_job_id clock := with_job_clock (ck_next_run_at clock)
                    (ck_last_run_at clock) (env_sql_now env) job]> (sd_jobs d)) d).

(** [iter().map(observed_at).max()], by text; the last of equal elements. *)
Definition latest_observed (entries : list SchedulerOutcomeEntry) : string :=
  fold_left (fun best entry =>
      let t := ob_observed_at (oe_observation entry) in
      if str_ltb t best then best else t) entries EmptyString.

(** The loop that writes the entries. *)
Fixpoint write_entries (d : SchedDb) (entries : list SchedulerOutcomeEntry)
    : result StoreError SchedDb :=
  match entries with
  | [] => Ok d
  | entry :: entries' =>
      let? d := insert_probe_observation_tx d (oe_observation entry) in
      let? d := sched_audit d (oe_audit entry) in
      write_entries d entries'
  end.

(** The checks of an outcome against the run it belongs to. *)
Definition check_outcome_run (d : SchedDb) (outcome : SchedulerOutcomeWrite) (run : string)
    : result StoreError unit :=
  let? r := ok_or (get_observability_run_state_tx d run) (ObservabilityRunNotFound run) in
  reject? bool_decide (run_job_id r <> Some (ow_job_id outcome))
    as InvalidInput "scheduler outcome job_id does not match run" in
  let? _ := ensure_active_scheduler_run_claim_tx d (ow_job_id outcome) run
              (latest_observed (ow_entries outcome)) in
  let? _ := ensure_running_observability_run r in
  let? kind := ok_or (get_observability_job_kind_tx d (ow_job_id outcome))
                     (ObservabilityJobNotFound (ow_job_id outcome)) in
  let? _ := validate_scheduler_job_kind kind in
  try_for_each (fun entry =>
      check? scheduler_job_kind_allows_method kind (ob_method (oe_observation entry))
        else InvalidInput "scheduler outcome method is not allowed for job kind" in
      Ok tt) (ow_entries outcome).

Definition write_scheduler_outcome env (d : SchedDb) (outcome : SchedulerOutcomeWrite) actor
    : SchedDb * result StoreError unit :=
  transact d
    (let? _ := validate_scheduler_outcome outcome actor in
     let? _ := match ow_run_id outcome with
               | Some run => check_outcome_run d outcome run
               | None =>
                   reject? bool_decide (sd_jobs d !! ow_job_id outcome = None)
                     as ObservabilityJobNotFound (ow_job_id outcome) in
                   Ok tt
               end in
     let? d := write_entries d (ow_entries outcome) in
     let? d := match ow_job_clock outcome with
               | Some clock => update_scheduler_job_clock_tx env d clock
               | None => Ok d
               end in
     Ok (d, tt)).

(** ** The end of a run *)

Definition count_observability_run_outcomes_tx (d : SchedDb) (run : string) : Z * Z :=
  let rows := select (fun o => bool_decide (ob_run_id o = Some run)) (sd_observations d) in
  (Z.of_nat (length rows),
   Z.of_nat (length (List.filter (fun o => bool_decide (ob_ok o = Some false)) rows))).

Definition finish_status (observations failed : Z) : string :=
  if observations =? 0 then "skipped" else if failed =? 0 then "succeeded" else "failed".

(** [UPDATE scheduler_job_claims SET active_run_id = NULL ... WHERE job_id = ?2
    AND active_run_id = ?3]. *)
Definition clear_active_run (d : SchedDb) (id run finished_at : string) : SchedDb :=
  match sd_claims d !! id with
  | Some c =>
      if bool_decide (cr_active_run_id c = Some run)
      then set_claims (<[id := with_active_run None finished_at c]> (sd_claims d)) d
      else d
  | None => d
  end.

Definition write_scheduler_run_finish env (d : SchedDb) (finish : SchedulerRunFinish) actor
    : SchedDb * result StoreError unit :=
  transact d
    (let id := ck_job_id (rf_job_clock finish) in
     let? _ := map_err InvalidInput (validate_actor actor) in
     let? _ := validate_safe_id "scheduler run_id" (rf_run_id finish) 128 in
     let? finished_at := validate_bounded_rfc3339 (rf_finished_at finish)
                           "scheduler finished_at" in
     let? _ := validate_scheduler_job_clock (rf_job_clock finish) in
     reject? negb (String.eqb (ck_last_run_at (rf_job_clock finish)) (rf_finished_at finish))
       as InvalidInput "scheduler last_run_at must equal finished_at" in
     let? run := ok_or (get_observability_run_state_tx d (rf_run_id finish))
                       (ObservabilityRunNotFound (rf_run_id finish)) in
     let? _ := ensure_running_observability_run run in
     reject? bool_decide (run_job_id run <> Some id)
       as InvalidInput "scheduler finish job_id does not match run" in
     let? _ := ensure_active_scheduler_run_claim_tx d id (rf_run_id finish)
                 (rf_finished_at finish) in
     let? started_at := ok_or (rfc3339_parse (run_started_at run))
       (InvalidInput "stored scheduler started_at is not bounded RFC3339") in
     reject? finished_at <? started_at
       as InvalidInput "scheduler finished_at must not precede started_at" in
     let? kind := ok_or (get_observability_job_kind_tx d id) (ObservabilityJobNotFound id) in
     let? _ := validate_scheduler_job_kind kind in
     let '(observations, failed) := count_observability_run_outcomes_tx d (rf_run_id finish) in
     let status := finish_status observations failed in
     let? summary := canonical_run_summary (run_job_id run) (Some kind) status
       "scheduler.run.once"
       (VObject [("failed_observations", json_u64 failed); ("job_id", VString id);
                 ("kind", VString kind); ("observations", json_u64 observations);
                 ("result_class", VString "scheduler_summary"); ("status", VString status)]) in
     let d := set_runs (<[rf_run_id finish :=
                closed_run status (rf_finished_at finish) summary run]> (sd_runs d)) d in
     let? d := update_scheduler_job_clock_tx env d (rf_job_clock finish) in
     let d := clear_active_run d id (rf_run_id finish) (rf_finished_at finish) in
     let? d := sched_audit d (sched_event env actor "scheduler.run.finish"
                  (negb (String.eqb status "failed")) None
       (VObject [("failed_observations", json_u64 failed); ("job_id", VString id);
                 ("kind", VString kind); ("observations", json_u64 observations);
                 ("result_class", VString "scheduler_summary");
                 ("run_id", VString (rf_run_id finish)); ("status", VString status)])) in
     Ok (d, tt)).
End scheduler.
