(* ===== verification/NodeMetadata.v ===== *)
(** * NodeMetadata: metadata and maintenance windows of registered nodes
      (ocfleet-cli/src/store.rs: node_metadata, node_maintenance_windows)

    Both tables refer to [nodes]; a row exists only for a registered node when
    it is written. *)

From S2P Require Import Prelude Text External AgentConfig InputValidation StoreTypes StoredText.
From S2P Require Import StoragePayloads StoreDb TrustStore Enrollment ObservationPayloads.
From S2P Require Import SchedulerStore.

Record NodeMetadataRecord := {
  nm_node_id : string;
  nm_environment : string;
  nm_site : string;
  nm_owner_team : string;
  nm_service_tier : string;
  nm_labels_json : Value;
  nm_expected_agent_version : option string;
  nm_updated_at : string;
}.

Record NodeMaintenanceWindow := {
  mw_node_id : string;
  mw_starts_at : string;
  mw_ends_at : string;
  mw_reason : string;
  mw_updated_at : string;
}.

Record RegistryDb := {
  rd_core : Db;
  rd_metadata : gmap string NodeMetadataRecord;
  rd_maintenance : gmap string NodeMaintenanceWindow;
}.

Definition node_metadata_audit_json (m : NodeMetadataRecord) : Value :=
  VObject [("environment", VString (nm_environment m));
           ("expected_agent_version", json_opt_str (nm_expected_agent_version m));
           ("labels", nm_labels_json m);
           ("owner_team", VString (nm_owner_team m));
           ("service_tier", VString (nm_service_tier m));
           ("site", VString (nm_site m))].

Section metadata.
Context `{TimeOps, JsonOps}.

(** [validate_node_id(..).map_err(|e| StoreError::InvalidInput(e.to_string()))]. *)
Definition valid_node_id (id : string) : result StoreError unit :=
  map_err (fun e => InvalidInput (validation_error_text e)) (validate_node_id id).

Definition validate_node_metadata_record (m : NodeMetadataRecord) : result StoreError unit :=
  let? _ := valid_node_id (nm_node_id m) in
  let? _ := map_err InvalidInput (validate_metadata_value (nm_environment m) "environment") in
  let? _ := map_err InvalidInput (validate_metadata_value (nm_site m) "site") in
  let? _ := map_err InvalidInput (validate_metadata_value (nm_owner_team m) "owner_team") in
  let? _ := map_err InvalidInput (validate_metadata_value (nm_service_tier m) "service_tier") in
  let? _ := map_err InvalidInput (validate_label_json (nm_labels_json m) "labels") in
  let? _ := validate_low_sensitive_json (nm_labels_json m) "node labels" in
  let? _ := match nm_expected_agent_version m with
            | Some version => map_err InvalidInput (validate_agent_version version)
            | None => Ok tt
            end in
  let? _ := validate_bounded_rfc3339 (nm_updated_at m) "metadata updated_at" in
  Ok tt.

Definition node_metadata_from_row (m : NodeMetadataRecord) : result StoreError NodeMetadataRecord :=
  let? _ := map_err (fun _ => Sqlite (FromSqlConversionFailure 5))
                    (validate_node_metadata_record m) in
  Ok m.

Definition get_node_metadata (d : RegistryDb) (id : string)
    : result StoreError (option NodeMetadataRecord) :=
  let? _ := valid_node_id id in
  optional_row node_metadata_from_row (rd_metadata d !! id).

Definition set_node_metadata (env : StoreEnv) (d : RegistryDb) (m : NodeMetadataRecord)
    (actor : string) : RegistryDb * result StoreError unit :=
  transact d (
    let? _ := map_err InvalidInput (validate_actor actor) in
    let? _ := validate_node_metadata_record m in
    reject? bool_decide (get_node_tx (rd_core d) (nm_node_id m) = None)
      as NodeNotFound (nm_node_id m) in
    let? before := optional_row node_metadata_from_row (rd_metadata d !! nm_node_id m) in
    let metadata := <[nm_node_id m := m]> (rd_metadata d) in
    let? after := node_metadata_from_row m in
    let detail := VObject [("after", node_metadata_audit_json after);
                           ("before", json_opt node_metadata_audit_json before);
                           ("result_class", VString "node_metadata");
                           ("target_id", VString (nm_node_id m));
                           ("target_type", VString "node_metadata")] in
    let? core := insert_audit_tx (rd_core d)
      (audit_fields (Some (nm_node_id m)) None None true None detail
         (AuditEvent_new env actor "node.metadata.set")) in
    Ok ({| rd_core := core; rd_metadata := metadata; rd_maintenance := rd_maintenance d |}, tt)).

(** ** Maintenance windows *)

Definition validate_node_maintenance_record (w : NodeMaintenanceWindow) : result StoreError unit :=
  let? _ := valid_node_id (mw_node_id w) in
  let? start := validate_bounded_rfc3339 (mw_starts_at w) "node maintenance starts_at" in
  let? end_ := validate_bounded_rfc3339 (mw_ends_at w) "node maintenance ends_at" in
  reject? end_ <=? start
    as InvalidInput "node maintenance ends_at must be later than starts_at" in
  let? _ := map_err InvalidInput (validate_reason (mw_reason w)) in
  let? _ := validate_bounded_rfc3339 (mw_updated_at w) "node maintenance updated_at" in
  Ok tt.

Definition node_maintenance_from_row (w : NodeMaintenanceWindow)
    : result StoreError NodeMaintenanceWindow :=
  let? _ := map_err (fun _ => Sqlite (FromSqlConversionFailure 1))
                    (validate_node_maintenance_record w) in
  Ok w.

Definition get_node_maintenance (d : RegistryDb) (id : string)
    : result StoreError (option NodeMaintenanceWindow) :=
  let? _ := valid_node_id id in
  optional_row node_maintenance_from_row (rd_maintenance d !! id).

Definition node_maintenance_active_at (d : RegistryDb) (id now : string) : result StoreError bool :=
  let? now := validate_bounded_rfc3339 now "node maintenance check timestamp" in
  let? window := get_node_maintenance d id in
  Ok match window with
     | Some w =>
         match rfc3339_parse (mw_starts_at w), rfc3339_parse (mw_ends_at w) with
         | Some start, Some end_ => (start <=? now) && (now <? end_)
         | _, _ => false
         end
     | None => false
     end.

Definition set_node_maintenance (env : StoreEnv) (d : RegistryDb) (w : NodeMaintenanceWindow)
    (actor : string) : RegistryDb * result StoreError unit :=
  transact d (
    let? _ := map_err InvalidInput (validate_actor actor) in
    let? _ := validate_node_maintenance_record w in
    reject? bool_decide (get_node_tx (rd_core d) (mw_node_id w) = None)
      as NodeNotFound (mw_node_id w) in
    let detail := VObject [("from", VString (mw_starts_at w));
                           ("reason", VString (mw_reason w));
                           ("result_class", VString "scheduling_advisory");
                           ("target_id", VString (mw_node_id w));
                           ("target_type", VString "node_maintenance");
                           ("to", VString (mw_ends_at w))] in
    let? core := insert_audit_tx (rd_core d)
      (audit_fields (Some (mw_node_id w)) None None true None detail
         (AuditEvent_new env actor "node.maintenance.set")) in
    Ok ({| rd_core := core; rd_metadata := rd_metadata d;
           rd_maintenance := <[mw_node_id w := w]> (rd_maintenance d) |}, tt)).

Definition clear_node_maintenance (env : StoreEnv) (d : RegistryDb) (id actor : string)
    : RegistryDb * result StoreError bool :=
  transact d (
    let? _ := map_err InvalidInput (validate_actor actor) in
    let? _ := valid_node_id id in
    let removed := bool_decide (is_Some (rd_maintenance d !! id)) in
    let detail := VObject [("result_class", VString "scheduling_advisory");
                           ("state", VString (if removed then "cleared" else "already_clear"));
                           ("target_id", VString id);
                           ("target_type", VString "node_maintenance")] in
    let? core := insert_audit_tx (rd_core d)
      (audit_fields (Some id) None None true None detail
         (AuditEvent_new env actor "node.maintenance.clear")) in
    Ok ({| rd_core := core; rd_metadata := rd_metadata d;
           rd_maintenance := delete id (rd_maintenance d) |}, removed)).
End metadata.
