(* ===== verification/TrustPolicy.v ===== *)
(** * TrustPolicy: a declared policy and its difference to the registry
      (ocfleet-cli/src/trust_policy.rs)

    A policy is the decoded document.  [canonicalize_policy] and
    [validate_policy] check it, [compute_policy_diff] compares it with the nodes,
    the trust table and the node metadata.  A [BTreeSet] is a finite set, its
    iteration order is [btree_iter].  Reading and decoding files is outside the
    model. *)

From stdpp Require Import pretty.
From S2P Require Import Prelude Text External Ordering AgentConfig InputValidation StoreTypes.
From S2P Require Import StoredText StoragePayloads StoreDb TrustStore Enrollment.
From S2P Require Import ObservationPayloads AlertWebhook SchedulerStore NodeMetadata.

Definition MAX_POLICY_NODES : Z := 2048.
Definition MAX_POLICY_CONTROLLERS : Z := 128.
Definition MAX_POLICY_PEERS : Z := 4096.
Definition MAX_POLICY_PATH_PROBES : Z := 4096.
Definition MAX_DIFF_ITEMS : Z := 512.

(** [anyhow::Error]: a message, or an error of the store. *)
Inductive PolicyError :=
| Bail (message : string)
| StoreFailed (e : StoreError).

(** ** The document *)

Record PolicyMetadata := { pm_name : option string; pm_revision : option string }.

Record PolicyNode := {
  pn_node_id : string;
  pn_endpoint_id : string;
  pn_region : string;
  pn_role : string;
  pn_lifecycle : string;
  pn_enabled : option bool;
  pn_environment : option string;
  pn_site : option string;
  pn_owner_team : option string;
  pn_service_tier : option string;
  (* a [BTreeMap]: in key order *)
  pn_labels : option (list (string * string));
  pn_expected_agent_version : option string;
}.

Record PolicyController := { pc_endpoint_id : string; pc_role : string }.
Record PolicyPeer := { pp_source_node_id : string; pp_peer_node_id : string }.
Record PolicyPathProbe := {
  pb_source_node_id : string;
  pb_target_node_id : string;
  pb_enabled : option bool;
}.

Record TrustPolicyDocument := {
  pd_version : Z;
  pd_metadata : option PolicyMetadata;
  pd_nodes : list PolicyNode;
  pd_controllers : list PolicyController;
  pd_peers : list PolicyPeer;
  pd_path_probes : list PolicyPathProbe;
}.

Record TrustPolicyValidationReport := {
  vr_generated_at : string;
  vr_status : string;
  vr_schema_version : Z;
  vr_policy_revision : string;
  vr_policy_sha256 : string;
  vr_node_count : Z;
  vr_controller_count : Z;
  vr_peer_count : Z;
  vr_path_probe_count : Z;
  vr_warning_count : Z;
  vr_warnings : list string;
}.

Record TrustPolicyDiff := {
  td_code : string;
  td_severity : string;
  td_node_id : option string;
  td_endpoint_id : option string;
  td_field : option string;
  td_desired : option string;
  td_current : option string;
  td_message : string;
}.

Record TrustPolicyDiffReport := {
  dr_generated_at : string;
  dr_status : string;
  dr_validated : TrustPolicyValidationReport;
  dr_diff_count : Z;
  dr_total_diff_count : Z;
  dr_truncated : bool;
  dr_diffs : list TrustPolicyDiff;
}.

(** serde_json: the bytes of a document. *)
Class PolicyBytes := { policy_bytes : TrustPolicyDocument -> list Z }.

(** ** Small checks *)

Definition validate_metadata_label (field value : string) : result PolicyError unit :=
  reject? str_is_empty value || (64 <? str_len value) || negb (forallb safe_byte (str_bytes value))
    as Bail (field +:+ " must be 1-64 characters from [a-zA-Z0-9._-]") in
  Ok tt.

Definition validate_collection_len (field : string) (len max : Z) : result PolicyError unit :=
  reject? max <? len
    as Bail ("trust policy " +:+ field +:+ " exceeds the bounded limit of " +:+ pretty max) in
  Ok tt.

(** [?] on an error of the configuration crate and on a text. *)
Definition config {A} (r : result ValidationError A) : result PolicyError A :=
  map_err (fun e => Bail (validation_error_text e)) r.
Definition text {A} (r : result string A) : result PolicyError A := map_err Bail r.

Definition validate_node_reference (node_ids : gset string) (node_id field : string)
    : result PolicyError unit :=
  let? _ := config (validate_node_id node_id) in
  reject? bool_decide (node_id ∉ node_ids)
    as Bail (field +:+ " references unknown policy node_id: " +:+ node_id) in
  Ok tt.

Definition optional_check {A} (f : A -> result PolicyError unit) (o : option A)
    : result PolicyError unit :=
  match o with Some a => f a | None => Ok tt end.

(** A node that is active and not switched off. *)
Definition operational (n : PolicyNode) : bool :=
  String.eqb (pn_lifecycle n) (endpoint_status_as_str Active) && default true (pn_enabled n).

Definition labels_value (labels : list (string * string)) : Value :=
  VObject (map (fun '(k, v) => (k, VString v)) labels).

Section policy.
Context `{EndpointIdOps, TimeOps, JsonOps, Sha256Ops, JsonBytes, PolicyBytes}.

(** ** Canonical form *)

Definition with_endpoint (endpoint_id : string) (n : PolicyNode) : PolicyNode :=
  {| pn_node_id := pn_node_id n; pn_endpoint_id := endpoint_id; pn_region := pn_region n;
     pn_role := pn_role n; pn_lifecycle := pn_lifecycle n; pn_enabled := pn_enabled n;
     pn_environment := pn_environment n; pn_site := pn_site n; pn_owner_team := pn_owner_team n;
     pn_service_tier := pn_service_tier n; pn_labels := pn_labels n;
     pn_expected_agent_version := pn_expected_agent_version n |}.

Definition canonicalize_policy (policy : TrustPolicyDocument)
    : result PolicyError TrustPolicyDocument :=
  let? nodes := try_map (fun n =>
    let? id := config (canonicalize_node_endpoint_id (pn_endpoint_id n)) in
    Ok (with_endpoint id n)) (pd_nodes policy) in
  let? controllers := try_map (fun c =>
    let? id := config (canonicalize_controller_endpoint_id (pc_endpoint_id c)) in
    Ok {| pc_endpoint_id := id; pc_role := pc_role c |}) (pd_controllers policy) in
  Ok {| pd_version := pd_version policy; pd_metadata := pd_metadata policy;
        pd_nodes := sort_by (fun n => [Some (pn_node_id n); Some (pn_endpoint_id n)]) nodes;
        pd_controllers := sort_by (fun c => [Some (pc_endpoint_id c); Some (pc_role c)]) controllers;
        pd_peers := sort_by (fun p => [Some (pp_source_node_id p); Some (pp_peer_node_id p)])
                      (pd_peers policy);
        pd_path_probes := sort_by (fun p => [Some (pb_source_node_id p); Some (pb_target_node_id p)])
                            (pd_path_probes policy) |}.

(** ** Validation *)

(** The checks of one node before it is entered in the sets. *)
Definition validate_policy_node (node : PolicyNode) : result PolicyError string :=
  let? _ := config (validate_node_id (pn_node_id node)) in
  let? _ := config (validate_region (pn_region node)) in
  let? _ := config (validate_role (pn_role node)) in
  let? _ := try_for_each (fun '(field, value) =>
    optional_check (fun v => text (validate_metadata_value v field)) value)
    [("environment", pn_environment node); ("site", pn_site node);
     ("owner_team", pn_owner_team node); ("service_tier", pn_service_tier node)] in
  let? _ := optional_check (fun labels => text (validate_label_json (labels_value labels)
              "node labels")) (pn_labels node) in
  let? _ := optional_check (fun v => text (validate_agent_version v))
              (pn_expected_agent_version node) in
  let? endpoint_id := config (canonicalize_node_endpoint_id (pn_endpoint_id node)) in
  let? lifecycle := ok_or (endpoint_status_from_str (pn_lifecycle node))
    (Bail "node lifecycle must be active, rotated, revoked, or quarantined") in
  reject? bool_decide (lifecycle <> Active) && default true (pn_enabled node)
    as Bail ("node " +:+ pn_node_id node +:+ " must set enabled=false when lifecycle="
             +:+ endpoint_status_as_str lifecycle) in
  Ok endpoint_id.

(** The loop over the nodes with the identifiers seen so far. *)
Fixpoint validate_nodes (node_ids endpoint_ids : gset string) (nodes : list PolicyNode)
    : result PolicyError (gset string) :=
  match nodes with
  | [] => Ok endpoint_ids
  | node :: rest =>
      let? endpoint_id := validate_policy_node node in
      reject? bool_decide (pn_node_id node ∈ node_ids)
        as Bail ("duplicate node_id in trust policy: " +:+ pn_node_id node) in
      reject? bool_decide (endpoint_id ∈ endpoint_ids)
        as Bail ("duplicate endpoint_id in trust policy nodes: " +:+ pn_endpoint_id node) in
      validate_nodes ({[pn_node_id node]} ∪ node_ids) ({[endpoint_id]} ∪ endpoint_ids) rest
  end.

Fixpoint validate_controllers (endpoint_ids seen : gset string) (controllers : list PolicyController)
    : result PolicyError (gset string) :=
  match controllers with
  | [] => Ok seen
  | controller :: rest =>
      let? _ := config (validate_controller_role (pc_role controller)) in
      let? endpoint_id := config (canonicalize_controller_endpoint_id (pc_endpoint_id controller)) in
      reject? bool_decide (endpoint_id ∈ endpoint_ids)
        as Bail "controller endpoint_id must not also be a node endpoint_id" in
      reject? bool_decide (endpoint_id ∈ seen)
        as Bail ("duplicate controller endpoint_id in trust policy: "
                 +:+ pc_endpoint_id controller) in
      validate_controllers endpoint_ids ({[endpoint_id]} ∪ seen) rest
  end.

Fixpoint validate_peers (node_ids operational_ids : gset string) (pairs : gset (string * string))
    (peers : list PolicyPeer) : result PolicyError (gset (string * string)) :=
  match peers with
  | [] => Ok pairs
  | peer :: rest =>
      let source := pp_source_node_id peer in
      let target := pp_peer_node_id peer in
      let? _ := validate_node_reference node_ids source "peer source_node_id" in
      let? _ := validate_node_reference node_ids target "peer peer_node_id" in
      reject? String.eqb source target
        as Bail "peer entries must use distinct source_node_id and peer_node_id" in
      reject? bool_decide (source ∉ operational_ids) || bool_decide (target ∉ operational_ids)
        as Bail "peer entries may reference only active enabled policy nodes" in
      reject? bool_decide ((source, target) ∈ pairs)
        as Bail ("duplicate peer pair in trust policy: " +:+ source +:+ " -> " +:+ target) in
      validate_peers node_ids operational_ids ({[(source, target)]} ∪ pairs) rest
  end.

Fixpoint validate_path_probes (node_ids : gset string) (peer_pairs : gset (string * string))
    (no_controllers : bool) (pairs : gset (string * string)) (probes : list PolicyPathProbe)
    : result PolicyError unit :=
  match probes with
  | [] => Ok tt
  | probe :: rest =>
      let source := pb_source_node_id probe in
      let target := pb_target_node_id probe in
      let? _ := validate_node_reference node_ids source "path probe source_node_id" in
      let? _ := validate_node_reference node_ids target "path probe target_node_id" in
      reject? String.eqb source target
        as Bail "path_probes require an explicit distinct source/target pair" in
      reject? bool_decide ((source, target) ∈ pairs)
        as Bail ("duplicate path_probe pair in trust policy: " +:+ source +:+ " -> " +:+ target) in
      reject? bool_decide ((source, target) ∉ peer_pairs)
        as Bail ("path_probe pair " +:+ source +:+ " -> " +:+ target
                 +:+ " requires a matching explicit peer entry") in
      reject? default true (pb_enabled probe) && no_controllers
        as Bail "enabled path_probe entries require at least one explicit controller" in
      validate_path_probes node_ids peer_pairs no_controllers ({[(source, target)]} ∪ pairs) rest
  end.

Definition validate_policy (now : Z) (policy : TrustPolicyDocument)
    : result PolicyError TrustPolicyValidationReport :=
  reject? negb (pd_version policy =? 1) as Bail "trust policy version must be 1" in
  let count {A} (l : list A) := Z.of_nat (length l) in
  let? _ := validate_collection_len "nodes" (count (pd_nodes policy)) MAX_POLICY_NODES in
  let? _ := validate_collection_len "controllers" (count (pd_controllers policy))
              MAX_POLICY_CONTROLLERS in
  let? _ := validate_collection_len "peers" (count (pd_peers policy)) MAX_POLICY_PEERS in
  let? _ := validate_collection_len "path_probes" (count (pd_path_probes policy))
              MAX_POLICY_PATH_PROBES in
  let? _ := optional_check (fun m =>
    let? _ := optional_check (validate_metadata_label "metadata.name") (pm_name m) in
    optional_check (validate_metadata_label "metadata.revision") (pm_revision m))
    (pd_metadata policy) in
  let? endpoint_ids := validate_nodes ∅ ∅ (pd_nodes policy) in
  let policy_node_ids := list_to_set (map pn_node_id (pd_nodes policy)) : gset string in
  let operational_node_ids :=
    list_to_set (map pn_node_id (List.filter operational (pd_nodes policy))) : gset string in
  let? controller_endpoint_ids := validate_controllers endpoint_ids ∅ (pd_controllers policy) in
  let? peer_pairs := validate_peers policy_node_ids operational_node_ids ∅ (pd_peers policy) in
  let? _ := validate_path_probes policy_node_ids peer_pairs
              (bool_decide (controller_endpoint_ids = ∅)) ∅ (pd_path_probes policy) in
  let disabled := count (List.filter (fun p => bool_decide (pb_enabled p = Some false))
                           (pd_path_probes policy)) in
  let warnings :=
    (if (count (pd_nodes policy) =? 0)
     then ["policy contains no nodes; diff will only report controller extras"] else [])
    ++ (if 0 <? disabled
        then [pretty disabled +:+
              " path_probe entries are disabled and are not authorization changes"] else []) in
  let policy_sha256 := hex_lower (sha256 (policy_bytes policy)) in
  let policy_revision := match pd_metadata policy ≫= pm_revision with
                         | Some r => r
                         | None => "sha256-" +:+ policy_sha256
                         end in
  Ok {| vr_generated_at := rfc3339_format now; vr_status := "ok";
        vr_schema_version := pd_version policy; vr_policy_revision := policy_revision;
        vr_policy_sha256 := policy_sha256; vr_node_count := count (pd_nodes policy);
        vr_controller_count := count (pd_controllers policy);
        vr_peer_count := count (pd_peers policy);
        vr_path_probe_count := count (pd_path_probes policy);
        vr_warning_count := count warnings; vr_warnings := warnings |}.

(** [load_and_validate_policy] after the file was decoded. *)
Definition load_and_validate_policy (now : Z) (decoded : TrustPolicyDocument)
    : result PolicyError (TrustPolicyDocument * TrustPolicyValidationReport) :=
  let? policy := canonicalize_policy decoded in
  let? report := validate_policy now policy in
  Ok (policy, report).

(** ** Difference to the registry *)

(** One entry about a field of a declared node. *)
Definition field_diff (code severity : string) (node : PolicyNode) (field : option string)
    (desired current message : string) : TrustPolicyDiff :=
  {| td_code := code; td_severity := severity; td_node_id := Some (pn_node_id node);
     td_endpoint_id := Some (pn_endpoint_id node); td_field := field;
     td_desired := Some desired; td_current := Some current; td_message := message |}.

Definition compare_field (code : string) (node : PolicyNode) (field desired current : string)
    : list TrustPolicyDiff :=
  if String.eqb desired current then []
  else [field_diff code "medium" node (Some field) desired current
          ("controller " +:+ field +:+ " differs from policy")].

(** [bool::to_string]. *)
Definition bool_text (b : bool) : string := if b then "true" else "false".

Definition compare_node (policy : PolicyNode) (current : NodeRecord) : list TrustPolicyDiff :=
  compare_field "NODE_ENDPOINT_MISMATCH" policy "endpoint_id" (pn_endpoint_id policy)
    (node_endpoint_id current)
  ++ compare_field "NODE_REGION_MISMATCH" policy "region" (pn_region policy) (node_region current)
  ++ compare_field "NODE_ROLE_MISMATCH" policy "role" (pn_role policy) (node_role current)
  ++ match pn_enabled policy with
     | Some enabled =>
         compare_field "NODE_ENABLED_MISMATCH" policy "enabled" (bool_text enabled)
           (bool_text (node_enabled current))
     | None => []
     end.

(** An advisory field: the entry of [compare_field] with another severity and
    message. *)
Definition compare_metadata_field (node : PolicyNode) (field desired current : string)
    : list TrustPolicyDiff :=
  map (fun _ => field_diff "NODE_METADATA_MISMATCH" "low" node (Some field) desired current
                  ("controller advisory " +:+ field +:+ " differs from policy"))
    (compare_field "NODE_METADATA_MISMATCH" node field desired current).

Definition unset : string := "<unset>".

(** The advisory fields of a node with what is declared and what is stored. *)
Definition metadata_fields (policy : PolicyNode) (current : option NodeMetadataRecord)
    : list (string * option string * string) :=
  let stored (f : NodeMetadataRecord -> string) := from_option f unset current in
  [("environment", pn_environment policy, stored nm_environment);
   ("site", pn_site policy, stored nm_site);
   ("owner_team", pn_owner_team policy, stored nm_owner_team);
   ("service_tier", pn_service_tier policy, stored nm_service_tier);
   ("expected_agent_version", pn_expected_agent_version policy,
    stored (fun m => default unset (nm_expected_agent_version m)))].

Definition compare_node_metadata (policy : PolicyNode) (current : option NodeMetadataRecord)
    : list TrustPolicyDiff :=
  flat_map (fun '(field, desired, stored) =>
    match desired with
    | Some d => compare_metadata_field policy field d stored
    | None => []
    end) (metadata_fields policy current)
  ++ match pn_labels policy with
     | Some labels =>
         compare_metadata_field policy "labels" (str_of_bytes (json_bytes (labels_value labels)))
           (from_option (fun m => str_of_bytes (json_bytes (nm_labels_json m))) unset current)
     | None => []
     end.

Definition compare_endpoint (policy : PolicyNode) (current : EndpointTrustRecord)
    : result PolicyError (list TrustPolicyDiff) :=
  let? desired := ok_or (endpoint_status_from_str (pn_lifecycle policy))
                        (Bail ("unknown endpoint status: " +:+ pn_lifecycle policy)) in
  Ok (if bool_decide (et_status current = desired) then []
      else [{| td_code := "ENDPOINT_LIFECYCLE_MISMATCH"; td_severity := "high";
               td_node_id := Some (pn_node_id policy);
               td_endpoint_id := Some (et_endpoint_id current); td_field := Some "lifecycle";
               td_desired := Some (endpoint_status_as_str desired);
               td_current := Some (endpoint_status_as_str (et_status current));
               td_message := "controller endpoint lifecycle differs from policy" |}]).

(** *** Allowlists *)

(** The loop of [canonicalize_stored_ids]. *)
Fixpoint canonicalize_stored_ids (field : string)
    (canonicalize : string -> result ValidationError string) (seen : gset string)
    (values : list string) : result PolicyError (gset string) :=
  match values with
  | [] => Ok seen
  | value :: rest =>
      let? value := map_err (fun _ => Bail ("stored " +:+ field +:+ " EndpointID is invalid"))
                            (canonicalize value) in
      reject? bool_decide (value ∈ seen)
        as Bail ("stored " +:+ field +:+ " allowlist contains a duplicate EndpointID") in
      canonicalize_stored_ids field canonicalize ({[value]} ∪ seen) rest
  end.

(** [format!("{controller}->{target}")]. *)
Definition probe_text (controller target : string) : string := controller +:+ "->" +:+ target.

Fixpoint canonicalize_stored_path_probes (seen : gset string) (values : list (string * string))
    : result PolicyError (gset string) :=
  match values with
  | [] => Ok seen
  | (controller, target) :: rest =>
      let? controller :=
        map_err (fun _ => Bail "stored path-probe controller EndpointID is invalid")
                (canonicalize_controller_endpoint_id controller) in
      let? target := map_err (fun _ => Bail "stored path-probe target EndpointID is invalid")
                             (canonicalize_path_probe_endpoint_id target) in
      reject? bool_decide (probe_text controller target ∈ seen)
        as Bail "stored path-probe allowlist contains a duplicate pair" in
      canonicalize_stored_path_probes ({[probe_text controller target]} ∪ seen) rest
  end.

Definition add_set_diffs (node : PolicyNode) (field missing_code unexpected_code message : string)
    (desired current : gset string) : list TrustPolicyDiff :=
  map (fun value => field_diff missing_code "high" node (Some field) value "absent" message)
    (btree_iter (desired ∖ current))
  ++ map (fun value => field_diff unexpected_code "high" node (Some field) "absent" value message)
    (btree_iter (current ∖ desired)).

Record StoredTrustBundleProjection := {
  sb_trusted_controllers : list string;
  sb_trusted_peers : list string;
  sb_authorized_path_probes : list (string * string);
}.

(** The derived decoder: every member has a default, others are ignored; an
    array gives the members in order. *)
Definition projection_decode (v : Value) : option StoredTrustBundleProjection :=
  let fields := match v with
    | VObject m => Some (map_get "trusted_controllers" m, map_get "trusted_peers" m,
                         map_get "authorized_path_probes" m)
    | VArray l => if (3 <? length l)%nat then None else Some (l !! 0%nat, l !! 1%nat, l !! 2%nat)
    | _ => None
    end in
  '(controllers, peers, probes) ← fields;
  controllers ← de_default (de_vec as_str) [] controllers;
  peers ← de_default (de_vec as_str) [] peers;
  probes ← de_default (de_vec de_pair) [] probes;
  Some {| sb_trusted_controllers := controllers; sb_trusted_peers := peers;
          sb_authorized_path_probes := probes |}.

(** [collect::<BTreeMap<_, _>>()]: the last entry of a key stays. *)
Definition btree_map {A} (key : A -> string) (l : list A) : gmap string A :=
  list_to_map (map (fun x => (key x, x)) (rev l)).

Definition desired_controllers (policy : TrustPolicyDocument) : gset string :=
  list_to_set (map pc_endpoint_id (pd_controllers policy)).

Definition expected_peers (policy : TrustPolicyDocument) (node : PolicyNode) : gset string :=
  list_to_set (omap (fun peer =>
      pn_endpoint_id <$> btree_map pn_node_id (pd_nodes policy) !! pp_peer_node_id peer)
    (List.filter (fun peer => String.eqb (pp_source_node_id peer) (pn_node_id node))
       (pd_peers policy))).

Definition expected_path_probes (policy : TrustPolicyDocument) (node : PolicyNode) : gset string :=
  list_to_set (flat_map (fun target =>
      map (fun controller => probe_text controller (pn_endpoint_id target))
        (btree_iter (desired_controllers policy)))
    (omap (fun probe => btree_map pn_node_id (pd_nodes policy) !! pb_target_node_id probe)
       (List.filter (fun probe => String.eqb (pb_source_node_id probe) (pn_node_id node)
                                  && default true (pb_enabled probe)) (pd_path_probes policy)))).

(** One round of the loop over the nodes. *)
Definition compare_node_allowlists (policy : TrustPolicyDocument)
    (endpoint_map : gmap string EndpointTrustRecord) (node : PolicyNode)
    : result PolicyError (list TrustPolicyDiff) :=
  match endpoint_map !! pn_endpoint_id node with
  | None => Ok []
  | Some endpoint =>
      let? stored := ok_or (projection_decode (et_trust_bundle_json endpoint))
                           (Bail "controller trust bundle projection is invalid") in
      let? controllers := canonicalize_stored_ids "trusted controller"
        canonicalize_controller_endpoint_id ∅ (sb_trusted_controllers stored) in
      let? peers := canonicalize_stored_ids "trusted peer" canonicalize_peer_endpoint_id ∅
        (sb_trusted_peers stored) in
      let? probes := canonicalize_stored_path_probes ∅ (sb_authorized_path_probes stored) in
      let expected (s : gset string) := if operational node then s else ∅ in
      Ok (add_set_diffs node "trusted_controllers" "CONTROLLER_ALLOWLIST_MISSING"
            "CONTROLLER_ALLOWLIST_UNEXPECTED" "controller allowlist differs from review policy"
            (expected (desired_controllers policy)) controllers
          ++ add_set_diffs node "trusted_peers" "PEER_ALLOWLIST_MISSING"
            "PEER_ALLOWLIST_UNEXPECTED" "peer allowlist differs from review policy"
            (expected (expected_peers policy node)) peers
          ++ add_set_diffs node "authorized_path_probes" "PATH_PROBE_MISSING"
            "PATH_PROBE_UNEXPECTED" "path-probe allowlist differs from explicit review policy"
            (expected (expected_path_probes policy node)) probes)
  end.

Definition compare_trust_bundle_allowlists (policy : TrustPolicyDocument)
    (endpoint_map : gmap string EndpointTrustRecord) : result PolicyError (list TrustPolicyDiff) :=
  let? diffs := try_map (compare_node_allowlists policy endpoint_map) (pd_nodes policy) in
  Ok (concat diffs).

(** *** The whole comparison *)

(** [ORDER BY node_id] and [ORDER BY endpoint_id]. *)
Definition list_nodes (d : RegistryDb) : list NodeRecord :=
  sort_by (fun n => [Some (node_id n)]) (map snd (map_to_list (db_nodes (rd_core d)))).
Definition trust_snapshot (d : RegistryDb) : result StoreError (list EndpointTrustRecord) :=
  try_map endpoint_trust_from_row
    (order_by_endpoint (map snd (map_to_list (db_trust (rd_core d))))).

(** What is reported about one declared node and its endpoint. *)
Definition policy_node_diffs (d : RegistryDb) (node_map : gmap string NodeRecord)
    (endpoint_map : gmap string EndpointTrustRecord) (node : PolicyNode)
    : result PolicyError (list TrustPolicyDiff) :=
  let? registry :=
    match node_map !! pn_node_id node with
    | Some current =>
        let? metadata := map_err StoreFailed (get_node_metadata d (pn_node_id node)) in
        Ok (compare_node node current ++ compare_node_metadata node metadata)
    | None =>
        Ok [field_diff "NODE_MISSING_FROM_CONTROLLER" "medium" node None "present" "absent"
              "policy node is not present in the controller registry"]
    end in
  let? trust :=
    match endpoint_map !! pn_endpoint_id node with
    | Some endpoint => compare_endpoint node endpoint
    | None =>
        Ok [field_diff "ENDPOINT_MISSING_FROM_CONTROLLER" "medium" node (Some "lifecycle")
              (pn_lifecycle node) "absent"
              "policy endpoint is not present in endpoint trust state"]
    end in
  Ok (registry ++ trust).

Definition extra_node (current : NodeRecord) : TrustPolicyDiff :=
  {| td_code := "NODE_EXTRA_IN_CONTROLLER"; td_severity := "low";
     td_node_id := Some (node_id current); td_endpoint_id := Some (node_endpoint_id current);
     td_field := None; td_desired := Some "absent"; td_current := Some "present";
     td_message := "controller registry contains a node not declared in policy" |}.

Definition extra_endpoint (endpoint : EndpointTrustRecord) : TrustPolicyDiff :=
  {| td_code := "ENDPOINT_EXTRA_IN_CONTROLLER"; td_severity := "low";
     td_node_id := et_node_id endpoint; td_endpoint_id := Some (et_endpoint_id endpoint);
     td_field := None; td_desired := Some "absent";
     td_current := Some (endpoint_status_as_str (et_status endpoint));
     td_message := "controller trust state contains an endpoint not declared in policy" |}.

(** Every difference, in the order in which it is found. *)
Definition policy_diffs (d : RegistryDb) (policy : TrustPolicyDocument)
    : result PolicyError (list TrustPolicyDiff) :=
  let nodes := list_nodes d in
  let? endpoints := map_err (fun _ => Bail "controller trust bundle projection is invalid")
                            (trust_snapshot d) in
  let node_map := btree_map node_id nodes in
  let endpoint_map := btree_map et_endpoint_id endpoints in
  let policy_node_map := btree_map pn_node_id (pd_nodes policy) in
  let? policy_endpoint_ids := config (try_map (fun n =>
    canonicalize_node_endpoint_id (pn_endpoint_id n)) (pd_nodes policy)) in
  let? declared := try_map (policy_node_diffs d node_map endpoint_map) (pd_nodes policy) in
  let extra_nodes := map extra_node (List.filter (fun current =>
    bool_decide (policy_node_map !! node_id current = None)) nodes) in
  let extra_endpoints := map extra_endpoint (List.filter (fun endpoint =>
    bool_decide (et_endpoint_id endpoint ∉ policy_endpoint_ids)) endpoints) in
  let? allowlists := compare_trust_bundle_allowlists policy endpoint_map in
  Ok (concat declared ++ extra_nodes ++ extra_endpoints ++ allowlists).

Definition diff_key (d : TrustPolicyDiff) : list (option string) :=
  [Some (td_code d); td_node_id d; td_endpoint_id d; td_field d; td_desired d; td_current d].

Definition compute_policy_diff (now : Z) (d : RegistryDb) (policy : TrustPolicyDocument)
    (report : TrustPolicyValidationReport) : result PolicyError TrustPolicyDiffReport :=
  let? diffs := policy_diffs d policy in
  let diffs := sort_by diff_key diffs in
  let total := Z.of_nat (length diffs) in
  let shown := take (Z.to_nat MAX_DIFF_ITEMS) diffs in
  Ok {| dr_generated_at := rfc3339_format now; dr_status := "ok"; dr_validated := report;
        dr_diff_count := Z.of_nat (length shown); dr_total_diff_count := total;
        dr_truncated := MAX_DIFF_ITEMS <? total; dr_diffs := shown |}.
End policy.
