(* ===== verification/TrustPolicyReview.v ===== *)
(** * TrustPolicyReview: signatures, plans, approvals and the history of a policy
      (ocfleet-cli/src/trust_policy.rs)

    A policy is signed, compared with the registry in a plan, the plan is
    approved by a reviewer of a keyring, and both are recorded in a history file
    of one JSON object per line.  Files that are decoded as a whole are their
    decoded values; the history is its bytes.  Ed25519, SHA-256, base64 and the
    JSON encoder are parameters. *)

From stdpp Require Import pretty.
From S2P Require Import Prelude Text External Ordering AgentConfig InputValidation StoreTypes.
From S2P Require Import StoredText StoragePayloads StoreDb Enrollment AlertWebhook Certificates.
From S2P Require Import NodeMetadata TrustPolicy.

Definition MAX_REVIEWER_KEYS : Z := 128.
Definition MAX_HISTORY_BYTES : Z := 1024 * 1024.
Definition MAX_HISTORY_ENTRIES : Z := 256.
Definition POLICY_SIGNATURE_SCHEMA : string := "ocfleet.trust_policy.signature.v1".
Definition POLICY_PUBLIC_KEY_SCHEMA : string := "ocfleet.trust_policy.public_key.v1".
Definition POLICY_PLAN_SCHEMA : string := "ocfleet.trust_policy.plan.v1".
Definition POLICY_APPROVAL_SCHEMA : string := "ocfleet.trust_policy.approval.v2".
Definition POLICY_REVIEWER_KEYRING_SCHEMA : string := "ocfleet.trust_policy.reviewer-keyring.v1".
Definition POLICY_HISTORY_SCHEMA : string := "ocfleet.trust_policy.history.v1".

(** ** Artifacts *)

Record PolicySignatureFile := {
  sf_schema : string;
  sf_algorithm : string;
  sf_key_id : string;
  sf_policy_revision : string;
  sf_policy_sha256 : string;
  sf_signature : string;
}.

Record PolicyPublicKeyFile := {
  kf_schema : string;
  kf_algorithm : string;
  kf_key_id : string;
  kf_public_key : string;
}.

Record VerifiedPolicySignature := { vs_key_id : string; vs_public_key_sha256 : string }.

Record TrustPolicyDriftAlert := {
  da_active : bool;
  da_reason_code : string;
  da_severity : string;
  da_total_change_count : Z;
}.

(** [TrustPolicyPlanChange] has the fields of [TrustPolicyDiff]. *)
Record TrustPolicyPlan := {
  pl_schema : string;
  pl_mode : string;
  pl_policy_revision : string;
  pl_policy_sha256 : string;
  pl_signature_key_id : string;
  pl_signature_public_key_sha256 : string;
  pl_change_count : Z;
  pl_total_change_count : Z;
  pl_truncated : bool;
  pl_changes : list TrustPolicyDiff;
  pl_drift_alert : TrustPolicyDriftAlert;
}.

Record TrustPolicyApproval := {
  pa_schema : string;
  pa_policy_revision : string;
  pa_plan_sha256 : string;
  pa_approver : string;
  pa_approved_at : string;
  pa_key_id : string;
  pa_signature : string;
}.

Record ReviewerKeyFile := { rk_actor : string; rk_key_id : string; rk_public_key : string }.
Record ReviewerKeyringFile := { rk_schema : string; rk_reviewers : list ReviewerKeyFile }.
Record TrustedReviewerKey := { tk_actor : string; tk_key_id : string; tk_public_key : list Z }.

Record TrustPolicyHistoryEntry := {
  he_schema : string;
  he_policy_revision : string;
  he_policy_sha256 : string;
  he_plan_sha256 : string;
  he_total_change_count : Z;
  he_drift_active : bool;
  he_approved_by : option string;
  he_approval_key_id : option string;
  he_approval_sha256 : option string;
  he_recorded_at : string;
}.

(** ** Third-party code *)

(** serde_json for the artifacts. *)
Class ReviewJson := {
  plan_bytes : TrustPolicyPlan -> list Z;
  approval_bytes : TrustPolicyApproval -> list Z;
  entry_bytes : TrustPolicyHistoryEntry -> list Z;
  entry_parse : string -> option TrustPolicyHistoryEntry;
}.

(** ** Checks *)

Definition is_sha256_hex (value : string) : bool :=
  (str_len value =? 64)
  && forallb (fun b => is_ascii_hexdigit b && negb (is_ascii_uppercase b)) (str_bytes value).

Definition lf : string := str_of_bytes [10].

Definition policy_signature_payload (revision policy_sha256 : string) : list Z :=
  str_bytes (POLICY_SIGNATURE_SCHEMA +:+ lf +:+ revision +:+ lf +:+ policy_sha256 +:+ lf).

Definition approval_signature_payload (revision plan_sha256 approver approved_at key_id : string)
    : list Z :=
  str_bytes (POLICY_APPROVAL_SCHEMA +:+ lf +:+ revision +:+ lf +:+ plan_sha256 +:+ lf
             +:+ approver +:+ lf +:+ approved_at +:+ lf +:+ key_id +:+ lf).

Definition require_explicit_revision (policy : TrustPolicyDocument) : result PolicyError string :=
  ok_or (pd_metadata policy ≫= pm_revision)
        (Bail "signed policy review requires metadata.revision").

Definition validate_plan (plan : TrustPolicyPlan) : result PolicyError unit :=
  reject? negb (String.eqb (pl_schema plan) POLICY_PLAN_SCHEMA)
          || negb (String.eqb (pl_mode plan) "review-only")
    as Bail "policy plan schema is invalid" in
  let? _ := validate_metadata_label "policy_revision" (pl_policy_revision plan) in
  let alert := pl_drift_alert plan in
  reject? negb (is_sha256_hex (pl_policy_sha256 plan))
          || negb (is_sha256_hex (pl_signature_public_key_sha256 plan))
          || (MAX_DIFF_ITEMS <? Z.of_nat (length (pl_changes plan)))
          || negb (pl_change_count plan =? Z.of_nat (length (pl_changes plan)))
          || (pl_total_change_count plan <? pl_change_count plan)
          || negb (Bool.eqb (pl_truncated plan) (pl_change_count plan <? pl_total_change_count plan))
          || negb (da_total_change_count alert =? pl_total_change_count plan)
          || negb (Bool.eqb (da_active alert) (0 <? pl_total_change_count plan))
          || negb (String.eqb (da_reason_code alert) "TRUST_POLICY_DRIFT")
          || negb (existsb (String.eqb (da_severity alert)) ["none"; "warning"; "critical"])
    as Bail "policy plan is invalid" in
  let? _ := validate_metadata_label "signature_key_id" (pl_signature_key_id plan) in
  Ok tt.

Definition trusted_reviewer_key (keys : list TrustedReviewerKey) (actor key_id : string)
    : result PolicyError TrustedReviewerKey :=
  ok_or (List.find (fun k => String.eqb (tk_actor k) actor && String.eqb (tk_key_id k) key_id) keys)
        (Bail "approval key is not authorized for the approver and key_id").

Section review.
Context `{EndpointIdOps, TimeOps, JsonOps, Sha256Ops, JsonBytes, PolicyBytes}.
Context `{Ed25519Ops, Base64Standard, Base64Encode, ReviewJson}.

Definition sha256_hex (bytes : list Z) : string := hex_lower (sha256 bytes).

(** The loop over the reviewers. *)
Fixpoint trusted_keys (seen : gset (string * string)) (key_ids : gset string)
    (reviewers : list ReviewerKeyFile) : result PolicyError (list TrustedReviewerKey) :=
  match reviewers with
  | [] => Ok []
  | r :: rest =>
      let? _ := text (validate_actor (rk_actor r)) in
      let? _ := validate_metadata_label "reviewer key_id" (rk_key_id r) in
      reject? bool_decide ((rk_actor r, rk_key_id r) ∈ seen) || bool_decide (rk_key_id r ∈ key_ids)
        as Bail "reviewer keyring contains a duplicate reviewer key" in
      let? public_key := ok_or (base64_decode (rk_public_key r))
                               (Bail "reviewer keyring public key is invalid") in
      reject? negb (length public_key =? 32)%nat
        as Bail "reviewer keyring public key is invalid" in
      let? keys := trusted_keys ({[(rk_actor r, rk_key_id r)]} ∪ seen) ({[rk_key_id r]} ∪ key_ids)
                     rest in
      Ok ({| tk_actor := rk_actor r; tk_key_id := rk_key_id r; tk_public_key := public_key |} :: keys)
  end.

Definition load_reviewer_keyring (keyring : ReviewerKeyringFile)
    : result PolicyError (list TrustedReviewerKey) :=
  reject? negb (String.eqb (rk_schema keyring) POLICY_REVIEWER_KEYRING_SCHEMA)
          || (Z.of_nat (length (rk_reviewers keyring)) =? 0)
          || (MAX_REVIEWER_KEYS <? Z.of_nat (length (rk_reviewers keyring)))
    as Bail "reviewer keyring is invalid" in
  trusted_keys ∅ ∅ (rk_reviewers keyring).

(** ** Signing a policy *)

Definition run_trust_policy_sign (now : Z) (decoded : TrustPolicyDocument) (key_bytes : list Z)
    (key_id : string) : result PolicyError (PolicySignatureFile * PolicyPublicKeyFile) :=
  let? _ := validate_metadata_label "key_id" key_id in
  let? (policy, report) := load_and_validate_policy now decoded in
  let? _ := require_explicit_revision policy in
  let? key_pair := ok_or (key_from_pkcs8 key_bytes)
                         (Bail "invalid Ed25519 PKCS#8 policy signing key") in
  let signature := key_sign key_pair
    (policy_signature_payload (vr_policy_revision report) (vr_policy_sha256 report)) in
  Ok ({| sf_schema := POLICY_SIGNATURE_SCHEMA; sf_algorithm := "ed25519"; sf_key_id := key_id;
         sf_policy_revision := vr_policy_revision report;
         sf_policy_sha256 := vr_policy_sha256 report; sf_signature := base64_encode signature |},
      {| kf_schema := POLICY_PUBLIC_KEY_SCHEMA; kf_algorithm := "ed25519"; kf_key_id := key_id;
         kf_public_key := base64_encode (key_public key_pair) |}).

Definition verify_policy_signature (policy : TrustPolicyDocument)
    (report : TrustPolicyValidationReport) (signature : PolicySignatureFile)
    (public_key : PolicyPublicKeyFile) : result PolicyError VerifiedPolicySignature :=
  let? _ := require_explicit_revision policy in
  reject? negb (String.eqb (sf_schema signature) POLICY_SIGNATURE_SCHEMA)
          || negb (String.eqb (kf_schema public_key) POLICY_PUBLIC_KEY_SCHEMA)
          || negb (String.eqb (sf_algorithm signature) "ed25519")
          || negb (String.eqb (kf_algorithm public_key) "ed25519")
          || negb (String.eqb (sf_key_id signature) (kf_key_id public_key))
          || negb (String.eqb (sf_policy_revision signature) (vr_policy_revision report))
          || negb (String.eqb (sf_policy_sha256 signature) (vr_policy_sha256 report))
    as Bail "policy signature metadata does not match the validated policy" in
  let? _ := validate_metadata_label "signature key_id" (sf_key_id signature) in
  let? public_key_bytes := ok_or (base64_decode (kf_public_key public_key))
                                 (Bail "policy public key is invalid") in
  let? signature_bytes := ok_or (base64_decode (sf_signature signature))
                                (Bail "policy signature is invalid") in
  reject? negb (length public_key_bytes =? 32)%nat || negb (length signature_bytes =? 64)%nat
    as Bail "policy signature is invalid" in
  check? ed25519_verify public_key_bytes
           (policy_signature_payload (vr_policy_revision report) (vr_policy_sha256 report))
           signature_bytes
    else Bail "policy signature verification failed" in
  Ok {| vs_key_id := sf_key_id signature; vs_public_key_sha256 := sha256_hex public_key_bytes |}.

(** ** Planning *)

Definition run_trust_policy_plan (now : Z) (d : RegistryDb) (decoded : TrustPolicyDocument)
    (signature : PolicySignatureFile) (public_key : PolicyPublicKeyFile)
    : result PolicyError TrustPolicyPlan :=
  let? (policy, report) := load_and_validate_policy now decoded in
  let? _ := require_explicit_revision policy in
  let? verified := verify_policy_signature policy report signature public_key in
  let? diff := compute_policy_diff now d policy report in
  let drift_active := 0 <? dr_total_diff_count diff in
  let severity :=
    if existsb (fun change => String.eqb (td_severity change) "high") (dr_diffs diff)
    then "critical" else if drift_active then "warning" else "none" in
  Ok {| pl_schema := POLICY_PLAN_SCHEMA; pl_mode := "review-only";
        pl_policy_revision := vr_policy_revision report;
        pl_policy_sha256 := vr_policy_sha256 report; pl_signature_key_id := vs_key_id verified;
        pl_signature_public_key_sha256 := vs_public_key_sha256 verified;
        pl_change_count := dr_diff_count diff; pl_total_change_count := dr_total_diff_count diff;
        pl_truncated := dr_truncated diff; pl_changes := dr_diffs diff;
        pl_drift_alert := {| da_active := drift_active; da_reason_code := "TRUST_POLICY_DRIFT";
                             da_severity := severity;
                             da_total_change_count := dr_total_diff_count diff |} |}.

(** ** Approving *)

Definition run_trust_policy_approve (now : Z) (plan : TrustPolicyPlan) (key_bytes : list Z)
    (key_id approver : string) (keyring : ReviewerKeyringFile)
    : result PolicyError TrustPolicyApproval :=
  let? _ := validate_metadata_label "key_id" key_id in
  let? _ := text (validate_actor approver) in
  let? _ := validate_plan plan in
  reject? pl_truncated plan as Bail "truncated policy plans cannot be approved" in
  let? reviewer_keys := load_reviewer_keyring keyring in
  let? trusted_key := trusted_reviewer_key reviewer_keys approver key_id in
  let? key_pair := ok_or (key_from_pkcs8 key_bytes)
                         (Bail "invalid Ed25519 PKCS#8 approval signing key") in
  reject? bool_decide (key_public key_pair <> tk_public_key trusted_key)
    as Bail "approval key is not authorized for the approver and key_id" in
  let approved_at := rfc3339_format now in
  let plan_sha256 := sha256_hex (plan_bytes plan) in
  let payload := approval_signature_payload (pl_policy_revision plan) plan_sha256 approver
                   approved_at key_id in
  Ok {| pa_schema := POLICY_APPROVAL_SCHEMA; pa_policy_revision := pl_policy_revision plan;
        pa_plan_sha256 := plan_sha256; pa_approver := approver; pa_approved_at := approved_at;
        pa_key_id := key_id; pa_signature := base64_encode (key_sign key_pair payload) |}.

Definition validate_approval (approval : TrustPolicyApproval) (plan : TrustPolicyPlan)
    (reviewer_keys : list TrustedReviewerKey) : result PolicyError unit :=
  reject? negb (String.eqb (pa_schema approval) POLICY_APPROVAL_SCHEMA)
          || negb (String.eqb (pa_policy_revision approval) (pl_policy_revision plan))
          || negb (String.eqb (pa_plan_sha256 approval) (sha256_hex (plan_bytes plan)))
          || pl_truncated plan
    as Bail "policy approval does not match the review plan" in
  let? _ := validate_metadata_label "approval key_id" (pa_key_id approval) in
  let? _ := text (validate_actor (pa_approver approval)) in
  let? _ := ok_or (rfc3339_parse (pa_approved_at approval))
                  (Bail "policy approval timestamp is invalid") in
  let? key := trusted_reviewer_key reviewer_keys (pa_approver approval) (pa_key_id approval) in
  let? signature := ok_or (base64_decode (pa_signature approval))
                          (Bail "policy approval signature is invalid") in
  reject? negb (length signature =? 64)%nat as Bail "policy approval signature is invalid" in
  check? ed25519_verify (tk_public_key key)
           (approval_signature_payload (pa_policy_revision approval) (pa_plan_sha256 approval)
              (pa_approver approval) (pa_approved_at approval) (pa_key_id approval)) signature
    else Bail "policy approval signature verification failed" in
  Ok tt.

(** ** The history file *)

(** The checks on one decoded line, with the revisions of the lines before. *)
Definition check_history_entry (revisions : gset string) (entry : TrustPolicyHistoryEntry)
    : result PolicyError unit :=
  let some {A} (o : option A) := bool_decide (is_Some o) in
  reject? negb (String.eqb (he_schema entry) POLICY_HISTORY_SCHEMA)
          || negb (is_sha256_hex (he_policy_sha256 entry))
          || negb (is_sha256_hex (he_plan_sha256 entry))
          || negb (Bool.eqb (some (he_approved_by entry)) (some (he_approval_key_id entry)))
          || negb (Bool.eqb (some (he_approved_by entry)) (some (he_approval_sha256 entry)))
          || from_option (fun hash => negb (is_sha256_hex hash)) false (he_approval_sha256 entry)
          || bool_decide (he_policy_revision entry ∈ revisions)
    as Bail "policy history entry is invalid" in
  let? _ := validate_metadata_label "history policy_revision" (he_policy_revision entry) in
  let? _ := optional_check (fun a => text (validate_actor a)) (he_approved_by entry) in
  let? _ := optional_check (validate_metadata_label "history approval_key_id")
              (he_approval_key_id entry) in
  let? _ := ok_or (rfc3339_parse (he_recorded_at entry))
                  (Bail "policy history timestamp is invalid") in
  Ok tt.

Definition history_full : PolicyError :=
  Bail ("policy history exceeds the bounded limit of " +:+ pretty MAX_HISTORY_ENTRIES +:+ " entries").

(** The loop over the lines. *)
Fixpoint history_lines (entries : list TrustPolicyHistoryEntry) (lines : list string)
    : result PolicyError (list TrustPolicyHistoryEntry) :=
  match lines with
  | [] => Ok entries
  | line :: rest =>
      if str_is_empty (str_trim line) then history_lines entries rest
      else
        reject? MAX_HISTORY_ENTRIES <=? Z.of_nat (length entries) as history_full in
        let? entry := ok_or (entry_parse line) (Bail "policy history entry is invalid") in
        let? _ := check_history_entry (list_to_set (map he_policy_revision entries)) entry in
        history_lines (entries ++ [entry]) rest
  end.

Definition parse_history_entries (bytes : list Z)
    : result PolicyError (list TrustPolicyHistoryEntry) :=
  check? utf8_valid bytes else Bail "policy history is not UTF-8" in
  history_lines [] (str_lines (str_of_bytes bytes)).

Definition read_history_entries_from_file (file : list Z)
    : result PolicyError (list TrustPolicyHistoryEntry) :=
  reject? MAX_HISTORY_BYTES <? Z.of_nat (length file)
    as Bail "policy history exceeds the bounded size limit" in
  parse_history_entries file.

(** The file after the record, under the exclusive lock. *)
Definition run_trust_policy_history_record (now : Z) (plan : TrustPolicyPlan)
    (approval : option TrustPolicyApproval) (keyring : option ReviewerKeyringFile) (file : list Z)
    : result PolicyError (list Z * TrustPolicyHistoryEntry) :=
  let? _ := validate_plan plan in
  let? _ := match approval, keyring with
            | Some approval, Some keyring =>
                let? reviewer_keys := load_reviewer_keyring keyring in
                validate_approval approval plan reviewer_keys
            | None, None => Ok tt
            | _, _ => Err (Bail "--approval and --reviewer-keyring must be provided together")
            end in
  let entry := {| he_schema := POLICY_HISTORY_SCHEMA;
                  he_policy_revision := pl_policy_revision plan;
                  he_policy_sha256 := pl_policy_sha256 plan;
                  he_plan_sha256 := sha256_hex (plan_bytes plan);
                  he_total_change_count := pl_total_change_count plan;
                  he_drift_active := da_active (pl_drift_alert plan);
                  he_approved_by := pa_approver <$> approval;
                  he_approval_key_id := pa_key_id <$> approval;
                  he_approval_sha256 := (fun a => sha256_hex (approval_bytes a)) <$> approval;
                  he_recorded_at := rfc3339_format now |} in
  let encoded := entry_bytes entry ++ [10] in
  let? entries := read_history_entries_from_file file in
  reject? existsb (fun e => String.eqb (he_policy_revision e) (pl_policy_revision plan)) entries
    as Bail "policy revision is already present in history" in
  reject? MAX_HISTORY_ENTRIES <=? Z.of_nat (length entries) as history_full in
  reject? MAX_HISTORY_BYTES <?
          saturating_add u64_max (Z.of_nat (length file)) (Z.of_nat (length encoded))
    as Bail "policy history exceeds the bounded size limit" in
  Ok (file ++ encoded, entry).

(** The listing, in the order of time and revision. *)
Definition run_trust_policy_history_list (file : list Z)
    : result PolicyError (list TrustPolicyHistoryEntry) :=
  let? entries := read_history_entries_from_file file in
  Ok (sort_by (fun e => [Some (he_recorded_at e); Some (he_policy_revision e)]) entries).
End review.
