(* ===== verification/AlertQueue.v ===== *)
(** * AlertQueue: the queue of alert deliveries

    The operations of store.rs on [alert_delivery_queue]: enqueue, claim the
    next due item (recovering expired claims first), renew, write an outcome,
    defer.  The tables of alerts and hooks are there because the operations
    read them; an outcome also stamps the alert. *)

From stdpp Require Import pretty.
From S2P Require Import Prelude Text External InputValidation StoreTypes StoredText.
From S2P Require Import StoragePayloads StoreDb ObservationPayloads AlertWebhook SchedulerStore.

(** ** Records *)

Record AlertDeliveryAttemptRecord := {
  at_attempt_id : string;
  at_alert_id : string;
  at_hook_id : string;
  at_attempt_no : Z;
  at_attempted_at : string;
  at_status : string;
  at_http_status_class : option string;
  at_error_code : option string;
  at_bytes_sent : Z;
}.

Record AlertDeliveryQueueEnqueue := {
  qe_queue_id : string;
  qe_alert_id : string;
  qe_hook_id : string;
  qe_idempotency_key : string;
  qe_group_key : string;
  qe_enqueued_at : string;
}.

Record AlertDeliveryQueueClaim := {
  qc_queue_id : string;
  qc_alert_id : string;
  qc_hook_id : string;
  qc_idempotency_key : string;
  qc_group_key : string;
  qc_attempt_count : Z;
  qc_owner_id : string;
  qc_fence_token : Z;
  qc_claimed_at : string;
  qc_lease_expires_at : string;
}.

Record AlertDeliveryQueueOutcome := {
  qo_claim : AlertDeliveryQueueClaim;
  qo_attempt : AlertDeliveryAttemptRecord;
  qo_completed_at : string;
  qo_retry_at : option string;
  qo_retryable : bool;
  qo_max_attempts : Z;
}.

(** The [CHECK] on [status]. *)
Inductive QueueStatus := Pending | Claimed | Retry | DeadLetter | Succeeded.

#[export] Instance queue_status_eq_dec : EqDecision QueueStatus.
Proof. solve_decision. Defined.

Definition queue_status_text (s : QueueStatus) : string :=
  match s with
  | Pending => "pending" | Claimed => "claimed" | Retry => "retry"
  | DeadLetter => "dead_letter" | Succeeded => "succeeded"
  end.

(** A row; owner, claim time and lease are NULL exactly when the status is not
    [claimed]. *)
Record QueueRow := {
  qr_alert_id : string;
  qr_hook_id : string;
  qr_idempotency_key : string;
  qr_group_key : string;
  qr_status : QueueStatus;
  qr_attempt_count : Z;
  qr_next_attempt_at : string;
  qr_held : option (string * string * string);
  qr_fence_token : Z;
  qr_last_error_code : option string;
  qr_created_at : string;
  qr_updated_at : string;
  qr_delivered_at : option string;
}.

Record QueueDb := {
  qd_core : Db;
  qd_queue : gmap string QueueRow;
  qd_attempts : gmap string AlertDeliveryAttemptRecord;
  qd_hooks : gmap string AlertWebhookHookRecord;
  qd_alerts : gmap string AlertEventRecord;
}.

Definition empty_queue : QueueDb :=
  {| qd_core := empty_db; qd_queue := ∅; qd_attempts := ∅; qd_hooks := ∅; qd_alerts := ∅ |}.

Definition set_qcore (c : Db) (d : QueueDb) : QueueDb :=
  {| qd_core := c; qd_queue := qd_queue d; qd_attempts := qd_attempts d; qd_hooks := qd_hooks d;
     qd_alerts := qd_alerts d |}.
Definition set_queue (q : gmap string QueueRow) (d : QueueDb) : QueueDb :=
  {| qd_core := qd_core d; qd_queue := q; qd_attempts := qd_attempts d; qd_hooks := qd_hooks d;
     qd_alerts := qd_alerts d |}.
Definition set_attempts (a : gmap string AlertDeliveryAttemptRecord) (d : QueueDb) : QueueDb :=
  {| qd_core := qd_core d; qd_queue := qd_queue d; qd_attempts := a; qd_hooks := qd_hooks d;
     qd_alerts := qd_alerts d |}.
Definition set_hooks (h : gmap string AlertWebhookHookRecord) (d : QueueDb) : QueueDb :=
  {| qd_core := qd_core d; qd_queue := qd_queue d; qd_attempts := qd_attempts d; qd_hooks := h;
     qd_alerts := qd_alerts d |}.
Definition set_alerts (a : gmap string AlertEventRecord) (d : QueueDb) : QueueDb :=
  {| qd_core := qd_core d; qd_queue := qd_queue d; qd_attempts := qd_attempts d;
     qd_hooks := qd_hooks d; qd_alerts := a |}.

(** ** The detail payload of an attempt *)

Definition DELIVERY_ATTEMPT_DETAIL_SCHEMA_V1 : string := "ocfleet.delivery-attempt.detail.v1".

(** [DeliveryAttemptDetailPayloadV1::to_value]. *)
Definition dap_to_value (a : AlertDeliveryAttemptRecord) : Value :=
  VObject [("alert_id", VString (at_alert_id a)); ("attempt_id", VString (at_attempt_id a));
           ("attempt_no", json_u64 (at_attempt_no a)); ("bytes_sent", json_u64 (at_bytes_sent a));
           ("error_code", json_opt_str (at_error_code a)); ("hook_id", VString (at_hook_id a));
           ("http_status_class", json_opt_str (at_http_status_class a));
           ("schema", VString DELIVERY_ATTEMPT_DETAIL_SCHEMA_V1);
           ("status", VString (at_status a))].

Section queue.
Context `{EndpointIdOps, TimeOps, JsonOps}.
Implicit Types (env : StoreEnv).

(** [DeliveryAttemptDetailPayloadV1::validate], on the payload built from the
    attempt. *)
Definition dap_validate (a : AlertDeliveryAttemptRecord) : result string unit :=
  let? _ := validate_fixed_id (at_attempt_id a) 128 "delivery attempt ID" in
  let? _ := validate_fixed_id (at_alert_id a) 128 "delivery alert ID" in
  let? _ := validate_fixed_id (at_hook_id a) 128 "delivery hook ID" in
  reject? negb (in_range 1 5 (at_attempt_no a)) as "delivery attempt number is out of range" in
  reject? negb (str_in_list (at_status a) ["succeeded"; "failed"; "dry_run"])
    as "delivery attempt status is unsupported" in
  reject? match at_http_status_class a with
          | Some class => negb (str_in_list class ["1xx"; "2xx"; "3xx"; "4xx"; "5xx"])
          | None => false
          end
    as "delivery HTTP status class is unsupported" in
  let? _ := opt_check (fun code => validate_fixed_id code 128 "delivery error code")
                      (at_error_code a) in
  reject? 1048576 <? at_bytes_sent a as "delivery attempt byte count is out of range" in
  map_err invalid_input_text (validate_low_sensitive_json (dap_to_value a) "delivery attempt detail").

Definition delivery_attempt_detail_payload (a : AlertDeliveryAttemptRecord)
    : result StoreError unit := map_err InvalidInput (dap_validate a).

(** ** Validation *)

Definition validate_rfc3339 (value field : string) : result StoreError Z :=
  ok_or (rfc3339_parse value) (InvalidInput (field +:+ " must be RFC3339")).

Definition validate_sha256_hex (value field : string) : result StoreError unit :=
  reject? negb (str_len value =? 64) || negb (forallb is_ascii_hexdigit (str_bytes value))
    as InvalidInput (field +:+ " must be a 64-character hexadecimal digest") in
  Ok tt.

Definition validate_alert_delivery_attempt_record (a : AlertDeliveryAttemptRecord)
    : result StoreError unit :=
  let? _ := validate_safe_id "attempt_id" (at_attempt_id a) 128 in
  let? _ := validate_safe_id "alert_id" (at_alert_id a) 128 in
  let? _ := validate_safe_id "hook_id" (at_hook_id a) 128 in
  let? _ := validate_u64_range "attempt_no" (at_attempt_no a) 1 5 in
  let? _ := validate_u64_range "bytes_sent" (at_bytes_sent a) 0 1048576 in
  let? _ := validate_rfc3339 (at_attempted_at a) "alert attempt attempted_at" in
  reject? negb (str_in_list (at_status a) ["succeeded"; "failed"; "dry_run"])
    as InvalidInput "alert delivery attempt status is invalid" in
  let? _ := opt_check (fun class => validate_safe_id "http_status_class" class 16)
                      (at_http_status_class a) in
  let? _ := opt_check (fun code => validate_safe_id "error_code" code 64) (at_error_code a) in
  reject? String.eqb (at_status a) "failed" && bool_decide (at_error_code a = None)
    as InvalidInput "failed alert delivery attempt requires error_code" in
  reject? negb (String.eqb (at_status a) "failed") && bool_decide (is_Some (at_error_code a))
    as InvalidInput "non-failed alert delivery attempt cannot have error_code" in
  let? _ := delivery_attempt_detail_payload a in
  Ok tt.

Definition validate_alert_delivery_queue_enqueue (e : AlertDeliveryQueueEnqueue)
    : result StoreError unit :=
  let? _ := validate_safe_id "delivery queue_id" (qe_queue_id e) 96 in
  reject? negb (starts_with "delivery-queue-" (qe_queue_id e))
    as InvalidInput "delivery queue_id must use delivery-queue- prefix" in
  let? _ := validate_safe_id "delivery alert_id" (qe_alert_id e) 128 in
  let? _ := validate_safe_id "delivery hook_id" (qe_hook_id e) 128 in
  let? _ := validate_sha256_hex (qe_idempotency_key e) "delivery idempotency key" in
  let? _ := validate_audit_text (qe_group_key e) "delivery group key" 128 in
  let? _ := validate_rfc3339 (qe_enqueued_at e) "delivery enqueued_at" in
  Ok tt.

(** The instant of [now] comes back, since the callers parse it again. *)
Definition validate_alert_delivery_queue_claim_input (owner_id now : string) (lease_seconds : Z)
    : result StoreError Z :=
  let? _ := validate_safe_id "delivery owner_id" owner_id 128 in
  let? instant := validate_rfc3339 now "delivery claim timestamp" in
  reject? negb (in_range 30 600 lease_seconds)
    as InvalidInput "delivery lease_seconds must be between 30 and 600" in
  Ok instant.

(** The instant of the claim comes back. *)
Definition validate_alert_delivery_queue_claim (c : AlertDeliveryQueueClaim)
    : result StoreError Z :=
  let? _ := validate_safe_id "delivery queue_id" (qc_queue_id c) 96 in
  let? _ := validate_safe_id "delivery alert_id" (qc_alert_id c) 128 in
  let? _ := validate_safe_id "delivery hook_id" (qc_hook_id c) 128 in
  let? _ := validate_sha256_hex (qc_idempotency_key c) "delivery idempotency key" in
  let? _ := validate_audit_text (qc_group_key c) "delivery group key" 128 in
  let? _ := validate_safe_id "delivery owner_id" (qc_owner_id c) 128 in
  reject? (qc_fence_token c =? 0) || (i64_max <? qc_fence_token c)
    as InvalidInput "delivery fence token must be positive" in
  reject? 5 <? qc_attempt_count c as InvalidInput "delivery attempt_count exceeds five" in
  let? claimed_at := validate_rfc3339 (qc_claimed_at c) "delivery claimed_at" in
  let? expires_at := validate_rfc3339 (qc_lease_expires_at c) "delivery lease_expires_at" in
  reject? expires_at <=? claimed_at as InvalidInput "delivery lease must expire after claim" in
  Ok claimed_at.

Definition hour_ns : Z := 3600 * 1000000000.

Definition outcome_succeeded (o : AlertDeliveryQueueOutcome) : bool :=
  String.eqb (at_status (qo_attempt o)) "succeeded".

Definition validate_alert_delivery_queue_outcome (o : AlertDeliveryQueueOutcome)
    : result StoreError unit :=
  let claim := qo_claim o in
  let attempt := qo_attempt o in
  let? claimed := validate_alert_delivery_queue_claim claim in
  let? _ := validate_alert_delivery_attempt_record attempt in
  let? completed := validate_rfc3339 (qo_completed_at o) "delivery completed_at" in
  reject? negb (str_in_list (at_status attempt) ["succeeded"; "failed"])
    as InvalidInput "queued delivery attempt must be succeeded or failed" in
  reject? negb (String.eqb (at_alert_id attempt) (qc_alert_id claim))
          || negb (String.eqb (at_hook_id attempt) (qc_hook_id claim))
          || negb (at_attempt_no attempt =? qc_attempt_count claim + 1)
    as InvalidInput "delivery attempt does not match claimed queue item" in
  reject? negb (in_range 1 5 (qo_max_attempts o))
    as InvalidInput "delivery max_attempts must be between one and five" in
  let succeeded := outcome_succeeded o in
  reject? succeeded && (qo_retryable o || bool_decide (is_Some (qo_retry_at o)))
    as InvalidInput "successful delivery cannot request retry" in
  let should_retry := negb succeeded && qo_retryable o
                      && (at_attempt_no attempt <? qo_max_attempts o) in
  reject? negb (eqb should_retry (bool_decide (is_Some (qo_retry_at o))))
    as InvalidInput "delivery retry timestamp does not match retry policy" in
  let? _ := match qo_retry_at o with
            | Some retry_at =>
                let? retry := validate_rfc3339 retry_at "delivery retry_at" in
                reject? (retry <=? completed) || (hour_ns <? retry - completed)
                  as InvalidInput "delivery retry_at must be within one hour after completion" in
                Ok tt
            | None => Ok tt
            end in
  let? attempted := ok_or (rfc3339_parse (at_attempted_at attempt))
                          (InvalidInput "alert attempt attempted_at must be RFC3339") in
  reject? (attempted <? claimed) || (completed <? attempted)
    as InvalidInput "delivery attempt timestamps are out of order" in
  Ok tt.

(** ** Statements *)

Definition insert_alert_delivery_queue_audit_tx env (d : QueueDb) (actor event_name : string)
    (queue_id : string) (ok : bool) (error_code : option string) (detail : Value)
    : result StoreError QueueDb :=
  let? core := insert_audit_tx (qd_core d)
    (audit_fields None None (Some queue_id) ok error_code detail
       (AuditEvent_new env actor event_name)) in
  Ok (set_qcore core d).

Definition alert_delivery_claim_audit_json (c : AlertDeliveryQueueClaim) (state : string)
    : Value :=
  VObject [("alert_id", VString (qc_alert_id c)); ("attempt_no", json_u64 (qc_attempt_count c + 1));
           ("claimed_at", VString (qc_claimed_at c)); ("generation", json_u64 (qc_fence_token c));
           ("group_key", VString (qc_group_key c)); ("hook_id", VString (qc_hook_id c));
           ("lease_expires_at", VString (qc_lease_expires_at c));
           ("owner_id", VString (qc_owner_id c)); ("queue_id", VString (qc_queue_id c));
           ("state", VString state)].

(** [INSERT INTO alert_delivery_attempts]: primary key and foreign keys. *)
Definition insert_alert_delivery_attempt_tx (d : QueueDb) (a : AlertDeliveryAttemptRecord)
    : result StoreError QueueDb :=
  let? _ := delivery_attempt_detail_payload a in
  let? _ := u64_to_i64 (at_attempt_no a) in
  let? _ := u64_to_i64 (at_bytes_sent a) in
  reject? bool_decide (is_Some (qd_attempts d !! at_attempt_id a))
    as Sqlite (ConstraintViolation "alert_delivery_attempts.attempt_id") in
  reject? bool_decide (qd_alerts d !! at_alert_id a = None)
          || bool_decide (qd_hooks d !! at_hook_id a = None)
    as Sqlite (ConstraintViolation "FOREIGN KEY") in
  Ok (set_attempts (<[at_attempt_id a := a]> (qd_attempts d)) d).

(** [ORDER BY] a key: insertion sort by a strict order. *)
Fixpoint insert_by {A} (lt : A -> A -> bool) (x : A) (l : list A) : list A :=
  match l with
  | [] => [x]
  | y :: l' => if lt y x then y :: insert_by lt x l' else x :: l
  end.
Definition sort_by {A} (lt : A -> A -> bool) (l : list A) : list A := foldr (insert_by lt) [] l.

(** [SELECT queue_id, column ... ORDER BY queue_id LIMIT 1000]. *)
Definition queue_page (P : QueueRow -> bool) (column : QueueRow -> string) (d : QueueDb)
    : list (string * string) :=
  firstn 1000 (sort_by (fun x y => str_ltb x.1 y.1)
    (map (fun e => (e.1, column e.2)) (List.filter (fun e => P e.2) (map_to_list (qd_queue d))))).

(** The instants of a page; one text that does not parse fails the whole. *)
Fixpoint page_instants (message : string) (l : list (string * string))
    : result StoreError (list (string * Z)) :=
  match l with
  | [] => Ok []
  | (id, text) :: l' =>
      let? instant := ok_or (rfc3339_parse text) (InvalidInput message) in
      let? rest := page_instants message l' in
      Ok ((id, instant) :: rest)
  end.

(** [retain(due <= now)], then by instant and identifier. *)
Definition due_first (now : Z) (l : list (string * Z)) : list (string * Z) :=
  sort_by (fun x y => (x.2 <? y.2) || ((x.2 =? y.2) && str_ltb x.1 y.1))
          (List.filter (fun e => e.2 <=? now) l).

Definition with_queue_state (status : QueueStatus) (held : option (string * string * string))
    (next updated : string) (error : option string) (r : QueueRow) : QueueRow :=
  {| qr_alert_id := qr_alert_id r; qr_hook_id := qr_hook_id r;
     qr_idempotency_key := qr_idempotency_key r; qr_group_key := qr_group_key r;
     qr_status := status; qr_attempt_count := qr_attempt_count r; qr_next_attempt_at := next;
     qr_held := held; qr_fence_token := qr_fence_token r; qr_last_error_code := error;
     qr_created_at := qr_created_at r; qr_updated_at := updated;
     qr_delivered_at := qr_delivered_at r |}.

Definition lease_text (r : QueueRow) : string := match qr_held r with Some h => h.2 | None => EmptyString end.

(** The loop of [recover_expired_alert_delivery_claims_tx]. *)
Fixpoint recover_items env (d : QueueDb) (now actor : string) (l : list (string * Z))
    : result StoreError QueueDb :=
  match l with
  | [] => Ok d
  | (id, _) :: l' =>
      let conflict := AlertMutationConflict id "delivery queue item changed during recovery" in
      let? row := ok_or (qd_queue d !! id) conflict in
      check? bool_decide (qr_status row = Claimed) else conflict in
      let d := set_queue (<[id := with_queue_state Retry None now now
                 (Some "ALERT_DELIVERY_LEASE_EXPIRED") row]> (qd_queue d)) d in
      let? d := insert_alert_delivery_queue_audit_tx env d actor "alert.delivery.queue.recover" id
                  false (Some "ALERT_DELIVERY_LEASE_EXPIRED")
                  (VObject [("next_attempt_at", VString now); ("queue_id", VString id);
                            ("state", VString "retry")]) in
      recover_items env d now actor l'
  end.

Definition recover_expired_alert_delivery_claims_tx env (d : QueueDb) (now_instant : Z)
    (now actor : string) : result StoreError QueueDb :=
  let? expired := page_instants "stored delivery lease_expires_at is invalid"
    (queue_page (fun r => bool_decide (qr_status r = Claimed)) lease_text d) in
  recover_items env d now actor (firstn 100 (due_first now_instant expired)).

Definition waiting (r : QueueRow) : bool :=
  match qr_status r with Pending | Retry => true | _ => false end.

(** The row of a claim as [get_alert_delivery_queue_claim_tx] reads it. *)
Definition get_alert_delivery_queue_claim_tx (d : QueueDb) (id : string)
    : result StoreError (option AlertDeliveryQueueClaim) :=
  match qd_queue d !! id with
  | Some r =>
      match qr_status r, qr_held r with
      | Claimed, Some (owner, claimed_at, lease) =>
          reject? qr_attempt_count r <? 0 as Sqlite (FromSqlConversionFailure 5) in
          reject? negb (in_range 0 i64_max (qr_fence_token r))
            as Sqlite (FromSqlConversionFailure 7) in
          Ok (Some {| qc_queue_id := id; qc_alert_id := qr_alert_id r; qc_hook_id := qr_hook_id r;
                      qc_idempotency_key := qr_idempotency_key r; qc_group_key := qr_group_key r;
                      qc_attempt_count := qr_attempt_count r; qc_owner_id := owner;
                      qc_fence_token := qr_fence_token r; qc_claimed_at := claimed_at;
                      qc_lease_expires_at := lease |})
      | _, _ => Ok None
      end
  | None => Ok None
  end.

(** [UPDATE ... SET status = 'claimed', fence_token = fence_token + 1]. *)
Definition claimed_row (owner now lease : string) (r : QueueRow) : QueueRow :=
  {| qr_alert_id := qr_alert_id r; qr_hook_id := qr_hook_id r;
     qr_idempotency_key := qr_idempotency_key r; qr_group_key := qr_group_key r;
     qr_status := Claimed; qr_attempt_count := qr_attempt_count r;
     qr_next_attempt_at := qr_next_attempt_at r; qr_held := Some (owner, now, lease);
     qr_fence_token := qr_fence_token r + 1; qr_last_error_code := qr_last_error_code r;
     qr_created_at := qr_created_at r; qr_updated_at := now;
     qr_delivered_at := qr_delivered_at r |}.

(** [WHERE queue_id = ? AND status = 'claimed' AND owner_id = ? AND fence_token
    = ? AND lease_expires_at > ?]. *)
Definition held_row (d : QueueDb) (c : AlertDeliveryQueueClaim) (at_ : string) : option QueueRow :=
  match qd_queue d !! qc_queue_id c with
  | Some r =>
      match qr_held r with
      | Some (owner, _, lease) =>
          if bool_decide (qr_status r = Claimed) && String.eqb owner (qc_owner_id c)
             && (qr_fence_token r =? qc_fence_token c) && sql_gt (Some lease) at_
          then Some r else None
      | None => None
      end
  | None => None
  end.

(** ** Operations *)

Definition same_item (e : AlertDeliveryQueueEnqueue) (id : string) (r : QueueRow) : bool :=
  String.eqb id (qe_queue_id e) && String.eqb (qr_alert_id r) (qe_alert_id e)
  && String.eqb (qr_hook_id r) (qe_hook_id e)
  && String.eqb (qr_idempotency_key r) (qe_idempotency_key e)
  && String.eqb (qr_group_key r) (qe_group_key e).

(** [WHERE queue_id = ?1 OR idempotency_key = ?4]; both columns are unique. *)
Definition bound_items (e : AlertDeliveryQueueEnqueue) (d : QueueDb) : list (string * QueueRow) :=
  List.filter (fun x => String.eqb x.1 (qe_queue_id e)
                        || String.eqb (qr_idempotency_key x.2) (qe_idempotency_key e))
              (map_to_list (qd_queue d)).

(** [SELECT actor FROM controller_audit_log WHERE request_id = ? AND event = ?]. *)
Definition enqueue_actor (d : QueueDb) (id : string) : option string :=
  ae_actor <$> head (List.filter (fun e => bool_decide (ae_request_id e = Some id)
    && String.eqb (ae_event e) "alert.delivery.queue.enqueue") (db_audit (qd_core d))).

Definition enqueued_row (e : AlertDeliveryQueueEnqueue) : QueueRow :=
  {| qr_alert_id := qe_alert_id e; qr_hook_id := qe_hook_id e;
     qr_idempotency_key := qe_idempotency_key e; qr_group_key := qe_group_key e;
     qr_status := Pending; qr_attempt_count := 0; qr_next_attempt_at := qe_enqueued_at e;
     qr_held := None; qr_fence_token := 0; qr_last_error_code := None;
     qr_created_at := qe_enqueued_at e; qr_updated_at := qe_enqueued_at e;
     qr_delivered_at := None |}.

Definition write_alert_delivery_queue_enqueue env (d : QueueDb) (e : AlertDeliveryQueueEnqueue)
    actor : QueueDb * result StoreError unit :=
  transact d
    (let? _ := map_err InvalidInput (validate_actor actor) in
     let? _ := validate_alert_delivery_queue_enqueue e in
     match bound_items e d with
     | [] =>
         reject? match qd_hooks d !! qe_hook_id e with
                 | Some h => negb (String.eqb (wh_hook_type h) "webhook" && wh_enabled h)
                 | None => true
                 end
           as InvalidInput "delivery queue hook is missing, disabled, or not a webhook" in
         reject? match qd_alerts d !! qe_alert_id e with
                 | Some a => negb (String.eqb (al_state a) "open")
                 | None => true
                 end
           as InvalidInput "delivery queue alert is missing or is not open" in
         let d := set_queue (<[qe_queue_id e := enqueued_row e]> (qd_queue d)) d in
         let? d := insert_alert_delivery_queue_audit_tx env d actor "alert.delivery.queue.enqueue"
                     (qe_queue_id e) true None
           (VObject [("alert_id", VString (qe_alert_id e)); ("group_key", VString (qe_group_key e));
                     ("hook_id", VString (qe_hook_id e)); ("queue_id", VString (qe_queue_id e));
                     ("state", VString "pending")]) in
         Ok (d, tt)
     | items =>
         check? existsb (fun x => same_item e x.1 x.2) items
           else AlertMutationConflict (qe_queue_id e)
                  "delivery queue identity or idempotency key is already bound" in
         check? bool_decide (enqueue_actor d (qe_queue_id e) = Some actor)
           else AlertMutationConflict (qe_queue_id e)
                  "delivery queue audit provenance is mismatched or missing" in
         Ok (d, tt)
     end).

Definition write_alert_delivery_queue_claim_next env (d : QueueDb) (owner_id now : string)
    (lease_seconds : Z) actor : QueueDb * result StoreError (option AlertDeliveryQueueClaim) :=
  transact d
    (let? _ := map_err InvalidInput (validate_actor actor) in
     let? now_instant := validate_alert_delivery_queue_claim_input owner_id now lease_seconds in
     let lease := rfc3339_format (now_instant + lease_seconds * 1000000000) in
     let? d := recover_expired_alert_delivery_claims_tx env d now_instant now actor in
     let? candidates := page_instants "stored alert delivery next_attempt_at is invalid"
       (queue_page waiting qr_next_attempt_at d) in
     match due_first now_instant candidates with
     | [] => Ok (d, None)
     | (id, _) :: _ =>
         let? row := ok_or (qd_queue d !! id)
           (AlertMutationConflict id "delivery queue item changed before claim") in
         let d := set_queue (<[id := claimed_row owner_id now lease row]> (qd_queue d)) d in
         let? found := get_alert_delivery_queue_claim_tx d id in
         let? claim := ok_or found
           (AlertMutationConflict id "claimed delivery queue item disappeared") in
         let? d := insert_alert_delivery_queue_audit_tx env d actor "alert.delivery.queue.claim"
                     (qc_queue_id claim) true None
                     (alert_delivery_claim_audit_json claim "claimed") in
         Ok (d, Some claim)
     end).

Definition with_claim_lease (lease : string) (c : AlertDeliveryQueueClaim)
    : AlertDeliveryQueueClaim :=
  {| qc_queue_id := qc_queue_id c; qc_alert_id := qc_alert_id c; qc_hook_id := qc_hook_id c;
     qc_idempotency_key := qc_idempotency_key c; qc_group_key := qc_group_key c;
     qc_attempt_count := qc_attempt_count c; qc_owner_id := qc_owner_id c;
     qc_fence_token := qc_fence_token c; qc_claimed_at := qc_claimed_at c;
     qc_lease_expires_at := lease |}.

Definition write_alert_delivery_queue_renew env (d : QueueDb) (claim : AlertDeliveryQueueClaim)
    (now : string) (lease_seconds : Z) actor
    : QueueDb * result StoreError AlertDeliveryQueueClaim :=
  transact d
    (let? _ := map_err InvalidInput (validate_actor actor) in
     let? _ := validate_alert_delivery_queue_claim claim in
     let? now_instant := validate_alert_delivery_queue_claim_input (qc_owner_id claim) now
                           lease_seconds in
     let lease := rfc3339_format (now_instant + lease_seconds * 1000000000) in
     let? _ := u64_to_i64 (qc_fence_token claim) in
     let? row := ok_or (held_row d claim now)
       (AlertMutationConflict (qc_queue_id claim) "delivery queue lease or fence was lost") in
     let held := (fun h => (h.1.1, h.1.2, lease)) <$> qr_held row in
     let d := set_queue (<[qc_queue_id claim := with_queue_state Claimed held
                (qr_next_attempt_at row) now (qr_last_error_code row) row]> (qd_queue d)) d in
     let renewed := with_claim_lease lease claim in
     let? d := insert_alert_delivery_queue_audit_tx env d actor "alert.delivery.queue.renew"
                 (qc_queue_id claim) true None
                 (alert_delivery_claim_audit_json renewed "renewed") in
     Ok (d, renewed)).

Definition should_retry (o : AlertDeliveryQueueOutcome) : bool :=
  negb (outcome_succeeded o) && qo_retryable o
  && (qc_attempt_count (qo_claim o) + 1 <? qo_max_attempts o).

Definition outcome_status (o : AlertDeliveryQueueOutcome) : QueueStatus :=
  if outcome_succeeded o then Succeeded else if should_retry o then Retry else DeadLetter.

(** The row an outcome leaves. *)
Definition outcome_row (o : AlertDeliveryQueueOutcome) (next_attempt_at : string) (r : QueueRow)
    : QueueRow :=
  {| qr_alert_id := qr_alert_id r; qr_hook_id := qr_hook_id r;
     qr_idempotency_key := qr_idempotency_key r; qr_group_key := qr_group_key r;
     qr_status := outcome_status o; qr_attempt_count := qc_attempt_count (qo_claim o) + 1;
     qr_next_attempt_at := next_attempt_at; qr_held := None;
     qr_fence_token := qr_fence_token r;
     qr_last_error_code := at_error_code (qo_attempt o); qr_created_at := qr_created_at r;
     qr_updated_at := qo_completed_at o;
     qr_delivered_at := if outcome_succeeded o then Some (qo_completed_at o) else None |}.

Definition with_last_sent (at_ : string) (a : AlertEventRecord) : AlertEventRecord :=
  {| al_alert_id := al_alert_id a; al_dedupe_key := al_dedupe_key a; al_node_id := al_node_id a;
     al_severity := al_severity a; al_state := al_state a; al_reason_code := al_reason_code a;
     al_first_seen_at := al_first_seen_at a; al_last_seen_at := al_last_seen_at a;
     al_last_sent_at := Some at_; al_resolved_at := al_resolved_at a;
     al_detail_json := al_detail_json a |}.

Definition write_alert_delivery_queue_outcome env (d : QueueDb) (o : AlertDeliveryQueueOutcome)
    actor : QueueDb * result StoreError unit :=
  transact d
    (let claim := qo_claim o in
     let? _ := map_err InvalidInput (validate_actor actor) in
     let? _ := validate_alert_delivery_queue_outcome o in
     let? next_attempt_at := if should_retry o
                             then ok_or (qo_retry_at o) (InvalidInput "validated retry timestamp")
                             else Ok (qo_completed_at o) in
     let? _ := u64_to_i64 (qc_fence_token claim) in
     let? _ := u64_to_i64 (qc_attempt_count claim + 1) in
     let? row := ok_or (held_row d claim (qo_completed_at o))
       (AlertMutationConflict (qc_queue_id claim)
          "delivery queue lease or fence was lost before outcome") in
     let d := set_queue (<[qc_queue_id claim := outcome_row o next_attempt_at row]>
                           (qd_queue d)) d in
     let? d := insert_alert_delivery_attempt_tx d (qo_attempt o) in
     let? d := if outcome_succeeded o then
                 let? alert := ok_or (qd_alerts d !! qc_alert_id claim)
                   (AlertMutationConflict (qc_queue_id claim)
                      "delivery alert disappeared before success finalization") in
                 Ok (set_alerts (<[qc_alert_id claim := with_last_sent (qo_completed_at o) alert]>
                                   (qd_alerts d)) d)
               else Ok d in
     let? d := insert_alert_delivery_queue_audit_tx env d actor "alert.delivery.queue.outcome"
                 (qc_queue_id claim) (outcome_succeeded o) (at_error_code (qo_attempt o))
       (VObject [("alert_id", VString (qc_alert_id claim));
                 ("attempt_no", json_u64 (qc_attempt_count claim + 1));
                 ("hook_id", VString (qc_hook_id claim));
                 ("next_attempt_at", if should_retry o then VString next_attempt_at else Null);
                 ("queue_id", VString (qc_queue_id claim));
                 ("state", VString (queue_status_text (outcome_status o)))]) in
     Ok (d, tt)).

Definition write_alert_delivery_queue_defer env (d : QueueDb) (claim : AlertDeliveryQueueClaim)
    (deferred_at next_attempt_at actor : string) : QueueDb * result StoreError unit :=
  transact d
    (let? _ := map_err InvalidInput (validate_actor actor) in
     let? _ := validate_alert_delivery_queue_claim claim in
     let? deferred := validate_rfc3339 deferred_at "delivery deferred_at" in
     let? next := validate_rfc3339 next_attempt_at "delivery next_attempt_at" in
     reject? (next <=? deferred) || (hour_ns <? next - deferred)
       as InvalidInput "delivery defer must be within one hour after deferral" in
     let? _ := u64_to_i64 (qc_fence_token claim) in
     let? row := ok_or (held_row d claim deferred_at)
       (AlertMutationConflict (qc_queue_id claim)
          "delivery queue lease or fence was lost before deferral") in
     let d := set_queue (<[qc_queue_id claim := with_queue_state Retry None next_attempt_at
                deferred_at (qr_last_error_code row) row]> (qd_queue d)) d in
     let? d := insert_alert_delivery_queue_audit_tx env d actor "alert.delivery.queue.defer"
                 (qc_queue_id claim) true None
       (VObject [("group_key", VString (qc_group_key claim));
                 ("hook_id", VString (qc_hook_id claim));
                 ("next_attempt_at", VString next_attempt_at);
                 ("queue_id", VString (qc_queue_id claim)); ("state", VString "retry")]) in
     Ok (d, tt)).
End queue.
