(* ===== verification/SchedulerProtocol.v ===== *)
(** * SchedulerProtocol: claims, fences and runs as a protocol

    [sched_step] is the abstract specification of what one operation may do to
    the claims and the runs; every operation of SchedulerStore is such a step,
    also when it fails.  From the steps follow the fencing theorems: a claim
    that was superseded has no effect any more, a closed run stays closed, and
    a lease excludes other owners until it ends. *)

From S2P Require Import Prelude Text External InputValidation StoreTypes StoredText.
From S2P Require Import StoragePayloads StoreDb Enrollment ObservationPayloads SchedulerStore.

Lemma transact_success {D A} (d : D) (body : result StoreError (D * A)) a :
  (transact d body).2 = Ok a -> exists d', body = Ok (d', a) /\ (transact d body).1 = d'.
Proof. destruct body as [[d' b]|e]; simpl; intros; simplify_eq; eauto. Qed.

(** ** Steps *)

Section protocol.
Context `{EndpointIdOps, TimeOps, JsonOps}.

(** The run that the claim of job [id] still holds is closed when the claim is
    taken over. *)
Definition recovers (d d' : SchedDb) (id : string) : Prop :=
  match sd_claims d !! id ≫= cr_active_run_id with
  | None => sd_runs d' = sd_runs d
  | Some r =>
      exists x, sd_runs d !! r = Some x /\ run_job_id x = Some id /\
        (run_closed x = true /\ sd_runs d' = sd_runs d \/
         run_closed x = false /\ exists t s,
           sd_runs d' = <[r := closed_run "failed" t s x]> (sd_runs d))
  end.

Definition previous_fence (d : SchedDb) (id : string) : Z :=
  match sd_claims d !! id with Some c => cr_fence_token c | None => 0 end.

(** What the start of a run guarantees of it. *)
Definition startable (d : SchedDb) (x : ObservabilityRunInsert) : Prop :=
  is_Some (rfc3339_parse (run_started_at x)) /\
  forall id, run_job_id x = Some id ->
    is_Some (sd_jobs d !! id) /\ validate_fixed_id id 128 "run summary job ID" = Ok tt.

(** What a group of steps may do to a lease: set its end by a renewal, or give
    it up. *)
Record Allowance := {
  al_renew : string -> Z -> Prop;
  al_release : string -> Prop;
}.

Definition anything : Allowance :=
  {| al_renew := fun _ _ => True; al_release := fun _ => True |}.

Definition seconds (n : Z) : Z := n * 1000000000.

Inductive sched_step (al : Allowance) (d d' : SchedDb) : Prop :=
| st_none : sd_claims d' = sd_claims d -> sd_runs d' = sd_runs d -> sched_step al d d'
| st_acquire id owner now t lease :
    rfc3339_parse now = Some t -> 0 < lease -> is_Some (sd_jobs d !! id) ->
    (forall c, sd_claims d !! id = Some c -> lease_active c t = false) ->
    recovers d d' id ->
    sd_claims d' = <[id := {| cr_fence_token := previous_fence d id + 1;
                              cr_held := Some (owner, now, rfc3339_format (t + seconds lease));
                              cr_active_run_id := None; cr_updated_at := now |}]> (sd_claims d) ->
    sched_step al d d'
| st_renew id c t now :
    al_renew al id t ->
    sd_claims d !! id = Some c -> is_Some (cr_owner_id c) ->
    sd_claims d' = <[id := with_lease (rfc3339_format t) now c]> (sd_claims d) ->
    sd_runs d' = sd_runs d -> sched_step al d d'
| st_release id c now :
    al_release al id ->
    sd_claims d !! id = Some c -> is_Some (cr_owner_id c) ->
    sd_claims d' = <[id := {| cr_fence_token := cr_fence_token c; cr_held := None;
                              cr_active_run_id := None; cr_updated_at := now |}]> (sd_claims d) ->
    sd_runs d' = sd_runs d -> sched_step al d d'
| st_start r x :
    sd_runs d !! r = None -> run_closed x = false -> startable d x ->
    sd_runs d' = <[r := x]> (sd_runs d) -> sd_claims d' = sd_claims d -> sched_step al d d'
| st_start_claimed r x id c now :
    sd_runs d !! r = None -> run_closed x = false -> startable d x -> run_job_id x = Some id ->
    sd_runs d' = <[r := x]> (sd_runs d) ->
    sd_claims d !! id = Some c -> is_Some (cr_owner_id c) -> cr_active_run_id c = None ->
    sd_claims d' = <[id := with_active_run (Some r) now c]> (sd_claims d) -> sched_step al d d'
| st_finish r x id status now s :
    sd_runs d !! r = Some x -> run_closed x = false -> run_job_id x = Some id ->
    (forall c, sd_claims d !! id = Some c -> cr_active_run_id c = Some r) ->
    status <> "running" ->
    sd_runs d' = <[r := closed_run status now s x]> (sd_runs d) ->
    sd_claims d' = sd_claims (clear_active_run d id r now) -> sched_step al d d'.

(** ** Frames *)

Lemma sched_transact_step {A} al d (body : result StoreError (SchedDb * A)) :
  (forall d' a, body = Ok (d', a) -> sched_step al d d') -> sched_step al d (transact d body).1.
Proof.
  intros Hb. destruct body as [[d' a]|e]; simpl; [by eapply Hb|by apply st_none].
Qed.

Lemma sched_audit_frame d e d' :
  sched_audit d e = Ok d' -> exists core, d' = set_core core d.
Proof. unfold sched_audit. intros Ha. peel Ha. eauto. Qed.

Lemma claim_audit_frame env d n c actor state d' :
  insert_scheduler_claim_audit_tx env d n c actor state = Ok d' -> exists core, d' = set_core core d.
Proof. apply sched_audit_frame. Qed.

Lemma observation_frame d ob d' :
  insert_probe_observation_tx d ob = Ok d' ->
  sd_claims d' = sd_claims d /\ sd_runs d' = sd_runs d.
Proof. unfold insert_probe_observation_tx. intros Ho. by peel_all Ho. Qed.

Lemma write_entries_frame d entries d' :
  write_entries d entries = Ok d' -> sd_claims d' = sd_claims d /\ sd_runs d' = sd_runs d.
Proof.
  revert d. induction entries as [|e entries IH]; intros d Hw; simpl in Hw; [by simplify_eq|].
  destruct (insert_probe_observation_tx _ _) as [d1|] eqn:Ho; [|done].
  destruct (sched_audit _ _) as [d2|] eqn:Ha; [|done].
  apply observation_frame in Ho as [<- <-]. apply sched_audit_frame in Ha as [core ->].
  by apply IH in Hw.
Qed.

Lemma clock_frame env d clock d' :
  update_scheduler_job_clock_tx env d clock = Ok d' ->
  sd_claims d' = sd_claims d /\ sd_runs d' = sd_runs d.
Proof. unfold update_scheduler_job_clock_tx. intros Hu. by peel_deep Hu. Qed.

Lemma claim_row_some d claim c :
  claim_row d claim = Some c ->
  sd_claims d !! cl_job_id claim = Some c /\ cr_owner_id c = Some (cl_owner_id claim) /\
  cr_fence_token c = cl_fence_token claim.
Proof. unfold claim_row. intros Hr. peel Hr. bool_facts. done. Qed.

End protocol.

(** Turn the audit inserts of a body into their frames. *)
Ltac audit_frames :=
  repeat match goal with
  | Ha : sched_audit _ _ = Ok _ |- _ => apply sched_audit_frame in Ha as [? ->]
  | Ha : insert_scheduler_claim_audit_tx _ _ _ _ _ _ = Ok _ |- _ =>
      apply claim_audit_frame in Ha as [? ->]
  end.

(** ** Every operation is a step *)

Section steps.
Context `{EndpointIdOps, TimeOps, JsonOps}.

Lemma insert_job_step al env d job actor : sched_step al d (insert_observability_job env d job actor).1.
Proof.
  apply sched_transact_step. intros d' a Hb. peel_all Hb; audit_frames; by apply st_none.
Qed.

Lemma set_enabled_step al env d id on actor :
  sched_step al d (set_observability_job_enabled env d id on actor).1.
Proof.
  apply sched_transact_step. intros d' a Hb. peel_all Hb; audit_frames; by apply st_none.
Qed.

Lemma maintenance_step al env d w actor : sched_step al d (set_scheduler_maintenance env d w actor).1.
Proof.
  apply sched_transact_step. intros d' a Hb. peel_all Hb; audit_frames; by apply st_none.
Qed.

Lemma clear_maintenance_step al env d at_ actor :
  sched_step al d (clear_scheduler_maintenance env d at_ actor).1.
Proof.
  apply sched_transact_step. intros d' a Hb. peel_all Hb; audit_frames; by apply st_none.
Qed.

Lemma outcome_step al env d outcome actor : sched_step al d (write_scheduler_outcome env d outcome actor).1.
Proof.
  apply sched_transact_step. intros d' a Hb. peel_in Hb; simplify_eq.
  match goal with Hw : write_entries _ _ = Ok _ |- _ => apply write_entries_frame in Hw as [??] end.
  destruct (ow_job_clock outcome) as [clock|]; simplify_eq; [|by apply st_none].
  match goal with Hc : update_scheduler_job_clock_tx _ _ _ = Ok _ |- _ =>
    apply clock_frame in Hc as [??] end.
  apply st_none; congruence.
Qed.

Lemma renew_step al env d claim now lease actor :
  (forall t, rfc3339_parse now = Some t -> al_renew al (cl_job_id claim) (t + seconds lease)) ->
  sched_step al d (renew_scheduler_job_claim env d claim now lease actor).1.
Proof.
  intros Hal. apply sched_transact_step. unfold scheduler_lease_expiry.
  intros d' a Hb. peel_in Hb. unwrap; audit_frames.
  match goal with Hl : (match ok_or _ _ with _ => _ end) = Ok _ |- _ => peel_all Hl end.
  simplify_eq.
  match goal with Hr : claim_row _ _ = Some _ |- _ => apply claim_row_some in Hr as (?&?&?) end.
  eapply st_renew; eauto; done.
Qed.

Lemma release_step al env d claim at_ actor :
  al_release al (cl_job_id claim) ->
  sched_step al d (release_scheduler_job_claim env d claim at_ actor).1.
Proof.
  intros Hal. apply sched_transact_step. intros d' a Hb. peel_all Hb; audit_frames.
  match goal with Hr : claim_row _ _ = Some _ |- _ => apply claim_row_some in Hr as (?&?&?) end.
  eapply st_release; eauto; done.
Qed.

Lemma recover_frame env d id r now actor d' c :
  sd_claims d !! id = Some c -> cr_active_run_id c = Some r ->
  recover_expired_scheduler_run_tx env d id r now actor = Ok d' ->
  sd_claims d' = sd_claims d /\ recovers d d' id.
Proof.
  unfold recover_expired_scheduler_run_tx, recovers, get_observability_run_state_tx.
  intros Hc Hr Hb. rewrite Hc. cbn. rewrite Hr. peel_all Hb; audit_frames.
  - split; [done|]. eauto 8.
  - split; [done|]. eexists. split_and!; [done..|]. right. eauto.
Qed.

Lemma no_recovery d id d' :
  sd_claims d !! id ≫= cr_active_run_id = None -> sd_runs d' = sd_runs d -> recovers d d' id.
Proof. unfold recovers. by intros ->. Qed.

(** A claim taken at instant [t] for [lease] seconds. *)
Record acquired (d d' : SchedDb) (c : SchedulerJobClaim) (t lease : Z) : Prop := {
  acq_now : rfc3339_parse (cl_claimed_at c) = Some t;
  acq_job : is_Some (sd_jobs d !! cl_job_id c);
  acq_lease : cl_lease_expires_at c = rfc3339_format (t + seconds lease);
  acq_free : forall row, sd_claims d !! cl_job_id c = Some row -> lease_active row t = false;
  acq_fence : cl_fence_token c = previous_fence d (cl_job_id c) + 1;
  acq_run : recovers d d' (cl_job_id c);
  acq_claims : sd_claims d' = <[cl_job_id c :=
    {| cr_fence_token := cl_fence_token c;
       cr_held := Some (cl_owner_id c, cl_claimed_at c, cl_lease_expires_at c);
       cr_active_run_id := None; cr_updated_at := cl_claimed_at c |}]> (sd_claims d);
}.

Lemma acquire_spec env d id owner now lease actor due d' r :
  acquire_scheduler_claim_tx env d id owner now lease actor due = Ok (d', r) ->
  d' = d /\ r = None \/
  exists c t, r = Some c /\ cl_job_id c = id /\ cl_owner_id c = owner /\ cl_claimed_at c = now /\
              acquired d d' c t lease.
Proof.
  unfold acquire_scheduler_claim_tx, scheduler_lease_expiry. intros Hb.
  peel_all Hb; try by left.
  right. audit_frames. unfold checked_add in *.
  destruct (_ <=? i64_max); simplify_eq.
  match goal with
  | Hr : (match _ with Some _ => _ | None => _ end) = Ok ?s |- _ =>
      assert (sd_claims s = sd_claims d /\ recovers d s id) as [Hs Hrec]
  end.
  { destruct (sd_claims d !! id) as [c|] eqn:Ec; cbn in *.
    - destruct (cr_active_run_id c) as [run|] eqn:Er; simplify_eq; [by eapply recover_frame|].
      split; [done|]. apply no_recovery; [by rewrite Ec|done].
    - simplify_eq. split; [done|]. apply no_recovery; [by rewrite Ec|done]. }
  eexists _, _. split_and!; [done..|]. split; simpl; [done|done|done| |done|exact Hrec|by rewrite Hs].
  intros c Hc. by rewrite Hc in *.
Qed.

Lemma acquired_step al d d' c t lease :
  0 < lease -> acquired d d' c t lease -> sched_step al d d'.
Proof.
  intros Hl [Hn Hj He Hf Hfe Hr Hc]. rewrite He, Hfe in Hc.
  by eapply (st_acquire _ _ _ _ (cl_owner_id c) _ t lease).
Qed.

Lemma claim_input_lease owner now lease actor u :
  validate_scheduler_claim_input owner now lease actor = Ok u -> 0 < lease.
Proof.
  unfold validate_scheduler_claim_input, validate_u64_range, MIN_SCHEDULER_LEASE_SECONDS.
  intros Hv. peel_deep Hv. lia.
Qed.

Lemma claim_input_bound owner now lease actor u :
  validate_scheduler_claim_input owner now lease actor = Ok u -> lease <= i64_max.
Proof.
  unfold validate_scheduler_claim_input, validate_u64_range, MAX_SCHEDULER_LEASE_SECONDS, i64_max.
  intros Hv. peel_deep Hv. lia.
Qed.

Lemma claim_next_spec env d owner now lease actor d' r :
  claim_next_due_scheduler_job env d owner now lease actor = (d', r) ->
  d' = d /\ (forall c, r <> Ok (Some c)) \/
  exists c t, 0 < lease /\ r = Ok (Some c) /\ cl_owner_id c = owner /\ cl_claimed_at c = now /\
              acquired d d' c t lease.
Proof.
  unfold claim_next_due_scheduler_job, transact. intros Hb.
  destruct (validate_scheduler_claim_input _ _ _ _) eqn:Hv; cbn in Hb; [|by simplify_eq; left].
  apply claim_input_lease in Hv. destruct (next_due_job d now); [|by simplify_eq; left].
  destruct (acquire_scheduler_claim_tx _ _ _ _ _ _ _ _) as [[d1 r1]|] eqn:Ha; simplify_eq;
    [|by left].
  apply acquire_spec in Ha as [[-> ->]|(c & t & -> & _ & Ho & Hn & Ha)]; [by left|right; eauto 9].
Qed.

Lemma claim_job_spec env d id owner now lease actor due d' r :
  claim_job env d id owner now lease actor due = (d', r) ->
  d' = d /\ (forall c, r <> Ok (Some c)) \/
  exists c t, 0 < lease /\ r = Ok (Some c) /\ cl_owner_id c = owner /\ cl_claimed_at c = now /\
              acquired d d' c t lease.
Proof.
  unfold claim_job, transact. intros Hb.
  destruct (validate_safe_id _ _ _); cbn in Hb; [|by simplify_eq; left].
  destruct (validate_scheduler_claim_input _ _ _ _) eqn:Hv; cbn in Hb; [|by simplify_eq; left].
  apply claim_input_lease in Hv.
  destruct (acquire_scheduler_claim_tx _ _ _ _ _ _ _ _) as [[d1 r1]|] eqn:Ha; simplify_eq;
    [|by left].
  apply acquire_spec in Ha as [[-> ->]|(c & t & -> & _ & Ho & Hn & Ha)]; [by left|right; eauto 9].
Qed.

Lemma claim_next_step al env d owner now lease actor :
  sched_step al d (claim_next_due_scheduler_job env d owner now lease actor).1.
Proof.
  destruct (claim_next_due_scheduler_job _ _ _ _ _ _) eqn:E.
  apply claim_next_spec in E as [[-> _]|(c & t & Hl & _ & _ & _ & Ha)]; [by apply st_none|].
  by eapply acquired_step.
Qed.

Lemma claim_job_step al env d id owner now lease actor due :
  sched_step al d (claim_job env d id owner now lease actor due).1.
Proof.
  destruct (claim_job _ _ _ _ _ _ _ _) eqn:E.
  apply claim_job_spec in E as [[-> _]|(c & t & Hl & _ & _ & _ & Ha)]; [by apply st_none|].
  by eapply acquired_step.
Qed.

Lemma rsp_valid_id p id :
  rsp_validate p = Ok tt -> rsp_job_id p = Some id ->
  validate_fixed_id id 128 "run summary job ID" = Ok tt.
Proof.
  unfold rsp_validate. intros Hv Hj. rewrite Hj in Hv. by peel_in Hv; unwrap.
Qed.

Lemma rsp_from_value_valid v p : rsp_from_value v = Ok p -> rsp_validate p = Ok tt.
Proof. unfold rsp_from_value. intros Hv. by peel_all Hv. Qed.

Lemma rsp_new_valid id kind st tr n f p : rsp_new id kind st tr n f = Ok p -> rsp_validate p = Ok tt.
Proof. unfold rsp_new. intros Hv. by peel_all Hv. Qed.

Lemma rsp_from_legacy_valid id kind st tr v p :
  rsp_from_legacy id kind st tr v = Ok p -> rsp_validate p = Ok tt.
Proof. unfold rsp_from_legacy. intros Hv. peel_in Hv. by eapply rsp_new_valid. Qed.

Lemma canonical_run_summary_id id kind status trigger v v' :
  canonical_run_summary (Some id) kind status trigger v = Ok v' ->
  validate_fixed_id id 128 "run summary job ID" = Ok tt.
Proof.
  unfold canonical_run_summary, rsp_validate_relationship. intros Hc. peel_all Hc.
  eapply rsp_valid_id; [|done].
  case_match; simplify_eq; [by eapply rsp_from_value_valid|by eapply rsp_from_legacy_valid].
Qed.

Lemma insert_run_frame d run d' :
  insert_observability_run_tx d run = Ok d' ->
  sd_runs d !! run_id run = None /\ sd_claims d' = sd_claims d /\
  (forall id, run_job_id run = Some id -> validate_fixed_id id 128 "run summary job ID" = Ok tt) /\
  exists s, sd_runs d' = <[run_id run := with_run_summary s run]> (sd_runs d).
Proof.
  unfold insert_observability_run_tx. intros Hb. peel_all Hb.
  split_and!; [by apply eq_None_not_Some|done| |eauto].
  intros id Hj. rewrite Hj in *. by eapply canonical_run_summary_id.
Qed.

Lemma bind_run_frame d start claim d' :
  bind_run_tx d start claim = Ok d' ->
  exists c, claim_row d claim = Some c /\ cr_active_run_id c = None /\
    d' = set_claims (<[cl_job_id claim :=
           with_active_run (Some (rs_run_id start)) (rs_started_at start) c]> (sd_claims d)) d.
Proof.
  unfold bind_run_tx. intros Hb. peel_all Hb. eauto.
Qed.

Lemma validated_instant s f t : validate_bounded_rfc3339 s f = Ok t -> rfc3339_parse s = Some t.
Proof. unfold validate_bounded_rfc3339. intros Hv. by peel_all Hv. Qed.

Lemma run_start_step al env d start claim actor :
  sched_step al d (write_scheduler_run_start_with_claim env d start claim actor).1.
Proof.
  apply sched_transact_step. intros d' a Hb. peel_in Hb; simplify_eq. unwrap. audit_frames.
  match goal with Hi : insert_observability_run_tx _ _ = Ok _ |- _ =>
    apply insert_run_frame in Hi as (Hnew & Hcl & Hfix & sm & Hruns) end. cbn in *.
  match type of Hruns with _ = <[_ := ?x]> _ => assert (startable d x) as Hst end.
  { split; [eexists; by eapply validated_instant|]. intros id Hid. simpl in Hid. simplify_eq. eauto. }
  destruct claim as [claim|]; simplify_eq;
    [|by refine (st_start al d (set_core _ _) _ _ Hnew _ Hst Hruns Hcl)].
  match goal with Hi : bind_run_tx _ _ _ = Ok _ |- _ =>
    apply bind_run_frame in Hi as (c & Hrow & Hact & ->) end.
  match goal with Hv : (match validate_scheduler_claim _ with _ => _ end) = Ok _ |- _ =>
    peel_all Hv end.
  apply claim_row_some in Hrow as (Hcr & Ho & _). rewrite Hcl in Hcr.
  assert (is_Some (cr_owner_id c)) as Hown by (by rewrite Ho).
  refine (st_start_claimed al d (set_core _ (set_claims _ _)) _ _ (cl_job_id claim) c
            (rs_started_at start) Hnew _ Hst _ Hruns _ Hown Hact _); cbn; congruence.
Qed.

Lemma finish_status_closed o f : finish_status o f <> "running".
Proof. unfold finish_status. by repeat case_match. Qed.

Lemma active_claim_some d id run at_ u c :
  ensure_active_scheduler_run_claim_tx d id run at_ = Ok u -> sd_claims d !! id = Some c ->
  cr_active_run_id c = Some run /\ is_Some (cr_owner_id c) /\
  exists t, rfc3339_parse at_ = Some t /\ lease_active c t = true.
Proof.
  unfold ensure_active_scheduler_run_claim_tx. intros He Hc. rewrite Hc in He. peel_all He. eauto 8.
Qed.

Lemma clear_active_frame d d2 id run at_ :
  sd_claims d2 = sd_claims d ->
  sd_claims (clear_active_run d2 id run at_) = sd_claims (clear_active_run d id run at_) /\
  sd_runs (clear_active_run d2 id run at_) = sd_runs d2.
Proof.
  intros He. unfold clear_active_run. rewrite He. by repeat case_match; simpl; rewrite ?He.
Qed.

Lemma run_finish_step al env d finish actor :
  sched_step al d (write_scheduler_run_finish env d finish actor).1.
Proof.
  apply sched_transact_step. intros d' a Hb. peel_in Hb; simplify_eq. unwrap. audit_frames.
  match goal with Hc : update_scheduler_job_clock_tx _ _ _ = Ok ?s |- _ =>
    apply clock_frame in Hc as [Hcl Hr]; cbn in Hcl, Hr;
    destruct (clear_active_frame d s (ck_job_id (rf_job_clock finish)) (rf_run_id finish)
                (rf_finished_at finish) Hcl) as [Hk1 Hk2] end.
  bool_facts. unfold ensure_running_observability_run in *. unwrap.
  eapply (st_finish _ _ _ (rf_run_id finish)); eauto.
  - intros c ?. by eapply active_claim_some.
  - apply finish_status_closed.
  - cbn. by rewrite Hk2.
Qed.
End steps.
