(* ===== verification/SchedulerFencing.v ===== *)
(** * SchedulerFencing: what holds over every sequence of scheduler operations

    Scripts of scheduler operations, and what every script preserves: fences
    only grow, closed runs stay as they are, a superseded claim has no effect,
    a lease excludes other owners, job clocks never go back. *)

From S2P Require Import Prelude Text External InputValidation StoreTypes StoredText.
From S2P Require Import StoragePayloads StoreDb Enrollment ObservationPayloads SchedulerStore.
From S2P Require Import SchedulerProtocol.

(** ** Scripts *)

Inductive SchedOp :=
| SJobAdd (job : ObservabilityJobRecord) (actor : string)
| SJobEnabled (id : string) (enabled : bool) (actor : string)
| SMaintenanceSet (window : SchedulerMaintenanceWindow) (actor : string)
| SMaintenanceClear (cleared_at actor : string)
| SClaimNext (owner now : string) (lease : Z) (actor : string)
| SClaimJob (id owner now : string) (lease : Z) (actor : string) (due : bool)
| SRenew (claim : SchedulerJobClaim) (now : string) (lease : Z) (actor : string)
| SRelease (claim : SchedulerJobClaim) (released_at actor : string)
| SRunStart (start : SchedulerRunStart) (claim : option SchedulerJobClaim) (actor : string)
| SOutcome (outcome : SchedulerOutcomeWrite) (actor : string)
| SRunFinish (finish : SchedulerRunFinish) (actor : string).

Section scripts.
Context `{EndpointIdOps, TimeOps, JsonOps}.

Definition sched_apply (env : StoreEnv) (op : SchedOp) (d : SchedDb) : SchedDb :=
  match op with
  | SJobAdd job actor => (insert_observability_job env d job actor).1
  | SJobEnabled id enabled actor => (set_observability_job_enabled env d id enabled actor).1
  | SMaintenanceSet w actor => (set_scheduler_maintenance env d w actor).1
  | SMaintenanceClear t actor => (clear_scheduler_maintenance env d t actor).1
  | SClaimNext owner now lease actor =>
      (claim_next_due_scheduler_job env d owner now lease actor).1
  | SClaimJob id owner now lease actor due =>
      (claim_job env d id owner now lease actor due).1
  | SRenew claim now lease actor => (renew_scheduler_job_claim env d claim now lease actor).1
  | SRelease claim t actor => (release_scheduler_job_claim env d claim t actor).1
  | SRunStart start claim actor =>
      (write_scheduler_run_start_with_claim env d start claim actor).1
  | SOutcome outcome actor => (write_scheduler_outcome env d outcome actor).1
  | SRunFinish finish actor => (write_scheduler_run_finish env d finish actor).1
  end.

Fixpoint run_sched (script : list (StoreEnv * SchedOp)) (d : SchedDb) : SchedDb :=
  match script with
  | [] => d
  | (env, op) :: script' => run_sched script' (sched_apply env op d)
  end.

(** The claim that an operation hands out. *)
Definition sched_claimed (env : StoreEnv) (op : SchedOp) (d : SchedDb)
    : option SchedulerJobClaim :=
  let claimed r := match r with Ok (Some c) => Some c | _ => None end in
  match op with
  | SClaimNext owner now lease actor =>
      claimed (claim_next_due_scheduler_job env d owner now lease actor).2
  | SClaimJob id owner now lease actor due =>
      claimed (claim_job env d id owner now lease actor due).2
  | _ => None
  end.

(** The operation ends no lease on job [id] before the instant [until]. *)
Definition keeps_lease (id : string) (until : Z) (op : SchedOp) : bool :=
  match op with
  | SRenew claim now lease _ =>
      negb (String.eqb (cl_job_id claim) id)
      || match rfc3339_parse now with Some t => until <=? t + seconds lease | None => true end
  | SRelease claim _ _ => negb (String.eqb (cl_job_id claim) id)
  | _ => true
  end.

Definition keeping (id : string) (until : Z) : Allowance :=
  {| al_renew := fun j t => j = id -> until <= t; al_release := fun j => j <> id |}.

Lemma sched_apply_step al env op d :
  match op with
  | SRenew claim now lease _ =>
      forall t, rfc3339_parse now = Some t -> al_renew al (cl_job_id claim) (t + seconds lease)
  | SRelease claim _ _ => al_release al (cl_job_id claim)
  | _ => True
  end -> sched_step al d (sched_apply env op d).
Proof.
  destruct op; simpl; intros Hal.
  - apply insert_job_step. - apply set_enabled_step. - apply maintenance_step.
  - apply clear_maintenance_step. - apply claim_next_step. - apply claim_job_step.
  - by apply renew_step. - by apply release_step. - apply run_start_step.
  - apply outcome_step. - apply run_finish_step.
Qed.

Lemma any_step env op d : sched_step anything d (sched_apply env op d).
Proof. by apply sched_apply_step; destruct op. Qed.

Lemma keeping_step id until env op d :
  keeps_lease id until op = true -> sched_step (keeping id until) d (sched_apply env op d).
Proof.
  intros Hk. apply sched_apply_step. destruct op; simpl in *; try done.
  - intros t Ht He. rewrite Ht, He, String.eqb_refl in Hk. simpl in Hk. by bool_facts.
  - intros He. by rewrite He, String.eqb_refl in Hk.
Qed.

(** ** What a step preserves *)

(** Claims and fences only grow; runs keep their job, closed runs everything. *)
Record sched_later (d d' : SchedDb) : Prop := {
  later_claim : forall id, is_Some (sd_claims d !! id) -> is_Some (sd_claims d' !! id);
  later_fence : forall id, previous_fence d id <= previous_fence d' id;
  later_run : forall r x, sd_runs d !! r = Some x ->
    exists x', sd_runs d' !! r = Some x' /\ run_job_id x' = run_job_id x /\
               (run_closed x = true -> x' = x);
}.

#[export] Instance sched_later_preorder : PreOrder sched_later.
Proof.
  split.
  - intros d. split; [done..|]. eauto.
  - intros d1 d2 d3 H12 H23. split.
    + intros id Hi. by apply H23, H12.
    + intros id. etrans; [apply H12|apply H23].
    + intros r x Hx. destruct (later_run _ _ H12 r x Hx) as (y & Hy & Hj & Hc).
      destruct (later_run _ _ H23 r y Hy) as (z & Hz & Hj' & Hc').
      exists z. split_and!; [done|congruence|]. intros Hcl. rewrite Hc' by (by rewrite Hc). auto.
Qed.

(** Steps that change one claim, and at most one run. *)
Lemma later_intro d d' :
  (sd_claims d' = sd_claims d \/
   exists id c, sd_claims d' = <[id := c]> (sd_claims d) /\
                previous_fence d id <= cr_fence_token c) ->
  (sd_runs d' = sd_runs d \/
   exists r x, sd_runs d' = <[r := x]> (sd_runs d) /\
     (forall y, sd_runs d !! r = Some y -> run_closed y = false /\ run_job_id x = run_job_id y)) ->
  sched_later d d'.
Proof.
  intros Hc Hr. split.
  - intros i [c0 Hi]. destruct Hc as [->|(id & c & -> & _)]; [by eexists|].
    destruct (decide (id = i)) as [->|]; [by rewrite lookup_insert_eq|].
    rewrite lookup_insert_ne by done. by eexists.
  - intros i. unfold previous_fence in *.
    destruct Hc as [->|(id & c & -> & Hf)]; [done|].
    destruct (decide (id = i)) as [->|]; [by rewrite lookup_insert_eq|].
    by rewrite lookup_insert_ne by done.
  - intros i y Hy. destruct Hr as [->|(r & x & -> & Hx)]; [eauto|].
    destruct (decide (r = i)) as [->|]; [|rewrite lookup_insert_ne by done; eauto].
    destruct (Hx y Hy) as [Hcl Hj]. rewrite lookup_insert_eq. exists x.
    split_and!; [done..|]. by rewrite Hcl.
Qed.

Lemma clear_active_cases d id r now :
  sd_claims (clear_active_run d id r now) = sd_claims d \/
  exists c, sd_claims d !! id = Some c /\ cr_active_run_id c = Some r /\
    sd_claims (clear_active_run d id r now) = <[id := with_active_run None now c]> (sd_claims d).
Proof.
  unfold clear_active_run. destruct (sd_claims d !! id) as [c|] eqn:Ec; [|by left].
  case_bool_decide; [|by left]. right. eauto.
Qed.

Lemma recovers_runs d d' id :
  recovers d d' id ->
  sd_runs d' = sd_runs d \/
  exists r x, sd_runs d' = <[r := x]> (sd_runs d) /\
    (forall y, sd_runs d !! r = Some y -> run_closed y = false /\ run_job_id x = run_job_id y).
Proof.
  unfold recovers. intros Hr. case_match; [|by left].
  destruct Hr as (x & Hx & Hj & [[_ ?]|(Hcl & t & sm & ->)]); [by left|].
  right. eexists _, _. split; [done|]. intros y Hy. by simplify_eq.
Qed.

Lemma step_later al d d' : sched_step al d d' -> sched_later d d'.
Proof.
  destruct 1; apply later_intro; eauto; unfold previous_fence in *.
  all: try (by right; eexists _, _; split; [done|]; intros; simplify_eq).
  all: try (right; eexists _, _; split; [done|]; simplify_option_eq; done).
  - right. eexists _, _. split; [done|]. simpl. lia.
  - by eapply recovers_runs.
  - match goal with Hk' : sd_claims d' = _ |- _ => rewrite Hk' end.
    destruct (clear_active_cases d id r now) as [Hk|(c & Hc & _ & Hk)]; rewrite Hk; [by left|].
    right. eexists _, _. split; [done|]. by simplify_option_eq.
Qed.

Lemma script_later script d : sched_later d (run_sched script d).
Proof.
  revert d. induction script as [|[env op] script IH]; intros d; simpl; [done|].
  etrans; [|apply IH]. eapply step_later, any_step.
Qed.

(** ** Claims *)

Lemma sched_claimed_spec env op d c :
  sched_claimed env op d = Some c ->
  exists t lease, 0 < lease /\ acquired d (sched_apply env op d) c t lease.
Proof.
  destruct op; simpl; intros Hc; try done.
  - destruct (claim_next_due_scheduler_job _ _ _ _ _ _) as [d' r] eqn:E. simpl in *.
    apply claim_next_spec in E as [[_ Hn]|(c' & t & Hl & -> & _ & _ & Ha)]; simplify_eq; eauto.
    destruct r as [[?|]|]; simplify_eq. by destruct (Hn c).
  - destruct (claim_job _ _ _ _ _ _ _ _) as [d' r] eqn:E. simpl in *.
    apply claim_job_spec in E as [[_ Hn]|(c' & t & Hl & -> & _ & _ & Ha)]; simplify_eq; eauto.
    destruct r as [[?|]|]; simplify_eq. by destruct (Hn c).
Qed.

Lemma acquired_fence d d' c t lease :
  acquired d d' c t lease -> previous_fence d' (cl_job_id c) = cl_fence_token c.
Proof. intros Ha. unfold previous_fence. by rewrite (acq_claims _ _ _ _ _ Ha), lookup_insert_eq. Qed.

Lemma claim_row_fence d c row :
  claim_row d c = Some row -> previous_fence d (cl_job_id c) = cl_fence_token c.
Proof. intros (Hr & _ & Hf)%claim_row_some. unfold previous_fence. by rewrite Hr. Qed.

(** The operations that present a claim compare its fence with the row's. *)
Lemma renew_fence env d c now lease actor r :
  (renew_scheduler_job_claim env d c now lease actor).2 = Ok r ->
  previous_fence d (cl_job_id c) = cl_fence_token c.
Proof.
  unfold renew_scheduler_job_claim, transact. intros Hr.
  destruct (claim_row d c) as [row|] eqn:Ec; [by eapply claim_row_fence|].
  peel_in Hr; simplify_eq. by repeat case_match; simplify_eq.
Qed.

Lemma release_fence env d c at_ actor r :
  (release_scheduler_job_claim env d c at_ actor).2 = Ok r ->
  previous_fence d (cl_job_id c) = cl_fence_token c.
Proof.
  unfold release_scheduler_job_claim, transact. intros Hr.
  destruct (claim_row d c) as [row|] eqn:Ec; [by eapply claim_row_fence|].
  peel_in Hr; simplify_eq. by repeat case_match; simplify_eq.
Qed.

Lemma run_start_fence env d start c actor r :
  (write_scheduler_run_start_with_claim env d start (Some c) actor).2 = Ok r ->
  previous_fence d (cl_job_id c) = cl_fence_token c.
Proof.
  intros (d' & Hb & _)%transact_success. peel_in Hb; simplify_eq.
  match goal with Hi : insert_observability_run_tx _ _ = Ok _ |- _ =>
    apply insert_run_frame in Hi as (_ & Hcl & _) end.
  match goal with Hi : bind_run_tx _ _ _ = Ok _ |- _ =>
    apply bind_run_frame in Hi as (row & Hrow & _) end.
  apply claim_row_fence in Hrow. unfold previous_fence in *. by rewrite Hcl in Hrow.
Qed.

(** ** Runs *)

(** Results are only accepted for an open run that no other claim displaced. *)
Lemma outcome_open env d outcome actor r x :
  (write_scheduler_outcome env d outcome actor).2 = Ok tt ->
  ow_run_id outcome = Some r -> sd_runs d !! r = Some x ->
  run_closed x = false /\ run_job_id x = Some (ow_job_id outcome) /\
  forall c, sd_claims d !! ow_job_id outcome = Some c -> cr_active_run_id c = Some r.
Proof.
  intros (d' & Hb & _)%transact_success Hr Hx. rewrite Hr in Hb. peel_in Hb; simplify_eq.
  match goal with Ho : check_outcome_run _ _ _ = Ok _ |- _ =>
    unfold check_outcome_run, get_observability_run_state_tx in Ho; rewrite Hx in Ho; simpl in Ho;
    peel_in Ho; simplify_eq end.
  bool_facts. unfold ensure_running_observability_run in *. unwrap. split_and!; [done..|].
  intros c ?. by eapply active_claim_some.
Qed.

Lemma finish_open env d finish actor x :
  (write_scheduler_run_finish env d finish actor).2 = Ok tt ->
  sd_runs d !! rf_run_id finish = Some x ->
  run_closed x = false /\ run_job_id x = Some (ck_job_id (rf_job_clock finish)) /\
  forall c, sd_claims d !! ck_job_id (rf_job_clock finish) = Some c ->
            cr_active_run_id c = Some (rf_run_id finish).
Proof.
  intros (d' & Hb & _)%transact_success Hx. unfold get_observability_run_state_tx in Hb.
  rewrite Hx in Hb. simpl in Hb. peel_in Hb; simplify_eq.
  bool_facts. unfold ensure_running_observability_run in *. unwrap. split_and!; [done..|].
  intros c ?. by eapply active_claim_some.
Qed.

(** A run that is closed once refuses every later result. *)
Lemma closed_refuses env d r x :
  sd_runs d !! r = Some x -> run_closed x = true ->
  (forall outcome actor, ow_run_id outcome = Some r ->
     (write_scheduler_outcome env d outcome actor).2 <> Ok tt) /\
  (forall finish actor, rf_run_id finish = r ->
     (write_scheduler_run_finish env d finish actor).2 <> Ok tt).
Proof.
  intros Hx Hcl. split.
  - intros outcome actor Ho Hok. destruct (outcome_open _ _ _ _ _ _ Hok Ho Hx). congruence.
  - intros finish actor <- Hok. destruct (finish_open _ _ _ _ _ Hok Hx). congruence.
Qed.

Lemma takeover_closes d d' c t lease r row :
  acquired d d' c t lease -> sd_claims d !! cl_job_id c = Some row ->
  cr_active_run_id row = Some r ->
  exists x, sd_runs d' !! r = Some x /\ run_closed x = true /\ run_job_id x = Some (cl_job_id c).
Proof.
  intros Ha Hrow Hr. pose proof (acq_run _ _ _ _ _ Ha) as Hrec. unfold recovers in Hrec.
  rewrite Hrow in Hrec. simpl in Hrec. rewrite Hr in Hrec.
  destruct Hrec as (x & Hx & Hj & [[Hcl ->]|(Hcl & ft & sm & ->)]); [eauto|].
  rewrite lookup_insert_eq. eauto.
Qed.

(** ** Runs that lost their claim *)

(** The run [r] of job [id] is open, and the claim of the job is not its. *)
Definition orphaned (id r : string) (x : ObservabilityRunInsert) (d : SchedDb) : Prop :=
  sd_runs d !! r = Some x /\ run_closed x = false /\ run_job_id x = Some id /\
  exists c, sd_claims d !! id = Some c /\ cr_active_run_id c <> Some r.

Lemma orphaned_intro id r x d d' :
  orphaned id r x d ->
  (sd_runs d' = sd_runs d \/ exists r' x', r' <> r /\ sd_runs d' = <[r' := x']> (sd_runs d)) ->
  (sd_claims d' = sd_claims d \/ exists id' c,
     (id' = id -> cr_active_run_id c <> Some r) /\ sd_claims d' = <[id' := c]> (sd_claims d)) ->
  orphaned id r x d'.
Proof.
  intros (Hx & Hcl & Hj & c & Hc & Hn) Hr Hk. split_and!; [|done..|].
  - destruct Hr as [->|(r' & x' & Hne & ->)]; [done|]. by rewrite lookup_insert_ne.
  - destruct Hk as [->|(id' & c' & Hc' & ->)]; [by eauto|].
    destruct (decide (id' = id)) as [->|]; [rewrite lookup_insert_eq; eauto|].
    rewrite lookup_insert_ne by done. eauto.
Qed.

Lemma orphaned_step al id r x d d' :
  sched_step al d d' -> orphaned id r x d -> orphaned id r x d'.
Proof.
  intros Hs Ho. pose proof Ho as (Hx & Hcl & Hj & c0 & Hc0 & Hn0).
  destruct Hs as [Hk Hr|id' owner now t lease _ _ _ _ Hrec Hk|id' c t now _ Hc _ Hk Hr
    |id' c now _ Hc _ Hk Hr|r' x' Hnew _ _ Hr Hk|r' x' id' c now Hnew _ _ _ Hr Hc _ Ha Hk
    |r' x' id' st now s Hr' Hcl' Hj' Ha _ Hr Hk]; apply (orphaned_intro _ _ _ _ _ Ho); eauto.
  - unfold recovers in Hrec. case_match eqn:E; [|by left].
    destruct Hrec as (y & Hy & Hyj & [[_ ?]|(_ & ft & sm & Hr)]); [by left|right].
    eexists _, _. split; [|exact Hr]. intros ->. simplify_eq. by rewrite Hc0 in E.
  - right. eexists _, _. split; [|exact Hk]. done.
  - right. eexists _, _. split; [|exact Hk]. simpl. congruence.
  - right. eexists _, _. split; [|exact Hk]. done.
  - right. eexists _, _. split; [|exact Hr]. congruence.
  - right. eexists _, _. split; [|exact Hr]. congruence.
  - right. eexists _, _. split; [|exact Hk]. simpl. congruence.
  - right. eexists _, _. split; [|exact Hr]. intros ->. simplify_eq.
    by apply Hn0, Ha.
  - rewrite Hk. destruct (clear_active_cases d id' r' now) as [->|(c & Hc & _ & ->)]; [by left|].
    right. eexists _, _. split; [|done]. done.
Qed.

Lemma orphaned_script id r x script d :
  orphaned id r x d -> orphaned id r x (run_sched script d).
Proof.
  revert d. induction script as [|[env op] script IH]; intros d Ho; simpl; [done|].
  apply IH. eapply orphaned_step; [apply any_step|done].
Qed.

Lemma release_row env d c at_ actor :
  (release_scheduler_job_claim env d c at_ actor).2 = Ok tt ->
  let d' := (release_scheduler_job_claim env d c at_ actor).1 in
  sd_runs d' = sd_runs d /\
  exists c', sd_claims d' !! cl_job_id c = Some c' /\ cr_active_run_id c' = None.
Proof.
  unfold release_scheduler_job_claim. intros (d1 & Hb & Hd)%transact_success. simpl. rewrite Hd.
  clear Hd. peel_all Hb. audit_frames. split; [done|]. simpl. rewrite lookup_insert_eq. by eexists.
Qed.

(** ** Leases *)

(** The lease of job [id] lasts at least until [until]. *)
Definition leased_until (id : string) (until : Z) (d : SchedDb) : Prop :=
  exists c, sd_claims d !! id = Some c /\ forall t, t < until -> lease_active c t = true.

Lemma leased_insert id until d id' c :
  (id' = id -> forall t, t < until -> lease_active c t = true) ->
  leased_until id until d ->
  exists c', <[id' := c]> (sd_claims d) !! id = Some c' /\
             forall t, t < until -> lease_active c' t = true.
Proof.
  intros Hn (c0 & Hc0 & Hl). destruct (decide (id' = id)) as [->|].
  - rewrite lookup_insert_eq. eauto.
  - rewrite lookup_insert_ne by done. eauto.
Qed.

Lemma lease_active_until `{!TimeLaws} c until :
  cr_lease_expires_at c = Some (rfc3339_format until) ->
  forall t, lease_active c t = (t <? until).
Proof. intros He t. unfold lease_active. rewrite He. simpl. by rewrite rfc3339_parse_format. Qed.

Lemma leased_step `{!TimeLaws} id until d d' :
  sched_step (keeping id until) d d' -> leased_until id until d -> leased_until id until d'.
Proof.
  intros Hs Hl. pose proof Hl as (c0 & Hc0 & Ha0). unfold leased_until.
  destruct Hs as [Hk Hr|id' owner now t lease _ Hp _ Hfree Hrec Hk|id' c t now Hal Hc Ho Hk Hr
    |id' c now Hal Hc _ Hk Hr|r' x' Hnew _ _ Hr Hk|r' x' id' c now Hnew _ _ _ Hr Hc _ Ha Hk
    |r' x' id' st now s Hr' Hcl' Hj' Ha _ Hr Hk]; rewrite Hk; try by eauto.
  all: try (apply leased_insert; [intros ->|done]).
  - intros t' Ht. rewrite (lease_active_until _ (t + seconds lease)) by done. apply Z.ltb_lt.
    destruct (Z_lt_dec t until) as [Hlt|]; [|unfold seconds; lia].
    specialize (Hfree c0 Hc0). by rewrite (Ha0 t Hlt) in Hfree.
  - intros t' Ht. rewrite (lease_active_until _ t).
    + specialize (Hal eq_refl). apply Z.ltb_lt. lia.
    + unfold cr_lease_expires_at, cr_owner_id in *. simpl. by destruct (cr_held c); [|destruct Ho].
  - by destruct Hal.
  - by simplify_eq.
  - destruct (clear_active_cases d id' r' now) as [->|(c & Hc & _ & ->)]; [by eauto|].
    apply leased_insert; [intros ->|done]. by simplify_eq.
Qed.

Lemma leased_script `{!TimeLaws} id until script d :
  Forall (fun e => keeps_lease id until e.2 = true) script ->
  leased_until id until d -> leased_until id until (run_sched script d).
Proof.
  revert d. induction script as [|[env op] script IH]; intros d Hf Hl; simpl; [done|].
  apply Forall_cons in Hf as [Hop Hf]. apply IH; [done|].
  eapply leased_step; [by apply keeping_step|done].
Qed.

Lemma acquired_leased `{!TimeLaws} d d' c t lease :
  acquired d d' c t lease -> leased_until (cl_job_id c) (t + seconds lease) d'.
Proof.
  intros Ha. unfold leased_until. rewrite (acq_claims _ _ _ _ _ Ha), lookup_insert_eq.
  eexists. split; [done|]. intros t' Ht.
  rewrite (lease_active_until _ (t + seconds lease)); [by apply Z.ltb_lt|].
  simpl. by rewrite (acq_lease _ _ _ _ _ Ha).
Qed.
End scripts.
