(* ===== verification/SchedulerLiveness.v ===== *)
(** * SchedulerLiveness: jobs over every sequence of operations, and progress

    A job is never removed, keeps its kind, selector, interval, jitter and
    timeout, and its last run never moves back in time. *)

From S2P Require Import Prelude Text External InputValidation StoreTypes StoredText.
From S2P Require Import StoragePayloads StoreDb Enrollment ObservationPayloads SchedulerStore.
From S2P Require Import SchedulerProtocol SchedulerFencing.

Section clocks.
Context `{EndpointIdOps, TimeOps, JsonOps}.

Definition last_run_instant (j : ObservabilityJobRecord) : option Z :=
  job_last_run_at j ≫= rfc3339_parse.

(** The fields that nothing changes once the job is stored. *)
Definition job_plan (j : ObservabilityJobRecord) :=
  (job_id j, job_kind j, job_selector_json j, job_pair_selector_json j,
   (job_interval_seconds j, job_jitter_seconds j, job_timeout_ms j, job_created_at j)).

Definition clock_le (j j' : ObservabilityJobRecord) : Prop :=
  job_plan j' = job_plan j /\
  forall t, last_run_instant j = Some t -> exists t', last_run_instant j' = Some t' /\ t <= t'.

(** Where a job of a later state comes from: it was stored before with the same
    plan, or it was inserted with a supported kind. *)
Definition job_from (d : SchedDb) (id : string) (j' : ObservabilityJobRecord) : Prop :=
  str_in_list (job_kind j') scheduler_job_kinds = true \/
  exists j, sd_jobs d !! id = Some j /\ job_plan j' = job_plan j.

Record jobs_later (d d' : SchedDb) : Prop := {
  jobs_kept : forall id j, sd_jobs d !! id = Some j ->
    exists j', sd_jobs d' !! id = Some j' /\ clock_le j j';
  jobs_origin : forall id j', sd_jobs d' !! id = Some j' -> job_from d id j';
}.

#[export] Instance clock_le_preorder : PreOrder clock_le.
Proof.
  split.
  - intros j. split; [done|]. eauto with lia.
  - intros j1 j2 j3 [H12 L12] [H23 L23]. split; [congruence|].
    intros t Ht. destruct (L12 t Ht) as (t2 & Ht2 & ?). destruct (L23 t2 Ht2) as (t3 & ? & ?).
    eauto with lia.
Qed.

#[export] Instance jobs_later_preorder : PreOrder jobs_later.
Proof.
  split.
  - intros d. split; intros id j Hj; [by exists j|]. right. eauto.
  - intros d1 d2 d3 H12 H23. split.
    + intros id j Hj. destruct (jobs_kept _ _ H12 id j Hj) as (j2 & Hj2 & L2).
      destruct (jobs_kept _ _ H23 id j2 Hj2) as (j3 & Hj3 & L3). exists j3. split; [done|]. by etrans.
    + intros id j3 Hj3. destruct (jobs_origin _ _ H23 id j3 Hj3) as [|(j2 & Hj2 & E2)]; [by left|].
      destruct (jobs_origin _ _ H12 id j2 Hj2) as [Hk|(j & Hj & E1)].
      * left. unfold job_plan in E2. simplify_eq. congruence.
      * right. exists j. split; congruence.
Qed.

Lemma jobs_later_same d d' : sd_jobs d' = sd_jobs d -> jobs_later d d'.
Proof. intros He. split; intros id j Hj; rewrite He in *; [by exists j|right; eauto]. Qed.

Lemma jobs_later_insert d d' id j' :
  sd_jobs d' = <[id := j']> (sd_jobs d) ->
  (forall j, sd_jobs d !! id = Some j -> clock_le j j') -> job_from d id j' -> jobs_later d d'.
Proof.
  intros He Hj Hf. split; intros i j Hi; rewrite He in *; destruct (decide (id = i)) as [->|].
  - rewrite lookup_insert_eq. eauto.
  - rewrite lookup_insert_ne by done. by exists j.
  - rewrite lookup_insert_eq in Hi. by simplify_eq.
  - rewrite lookup_insert_ne in Hi by done. right. eauto.
Qed.

Lemma transact_jobs {A} d (body : result StoreError (SchedDb * A)) :
  (forall d' a, body = Ok (d', a) -> jobs_later d d') -> jobs_later d (transact d body).1.
Proof. intros Hb. destruct body as [[d' a]|e]; simpl; [by eapply Hb|done]. Qed.

Lemma clock_update_later env d clock d' :
  update_scheduler_job_clock_tx env d clock = Ok d' -> jobs_later d d'.
Proof.
  unfold update_scheduler_job_clock_tx. intros Hu.
  destruct (sd_jobs d !! ck_job_id clock) as [j|] eqn:Hj; [|done]. simpl in Hu.
  destruct (validate_bounded_rfc3339 (ck_next_run_at clock) _); [|done].
  destruct (validate_bounded_rfc3339 (ck_last_run_at clock) _) as [last|] eqn:Hl; [|done].
  peel_in Hu. simplify_eq. apply validated_instant in Hl.
  eapply jobs_later_insert; [done| |right; by exists j].
  intros j' Hj'. rewrite Hj in Hj'. injection Hj' as <-.
  split; [done|]. unfold last_run_instant. intros t Ht. simpl. exists last. split; [done|].
  destruct (job_last_run_at j) as [old|]; simpl in Ht; [|done].
  destruct (validate_bounded_rfc3339 old _) as [t'|] eqn:Hv; [|done]. apply validated_instant in Hv.
  destruct (last <? t') eqn:Hlt; [done|]. bool_facts. simplify_eq. lia.
Qed.

Lemma write_entries_jobs d entries d' : write_entries d entries = Ok d' -> sd_jobs d' = sd_jobs d.
Proof.
  revert d. induction entries as [|e entries IH]; intros d Hw; simpl in Hw; [by simplify_eq|].
  destruct (insert_probe_observation_tx _ _) as [d1|] eqn:Ho; [|done].
  destruct (sched_audit _ _) as [d2|] eqn:Ha; [|done].
  apply sched_audit_frame in Ha as [core ->]. apply IH in Hw. simpl in Hw. rewrite Hw.
  unfold insert_probe_observation_tx in Ho. by peel_all Ho.
Qed.

Lemma acquire_jobs env d id owner now lease actor due d' r :
  acquire_scheduler_claim_tx env d id owner now lease actor due = Ok (d', r) ->
  sd_jobs d' = sd_jobs d.
Proof.
  unfold acquire_scheduler_claim_tx. intros Hb. peel_all Hb; try done. audit_frames. simpl.
  match goal with Hr : (match ?o with Some _ => _ | None => _ end) = Ok ?s |- sd_jobs ?s = _ =>
    destruct o; simplify_eq; [|done]; unfold recover_expired_scheduler_run_tx in Hr end.
  by repeat (case_match; simplify_eq); audit_frames.
Qed.

Lemma insert_run_jobs d run d' :
  insert_observability_run_tx d run = Ok d' -> sd_jobs d' = sd_jobs d.
Proof. unfold insert_observability_run_tx. intros Hb. by peel_all Hb. Qed.

Lemma bind_run_jobs d start claim d' :
  match claim with Some c => bind_run_tx d start c | None => Ok d end = Ok d' ->
  sd_jobs d' = sd_jobs d.
Proof.
  destruct claim; intros Hb; simplify_eq; [|done].
  by apply bind_run_frame in Hb as (row & _ & _ & ->).
Qed.

Lemma finish_jobs env d0 d clock id r t d' :
  sd_jobs d0 = sd_jobs d -> update_scheduler_job_clock_tx env d0 clock = Ok d' ->
  jobs_later d (clear_active_run d' id r t).
Proof.
  intros He Hu%clock_update_later. trans d0; [by apply jobs_later_same|].
  trans d'; [done|]. apply jobs_later_same. unfold clear_active_run. by repeat case_match.
Qed.

Lemma sched_apply_jobs env op d : jobs_later d (sched_apply env op d).
Proof.
  destruct op; simpl; apply transact_jobs; intros d' a Hb.
  - peel_all Hb. audit_frames. eapply jobs_later_insert; [done| |].
    + intros j Hj. rewrite Hj in *. match goal with Hn : ~ is_Some _ |- _ => by destruct Hn end.
    + left. unfold validate_scheduler_job_kind in *. by unwrap.
  - peel_all Hb. audit_frames. eapply jobs_later_insert;
      [done| |right; eexists; split; [eassumption|reflexivity]].
    intros j Hj. simplify_eq. split; [done|]. eauto with lia.
  - peel_all Hb. audit_frames. by apply jobs_later_same.
  - peel_all Hb. audit_frames. by apply jobs_later_same.
  - destruct (validate_scheduler_claim_input _ _ _ _); [|done]. cbn in Hb.
    destruct (next_due_job d now); simplify_eq; [|done].
    by eapply jobs_later_same, acquire_jobs.
  - destruct (validate_safe_id _ _ _); [|done]. cbn in Hb.
    destruct (validate_scheduler_claim_input _ _ _ _); [|done]. cbn in Hb.
    by eapply jobs_later_same, acquire_jobs.
  - peel_all Hb. audit_frames. by apply jobs_later_same.
  - peel_all Hb. audit_frames. by apply jobs_later_same.
  - peel_in Hb; simplify_eq. audit_frames. apply jobs_later_same. simpl.
    repeat match goal with
    | Hi : insert_observability_run_tx _ _ = Ok _ |- _ => apply insert_run_jobs in Hi
    | Hi : match claim with Some _ => bind_run_tx _ _ _ | None => _ end = Ok _ |- _ =>
        apply bind_run_jobs in Hi
    end.
    congruence.
  - peel_in Hb; simplify_eq.
    match goal with Hw : write_entries _ _ = Ok ?s |- _ =>
      apply write_entries_jobs in Hw; trans s; [by apply jobs_later_same|] end.
    destruct (ow_job_clock outcome); simplify_eq; [by eapply clock_update_later|done].
  - peel_in Hb; simplify_eq. audit_frames. 
    match goal with Hu : update_scheduler_job_clock_tx _ _ _ = Ok _ |- _ =>
      eapply finish_jobs in Hu; [etrans; [exact Hu|by apply jobs_later_same]|done] end.
Qed.

Lemma script_jobs script d : jobs_later d (run_sched script d).
Proof.
  revert d. induction script as [|[env op] script IH]; intros d; simpl; [done|].
  etrans; [apply sched_apply_jobs|apply IH].
Qed.
End clocks.

(** ** A claim can always be taken over

    The invariant of every reachable scheduler state (claims point at runs of
    their own job, runs at stored jobs, kinds are supported), and what it gives:
    once the lease of a job has ended nothing that is stored can keep a new
    owner from claiming it. *)

Section liveness.
Context `{EndpointIdOps, TimeOps, JsonOps}.

Definition claim_coherent (d : SchedDb) (id : string) (c : ClaimRow) : Prop :=
  0 <= cr_fence_token c /\ is_Some (sd_jobs d !! id) /\
  forall r, cr_active_run_id c = Some r ->
    exists x, sd_runs d !! r = Some x /\ run_job_id x = Some id.

Record sched_inv (d : SchedDb) : Prop := {
  inv_jobs : forall id j, sd_jobs d !! id = Some j ->
    str_in_list (job_kind j) scheduler_job_kinds = true;
  inv_claims : forall id c, sd_claims d !! id = Some c -> claim_coherent d id c;
  inv_runs : forall r x, sd_runs d !! r = Some x -> startable d x;
}.

Lemma empty_inv : sched_inv empty_sched.
Proof. by split. Qed.

Lemma startable_later d d' x : jobs_later d d' -> startable d x -> startable d' x.
Proof.
  intros Hl [Ht Hj]. split; [done|]. intros id Hid. destruct (Hj id Hid) as [[j Hjob] Hv].
  destruct (jobs_kept _ _ Hl id j Hjob) as (j' & Hj' & _). by rewrite Hj'.
Qed.

Lemma claim_coherent_later d d' id c :
  jobs_later d d' -> sched_later d d' -> claim_coherent d id c -> claim_coherent d' id c.
Proof.
  intros Hl Hs (Hf & [j Hj] & Ha). split_and!; [done| |].
  - destruct (jobs_kept _ _ Hl id j Hj) as (j' & Hj' & _). by rewrite Hj'.
  - intros r Hr. destruct (Ha r Hr) as (x & Hx & Hxj).
    destruct (later_run _ _ Hs r x Hx) as (x' & Hx' & Hj' & _). exists x'. split; congruence.
Qed.

(** The claims and runs that a step adds are coherent in the state after it. *)
Lemma inv_intro d d' :
  sched_inv d -> jobs_later d d' -> sched_later d d' ->
  (forall id c, sd_claims d' !! id = Some c ->
     sd_claims d !! id = Some c \/ claim_coherent d' id c) ->
  (forall r x, sd_runs d' !! r = Some x ->
     sd_runs d !! r = Some x \/ startable d x) ->
  sched_inv d'.
Proof.
  intros Hinv Hl Hs Hc Hr. split.
  - intros id j' Hj'. destruct (jobs_origin _ _ Hl id j' Hj') as [|(j & Hj & Hp)]; [done|].
    unfold job_plan in Hp. simplify_eq. rewrite <- (inv_jobs _ Hinv id j Hj). congruence.
  - intros id c Hi. destruct (Hc id c Hi) as [Ho|]; [|done].
    eapply claim_coherent_later; [done..|]. by apply (inv_claims _ Hinv).
  - intros r x Hx. eapply startable_later; [done|]. destruct (Hr r x Hx) as [Ho|]; [|done].
    by apply (inv_runs _ Hinv r).
Qed.

Lemma insert_cases {A} (P : string -> A -> Prop) (m : gmap string A) k v i w :
  P k v -> <[k := v]> m !! i = Some w -> m !! i = Some w \/ P i w.
Proof.
  intros Hp. destruct (decide (k = i)) as [->|].
  - rewrite lookup_insert_eq. intros [= <-]. by right.
  - rewrite lookup_insert_ne by done. by left.
Qed.

(** A row that keeps the fence of a coherent one and drops or keeps its run. *)
Lemma claim_coherent_row d id c c' :
  claim_coherent d id c -> cr_fence_token c' = cr_fence_token c ->
  cr_active_run_id c' = cr_active_run_id c \/ cr_active_run_id c' = None ->
  claim_coherent d id c'.
Proof.
  intros (Hf & Hj & Ha) Hf' [He|He]; split_and!; try done; try lia; rewrite He; auto; done.
Qed.

Lemma step_claims al d d' id c :
  sched_step al d d' -> jobs_later d d' -> sched_inv d -> sd_claims d' !! id = Some c ->
  sd_claims d !! id = Some c \/ claim_coherent d' id c.
Proof.
  intros Hst Hl Hinv Hi. pose proof (step_later _ _ _ Hst) as Hs.
  assert (forall i k, sd_claims d !! i = Some k -> claim_coherent d' i k) as Hold.
  { intros i k Hik. eapply claim_coherent_later; [done..|]. by apply (inv_claims _ Hinv). }
  destruct Hst as [Hk Hr|id' owner now t lease _ Hp Hj Hfree Hrec Hk|id' k t now Hal Hc Ho Hk Hr
    |id' k now Hal Hc _ Hk Hr|r x Hnew _ Hst Hr Hk|r x id' k now Hnew _ Hst Hjx Hr Hc _ Ha Hk
    |r x id' st now s Hr' Hcl' Hj' Ha _ Hr Hk]; rewrite Hk in Hi; try (by left).
  - revert Hi. apply insert_cases. split_and!; simpl; [|by destruct Hj as [j Hj];
      destruct (jobs_kept _ _ Hl id' j Hj) as (j' & -> & _)|done].
    unfold previous_fence. destruct (sd_claims d !! id') as [k|] eqn:Ek; [|done].
    destruct (inv_claims _ Hinv _ _ Ek). lia.
  - revert Hi. apply insert_cases. eapply claim_coherent_row; [by apply Hold|done|by left].
  - revert Hi. apply insert_cases. eapply claim_coherent_row; [by apply Hold|done|by right].
  - revert Hi. apply insert_cases. destruct (Hold _ _ Hc) as (Hf & Hjb & _).
    split_and!; [done..|]. simpl. intros ? [= <-]. rewrite Hr, lookup_insert_eq. eauto.
  - destruct (clear_active_cases d id' r now) as [He|(k & Hc & _ & He)]; rewrite He in Hi;
      [by left|].
    revert Hi. apply insert_cases. eapply claim_coherent_row; [by apply Hold|done|by right].
Qed.

Lemma startable_closed d st t s x : startable d x -> startable d (closed_run st t s x).
Proof. done. Qed.

Lemma step_runs al d d' r x :
  sched_step al d d' -> sched_inv d -> sd_runs d' !! r = Some x ->
  sd_runs d !! r = Some x \/ startable d x.
Proof.
  intros Hst Hinv Hx. pose proof (inv_runs _ Hinv) as Hruns.
  destruct Hst as [Hk Hr|id' owner now t lease _ Hp Hj Hfree Hrec Hk|id' k t now Hal Hc Ho Hk Hr
    |id' k now Hal Hc _ Hk Hr|r' x' Hnew _ Hst Hr Hk|r' x' id' k now Hnew _ Hst Hjx Hr Hc _ Ha Hk
    |r' x' id' st now s Hr' Hcl' Hj' Ha _ Hr Hk]; rewrite ?Hr in Hx; try (by left).
  - unfold recovers in Hrec. case_match; [|left; by rewrite <- Hrec].
    destruct Hrec as (y & Hy & _ & [[_ He]|(_ & ft & sm & He)]); rewrite He in Hx; [by left|].
    revert Hx. apply (insert_cases (fun _ => startable d)), startable_closed. eauto.
  - revert Hx. by apply (insert_cases (fun _ => startable d)).
  - revert Hx. by apply (insert_cases (fun _ => startable d)).
  - revert Hx. apply (insert_cases (fun _ => startable d)), startable_closed. eauto.
Qed.

Lemma script_inv script d : sched_inv d -> sched_inv (run_sched script d).
Proof.
  revert d. induction script as [|[env op] script IH]; intros d Hinv; simpl; [done|].
  apply IH. pose proof (any_step env op d) as Hst. pose proof (sched_apply_jobs env op d) as Hl.
  apply (inv_intro d); [done..|by eapply step_later| |].
  - intros id c. by eapply step_claims.
  - intros r x. by eapply step_runs.
Qed.

(** ** Taking over *)

(** The audit log accepts an event or not by its content alone. *)
Definition audit_accepts (e : AuditEvent) : bool := is_ok (insert_audit_tx empty_db e).

Lemma audit_accepts_tx db e :
  audit_accepts e = true -> exists db', insert_audit_tx db e = Ok db'.
Proof.
  unfold audit_accepts, insert_audit_tx. intros Ha.
  repeat (case_match; simpl in *; simplify_eq); solve [done|eauto].
Qed.

Lemma audit_accepts_sched d e :
  audit_accepts e = true -> exists core, sched_audit d e = Ok (set_core core d).
Proof. intros [db Hdb]%(audit_accepts_tx (sd_core d)). unfold sched_audit. rewrite Hdb. eauto. Qed.

Lemma failed_summary id kind :
  validate_fixed_id id 128 "run summary job ID" = Ok tt ->
  str_in_list kind scheduler_job_kinds = true ->
  exists p, rsp_new (Some id) (Some kind) "failed" "scheduler.run.once" (Some 0) (Some 0) = Ok p.
Proof.
  intros Hid Hk. unfold rsp_new, rsp_validate. cbn -[validate_fixed_id scheduler_job_kinds].
  rewrite Hid. cbn -[scheduler_job_kinds]. rewrite Hk. by eexists.
Qed.

Lemma recover_total env d id r x now t actor job :
  sched_inv d -> sd_runs d !! r = Some x -> run_job_id x = Some id ->
  sd_jobs d !! id = Some job -> rfc3339_parse now = Some t ->
  audit_accepts (scheduler_recover_event env id (job_kind job) r actor) = true ->
  exists d', recover_expired_scheduler_run_tx env d id r now actor = Ok d'.
Proof.
  intros Hinv Hx Hj Hjob Hnow Haud. unfold recover_expired_scheduler_run_tx.
  unfold get_observability_run_state_tx, get_observability_job_kind_tx. rewrite Hx. simpl.
  rewrite bool_decide_eq_false_2 by (rewrite Hj; auto). destruct (run_closed x); [by eexists|].
  destruct (inv_runs _ Hinv r x Hx) as [[started Hs] Hsj]. destruct (Hsj id Hj) as [_ Hid].
  rewrite Hs. simpl. rewrite Hnow. simpl. rewrite Hjob. simpl.
  destruct (failed_summary id (job_kind job) Hid (inv_jobs _ Hinv id job Hjob)) as [p ->]. simpl.
  destruct (audit_accepts_sched (set_runs (<[r := closed_run "failed"
    (if t <? started then run_started_at x else now) (rsp_to_value p) x]> (sd_runs d)) d) _ Haud)
    as [core ->].
  by eexists.
Qed.

Lemma claim_total env d id owner now lease actor job t claim :
  sched_inv d -> sd_jobs d !! id = Some job -> job_enabled job = true ->
  rfc3339_parse now = Some t ->
  (forall row, sd_claims d !! id = Some row -> lease_active row t = false) ->
  previous_fence d id < i64_max -> lease <= i64_max ->
  (forall r, sd_claims d !! id ≫= cr_active_run_id = Some r ->
     audit_accepts (scheduler_recover_event env id (job_kind job) r actor) = true) ->
  claim = {| cl_job_id := id; cl_owner_id := owner; cl_fence_token := previous_fence d id + 1;
             cl_claimed_at := now; cl_lease_expires_at := rfc3339_format (t + seconds lease);
             cl_active_run_id := None |} ->
  audit_accepts (scheduler_claim_event env "scheduler.claim.acquire" claim actor "acquired") = true ->
  exists d', acquire_scheduler_claim_tx env d id owner now lease actor false = Ok (d', Some claim).
Proof.
  intros Hinv Hjob Hon Hnow Hfree Hfence Hlease Hrec Hclaim Haud.
  unfold acquire_scheduler_claim_tx, scheduler_lease_expiry. rewrite Hjob. simpl.
  rewrite Hnow. simpl. rewrite Hon. simpl.
  assert (match sd_claims d !! id with Some c => lease_active c t | None => false end = false)
    as -> by (destruct (sd_claims d !! id) eqn:E; auto).
  fold (previous_fence d id). unfold checked_add. rewrite (proj2 (Z.leb_le _ _)) by lia. simpl.
  assert (0 <= previous_fence d id).
  { unfold previous_fence. destruct (sd_claims d !! id) as [c|] eqn:E; [|done].
    by destruct (inv_claims _ Hinv id c E). }
  rewrite (proj2 (Z.leb_gt _ _)) by lia.
  assert (exists d1, match sd_claims d !! id ≫= cr_active_run_id with
            | Some run => recover_expired_scheduler_run_tx env d id run now actor
            | None => Ok d end = Ok d1) as [d1 ->].
  { destruct (sd_claims d !! id) as [c|] eqn:E; simpl; [|by eexists].
    destruct (cr_active_run_id c) as [r|] eqn:Er; [|by eexists].
    destruct (inv_claims _ Hinv id c E) as (_ & _ & Ha). destruct (Ha r Er) as (x & Hx & Hxj).
    eapply recover_total; [done..|]. by apply Hrec. }
  simpl. rewrite (proj2 (Z.ltb_ge _ _)) by lia. subst claim. fold (seconds lease).
  unfold insert_scheduler_claim_audit_tx.
  match goal with |- context [sched_audit ?dd ?e] =>
    destruct (audit_accepts_sched dd e Haud) as [core ->] end.
  by eexists.
Qed.
End liveness.
