(* ===== verification/StoreScenario.v ===== *)
(** * StoreScenario: a concrete controller store for the witnesses

    Small instances of the third-party classes and an enrollment played
    through on an empty database. *)

From S2P Require Import Prelude Text External InputValidation StoreTypes StoredText.
From S2P Require Import StoragePayloads StoreDb TrustStore Enrollment.
Export Toy.

(** The length of a value counted in its strings and members. *)
Fixpoint toy_json_len (v : Value) : Z :=
  match v with
  | VString s => str_len s + 2
  | VArray l => fold_right (fun x n => toy_json_len x + n) 2 l
  | VObject m => fold_right (fun e n => str_len e.1 + toy_json_len e.2 + n) 2 m
  | _ => 4
  end.

#[export] Instance toy_json_ops : JsonOps := {| json_encoded_len := toy_json_len |}.

(** Hexadecimal digits of the first 32 bytes, padded. *)
Definition hex_digit (n : Z) : ascii :=
  ascii_of_N (Z.to_N (if n <? 10 then 48 + n else 87 + n)).

Definition toy_hex (s : string) : string :=
  string_of_list_ascii
    (flat_map (fun b => [hex_digit (b / 16); hex_digit (b mod 16)])
              (firstn 32 (str_bytes s ++ replicate 32 0))).

#[export] Instance toy_digest_ops : DigestOps :=
  {| blake3_hex := toy_hex; uuid_parses := fun s => str_len s =? 4 |}.

Definition sc_env : StoreEnv :=
  {| env_now := 1000; env_audit_now := 1000; env_sql_now := "p1hZ"; env_uuid := "aaaa" |}.

Definition sc_node : NodeInsert :=
  {| ni_node_id := "edge-1"; ni_endpoint_id := "k1"; ni_name := "edge-1";
     ni_region := "eu"; ni_role := "ocserv" |}.

Definition sc_token : EnrollmentTokenInsert :=
  {| ti_token_id := "tok-1"; ti_token_hash := toy_hex "s3cret"; ti_expires_at := "p0000000000000hZ";
     ti_max_uses := 1; ti_description := None; ti_labels_json := json_empty;
     ti_scope_json := json_empty |}.

Definition sc_request : JoinRequestInsert :=
  {| ji_request_id := "join-0001"; ji_token_plaintext := "s3cret"; ji_agent_public_key := "pk";
     ji_fingerprint := "fp"; ji_requested_endpoint_id := Some "K2"; ji_hostname := "edge-2";
     ji_agent_version := "1.0"; ji_requested_labels_json := json_empty |}.

Definition sc_approval : ApprovalInput :=
  {| ap_request_id := "join-0001"; ap_endpoint_id := "k2"; ap_node_id := "edge-2";
     ap_region := "eu"; ap_role := "ocserv"; ap_reason := "new node";
     ap_approved_labels_json := json_empty |}.

Definition sc_db1 : Db := (add_node sc_env empty_db sc_node "alice").1.
Definition sc_db2 : Db := (create_enrollment_token sc_env sc_db1 sc_token "alice").1.
Definition sc_db3 : Db := (submit_join_request sc_env sc_db2 sc_request "agent").1.
Definition sc_db4 : Db := (approve_join_request sc_env sc_db3 sc_approval "alice").1.
Definition sc_db5 : Db := (rotate_endpoint sc_env sc_db4 "k2" "k3" "alice" "planned").1.
