(* ===== verification/SchedulerProperties.v ===== *)
(** * SchedulerProperties: the theorems about claims, leases and runs

    Each theorem holds after every script of scheduler operations; the
    witnesses play one job through on an empty database. *)

From S2P Require Import Prelude Text External InputValidation StoreTypes StoredText.
From S2P Require Import StoragePayloads StoreDb Enrollment ObservationPayloads SchedulerStore.
From S2P Require Import SchedulerProtocol SchedulerFencing SchedulerLiveness.
From S2P Require Import StoreScenario.

(** ** A concrete job *)

Definition ss_job : ObservabilityJobRecord :=
  {| job_id := "job-1"; job_kind := "controller-ping";
     job_selector_json := VObject [("name", Null); ("schema", VString SCHEDULER_SELECTOR_SCHEMA_V1);
                                   ("selector", VString "role=ocserv")];
     job_pair_selector_json := None; job_interval_seconds := 300; job_jitter_seconds := 10;
     job_timeout_ms := 5000; job_enabled := true; job_next_run_at := None;
     job_last_run_at := None; job_created_at := "p1hZ"; job_updated_at := "p1hZ" |}.

(** A claim for one minute. *)
Definition ss_claim_op (owner : string) (at_ : Z) : SchedOp :=
  SClaimJob "job-1" owner (toy_format at_) 60 "alice" false.

Definition ss_claim (owner : string) (at_ fence : Z) : SchedulerJobClaim :=
  {| cl_job_id := "job-1"; cl_owner_id := owner; cl_fence_token := fence;
     cl_claimed_at := toy_format at_; cl_lease_expires_at := toy_format (at_ + seconds 60);
     cl_active_run_id := None |}.

Definition ss_start : SchedulerRunStart :=
  {| rs_run_id := "run-1"; rs_job_id := "job-1"; rs_started_at := toy_format 2000 |}.

Definition ss_clock : SchedulerJobClockUpdate :=
  {| ck_job_id := "job-1"; ck_next_run_at := toy_format (seconds 300);
     ck_last_run_at := toy_format 3000 |}.

Definition ss_finish : SchedulerRunFinish :=
  {| rf_run_id := "run-1"; rf_finished_at := toy_format 3000; rf_job_clock := ss_clock |}.

Definition ss_late : Z := seconds 70 + 1.

(** The job is stored. *)
Definition ss_stored : list (StoreEnv * SchedOp) := [(sc_env, SJobAdd ss_job "alice")].

(** It is claimed and its run is started. *)
Definition ss_running : list (StoreEnv * SchedOp) :=
  ss_stored ++ [(sc_env, ss_claim_op "owner-1" 1001);
                (sc_env, SRunStart ss_start (Some (ss_claim "owner-1" 1001 1)) "alice")].

(** The run of the first claim starts; its finish arrives after the second claim. *)
Definition ss_begin : list (StoreEnv * SchedOp) :=
  [(sc_env, SRunStart ss_start (Some (ss_claim "owner-1" 1001 1)) "alice")].
Definition ss_next : list (StoreEnv * SchedOp) := [(sc_env, SRunFinish ss_finish "alice")].

(** ** Theorems *)

Section properties.
Context `{EndpointIdOps, TimeOps, JsonOps}.

(** C13: once a second claim on a job has been handed out, the first one is
    dead: its fence is smaller, and in every later state renewing it,
    releasing it or starting a run under it fails, whatever owner, times or
    lease the caller presents with that fence. *)
Theorem superseded_claim_has_no_effect env1 op1 d0 c1 script1 env2 op2 c2 script2 :
  sched_claimed env1 op1 d0 = Some c1 ->
  sched_claimed env2 op2 (run_sched script1 (sched_apply env1 op1 d0)) = Some c2 ->
  cl_job_id c2 = cl_job_id c1 ->
  let d := run_sched script2
             (sched_apply env2 op2 (run_sched script1 (sched_apply env1 op1 d0))) in
  cl_fence_token c1 < cl_fence_token c2 /\
  forall env c, cl_job_id c = cl_job_id c1 -> cl_fence_token c = cl_fence_token c1 ->
    (forall now lease actor r, (renew_scheduler_job_claim env d c now lease actor).2 <> Ok r) /\
    (forall at_ actor r, (release_scheduler_job_claim env d c at_ actor).2 <> Ok r) /\
    (forall start actor r,
       (write_scheduler_claimed_run_start env d start c actor).2 <> Ok r).
Proof.
  intros (t1 & l1 & _ & Ha1)%sched_claimed_spec (t2 & l2 & _ & Ha2)%sched_claimed_spec Hj d.
  assert (cl_fence_token c1 < cl_fence_token c2) as Hlt.
  { rewrite (acq_fence _ _ _ _ _ Ha2), Hj.
    pose proof (later_fence _ _ (script_later script1 (sched_apply env1 op1 d0)) (cl_job_id c1)).
    rewrite (acquired_fence _ _ _ _ _ Ha1) in *. lia. }
  split; [done|]. intros env c Hcj Hcf.
  assert (previous_fence d (cl_job_id c) <> cl_fence_token c) as Hne.
  { rewrite Hcj, Hcf. apply acquired_fence in Ha2. rewrite Hj in Ha2.
    pose proof (later_fence _ _ (script_later script2 (sched_apply env2 op2
      (run_sched script1 (sched_apply env1 op1 d0)))) (cl_job_id c1)) as Hl.
    rewrite Ha2 in Hl. fold d in Hl. lia. }
  split_and!; intros; intros Hok; apply Hne.
  - by eapply renew_fence.
  - by eapply release_fence.
  - by eapply run_start_fence.
Qed.

(** C14: a lease excludes every other owner until it ends: after a claim, and
    as long as nobody releases the job or renews it to an earlier end, a
    further claim on the same job is only handed out at or after the instant
    the lease expires. *)
Theorem lease_excludes_other_owners `{!TimeLaws} env1 op1 d0 c1 until script env2 op2 c2 t2 :
  sched_claimed env1 op1 d0 = Some c1 ->
  rfc3339_parse (cl_lease_expires_at c1) = Some until ->
  Forall (fun e => keeps_lease (cl_job_id c1) until e.2 = true) script ->
  sched_claimed env2 op2 (run_sched script (sched_apply env1 op1 d0)) = Some c2 ->
  cl_job_id c2 = cl_job_id c1 -> rfc3339_parse (cl_claimed_at c2) = Some t2 ->
  until <= t2.
Proof.
  intros (t1 & l1 & _ & Ha1)%sched_claimed_spec Hu Hf (t & l2 & _ & Ha2)%sched_claimed_spec Hj Ht.
  pose proof (acq_now _ _ _ _ _ Ha2) as Hn. rewrite Hn in Ht. injection Ht as ->.
  pose proof (acq_lease _ _ _ _ _ Ha1) as He. rewrite He, rfc3339_parse_format in Hu.
  injection Hu as <-. apply acquired_leased in Ha1.
  destruct (leased_script _ _ script _ Hf Ha1) as (c & Hc & Hl).
  rewrite <- Hj in Hc. pose proof (acq_free _ _ _ _ _ Ha2 c Hc) as Hfree.
  destruct (Z_lt_dec t2 (t1 + seconds l1)) as [Hlt|]; [|lia]. by rewrite (Hl t2 Hlt) in Hfree.
Qed.

(** C15: taking a claim over closes the run its previous holder left open: the
    run is stored as finished, no later operation changes it any more, and
    neither an outcome nor a finish for it is ever accepted again. *)
Theorem takeover_closes_the_run env op d c row r :
  sched_claimed env op d = Some c -> sd_claims d !! cl_job_id c = Some row ->
  cr_active_run_id row = Some r ->
  exists x, run_closed x = true /\ run_job_id x = Some (cl_job_id c) /\
    forall script, let d' := run_sched script (sched_apply env op d) in
      sd_runs d' !! r = Some x /\
      (forall env' outcome actor, ow_run_id outcome = Some r ->
         (write_scheduler_outcome env' d' outcome actor).2 <> Ok tt) /\
      (forall env' finish actor, rf_run_id finish = r ->
         (write_scheduler_run_finish env' d' finish actor).2 <> Ok tt).
Proof.
  intros (t & l & _ & Ha)%sched_claimed_spec Hrow Hr.
  destruct (takeover_closes _ _ _ _ _ _ _ Ha Hrow Hr) as (x & Hx & Hcl & Hj).
  exists x. split_and!; [done..|]. intros script d'.
  destruct (later_run _ _ (script_later script _) _ _ Hx) as (x' & Hx' & _ & He).
  rewrite (He Hcl) in Hx'. split_and!; [done| |]; intros env'; by eapply closed_refuses.
Qed.

(** A claim that is released while its run is open leaves the run open for
    ever: no sequence of later operations closes it, since a takeover only
    recovers the run the claim row still names and a finish or an outcome
    needs the claim to name it. *)
Theorem released_run_never_closes env d c row r x at_ actor :
  sd_claims d !! cl_job_id c = Some row -> cr_active_run_id row = Some r ->
  sd_runs d !! r = Some x -> run_closed x = false -> run_job_id x = Some (cl_job_id c) ->
  (release_scheduler_job_claim env d c at_ actor).2 = Ok tt ->
  forall script,
    let d' := run_sched script (release_scheduler_job_claim env d c at_ actor).1 in
    sd_runs d' !! r = Some x.
Proof.
  intros Hrow Hr Hx Hcl Hj Hok script.
  destruct (release_row _ _ _ _ _ Hok) as (Hruns & c' & Hc' & Hn).
  apply (orphaned_script (cl_job_id c) r x script). split_and!; [by rewrite Hruns|done..|].
  exists c'. by rewrite Hn.
Qed.

(** C38: nothing that is stored can keep a job from being claimed again: in
    every reachable state, at an instant when the lease of an enabled job is
    over, a well-formed claim request succeeds with the next fence, provided
    that fence fits an [i64] and the audit log accepts the events involved. *)
Theorem expired_lease_can_be_taken script env id owner now lease actor job t claim :
  let d := run_sched script empty_sched in
  sd_jobs d !! id = Some job -> job_enabled job = true ->
  validate_safe_id "scheduler job_id" id 128 = Ok tt ->
  validate_scheduler_claim_input owner now lease actor = Ok tt ->
  rfc3339_parse now = Some t ->
  (forall row, sd_claims d !! id = Some row -> lease_active row t = false) ->
  previous_fence d id < i64_max ->
  (forall r, sd_claims d !! id ≫= cr_active_run_id = Some r ->
     audit_accepts (scheduler_recover_event env id (job_kind job) r actor) = true) ->
  claim = {| cl_job_id := id; cl_owner_id := owner; cl_fence_token := previous_fence d id + 1;
             cl_claimed_at := now; cl_lease_expires_at := rfc3339_format (t + seconds lease);
             cl_active_run_id := None |} ->
  audit_accepts (scheduler_claim_event env "scheduler.claim.acquire" claim actor "acquired") = true ->
  (claim_scheduler_job env d id owner now lease actor).2 = Ok (Some claim).
Proof.
  intros d Hjob Hon Hid Hin Hnow Hfree Hfence Hrec Hclaim Haud.
  assert (lease <= i64_max) as Hlease by (by eapply claim_input_bound).
  destruct (claim_total env d id owner now lease actor job t claim) as [d' Ha]; try done.
  { apply script_inv, empty_inv. }
  unfold claim_scheduler_job, claim_job. rewrite Hid, Hin. cbn [map_err]. by rewrite Ha.
Qed.

(** A stored job keeps its identity, kind, selectors, interval, jitter and
    timeout under every sequence of operations, and its last run, once set,
    only moves forward in time. *)
Theorem job_clock_never_regresses script d id j :
  sd_jobs d !! id = Some j ->
  exists j', sd_jobs (run_sched script d) !! id = Some j' /\ job_plan j' = job_plan j /\
    forall t, last_run_instant j = Some t ->
      exists t', last_run_instant j' = Some t' /\ t <= t'.
Proof.
  intros Hj. destruct (jobs_kept _ _ (script_jobs script d) id j Hj) as (j' & Hj' & Hp & Hl). eauto.
Qed.
End properties.

(** ** Witnesses *)

(** The state with an open run under the first claim. *)
Definition ss_db : SchedDb := run_sched ss_running empty_sched.

Lemma ss_db_claim :
  exists row, sd_claims ss_db !! "job-1" = Some row /\ cr_active_run_id row = Some "run-1".
Proof. eexists. split; vm_compute; reflexivity. Qed.

Lemma ss_db_run :
  exists x, sd_runs ss_db !! "run-1" = Some x /\ run_closed x = false /\
            run_job_id x = Some "job-1".
Proof. eexists. split_and!; vm_compute; reflexivity. Qed.

Lemma superseded_claim_has_no_effect_witness :
  (renew_scheduler_job_claim sc_env
     (run_sched ss_next
        (sched_apply sc_env (ss_claim_op "owner-2" ss_late)
           (run_sched ss_begin
              (sched_apply sc_env (ss_claim_op "owner-1" 1001) (run_sched ss_stored empty_sched)))))
     (ss_claim "owner-1" 1001 1) (toy_format ss_late) 60 "alice").2
  <> Ok (ss_claim "owner-1" 1001 1).
Proof.
  assert (sched_claimed sc_env (ss_claim_op "owner-1" 1001) (run_sched ss_stored empty_sched)
          = Some (ss_claim "owner-1" 1001 1)) as H1 by (vm_compute; reflexivity).
  assert (sched_claimed sc_env (ss_claim_op "owner-2" ss_late) (run_sched ss_begin
            (sched_apply sc_env (ss_claim_op "owner-1" 1001) (run_sched ss_stored empty_sched)))
          = Some (ss_claim "owner-2" ss_late 2)) as H2 by (vm_compute; reflexivity).
  destruct (superseded_claim_has_no_effect _ _ _ _ ss_begin _ _ _ ss_next H1 H2 eq_refl)
    as [_ Hall].
  destruct (Hall sc_env (ss_claim "owner-1" 1001 1) eq_refl eq_refl) as [Hrenew _].
  apply Hrenew.
Defined.

Lemma lease_excludes_other_owners_witness :
  1001 + seconds 60 <= ss_late.
Proof.
  apply (lease_excludes_other_owners sc_env (ss_claim_op "owner-1" 1001)
    (run_sched ss_stored empty_sched) (ss_claim "owner-1" 1001 1) _
    [(sc_env, SRunStart ss_start (Some (ss_claim "owner-1" 1001 1)) "alice")]
    sc_env (ss_claim_op "owner-2" ss_late) (ss_claim "owner-2" ss_late 2));
    try (vm_compute; reflexivity).
  repeat constructor.
Defined.

Lemma takeover_closes_the_run_witness :
  exists x, run_closed x = true /\
    sd_runs (run_sched [(sc_env, SRunFinish ss_finish "alice")]
               (sched_apply sc_env (ss_claim_op "owner-2" ss_late) ss_db)) !! "run-1" = Some x.
Proof.
  destruct ss_db_claim as (row & Hrow & Hr).
  destruct (takeover_closes_the_run sc_env (ss_claim_op "owner-2" ss_late) ss_db
    (ss_claim "owner-2" ss_late 2) row "run-1") as (x & Hx & _ & Hall).
  - vm_compute. reflexivity.
  - exact Hrow.
  - exact Hr.
  - exists x. split; [exact Hx|]. exact (proj1 (Hall [(sc_env, SRunFinish ss_finish "alice")])).
Defined.

Lemma released_run_never_closes_witness :
  exists x, run_closed x = false /\
    sd_runs (run_sched [(sc_env, ss_claim_op "owner-2" ss_late);
                        (sc_env, SRunFinish ss_finish "alice")]
      (release_scheduler_job_claim sc_env ss_db (ss_claim "owner-1" 1001 1)
         (toy_format 2500) "alice").1) !! "run-1" = Some x.
Proof.
  destruct ss_db_claim as (row & Hrow & Hr). destruct ss_db_run as (x & Hx & Hcl & Hj).
  exists x. split; [exact Hcl|].
  apply (released_run_never_closes sc_env ss_db (ss_claim "owner-1" 1001 1) row "run-1" x
    (toy_format 2500) "alice" Hrow Hr Hx Hcl Hj).
  vm_compute. reflexivity.
Defined.

Lemma ss_db_job :
  exists job, sd_jobs ss_db !! "job-1" = Some job /\ job_enabled job = true /\
              job_kind job = "controller-ping".
Proof. eexists. split_and!; vm_compute; reflexivity. Qed.

Lemma ss_late_free row : sd_claims ss_db !! "job-1" = Some row -> lease_active row ss_late = false.
Proof. intros Hrow. vm_compute in Hrow. injection Hrow as <-. vm_compute. reflexivity. Qed.

Lemma ss_recover_accepted r :
  sd_claims ss_db !! "job-1" ≫= cr_active_run_id = Some r ->
  audit_accepts (scheduler_recover_event sc_env "job-1" "controller-ping" r "alice") = true.
Proof. intros Hr. vm_compute in Hr. injection Hr as <-. vm_compute. reflexivity. Qed.

Lemma ss_fence : previous_fence ss_db "job-1" = 1.
Proof. vm_compute. reflexivity. Qed.

Lemma expired_lease_can_be_taken_witness :
  (claim_scheduler_job sc_env (run_sched ss_running empty_sched) "job-1" "owner-2"
     (toy_format ss_late) 60 "alice").2
  = Ok (Some (ss_claim "owner-2" ss_late 2)).
Proof.
  destruct ss_db_job as (job & Hjob & Hon & Hkind).
  refine (expired_lease_can_be_taken ss_running sc_env "job-1" "owner-2" (toy_format ss_late) 60
    "alice" job ss_late (ss_claim "owner-2" ss_late 2) Hjob Hon eq_refl eq_refl _ ss_late_free
    _ _ _ _).
  - vm_compute. reflexivity.
  - change (previous_fence ss_db "job-1" < i64_max). by rewrite ss_fence.
  - rewrite Hkind. exact ss_recover_accepted.
  - change (run_sched ss_running empty_sched) with ss_db. by rewrite ss_fence.
  - vm_compute. reflexivity.
Defined.

Lemma job_clock_never_regresses_witness :
  exists j', sd_jobs (run_sched [(sc_env, ss_claim_op "owner-2" ss_late)] ss_db) !! "job-1" = Some j'
             /\ job_kind j' = "controller-ping".
Proof.
  destruct ss_db_job as (job & Hjob & _ & Hkind).
  destruct (job_clock_never_regresses [(sc_env, ss_claim_op "owner-2" ss_late)] ss_db "job-1" job
    Hjob) as (j' & Hj' & Hp & _).
  exists j'. split; [exact Hj'|]. unfold job_plan in Hp. injection Hp as _ Hk _ _ _ _ _ _.
  by rewrite Hk.
Defined.
