(* ===== verification/AlertQueueProperties.v ===== *)
(** * AlertQueueProperties: what holds of every delivery in the queue

    Scripts of queue operations, the steps a row can take, and what follows: a
    finished delivery is final, and a claim can record one outcome. *)

From S2P Require Import Prelude Text External InputValidation StoreTypes StoredText.
From S2P Require Import StoragePayloads StoreDb ObservationPayloads AlertWebhook SchedulerStore.
From S2P Require Import SchedulerProtocol AlertQueue StoreScenario.

(** ** Scripts *)

(** The operations on the queue; the evaluation of alerts and the commands on
    hooks write the other two tables. *)
Inductive QueueOp :=
| QEnqueue (e : AlertDeliveryQueueEnqueue) (actor : string)
| QClaimNext (owner now : string) (lease : Z) (actor : string)
| QRenew (claim : AlertDeliveryQueueClaim) (now : string) (lease : Z) (actor : string)
| QOutcome (o : AlertDeliveryQueueOutcome) (actor : string)
| QDefer (claim : AlertDeliveryQueueClaim) (deferred_at next_attempt_at actor : string)
| QAlert (alert : AlertEventRecord)
| QHook (hook : AlertWebhookHookRecord).

Section scripts.
Context `{EndpointIdOps, TimeOps, JsonOps}.

Definition queue_apply (env : StoreEnv) (op : QueueOp) (d : QueueDb) : QueueDb :=
  match op with
  | QEnqueue e actor => (write_alert_delivery_queue_enqueue env d e actor).1
  | QClaimNext owner now lease actor =>
      (write_alert_delivery_queue_claim_next env d owner now lease actor).1
  | QRenew claim now lease actor =>
      (write_alert_delivery_queue_renew env d claim now lease actor).1
  | QOutcome o actor => (write_alert_delivery_queue_outcome env d o actor).1
  | QDefer claim t next actor => (write_alert_delivery_queue_defer env d claim t next actor).1
  | QAlert a => set_alerts (<[al_alert_id a := a]> (qd_alerts d)) d
  | QHook h => set_hooks (<[wh_hook_id h := h]> (qd_hooks d)) d
  end.

Fixpoint run_queue (script : list (StoreEnv * QueueOp)) (d : QueueDb) : QueueDb :=
  match script with
  | [] => d
  | (env, op) :: script' => run_queue script' (queue_apply env op d)
  end.

(** ** Steps of a row *)

(** What every operation but an outcome does to a row. *)
Inductive quiet (r r' : QueueRow) : Prop :=
| quiet_back : qr_status r = Claimed -> qr_status r' = Retry ->
    qr_fence_token r' = qr_fence_token r -> qr_attempt_count r' = qr_attempt_count r -> quiet r r'
| quiet_renew : qr_status r = Claimed -> qr_status r' = Claimed ->
    qr_fence_token r' = qr_fence_token r -> qr_attempt_count r' = qr_attempt_count r -> quiet r r'
| quiet_claim : waiting r = true -> qr_status r' = Claimed ->
    qr_fence_token r' = qr_fence_token r + 1 -> qr_attempt_count r' = qr_attempt_count r ->
    quiet r r'.

Definition quiet_queue (d d' : QueueDb) : Prop :=
  forall id r, qd_queue d !! id = Some r ->
    exists r', qd_queue d' !! id = Some r' /\ rtc quiet r r'.

#[export] Instance quiet_queue_preorder : PreOrder quiet_queue.
Proof.
  split.
  - intros d id r Hr. by exists r.
  - intros d1 d2 d3 H12 H23 id r Hr. destruct (H12 id r Hr) as (r2 & Hr2 & Q2).
    destruct (H23 id r2 Hr2) as (r3 & Hr3 & Q3). exists r3. split; [done|]. by etrans.
Qed.

Lemma quiet_same d d' : qd_queue d' = qd_queue d -> quiet_queue d d'.
Proof. intros He id r Hr. rewrite He. by exists r. Qed.

Lemma quiet_insert d d' id r r' :
  qd_queue d !! id = Some r -> qd_queue d' = <[id := r']> (qd_queue d) -> quiet r r' ->
  quiet_queue d d'.
Proof.
  intros Hr He Hq i x Hx. rewrite He. destruct (decide (id = i)) as [->|].
  - rewrite lookup_insert_eq. simplify_eq. eexists. split; [done|]. by apply rtc_once.
  - rewrite lookup_insert_ne by done. by exists x.
Qed.

Lemma queue_audit_frame env d actor name id ok code detail d' :
  insert_alert_delivery_queue_audit_tx env d actor name id ok code detail = Ok d' ->
  exists core, d' = set_qcore core d.
Proof. unfold insert_alert_delivery_queue_audit_tx. intros Ha. peel Ha. eauto. Qed.

Lemma held_row_some d c t r :
  held_row d c t = Some r ->
  qd_queue d !! qc_queue_id c = Some r /\ qr_status r = Claimed /\
  qr_fence_token r = qc_fence_token c.
Proof. unfold held_row. intros Hh. peel Hh. bool_facts. done. Qed.

Lemma recover_items_quiet env now actor l d d' :
  recover_items env d now actor l = Ok d' -> quiet_queue d d'.
Proof.
  revert d. induction l as [|[id t] l IH]; intros d Hr; simpl in Hr; [by simplify_eq|].
  peel_in Hr; simplify_eq. unwrap. bool_facts.
  match goal with Ha : insert_alert_delivery_queue_audit_tx _ _ _ _ _ _ _ _ = Ok ?s |- _ =>
    apply queue_audit_frame in Ha as [core ->] end.
  etrans; [|by eapply IH]. eapply quiet_insert; [done|done|]. by apply quiet_back.
Qed.

Lemma recover_quiet env d t now actor d' :
  recover_expired_alert_delivery_claims_tx env d t now actor = Ok d' -> quiet_queue d d'.
Proof.
  unfold recover_expired_alert_delivery_claims_tx. intros Hr. peel_in Hr.
  by eapply recover_items_quiet.
Qed.

(** ** The chosen candidate *)

Lemma elem_of_insert_by {A} (lt : A -> A -> bool) x y l :
  y ∈ insert_by lt x l -> y = x \/ y ∈ l.
Proof.
  induction l as [|z l IH]; simpl; [set_solver|]. case_match; set_solver.
Qed.

Lemma elem_of_sort_by {A} (lt : A -> A -> bool) y l : y ∈ sort_by lt l -> y ∈ l.
Proof.
  induction l as [|z l IH]; simpl; [done|]. intros [->|Hy]%elem_of_insert_by; set_solver.
Qed.

Lemma page_instants_elem message l l' id t :
  page_instants message l = Ok l' -> (id, t) ∈ l' -> exists text, (id, text) ∈ l.
Proof.
  revert l'. induction l as [|[i text] l IH]; intros l' Hp He; simpl in Hp.
  { simplify_eq. by apply not_elem_of_nil in He. }
  peel_in Hp; simplify_eq. apply elem_of_cons in He as [[= -> ->]|He].
  - exists text. by left.
  - destruct (IH _ eq_refl He) as [text' Ht]. exists text'. by right.
Qed.

Lemma queue_page_elem P column d id text :
  (id, text) ∈ queue_page P column d -> exists r, qd_queue d !! id = Some r /\ P r = true.
Proof.
  unfold queue_page. intros He.
  assert ((id, text) ∈ sort_by (fun x y : string * string => str_ltb x.1 y.1)
    (map (fun e => (e.1, column e.2)) (List.filter (fun e => P e.2) (map_to_list (qd_queue d)))))
    as Hs by (eapply subseteq_take; exact He). clear He. apply elem_of_sort_by in Hs as He.
  apply list_elem_of_fmap in He as ([i r] & [= -> _] & Hr).
  apply list_elem_of_In, filter_In in Hr as [Hr HP]. apply list_elem_of_In, elem_of_map_to_list in Hr.
  eauto.
Qed.

Lemma due_first_waiting d now l id t rest :
  page_instants "stored alert delivery next_attempt_at is invalid"
    (queue_page waiting qr_next_attempt_at d) = Ok l ->
  due_first now l = (id, t) :: rest ->
  exists r, qd_queue d !! id = Some r /\ waiting r = true.
Proof.
  intros Hp Hd. assert ((id, t) ∈ l) as He.
  { assert ((id, t) ∈ due_first now l) as He by (rewrite Hd; by left).
    unfold due_first in He. apply elem_of_sort_by, list_elem_of_In, filter_In in He.
    destruct He. by apply list_elem_of_In. }
  destruct (page_instants_elem _ _ _ _ _ Hp He) as [text Ht]. by eapply queue_page_elem.
Qed.

(** ** Every operation *)

Lemma claim_next_quiet env d owner now lease actor :
  quiet_queue d (write_alert_delivery_queue_claim_next env d owner now lease actor).1.
Proof.
  unfold write_alert_delivery_queue_claim_next, transact.
  destruct (map_err _ _); [|done]. cbn.
  destruct (validate_alert_delivery_queue_claim_input _ _ _) as [t|]; [|done]. cbn.
  destruct (recover_expired_alert_delivery_claims_tx _ _ _ _ _) as [d1|] eqn:Hrec; [|done]. cbn.
  apply recover_quiet in Hrec.
  destruct (page_instants _ _) as [l|] eqn:Hp; [|done]. cbn.
  destruct (due_first t l) as [|[id u] rest] eqn:Hd; [done|].
  destruct (due_first_waiting _ _ _ _ _ _ Hp Hd) as (r & Hr & Hw). rewrite Hr. cbn.
  repeat (case_match; simplify_eq; cbn; try done).
  match goal with Ha : insert_alert_delivery_queue_audit_tx _ _ _ _ _ _ _ _ = Ok _ |- _ =>
    apply queue_audit_frame in Ha as [core ->] end.
  etrans; [exact Hrec|]. eapply quiet_insert; [exact Hr|done|]. by apply quiet_claim.
Qed.

Lemma quiet_transact {A} d (body : result StoreError (QueueDb * A)) :
  (forall d' a, body = Ok (d', a) -> quiet_queue d d') -> quiet_queue d (transact d body).1.
Proof. intros Hb. destruct body as [[d' a]|e]; simpl; [by eapply Hb|done]. Qed.

Lemma renew_quiet env d claim now lease actor :
  quiet_queue d (write_alert_delivery_queue_renew env d claim now lease actor).1.
Proof.
  apply quiet_transact. intros d' a Hb. peel_in Hb; simplify_eq. unwrap.
  match goal with Ha : insert_alert_delivery_queue_audit_tx _ _ _ _ _ _ _ _ = Ok _ |- _ =>
    apply queue_audit_frame in Ha as [core ->] end.
  match goal with Hh : held_row _ _ _ = Some _ |- _ => apply held_row_some in Hh as (Hr & Hs & _) end.
  eapply quiet_insert; [exact Hr|done|]. by apply quiet_renew.
Qed.

Lemma defer_quiet env d claim t next actor :
  quiet_queue d (write_alert_delivery_queue_defer env d claim t next actor).1.
Proof.
  apply quiet_transact. intros d' a Hb. peel_in Hb; simplify_eq. unwrap.
  match goal with Ha : insert_alert_delivery_queue_audit_tx _ _ _ _ _ _ _ _ = Ok _ |- _ =>
    apply queue_audit_frame in Ha as [core ->] end.
  match goal with Hh : held_row _ _ _ = Some _ |- _ => apply held_row_some in Hh as (Hr & Hs & _) end.
  eapply quiet_insert; [exact Hr|done|]. by apply quiet_back.
Qed.

Lemma bound_items_none e d : bound_items e d = [] -> qd_queue d !! qe_queue_id e = None.
Proof.
  intros Hn. destruct (qd_queue d !! qe_queue_id e) as [r|] eqn:Hr; [|done]. exfalso.
  assert ((qe_queue_id e, r) ∈ bound_items e d) as He; [|by rewrite Hn in He; apply elem_of_nil in He].
  apply list_elem_of_In, filter_In. split; [by apply list_elem_of_In, elem_of_map_to_list|].
  cbn. by rewrite String.eqb_refl.
Qed.

Lemma enqueue_quiet env d e actor :
  quiet_queue d (write_alert_delivery_queue_enqueue env d e actor).1.
Proof.
  apply quiet_transact. intros d' a Hb. peel_in Hb; simplify_eq; try done.
  match goal with Ha : insert_alert_delivery_queue_audit_tx _ _ _ _ _ _ _ _ = Ok _ |- _ =>
    apply queue_audit_frame in Ha as [core ->] end.
  intros id r Hr. simpl. destruct (decide (qe_queue_id e = id)) as [<-|].
  - match goal with Hn : bound_items _ _ = [] |- _ => apply bound_items_none in Hn end. congruence.
  - rewrite lookup_insert_ne by done. by exists r.
Qed.

(** An outcome that was accepted changed the row that its claim holds. *)
Lemma outcome_accepted env d o actor :
  (write_alert_delivery_queue_outcome env d o actor).2 = Ok tt ->
  let d' := (write_alert_delivery_queue_outcome env d o actor).1 in
  exists r next, qd_queue d !! qc_queue_id (qo_claim o) = Some r /\ qr_status r = Claimed /\
    qr_fence_token r = qc_fence_token (qo_claim o) /\
    qd_queue d' = <[qc_queue_id (qo_claim o) := outcome_row o next r]> (qd_queue d).
Proof.
  unfold write_alert_delivery_queue_outcome. intros (d' & Hb & Hd)%transact_success.
  simpl. rewrite Hd. clear Hd. peel_in Hb; simplify_eq.
  match goal with Ha : insert_alert_delivery_queue_audit_tx _ _ _ _ _ _ _ _ = Ok _ |- _ =>
    apply queue_audit_frame in Ha as [core ->] end.
  match goal with Hh : ok_or (held_row _ _ _) _ = Ok _ |- _ =>
    apply ok_or_ok, held_row_some in Hh as (Hr & Hs & Hf) end.
  match goal with Hi : insert_alert_delivery_attempt_tx _ _ = Ok _ |- _ =>
    unfold insert_alert_delivery_attempt_tx in Hi; peel_in Hi; simplify_eq end.
  match goal with Hi : (if outcome_succeeded o then _ else _) = Ok _ |- _ =>
    peel_in Hi; simplify_eq end; eauto 9.
Qed.

(** The outcome of an operation on item [id], when it is accepted. *)
Definition accepted_outcome (id : string) (env : StoreEnv) (op : QueueOp) (d : QueueDb)
    : option AlertDeliveryQueueOutcome :=
  match op with
  | QOutcome o actor =>
      if String.eqb (qc_queue_id (qo_claim o)) id
         && is_ok (write_alert_delivery_queue_outcome env d o actor).2
      then Some o else None
  | _ => None
  end.

Lemma transact_failure {D A} (d : D) (body : result StoreError (D * A)) :
  is_ok (transact d body).2 = false -> (transact d body).1 = d.
Proof. by destruct body as [[d' b]|e]. Qed.

Lemma apply_row env op d id r :
  qd_queue d !! id = Some r ->
  exists r', qd_queue (queue_apply env op d) !! id = Some r' /\
    match accepted_outcome id env op d with
    | None => rtc quiet r r'
    | Some o => qr_status r = Claimed /\ qr_fence_token r = qc_fence_token (qo_claim o) /\
                exists next, r' = outcome_row o next r
    end.
Proof.
  intros Hr. destruct op; simpl; try by apply (fun H : quiet_queue d _ => H id r Hr); auto using
    enqueue_quiet, claim_next_quiet, renew_quiet, defer_quiet, quiet_same.
  destruct (is_ok (write_alert_delivery_queue_outcome env d o actor).2) eqn:Hok.
  - destruct ((write_alert_delivery_queue_outcome env d o actor).2) as [[]|] eqn:E; [|done].
    apply outcome_accepted in E as (x & next & Hx & Hs & Hf & He). rewrite He, andb_true_r.
    destruct (String.eqb (qc_queue_id (qo_claim o)) id) eqn:Eid.
    + apply String.eqb_eq in Eid as <-. simplify_eq. rewrite lookup_insert_eq. eauto 9.
    + apply String.eqb_neq in Eid. rewrite lookup_insert_ne by done. by exists r.
  - rewrite andb_false_r. unfold write_alert_delivery_queue_outcome in *.
    rewrite transact_failure by done. by exists r.
Qed.

(** ** What rows preserve *)

Definition finished (r : QueueRow) : bool :=
  match qr_status r with Succeeded | DeadLetter => true | _ => false end.

Lemma quiet_finished r r' : finished r = true -> rtc quiet r r' -> r' = r.
Proof.
  intros Hf Hq. inv Hq as [|? x ? Hs _]; [done|]. unfold finished in Hf.
  destruct Hs as [E|E|E]; unfold waiting in *; by repeat case_match; simplify_eq.
Qed.

(** Fence [f] can no longer be used on the row. *)
Definition spent (f : Z) (r : QueueRow) : Prop :=
  f < qr_fence_token r \/ f = qr_fence_token r /\ qr_status r <> Claimed.

Lemma quiet_spent f r r' : spent f r -> rtc quiet r r' -> spent f r'.
Proof.
  intros Hs Hq. induction Hq as [|r x r' Hrx _ IH]; [done|]. apply IH. clear IH.
  unfold spent in *. destruct Hrx as [E E' F _|E E' F _|E E' F _]; rewrite F.
  - destruct Hs as [|[_ Hn]]; [by left|congruence].
  - destruct Hs as [|[_ Hn]]; [by left|congruence].
  - left. lia.
Qed.

Lemma outcome_spent o next r f :
  spent f r -> qr_status r = Claimed -> spent f (outcome_row o next r).
Proof. unfold spent. simpl. intros [?|[? ?]]; [by left|done]. Qed.

Lemma script_spent f id script d r :
  qd_queue d !! id = Some r -> spent f r ->
  exists r', qd_queue (run_queue script d) !! id = Some r' /\ spent f r'.
Proof.
  revert d r. induction script as [|[env op] script IH]; intros d r Hr Hs; simpl; [eauto|].
  destruct (apply_row env op d id r Hr) as (r' & Hr' & Ho).
  apply (IH _ r' Hr'). destruct (accepted_outcome id env op d) as [o|].
  - destruct Ho as (Hc & _ & next & ->). by apply outcome_spent.
  - by eapply quiet_spent.
Qed.

Lemma script_finished id script d r :
  qd_queue d !! id = Some r -> finished r = true -> qd_queue (run_queue script d) !! id = Some r.
Proof.
  revert d r. induction script as [|[env op] script IH]; intros d r Hr Hf; simpl; [done|].
  destruct (apply_row env op d id r Hr) as (r' & Hr' & Ho). apply IH; [|done].
  destruct (accepted_outcome id env op d) as [o|].
  - destruct Ho as (Hc & _). unfold finished in Hf. by rewrite Hc in Hf.
  - by rewrite (quiet_finished r r') in Hr'.
Qed.

Lemma spent_refuses d c t r :
  qd_queue d !! qc_queue_id c = Some r -> spent (qc_fence_token c) r -> held_row d c t = None.
Proof.
  intros Hr Hs. destruct (held_row d c t) as [x|] eqn:Eh; [|done].
  apply held_row_some in Eh as (Hx & Hst & Hf). simplify_eq.
  destruct Hs as [Hl|[_ Hn]]; [lia|done].
Qed.

Lemma held_none_refuses env d c :
  (forall t, held_row d c t = None) ->
  (forall now lease actor x, (write_alert_delivery_queue_renew env d c now lease actor).2 <> Ok x) /\
  (forall o actor, qo_claim o = c -> (write_alert_delivery_queue_outcome env d o actor).2 <> Ok tt) /\
  (forall t next actor, (write_alert_delivery_queue_defer env d c t next actor).2 <> Ok tt).
Proof.
  intros Hn. split_and!.
  - intros now lease actor x. unfold write_alert_delivery_queue_renew.
    intros (d' & Hb & _)%transact_success. rewrite Hn in Hb. by peel_in Hb.
  - intros o actor <-. unfold write_alert_delivery_queue_outcome.
    intros (d' & Hb & _)%transact_success. rewrite Hn in Hb. by peel_in Hb.
  - intros t next actor. unfold write_alert_delivery_queue_defer.
    intros (d' & Hb & _)%transact_success. rewrite Hn in Hb. by peel_in Hb.
Qed.

(** C17: a claim on a queued delivery records at most one outcome: once its
    outcome is accepted, every later renewal, outcome or deferral under the
    same fence is refused, whatever happens in between, and a delivery that
    succeeded or became a dead letter never changes again. *)
Theorem delivery_recorded_once env d o actor script :
  (write_alert_delivery_queue_outcome env d o actor).2 = Ok tt ->
  let d1 := (write_alert_delivery_queue_outcome env d o actor).1 in
  let d' := run_queue script d1 in
  (outcome_status o <> Retry ->
     exists r, qd_queue d1 !! qc_queue_id (qo_claim o) = Some r /\
               qr_status r = outcome_status o /\
               qd_queue d' !! qc_queue_id (qo_claim o) = Some r) /\
  forall env' c, qc_queue_id c = qc_queue_id (qo_claim o) ->
    qc_fence_token c = qc_fence_token (qo_claim o) ->
    (forall now lease a x, (write_alert_delivery_queue_renew env' d' c now lease a).2 <> Ok x) /\
    (forall o' a, qo_claim o' = c -> (write_alert_delivery_queue_outcome env' d' o' a).2 <> Ok tt) /\
    (forall t next a, (write_alert_delivery_queue_defer env' d' c t next a).2 <> Ok tt).
Proof.
  intros Hok d1 d'. destruct (outcome_accepted _ _ _ _ Hok) as (r & next & Hr & Hs & Hf & He).
  assert (qd_queue d1 !! qc_queue_id (qo_claim o) = Some (outcome_row o next r)) as Hr1.
  { unfold d1. rewrite He. apply lookup_insert_eq. }
  split.
  - intros Hn. exists (outcome_row o next r). split_and!; [done..|].
    apply script_finished; [done|]. unfold finished. simpl. unfold outcome_status in *.
    by repeat case_match.
  - intros env' c Hid Hfence. apply held_none_refuses. intros t.
    destruct (script_spent (qc_fence_token c) (qc_queue_id c) script d1 (outcome_row o next r))
      as (r' & Hr' & Hsp); [by rewrite Hid| |by eapply spent_refuses].
    right. simpl. split; [congruence|]. unfold outcome_status. by repeat case_match.
Qed.

(** ** Outcomes that are refused *)

(** An answer with a status outside 100-599 is never recorded: its status
    class is the text [unknown], which the stored payload of an attempt does
    not allow, so the outcome is refused and the queue is left as it was, with
    the attempt not counted. *)
Theorem unknown_status_never_recorded env d o actor status :
  in_range 100 599 status = false ->
  at_http_status_class (qo_attempt o) = Some (http_status_class status) ->
  (write_alert_delivery_queue_outcome env d o actor).2 <> Ok tt /\
  (write_alert_delivery_queue_outcome env d o actor).1 = d.
Proof.
  intros Hst Hcl.
  assert (http_status_class status = "unknown") as Hu.
  { unfold http_status_class. apply not_true_iff_false in Hst. rewrite in_range_spec in Hst.
    repeat (destruct (in_range _ _ status) eqn:E; [apply in_range_spec in E; lia|clear E]).
    done. }
  rewrite Hu in Hcl.
  assert (forall u, validate_alert_delivery_queue_outcome o <> Ok u) as Hv.
  { intros u. unfold validate_alert_delivery_queue_outcome, validate_alert_delivery_attempt_record,
      delivery_attempt_detail_payload, dap_validate. rewrite Hcl. intros Hv.
    peel_in Hv. by repeat (case_match; simplify_eq). }
  unfold write_alert_delivery_queue_outcome. destruct (map_err _ _) as [u|]; [|done]. cbn.
  destruct (validate_alert_delivery_queue_outcome o) as [u'|] eqn:E; [by destruct (Hv u')|done].
Qed.
End scripts.

(** ** A concrete delivery *)

Definition qs_hook : AlertWebhookHookRecord :=
  {| wh_hook_id := "hook-1"; wh_name := "pager"; wh_hook_type := "webhook";
     wh_endpoint_url := "https://pager.example/alerts";
     wh_endpoint_url_redacted := "https://pager.example/<redacted>";
     wh_endpoint_host := "pager.example"; wh_host_allow := ["pager.example"];
     wh_hmac_key_id := "key-1"; wh_enabled := true; wh_max_attempts := 2; wh_timeout_ms := 3000;
     wh_created_at := "Z"; wh_updated_at := "Z" |}.

Definition qs_alert : AlertEventRecord :=
  {| al_alert_id := "alert-1"; al_dedupe_key := "d1"; al_node_id := None; al_severity := "warning";
     al_state := "open"; al_reason_code := "STALE"; al_first_seen_at := "Z";
     al_last_seen_at := "Z"; al_last_sent_at := None; al_resolved_at := None;
     al_detail_json := VObject [] |}.

Definition qs_item : string := "delivery-queue-1".

Definition qs_enqueue : AlertDeliveryQueueEnqueue :=
  {| qe_queue_id := qs_item; qe_alert_id := "alert-1"; qe_hook_id := "hook-1";
     qe_idempotency_key := toy_hex "alert"; qe_group_key := "group"; qe_enqueued_at := toy_format 900 |}.

(** A claim for one minute at an odd instant, its outcome at a later even one. *)
Definition qs_claim (count fence at_ : Z) : AlertDeliveryQueueClaim :=
  {| qc_queue_id := qs_item; qc_alert_id := "alert-1"; qc_hook_id := "hook-1";
     qc_idempotency_key := toy_hex "alert"; qc_group_key := "group"; qc_attempt_count := count;
     qc_owner_id := "worker-1"; qc_fence_token := fence; qc_claimed_at := toy_format at_;
     qc_lease_expires_at := toy_format (at_ + 60000000000) |}.

Definition qs_outcome (count fence at_ : Z) (class : string) (code : string) (retry : option string)
    : AlertDeliveryQueueOutcome :=
  {| qo_claim := qs_claim count fence at_;
     qo_attempt := {| at_attempt_id := "attempt-" +:+ (if count =? 0 then "1" else "2");
                      at_alert_id := "alert-1"; at_hook_id := "hook-1"; at_attempt_no := count + 1;
                      at_attempted_at := toy_format (at_ + 1); at_status := "failed";
                      at_http_status_class := Some class; at_error_code := Some code;
                      at_bytes_sent := 100 |};
     qo_completed_at := toy_format (at_ + 3); qo_retry_at := retry; qo_retryable := true;
     qo_max_attempts := 2 |}.

Definition qs_first : AlertDeliveryQueueOutcome :=
  qs_outcome 0 1 1001 "5xx" "WEBHOOK_HTTP_5XX" (Some (toy_format 1011)).

Definition qs_claimed : list (StoreEnv * QueueOp) :=
  [(sc_env, QHook qs_hook); (sc_env, QAlert qs_alert); (sc_env, QEnqueue qs_enqueue "worker");
   (sc_env, QClaimNext "worker-1" (toy_format 1001) 60 "worker")].

Definition qs_db : QueueDb := run_queue qs_claimed empty_queue.

Lemma delivery_recorded_once_witness :
  (write_alert_delivery_queue_outcome sc_env
     (run_queue [(sc_env, QClaimNext "worker-1" (toy_format 1011) 60 "worker")]
        (write_alert_delivery_queue_outcome sc_env qs_db qs_first "worker").1)
     qs_first "worker").2 <> Ok tt.
Proof.
  assert ((write_alert_delivery_queue_outcome sc_env qs_db qs_first "worker").2 = Ok tt) as Hok
    by (vm_compute; reflexivity).
  destruct (delivery_recorded_once sc_env qs_db qs_first "worker"
    [(sc_env, QClaimNext "worker-1" (toy_format 1011) 60 "worker")] Hok) as [_ Hall].
  destruct (Hall sc_env (qo_claim qs_first) eq_refl eq_refl) as (_ & Hout & _).
  exact (Hout qs_first "worker" eq_refl).
Defined.

Lemma unknown_status_never_recorded_witness :
  (write_alert_delivery_queue_outcome sc_env qs_db
     (qs_outcome 0 1 1001 "unknown" "WEBHOOK_HTTP_STATUS_INVALID" (Some (toy_format 1011)))
     "worker").2 <> Ok tt.
Proof.
  apply (unknown_status_never_recorded sc_env qs_db
    (qs_outcome 0 1 1001 "unknown" "WEBHOOK_HTTP_STATUS_INVALID" (Some (toy_format 1011)))
    "worker" 700); reflexivity.
Defined.
