(* ===== verification/StoreLemmas.v ===== *)
(** * StoreLemmas: what the statements of the store do to the tables *)

From S2P Require Import Prelude Text External AgentConfig InputValidation StoreTypes.
From S2P Require Import StoredText StoragePayloads StoreDb TrustStore Enrollment.

(** ** Payloads survive the round trip through their column *)

Lemma mapM_strs l : mapM as_str (map VString l) = Some l.
Proof. induction l as [|s l IH]; simpl; [done|]. by rewrite IH. Qed.

Lemma mapM_pairs l :
  mapM de_pair (map (fun p : string * string => VArray [VString p.1; VString p.2]) l) = Some l.
Proof. induction l as [|[a b] l IH]; simpl; [done|]. by rewrite IH. Qed.

Lemma de_vec_strs l : de_vec as_str (json_strs l) = Some l.
Proof. apply mapM_strs. Qed.

Lemma de_vec_pairs l : de_vec de_pair (json_pairs l) = Some l.
Proof. apply mapM_pairs. Qed.

Lemma tbp_decode_to_value p : tbp_decode (tbp_to_value p) = Some p.
Proof.
  unfold tbp_decode, tbp_to_value, struct_fields.
  cbn -[de_vec json_strs json_pairs as_str as_u64].
  rewrite !de_vec_strs, de_vec_pairs. by destruct p.
Qed.

Lemma TrustBundle_decode_public p :
  TrustBundle_decode (tbp_public_bundle p) =
  s ← endpoint_status_from_str (tbp_status p);
  Some {| tb_endpoint_id := tbp_endpoint_id p; tb_generation := tbp_generation p;
          tb_status := s; tb_trusted_controllers := tbp_trusted_controllers p;
          tb_trusted_peers := tbp_trusted_peers p;
          tb_authorized_path_probes := tbp_authorized_path_probes p |}.
Proof.
  unfold TrustBundle_decode, tbp_public_bundle, struct_fields.
  cbn -[de_vec json_strs json_pairs as_str as_u64 endpoint_status_from_str].
  rewrite !de_vec_strs, de_vec_pairs. by destruct (endpoint_status_from_str _).
Qed.

Lemma tbp_new_valid e g s c p pr q : tbp_new e g s c p pr = Ok q -> tbp_validate q = Ok tt.
Proof. unfold tbp_new. intros Hn. by peel_all Hn. Qed.

Lemma tbp_from_legacy_valid e g s v q : tbp_from_legacy e g s v = Ok q -> tbp_validate q = Ok tt.
Proof. unfold tbp_from_legacy. intros Hn. peel Hn. eauto using tbp_new_valid. Qed.

Lemma tbp_from_value_valid v q : tbp_from_value v = Ok q -> tbp_validate q = Ok tt.
Proof. unfold tbp_from_value. intros Hn. by peel_all Hn. Qed.

Lemma tbp_relationship p e g s :
  tbp_validate_relationship p e g s = Ok tt ->
  tbp_endpoint_id p = e /\ tbp_generation p = g /\ tbp_status p = s.
Proof. unfold tbp_validate_relationship. intros Hn. peel Hn. done. Qed.

(** A stored bundle decodes to a payload that matches its row. *)
Lemma canonical_trust_bundle_ok e g s v b :
  canonical_trust_bundle e g s v = Ok b ->
  exists p, tbp_from_value b = Ok p /\
    tbp_validate_relationship p e g (endpoint_status_as_str s) = Ok tt.
Proof.
  unfold canonical_trust_bundle. intros Hb. peel_all Hb.
  assert (tbp_validate a = Ok tt) as Hv.
  { peel Hm; eauto using tbp_from_legacy_valid, tbp_from_value_valid. }
  exists a. unfold tbp_from_value. rewrite tbp_decode_to_value. simpl. rewrite Hv.
  done.
Qed.

(** ** Rows of endpoint_trust *)

(** A row that can be read. *)
Definition row_ok (row : EndpointTrustRecord) : Prop :=
  is_ok (endpoint_trust_from_row row) = true.

(** The columns of a row apart from the bundle. *)
Definition row_fields (r : EndpointTrustRecord) :=
  (et_endpoint_id r, et_node_id r, et_fingerprint r, et_status r, et_generation r,
   et_previous_endpoint_id r, et_rotated_to r).

Lemma from_row_fields row r :
  endpoint_trust_from_row row = Ok r -> row_fields r = row_fields row.
Proof. unfold endpoint_trust_from_row. intros Hr. peel Hr. done. Qed.

(** A record read from the table passes the bundle check. *)
Lemma from_row_projection row r :
  endpoint_trust_from_row row = Ok r -> validate_endpoint_bundle_projection r = Ok tt.
Proof.
  unfold endpoint_trust_from_row. intros Hr. peel_all Hr.
  apply tbp_relationship in Hm0 as (He & Hg & Hs).
  unfold validate_endpoint_bundle_projection. simpl.
  rewrite TrustBundle_decode_public, Hs, endpoint_status_roundtrip. simpl.
  rewrite He, Hg, String.eqb_refl, Z.eqb_refl. simpl.
  by rewrite bool_decide_eq_false_2 by naive_solver.
Qed.

Lemma row_ok_generation row : row_ok row -> 1 <= et_generation row <= i64_max.
Proof.
  unfold row_ok, endpoint_trust_from_row. intros Hr.
  destruct (0 <=? et_generation row) eqn:Hg; [|done]. unfold map_err in Hr.
  destruct (tbp_from_value _) as [p|] eqn:Hp; [|done].
  destruct (tbp_validate_relationship _ _ _ _) as [[]|] eqn:Hrel; [|done].
  apply tbp_relationship in Hrel as (_ & Hgen & _). apply tbp_from_value_valid in Hp.
  unfold tbp_validate in Hp. peel Hp. lia.
Qed.

(** A row written with a canonical bundle can be read. *)
Lemma canonical_row_ok row v b :
  canonical_trust_bundle (et_endpoint_id row) (et_generation row) (et_status row) v = Ok b ->
  et_trust_bundle_json row = b -> 0 <= et_generation row -> row_ok row.
Proof.
  intros Hc <- Hg. apply canonical_trust_bundle_ok in Hc as (p & Hp & Hrel).
  unfold row_ok, endpoint_trust_from_row. apply Z.leb_le in Hg as ->.
  rewrite Hp. simpl. by rewrite Hrel.
Qed.

Lemma row_ok_read row : row_ok row -> exists r, endpoint_trust_from_row row = Ok r.
Proof. unfold row_ok. destruct (endpoint_trust_from_row row); [eauto|done]. Qed.

Lemma get_trust_some db e r :
  get_endpoint_trust_tx db e = Ok (Some r) ->
  exists row, db_trust db !! e = Some row /\ endpoint_trust_from_row row = Ok r.
Proof.
  unfold get_endpoint_trust_tx, optional_row. intros Hg. peel Hg. eauto.
Qed.

Lemma get_trust_none db e : get_endpoint_trust_tx db e = Ok None -> db_trust db !! e = None.
Proof. unfold get_endpoint_trust_tx, optional_row. intros Hg. by peel Hg. Qed.

(** ** Selections *)

Lemma elem_of_select {A} (P : A -> bool) (m : gmap string A) x :
  x ∈ select P m <-> exists k, m !! k = Some x /\ P x = true.
Proof.
  unfold select. rewrite list_elem_of_In, filter_In, in_map_iff. split.
  - intros [([k y] & <- & Hin) HP]. exists k. split; [|done].
    by apply list_elem_of_In, elem_of_map_to_list in Hin.
  - intros (k & Hk & HP). split; [|done]. exists (k, x). split; [done|].
    by apply list_elem_of_In, elem_of_map_to_list.
Qed.

Lemma select_nil {A} (P : A -> bool) (m : gmap string A) :
  select P m = [] -> forall k x, m !! k = Some x -> P x = false.
Proof.
  intros Hs k x Hk. destruct (P x) eqn:HP; [|done].
  assert (x ∈ select P m) as Hin by (apply elem_of_select; eauto). rewrite Hs in Hin.
  by apply elem_of_nil in Hin.
Qed.

Lemma node_by_endpoint_none db e :
  get_node_by_endpoint_tx db e = None ->
  forall k n, db_nodes db !! k = Some n -> node_endpoint_id n <> e.
Proof.
  unfold get_node_by_endpoint_tx. intros Hs k n Hk.
  destruct (select _ _) as [|x l] eqn:Hsel; [|done].
  pose proof (select_nil _ _ Hsel k n Hk) as Hne. by apply String.eqb_neq.
Qed.

Lemma node_by_endpoint_some db e n :
  get_node_by_endpoint_tx db e = Some n ->
  exists k, db_nodes db !! k = Some n /\ node_endpoint_id n = e.
Proof.
  unfold get_node_by_endpoint_tx. intros Hs.
  destruct (select _ _) as [|x l] eqn:Hsel; [done|]. simpl in Hs. simplify_eq.
  assert (n ∈ n :: l) as Hin by left. rewrite <- Hsel in Hin.
  apply elem_of_select in Hin as (k & Hk & He). apply String.eqb_eq in He. eauto.
Qed.

Lemma insert_by_endpoint_perm x l : insert_by_endpoint x l ≡ₚ x :: l.
Proof.
  induction l as [|y l IH]; simpl; [done|]. destruct (str_ltb _ _); [|done].
  rewrite IH. apply Permutation_swap.
Qed.

Lemma order_by_endpoint_perm l : order_by_endpoint l ≡ₚ l.
Proof.
  induction l as [|x l IH]; simpl; [done|]. by rewrite insert_by_endpoint_perm, IH.
Qed.

(** ** Statements *)

Lemma insert_audit_frame `{JsonOps, TimeOps} db e db' :
  insert_audit_tx db e = Ok db' -> exists log, db' = set_audit (db_audit db ++ [log]) db /\
    exists p, adp_new e = Ok p /\ log = with_detail (adp_to_value p) e.
Proof.
  unfold insert_audit_tx. intros Ha. peel_all Ha. eauto 10.
Qed.

Lemma insert_node_ok db node db' :
  insert_node_tx db node = Ok db' ->
  db_nodes db !! ni_node_id node = None /\
  (forall k n, db_nodes db !! k = Some n -> node_endpoint_id n <> ni_endpoint_id node) /\
  db' = set_nodes (<[ni_node_id node :=
          {| node_id := ni_node_id node; node_endpoint_id := ni_endpoint_id node;
             node_name := ni_name node; node_region := ni_region node;
             node_role := ni_role node; node_enabled := true |}]> (db_nodes db)) db.
Proof.
  unfold insert_node_tx. intros Hi. peel Hi. eauto using node_by_endpoint_none.
Qed.

Lemma insert_trust_ok env db e db' :
  insert_endpoint_trust_tx env db e = Ok db' -> 0 <= et_generation e ->
  db_trust db !! et_endpoint_id e = None /\
  exists row, db' = set_trust (<[et_endpoint_id e := row]> (db_trust db)) db /\
    row_fields row = row_fields e /\ row_ok row.
Proof.
  unfold insert_endpoint_trust_tx, endpoint_generation_to_i64. intros Hi Hg. peel_all Hi.
  split; [done|]. eexists. split; [reflexivity|]. split; [done|].
  by eapply canonical_row_ok.
Qed.

Lemma unrotated_lineage_none db e :
  validate_unrotated_lineage db e = Ok tt -> et_rotated_to e = None.
Proof.
  unfold validate_unrotated_lineage. intros Hv.
  destruct (validate_endpoint_bundle_projection e); [|done].
  destruct (bool_decide _) eqn:Hr; [done|]. bool_facts. by apply eq_None_not_Some.
Qed.

Lemma transition_ok env db before status db' after :
  transition_endpoint_status_tx env db before status = Ok (db', after) ->
  exists row row', db_trust db !! et_endpoint_id before = Some row /\
    et_status row = et_status before /\ et_generation row = et_generation before /\
    et_rotated_to before = None /\ et_generation before < i64_max /\
    db' = set_trust (<[et_endpoint_id before := row']> (db_trust db)) db /\
    row_fields row' = (et_endpoint_id row, et_node_id row, et_fingerprint row, status,
      et_generation row + 1, et_previous_endpoint_id row, et_rotated_to row) /\
    (et_endpoint_id row = et_endpoint_id before -> 0 <= et_generation row -> row_ok row').
Proof.
  unfold transition_endpoint_status_tx, next_endpoint_generation, endpoint_generation_to_i64.
  intros Ht. peel_all Ht.
  match goal with H : validate_unrotated_lineage _ _ = _ |- _ =>
    pose proof (unrotated_lineage_none _ _ H) as Hrot end.
  eexists _, _. repeat split; try done; try lia;
    [unfold row_fields; simpl; by rewrite Hm3|].
  intros He Hg. eapply canonical_row_ok; simpl; [rewrite He; eassumption|done|lia].
Qed.

Lemma update_node_endpoint_ok db id old new disable db' n :
  update_node_endpoint_tx db id old new disable = Ok (db', n) -> n = 1 ->
  exists nd, db_nodes db !! id = Some nd /\ node_endpoint_id nd = old /\
    (get_node_by_endpoint_tx db new = None \/
     exists m, get_node_by_endpoint_tx db new = Some m /\ node_id m = id) /\
    db' = set_nodes (<[id := with_endpoint new
            (if disable then with_enabled false nd else nd)]> (db_nodes db)) db.
Proof.
  unfold update_node_endpoint_tx. intros Hu ->. peel Hu; eauto 10.
Qed.
