(* ===== verification/TrustInvariant.v ===== *)
(** * TrustInvariant: the registry and the trust table stay coherent

    [trust_wf] is the invariant of the node registry and the trust table,
    [trust_step] the abstract specification of what one operation may do to
    them.  The operations of TrustStore and Enrollment are shown to be such
    steps elsewhere; here the steps are shown to keep the invariant and to
    follow the life cycle of an endpoint. *)

From S2P Require Import Prelude Text External StoreTypes StoredText StoragePayloads StoreDb.
From S2P Require Import TrustStore Enrollment StoreLemmas.

(** ** The invariant *)

(** Rotation edges lead to a successor that names its predecessor. *)
Record edges_wf (T : gmap string EndpointTrustRecord) : Prop := {
  wf_rotated e r : T !! e = Some r -> (et_status r = Rotated <-> is_Some (et_rotated_to r));
  wf_child e r c : T !! e = Some r -> et_rotated_to r = Some c ->
    exists rc, T !! c = Some rc /\ et_previous_endpoint_id rc = Some e;
  wf_prev e r p : T !! e = Some r -> et_previous_endpoint_id r = Some p ->
    exists rp, T !! p = Some rp /\ et_rotated_to rp = Some e /\
      et_node_id rp = et_node_id r /\ et_fingerprint rp = et_fingerprint r /\
      et_generation rp <= et_generation r;
}.

Record trust_wf (db : Db) : Prop := {
  (** the primary keys *)
  wf_node_key k n : db_nodes db !! k = Some n -> node_id n = k;
  wf_trust_key e r : db_trust db !! e = Some r -> et_endpoint_id r = e;
  (** UNIQUE [nodes.endpoint_id] *)
  wf_unique k1 k2 n1 n2 :
    db_nodes db !! k1 = Some n1 -> db_nodes db !! k2 = Some n2 ->
    node_endpoint_id n1 = node_endpoint_id n2 -> k1 = k2;
  (** every row can be read: its bundle repeats its columns *)
  wf_rows e r : db_trust db !! e = Some r -> row_ok r;
  (** a bound active endpoint is the current endpoint of its node *)
  wf_active e r n :
    db_trust db !! e = Some r -> et_status r = Active -> et_node_id r = Some n ->
    exists nd, db_nodes db !! n = Some nd /\ node_endpoint_id nd = e;
  (** an enabled node has an active endpoint bound to it *)
  wf_enabled n nd :
    db_nodes db !! n = Some nd -> node_enabled nd = true ->
    exists r, db_trust db !! node_endpoint_id nd = Some r /\ et_status r = Active /\
      et_node_id r = Some n;
  wf_edges : edges_wf (db_trust db);
}.

(** ** The steps *)

(** The row [r'] is [r] moved to status [s] in the next generation. *)
Definition moved (r r' : EndpointTrustRecord) (s : EndpointStatus) (rotated : option string)
    : Prop :=
  row_ok r' /\
  row_fields r' = (et_endpoint_id r, et_node_id r, et_fingerprint r, s,
                   et_generation r + 1, et_previous_endpoint_id r, rotated).

Definition no_node_at (db : Db) (e : string) (except : string) : Prop :=
  forall k m, db_nodes db !! k = Some m -> node_endpoint_id m = e -> k = except.

(** The registry after the endpoint of row [r] loses its trust. *)
Definition disable_bound (nodes : gmap string NodeRecord) (r : EndpointTrustRecord)
    : gmap string NodeRecord :=
  match et_node_id r with
  | Some n =>
      match nodes !! n with
      | Some nd =>
          if String.eqb (node_endpoint_id nd) (et_endpoint_id r) && node_enabled nd
          then <[n := with_enabled false nd]> nodes else nodes
      | None => nodes
      end
  | None => nodes
  end.

Inductive trust_step (db db' : Db) : Prop :=
| step_none :
    db_nodes db' = db_nodes db -> db_trust db' = db_trust db -> trust_step db db'
| step_register n nd row fp :
    db_nodes db !! n = None -> (forall k m, db_nodes db !! k = Some m ->
      node_endpoint_id m <> node_endpoint_id nd) ->
    db_trust db !! node_endpoint_id nd = None -> row_ok row ->
    row_fields row = (node_endpoint_id nd, Some n, fp, Active, 1, None, None) ->
    node_id nd = n -> node_enabled nd = true ->
    db_nodes db' = <[n := nd]> (db_nodes db) ->
    db_trust db' = <[node_endpoint_id nd := row]> (db_trust db) -> trust_step db db'
| step_switch n nd (on : bool) :
    db_nodes db !! n = Some nd ->
    (on = true -> exists r, db_trust db !! node_endpoint_id nd = Some r /\
       et_status r = Active /\ et_node_id r = Some n) ->
    db_nodes db' = <[n := with_enabled on nd]> (db_nodes db) ->
    db_trust db' = db_trust db -> trust_step db db'
| step_retire e r r' s :
    db_trust db !! e = Some r -> transition_allowed (et_status r) s = true ->
    moved r r' s None -> db_nodes db' = disable_bound (db_nodes db) r ->
    db_trust db' = <[e := r']> (db_trust db) -> trust_step db db'
| step_remove n nd :
    db_nodes db !! n = Some nd ->
    db_nodes db' = delete n (db_nodes db) ->
    (db_trust db' = db_trust db \/
     exists e r r', db_trust db !! e = Some r /\ et_status r = Active /\ moved r r' Revoked None /\
       no_node_at db e n /\ db_trust db' = <[e := r']> (db_trust db)) ->
    (forall e r, db_trust db' !! e = Some r -> et_status r = Active ->
       et_node_id r <> Some n) ->
    trust_step db db'
| step_rotate n nd old new r r' rn :
    db_nodes db !! n = Some nd -> node_endpoint_id nd = old ->
    db_trust db !! old = Some r -> et_status r = Active \/ et_status r = Quarantined ->
    et_node_id r = Some n -> db_trust db !! new = None -> no_node_at db new n ->
    moved r r' Rotated (Some new) -> row_ok rn ->
    row_fields rn = (new, Some n, et_fingerprint r, Active, et_generation r + 1,
                     Some old, None) ->
    db_nodes db' = <[n := with_endpoint new
      (if bool_decide (et_status r = Quarantined) then with_enabled false nd else nd)]>
      (db_nodes db) ->
    db_trust db' = <[new := rn]> (<[old := r']> (db_trust db)) -> trust_step db db'
| step_reconcile n nd old new ro rn :
    db_nodes db !! n = Some nd -> node_endpoint_id nd = old ->
    db_trust db !! old = Some ro -> et_status ro = Rotated ->
    db_trust db !! new = Some rn -> et_node_id rn = Some n -> no_node_at db new n ->
    db_nodes db' = <[n := with_endpoint new
      (if bool_decide (et_status rn <> Active) then with_enabled false nd else nd)]>
      (db_nodes db) ->
    db_trust db' = db_trust db -> trust_step db db'
| step_claim n nd r r' :
    db_nodes db !! n = None -> (forall k m, db_nodes db !! k = Some m ->
      node_endpoint_id m <> node_endpoint_id nd) ->
    db_trust db !! node_endpoint_id nd = Some r -> et_node_id r = None ->
    et_status r = Active -> et_previous_endpoint_id r = None -> et_rotated_to r = None ->
    row_ok r' ->
    row_fields r' = (et_endpoint_id r, Some n, et_fingerprint r, et_status r,
                     et_generation r, None, None) ->
    node_id nd = n -> node_enabled nd = true ->
    db_nodes db' = <[n := nd]> (db_nodes db) ->
    db_trust db' = <[node_endpoint_id nd := r']> (db_trust db) -> trust_step db db'.

(** ** Reading off the fields of a row *)

Lemma row_fields_inv r e n f s g p t :
  row_fields r = (e, n, f, s, g, p, t) ->
  et_endpoint_id r = e /\ et_node_id r = n /\ et_fingerprint r = f /\ et_status r = s /\
  et_generation r = g /\ et_previous_endpoint_id r = p /\ et_rotated_to r = t.
Proof. unfold row_fields. intros H. by simplify_eq. Qed.

Ltac row_facts :=
  repeat match goal with
  | H : moved _ _ _ _ |- _ =>
      let Ho := fresh "Hok" in let Hf := fresh "Hrow" in destruct H as [Ho Hf]
  | H : row_fields _ = (_, _, _, _, _, _, _) |- _ =>
      apply row_fields_inv in H;
      let He := fresh "Hep" in let Hn := fresh "Hnode" in let Hf := fresh "Hfp" in
      let Hs := fresh "Hst" in let Hg := fresh "Hgen" in let Hp := fresh "Hprev" in
      let Ht := fresh "Hrot" in
      destruct H as (He & Hn & Hf & Hs & Hg & Hp & Ht)
  end.

Lemma lookup_disable_bound nodes r k nd' :
  disable_bound nodes r !! k = Some nd' ->
  exists nd, nodes !! k = Some nd /\ node_id nd' = node_id nd /\
    node_endpoint_id nd' = node_endpoint_id nd /\
    (node_enabled nd' = true -> node_enabled nd = true /\
       (et_node_id r = Some k -> node_endpoint_id nd <> et_endpoint_id r)).
Proof.
  unfold disable_bound. intros Hk.
  assert (forall nd0, nodes !! k = Some nd0 -> nd' = nd0 ->
    (node_enabled nd0 = true -> et_node_id r = Some k ->
     node_endpoint_id nd0 <> et_endpoint_id r) ->
    exists nd, nodes !! k = Some nd /\ node_id nd' = node_id nd /\
      node_endpoint_id nd' = node_endpoint_id nd /\
      (node_enabled nd' = true -> node_enabled nd = true /\
         (et_node_id r = Some k -> node_endpoint_id nd <> et_endpoint_id r))) as Hsame.
  { intros nd0 H0 -> Hd. exists nd0. split_and!; auto. }
  destruct (et_node_id r) as [n|] eqn:Hn; [|eapply Hsame; eauto; congruence].
  destruct (nodes !! n) as [nd|] eqn:Hnd; [|eapply Hsame; eauto; congruence].
  destruct (String.eqb _ _ && _) eqn:He.
  - apply lookup_insert_Some in Hk as [[-> <-]|[Hne Hk]]; [|eapply Hsame; eauto; congruence].
    exists nd. repeat split; done.
  - eapply Hsame; [done..|]. intros Hen [= ->] Hee. rewrite Hk in Hnd. simplify_eq.
    rewrite Hee, String.eqb_refl, Hen in He. done.
Qed.

(** Split the lookups in an updated map. *)
Ltac map_cases :=
  repeat match goal with
  | H : <[_ := _]> _ !! _ = Some _ |- _ =>
      apply lookup_insert_Some in H;
      let H1 := fresh "Hk" in let H2 := fresh "Hv" in
      destruct H as [[H1 H2]|[H1 H2]]; subst
  | H : delete _ _ !! _ = Some _ |- _ =>
      apply lookup_delete_Some in H;
      let H1 := fresh "Hk" in let H2 := fresh "Hv" in destruct H as [H1 H2]
  end.

(** ** Edges *)

Section edges.
Context (T : gmap string EndpointTrustRecord) (HT : edges_wf T).

Lemma edges_insert_fresh e row :
  T !! e = None -> et_status row <> Rotated -> et_previous_endpoint_id row = None ->
  et_rotated_to row = None -> edges_wf (<[e := row]> T).
Proof using HT.
  intros He Hs Hp Hr. split.
  - intros k r Hk. map_cases; [|eauto using wf_rotated]. rewrite Hr. split; [done|].
    by intros [? ?].
  - intros k r c Hk Hc. map_cases; [congruence|].
    destruct (wf_child T HT k r c) as (rc & Hrc & ?); [done..|].
    exists rc. split; [|done]. rewrite lookup_insert_ne; [done|]. congruence.
  - intros k r p Hk Hpp. map_cases; [congruence|].
    destruct (wf_prev T HT k r p) as (rp & Hrp & ?); [done..|].
    exists rp. split; [|done]. rewrite lookup_insert_ne; [done|]. congruence.
Qed.

(** Changing a row that is not rotated, without its edges. *)
Lemma edges_update e r r' :
  T !! e = Some r -> et_rotated_to r = None -> et_rotated_to r' = None ->
  et_status r' <> Rotated -> et_previous_endpoint_id r' = et_previous_endpoint_id r ->
  et_generation r <= et_generation r' ->
  (et_previous_endpoint_id r <> None ->
   et_node_id r' = et_node_id r /\ et_fingerprint r' = et_fingerprint r) ->
  edges_wf (<[e := r']> T).
Proof using HT.
  intros He Hr Hr' Hs Hp Hg Hsame. split.
  - intros k q Hk. map_cases; [|eauto using wf_rotated]. rewrite Hr'. split; [done|].
    by intros [? ?].
  - intros k q c Hk Hc. map_cases; [congruence|].
    destruct (wf_child T HT k q c) as (rc & Hrc & Hrp); [done..|].
    destruct (decide (c = e)) as [->|Hne].
    + exists r'. rewrite lookup_insert_eq. split; [done|]. congruence.
    + exists rc. by rewrite lookup_insert_ne.
  - intros k q p Hk Hpp. map_cases.
    + rewrite Hp in Hpp. destruct (wf_prev T HT k r p) as (rp & Hrp & Hto & ? & ? & ?); [done..|].
      destruct Hsame as [-> ->]; [congruence|].
      exists rp. rewrite lookup_insert_ne by congruence. split_and!; try done. lia.
    + destruct (wf_prev T HT k q p) as (rp & Hrp & Hto & ?); [done..|].
      exists rp. rewrite lookup_insert_ne by congruence. done.
Qed.

(** A rotation adds one edge. *)
Lemma edges_rotate old new r r' rn :
  T !! old = Some r -> et_rotated_to r = None -> T !! new = None ->
  row_fields r' = (et_endpoint_id r, et_node_id r, et_fingerprint r, Rotated,
                   et_generation r + 1, et_previous_endpoint_id r, Some new) ->
  row_fields rn = (new, et_node_id r, et_fingerprint r, Active, et_generation r + 1,
                   Some old, None) ->
  edges_wf (<[new := rn]> (<[old := r']> T)).
Proof using HT.
  intros Hold Hr Hnew F1 F2. row_facts. assert (new <> old) as Hne by congruence. split.
  - intros k q Hk. map_cases; [| |eauto using wf_rotated].
    + rewrite Hst, Hrot. split; [done|]. by intros [? ?].
    + rewrite Hst0, Hrot0. split; [|done]. eauto.
  - intros k q c Hk Hc. map_cases; [congruence| |].
    + exists rn. rewrite Hrot0 in Hc. injection Hc as <-. by rewrite lookup_insert_eq.
    + destruct (wf_child T HT k q c) as (rc & Hrc & Hrp); [done..|].
      rewrite lookup_insert_ne by congruence. destruct (decide (c = old)) as [->|Hco].
      * exists r'. rewrite lookup_insert_eq. split; [done|]. congruence.
      * exists rc. by rewrite lookup_insert_ne.
  - intros k q p Hk Hpp. map_cases.
    + rewrite Hprev in Hpp. injection Hpp as <-. exists r'.
      rewrite lookup_insert_ne, lookup_insert_eq by done. split_and!; try congruence. lia.
    + rewrite Hprev0 in Hpp. destruct (wf_prev T HT k r p) as (rp & Hrp & Hto & ?&?&?); [done..|].
      exists rp. rewrite !lookup_insert_ne by congruence. split_and!; try congruence. lia.
    + destruct (wf_prev T HT k q p) as (rp & Hrp & Hto & ?); [done..|].
      exists rp. rewrite !lookup_insert_ne by congruence. done.
Qed.
End edges.

(** ** Preservation *)

Section preservation.
Context (db db' : Db) (Hwf : trust_wf db).

Lemma wf_unrotated e r :
  db_trust db !! e = Some r -> et_status r <> Rotated -> et_rotated_to r = None.
Proof using Hwf.
  intros Hr Hs. apply eq_None_not_Some. intros Hi. apply Hs.
  by apply (wf_rotated _ (wf_edges _ Hwf) e r).
Qed.

(** Registration and legacy claim: a new node on an endpoint that no node
    has, with a row bound to it. *)
Lemma bind_new_node n nd row :
  db_nodes db !! n = None ->
  (forall k m, db_nodes db !! k = Some m -> node_endpoint_id m <> node_endpoint_id nd) ->
  row_ok row -> et_endpoint_id row = node_endpoint_id nd -> et_node_id row = Some n ->
  et_status row = Active -> node_id nd = n ->
  edges_wf (<[node_endpoint_id nd := row]> (db_trust db)) ->
  db_nodes db' = <[n := nd]> (db_nodes db) ->
  db_trust db' = <[node_endpoint_id nd := row]> (db_trust db) -> trust_wf db'.
Proof using Hwf.
  intros Hn Hfree Hok Hep Hnode Hst Hid Hedges En Et. split; rewrite ?En, ?Et; [..|done].
  - intros k m Hk. map_cases; eauto using wf_node_key.
  - intros e r He. map_cases; eauto using wf_trust_key.
  - intros k1 k2 n1 n2 H1 H2 Heq. map_cases; eauto using wf_unique.
    + by destruct (Hfree _ _ Hv).
    + by destruct (Hfree _ _ Hv).
  - intros e r He. map_cases; eauto using wf_rows.
  - intros e r m He Hs Hm. map_cases.
    + exists nd. rewrite Hnode in Hm. injection Hm as <-. by rewrite lookup_insert_eq.
    + destruct (wf_active _ Hwf e r m) as (md & Hmd & ?); [done..|].
      exists md. rewrite lookup_insert_ne by congruence. done.
  - intros m md Hmd Hen. map_cases.
    + exists row. by rewrite lookup_insert_eq.
    + destruct (wf_enabled _ Hwf m md) as (r & Hr & ?); [done..|].
      exists r. rewrite lookup_insert_ne; [done|]. intros Heq. by destruct (Hfree _ _ Hv).
Qed.

Lemma switch_wf n nd (on : bool) :
  db_nodes db !! n = Some nd ->
  (on = true -> exists r, db_trust db !! node_endpoint_id nd = Some r /\
     et_status r = Active /\ et_node_id r = Some n) ->
  db_nodes db' = <[n := with_enabled on nd]> (db_nodes db) ->
  db_trust db' = db_trust db -> trust_wf db'.
Proof using Hwf.
  intros Hn Hon En Et. split; rewrite ?En, ?Et; eauto using wf_trust_key, wf_rows, wf_edges.
  - intros k m Hk. map_cases; [|eauto using wf_node_key]. exact (wf_node_key _ Hwf _ _ Hn).
  - intros k1 k2 n1 n2 H1 H2 Heq. map_cases; simpl in Heq; eauto using wf_unique.
  - intros e r m He Hs Hm. destruct (wf_active _ Hwf e r m) as (md & Hmd & Hep); [done..|].
    destruct (decide (m = n)) as [->|Hne].
    + exists (with_enabled on nd). rewrite lookup_insert_eq. simplify_eq. done.
    + exists md. by rewrite lookup_insert_ne.
  - intros m md Hmd Hen. map_cases; [by apply Hon|]. by apply (wf_enabled _ Hwf).
Qed.

Lemma retire_wf e r r' s :
  db_trust db !! e = Some r -> transition_allowed (et_status r) s = true ->
  moved r r' s None -> db_nodes db' = disable_bound (db_nodes db) r ->
  db_trust db' = <[e := r']> (db_trust db) -> trust_wf db'.
Proof using Hwf.
  intros He Hallow Hmv En Et. row_facts.
  assert (et_status r <> Rotated /\ s <> Rotated /\ s <> Active) as (Hr & Hs & Ha)
    by (destruct (et_status r), s; done).
  pose proof (wf_trust_key _ Hwf _ _ He) as Hkey.
  assert (forall n nd, db_nodes db !! n = Some nd -> node_enabled nd = true ->
            node_endpoint_id nd = e -> et_node_id r = Some n) as Hbound.
  { intros n nd Hn Hen Hee. destruct (wf_enabled _ Hwf n nd) as (q & Hq & _ & ?); [done..|].
    congruence. }
  split; rewrite ?En, ?Et.
  - intros k m Hk. apply lookup_disable_bound in Hk as (nd & Hnd & -> & _).
    eauto using wf_node_key.
  - intros k q Hk. map_cases; [congruence|]. eauto using wf_trust_key.
  - intros k1 k2 n1 n2 H1 H2. apply lookup_disable_bound in H1 as (m1 & Hm1 & _ & -> & _).
    apply lookup_disable_bound in H2 as (m2 & Hm2 & _ & -> & _). eauto using wf_unique.
  - intros k q Hk. map_cases; eauto using wf_rows.
  - intros k q n Hk Hq Hn. map_cases; [congruence|].
    destruct (wf_active _ Hwf k q n) as (nd & Hnd & Hee); [done..|].
    unfold disable_bound. destruct (et_node_id r) as [m|] eqn:Hm; [|eauto].
    destruct (db_nodes db !! m) as [md|] eqn:Hmd; [|eauto].
    destruct (_ && _) eqn:Hc; [|eauto]. bool_facts.
    destruct (decide (m = n)) as [->|]; [congruence|].
    exists nd. by rewrite lookup_insert_ne.
  - intros n nd' Hn Hen. apply lookup_disable_bound in Hn as (nd & Hnd & _ & -> & Hx).
    destruct (Hx Hen) as [Hen' Hne].
    destruct (wf_enabled _ Hwf n nd) as (q & Hq & ?); [done..|].
    exists q. rewrite lookup_insert_ne; [done|]. intros Heq.
    destruct Hne; [|congruence]. by apply (Hbound n nd).
  - eapply edges_update; eauto using wf_edges, wf_unrotated; [congruence|lia].
Qed.

Lemma remove_wf n nd :
  db_nodes db !! n = Some nd -> db_nodes db' = delete n (db_nodes db) ->
  (db_trust db' = db_trust db \/
   exists e r r', db_trust db !! e = Some r /\ et_status r = Active /\ moved r r' Revoked None /\
     no_node_at db e n /\ db_trust db' = <[e := r']> (db_trust db)) ->
  (forall e r, db_trust db' !! e = Some r -> et_status r = Active -> et_node_id r <> Some n) ->
  trust_wf db'.
Proof using Hwf.
  intros Hn En Et Hnone.
  assert (forall e q, db_trust db' !! e = Some q -> et_status q = Active ->
            db_trust db !! e = Some q) as Hold.
  { intros e q Hq Hs. destruct Et as [<-|(e0 & r & r' & He0 & Ha & Hmv & _ & Et)]; [done|].
    rewrite Et in Hq. row_facts. map_cases; [congruence|done]. }
  split; rewrite ?En.
  - intros k m Hk. map_cases. eauto using wf_node_key.
  - intros k q Hk. destruct Et as [Et|(e & r & r' & He & Ha & Hmv & Hno & Et)];
      rewrite Et in Hk; [by apply (wf_trust_key _ Hwf)|]. row_facts. map_cases.
    + pose proof (wf_trust_key _ Hwf _ _ He). congruence.
    + eauto using wf_trust_key.
  - intros k1 k2 n1 n2 H1 H2. map_cases. eauto using wf_unique.
  - intros k q Hk. destruct Et as [Et|(e & r & r' & He & Ha & Hmv & Hno & Et)];
      rewrite Et in Hk; [by apply (wf_rows _ Hwf k)|]. row_facts. map_cases; eauto using wf_rows.
  - intros e q m He Hs Hm. destruct (wf_active _ Hwf e q m) as (md & Hmd & ?); eauto.
    exists md. rewrite lookup_delete_ne; [done|]. intros <-. by destruct (Hnone e q).
  - intros m md Hmd Hen. map_cases. destruct (wf_enabled _ Hwf m md) as (q & Hq & ?); [done..|].
    exists q. split; [|done]. destruct Et as [->|(e & r & r' & He & Ha & Hmv & Hno & ->)]; [done|].
    rewrite lookup_insert_ne; [done|]. intros ->. by apply Hk, eq_sym, (Hno m md).
  - destruct Et as [->|(e & r & r' & He & Ha & Hmv & Hno & ->)]; [apply (wf_edges _ Hwf)|].
    row_facts. eapply edges_update; eauto using wf_edges; [|congruence|lia].
    apply (wf_unrotated e); [done|congruence].
Qed.

(** The registry after the pointer of one node has moved to an endpoint that
    no other node has. *)
Lemma repoint_wf n nd nd' new :
  db_nodes db !! n = Some nd -> node_id nd' = node_id nd -> node_endpoint_id nd' = new ->
  no_node_at db new n -> db_nodes db' = <[n := nd']> (db_nodes db) ->
  (forall k m, db_nodes db' !! k = Some m -> node_id m = k) /\
  (forall k1 k2 n1 n2, db_nodes db' !! k1 = Some n1 -> db_nodes db' !! k2 = Some n2 ->
     node_endpoint_id n1 = node_endpoint_id n2 -> k1 = k2).
Proof using Hwf.
  intros Hn Hid Hee Hno ->. split.
  - intros k m Hk. map_cases; [|eauto using wf_node_key].
    rewrite Hid. exact (wf_node_key _ Hwf _ _ Hn).
  - intros k1 k2 n1 n2 H1 H2 Heq. map_cases; eauto using wf_unique.
    symmetry. by eapply Hno.
Qed.

Lemma rotate_wf n nd old new r r' rn :
  db_nodes db !! n = Some nd -> node_endpoint_id nd = old ->
  db_trust db !! old = Some r -> et_status r = Active \/ et_status r = Quarantined ->
  et_node_id r = Some n -> db_trust db !! new = None -> no_node_at db new n ->
  moved r r' Rotated (Some new) -> row_ok rn ->
  row_fields rn = (new, Some n, et_fingerprint r, Active, et_generation r + 1, Some old, None) ->
  db_nodes db' = <[n := with_endpoint new
    (if bool_decide (et_status r = Quarantined) then with_enabled false nd else nd)]>
    (db_nodes db) ->
  db_trust db' = <[new := rn]> (<[old := r']> (db_trust db)) -> trust_wf db'.
Proof using Hwf.
  intros Hn Hnd Hold Hs Hb Hnew Hno Hmv Hok Hf En Et.
  set (nd' := with_endpoint new _) in En.
  destruct (repoint_wf n nd nd' new) as [Hk1 Hk2]; try done.
  { by unfold nd'; destruct (bool_decide _). }
  pose proof (wf_trust_key _ Hwf _ _ Hold) as Hkey.
  assert (et_rotated_to r = None) as Hrot by (apply (wf_unrotated old); [done|destruct Hs; congruence]).
  split; rewrite ?Et; [done|..|].
  - row_facts. intros k q Hk. map_cases; [congruence|congruence|]. eauto using wf_trust_key.
  - done.
  - row_facts. intros k q Hk. map_cases; eauto using wf_rows.
  - row_facts. intros e q m He Ha Hm. rewrite En. map_cases.
    + exists nd'. rewrite Hnode in Hm. injection Hm as <-. by rewrite lookup_insert_eq.
    + congruence.
    + destruct (wf_active _ Hwf e q m) as (md & Hmd & ?); [done..|].
      exists md. rewrite lookup_insert_ne by congruence. done.
  - row_facts. intros m md Hm Hen. rewrite En in Hm. map_cases.
    + exists rn. by rewrite lookup_insert_eq.
    + destruct (wf_enabled _ Hwf m md) as (q & Hq & ?); [done..|].
      exists q. split; [|done].
      rewrite lookup_insert_ne by (intros Heq; by apply Hk, eq_sym, (Hno m md)).
      rewrite lookup_insert_ne; [done|]. intros Heq. apply Hk.
      apply (wf_unique _ Hwf n m nd md); congruence.
  - destruct Hmv as [_ Hmv]. rewrite <- Hb in Hf. eapply edges_rotate; eauto using wf_edges.
Qed.

Lemma reconcile_wf n nd old new ro rn :
  db_nodes db !! n = Some nd -> node_endpoint_id nd = old ->
  db_trust db !! old = Some ro -> et_status ro = Rotated ->
  db_trust db !! new = Some rn -> et_node_id rn = Some n -> no_node_at db new n ->
  db_nodes db' = <[n := with_endpoint new
    (if bool_decide (et_status rn <> Active) then with_enabled false nd else nd)]>
    (db_nodes db) ->
  db_trust db' = db_trust db -> trust_wf db'.
Proof using Hwf.
  intros Hn Hnd Hold Hs Hnew Hb Hno En Et. set (nd' := with_endpoint new _) in En.
  destruct (repoint_wf n nd nd' new) as [Hk1 Hk2]; try done.
  { by unfold nd'; destruct (bool_decide _). }
  split; rewrite ?Et; eauto using wf_trust_key, wf_rows, wf_edges.
  - intros e q m He Ha Hm. rewrite En.
    destruct (wf_active _ Hwf e q m) as (md & Hmd & Hee); [done..|].
    exists md. rewrite lookup_insert_ne; [done|]. intros <-.
    rewrite Hn in Hmd. injection Hmd as <-. congruence.
  - intros m md Hm Hen. rewrite En in Hm. map_cases; [|eauto using wf_enabled].
    exists rn. split_and!; try done. unfold nd' in Hen.
    destruct (bool_decide _) eqn:Hd; [done|]. by bool_facts.
Qed.

(** Every step keeps the invariant. *)
Lemma trust_step_wf : trust_step db db' -> trust_wf db'.
Proof using Hwf.
  destruct 1; eauto using switch_wf, retire_wf, remove_wf, rotate_wf, reconcile_wf.
  - destruct Hwf. split; rewrite ?H, ?H0; done.
  - row_facts. eapply bind_new_node; eauto. apply edges_insert_fresh; eauto using wf_edges.
    congruence.
  - row_facts. pose proof (wf_trust_key _ Hwf _ _ H1).
    eapply bind_new_node; eauto; [congruence..|].
    eapply edges_update; eauto using wf_edges; try congruence; lia.
Qed.
End preservation.

(** ** The life cycle of an endpoint *)

(** The statuses an endpoint can reach from a status. *)
Definition reaches (from to : EndpointStatus) : bool :=
  match from, to with
  | Active, _ => true
  | Quarantined, (Quarantined | Revoked | Rotated) => true
  | Revoked, Revoked | Rotated, Rotated => true
  | _, _ => false
  end.

(** A row at a later time: it is still there, with the same origin, its
    status has moved along the life cycle and every move took a new
    generation. *)
Record row_later (r r' : EndpointTrustRecord) : Prop := {
  later_endpoint : et_endpoint_id r' = et_endpoint_id r;
  later_fingerprint : et_fingerprint r' = et_fingerprint r;
  later_previous : et_previous_endpoint_id r' = et_previous_endpoint_id r;
  later_node n : et_node_id r = Some n -> et_node_id r' = Some n;
  later_status : reaches (et_status r) (et_status r') = true;
  later_generation : et_generation r <= et_generation r';
  later_fresh : et_status r <> et_status r' -> et_generation r < et_generation r';
}.

Lemma reaches_refl s : reaches s s = true.
Proof. by destruct s. Qed.

Lemma row_later_refl r : row_later r r.
Proof. split; try done. apply reaches_refl. Qed.

Lemma row_later_trans r1 r2 r3 : row_later r1 r2 -> row_later r2 r3 -> row_later r1 r3.
Proof.
  intros [E1 F1 P1 N1 S1 G1 L1] [E2 F2 P2 N2 S2 G2 L2]. split; try congruence; auto; try lia.
  - destruct (et_status r1), (et_status r2), (et_status r3); done.
  - intros Hne. destruct (decide (et_status r1 = et_status r2)) as [Heq|Heq].
    + rewrite Heq in Hne. specialize (L2 Hne). lia.
    + specialize (L1 Heq). lia.
Qed.

Lemma moved_later r r' s t : moved r r' s t -> reaches (et_status r) s = true -> row_later r r'.
Proof. intros Hm Hr. row_facts. split; try congruence; try lia. Qed.

(** A row of the table after one of its rows was replaced by a later one. *)
Lemma insert_later (T : gmap string EndpointTrustRecord) e r r' k q :
  T !! e = Some r -> row_later r r' -> T !! k = Some q ->
  exists q', <[e := r']> T !! k = Some q' /\ row_later q q'.
Proof.
  intros He Hl Hk. destruct (decide (k = e)) as [->|Hne].
  - exists r'. rewrite lookup_insert_eq. split; [done|congruence].
  - exists q. rewrite lookup_insert_ne by done. split; [done|apply row_later_refl].
Qed.

Lemma insert_fresh_later (T : gmap string EndpointTrustRecord) e r' k q :
  T !! e = None -> T !! k = Some q ->
  exists q', <[e := r']> T !! k = Some q' /\ row_later q q'.
Proof.
  intros He Hk. exists q. rewrite lookup_insert_ne by congruence.
  split; [done|apply row_later_refl].
Qed.

Lemma trust_step_later db db' e r :
  trust_step db db' -> db_trust db !! e = Some r ->
  exists r', db_trust db' !! e = Some r' /\ row_later r r'.
Proof.
  intros Hs He. assert (exists r', db_trust db !! e = Some r' /\ row_later r r') as Hsame
    by eauto using row_later_refl.
  destruct Hs as [_ ->|n nd row fp _ _ Hf _ _ _ _ _ ->|n nd on _ _ _ ->|k q q' s Hk Ha Hm _ ->
    |n nd _ _ [->|(k & q & q' & Hk & Ha & Hm & _ & ->)] _
    |n nd old new q q' rn _ _ Hk Hs _ Hn _ Hm _ _ _ ->|n nd old new ro rn _ _ _ _ _ _ _ _ ->
    |n nd q q' _ _ Hk Hn Hs Hp Hr _ Hf _ _ _ ->]; try done.
  - by eapply insert_fresh_later.
  - eapply insert_later; eauto. eapply moved_later; [done|]. by destruct (et_status q), s.
  - eapply insert_later; eauto. eapply moved_later; [done|]. by rewrite Ha.
  - destruct (insert_later (db_trust db) old q q' e r) as (r1 & Hr1 & Hl1); try done.
    { eapply moved_later; [done|]. by destruct Hs as [-> | ->]. }
    destruct (insert_fresh_later (<[old := q']> (db_trust db)) new rn e r1) as (r2 & ? & ?); try done.
    { rewrite lookup_insert_ne by congruence. done. }
    eauto using row_later_trans.
  - eapply insert_later; eauto. row_facts.
    split; try congruence; [rewrite Hst; apply reaches_refl|lia].
Qed.
