(* ===== verification/TrustRefinement.v ===== *)
(** * TrustRefinement: the operations implement the abstract steps

    For a coherent store every operation of TrustStore and Enrollment, with any
    input and whatever its result, is one [trust_step] on the registry and the
    trust table. *)

From S2P Require Import Prelude Text External AgentConfig InputValidation StoreTypes.
From S2P Require Import StoredText StoragePayloads StoreDb TrustStore Enrollment StoreLemmas.
From S2P Require Import TrustInvariant.

(** An error rolls back; a success is described by the body. *)
Lemma transact_step {A} db (body : result StoreError (Db * A)) :
  (forall db' a, body = Ok (db', a) -> trust_step db db') -> trust_step db (transact db body).1.
Proof.
  intros Hb. destruct body as [[db' a]|e]; simpl; [by eapply Hb|by apply step_none].
Qed.

(** The tables apart from the audit log. *)
Definition same_tables (db db' : Db) : Prop :=
  db_nodes db' = db_nodes db /\ db_trust db' = db_trust db /\ db_tokens db' = db_tokens db /\
  db_joins db' = db_joins db.

Lemma insert_audit_tables `{JsonOps, TimeOps} db e db' :
  insert_audit_tx db e = Ok db' -> same_tables db db'.
Proof. intros Hi. by apply insert_audit_frame in Hi as (log & -> & _). Qed.

Definition same_trust (db db' : Db) : Prop :=
  db_nodes db' = db_nodes db /\ db_trust db' = db_trust db.

Lemma insert_audit_trust `{JsonOps, TimeOps} db e db' :
  insert_audit_tx db e = Ok db' -> same_trust db db'.
Proof. intros Hi. apply insert_audit_tables in Hi as (? & ? & _). done. Qed.

(** A step stays a step when writes to other tables follow. *)
Lemma step_then_audit db db1 db2 :
  same_trust db1 db2 -> trust_step db db1 -> trust_step db db2.
Proof.
  intros [Hn Ht] Hs. destruct Hs.
  - apply step_none; congruence.
  - eapply step_register; eauto; congruence.
  - eapply step_switch; eauto; congruence.
  - eapply step_retire; eauto; congruence.
  - eapply step_remove; eauto; [congruence| |]; rewrite Ht; done.
  - eapply step_rotate; eauto; congruence.
  - eapply step_reconcile; eauto; congruence.
  - eapply step_claim; eauto; congruence.
Qed.

(** Where the registry row of an endpoint stands. *)
Lemma node_by_endpoint_unique db e n :
  trust_wf db ->
  (forall m, get_node_by_endpoint_tx db e = Some m -> node_id m = n) -> no_node_at db e n.
Proof.
  intros Hwf Hm k nd Hk He.
  destruct (get_node_by_endpoint_tx db e) as [m|] eqn:Hg.
  - destruct (node_by_endpoint_some _ _ _ Hg) as (k' & Hk' & He').
    assert (k = k') as -> by (eapply (wf_unique _ Hwf k k'); eauto; congruence).
    rewrite <- (Hm m) by done. symmetry. by apply (wf_node_key _ Hwf).
  - by destruct (node_by_endpoint_none _ _ Hg k nd).
Qed.

Section refinement.
Context `{EndpointIdOps, TimeOps, JsonOps, DigestOps}.
Implicit Types (env : StoreEnv).

(** Inserting a node and its first trust row. *)
Lemma register_step env db node fp bundle c u db1 db2 :
  insert_node_tx db node = Ok db1 ->
  insert_endpoint_trust_tx env db1
    {| et_endpoint_id := ni_endpoint_id node; et_node_id := Some (ni_node_id node);
       et_fingerprint := fp; et_status := Active; et_generation := 1;
       et_previous_endpoint_id := None; et_rotated_to := None;
       et_trust_bundle_json := bundle; et_created_at := c; et_updated_at := u |} = Ok db2 ->
  trust_step db db2.
Proof.
  intros Hn Ht. apply insert_node_ok in Hn as (Hfree & Hno & ->).
  apply insert_trust_ok in Ht as (Hnew & row & -> & Hf & Hok); [|done].
  eapply (step_register db _ (ni_node_id node)
    {| node_id := ni_node_id node; node_endpoint_id := ni_endpoint_id node;
       node_name := ni_name node; node_region := ni_region node;
       node_role := ni_role node; node_enabled := true |} row fp); done.
Qed.

Lemma add_node_step env db node actor : trust_step db (add_node env db node actor).1.
Proof.
  apply transact_step. intros db' a Hb. peel_all Hb.
  eapply step_then_audit; [by eapply insert_audit_trust|]. by eapply register_step.
Qed.

Lemma active_binding_row db nd :
  validate_active_node_binding_tx db nd = Ok tt ->
  exists r, db_trust db !! node_endpoint_id nd = Some r /\ et_status r = Active /\
    et_node_id r = Some (node_id nd).
Proof.
  unfold validate_active_node_binding_tx. intros Hv. peel_all Hv.
  match goal with H : get_endpoint_trust_tx _ _ = Ok (Some ?q) |- _ =>
    destruct (get_trust_some _ _ _ H) as (row & Hrow & Hfrom) end.
  apply from_row_fields in Hfrom. unfold row_fields in Hfrom. simplify_eq.
  exists row. split_and!; congruence.
Qed.

Lemma set_node_enabled_step env db id on actor name :
  trust_wf db -> trust_step db (set_node_enabled env db id on actor name).1.
Proof.
  intros Hwf. apply transact_step. intros db' a Hb. peel_all Hb;
    (eapply step_then_audit; [by eapply insert_audit_trust|]);
    match goal with H : get_node_tx db id = Some ?q |- _ =>
      eapply (step_switch db _ id q); [exact H| |reflexivity|reflexivity];
      rename H into Hn end; [|done].
  match goal with H : validate_active_node_binding_tx _ _ = _ |- _ =>
    apply active_binding_row in H as (r & ? & ? & ?) end.
  intros _. exists r. split_and!; try done. rewrite (wf_node_key _ Hwf _ _ Hn) in *. done.
Qed.

(** What [transition_endpoint_status_tx] does to a record that was read. *)
Lemma transition_moved env db row before s db' after :
  trust_wf db -> db_trust db !! et_endpoint_id before = Some row ->
  row_fields before = row_fields row ->
  transition_endpoint_status_tx env db before s = Ok (db', after) ->
  exists row', moved row row' s None /\
    db' = set_trust (<[et_endpoint_id before := row']> (db_trust db)) db.
Proof.
  intros Hwf Hrow Hsame Ht. apply transition_ok in Ht
    as (row0 & row' & Hr0 & _ & _ & Hrot & _ & -> & Hf & Hok).
  rewrite Hrow in Hr0. injection Hr0 as <-. exists row'. split; [|done].
  pose proof (row_ok_generation _ (wf_rows _ Hwf _ _ Hrow)).
  split; [apply Hok; [by apply (wf_trust_key _ Hwf)|lia]|]. rewrite Hf.
  unfold row_fields in Hsame. simplify_eq. congruence.
Qed.

(** A record read at an endpoint is the row there, apart from the bundle. *)
Lemma read_row db e r :
  trust_wf db -> get_endpoint_trust_tx db e = Ok (Some r) ->
  exists row, db_trust db !! e = Some row /\ row_fields r = row_fields row /\
    et_endpoint_id r = e.
Proof.
  intros Hwf Hg. destruct (get_trust_some _ _ _ Hg) as (row & Hrow & Hf).
  apply from_row_fields in Hf. exists row. split_and!; try done.
  unfold row_fields in Hf. simplify_eq. rewrite <- (wf_trust_key _ Hwf _ _ Hrow). congruence.
Qed.

Lemma exact_bound_node db r row :
  row_fields r = row_fields row ->
  disable_bound (db_nodes db) row =
  match get_exact_bound_node_tx db r with
  | Some nd =>
      if node_enabled nd
      then match et_node_id r with
           | Some n => <[n := with_enabled false nd]> (db_nodes db)
           | None => db_nodes db
           end
      else db_nodes db
  | None => db_nodes db
  end.
Proof.
  unfold row_fields, disable_bound, get_exact_bound_node_tx, get_node_tx. intros Hf. simplify_eq.
  replace (et_node_id row) with (et_node_id r) by congruence.
  replace (et_endpoint_id row) with (et_endpoint_id r) by congruence.
  destruct (et_node_id r) as [n|]; [|done]. destruct (db_nodes db !! n) as [nd|]; [|done].
  destruct (String.eqb _ _); simpl; [|done]. by destruct (node_enabled nd).
Qed.

Lemma exact_bound_node_key db r nd :
  trust_wf db -> get_exact_bound_node_tx db r = Some nd -> et_node_id r = Some (node_id nd).
Proof.
  unfold get_exact_bound_node_tx, get_node_tx. intros Hwf Hg. peel Hg.
  by rewrite (wf_node_key _ Hwf _ _ Hm0).
Qed.

(** The update of the bound node finds the row that was read. *)
Lemma disable_bound_node_ok db d r nd :
  trust_wf db -> get_exact_bound_node_tx db r = Some nd -> db_nodes d = db_nodes db ->
  disable_bound_node_tx d (node_id nd) (et_endpoint_id r)
  = Ok (set_nodes (<[node_id nd := with_enabled false nd]> (db_nodes db)) d).
Proof.
  unfold get_exact_bound_node_tx, get_node_tx, disable_bound_node_tx. intros Hwf Hg Hd. peel Hg.
  rewrite (wf_node_key _ Hwf _ _ Hm0), Hd, Hm0. simpl. by rewrite Hc, String.eqb_refl.
Qed.

Lemma update_endpoint_status_step env db e s actor reason action :
  trust_wf db -> trust_step db (update_endpoint_status env db e s actor reason action).1.
Proof.
  intros Hwf. apply transact_step. intros db' a Hb. peel_all Hb; [by apply step_none|].
  eapply step_then_audit; [by eapply insert_audit_trust|].
  destruct (read_row _ _ _ Hwf Hm2) as (row & Hrow & Hf & <-).
  destruct (transition_moved _ _ _ _ _ _ _ Hwf Hrow Hf Hm5) as (row' & Hmv & ->).
  apply (step_retire db _ (et_endpoint_id a4) row row' s); try done.
  - unfold row_fields in Hf. simplify_eq. congruence.
  - rewrite (exact_bound_node db _ _ Hf).
    destruct (get_exact_bound_node_tx db a4) as [nd|] eqn:Hnd; [|by simplify_eq].
    rewrite (exact_bound_node_key _ _ _ Hwf Hnd).
    rewrite (disable_bound_node_ok db _ a4 nd Hwf Hnd) in * by done.
    destruct (node_enabled nd); by simplify_eq.
  - repeat case_match; try by simplify_eq.
    all: rewrite (disable_bound_node_ok db _ a4) in * by done; by simplify_eq.
Qed.

(** ** Removal *)

(** The active rows of a node that were read. *)
Lemma active_rows_elem db n active r :
  get_active_endpoint_trust_for_node_tx db n = Ok active -> r ∈ active ->
  exists e row, db_trust db !! e = Some row /\ row_fields r = row_fields row /\
    et_status row = Active /\ et_node_id row = Some n.
Proof.
  unfold get_active_endpoint_trust_for_node_tx. intros Ha Hr.
  destruct (proj1 (try_map_ok_elem _ _ _ _ Ha) Hr) as (row & Hin & Hf).
  apply elem_of_take in Hin as (i & Hin & _). apply list_elem_of_lookup_2 in Hin.
  rewrite order_by_endpoint_perm in Hin. apply elem_of_select in Hin as (e & He & Hp).
  unfold active_row in Hp. bool_facts. eauto 10 using from_row_fields.
Qed.

Lemma active_rows_nil db n :
  get_active_endpoint_trust_for_node_tx db n = Ok [] ->
  forall e r, db_trust db !! e = Some r -> et_status r = Active -> et_node_id r <> Some n.
Proof.
  unfold get_active_endpoint_trust_for_node_tx. intros Ha e r He Hs Hn.
  apply try_map_length in Ha. simpl in Ha. rewrite length_firstn in Ha.
  rewrite order_by_endpoint_perm in Ha.
  assert (r ∈ select (active_row n) (db_trust db)) as Hin.
  { apply elem_of_select. exists e. split; [done|]. unfold active_row.
    by rewrite !bool_decide_eq_true_2. }
  destruct (select (active_row n) (db_trust db)); [by apply elem_of_nil in Hin|]. simpl in Ha. lia.
Qed.

(** A candidate for revocation is the active row at the node's endpoint. *)
Lemma candidate_row db id nd registry active c :
  trust_wf db -> db_nodes db !! id = Some nd ->
  get_endpoint_trust_tx db (node_endpoint_id nd) = Ok registry ->
  get_active_endpoint_trust_for_node_tx db id = Ok active ->
  c ∈ removal_candidates active registry ->
  exists row, db_trust db !! et_endpoint_id c = Some row /\ row_fields c = row_fields row /\
    et_status row = Active /\ et_endpoint_id c = node_endpoint_id nd.
Proof.
  intros Hwf Hn Hreg Hact Hc.
  assert (c ∈ active \/ exists q, registry = Some q /\ c = q /\ et_status q = Active) as Hcases.
  { unfold removal_candidates in Hc. destruct registry as [q|]; [|by left].
    destruct (_ && _) eqn:Hb; [|by left]. bool_facts.
    apply elem_of_app in Hc as [Hc|Hc%list_elem_of_singleton]; [by left|]. right. eauto. }
  destruct Hcases as [Hc'|(q & -> & -> & Hq)].
  - destruct (active_rows_elem _ _ _ _ Hact Hc') as (e & row & He & Hf & Hs & Hb).
    destruct (wf_active _ Hwf e row id) as (nd' & Hnd' & Hee); [done..|].
    assert (et_endpoint_id c = e) as Hce.
    { rewrite <- (wf_trust_key _ Hwf _ _ He). unfold row_fields in Hf. by simplify_eq. }
    exists row. rewrite Hce. split_and!; try done. congruence.
  - destruct (read_row _ _ _ Hwf Hreg) as (row & Hrow & Hf & He).
    exists row. rewrite He. split_and!; try done. unfold row_fields in Hf. simplify_eq. congruence.
Qed.

Lemma no_candidates active registry : last (removal_candidates active registry) = None -> active = [].
Proof.
  rewrite last_None. unfold removal_candidates. repeat case_match; try done.
  intros Happ. by apply app_nil in Happ as [? _].
Qed.

Lemma remove_node_step env db id actor :
  trust_wf db -> trust_step db (remove_node env db id actor).1.
Proof.
  intros Hwf. apply transact_step. intros db' a Hb. unfold remove_node in Hb.
  destruct (validate_actor actor); simpl in Hb; [|done].
  destruct (get_node_tx db id) as [nd|] eqn:Hnd; simpl in Hb; [|done].
  destruct (get_endpoint_trust_tx db _) as [registry|] eqn:Hreg; [|done].
  destruct (get_active_endpoint_trust_for_node_tx db id) as [active|] eqn:Hact; [|done].
  destruct (Nat.ltb _ _); [done|].
  destruct (last (removal_candidates active registry)) as [c|] eqn:Hc.
  - apply last_Some_elem_of in Hc.
    destruct (candidate_row _ _ _ _ _ _ Hwf Hnd Hreg Hact Hc) as (row & Hrow & Hf & Ha & Hee).
    assert (no_node_at db (et_endpoint_id c) id) as Hno.
    { intros k m Hk Hm. eapply (wf_unique _ Hwf k id); eauto. congruence. }
    pose proof (fun d a => transition_moved env db row c Revoked d a Hwf Hrow Hf) as Hmoved.
    clear Hf. peel_deep Hb;
      (eapply step_then_audit; [by eapply insert_audit_trust|]);
      destruct (Hmoved _ _ eq_refl) as (row' & Hmv & ->);
      (eapply (step_remove db _ _ nd); [exact Hnd|done|right; by eauto 10|]); simpl;
      intros k q Hk Hs Hq; row_facts; map_cases; try congruence;
      destruct (wf_active _ Hwf _ _ _ Hv Hs Hq) as (nd' & Hnd' & ?);
      unfold get_node_tx in Hnd; congruence.
  - peel_deep Hb;
      (eapply step_then_audit; [by eapply insert_audit_trust|]);
      (apply (step_remove db _ id nd); [done|done|by left|]); simpl;
      apply no_candidates in Hc as ->; by apply active_rows_nil.
Qed.

(** ** Rotation *)

Lemma rotation_binding db r nd :
  trust_wf db -> validate_rotation_binding_tx db r = Ok nd ->
  et_node_id r = Some (node_id nd) /\ db_nodes db !! node_id nd = Some nd /\
  node_endpoint_id nd = et_endpoint_id r.
Proof.
  unfold validate_rotation_binding_tx. intros Hwf Hv.
  destruct (et_node_id r) as [n|]; [|done].
  destruct (get_node_tx db n) as [m|] eqn:Hn; simpl in Hv; [|done].
  destruct (String.eqb _ _) eqn:He; simpl in Hv; [|done]. apply String.eqb_eq in He.
  assert (m = nd) as -> by (peel Hv; done).
  pose proof (wf_node_key _ Hwf _ _ Hn) as <-. done.
Qed.

(** Moving the registry pointer of a node. *)
Lemma repoint db id old new disable db' :
  trust_wf db -> update_node_endpoint_tx db id old new disable = Ok (db', 1) ->
  exists nd, db_nodes db !! id = Some nd /\ node_endpoint_id nd = old /\ no_node_at db new id /\
    db' = set_nodes (<[id := with_endpoint new
            (if disable then with_enabled false nd else nd)]> (db_nodes db)) db.
Proof.
  intros Hwf Hu. destruct (update_node_endpoint_ok _ _ _ _ _ _ _ Hu eq_refl)
    as (nd & Hn & He & Hby & ->).
  exists nd. split_and!; try done. apply node_by_endpoint_unique; [done|].
  intros m Hm. destruct Hby as [Hby|(m' & Hby & <-)]; congruence.
Qed.

(** Only the registry matters for [update_node_endpoint_tx]. *)
Lemma update_node_endpoint_trust db T id old new disable :
  update_node_endpoint_tx (set_trust T db) id old new disable =
  match update_node_endpoint_tx db id old new disable with
  | Ok (db', n) => Ok (set_trust T db', n)
  | Err e => Err e
  end.
Proof.
  unfold update_node_endpoint_tx, get_node_by_endpoint_tx. simpl. by repeat case_match.
Qed.

(** The three writes of a rotation. *)
Lemma rotation_writes env db old row new nd now bundle v b2 c u db2 db3 :
  let g := et_generation old + 1 in let id := et_endpoint_id old in
  trust_wf db -> db_trust db !! id = Some row -> row_fields old = row_fields row ->
  et_status row = Active \/ et_status row = Quarantined ->
  et_node_id old = Some (node_id nd) -> db_nodes db !! node_id nd = Some nd ->
  db_trust db !! new = None ->
  canonical_trust_bundle id g Rotated v = Ok bundle ->
  insert_endpoint_trust_tx env
    (set_trust (<[id := with_rotated_to (Some new) (with_status Rotated g bundle now row)]>
       (db_trust db)) db)
    {| et_endpoint_id := new; et_node_id := et_node_id old;
       et_fingerprint := et_fingerprint old; et_status := Active; et_generation := g;
       et_previous_endpoint_id := Some id; et_rotated_to := None; et_trust_bundle_json := b2;
       et_created_at := c; et_updated_at := u |} = Ok db2 ->
  update_node_endpoint_tx db2 (node_id nd) id new
    (bool_decide (et_status old = Quarantined)) = Ok (db3, 1) ->
  trust_step db db3.
Proof.
  intros g id Hwf Hrow Hf Hst Hnode Hn Hnew Hcb Hins Hupd.
  assert (et_generation old = et_generation row /\ et_fingerprint old = et_fingerprint row /\
          et_status old = et_status row /\ et_node_id old = et_node_id row)
    as (Eg & Efp & Est & En) by (unfold row_fields in Hf; by simplify_eq).
  pose proof (row_ok_generation _ (wf_rows _ Hwf _ _ Hrow)).
  pose proof (wf_trust_key _ Hwf _ _ Hrow) as Hkey. clear Hf.
  apply insert_trust_ok in Hins as (Hnone & rn & -> & Hrn & Hok); [|simpl; lia].
  simpl in Hupd. rewrite !update_node_endpoint_trust in Hupd.
  destruct (update_node_endpoint_tx db _ _ _ _) as [[d k]|] eqn:Hm; [|done].
  injection Hupd as <- ->.
  destruct (repoint _ _ _ _ _ _ Hwf Hm) as (nd' & Hn' & Hee & Hno & ->).
  rewrite Hn in Hn'. injection Hn' as <-.
  eapply (step_rotate db _ (node_id nd) nd id new row); try done; [congruence| | |].
  - split.
    + eapply canonical_row_ok; simpl; [rewrite Hkey; exact Hcb|done|lia].
    + unfold row_fields. simpl. unfold g. by rewrite Eg.
  - rewrite Hrn. unfold row_fields, g. simpl. congruence.
  - simpl. by rewrite Est.
Qed.

Lemma rotate_fresh_step env db old row new actor reason db' a :
  trust_wf db -> db_trust db !! et_endpoint_id old = Some row ->
  row_fields old = row_fields row ->
  rotate_endpoint_fresh env db old new actor reason = Ok (db', a) -> trust_step db db'.
Proof.
  intros Hwf Hrow Hf Hb. unfold rotate_endpoint_fresh in Hb. peel_in Hb. unwrap.
  match goal with H : validate_rotation_binding_tx _ _ = Ok ?n |- _ =>
    destruct (rotation_binding _ _ _ Hwf H) as (Hnode & Hn & Hee); rename n into nd end.
  assert (et_status row = Active \/ et_status row = Quarantined) as Hst.
  { unfold row_fields in Hf. simplify_eq. apply negb_false_iff, orb_true_iff in Hc.
    rewrite !bool_decide_eq_true in Hc. destruct Hc; [left|right]; congruence. }
  match goal with H : get_endpoint_trust_tx db new = Ok ?o |- _ =>
    assert (db_trust db !! new = None) as Hnew
      by (destruct o; [exfalso; by bool_facts; eauto|by apply get_trust_none]) end.
  unfold next_endpoint_generation in Hm2. destruct (i64_max <=? _); [done|].
  injection Hm2 as <-.
  unfold endpoint_generation_to_i64 in Hm3. destruct (_ <=? _); [|done]. injection Hm3 as <-.
  rewrite Hrow in Hm5. injection Hm5 as <-. injection Hb as <- <-. bool_facts. subst.
  eapply step_then_audit; [by eapply insert_audit_trust|].
  eapply rotation_writes; eassumption.
Qed.

Lemma rotation_edge_node db old new :
  validate_rotation_edge db old new = Ok tt -> et_node_id old = et_node_id new.
Proof.
  unfold validate_rotation_edge. intros Hv.
  destruct (validate_endpoint_bundle_projection old); [|done].
  destruct (validate_endpoint_bundle_projection new); [|done].
  destruct (_ || _) eqn:Ho in Hv; [done|]. by bool_facts.
Qed.

Lemma rotate_retry_step env db old row new actor reason db' a :
  trust_wf db -> db_trust db !! et_endpoint_id old = Some row ->
  row_fields old = row_fields row -> et_status old = Rotated ->
  rotate_endpoint_retry env db old new actor reason = Ok (db', a) -> trust_step db db'.
Proof.
  intros Hwf Hrow Hf Hst Hb.
  assert (et_status row = Rotated) as Hst' by (unfold row_fields in Hf; simplify_eq; congruence).
  clear Hf. unfold rotate_endpoint_retry in Hb. peel_all Hb; [by apply step_none|].
  eapply step_then_audit; [by eapply insert_audit_trust|].
  match goal with H : get_endpoint_trust_tx db new = Ok (Some ?q) |- _ =>
    destruct (read_row _ _ _ Hwf H) as (rn & Hrn & Hfn & He); rename q into new_after end.
  apply rotation_edge_node in Hm1.
  assert (et_status new_after = et_status rn /\ et_node_id new_after = et_node_id rn)
    as [Es En] by (unfold row_fields in Hfn; by simplify_eq).
  destruct (repoint _ _ _ _ _ _ Hwf Hm5) as (nd & Hn & Hee & Hno & ->).
  eapply (step_reconcile db _ a3 nd (et_endpoint_id old) new row rn); try done; [congruence|].
  simpl. by rewrite Es.
Qed.

Lemma rotate_endpoint_step env db old new actor reason :
  trust_wf db -> trust_step db (rotate_endpoint env db old new actor reason).1.
Proof.
  intros Hwf. apply transact_step. intros db' a Hb. peel_all Hb;
    match goal with H : get_endpoint_trust_tx _ _ = Ok (Some _) |- _ =>
      destruct (read_row _ _ _ Hwf H) as (row & Hrow & Hf & <-) end;
    eauto using rotate_retry_step, rotate_fresh_step.
Qed.

(** ** Enrollment *)

Lemma update_pending_trust db id f db' n :
  update_pending_join db id f = (db', n) -> same_trust db db'.
Proof. unfold update_pending_join. intros Hu. repeat case_match; by simplify_eq. Qed.

Lemma update_token_status_trust db id s db' n :
  update_token_status db id s = (db', n) -> same_trust db db'.
Proof. unfold update_token_status. intros Hu. repeat case_match; by simplify_eq. Qed.

Lemma use_token_trust db id s db' n : use_token db id s = (db', n) -> same_trust db db'.
Proof. unfold use_token. intros Hu. repeat case_match; by simplify_eq. Qed.

Lemma same_trust_trans db1 db2 db3 :
  same_trust db1 db2 -> same_trust db2 db3 -> same_trust db1 db3.
Proof. unfold same_trust. intuition congruence. Qed.

Lemma transact_committed_trust {A} db (body : Committed A) :
  (forall db' r, body = Ok (db', r) -> same_trust db db') ->
  same_trust db (transact_committed db body).1.
Proof. intros Hb. destruct body as [[db' r]|e]; simpl; [by eapply Hb|done]. Qed.

(** Follow the writes to other tables. *)
Ltac same_trust_tac :=
  repeat match goal with
  | |- same_trust ?a ?a => done
  | H : insert_audit_tx _ _ = Ok ?b |- same_trust _ ?b =>
      eapply same_trust_trans; [|exact (insert_audit_trust _ _ _ H)]; clear H
  | H : update_pending_join _ _ _ = (?b, _) |- same_trust _ ?b =>
      eapply same_trust_trans; [|exact (update_pending_trust _ _ _ _ _ H)]; clear H
  | H : update_token_status _ _ _ = (?b, _) |- same_trust _ ?b =>
      eapply same_trust_trans; [|exact (update_token_status_trust _ _ _ _ _ H)]; clear H
  | H : use_token _ _ _ = (?b, _) |- same_trust _ ?b =>
      eapply same_trust_trans; [|exact (use_token_trust _ _ _ _ _ H)]; clear H
  end; try done.

Lemma approve_join_request_step env db approval actor :
  trust_step db (approve_join_request env db approval actor).1.
Proof.
  apply transact_step. intros db' a Hb. peel_all Hb.
  - unfold approve_retry in Hb. peel_all Hb. by apply step_none.
  - unfold approve_pending, audit_enrollment_binding_tx in Hb. peel_all Hb.
    match goal with Hn : insert_node_tx _ _ = Ok ?d1,
      Ht : insert_endpoint_trust_tx _ ?d1 _ = Ok ?d2 |- _ =>
      apply (step_then_audit db d2); [|exact (register_step _ _ _ _ _ _ _ _ _ Hn Ht)] end.
    same_trust_tac.
Qed.

Lemma with_bound_node_ok n now row : row_ok row -> row_ok (with_bound_node n now row).
Proof.
  unfold row_ok, endpoint_trust_from_row. simpl. destruct (0 <=? _); [|done].
  destruct (map_err _ _); [|done]. by destruct (map_err _ _).
Qed.

Lemma claim_legacy_enrollment_step env db claim actor :
  trust_wf db -> trust_step db (claim_legacy_enrollment env db claim actor).1.
Proof.
  intros Hwf. apply transact_step. intros db' a Hb. peel_all Hb; [by apply step_none|].
  unfold claim_unbound, audit_enrollment_binding_tx in Hb. peel_all Hb.
  eapply step_then_audit; [by eapply insert_audit_trust|].
  match goal with H : insert_node_tx _ ?n = _ |- _ =>
    apply insert_node_ok in H as (Hfree & Hno & ->); rename n into node end.
  match goal with H : _ !! _ = Some ?q, Hc : claimable _ ?q = true |- _ =>
    rename H into Hrow; rename Hc into Hcl; rename q into row end.
  unfold claimable in Hcl. bool_facts. simpl in Hrow.
  pose proof (wf_rows _ Hwf _ _ Hrow) as Hok.
  eapply (step_claim db _ (ni_node_id node)
    {| node_id := ni_node_id node; node_endpoint_id := ni_endpoint_id node;
       node_name := ni_name node; node_region := ni_region node;
       node_role := ni_role node; node_enabled := true |} row
    (with_bound_node (Some (ni_node_id node)) (env_sql_now env) row));
    try done; [by apply with_bound_node_ok|].
  unfold row_fields. simpl. congruence.
Qed.

Lemma create_enrollment_token_step env db token actor :
  trust_step db (create_enrollment_token env db token actor).1.
Proof.
  apply transact_step. intros db' a Hb. peel_all Hb; [by apply step_none|].
  match goal with |- trust_step db ?d => assert (same_trust db d) as [? ?] by same_trust_tac end.
  by apply step_none.
Qed.

Lemma revoke_enrollment_token_step env db id actor reason :
  trust_step db (revoke_enrollment_token env db id actor reason).1.
Proof.
  apply transact_step. intros db' a Hb. peel_all Hb; [|by apply step_none].
  match goal with |- trust_step db ?d => assert (same_trust db d) as [? ?] by same_trust_tac end.
  by apply step_none.
Qed.

Lemma reject_join_request_step env db id actor reason :
  trust_step db (reject_join_request env db id actor reason).1.
Proof.
  apply transact_step. intros db' a Hb. peel_all Hb; [by apply step_none|].
  match goal with |- trust_step db ?d => assert (same_trust db d) as [? ?] by same_trust_tac end.
  by apply step_none.
Qed.

Lemma submit_join_request_trust env db request actor :
  same_trust db (submit_join_request env db request actor).1.
Proof.
  apply transact_committed_trust. intros db' r Hb.
  unfold expire_and_reject, accept_submission, reject_submission, audit_join_rejection_tx in Hb.
  peel_deep Hb; same_trust_tac.
Qed.
End refinement.
