(* ===== verification/EnrollmentInvariant.v ===== *)
(** * EnrollmentInvariant: token budgets and approvals

    [enroll_wf] relates the token, join-request and trust tables; every
    operation of the store keeps it. *)

From S2P Require Import Prelude Text External AgentConfig InputValidation StoreTypes.
From S2P Require Import StoredText StoragePayloads StoreDb TrustStore Enrollment StoreLemmas.
From S2P Require Import TrustInvariant TrustRefinement.

(** The join requests that were submitted with a token. *)
Definition joins_of (db : Db) (token_id : string) : gmap string JoinRequestRecord :=
  filter (fun e => jr_token_id e.2 = token_id) (db_joins db).

Record enroll_wf (db : Db) : Prop := {
  ew_token_key k t : db_tokens db !! k = Some t -> tok_token_id t = k;
  ew_join_key k j : db_joins db !! k = Some j -> jr_request_id j = k;
  (** a use of a token is a stored join request, within the budget *)
  ew_used k t : db_tokens db !! k = Some t ->
    tok_used_count t = Z.of_nat (size (joins_of db k)) /\ tok_used_count t <= tok_max_uses t;
  ew_join_token k j : db_joins db !! k = Some j -> is_Some (db_tokens db !! jr_token_id j);
  (** an approved request names an original endpoint with its fingerprint *)
  ew_approved k j : db_joins db !! k = Some j -> jr_status j = JoinApproved ->
    exists e row, jr_assigned_endpoint_id j = Some e /\
      (forall q, jr_requested_endpoint_id j = Some q -> q = e) /\
      db_trust db !! e = Some row /\ et_fingerprint row = Some (jr_fingerprint j) /\
      et_previous_endpoint_id row = None;
  ew_distinct k1 k2 j1 j2 : db_joins db !! k1 = Some j1 -> db_joins db !! k2 = Some j2 ->
    jr_status j1 = JoinApproved -> jr_status j2 = JoinApproved ->
    jr_assigned_endpoint_id j1 = jr_assigned_endpoint_id j2 -> k1 = k2;
  ew_unassigned k j : db_joins db !! k = Some j -> jr_status j <> JoinApproved ->
    jr_assigned_endpoint_id j = None;
}.

(** ** Tables that the operation does not write *)

Lemma enroll_frame db db' :
  enroll_wf db -> db_tokens db' = db_tokens db -> db_joins db' = db_joins db ->
  (forall e r, db_trust db !! e = Some r -> exists r', db_trust db' !! e = Some r' /\ row_later r r') ->
  enroll_wf db'.
Proof.
  intros [K J U T A D N] Et Ej Hl.
  split; rewrite ?Et, ?Ej; unfold joins_of; rewrite ?Ej; try done.
  intros k j Hj Hs. destruct (A k j Hj Hs) as (e & row & He & Hq & Hrow & Hf & Hp).
  destruct (Hl e row Hrow) as (row' & Hrow' & Hlater).
  exists e, row'. rewrite (later_fingerprint _ _ Hlater), (later_previous _ _ Hlater). done.
Qed.

(** ** Tokens *)

(** Replacing a token by one with the same identity and budget. *)
Lemma enroll_token_update db db' k t t' :
  enroll_wf db -> db_tokens db !! k = Some t -> tok_token_id t' = tok_token_id t ->
  tok_used_count t' = tok_used_count t -> tok_max_uses t' = tok_max_uses t ->
  db_tokens db' = <[k := t']> (db_tokens db) -> db_joins db' = db_joins db ->
  db_trust db' = db_trust db -> enroll_wf db'.
Proof.
  intros [K J U T A D N] Hk Hid Hu Hm Et Ej Etr.
  split; rewrite ?Et, ?Ej, ?Etr; unfold joins_of; rewrite ?Ej; try done.
  - intros k0 t0 H0. map_cases; [rewrite Hid|]; eauto.
  - intros k0 t0 H0. map_cases; [rewrite Hu, Hm|]; by apply U.
  - intros k0 j0 H0. destruct (T k0 j0 H0) as [t0 Ht0].
    destruct (decide (jr_token_id j0 = k)) as [->|]; [rewrite lookup_insert_eq; eauto|].
    rewrite lookup_insert_ne by done. eauto.
Qed.

Lemma enroll_token_insert db db' k t :
  enroll_wf db -> db_tokens db !! k = None -> tok_token_id t = k -> tok_used_count t = 0 ->
  0 <= tok_max_uses t -> db_tokens db' = <[k := t]> (db_tokens db) ->
  db_joins db' = db_joins db -> db_trust db' = db_trust db -> enroll_wf db'.
Proof.
  intros [K J U T A D N] Hk Hid Hu Hm Et Ej Etr.
  split; rewrite ?Et, ?Ej, ?Etr; unfold joins_of; rewrite ?Ej; try done.
  - intros k0 t0 H0. map_cases; eauto.
  - intros k0 t0 H0. map_cases; [|by apply U].
    assert (filter (fun e : string * JoinRequestRecord => jr_token_id e.2 = tok_token_id t0)
              (db_joins db) = ∅) as ->.
    { apply map_empty. intros i. apply map_lookup_filter_None. right. intros j Hj Ht.
      simpl in Ht. destruct (T i j Hj) as [? ?]. congruence. }
    rewrite map_size_empty. lia.
  - intros k0 j0 H0. destruct (T k0 j0 H0) as [t0 Ht0].
    rewrite lookup_insert_ne by congruence. eauto.
Qed.

(** ** Join requests *)

(** A new pending request together with the use of its token. *)
Lemma enroll_join_insert db db' k j t :
  enroll_wf db -> db_joins db !! k = None -> jr_request_id j = k ->
  jr_status j = JoinPending -> jr_assigned_endpoint_id j = None ->
  db_tokens db !! jr_token_id j = Some t -> tok_used_count t < tok_max_uses t ->
  db_tokens db' = <[jr_token_id j := with_used_count (tok_used_count t + 1) t]> (db_tokens db) ->
  db_joins db' = <[k := j]> (db_joins db) -> db_trust db' = db_trust db -> enroll_wf db'.
Proof.
  intros [K J U T A D N] Hk Hid Hs Hn Ht Hlt Et Ej Etr.
  split; rewrite ?Et, ?Ej, ?Etr; unfold joins_of; rewrite ?Ej.
  - intros k0 t0 H0. map_cases; eauto. exact (K _ _ Ht).
  - intros k0 j0 H0. map_cases; eauto.
  - intros k0 t0 H0. map_cases.
    + rewrite map_filter_insert_True by done. rewrite map_size_insert_None.
      * destruct (U _ _ Ht) as [Hu _]. unfold joins_of in Hu. simpl. lia.
      * apply map_lookup_filter_None. by left.
    + rewrite map_filter_insert_not'; [by apply U|simpl; congruence|congruence].
  - intros k0 j0 H0.
    destruct (decide (jr_token_id j0 = jr_token_id j)) as [->|Hne];
      [rewrite lookup_insert_eq; eauto|].
    map_cases; [done|]. rewrite lookup_insert_ne by done. eauto.
  - intros k0 j0 H0 Hst. map_cases; [congruence|]. by eapply A.
  - intros k1 k2 j1 j2 H1 H2 S1 S2. map_cases; try congruence. by eapply D.
  - intros k0 j0 H0 Hst. map_cases; eauto.
Qed.

(** A decision on a stored request; [e] is the endpoint if it is approved. *)
Lemma enroll_join_update db db' k j j' (e : option string) :
  enroll_wf db -> db_joins db !! k = Some j -> jr_status j <> JoinApproved ->
  jr_request_id j' = jr_request_id j -> jr_token_id j' = jr_token_id j ->
  jr_assigned_endpoint_id j' = e ->
  (jr_status j' = JoinApproved <-> is_Some e) ->
  (forall x, e = Some x -> db_trust db !! x = None /\
     (forall q, jr_requested_endpoint_id j' = Some q -> q = x) /\
     exists row, db_trust db' !! x = Some row /\
       et_fingerprint row = Some (jr_fingerprint j') /\ et_previous_endpoint_id row = None) ->
  db_tokens db' = db_tokens db -> db_joins db' = <[k := j']> (db_joins db) ->
  (forall x r, db_trust db !! x = Some r -> db_trust db' !! x = Some r) -> enroll_wf db'.
Proof.
  intros [K J U T A D N] Hk Hns Hid Htok He Hiff Hx Et Ej Hkeep.
  split; rewrite ?Et, ?Ej; unfold joins_of; rewrite ?Ej; try done.
  - intros k0 j0 H0. map_cases; [rewrite Hid|]; eauto.
  - intros k0 t0 H0. destruct (U _ _ H0) as [Hu Hm]. unfold joins_of in Hu. split; [|done].
    rewrite Hu. destruct (decide (jr_token_id j = k0)) as [<-|Hne].
    + rewrite map_filter_insert_True by done. rewrite map_size_insert_Some; [done|].
      exists j. by apply map_lookup_filter_Some.
    + rewrite map_filter_insert_False by (simpl; congruence).
      rewrite map_filter_delete_not; [done|]. intros y Hy. simpl. congruence.
  - intros k0 j0 H0. map_cases; [rewrite Htok|]; eauto.
  - intros k0 j0 H0 Hst. map_cases.
    + apply Hiff in Hst as [x Hx0]. destruct (Hx x Hx0) as (_ & Hq & row & ?). by exists x, row.
    + destruct (A k0 j0) as (x & row & ? & ? & Hr & ?); [done..|]. exists x, row. auto.
  - intros k1 k2 j1 j2 H1 H2 S1 S2 Heq. map_cases; [done|..|by eapply D].
    + apply Hiff in S2 as [x Hx0]. destruct (Hx x Hx0) as (Hnone & _).
      destruct (A k1 j1) as (y & row & Hy & _ & Hr & _); [done..|]. congruence.
    + apply Hiff in S1 as [x Hx0]. destruct (Hx x Hx0) as (Hnone & _).
      destruct (A k2 j2) as (y & row & Hy & _ & Hr & _); [done..|]. congruence.
  - intros k0 j0 H0 Hst. map_cases; [|by eapply N].
    destruct (jr_assigned_endpoint_id j0) as [x|] eqn:Hx0; [|done].
    destruct Hst. apply Hiff. eauto.
Qed.

(** ** Operations on nodes and endpoints leave tokens and requests alone *)

Definition same_enroll (db db' : Db) : Prop :=
  db_tokens db' = db_tokens db /\ db_joins db' = db_joins db.

Lemma same_enroll_trans db1 db2 db3 :
  same_enroll db1 db2 -> same_enroll db2 db3 -> same_enroll db1 db3.
Proof. unfold same_enroll. intuition congruence. Qed.

Lemma same_enroll_nodes db n d : same_enroll db d -> same_enroll db (set_nodes n d).
Proof. done. Qed.

Lemma same_enroll_trust db t d : same_enroll db d -> same_enroll db (set_trust t d).
Proof. done. Qed.

Lemma transact_enroll {A} db (body : result StoreError (Db * A)) :
  (forall db' a, body = Ok (db', a) -> same_enroll db db') ->
  same_enroll db (transact db body).1.
Proof. intros Hb. destruct body as [[db' a]|e]; simpl; [by eapply Hb|done]. Qed.

Lemma insert_audit_enroll `{JsonOps, TimeOps} db e db' :
  insert_audit_tx db e = Ok db' -> same_enroll db db'.
Proof. intros Hi. by apply insert_audit_tables in Hi as (_ & _ & ? & ?). Qed.

Lemma insert_node_enroll db n db' : insert_node_tx db n = Ok db' -> same_enroll db db'.
Proof. unfold insert_node_tx. intros Hi. by peel Hi. Qed.

Lemma insert_trust_enroll env db e db' :
  insert_endpoint_trust_tx env db e = Ok db' -> same_enroll db db'.
Proof. unfold insert_endpoint_trust_tx. intros Hi. by peel Hi. Qed.

Lemma transition_enroll env db r s db' a :
  transition_endpoint_status_tx env db r s = Ok (db', a) -> same_enroll db db'.
Proof. intros Ht. by apply transition_ok in Ht as (? & ? & _ & _ & _ & _ & _ & -> & _). Qed.

Lemma update_node_endpoint_enroll db id old new dis db' n :
  update_node_endpoint_tx db id old new dis = Ok (db', n) -> same_enroll db db'.
Proof. unfold update_node_endpoint_tx. intros Hu. by peel Hu. Qed.

Lemma disable_bound_node_enroll db id e db' :
  disable_bound_node_tx db id e = Ok db' -> same_enroll db db'.
Proof. unfold disable_bound_node_tx. intros Hu. by peel_all Hu. Qed.

(** Follow the writes to the other tables. *)
Ltac same_enroll_tac :=
  repeat match goal with
  | |- same_enroll _ (set_nodes _ _) => apply same_enroll_nodes
  | |- same_enroll _ (set_trust _ _) => apply same_enroll_trust
  | |- same_enroll ?a ?a => done
  | H : insert_audit_tx _ _ = Ok ?b |- same_enroll _ ?b =>
      eapply same_enroll_trans; [|exact (insert_audit_enroll _ _ _ H)]; clear H
  | H : insert_node_tx _ _ = Ok ?b |- same_enroll _ ?b =>
      eapply same_enroll_trans; [|exact (insert_node_enroll _ _ _ H)]; clear H
  | H : insert_endpoint_trust_tx _ _ _ = Ok ?b |- same_enroll _ ?b =>
      eapply same_enroll_trans; [|exact (insert_trust_enroll _ _ _ _ H)]; clear H
  | H : transition_endpoint_status_tx _ _ _ _ = Ok (?b, _) |- same_enroll _ ?b =>
      eapply same_enroll_trans; [|exact (transition_enroll _ _ _ _ _ _ H)]; clear H
  | H : update_node_endpoint_tx _ _ _ _ _ = Ok (?b, _) |- same_enroll _ ?b =>
      eapply same_enroll_trans; [|exact (update_node_endpoint_enroll _ _ _ _ _ _ _ H)]; clear H
  | H : disable_bound_node_tx _ _ _ = Ok ?b |- same_enroll _ ?b =>
      eapply same_enroll_trans; [|exact (disable_bound_node_enroll _ _ _ _ H)]; clear H
  end; try done.

Section frames.
Context `{EndpointIdOps, TimeOps, JsonOps, DigestOps}.
Implicit Types (env : StoreEnv).

Lemma add_node_enroll env db node actor : same_enroll db (add_node env db node actor).1.
Proof. apply transact_enroll. intros db' a Hb. peel_all Hb. same_enroll_tac. Qed.

Lemma set_node_enabled_enroll env db id on actor name :
  same_enroll db (set_node_enabled env db id on actor name).1.
Proof. apply transact_enroll. intros db' a Hb. peel_all Hb; same_enroll_tac. Qed.

Lemma remove_node_enroll env db id actor : same_enroll db (remove_node env db id actor).1.
Proof. apply transact_enroll. intros db' a Hb. peel_deep Hb; same_enroll_tac. Qed.

Lemma rotate_endpoint_enroll env db old new actor reason :
  same_enroll db (rotate_endpoint env db old new actor reason).1.
Proof.
  apply transact_enroll. intros db' a Hb.
  unfold rotate_endpoint_retry, rotate_endpoint_fresh, audit_endpoint_rotation_tx in Hb.
  peel_all Hb; same_enroll_tac.
Qed.

Lemma update_endpoint_status_enroll env db e s actor reason action :
  same_enroll db (update_endpoint_status env db e s actor reason action).1.
Proof.
  apply transact_enroll. intros db' a Hb. unfold audit_endpoint_status_tx in Hb.
  peel_all Hb; same_enroll_tac. repeat case_match; simplify_eq; same_enroll_tac.
Qed.

Lemma claim_legacy_enroll env db claim actor :
  same_enroll db (claim_legacy_enrollment env db claim actor).1.
Proof.
  apply transact_enroll. intros db' a Hb.
  unfold claim_unbound, audit_enrollment_binding_tx in Hb. peel_all Hb; same_enroll_tac.
Qed.
End frames.

(** ** Operations on tokens and requests *)

Lemma transact_enroll_wf {A} db (body : result StoreError (Db * A)) :
  enroll_wf db -> (forall db' a, body = Ok (db', a) -> enroll_wf db') ->
  enroll_wf (transact db body).1.
Proof. intros Hwf Hb. destruct body as [[db' a]|e]; simpl; [by eapply Hb|done]. Qed.

Lemma audit_enroll_wf `{JsonOps, TimeOps} db e db' :
  insert_audit_tx db e = Ok db' -> enroll_wf db -> enroll_wf db'.
Proof.
  intros Hi Hwf. apply insert_audit_tables in Hi as (_ & Et & Ek & Ej).
  eapply enroll_frame; eauto. intros x r Hr. rewrite Et. eauto using row_later_refl.
Qed.

Section enrollment.
Context `{EndpointIdOps, TimeOps, JsonOps, DigestOps}.
Implicit Types (env : StoreEnv).

Lemma token_from_row row t :
  enrollment_token_from_row row = Ok t ->
  tok_token_id t = tok_token_id row /\ tok_used_count t = tok_used_count row /\
  tok_max_uses t = tok_max_uses row /\ tok_status t = tok_status row.
Proof.
  unfold enrollment_token_from_row, i64_to_u32. intros Hr. peel_all Hr. done.
Qed.

Lemma join_from_row row j :
  join_request_from_row row = Ok j ->
  jr_request_id j = jr_request_id row /\ jr_token_id j = jr_token_id row /\
  jr_status j = jr_status row /\ jr_fingerprint j = jr_fingerprint row /\
  jr_requested_endpoint_id j = jr_requested_endpoint_id row /\
  jr_assigned_endpoint_id j = jr_assigned_endpoint_id row.
Proof. unfold join_request_from_row. intros Hr. peel_all Hr. done. Qed.

Lemma get_join_some db k j :
  get_join_request_tx db k = Ok (Some j) ->
  exists row, db_joins db !! k = Some row /\ join_request_from_row row = Ok j.
Proof. unfold get_join_request_tx, optional_row. intros Hg. peel Hg. eauto. Qed.

Lemma get_token_none db k : get_enrollment_token_tx db k = Ok None -> db_tokens db !! k = None.
Proof. unfold get_enrollment_token_tx, optional_row. intros Hg. by peel Hg. Qed.

Lemma update_token_status_wf db k s db' n :
  enroll_wf db -> update_token_status db k s = (db', n) -> enroll_wf db'.
Proof.
  unfold update_token_status. intros Hwf Hu. repeat case_match; simplify_eq; try done.
  match goal with H : db_tokens db !! k = Some ?t |- _ =>
    apply (enroll_token_update db _ k t (with_token_status s t)); done end.
Qed.

Lemma create_token_enroll env db token actor :
  0 <= ti_max_uses token -> enroll_wf db ->
  enroll_wf (create_enrollment_token env db token actor).1.
Proof.
  intros Hpos Hwf. apply transact_enroll_wf; [done|]. intros db' a Hb. peel_all Hb; [done|].
  eapply audit_enroll_wf; [eassumption|].
  eapply enroll_token_insert; [done|by apply get_token_none|idtac..|reflexivity|done|done]; done.
Qed.

Lemma revoke_token_enroll env db id actor reason :
  enroll_wf db -> enroll_wf (revoke_enrollment_token env db id actor reason).1.
Proof.
  intros Hwf. apply transact_enroll_wf; [done|]. intros db' a Hb. peel_all Hb; [|done].
  eapply audit_enroll_wf; [eassumption|]. by eapply update_token_status_wf.
Qed.

Lemma update_pending_one db k f db' :
  update_pending_join db k f = (db', 1) ->
  exists j, db_joins db !! k = Some j /\ jr_status j = JoinPending /\
    db' = set_joins (<[k := f j]> (db_joins db)) db.
Proof.
  unfold update_pending_join. intros Hu. repeat case_match; simplify_eq.
  bool_facts. eauto.
Qed.

Lemma reject_join_enroll env db id actor reason :
  enroll_wf db -> enroll_wf (reject_join_request env db id actor reason).1.
Proof.
  intros Hwf. apply transact_enroll_wf; [done|]. intros db' a Hb. peel_all Hb; [done|].
  eapply audit_enroll_wf; [eassumption|].
  match goal with H : update_pending_join _ _ _ = _ |- _ =>
    destruct (update_pending_one _ _ _ _ H) as (j & Hj & Hs & ->) end.
  pose proof (ew_unassigned _ Hwf id j Hj ltac:(congruence)) as Hnone.
  apply (enroll_join_update db _ id j (rejected_join reason j) None); try done; congruence.
Qed.

Lemma token_by_hash db h t :
  enroll_wf db -> get_enrollment_token_by_hash_tx db h = Ok (Some t) ->
  exists row, db_tokens db !! tok_token_id t = Some row /\
    tok_used_count t = tok_used_count row.
Proof.
  unfold get_enrollment_token_by_hash_tx, optional_row. intros Hwf Hg. peel Hg.
  match goal with H : head _ = Some ?r |- _ => rename r into row; rename H into Hh end.
  apply token_from_row in Hm0 as (Hid & Hu & _). exists row. split; [|done].
  destruct (select _ _) as [|x l] eqn:Hsel; [done|]. simpl in Hh. simplify_eq.
  assert (row ∈ row :: l) as Hin by left. rewrite <- Hsel in Hin.
  apply elem_of_select in Hin as (k & Hk & _).
  by rewrite Hid, (ew_token_key _ Hwf _ _ Hk).
Qed.

Lemma accept_enroll env db actor request t e rl al db' r :
  enroll_wf db -> accept_submission env db actor request t e rl al = Ok (db', r) ->
  enroll_wf db'.
Proof.
  intros Hwf Hb. unfold accept_submission in Hb. peel_deep Hb.
  eapply audit_enroll_wf; [eassumption|].
  match goal with H : use_token _ _ _ = _ |- _ => rename H into Hu end.
  unfold use_token in Hu. simpl in Hu.
  destruct (db_tokens db !! tok_token_id t) as [row|] eqn:Hrow; [|done].
  destruct (_ && _) eqn:Hc; [|done]. injection Hu as <-. bool_facts.
  match goal with |- enroll_wf (set_tokens _ (set_joins (<[_ := ?j]> _) _)) =>
    by apply (enroll_join_insert db _ (ji_request_id request) j row) end.
Qed.

Lemma submit_join_enroll env db request actor :
  enroll_wf db -> enroll_wf (submit_join_request env db request actor).1.
Proof.
  intros Hwf.
  assert (forall body : Committed JoinRequestRecord,
    (forall db' r, body = Ok (db', r) -> enroll_wf db') ->
    enroll_wf (transact_committed db body).1) as Htx.
  { intros body Hb. destruct body as [[db' r]|e]; simpl; [by eapply Hb|done]. }
  apply Htx. intros db' r Hb. peel_all Hb; eauto using accept_enroll.
  all: unfold expire_and_reject, reject_submission, audit_join_rejection_tx in Hb; peel_all Hb.
  all: eapply audit_enroll_wf; [eassumption|]; try done.
  eapply audit_enroll_wf; [eassumption|]. by eapply update_token_status_wf.
Qed.

Lemma differs_false {A} `{EqDecision A} (o : option A) (x : A) :
  differs o x = false -> forall q, o = Some q -> q = x.
Proof. unfold differs. intros Hd q ->. by bool_facts. Qed.

(** The three writes of an approval. *)
Lemma approval_writes env db before node bundle c u db1 db2 db3 id labels actor :
  enroll_wf db -> get_join_request_tx db id = Ok (Some before) ->
  differs (jr_requested_endpoint_id before) (ni_endpoint_id node) = false ->
  insert_node_tx db node = Ok db1 ->
  insert_endpoint_trust_tx env db1
    {| et_endpoint_id := ni_endpoint_id node; et_node_id := Some (ni_node_id node);
       et_fingerprint := Some (jr_fingerprint before); et_status := Active;
       et_generation := 1; et_previous_endpoint_id := None; et_rotated_to := None;
       et_trust_bundle_json := bundle; et_created_at := c; et_updated_at := u |} = Ok db2 ->
  update_pending_join db2 id
    (approved_join (ni_endpoint_id node) labels (env_sql_now env) actor) = (db3, 1) ->
  enroll_wf db3.
Proof.
  intros Hwf Hget Hdiff Hn Ht Hu.
  apply insert_node_ok in Hn as (_ & _ & ->).
  apply insert_trust_ok in Ht as (Hnone & row & -> & Hf & _); [|done]. simpl in Hnone.
  unfold update_pending_join in Hu. simpl in Hu.
  apply get_join_some in Hget as (j & Hj & Hfrom). rewrite Hj in Hu.
  destruct (bool_decide _) eqn:Hs; [|done]. injection Hu as <-. bool_facts.
  apply join_from_row in Hfrom as (_ & _ & _ & Hjfp & Hreq & _).
  change (row_fields row = (ni_endpoint_id node, Some (ni_node_id node),
            Some (jr_fingerprint before), Active, 1, None, None)) in Hf. row_facts.
  apply (enroll_join_update db _ id j
    (approved_join (ni_endpoint_id node) labels (env_sql_now env) actor j)
    (Some (ni_endpoint_id node))); try done; [congruence| |].
  - intros x [= <-]. split_and!; [done| |].
    + simpl. rewrite <- Hreq. by apply differs_false.
    + exists row. simpl. rewrite lookup_insert_eq. split_and!; congruence.
  - intros x r Hx. simpl. rewrite lookup_insert_ne by congruence. done.
Qed.

Lemma approve_enroll env db approval actor :
  enroll_wf db -> enroll_wf (approve_join_request env db approval actor).1.
Proof.
  intros Hwf. apply transact_enroll_wf; [done|]. intros db' a Hb. peel_all Hb.
  { unfold approve_retry in Hb. by peel_all Hb. }
  unfold approve_pending, audit_enrollment_binding_tx in Hb. peel_all Hb.
  eapply audit_enroll_wf; [eassumption|]. eapply approval_writes; eassumption.
Qed.
End enrollment.
