(* ===== verification/TrustTotality.v ===== *)
(** * TrustTotality: in a coherent store the consistency checks succeed

    The checks on lineage, bundle and binding that guard revocation,
    quarantine and removal pass whenever the store satisfies its invariant, so
    these operations fail only for the reasons a caller can see. *)

From S2P Require Import Prelude Text External AgentConfig InputValidation StoreTypes.
From S2P Require Import StoredText StoragePayloads StoreDb TrustStore Enrollment StoreLemmas.
From S2P Require Import TrustInvariant TrustRefinement.

(** ** Bundles *)

Lemma from_value_public_bundle e g s : exists m, tbp_from_value (trust_bundle_json e g s) = Err m.
Proof. eexists. reflexivity. Qed.

Lemma from_legacy_public_bundle e g s :
  tbp_from_legacy e g (endpoint_status_as_str s) (trust_bundle_json e g s)
  = tbp_new e g (endpoint_status_as_str s) [] [] [].
Proof.
  unfold tbp_from_legacy, trust_bundle_json, json_u64. cbn.
  by rewrite !bool_decide_eq_false_2 by auto.
Qed.

Lemma tbp_new_fresh e g s :
  validate_fixed_id e 128 "trust bundle endpoint ID" = Ok tt -> 1 <= g <= i64_max ->
  tbp_new e g (endpoint_status_as_str s) [] [] [] =
  Ok {| tbp_schema := TRUST_BUNDLE_SCHEMA_V1; tbp_endpoint_id := e; tbp_generation := g;
        tbp_status := endpoint_status_as_str s; tbp_trusted_controllers := [];
        tbp_trusted_peers := []; tbp_authorized_path_probes := [] |}.
Proof.
  intros He Hg. unfold tbp_new, tbp_validate. cbn -[validate_fixed_id i64_max].
  rewrite He. destruct (g =? 0) eqn:?, (i64_max <? g) eqn:?; bool_facts; try lia.
  by destruct s.
Qed.

Lemma canonical_fresh_bundle e g s :
  validate_fixed_id e 128 "trust bundle endpoint ID" = Ok tt -> 1 <= g <= i64_max ->
  exists b, canonical_trust_bundle e g s (trust_bundle_json e g s) = Ok b.
Proof.
  intros He Hg. unfold canonical_trust_bundle.
  destruct (from_value_public_bundle e g s) as [m ->].
  rewrite from_legacy_public_bundle, tbp_new_fresh by done. simpl.
  unfold tbp_validate_relationship. simpl.
  rewrite !String.eqb_refl, Z.eqb_refl. simpl. eauto.
Qed.

Lemma row_ok_fixed_id row :
  row_ok row -> validate_fixed_id (et_endpoint_id row) 128 "trust bundle endpoint ID" = Ok tt.
Proof.
  intros Hr. apply row_ok_read in Hr as [r Hr]. unfold endpoint_trust_from_row in Hr. peel_all Hr.
  match goal with H : tbp_validate_relationship _ _ _ _ = _ |- _ =>
    apply tbp_relationship in H as (<- & _ & _) end.
  match goal with H : tbp_from_value _ = _ |- _ => apply tbp_from_value_valid in H end.
  unfold tbp_validate in *.
  repeat match goal with H : (if ?b then _ else _) = Ok tt |- _ => destruct b; [done|] end.
  by destruct (validate_fixed_id _ _ _) as [[]|].
Qed.

(** ** Reading a coherent store *)

Section coherent.
Context (db : Db) (Hwf : trust_wf db).

Lemma read_ok e row :
  db_trust db !! e = Some row ->
  exists r, get_endpoint_trust_tx db e = Ok (Some r) /\ row_fields r = row_fields row /\
    et_endpoint_id r = e /\ validate_endpoint_bundle_projection r = Ok tt.
Proof using Hwf.
  intros He. destruct (row_ok_read _ (wf_rows _ Hwf _ _ He)) as [r Hr].
  exists r. unfold get_endpoint_trust_tx, optional_row. rewrite He, Hr.
  pose proof (from_row_fields _ _ Hr) as Hf. split_and!; try done.
  - unfold row_fields in Hf. simplify_eq. rewrite <- (wf_trust_key _ Hwf _ _ He). congruence.
  - by eapply from_row_projection.
Qed.

Lemma read_none e : db_trust db !! e = None -> get_endpoint_trust_tx db e = Ok None.
Proof. intros He. unfold get_endpoint_trust_tx. by rewrite He. Qed.

Lemma lineage_ok e row r :
  db_trust db !! e = Some row -> et_status row <> Rotated ->
  row_fields r = row_fields row -> validate_endpoint_bundle_projection r = Ok tt ->
  validate_unrotated_lineage db r = Ok tt.
Proof using Hwf.
  intros He Hs Hf Hp. pose proof (wf_unrotated db Hwf e row He Hs) as Hrot.
  pose proof (wf_trust_key _ Hwf _ _ He) as Hkey.
  unfold row_fields in Hf. injection Hf as F1 F2 F3 F4 F5 F6 F7.
  unfold validate_unrotated_lineage. rewrite Hp, F7, Hrot, F6.
  rewrite bool_decide_eq_false_2 by (by intros [? ?]).
  destruct (et_previous_endpoint_id row) as [p|] eqn:Hprev; [|done].
  destruct (wf_prev _ (wf_edges _ Hwf) e row p He Hprev) as (rp & Hrp & Hto & Hn & Hfp & Hg).
  destruct (read_ok p rp Hrp) as (q & -> & Hq & _ & Hqp). simpl. rewrite Hqp.
  unfold row_fields in Hq. injection Hq as Q1 Q2 Q3 Q4 Q5 Q6 Q7.
  rewrite Q4, Q7, Q2, Q3, Q5, F1, F2, F3, F5, Hto, Hn, Hfp, Hkey.
  rewrite !bool_decide_eq_false_2; try (by intros ?; congruence);
    [|intros Hne; apply Hne; apply (wf_rotated _ (wf_edges _ Hwf) p rp Hrp); eauto].
  simpl. destruct (_ <? _) eqn:Hlt; [bool_facts; lia|done].
Qed.

Lemma transition_total env e row r s :
  db_trust db !! e = Some row -> et_status row <> Rotated ->
  row_fields r = row_fields row -> validate_endpoint_bundle_projection r = Ok tt ->
  (exists res, transition_endpoint_status_tx env db r s = Ok res) \/
  transition_endpoint_status_tx env db r s = Err (EndpointGenerationExhausted e).
Proof using Hwf.
  intros He Hs Hf Hp. pose proof (lineage_ok e row r He Hs Hf Hp) as Hl.
  pose proof (wf_trust_key _ Hwf _ _ He) as Hkey.
  pose proof (wf_rows _ Hwf _ _ He) as Hrow.
  pose proof (row_ok_generation _ Hrow) as Hg. pose proof (row_ok_fixed_id _ Hrow) as Hid.
  unfold row_fields in Hf. injection Hf as F1 F2 F3 F4 F5 F6 F7. rewrite Hkey in F1, Hid.
  unfold transition_endpoint_status_tx, next_endpoint_generation, endpoint_generation_to_i64.
  rewrite Hl, F5, F1. destruct (i64_max <=? et_generation row) eqn:Hmax; [by right|].
  bool_facts. left.
  destruct (canonical_fresh_bundle e (et_generation row + 1) s) as [b Hb]; [done|lia|].
  destruct (_ + 1 <=? i64_max) eqn:Hle; [|bool_facts; lia]. rewrite Hb.
  destruct (et_generation row <=? i64_max) eqn:Hle'; [|bool_facts; lia].
  rewrite He, F4, bool_decide_eq_true_2, Z.eqb_refl by done. simpl.
  assert (row_ok (with_status s (et_generation row + 1) b (env_sql_now env) row)) as Hok.
  { eapply canonical_row_ok; simpl; [rewrite Hkey; exact Hb|done|lia]. }
  apply row_ok_read in Hok as [q Hq]. unfold get_endpoint_trust_tx, optional_row. simpl.
  rewrite lookup_insert_eq, Hq. simpl. eauto.
Qed.
End coherent.

(** ** The audit insert refuses only unsuitable input *)

Definition input_err {A} (r : result StoreError A) : Prop :=
  forall x, r = Err x -> exists m, x = InvalidInput m.

Lemma input_err_bind {A B} (r : result StoreError A) (k : A -> result StoreError B) :
  input_err r -> (forall a, input_err (k a)) -> input_err (let? a := r in k a).
Proof. intros Hr Hk x Hx. destruct r as [a|e]; [by eapply Hk|]. simplify_eq. by apply Hr. Qed.

Lemma input_err_map {A} (r : result string A) : input_err (map_err InvalidInput r).
Proof. intros x Hx. destruct r; simpl in Hx; simplify_eq. eauto. Qed.

Lemma input_err_ok {A} (a : A) : input_err (Ok a).
Proof. done. Qed.

Lemma input_err_reject {A} (b : bool) m (k : result StoreError A) :
  input_err k -> input_err (if b then Err (InvalidInput m) else k).
Proof. intros Hk x Hx. destruct b; [simplify_eq; eauto|by apply Hk]. Qed.

Lemma input_err_audit_text v f m : input_err (validate_audit_text v f m).
Proof. apply input_err_reject, input_err_ok. Qed.

Lemma input_err_json_value v f d n ctx :
  input_err (validate_low_sensitive_json_value v f d n ctx).
Proof.
  revert d n ctx.
  induction v as [|b|x|s|l IH|m IH] using Value_nested_ind; intros d n ctx; simpl;
    apply input_err_reject; try apply input_err_ok.
  - apply input_err_reject, input_err_ok.
  - revert n. induction IH as [|v l Hv _ IHl]; intros n; [apply input_err_ok|].
    apply input_err_reject, input_err_bind; auto.
  - revert n. induction IH as [|[k v] m Hv _ IHm]; intros n; [apply input_err_ok|].
    apply input_err_reject, input_err_reject, input_err_bind; auto.
Qed.

Lemma input_err_each {A} (f : A -> result StoreError unit) l :
  (forall a, input_err (f a)) -> input_err (try_for_each f l).
Proof.
  intros Hf x Hx. destruct (try_for_each_err _ _ _ Hx) as (a & _ & Ha). by apply (Hf a).
Qed.

Lemma insert_audit_err `{JsonOps, TimeOps} db e : input_err (insert_audit_tx db e).
Proof.
  apply input_err_bind; [apply input_err_map|intros _]. apply input_err_reject.
  apply input_err_bind; [apply input_err_audit_text|intros _].
  apply input_err_bind.
  { apply input_err_each. intros [[f [v|]] m]; [apply input_err_audit_text|apply input_err_ok]. }
  intros _. apply input_err_bind.
  { apply input_err_reject, input_err_bind; [apply input_err_json_value|done]. }
  intros _. apply input_err_reject, input_err_bind; [apply input_err_map|done].
Qed.

(** ** At most one active endpoint per node *)

Lemma select_empty {A} (P : A -> bool) (m : gmap string A) :
  (forall k x, m !! k = Some x -> P x = false) -> select P m = [].
Proof.
  intros Hn. destruct (select P m) as [|x l] eqn:Hs; [done|].
  assert (x ∈ select P m) as Hin by (rewrite Hs; left).
  apply elem_of_select in Hin as (k & Hk & HP). specialize (Hn k x Hk). congruence.
Qed.

#[local] Instance filter_perm {A} (P : A -> bool) :
  Proper (Permutation ==> Permutation) (List.filter P).
Proof.
  intros l l' Hp. induction Hp as [|x l l' _ IH|x y l|l l1 l' _ IH1 _ IH2]; simpl; [done| | |].
  - destruct (P x); by rewrite IH.
  - destruct (P x), (P y); done || apply Permutation_swap.
  - by rewrite IH1.
Qed.

Lemma select_insert {A} (P : A -> bool) (m : gmap string A) k x :
  m !! k = None -> select P (<[k := x]> m) ≡ₚ (if P x then [x] else []) ++ select P m.
Proof.
  intros Hk. unfold select.
  etrans; [exact (filter_perm P _ _ (Permutation_map snd (map_to_list_insert m k x Hk)))|].
  simpl. by destruct (P x).
Qed.

Lemma select_one {A} (P : A -> bool) (m : gmap string A) k x :
  m !! k = Some x -> P x = true ->
  (forall k' y, m !! k' = Some y -> P y = true -> k' = k) -> select P m = [x].
Proof.
  intros Hk HP Huniq. apply Permutation_singleton_r.
  rewrite <- (insert_id m k x Hk), <- insert_delete_eq.
  rewrite select_insert by apply lookup_delete_eq. rewrite HP.
  rewrite (select_empty P (delete k m)); [done|].
  intros k' y Hy. apply lookup_delete_Some in Hy as [Hne Hy].
  destruct (P y) eqn:HPy; [|done]. by destruct Hne; symmetry; eapply Huniq.
Qed.

Section active.
Context (db : Db) (Hwf : trust_wf db).

Lemma active_row_spec n r :
  active_row n r = true <-> et_node_id r = Some n /\ et_status r = Active.
Proof. unfold active_row. by rewrite andb_true_iff, !bool_decide_eq_true. Qed.

(** The active rows of a node: the one at its current endpoint, or none. *)
Lemma active_rows_cases n :
  select (active_row n) (db_trust db) = [] \/
  exists nd row, db_nodes db !! n = Some nd /\ db_trust db !! node_endpoint_id nd = Some row /\
    et_status row = Active /\ et_node_id row = Some n /\
    select (active_row n) (db_trust db) = [row].
Proof using Hwf.
  destruct (select (active_row n) (db_trust db)) as [|row l] eqn:Hs; [by left|]. right.
  assert (row ∈ select (active_row n) (db_trust db)) as Hin by (rewrite Hs; left).
  apply elem_of_select in Hin as (e & He & Ha). apply active_row_spec in Ha as [Hn Ha].
  destruct (wf_active _ Hwf e row n He Ha Hn) as (nd & Hnd & <-).
  exists nd, row. split_and!; try done. rewrite <- Hs.
  eapply select_one; [done|by apply active_row_spec|].
  intros k y Hy Hay. apply active_row_spec in Hay as [Hyn Hya].
  destruct (wf_active _ Hwf k y n Hy Hya Hyn) as (nd' & Hnd' & <-). congruence.
Qed.

Lemma get_active_cases n :
  get_active_endpoint_trust_for_node_tx db n = Ok [] \/
  exists nd row r, db_nodes db !! n = Some nd /\ db_trust db !! node_endpoint_id nd = Some row /\
    et_status row = Active /\ et_node_id row = Some n /\ row_fields r = row_fields row /\
    et_endpoint_id r = node_endpoint_id nd /\ validate_endpoint_bundle_projection r = Ok tt /\
    get_active_endpoint_trust_for_node_tx db n = Ok [r].
Proof using Hwf.
  unfold get_active_endpoint_trust_for_node_tx.
  destruct (active_rows_cases n) as [->|(nd & row & Hnd & Hrow & Ha & Hn & ->)]; [by left|].
  right. destruct (read_ok db Hwf _ _ Hrow) as (r & Hr & Hf & He & Hp).
  unfold get_endpoint_trust_tx, optional_row in Hr. rewrite Hrow in Hr.
  destruct (endpoint_trust_from_row row) as [r'|] eqn:Hfrom; [|done]. simplify_eq.
  exists nd, row, r. split_and!; try done; [by apply from_row_fields|].
  simpl. by rewrite Hfrom.
Qed.
End active.

(** ** Retiring an endpoint, removing a node *)

Section outcomes.
Context `{EndpointIdOps, TimeOps, JsonOps}.

Lemma transition_nodes env db r s db' a :
  transition_endpoint_status_tx env db r s = Ok (db', a) -> db_nodes db' = db_nodes db.
Proof. intros Ht. apply transition_ok in Ht. naive_solver. Qed.

(** The errors a caller can cause with an endpoint that is known or not. *)
Definition retire_error (x : StoreError) : Prop :=
  (exists m, x = InvalidInput m) \/
  exists e, x = EndpointNotFound e \/ x = EndpointGenerationExhausted e \/
            exists s a, x = InvalidEndpointTransition e s a.

Lemma update_endpoint_status_errors env db e s actor reason action x :
  trust_wf db -> s <> Rotated ->
  (update_endpoint_status env db e s actor reason action).2 = Err x -> retire_error x.
Proof.
  intros Hwf Hs. unfold update_endpoint_status, transact, retire_error.
  destruct (validate_actor actor); simpl; [|naive_solver].
  destruct (validate_reason reason); simpl; [|naive_solver].
  destruct (validate_endpoint_id e) as [id|]; simpl; [|naive_solver].
  destruct (db_trust db !! id) as [row|] eqn:Hrow;
    [|rewrite read_none by done; simpl; naive_solver].
  destruct (read_ok db Hwf id row Hrow) as (r & -> & Hf & Hid & Hp). simpl. rewrite Hp.
  assert (et_status r = et_status row) as Hst by (unfold row_fields in Hf; congruence).
  destruct (bool_decide (et_status r = s)) eqn:Heq; simpl.
  { bool_facts. rewrite (lineage_ok db Hwf id row r) by congruence. done. }
  destruct (transition_allowed (et_status r) s) eqn:Hal; simpl.
  2:{ intros ?. simplify_eq. right. unfold invalid_endpoint_transition. eauto 8. }
  assert (et_status row <> Rotated) as Hnr by (by rewrite Hst in Hal; destruct (et_status row)).
  destruct (transition_total db Hwf env id row r s Hrow Hnr Hf Hp) as [[[db' after] Ht]|Ht];
    rewrite Ht; [|naive_solver].
  simpl.
  assert (forall nd, get_exact_bound_node_tx db r = Some nd ->
    exists d, disable_bound_node_tx db' (node_id nd) id = Ok d) as Hdis.
  { intros nd Hnd. rewrite <- Hid. eexists. eapply (disable_bound_node_ok db); try done.
    by eapply transition_nodes. }
  destruct (get_exact_bound_node_tx db r) as [nd|];
    [destruct (Hdis nd eq_refl) as [d ->]; destruct (node_enabled nd)|]; simpl.
  all: unfold audit_endpoint_status_tx; destruct (insert_audit_tx _ _) as [|y] eqn:Ha; simpl; [done|].
  all: intros ?; simplify_eq; left; by eapply insert_audit_err.
Qed.

(** What removal may answer. *)
Definition removal_error (id : string) (x : StoreError) : Prop :=
  (exists m, x = InvalidInput m) \/ x = NodeNotFound id \/
  exists e, x = EndpointGenerationExhausted e.

(** The candidate, if there is one, is an active row that no other node
    points to. *)
Definition one_candidate (db : Db) (id : string) (cs : list EndpointTrustRecord) : Prop :=
  cs = [] \/ exists e row r, cs = [r] /\ db_trust db !! e = Some row /\ et_status row = Active /\
    row_fields r = row_fields row /\ et_endpoint_id r = e /\
    validate_endpoint_bundle_projection r = Ok tt /\ no_node_at db e id.

Lemma removal_candidates_cases db id nd :
  trust_wf db -> db_nodes db !! id = Some nd ->
  exists registry active, get_endpoint_trust_tx db (node_endpoint_id nd) = Ok registry /\
    get_active_endpoint_trust_for_node_tx db id = Ok active /\
    one_candidate db id (removal_candidates active registry).
Proof.
  intros Hwf Hnd.
  assert (no_node_at db (node_endpoint_id nd) id) as Hno.
  { intros k m Hk He. by eapply (wf_unique _ Hwf). }
  destruct (get_active_cases db Hwf id)
    as [Hact|(nd' & row & r & Hnd' & Hrow & Ha & Hn & Hf & He & Hp & Hact)];
    rewrite Hact.
  - destruct (db_trust db !! node_endpoint_id nd) as [row|] eqn:Hrow.
    + destruct (read_ok db Hwf _ row Hrow) as (r & Hr & Hf & He & Hp).
      exists (Some r), []. split_and!; try done. simpl.
      destruct (bool_decide (et_status r = Active)) eqn:Hb; simpl; [|by left].
      bool_facts. right. exists (node_endpoint_id nd), row, r. split_and!; try done.
      unfold row_fields in Hf; congruence.
    + exists None, []. rewrite read_none by done. split_and!; try done. by left.
  - rewrite Hnd in Hnd'. injection Hnd' as <-.
    destruct (read_ok db Hwf _ row Hrow) as (q & Hq & _ & Heq & _).
    exists (Some q), [r]. split_and!; try done. right.
    exists (node_endpoint_id nd), row, r. split_and!; try done.
    simpl. by rewrite He, Heq, String.eqb_refl, andb_false_r.
Qed.

Lemma remove_node_errors env db id actor x :
  trust_wf db -> (remove_node env db id actor).2 = Err x -> removal_error id x.
Proof.
  intros Hwf. unfold remove_node, transact, removal_error.
  destruct (validate_actor actor); simpl; [|naive_solver].
  unfold get_node_tx. destruct (db_nodes db !! id) as [nd|] eqn:Hnd; simpl; [|naive_solver].
  destruct (removal_candidates_cases db id nd Hwf Hnd) as (reg & act & -> & -> & Hc).
  destruct Hc as [->|(e & row & r & -> & Hrow & Ha & Hf & He & Hp & Hno)]; simpl.
  - destruct (insert_audit_tx _ _) as [|y] eqn:Hi; simpl; [done|].
    intros ?. simplify_eq. left. by eapply insert_audit_err.
  - rewrite He.
    assert ((match get_node_by_endpoint_tx db e with
             | Some other => if negb (String.eqb (node_id other) id)
                 then Err (EndpointBindingMismatch e
                             "active endpoint is the current endpoint of another node")
                 else Ok tt
             | None => Ok tt end) = Ok tt) as ->.
    { destruct (get_node_by_endpoint_tx db e) as [o|] eqn:Ho; [|done].
      apply node_by_endpoint_some in Ho as (k & Hk & Hke).
      rewrite (wf_node_key _ Hwf _ _ Hk), (Hno _ _ Hk Hke), String.eqb_refl. done. }
    simpl. destruct (transition_total db Hwf env e row r Revoked Hrow)
      as [[[db' after] ->]| ->]; try done; [congruence| |naive_solver].
    simpl. destruct (insert_audit_tx _ _) as [|y] eqn:Hi; simpl; [done|].
    intros ?. simplify_eq. left. by eapply insert_audit_err.
Qed.
End outcomes.
