(* ===== verification/StoreRuns.v ===== *)
(** * StoreRuns: sequences of store operations

    A script is any sequence of operations with the surroundings each of them
    sees; an operation that fails leaves the store as the source does.  The
    invariants of the trust and enrollment tables hold after every script. *)

From S2P Require Import Prelude Text External AgentConfig InputValidation StoreTypes StoredText.
From S2P Require Import StoragePayloads StoreDb TrustStore Enrollment StoreLemmas TrustInvariant.
From S2P Require Import TrustRefinement EnrollmentInvariant StoreScenario.

Inductive StoreOp :=
| OpAddNode (node : NodeInsert) (actor : string)
| OpEnableNode (id actor : string)
| OpDisableNode (id actor : string)
| OpRemoveNode (id actor : string)
| OpRotateEndpoint (old new actor reason : string)
| OpRevokeEndpoint (endpoint actor reason : string)
| OpQuarantineEndpoint (endpoint actor reason : string)
| OpCreateToken (token : EnrollmentTokenInsert) (actor : string)
| OpRevokeToken (token_id actor reason : string)
| OpSubmitJoin (request : JoinRequestInsert) (actor : string)
| OpRejectJoin (request_id actor reason : string)
| OpApproveJoin (approval : ApprovalInput) (actor : string)
| OpClaimLegacy (claim : LegacyEnrollmentClaimInput) (actor : string)
| OpInsertAudit (event : AuditEvent).

(** The one field whose type ([u32]) is not checked by the operation itself. *)
Definition op_typed (op : StoreOp) : Prop :=
  match op with OpCreateToken token _ => 0 <= ti_max_uses token | _ => True end.

Section runs.
Context `{EndpointIdOps, TimeOps, JsonOps, DigestOps}.

Definition apply_op (env : StoreEnv) (op : StoreOp) (db : Db) : Db :=
  match op with
  | OpAddNode node actor => (add_node env db node actor).1
  | OpEnableNode id actor => (enable_node env db id actor).1
  | OpDisableNode id actor => (disable_node env db id actor).1
  | OpRemoveNode id actor => (remove_node env db id actor).1
  | OpRotateEndpoint old new actor reason => (rotate_endpoint env db old new actor reason).1
  | OpRevokeEndpoint e actor reason => (revoke_endpoint env db e actor reason).1
  | OpQuarantineEndpoint e actor reason => (quarantine_endpoint env db e actor reason).1
  | OpCreateToken token actor => (create_enrollment_token env db token actor).1
  | OpRevokeToken id actor reason => (revoke_enrollment_token env db id actor reason).1
  | OpSubmitJoin request actor => (submit_join_request env db request actor).1
  | OpRejectJoin id actor reason => (reject_join_request env db id actor reason).1
  | OpApproveJoin approval actor => (approve_join_request env db approval actor).1
  | OpClaimLegacy claim actor => (claim_legacy_enrollment env db claim actor).1
  | OpInsertAudit event => (insert_audit db event).1
  end.

Definition run_store (script : list (StoreEnv * StoreOp)) (db : Db) : Db :=
  fold_left (fun db '(env, op) => apply_op env op db) script db.

(** ** Every operation is a trust step *)

Lemma insert_audit_same db event : same_tables db (insert_audit db event).1.
Proof.
  unfold insert_audit, transact. destruct (insert_audit_tx db event) as [db'|] eqn:Hi; [|done].
  by apply insert_audit_tables in Hi.
Qed.

Lemma apply_op_step env op db : trust_wf db -> trust_step db (apply_op env op db).
Proof.
  intros Hwf. destruct op; simpl;
    eauto using add_node_step, set_node_enabled_step, remove_node_step, rotate_endpoint_step,
      update_endpoint_status_step, create_enrollment_token_step, revoke_enrollment_token_step,
      reject_join_request_step, approve_join_request_step, claim_legacy_enrollment_step.
  - destruct (submit_join_request_trust env db request actor). by apply step_none.
  - destruct (insert_audit_same db event) as (? & ? & _). by apply step_none.
Qed.

Lemma apply_op_enroll env op db :
  trust_wf db -> op_typed op -> enroll_wf db -> enroll_wf (apply_op env op db).
Proof.
  intros Hwf Hty Hen.
  assert (same_enroll db (apply_op env op db) -> enroll_wf (apply_op env op db)) as Hframe.
  { intros [Et Ej]. eapply enroll_frame; eauto. intros e r Hr.
    eapply trust_step_later; eauto using apply_op_step. }
  destruct op; simpl in *;
    eauto using add_node_enroll, set_node_enabled_enroll, remove_node_enroll,
      rotate_endpoint_enroll, update_endpoint_status_enroll, claim_legacy_enroll,
      create_token_enroll, revoke_token_enroll, submit_join_enroll, reject_join_enroll,
      approve_enroll.
  destruct (insert_audit_same db event) as (_ & _ & ? & ?). by apply Hframe.
Qed.

(** ** After any script *)

Lemma run_store_cons env op script db :
  run_store ((env, op) :: script) db = run_store script (apply_op env op db).
Proof. done. Qed.

Lemma run_store_app s1 s2 db : run_store (s1 ++ s2) db = run_store s2 (run_store s1 db).
Proof. unfold run_store. by rewrite fold_left_app. Qed.

Lemma run_store_wf script db : trust_wf db -> trust_wf (run_store script db).
Proof.
  revert db. induction script as [|[env op] script IH]; intros db Hwf; [done|].
  rewrite run_store_cons. apply IH. eapply trust_step_wf; eauto using apply_op_step.
Qed.

Lemma run_store_later script db e r :
  trust_wf db -> db_trust db !! e = Some r ->
  exists r', db_trust (run_store script db) !! e = Some r' /\ row_later r r'.
Proof.
  revert db r. induction script as [|[env op] script IH]; intros db r Hwf Hr.
  { eauto using row_later_refl. }
  rewrite run_store_cons. pose proof (apply_op_step env op db Hwf) as Hs.
  destruct (trust_step_later _ _ _ _ Hs Hr) as (r1 & Hr1 & Hl1).
  destruct (IH (apply_op env op db) r1) as (r2 & Hr2 & Hl2); [by eapply trust_step_wf|done|].
  eauto using row_later_trans.
Qed.

Lemma run_store_enroll script db :
  trust_wf db -> Forall (fun s => op_typed s.2) script -> enroll_wf db ->
  enroll_wf (run_store script db).
Proof.
  intros Hwf Hty. revert db Hwf. induction Hty as [|[env op] script Ht _ IH]; intros db Hwf Hen;
    [done|].
  rewrite run_store_cons. apply IH; [|by apply apply_op_enroll].
  eapply trust_step_wf; eauto using apply_op_step.
Qed.

Lemma empty_trust_wf : trust_wf empty_db.
Proof.
  split; simpl; try (intros *; by rewrite ?lookup_empty).
Qed.

Lemma empty_enroll_wf : enroll_wf empty_db.
Proof. split; simpl; intros *; by rewrite ?lookup_empty. Qed.
End runs.

(** ** Approving a join request twice

    A client that repeats an approval whose answer was lost gets the record of
    the first one, and the store is not changed again. *)

Section approval.
Context `{EndpointIdOps, TimeOps, JsonOps, DigestOps}.

(** No successful approval of the request is in the log. *)
Definition not_yet_approved (db : Db) (request_id : string) : Prop :=
  forall e, e ∈ db_audit db -> event_ok "enrollment.approve" e = true ->
    ae_request_id e <> Some request_id.

Lemma transact_ok {A} db (body : result StoreError (Db * A)) db' a :
  transact db body = (db', Ok a) -> body = Ok (db', a).
Proof. unfold transact. intros Ht. repeat case_match; by simplify_eq. Qed.

(** The checks depend on their error texts only in what they report. *)
Lemma origin_any_id j e id id' :
  validate_enrollment_endpoint_origin j e id = Ok tt ->
  validate_enrollment_endpoint_origin j e id' = Ok tt.
Proof.
  unfold validate_enrollment_endpoint_origin. intros Ho. cbv zeta in Ho |- *.
  repeat (case_match; [discriminate|]).
  destruct (validate_endpoint_bundle_projection e); [|done]. simpl in *. by case_match.
Qed.

Lemma binding_any_text db j e n labels d d' :
  validate_exact_enrollment_binding_tx db j e n labels d = Ok tt ->
  validate_exact_enrollment_binding_tx db j e n labels d' = Ok tt.
Proof.
  unfold validate_exact_enrollment_binding_tx. intros Hv. cbv zeta in Hv |- *.
  destruct (validate_approved_join_provenance_tx _ _ _); [|done].
  destruct (validate_enrollment_endpoint_origin _ _ _); [|done].
  destruct (_ || bool_decide _); [done|].
  destruct (get_node_tx _ _); [|done]. simpl in *.
  destruct (_ || _); [done|].
  destruct (get_active_endpoint_trust_for_node_tx _ _); [|done]. by destruct (negb _).
Qed.

(** What the final check of an approval established. *)
Lemma binding_facts db j e n labels d :
  validate_exact_enrollment_binding_tx db j e n labels d = Ok tt ->
  validate_approved_join_provenance_tx db j (ni_endpoint_id n) = Ok tt /\
  validate_enrollment_endpoint_origin j e (jr_request_id j) = Ok tt /\
  jr_status j = JoinApproved /\ et_endpoint_id e = ni_endpoint_id n /\
  et_node_id e = Some (ni_node_id n) /\
  (forall nd, get_node_tx db (ni_node_id n) = Some nd -> node_id nd = ni_node_id n).
Proof.
  intros Hv. unfold validate_exact_enrollment_binding_tx in Hv. peel_in Hv; unwrap.
  match goal with Hp : validate_approved_join_provenance_tx _ _ _ = Ok _,
    Ho : validate_enrollment_endpoint_origin _ _ _ = Ok _ |- _ =>
    rename Hp into Hprov, Ho into Horig end.
  pose proof Hprov as Hp. unfold validate_approved_join_provenance_tx in Hp.
  pose proof Horig as Ho. unfold validate_enrollment_endpoint_origin in Ho.
  peel_all Hp. peel_all Ho. bool_facts. split_and!; try done; try congruence.
  match goal with Hx : et_endpoint_id e = _, Hy : jr_assigned_endpoint_id j = _ |- _ =>
    by rewrite Hx, Hy end.
Qed.

Lemma binding_active db j e n labels d :
  validate_exact_enrollment_binding_tx db j e n labels d = Ok tt -> et_status e = Active.
Proof.
  intros Hv. apply binding_facts in Hv as (_ & Ho & _).
  unfold validate_enrollment_endpoint_origin in Ho. by peel_all Ho.
Qed.

Lemma join_row_approved_by row j :
  join_request_from_row row = Ok j -> jr_approved_by j = jr_approved_by row.
Proof. unfold join_request_from_row. intros Hr. by peel_all Hr. Qed.

(** The record read back after the update of an approval. *)
Lemma approved_record db id f db' j actor :
  (forall k r, db_joins db !! k = Some r -> jr_request_id r = k) ->
  update_pending_join db id f = (db', 1) ->
  (forall r, jr_request_id (f r) = jr_request_id r) ->
  (forall r, jr_approved_by (f r) = Some actor) ->
  get_join_request_tx db' id = Ok (Some j) ->
  jr_request_id j = id /\ jr_approved_by j = Some actor.
Proof.
  intros Hkey Hu Hid Hby Hj. apply update_pending_one in Hu as (r & Hr & _ & ->).
  apply get_join_some in Hj as (row & Hrow & Hj). simpl in Hrow.
  rewrite lookup_insert_eq in Hrow. injection Hrow as <-.
  rewrite (join_row_approved_by _ _ Hj), Hby.
  apply join_from_row in Hj as (-> & _). rewrite Hid. by rewrite (Hkey _ _ Hr).
Qed.

Lemma filter_none {A} (P : A -> bool) l :
  (forall x, x ∈ l -> P x = false) -> List.filter P l = [].
Proof.
  induction l as [|x l IH]; intros Hn; simpl; [done|].
  rewrite (Hn x) by left. apply IH. intros y Hy. apply Hn. by right.
Qed.

(** The log after the first approval holds exactly one matching event. *)
Lemma approval_event_counted db0 db env actor id j before e n reason db' nd :
  not_yet_approved db0 id -> db_audit db = db_audit db0 ->
  audit_enrollment_binding_tx env db actor "enrollment.approve" id before j None (Some nd)
    None (Some e) reason = Ok db' ->
  jr_request_id j = id -> jr_approved_by j = Some actor ->
  et_endpoint_id e = ni_endpoint_id n -> node_id nd = ni_node_id n ->
  approved_join_audit_count_tx db' j (ni_endpoint_id n) (Some (ni_node_id n)) = 1.
Proof.
  intros Hno Hlog Ha Hid Hby He Hn. unfold audit_enrollment_binding_tx in Ha.
  apply insert_audit_frame in Ha as (log & -> & p & _ & ->).
  unfold approved_join_audit_count_tx, count_events. simpl.
  rewrite List.filter_app, length_app, Hlog. rewrite filter_none.
  - simpl. rewrite Hby, Hid, He, Hn, String.eqb_refl, !bool_decide_eq_true_2 by done. done.
  - intros x Hx. apply Hno in Hx. rewrite Hid.
    destruct (event_ok "enrollment.approve" x); [|done]. simpl.
    by rewrite bool_decide_eq_false_2 by auto.
Qed.

Lemma update_pending_log db id f db' n :
  update_pending_join db id f = (db', n) -> db_audit db' = db_audit db.
Proof. unfold update_pending_join. intros Hu. by repeat case_match; simplify_eq. Qed.

Lemma insert_node_log db n db' : insert_node_tx db n = Ok db' -> db_audit db' = db_audit db.
Proof. unfold insert_node_tx. intros Hi. by repeat case_match; simplify_eq. Qed.

Lemma insert_trust_log env db e db' :
  insert_endpoint_trust_tx env db e = Ok db' -> db_audit db' = db_audit db.
Proof. unfold insert_endpoint_trust_tx. intros Hi. by peel_all Hi. Qed.

(** The reads and checks of a retry do not look at the log. *)
Lemma approve_retry_ok db log approval node j e labels d :
  validate_exact_enrollment_binding_tx db j e node (Some labels) d = Ok tt ->
  labels = ap_approved_labels_json approval ->
  get_endpoint_trust_tx db (ni_endpoint_id node) = Ok (Some e) ->
  approved_join_audit_count_tx (set_audit log db) j (ni_endpoint_id node)
    (Some (ni_node_id node)) = 1 ->
  approve_retry (set_audit log db) approval node j = Ok (set_audit log db, j).
Proof.
  intros Hb -> He Hc. pose proof (binding_facts _ _ _ _ _ _ Hb) as (Hp & Ho & _ & _ & Hn & _).
  unfold approve_retry, validate_approved_join_audit_provenance_tx.
  change (validate_approved_join_provenance_tx (set_audit log db) j (ni_endpoint_id node))
    with (validate_approved_join_provenance_tx db j (ni_endpoint_id node)).
  change (get_endpoint_trust_tx (set_audit log db) (ni_endpoint_id node))
    with (get_endpoint_trust_tx db (ni_endpoint_id node)).
  rewrite Hp, He. simpl. rewrite (origin_any_id _ _ _ _ Ho), Hn, Hc. simpl.
  match goal with |- context [validate_exact_enrollment_binding_tx _ j e node ?l ?d'] =>
    change (validate_exact_enrollment_binding_tx (set_audit log db) j e node l d')
      with (validate_exact_enrollment_binding_tx db j e node l d') end.
  by rewrite (binding_any_text _ _ _ _ _ _ _ Hb).
Qed.

Lemma approve_pending_retry env db approval node labels before actor db' j :
  enroll_wf db -> not_yet_approved db (ap_request_id approval) ->
  approve_pending env db approval node labels before actor = Ok (db', j) ->
  get_join_request_tx db' (ap_request_id approval) = Ok (Some j) /\
  jr_status j = JoinApproved /\ approve_retry db' approval node j = Ok (db', j).
Proof.
  intros Hwf Hno Hp. unfold approve_pending in Hp. peel_all Hp.
  match goal with Hu : update_pending_join ?dt _ _ = (?d, _),
    Hj : get_join_request_tx _ _ = Ok (Some j), Hn : get_node_tx _ _ = Some ?nd,
    He : get_endpoint_trust_tx ?d _ = Ok (Some ?e), Hi : insert_node_tx _ _ = Ok ?d0,
    Ht : insert_endpoint_trust_tx _ _ _ = Ok _,
    Hb : validate_exact_enrollment_binding_tx _ _ _ _ _ _ = _,
    Ha : audit_enrollment_binding_tx _ _ _ _ _ _ _ _ _ _ _ _ = Ok db' |- _ =>
    rename Hu into Hupd, Hj into Hjoin, Hn into Hnode, He into Hend, Hb into Hbind,
      Ha into Haud, Hi into Hins, Ht into Htrust, dt into dbt end.
  pose proof (insert_node_enroll _ _ _ Hins) as [_ Ej1].
  pose proof (insert_trust_enroll _ _ _ _ Htrust) as [_ Ej2].
  assert (forall k r, db_joins dbt !! k = Some r -> jr_request_id r = k) as Hkeys.
  { rewrite Ej2, Ej1. exact (ew_join_key _ Hwf). }
  destruct (approved_record _ _ _ _ j actor Hkeys Hupd) as [Hid Hby]; [done..|].
  pose proof (binding_facts _ _ _ _ _ _ Hbind) as (_ & _ & Hst & Hee & _ & Hnd).
  pose proof Haud as Hcount. eapply (approval_event_counted db) in Hcount; eauto.
  2:{ by rewrite (update_pending_log _ _ _ _ _ Hupd), (insert_trust_log _ _ _ _ Htrust),
        (insert_node_log _ _ _ Hins). }
  apply insert_audit_frame in Haud as (log & -> & _).
  split_and!; [done..|]. by eapply approve_retry_ok.
Qed.

(** An approval whose answer was lost can be repeated.  After the first
    approval of a join request, approving it again with the same input by the
    same operator, at any later time, answers the same record and leaves the
    whole store as it is. *)
Theorem approve_join_request_idempotent env env' db approval actor db' j :
  enroll_wf db -> not_yet_approved db (ap_request_id approval) ->
  approve_join_request env db approval actor = (db', Ok j) ->
  approve_join_request env' db' approval actor = (db', Ok j).
Proof.
  intros Hwf Hno Ha. unfold approve_join_request in *. apply transact_ok in Ha.
  destruct (map_err InvalidInput (validate_actor actor)); [|done].
  destruct (map_err InvalidInput (validate_reason _)); [|done].
  destruct (validate_enrollment_request_id _); [|done].
  destruct (enrollment_node_insert _ _ _ _) as [node|]; [|done].
  destruct (map_err InvalidInput (validate_label_json _ _)); [|done].
  destruct (canonical_enrollment_metadata _ _) as [labels|]; [|done].
  destruct (get_join_request_tx db _) as [[before|]|] eqn:Hj; [|done..].
  simpl in Ha. destruct (bool_decide (jr_status before = JoinApproved)) eqn:Hst.
  - pose proof Ha as Hr. unfold approve_retry in Hr. peel_all Hr.
    rewrite Hj. simpl. by rewrite bool_decide_eq_true_2, Ha.
  - destruct (approve_pending_retry _ _ _ _ _ _ _ _ _ Hwf Hno Ha) as (-> & Hs & Hr).
    simpl. by rewrite bool_decide_eq_true_2, Hr by done.
Qed.
End approval.

(** The store of the scenario before the approval. *)
Definition sc_script3 : list (StoreEnv * StoreOp) :=
  [(sc_env, OpAddNode sc_node "alice"); (sc_env, OpCreateToken sc_token "alice");
   (sc_env, OpSubmitJoin sc_request "agent")].

Definition sc_submitted : Db := run_store sc_script3 empty_db.

Lemma sc_submitted_enroll_wf : enroll_wf sc_submitted.
Proof.
  exact (run_store_enroll sc_script3 empty_db empty_trust_wf
           ltac:(repeat constructor; simpl; lia) empty_enroll_wf).
Qed.

Lemma sc_submitted_not_approved : not_yet_approved sc_submitted "join-0001".
Proof.
  assert (forallb (fun e => negb (event_ok "enrollment.approve" e)) (db_audit sc_submitted) = true)
    as Hb by (vm_compute; reflexivity).
  rewrite forallb_forall in Hb. intros e He Hok _.
  rewrite list_elem_of_In in He. specialize (Hb e He). rewrite Hok in Hb. discriminate Hb.
Qed.

Lemma approve_join_request_idempotent_witness :
  exists db' j, approve_join_request sc_env sc_submitted sc_approval "alice" = (db', Ok j) /\
    approve_join_request sc_env db' sc_approval "alice" = (db', Ok j).
Proof.
  destruct (approve_join_request sc_env sc_submitted sc_approval "alice") as [db' [j|x]] eqn:Ha.
  - exists db', j. split; [reflexivity|].
    exact (approve_join_request_idempotent sc_env sc_env sc_submitted sc_approval "alice"
             db' j sc_submitted_enroll_wf sc_submitted_not_approved Ha).
  - exfalso.
    assert (is_ok (approve_join_request sc_env sc_submitted sc_approval "alice").2 = true) as Hok
      by (vm_compute; reflexivity).
    rewrite Ha in Hok. discriminate Hok.
Defined.
