(* ===== verification/StoreProperties.v ===== *)
(** * StoreProperties: what the controller's registry guarantees

    The theorems about the node registry, the trust table, enrollment and the
    check before a dispatch, for every store that a sequence of operations can
    produce. *)

From S2P Require Import Prelude Text External AgentConfig InputValidation StoreTypes.
From S2P Require Import StoredText StoragePayloads StoreDb TrustStore Enrollment StoreLemmas.
From S2P Require Import TrustInvariant TrustRefinement EnrollmentInvariant StoreScenario.
From S2P Require Import StoreRuns TrustTotality.

Section properties.
Context `{EndpointIdOps, TimeOps, JsonOps, DigestOps}.

(** ** Helpers *)

Lemma store_reachable_wf script : trust_wf (run_store script empty_db).
Proof. apply run_store_wf, empty_trust_wf. Qed.

Lemma reachable_enroll script :
  Forall (fun s => op_typed s.2) script -> enroll_wf (run_store script empty_db).
Proof. intros Ht. apply run_store_enroll; auto using empty_trust_wf, empty_enroll_wf. Qed.

Lemma dispatch_needs_active db n e :
  endpoint_trust_rejection db n e = None ->
  exists r nd, db_trust db !! e = Some r /\ et_status r = Active /\ et_node_id r = Some n /\
    db_nodes db !! n = Some nd /\ node_endpoint_id nd = e /\ node_enabled nd = true.
Proof.
  unfold endpoint_trust_rejection, get_endpoint_dispatch_binding.
  destruct (db_trust db !! e) as [r|]; [|done]. simpl.
  destruct (et_status r) eqn:Hs; try done. destruct (et_node_id r) as [m|] eqn:Hm; [|done].
  destruct (db_nodes db !! n) as [nd|] eqn:Hn; simpl; intros Hd; case_match; try done; bool_facts.
  all: try congruence. exists r, nd. split_and!; congruence.
Qed.

Lemma dispatch_enabled db n nd :
  trust_wf db -> db_nodes db !! n = Some nd -> node_enabled nd = true ->
  endpoint_trust_rejection db n (node_endpoint_id nd) = None.
Proof.
  intros Hwf Hnd Hen. destruct (wf_enabled _ Hwf n nd Hnd Hen) as (r & Hr & Ha & Hn).
  unfold endpoint_trust_rejection, get_endpoint_dispatch_binding. rewrite Hr, Hnd. simpl.
  rewrite Ha, Hn.
  destruct (active_rows_cases db Hwf n) as [Hnil|(nd' & row & _ & _ & _ & _ & ->)].
  - exfalso. assert (r ∈ select (active_row n) (db_trust db)) as Hin;
      [|rewrite Hnil in Hin; by inversion Hin].
    apply elem_of_select. exists (node_endpoint_id nd). by rewrite active_row_spec.
  - rewrite (wf_node_key _ Hwf _ _ Hnd), Hen, String.eqb_refl, !bool_decide_eq_false_2 by auto.
    done.
Qed.

Lemma inactive_rejected db n e r :
  db_trust db !! e = Some r -> et_status r <> Active ->
  endpoint_trust_rejection db n e = Some (Inactive (et_status r)).
Proof.
  intros Hr Hs. unfold endpoint_trust_rejection, get_endpoint_dispatch_binding. rewrite Hr.
  simpl. by destruct (et_status r).
Qed.

Lemma transact_err {A} db (body : result StoreError (Db * A)) db' x :
  transact db body = (db', Err x) -> db' = db.
Proof. unfold transact. intros Ht. repeat case_match; by simplify_eq. Qed.

Lemma remove_node_nodes env db id actor db' u :
  trust_wf db -> remove_node env db id actor = (db', Ok u) ->
  exists nd, db_nodes db !! id = Some nd /\ db_nodes db' = delete id (db_nodes db).
Proof.
  intros Hwf. unfold remove_node, transact, get_node_tx.
  destruct (validate_actor actor); simpl; [|done].
  destruct (db_nodes db !! id) as [nd|] eqn:Hnd; simpl; [|done].
  destruct (removal_candidates_cases db id nd Hwf Hnd) as (reg & act & -> & -> & Hc).
  destruct Hc as [->|(e & row & r & -> & _)]; simpl.
  - destruct (insert_audit_tx _ _) as [d|] eqn:Hi; [|done]. intros ?. simplify_eq.
    apply insert_audit_trust in Hi as [Hn _]. eauto.
  - destruct (match get_node_by_endpoint_tx _ _ with Some _ => _ | None => _ end); [|done].
    destruct (transition_endpoint_status_tx _ _ _ _) as [[d after]|] eqn:Ht; [|done]. simpl.
    destruct (insert_audit_tx _ _) as [d'|] eqn:Hi; [|done]. intros ?. simplify_eq.
    apply insert_audit_trust in Hi as [Hn _]. simpl in Hn.
    exists nd. split; [done|]. rewrite Hn. by rewrite (transition_nodes _ _ _ _ _ _ Ht).
Qed.

(** ** Theorems *)

(** C7: After any sequence of store operations, the trust check lets the
    controller contact node [n] at endpoint [e] exactly when the registry has
    the node enabled and [e] is its current endpoint: an enabled node is never
    blocked by a stale trust row, and nothing but its current endpoint is ever
    contacted under its name. *)
Theorem dispatch_allowed_iff script n e :
  endpoint_trust_rejection (run_store script empty_db) n e = None <->
  exists nd, db_nodes (run_store script empty_db) !! n = Some nd /\
    node_enabled nd = true /\ node_endpoint_id nd = e.
Proof.
  split.
  - intros Hd. destruct (dispatch_needs_active _ _ _ Hd) as (r & nd & ?). naive_solver.
  - intros (nd & Hnd & Hen & <-). apply dispatch_enabled; auto using store_reachable_wf.
Qed.

(** C8: A retired endpoint is never contacted again.  Once an endpoint is
    revoked, quarantined or rotated away, no sequence of operations makes it
    active again: its row stays, its status only moves along the life cycle,
    its generation does not decrease, it keeps its fingerprint, and every
    dispatch to it, for any node, is refused as inactive. *)
Theorem retired_endpoint_stays_out script script' e r n :
  db_trust (run_store script empty_db) !! e = Some r -> et_status r <> Active ->
  exists r', db_trust (run_store (script ++ script') empty_db) !! e = Some r' /\
    reaches (et_status r) (et_status r') = true /\ et_status r' <> Active /\
    et_generation r <= et_generation r' /\ et_fingerprint r' = et_fingerprint r /\
    endpoint_trust_rejection (run_store (script ++ script') empty_db) n e
      = Some (Inactive (et_status r')).
Proof.
  intros Hr Hs. rewrite run_store_app.
  destruct (run_store_later script' _ e r (store_reachable_wf script) Hr) as (r' & Hr' & Hl).
  pose proof (later_status _ _ Hl) as Hst.
  assert (et_status r' <> Active) as Hs' by (by destruct (et_status r), (et_status r')).
  exists r'. split_and!; try done; [by destruct Hl..|by apply inactive_rejected].
Qed.

(** C10: Coherence is an invariant of the registry and the trust table: from a
    coherent store every sequence of operations, failing ones included, leads
    to a coherent store.  Coherence says that a bound active endpoint is the
    current endpoint of its node, an enabled node has an active endpoint bound
    to it, no two nodes share an endpoint, every row can be read and repeats
    its columns in its bundle, and rotation edges have both ends. *)
Theorem store_stays_coherent script db : trust_wf db -> trust_wf (run_store script db).
Proof. apply run_store_wf. Qed.

(** C9: Each operation is one of the abstract steps of the trust life cycle
    (register, switch, retire, remove, rotate, reconcile, claim, or no change),
    whatever its input and whether it succeeds or fails. *)
Theorem operations_refine_trust_steps env op db :
  trust_wf db -> trust_step db (apply_op env op db).
Proof. apply apply_op_step. Qed.

(** C11: The budget of an enrollment token is never exceeded: after any
    sequence of operations the number of join requests stored under a token is
    its use count, which is at most its maximum. *)
Theorem token_budget script k t :
  Forall (fun s => op_typed s.2) script ->
  db_tokens (run_store script empty_db) !! k = Some t ->
  Z.of_nat (size (joins_of (run_store script empty_db) k)) = tok_used_count t /\
  tok_used_count t <= tok_max_uses t.
Proof.
  intros Hty Hk. destruct (ew_used _ (reachable_enroll _ Hty) k t Hk) as [Hu Hm].
  split; [by symmetry|done].
Qed.

(** C12: An approval vouches for one key: an approved join request names an
    endpoint that it asked for (if it asked for one), that is in the trust
    table with the fingerprint of the request and was not the result of a
    rotation; no other approved request names the same endpoint; and only an
    approved request has an endpoint assigned. *)
Theorem approval_binds_fingerprint script k j :
  Forall (fun s => op_typed s.2) script ->
  db_joins (run_store script empty_db) !! k = Some j ->
  (jr_status j <> JoinApproved -> jr_assigned_endpoint_id j = None) /\
  (jr_status j = JoinApproved ->
   exists e row, jr_assigned_endpoint_id j = Some e /\
     (forall q, jr_requested_endpoint_id j = Some q -> q = e) /\
     db_trust (run_store script empty_db) !! e = Some row /\
     et_fingerprint row = Some (jr_fingerprint j) /\ et_previous_endpoint_id row = None /\
     forall k' j', db_joins (run_store script empty_db) !! k' = Some j' ->
       jr_status j' = JoinApproved -> jr_assigned_endpoint_id j' = Some e -> k' = k).
Proof.
  intros Hty Hk. pose proof (reachable_enroll _ Hty) as Hen.
  split; [by apply (ew_unassigned _ Hen k)|]. intros Hs.
  destruct (ew_approved _ Hen k j Hk Hs) as (e & row & He & Hq & Hrow & Hf & Hp).
  exists e, row. split_and!; try done. intros k' j' Hk' Hs' He'.
  apply (ew_distinct _ Hen k' k j' j); congruence.
Qed.

(** Taking an endpoint out of service cannot be blocked by the state of a
    store: after any sequence of operations, revocation and quarantine fail
    only when the input is unsuitable, the endpoint is unknown, its status
    does not allow the move or its generation counter is used up; the
    consistency errors (ambiguous or broken lineage, bundle or binding) do not
    occur. *)
Theorem retiring_is_total script env e actor reason x :
  (revoke_endpoint env (run_store script empty_db) e actor reason).2 = Err x \/
  (quarantine_endpoint env (run_store script empty_db) e actor reason).2 = Err x ->
  retire_error x.
Proof.
  intros [Hx|Hx]; eapply update_endpoint_status_errors;
    eauto using store_reachable_wf; discriminate.
Qed.

(** Removing a node fails, after any sequence of operations, only for
    unsuitable input, an unknown node or a generation counter that is used up.
    When it succeeds the node and only it is gone from the registry, no active
    endpoint is bound to it, nothing is dispatched in its name, and the
    endpoint it had is not dispatched to for any node. *)
Theorem removal_outcome script env id actor :
  let db := run_store script empty_db in
  match remove_node env db id actor with
  | (db', Ok _) =>
      db_nodes db' = delete id (db_nodes db) /\
      (forall e r, db_trust db' !! e = Some r -> et_status r = Active ->
         et_node_id r <> Some id) /\
      (forall e, endpoint_trust_rejection db' id e <> None) /\
      exists nd, db_nodes db !! id = Some nd /\
        forall n, endpoint_trust_rejection db' n (node_endpoint_id nd) <> None
  | (db', Err x) => db' = db /\ removal_error id x
  end.
Proof.
  intros db. pose proof (store_reachable_wf script) as Hwf. fold db in Hwf.
  destruct (remove_node env db id actor) as [db' [u|x]] eqn:Hr.
  - destruct (remove_node_nodes env db id actor db' u Hwf Hr) as (nd & Hnd & Hdel).
    assert (trust_wf db') as Hwf'.
    { pose proof (remove_node_step env db id actor Hwf) as Hs. rewrite Hr in Hs.
      by eapply trust_step_wf. }
    assert (db_nodes db' !! id = None) as Hgone by (rewrite Hdel; apply lookup_delete_eq).
    split_and!; [done|..].
    + intros e r He Ha Hn. destruct (wf_active _ Hwf' e r id He Ha Hn) as (? & ? & _).
      congruence.
    + intros e Hd. destruct (dispatch_needs_active _ _ _ Hd) as (? & ? & ?). naive_solver.
    + exists nd. split; [done|]. intros n Hd.
      destruct (dispatch_needs_active _ _ _ Hd) as (r & nd' & _ & _ & _ & Hn & He & _).
      rewrite Hdel in Hn. apply lookup_delete_Some in Hn as [Hne Hn].
      by destruct Hne; eapply (wf_unique _ Hwf).
  - split; [|eapply (remove_node_errors env db); [done|by rewrite Hr]].
    exact (transact_err _ _ _ _ Hr).
Qed.
End properties.

(** ** Witnesses *)

(** The scenario: a node is added, a second one enrolls, its endpoint rotates. *)
Definition sc_script : list (StoreEnv * StoreOp) :=
  [(sc_env, OpAddNode sc_node "alice"); (sc_env, OpCreateToken sc_token "alice");
   (sc_env, OpSubmitJoin sc_request "agent"); (sc_env, OpApproveJoin sc_approval "alice");
   (sc_env, OpRotateEndpoint "k2" "k3" "alice" "planned")].

Lemma sc_script_typed : Forall (fun s => op_typed s.2) sc_script.
Proof. repeat constructor. simpl. lia. Qed.

Lemma retired_endpoint_stays_out_witness :
  exists r', db_trust (run_store (sc_script ++ sc_script) empty_db) !! "k2" = Some r' /\
    endpoint_trust_rejection (run_store (sc_script ++ sc_script) empty_db) "edge-2" "k2"
      = Some (Inactive (et_status r')).
Proof.
  assert (exists r, db_trust (run_store sc_script empty_db) !! "k2" = Some r /\
            et_status r = Rotated) as (r & Hr & Hs).
  { eexists. split; vm_compute; reflexivity. }
  destruct (retired_endpoint_stays_out sc_script sc_script "k2" r "edge-2" Hr)
    as (r' & Hr' & _ & _ & _ & _ & Hd); [by rewrite Hs|].
  exact (ex_intro _ r' (conj Hr' Hd)).
Defined.

Lemma store_stays_coherent_witness : trust_wf (run_store sc_script empty_db).
Proof. apply (store_stays_coherent sc_script empty_db empty_trust_wf). Defined.

Lemma operations_refine_trust_steps_witness :
  let db := run_store (firstn 4 sc_script) empty_db in
  trust_step db (apply_op sc_env (OpRotateEndpoint "k2" "k3" "alice" "planned") db).
Proof.
  exact (operations_refine_trust_steps sc_env (OpRotateEndpoint "k2" "k3" "alice" "planned")
           (run_store (firstn 4 sc_script) empty_db) (store_reachable_wf (firstn 4 sc_script))).
Defined.

Lemma token_budget_witness :
  exists t, db_tokens (run_store sc_script empty_db) !! "tok-1" = Some t /\
    Z.of_nat (size (joins_of (run_store sc_script empty_db) "tok-1")) = tok_used_count t.
Proof.
  assert (exists t, db_tokens (run_store sc_script empty_db) !! "tok-1" = Some t) as [t Ht].
  { eexists. vm_compute. reflexivity. }
  exact (ex_intro _ t (conj Ht
    (proj1 (token_budget sc_script "tok-1" t sc_script_typed Ht)))).
Defined.

Lemma approval_binds_fingerprint_witness :
  exists j, db_joins (run_store sc_script empty_db) !! "join-0001" = Some j /\
    jr_status j = JoinApproved /\ exists e, jr_assigned_endpoint_id j = Some e.
Proof.
  assert (exists j, db_joins (run_store sc_script empty_db) !! "join-0001" = Some j /\
            jr_status j = JoinApproved) as (j & Hj & Hs).
  { eexists. split; vm_compute; reflexivity. }
  destruct (approval_binds_fingerprint sc_script "join-0001" j sc_script_typed Hj) as [_ Ha].
  destruct (Ha Hs) as (e & _ & He & _).
  exact (ex_intro _ j (conj Hj (conj Hs (ex_intro _ e He)))).
Defined.

Lemma retiring_is_total_witness :
  retire_error (EndpointNotFound "k9").
Proof.
  apply (retiring_is_total sc_script sc_env "k9" "alice" "lost"). left.
  vm_compute. reflexivity.
Defined.
