(* ===== verification/TrustPolicySync.v ===== *)
(** * TrustPolicySync: what a valid policy looks like, and when it agrees with a registry

    A policy that was loaded has distinct identifiers and references only its
    own operational nodes; each comparison reports nothing exactly when the two
    sides agree. *)

From S2P Require Import Prelude Text External Ordering AgentConfig InputValidation StoreTypes.
From S2P Require Import StoredText StoragePayloads StoreDb TrustStore Enrollment AlertWebhook.
From S2P Require Import SchedulerStore NodeMetadata TrustPolicy StoreLemmas TrustInvariant.

(** ** Loops with [?] *)

Lemma try_map_perm {E A B} (f : A -> result E B) l1 l2 r1 :
  l1 ≡ₚ l2 -> try_map f l1 = Ok r1 -> exists r2, try_map f l2 = Ok r2 /\ r1 ≡ₚ r2.
Proof.
  intros Hp. revert r1. induction Hp as [|x l1 l2 _ IH|x y l|l1 l2 l3 _ IH1 _ IH2]; intros r1 Hr.
  - by exists r1.
  - cbn [try_map] in *. destruct (f x) as [y|]; [|done].
    destruct (try_map f l1) as [r|]; [|done]. injection Hr as <-.
    destruct (IH r eq_refl) as (r2 & -> & Hp). eexists. split; [done|]. by constructor.
  - cbn [try_map] in *. destruct (f y) as [b|], (f x) as [a|]; try done.
    destruct (try_map f l) as [r|]; [|done]. injection Hr as <-.
    eexists. split; [done|]. constructor.
  - destruct (IH1 _ Hr) as (r2 & Hr2 & Hp2). destruct (IH2 _ Hr2) as (r3 & Hr3 & Hp3).
    exists r3. split; [done|]. by etrans.
Qed.

Lemma concat_nil {A} (ls : list (list A)) : concat ls = [] <-> Forall (fun l => l = []) ls.
Proof.
  induction ls as [|l ls IH]; simpl; [split; auto|]. rewrite Forall_cons, <- IH.
  destruct l; simpl; [tauto|]. split; [discriminate|]. by intros [? _].
Qed.

(** ** Valid policies *)

Section valid.
Context `{EndpointIdOps, TimeOps, JsonOps, Sha256Ops, JsonBytes, PolicyBytes}.

Lemma validate_nodes_spec nodes : forall ids eps eps',
  validate_nodes ids eps nodes = Ok eps' ->
  NoDup (map pn_node_id nodes) /\ (forall n, n ∈ nodes -> pn_node_id n ∉ ids) /\
  (forall n, n ∈ nodes -> exists e, validate_policy_node n = Ok e /\ e ∈ eps') /\
  eps ⊆ eps'.
Proof.
  induction nodes as [|n nodes IH]; simpl; intros ids eps eps' Hv.
  { injection Hv as <-. split_and!; [constructor|set_solver..]. }
  peel Hv. destruct (IH _ _ _ Hv) as (Hnd & Hids & Hall & Hsub). split_and!.
  - constructor; [|done]. intros (m & He & Hin)%list_elem_of_fmap. apply (Hids m Hin). set_solver.
  - intros m [->|Hin]%elem_of_cons; [done|]. specialize (Hids m Hin). set_solver.
  - intros m [->|Hin]%elem_of_cons; [|by apply Hall]. eexists. split; [done|].
    apply Hsub. set_solver.
  - set_solver.
Qed.

Lemma validate_controllers_spec cs : forall eps seen seen',
  validate_controllers eps seen cs = Ok seen' ->
  NoDup (map pc_endpoint_id cs) /\
  (forall c, c ∈ cs -> exists e, canonicalize_controller_endpoint_id (pc_endpoint_id c) = Ok e /\
                              (e ∉ eps) /\ (e ∉ seen) /\ e ∈ seen') /\ seen ⊆ seen'.
Proof.
  induction cs as [|c cs IH]; simpl; intros eps seen seen' Hv.
  { injection Hv as <-. split_and!; [constructor|set_solver..]. }
  peel_all Hv. destruct (IH _ _ _ Hv) as (Hnd & Hall & Hsub). unfold config in *. unwrap.
  split_and!; [|intros c'|set_solver].
  - constructor; [|done]. intros (c' & He & Hin)%list_elem_of_fmap.
    destruct (Hall c' Hin) as (e & Hc' & _ & Hn & _). rewrite <- He in Hc'.
    match goal with Ha : canonicalize_controller_endpoint_id _ = Ok ?a |- _ =>
      assert (e = a) as -> by congruence end. set_solver.
  - intros [->|Hin]%elem_of_cons; [eexists; split_and!; [done|done|done|set_solver]|].
    destruct (Hall c' Hin) as (e & ? & ? & ? & ?). exists e. split_and!; [done|done| |done].
    set_solver.
Qed.

Lemma validate_peers_spec ps : forall ids ops pairs pairs',
  validate_peers ids ops pairs ps = Ok pairs' ->
  NoDup (map (fun p => (pp_source_node_id p, pp_peer_node_id p)) ps) /\
  (forall p, p ∈ ps -> ((pp_source_node_id p, pp_peer_node_id p) ∉ pairs) /\
     pp_source_node_id p ∈ ops /\ pp_peer_node_id p ∈ ops /\
     pp_source_node_id p <> pp_peer_node_id p) /\
  (forall x, x ∈ pairs' <-> x ∈ pairs \/ exists p, p ∈ ps /\ x = (pp_source_node_id p, pp_peer_node_id p)).
Proof.
  induction ps as [|p ps IH]; simpl; intros ids ops pairs pairs' Hv.
  { injection Hv as <-. split_and!; [constructor|set_solver..]. }
  peel Hv. destruct (IH _ _ _ _ Hv) as (Hnd & Hall & Hp). split_and!.
  - constructor; [|done]. intros (q & He & Hin)%list_elem_of_fmap.
    destruct (Hall q Hin) as [Hn _]. rewrite <- He in Hn. set_solver.
  - intros q [->|Hin]%elem_of_cons; [split_and!; try done; by apply dec_stable|].
    destruct (Hall q Hin) as (Hn & ? & ? & ?). split_and!; try done. set_solver.
  - intros x. rewrite Hp. set_solver.
Qed.

Lemma validate_path_probes_spec ps : forall ids peers none pairs,
  validate_path_probes ids peers none pairs ps = Ok tt ->
  NoDup (map (fun p => (pb_source_node_id p, pb_target_node_id p)) ps) /\
  (forall p, p ∈ ps -> ((pb_source_node_id p, pb_target_node_id p) ∉ pairs) /\
     (pb_source_node_id p, pb_target_node_id p) ∈ peers /\
     (default true (pb_enabled p) = true -> none = false)).
Proof.
  induction ps as [|p ps IH]; simpl; intros ids peers none pairs Hv.
  { split; [constructor|set_solver]. }
  peel Hv. destruct (IH _ _ _ _ Hv) as (Hnd & Hall). split.
  - constructor; [|done]. intros (q & He & Hin)%list_elem_of_fmap.
    destruct (Hall q Hin) as [Hn _]. rewrite <- He in Hn. set_solver.
  - intros q [->|Hin]%elem_of_cons.
    + split_and!; [done|by apply dec_stable|]. intros He. rewrite He in *. done.
    + destruct (Hall q Hin) as (? & ? & ?). split_and!; try done. set_solver.
Qed.

(** What [validate_policy] guarantees. *)
Record policy_wf (p : TrustPolicyDocument) : Prop := {
  pw_nodes : NoDup (map pn_node_id (pd_nodes p));
  pw_controllers : NoDup (map pc_endpoint_id (pd_controllers p));
  pw_peers : NoDup (map (fun q => (pp_source_node_id q, pp_peer_node_id q)) (pd_peers p));
  pw_probes : NoDup (map (fun q => (pb_source_node_id q, pb_target_node_id q)) (pd_path_probes p));
  pw_node n : n ∈ pd_nodes p -> is_ok (validate_policy_node n) = true;
  pw_apart c n : c ∈ pd_controllers p -> n ∈ pd_nodes p ->
    pc_endpoint_id c <> pn_endpoint_id n;
  pw_peer q : q ∈ pd_peers p ->
    pp_source_node_id q <> pp_peer_node_id q /\
    exists a b, a ∈ pd_nodes p /\ b ∈ pd_nodes p /\ pn_node_id a = pp_source_node_id q /\
      pn_node_id b = pp_peer_node_id q /\ operational a = true /\ operational b = true;
  pw_probe q : q ∈ pd_path_probes p ->
    (exists r, r ∈ pd_peers p /\ pp_source_node_id r = pb_source_node_id q /\
       pp_peer_node_id r = pb_target_node_id q) /\
    (default true (pb_enabled q) = true -> pd_controllers p <> []);
}.

Lemma policy_node_endpoint n e :
  validate_policy_node n = Ok e -> canonicalize_node_endpoint_id (pn_endpoint_id n) = Ok e.
Proof. unfold validate_policy_node, config. intros Hn. peel_all Hn. done. Qed.

Lemma operational_elem x nodes :
  x ∈ (list_to_set (map pn_node_id (List.filter operational nodes)) : gset string) ->
  exists n, n ∈ nodes /\ pn_node_id n = x /\ operational n = true.
Proof.
  rewrite elem_of_list_to_set, list_elem_of_fmap. intros (n & -> & Hn). exists n.
  apply list_elem_of_In, filter_In in Hn as [Hn Ho]. split_and!; [|done..].
  by apply list_elem_of_In.
Qed.

Lemma canonicalize_same f1 f2 v e :
  canonicalize_endpoint_id v f1 = Ok e -> canonicalize_endpoint_id v f2 = Ok e.
Proof.
  unfold canonicalize_endpoint_id. destruct (_ || _); [done|].
  by destruct (endpoint_from_str v).
Qed.

Lemma validate_policy_wf now p r : validate_policy now p = Ok r -> policy_wf p.
Proof.
  unfold validate_policy. intros Hv. peel_in Hv. clear Hv.
  match goal with Hn : validate_nodes _ _ _ = _, Hk : validate_controllers _ _ _ = _,
    Hp : validate_peers _ _ _ _ = _, Hb : validate_path_probes _ _ _ _ _ = Ok ?u |- _ =>
    destruct u; pose proof Hk as Hk0; apply validate_nodes_spec in Hn as (Hn1 & _ & Hn2 & _);
    apply validate_controllers_spec in Hk as (Hk1 & Hk2 & _);
    apply validate_peers_spec in Hp as (Hp1 & Hp2 & Hp3);
    apply validate_path_probes_spec in Hb as (Hb1 & Hb2)
  end.
  split; try done.
  - intros n Hn. by destruct (Hn2 n Hn) as (e & -> & _).
  - intros c n Hcin Hnin He. destruct (Hk2 c Hcin) as (e & Hce & Hno & _).
    destruct (Hn2 n Hnin) as (e' & Hne%policy_node_endpoint & Hin).
    apply (canonicalize_same _ "node endpoint_id") in Hce. rewrite He in Hce.
    unfold canonicalize_node_endpoint_id in Hne. rewrite Hce in Hne. by injection Hne as ->.
  - intros q Hq. destruct (Hp2 q Hq) as (_ & Hs & Ht & Hne). split; [done|].
    apply operational_elem in Hs as (x & ? & ? & ?), Ht as (y & ? & ? & ?). by exists x, y.
  - intros q Hq. destruct (Hb2 q Hq) as (_ & Hpr & Hen). split.
    + apply Hp3 in Hpr as [Hpr|(r' & Hr & [= -> ->])]; [set_solver|by exists r'].
    + intros He Hnil. specialize (Hen He). apply bool_decide_eq_false in Hen. apply Hen.
      rewrite Hnil in Hk0. cbn in Hk0. congruence.
Qed.

(** ** The canonical form *)

(** The same declarations in another order. *)
Record same_policy (a b : TrustPolicyDocument) : Prop := {
  sp_version : pd_version a = pd_version b;
  sp_metadata : pd_metadata a = pd_metadata b;
  sp_nodes : pd_nodes a ≡ₚ pd_nodes b;
  sp_controllers : pd_controllers a ≡ₚ pd_controllers b;
  sp_peers : pd_peers a ≡ₚ pd_peers b;
  sp_probes : pd_path_probes a ≡ₚ pd_path_probes b;
}.

(** Lists with the same sorted form, one of which has distinct keys. *)
Lemma sorted_same {A B} (key : A -> list (option string)) (f : A -> B) l1 l2 :
  (forall x y, key x = key y -> f x = f y) -> NoDup (map f (sort_by key l1)) -> l1 ≡ₚ l2 ->
  sort_by key l1 = sort_by key l2.
Proof.
  intros Hk Hnd Hp. apply sort_by_unique; [|done].
  apply (NoDup_finer f); [done|]. by rewrite <- (sort_by_perm key l1).
Qed.

Lemma canonicalize_policy_perm a b p :
  same_policy a b -> policy_wf p -> canonicalize_policy a = Ok p -> canonicalize_policy b = Ok p.
Proof.
  intros [Hv Hm Hn Hc Hp Hb] Hwf. unfold canonicalize_policy. intros Ha. peel_in Ha.
  injection Ha as <-. destruct Hwf as [W1 W2 W3 W4 _ _ _ _]. cbn in *.
  match goal with Ht : try_map _ (pd_nodes a) = Ok _, Hu : try_map _ (pd_controllers a) = Ok _ |- _ =>
    destruct (try_map_perm _ _ _ _ Hn Ht) as (nodes & En & Qn);
    destruct (try_map_perm _ _ _ _ Hc Hu) as (controllers & Ec & Qc) end.
  rewrite En, Ec. clear En Ec.
  eapply sorted_same in W1 as <-; [|by intros ?? [=]|exact Qn].
  eapply sorted_same in W2 as <-; [|by intros ?? [=]|exact Qc].
  rewrite Hv, Hm.
  eapply sorted_same in W3 as <-; [|intros ?? [=]; cbn; congruence|exact Hp].
  eapply sorted_same in W4 as <-; [|intros ?? [=]; cbn; congruence|exact Hb]. done.
Qed.

Lemma load_perm now a b p r :
  same_policy a b -> load_and_validate_policy now a = Ok (p, r) ->
  load_and_validate_policy now b = Ok (p, r).
Proof.
  unfold load_and_validate_policy. intros Hs Ha. peel_in Ha. injection Ha as -> ->.
  match goal with Hv : validate_policy _ _ = _ |- _ => pose proof (validate_policy_wf _ _ _ Hv) as Hw;
    match goal with Hk : canonicalize_policy a = _ |- _ =>
      rewrite (canonicalize_policy_perm _ _ _ Hs Hw Hk), Hv end end.
  done.
Qed.
End valid.

(** ** When a policy and the registry agree

    [in_sync] says, without reference to the comparison, that the registry is
    what the policy declares.  For a coherent store and a loaded policy the
    comparison reports nothing exactly then. *)

Section agree.
Context `{EndpointIdOps, TimeOps, JsonOps, Sha256Ops, JsonBytes, PolicyBytes}.

(** ** Agreement *)

Record registry_agrees (p : PolicyNode) (n : NodeRecord) : Prop := {
  ra_endpoint : pn_endpoint_id p = node_endpoint_id n;
  ra_region : pn_region p = node_region n;
  ra_role : pn_role p = node_role n;
  ra_enabled b : pn_enabled p = Some b -> b = node_enabled n;
}.

Record advisory_agrees (p : PolicyNode) (m : option NodeMetadataRecord) : Prop := {
  aa_environment v : pn_environment p = Some v -> v = from_option nm_environment unset m;
  aa_site v : pn_site p = Some v -> v = from_option nm_site unset m;
  aa_owner v : pn_owner_team p = Some v -> v = from_option nm_owner_team unset m;
  aa_tier v : pn_service_tier p = Some v -> v = from_option nm_service_tier unset m;
  aa_version v : pn_expected_agent_version p = Some v ->
    v = from_option (fun m => default unset (nm_expected_agent_version m)) unset m;
  aa_labels l : pn_labels p = Some l ->
    str_of_bytes (json_bytes (labels_value l))
    = from_option (fun m => str_of_bytes (json_bytes (nm_labels_json m))) unset m;
}.

(** The allowlists of the bundle, read as canonical identifiers, are those of an
    operational node of the policy: every controller, the peers it is the source
    of, and every controller with every target of its enabled path probes. *)
Record bundle_agrees (policy : TrustPolicyDocument) (p : PolicyNode) (b : TrustBundlePayloadV1)
    : Prop := {
  ba_controllers x :
    (exists v, v ∈ tbp_trusted_controllers b /\ canonicalize_controller_endpoint_id v = Ok x) <->
    operational p = true /\ exists c, c ∈ pd_controllers policy /\ pc_endpoint_id c = x;
  ba_peers x :
    (exists v, v ∈ tbp_trusted_peers b /\ canonicalize_peer_endpoint_id v = Ok x) <->
    operational p = true /\ exists q t, q ∈ pd_peers policy /\ t ∈ pd_nodes policy /\
      pp_source_node_id q = pn_node_id p /\ pp_peer_node_id q = pn_node_id t /\
      pn_endpoint_id t = x;
  ba_probes x :
    (exists v w c t, (v, w) ∈ tbp_authorized_path_probes b /\
       canonicalize_controller_endpoint_id v = Ok c /\
       canonicalize_path_probe_endpoint_id w = Ok t /\ x = probe_text c t) <->
    operational p = true /\ exists q t c, q ∈ pd_path_probes policy /\ t ∈ pd_nodes policy /\
      c ∈ pd_controllers policy /\ pb_source_node_id q = pn_node_id p /\
      default true (pb_enabled q) = true /\ pb_target_node_id q = pn_node_id t /\
      x = probe_text (pc_endpoint_id c) (pn_endpoint_id t);
}.

Record node_in_sync (d : RegistryDb) (policy : TrustPolicyDocument) (p : PolicyNode) : Prop := {
  ns_node : exists n, db_nodes (rd_core d) !! pn_node_id p = Some n /\ registry_agrees p n;
  ns_metadata : exists m, get_node_metadata d (pn_node_id p) = Ok m /\ advisory_agrees p m;
  ns_trust : exists row b, db_trust (rd_core d) !! pn_endpoint_id p = Some row /\
    pn_lifecycle p = endpoint_status_as_str (et_status row) /\
    tbp_from_value (et_trust_bundle_json row) = Ok b /\ bundle_agrees policy p b;
}.

Record in_sync (d : RegistryDb) (policy : TrustPolicyDocument) : Prop := {
  is_declared p : p ∈ pd_nodes policy -> node_in_sync d policy p;
  is_node k n : db_nodes (rd_core d) !! k = Some n ->
    exists p, p ∈ pd_nodes policy /\ pn_node_id p = k;
  is_endpoint e row : db_trust (rd_core d) !! e = Some row ->
    exists p, p ∈ pd_nodes policy /\ pn_endpoint_id p = e;
}.

(** What a row gives when it is read. *)
Definition read_as (row t : EndpointTrustRecord) : Prop :=
  et_endpoint_id t = et_endpoint_id row /\ et_status t = et_status row /\
  exists b, tbp_from_value (et_trust_bundle_json row) = Ok b /\
            et_trust_bundle_json t = tbp_public_bundle b.

(** A loaded policy names its nodes by their canonical endpoint identifiers. *)
Definition canonical_endpoints (policy : TrustPolicyDocument) : Prop :=
  forall p e, p ∈ pd_nodes policy -> canonicalize_node_endpoint_id (pn_endpoint_id p) = Ok e ->
    e = pn_endpoint_id p.

(** ** Fields *)

Lemma map_nil {A B} (f : A -> B) l : map f l = [] <-> l = [].
Proof. by destruct l. Qed.

Lemma compare_field_nil code p f a b : compare_field code p f a b = [] <-> a = b.
Proof. unfold compare_field. destruct (String.eqb_spec a b); split; congruence. Qed.

Lemma bool_text_inj a b : bool_text a = bool_text b <-> a = b.
Proof. destruct a, b; split; try done. Qed.

Lemma compare_node_nil p n : compare_node p n = [] <-> registry_agrees p n.
Proof.
  unfold compare_node. rewrite !app_nil, !compare_field_nil. split.
  - intros (? & ? & ? & He). split; try done. intros b Hb. rewrite Hb in He.
    by apply compare_field_nil, bool_text_inj in He.
  - intros [? ? ? He]. split_and!; try done. destruct (pn_enabled p) as [b|]; [|done].
    by apply compare_field_nil, bool_text_inj, He.
Qed.

Lemma compare_metadata_nil p f a b : compare_metadata_field p f a b = [] <-> a = b.
Proof.
  unfold compare_metadata_field. rewrite <- (compare_field_nil "NODE_METADATA_MISMATCH" p f a b).
  by destruct (compare_field _ _ _ _ _).
Qed.

Lemma advisory_field_nil p f (o : option string) b :
  match o with Some d => compare_metadata_field p f d b | None => [] end = [] <->
  forall v, o = Some v -> v = b.
Proof.
  destruct o as [d|]; [|done]. rewrite compare_metadata_nil. split; [by intros -> ? [= ->]|auto].
Qed.

Lemma compare_node_metadata_nil p m : compare_node_metadata p m = [] <-> advisory_agrees p m.
Proof.
  unfold compare_node_metadata, metadata_fields. cbn [flat_map]. rewrite !app_nil.
  rewrite !advisory_field_nil. split.
  - intros ((? & ? & ? & ? & ? & _) & Hl). split; try done. intros l El. rewrite El in Hl.
    by apply compare_metadata_nil in Hl.
  - intros [? ? ? ? ? Hl]. split_and!; try done. destruct (pn_labels p) as [l|]; [|done].
    by apply compare_metadata_nil, Hl.
Qed.

Lemma status_text_inj a b : endpoint_status_as_str a = endpoint_status_as_str b -> a = b.
Proof. destruct a, b; done. Qed.

Lemma status_from_text v s :
  endpoint_status_from_str v = Some s <-> v = endpoint_status_as_str s.
Proof.
  unfold endpoint_status_from_str. split.
  - intros Hs. repeat case_match; bool_facts; simplify_eq; done.
  - intros ->. by destruct s.
Qed.

Lemma compare_endpoint_nil p t ds :
  compare_endpoint p t = Ok ds ->
  ds = [] <-> pn_lifecycle p = endpoint_status_as_str (et_status t).
Proof.
  unfold compare_endpoint. intros Hc. peel_in Hc. unwrap. injection Hc as <-.
  match goal with Hs : endpoint_status_from_str _ = Some ?s |- _ =>
    apply status_from_text in Hs; rewrite Hs end.
  case_bool_decide as Hd; [by rewrite Hd|]. split; [done|]. intros He%status_text_inj. congruence.
Qed.

(** ** Sets *)

Lemma btree_iter_nil s : btree_iter s = [] <-> s = ∅.
Proof.
  split.
  - intros He. apply set_eq. intros x. rewrite <- btree_iter_elem, He. set_solver.
  - intros ->. done.
Qed.

Lemma add_set_diffs_nil p f mc uc msg (a b : gset string) :
  add_set_diffs p f mc uc msg a b = [] <-> a = b.
Proof.
  unfold add_set_diffs. rewrite app_nil, !map_nil, !btree_iter_nil. split.
  - intros [Hl%empty_difference_subseteq_L Hr%empty_difference_subseteq_L]. set_solver.
  - intros ->. set_solver.
Qed.

Lemma stored_ids_elem field canon values : forall seen s,
  canonicalize_stored_ids field canon seen values = Ok s ->
  forall x, x ∈ s <-> x ∈ seen \/ exists v, v ∈ values /\ canon v = Ok x.
Proof.
  induction values as [|v values IH]; cbn [canonicalize_stored_ids]; intros seen s Hs x.
  { injection Hs as ->. set_solver. }
  peel_in Hs. unwrap. rewrite (IH _ _ Hs x), elem_of_union, elem_of_singleton.
  setoid_rewrite elem_of_cons. split.
  - intros [[->|?]|(w & ? & ?)]; [right|by left|right]; eauto.
  - intros [?|(w & [->|?] & ?)]; [by left; right|left; left; congruence|right; eauto].
Qed.

Lemma stored_probes_elem values : forall seen s,
  canonicalize_stored_path_probes seen values = Ok s ->
  forall x, x ∈ s <-> x ∈ seen \/ exists v w c t, (v, w) ∈ values /\
    canonicalize_controller_endpoint_id v = Ok c /\
    canonicalize_path_probe_endpoint_id w = Ok t /\ x = probe_text c t.
Proof.
  induction values as [|[v w] values IH]; cbn [canonicalize_stored_path_probes]; intros seen s Hs x.
  { injection Hs as ->. set_solver. }
  peel_in Hs. unwrap. rewrite (IH _ _ Hs x), elem_of_union, elem_of_singleton.
  setoid_rewrite elem_of_cons. split.
  - intros [[->|?]|(v' & w' & c & t & ? & ? & ? & ?)]; [right|by left|right].
    + do 4 eexists. split_and!; [by left|done..].
    + do 4 eexists. split_and!; [by right|done..].
  - intros [?|(v' & w' & c & t & [[= -> ->]|?] & ? & ? & ->)]; [by left; right| |].
    + left; left. congruence.
    + right. do 4 eexists. done.
Qed.

(** ** Maps of records *)

Lemma btree_map_lookup {A} (key : A -> string) l k x :
  NoDup (map key l) -> btree_map key l !! k = Some x <-> x ∈ l /\ key x = k.
Proof.
  intros Hnd. unfold btree_map.
  assert (NoDup (map (fun x => (key x, x)) (rev l)).*1) as Hnd'.
  { rewrite <- list_fmap_compose. change (NoDup (map key (rev l))).
    by rewrite <- Permutation_rev. }
  rewrite <- (elem_of_list_to_map _ _ _ Hnd'). rewrite list_elem_of_fmap. split.
  - intros (y & [= -> ->] & Hy). by rewrite <- Permutation_rev in Hy.
  - intros [Hx <-]. exists x. by rewrite <- Permutation_rev.
Qed.

Lemma btree_map_none {A} (key : A -> string) l k :
  NoDup (map key l) -> btree_map key l !! k = None <-> forall x, x ∈ l -> key x <> k.
Proof.
  intros Hnd. rewrite eq_None_not_Some. split.
  - intros Hn x Hx He. apply Hn. exists x. by apply btree_map_lookup.
  - intros Hn [x [Hx He]%btree_map_lookup]; [|done]. by apply (Hn x).
Qed.

(** ** The store *)

Lemma snd_elem {A} (m : gmap string A) x :
  x ∈ map snd (map_to_list m) <-> exists k, m !! k = Some x.
Proof.
  rewrite list_elem_of_fmap. setoid_rewrite <- elem_of_map_to_list. split.
  - intros ([k y] & -> & Hk). by exists k.
  - intros (k & Hk). by exists (k, x).
Qed.

Lemma keyed_nodup {A} (key : A -> string) (m : gmap string A) :
  (forall k x, m !! k = Some x -> key x = k) -> NoDup (map key (map snd (map_to_list m))).
Proof.
  intros Hk. rewrite map_map.
  replace (map _ (map_to_list m)) with (map fst (map_to_list m)); [apply NoDup_fst_map_to_list|].
  apply map_ext_in. intros [k x] Hin. apply list_elem_of_In, elem_of_map_to_list in Hin.
  simpl. by rewrite (Hk k x Hin).
Qed.

Lemma node_map_lookup d k :
  trust_wf (rd_core d) -> btree_map node_id (list_nodes d) !! k = db_nodes (rd_core d) !! k.
Proof.
  intros Hwf. apply option_eq. intros n. unfold list_nodes.
  pose proof (keyed_nodup node_id (db_nodes (rd_core d)) (wf_node_key _ Hwf)) as Hnd.
  rewrite btree_map_lookup by (by rewrite sort_by_perm). rewrite sort_by_elem, snd_elem. split.
  - intros [(k' & Hk) <-]. by rewrite (wf_node_key _ Hwf _ _ Hk).
  - intros Hk. split; [eauto|]. by apply (wf_node_key _ Hwf).
Qed.

Lemma from_row_read_as row t : endpoint_trust_from_row row = Ok t -> read_as row t.
Proof. unfold endpoint_trust_from_row. intros Hr. peel_all Hr. split_and!; eauto. Qed.

Lemma snapshot_elem d endpoints t :
  trust_snapshot d = Ok endpoints ->
  t ∈ endpoints <-> exists e row, db_trust (rd_core d) !! e = Some row /\
                                endpoint_trust_from_row row = Ok t.
Proof.
  unfold trust_snapshot. intros Ht. rewrite (try_map_ok_elem _ _ _ _ Ht).
  setoid_rewrite order_by_endpoint_perm. setoid_rewrite snd_elem. naive_solver.
Qed.

Lemma snapshot_nodup d endpoints :
  trust_wf (rd_core d) -> trust_snapshot d = Ok endpoints -> NoDup (map et_endpoint_id endpoints).
Proof.
  unfold trust_snapshot. intros Hwf Ht%try_map_Forall2.
  pose proof (keyed_nodup et_endpoint_id (db_trust (rd_core d)) (wf_trust_key _ Hwf)) as Hnd.
  rewrite <- order_by_endpoint_perm in Hnd.
  replace (map et_endpoint_id endpoints) with
    (map et_endpoint_id (order_by_endpoint (map snd (map_to_list (db_trust (rd_core d)))))); [done|].
  clear Hnd. induction Ht as [|row t l1 l2 Hr _ IH]; simpl; [done|].
  apply from_row_read_as in Hr as [-> _]. by rewrite IH.
Qed.

Lemma endpoint_map_lookup d endpoints e t :
  trust_wf (rd_core d) -> trust_snapshot d = Ok endpoints ->
  btree_map et_endpoint_id endpoints !! e = Some t <->
  exists row, db_trust (rd_core d) !! e = Some row /\ endpoint_trust_from_row row = Ok t.
Proof.
  intros Hwf Ht. rewrite btree_map_lookup by eauto using snapshot_nodup.
  rewrite (snapshot_elem _ _ _ Ht). split.
  - intros [(e' & row & Hl & Hr) <-]. exists row. split; [|done].
    pose proof (from_row_read_as _ _ Hr) as [-> _]. by rewrite (wf_trust_key _ Hwf _ _ Hl).
  - intros (row & Hl & Hr). split; [eauto|].
    pose proof (from_row_read_as _ _ Hr) as [-> _]. by apply (wf_trust_key _ Hwf).
Qed.

Lemma endpoint_map_none d endpoints e :
  trust_wf (rd_core d) -> trust_snapshot d = Ok endpoints ->
  btree_map et_endpoint_id endpoints !! e = None -> db_trust (rd_core d) !! e = None.
Proof.
  intros Hwf Ht Hn. destruct (db_trust (rd_core d) !! e) as [row|] eqn:El; [|done].
  destruct (row_ok_read row (wf_rows _ Hwf _ _ El)) as (t & Hr).
  assert (btree_map et_endpoint_id endpoints !! e = Some t) as Hs; [|congruence].
  apply (endpoint_map_lookup d); eauto.
Qed.

(** ** The allowlists of a node *)

Lemma projection_public b :
  projection_decode (tbp_public_bundle b) =
  Some {| sb_trusted_controllers := tbp_trusted_controllers b;
          sb_trusted_peers := tbp_trusted_peers b;
          sb_authorized_path_probes := tbp_authorized_path_probes b |}.
Proof.
  unfold projection_decode, tbp_public_bundle. cbn -[de_vec json_strs json_pairs as_str].
  by rewrite !de_vec_strs, de_vec_pairs.
Qed.

Lemma desired_controllers_elem policy x :
  x ∈ desired_controllers policy <-> exists c, c ∈ pd_controllers policy /\ pc_endpoint_id c = x.
Proof.
  unfold desired_controllers. rewrite elem_of_list_to_set, list_elem_of_fmap. naive_solver.
Qed.

Lemma expected_peers_elem policy p x :
  policy_wf policy ->
  x ∈ expected_peers policy p <->
  exists q t, q ∈ pd_peers policy /\ t ∈ pd_nodes policy /\
    pp_source_node_id q = pn_node_id p /\ pp_peer_node_id q = pn_node_id t /\
    pn_endpoint_id t = x.
Proof.
  intros Hw. unfold expected_peers. rewrite elem_of_list_to_set, list_elem_of_omap.
  setoid_rewrite filter_elem. setoid_rewrite String.eqb_eq. setoid_rewrite fmap_Some.
  setoid_rewrite btree_map_lookup; [|apply Hw]. naive_solver.
Qed.

Lemma expected_path_probes_elem policy p x :
  policy_wf policy ->
  x ∈ expected_path_probes policy p <->
  exists q t c, q ∈ pd_path_probes policy /\ t ∈ pd_nodes policy /\
    c ∈ pd_controllers policy /\ pb_source_node_id q = pn_node_id p /\
    default true (pb_enabled q) = true /\ pb_target_node_id q = pn_node_id t /\
    x = probe_text (pc_endpoint_id c) (pn_endpoint_id t).
Proof.
  intros Hw. unfold expected_path_probes.
  rewrite elem_of_list_to_set, list_elem_of_In, in_flat_map.
  setoid_rewrite <- list_elem_of_In. setoid_rewrite list_elem_of_omap.
  setoid_rewrite list_elem_of_fmap. setoid_rewrite filter_elem.
  setoid_rewrite btree_iter_elem. setoid_rewrite desired_controllers_elem.
  setoid_rewrite btree_map_lookup; [|apply Hw]. setoid_rewrite andb_true_iff.
  setoid_rewrite String.eqb_eq. split.
  - intros (t & (q & (? & ? & ?) & ? & ?) & e & -> & (c & ? & <-)). by exists q, t, c.
  - intros (q & t & c & ? & ? & ? & ? & ? & ? & ->). exists t. split; [exists q|]; naive_solver.
Qed.

Lemma expected_elem (b : bool) (s : gset string) x :
  x ∈ (if b then s else ∅) <-> b = true /\ x ∈ s.
Proof. destruct b; set_solver. Qed.

Lemma allowlists_nil policy endpoint_map p row t b ds :
  policy_wf policy -> endpoint_map !! pn_endpoint_id p = Some t -> read_as row t ->
  tbp_from_value (et_trust_bundle_json row) = Ok b ->
  compare_node_allowlists policy endpoint_map p = Ok ds -> ds = [] <-> bundle_agrees policy p b.
Proof.
  intros Hw Hl (_ & _ & b' & Hb' & Hj) Hb. assert (b' = b) as -> by congruence.
  unfold compare_node_allowlists. rewrite Hl, Hj, projection_public. cbn [ok_or].
  intros Hds. peel_in Hds. injection Hds as <-. rewrite !app_nil, !add_set_diffs_nil, !set_eq.
  repeat match goal with
  | Hs : canonicalize_stored_ids _ _ _ _ = Ok _ |- _ =>
      pose proof (stored_ids_elem _ _ _ _ _ Hs); clear Hs
  | Hs : canonicalize_stored_path_probes _ _ = Ok _ |- _ =>
      pose proof (stored_probes_elem _ _ _ Hs); clear Hs
  end. cbn in *.
  setoid_rewrite expected_elem. setoid_rewrite desired_controllers_elem.
  setoid_rewrite (expected_peers_elem _ _ _ Hw). setoid_rewrite (expected_path_probes_elem _ _ _ Hw).
  split; [intros (Ha1 & Ha2 & Ha3); split; intros x; [rewrite Ha1|rewrite Ha2|rewrite Ha3]
         |intros [Ha1 Ha2 Ha3]; split_and!; intros x; [rewrite <- Ha1|rewrite <- Ha2|rewrite <- Ha3]];
    match goal with Hx : forall x, x ∈ ?s <-> _ |- context [_ ∈ ?s] => rewrite Hx end; set_solver.
Qed.

(** ** The whole comparison *)

(** The registry and trust entries of one declared node. *)
Lemma node_diffs_nil d endpoints p ds :
  trust_wf (rd_core d) -> trust_snapshot d = Ok endpoints ->
  policy_node_diffs d (btree_map node_id (list_nodes d)) (btree_map et_endpoint_id endpoints) p
    = Ok ds ->
  ds = [] <->
  (exists n, db_nodes (rd_core d) !! pn_node_id p = Some n /\ registry_agrees p n) /\
  (exists m, get_node_metadata d (pn_node_id p) = Ok m /\ advisory_agrees p m) /\
  (exists row, db_trust (rd_core d) !! pn_endpoint_id p = Some row /\
               pn_lifecycle p = endpoint_status_as_str (et_status row)).
Proof.
  intros Hwf Ht. unfold policy_node_diffs. rewrite node_map_lookup by done.
  intros Hds. destruct (db_nodes (rd_core d) !! pn_node_id p) as [n|]; cycle 1.
  { peel_in Hds; injection Hds as <-; split; [done|]; by intros ((? & ? & _) & _). }
  destruct (get_node_metadata d _) as [m|] eqn:Em; cbn [map_err] in Hds; [|done].
  destruct (btree_map et_endpoint_id endpoints !! _) as [t|] eqn:El; cycle 1.
  { injection Hds as <-. apply (endpoint_map_none d) in El; [|done..]. rewrite El, !app_nil.
    split; [by intros [_ ?]|]. by intros (_ & _ & ? & ? & _). }
  apply (endpoint_map_lookup d) in El as (row & -> & Hr); [|done..].
  destruct (compare_endpoint p t) as [ct|] eqn:Ec; [|done]. injection Hds as <-.
  apply from_row_read_as in Hr as (_ & Hst & _).
  rewrite !app_nil, compare_node_nil, compare_node_metadata_nil, (compare_endpoint_nil _ _ _ Ec), Hst.
  naive_solver.
Qed.

Lemma concat_try_map_nil {E A B} (f : A -> result E (list B)) l r :
  try_map f l = Ok r -> concat r = [] <-> forall x, x ∈ l -> f x = Ok [].
Proof.
  intros Hf. rewrite concat_nil, Forall_forall. rewrite try_map_Forall2 in Hf. split.
  - intros Hr x (i & Hi)%list_elem_of_lookup.
    destruct (Forall2_lookup_l _ _ _ _ _ Hf Hi) as (y & Hy & ->).
    by rewrite (Hr y) by (by eapply list_elem_of_lookup_2).
  - intros Hl y (i & Hi)%list_elem_of_lookup.
    destruct (Forall2_lookup_r _ _ _ _ _ Hf Hi) as (x & Hx & He).
    rewrite Hl in He by (by eapply list_elem_of_lookup_2). congruence.
Qed.

(** One declared node: all its entries and its allowlists. *)
Lemma node_in_sync_iff d policy endpoints p ds al :
  trust_wf (rd_core d) -> policy_wf policy -> trust_snapshot d = Ok endpoints ->
  policy_node_diffs d (btree_map node_id (list_nodes d)) (btree_map et_endpoint_id endpoints) p
    = Ok ds ->
  compare_node_allowlists policy (btree_map et_endpoint_id endpoints) p = Ok al ->
  ds = [] /\ al = [] <-> node_in_sync d policy p.
Proof.
  intros Hwf Hw Ht Hds Hal. rewrite (node_diffs_nil _ _ _ _ Hwf Ht Hds). clear Hds.
  destruct (db_trust (rd_core d) !! pn_endpoint_id p) as [row|] eqn:El; cycle 1.
  { split; [by intros ((_ & _ & ? & ? & _) & _)|]. intros [_ _ (? & ? & Hrow & _)]. congruence. }
  destruct (row_ok_read row (wf_rows _ Hwf _ _ El)) as (t & Hr).
  assert (btree_map et_endpoint_id endpoints !! pn_endpoint_id p = Some t) as Hm
    by (apply (endpoint_map_lookup d); eauto).
  apply from_row_read_as in Hr. pose proof Hr as (_ & _ & b & Hb & _).
  rewrite (allowlists_nil _ _ _ _ _ _ _ Hw Hm Hr Hb Hal). split.
  - intros ((Hn & Hmd & row' & [= <-] & Hlc) & Hag). split; [done|done|]. by exists row, b.
  - intros [Hn Hmd (row' & b' & Hrow & Hlc & Hb' & Hag)]. assert (row' = row) as -> by congruence.
    assert (b' = b) as -> by congruence. split_and!; eauto.
Qed.

Lemma map_filter_nil {A B} (f : A -> B) (g : A -> bool) l :
  map f (List.filter g l) = [] <-> forall x, x ∈ l -> g x = false.
Proof.
  rewrite map_nil. split.
  - intros Hl x Hx. destruct (g x) eqn:E; [|done].
    assert (x ∈ List.filter g l) as Hin by (by apply filter_elem). rewrite Hl in Hin. set_solver.
  - intros Hl. destruct (List.filter g l) as [|y ys] eqn:E; [done|].
    assert (y ∈ List.filter g l) as [Hin Hy]%filter_elem by (rewrite E; set_solver).
    rewrite Hl in Hy by done. done.
Qed.

Lemma extra_nodes_nil d policy :
  trust_wf (rd_core d) -> policy_wf policy ->
  map extra_node (List.filter (fun n => bool_decide (btree_map pn_node_id (pd_nodes policy)
                                                       !! node_id n = None)) (list_nodes d)) = [] <->
  forall k n, db_nodes (rd_core d) !! k = Some n -> exists p, p ∈ pd_nodes policy /\ pn_node_id p = k.
Proof.
  intros Hwf Hw. rewrite map_filter_nil. unfold list_nodes.
  setoid_rewrite bool_decide_eq_false.
  setoid_rewrite sort_by_elem. setoid_rewrite snd_elem. split.
  - intros Hx k n Hk. destruct (btree_map pn_node_id (pd_nodes policy) !! k) as [p|] eqn:E.
    + apply btree_map_lookup in E; [eauto|apply Hw].
    + exfalso. apply (Hx n); [eauto|]. by rewrite (wf_node_key _ Hwf _ _ Hk).
  - intros Hx n (k & Hk). rewrite (wf_node_key _ Hwf _ _ Hk). destruct (Hx k n Hk) as (p & Hp).
    apply btree_map_lookup in Hp; [congruence|apply Hw].
Qed.

Lemma extra_endpoints_nil d endpoints (ids : list string) :
  trust_wf (rd_core d) -> trust_snapshot d = Ok endpoints ->
  map extra_endpoint (List.filter (fun t => bool_decide (et_endpoint_id t ∉ ids)) endpoints) = [] <->
  forall e row, db_trust (rd_core d) !! e = Some row -> e ∈ ids.
Proof.
  intros Hwf Ht. rewrite map_filter_nil. setoid_rewrite bool_decide_eq_false.
  setoid_rewrite (snapshot_elem _ _ _ Ht). split.
  - intros Hx e row Hl. destruct (row_ok_read row (wf_rows _ Hwf _ _ Hl)) as (t & Hr).
    specialize (Hx t ltac:(eauto)). apply dec_stable in Hx.
    apply from_row_read_as in Hr as [He _]. by rewrite He, (wf_trust_key _ Hwf _ _ Hl) in Hx.
  - intros Hx t (e & row & Hl & Hr) Hn. apply Hn.
    apply from_row_read_as in Hr as [-> _]. rewrite (wf_trust_key _ Hwf _ _ Hl). eauto.
Qed.

Lemma canonicalize_twice `{!EndpointIdLaws} v f e e' :
  canonicalize_endpoint_id v f = Ok e -> canonicalize_endpoint_id e f = Ok e' -> e' = e.
Proof.
  unfold canonicalize_endpoint_id. intros Hv He. peel_in Hv. unwrap. injection Hv as <-.
  rewrite endpoint_parse_print in He. peel_in He. cbn in *. congruence.
Qed.

Lemma load_canonical `{!EndpointIdLaws} now document policy report :
  load_and_validate_policy now document = Ok (policy, report) ->
  policy_wf policy /\ canonical_endpoints policy.
Proof.
  unfold load_and_validate_policy. intros Hl. peel_in Hl. injection Hl as -> ->.
  split; [eauto using validate_policy_wf|]. intros p e Hp He.
  match goal with Hk : canonicalize_policy _ = _ |- _ => unfold canonicalize_policy in Hk; peel_in Hk;
    injection Hk as <- end. cbn in Hp. rewrite sort_by_elem in Hp.
  match goal with Ht : try_map _ (pd_nodes _) = _ |- _ =>
    apply (try_map_ok_elem _ _ _ _ Ht) in Hp as (q & _ & Hq) end.
  unfold config in Hq. destruct (canonicalize_node_endpoint_id _) as [i|] eqn:Ei; [|done].
  injection Hq as <-. cbn in He |- *. eapply canonicalize_twice; eauto.
Qed.

Lemma canonical_ids policy ids e :
  canonical_endpoints policy ->
  try_map (fun n => canonicalize_node_endpoint_id (pn_endpoint_id n)) (pd_nodes policy) = Ok ids ->
  e ∈ ids <-> exists p, p ∈ pd_nodes policy /\ pn_endpoint_id p = e.
Proof.
  intros Hcan Hids. rewrite (try_map_ok_elem _ _ _ _ Hids).
  split; intros (p & Hp & Hx); exists p; split; try done.
  - by rewrite (Hcan p e Hp Hx).
  - destruct (try_map_each _ _ _ _ Hids Hp) as (y & Hy). rewrite Hy. f_equal. subst e. by apply Hcan.
Qed.

Lemma policy_diffs_nil d policy ds :
  trust_wf (rd_core d) -> policy_wf policy -> canonical_endpoints policy ->
  policy_diffs d policy = Ok ds -> ds = [] <-> in_sync d policy.
Proof.
  intros Hwf Hw Hcan. unfold policy_diffs, compare_trust_bundle_allowlists, config. intros Hds.
  destruct (trust_snapshot d) as [endpoints|] eqn:Hsnap; [|done]. cbn [map_err] in Hds.
  destruct (try_map _ (pd_nodes policy)) as [ids|] eqn:Hids; [|done]. cbn [map_err] in Hds.
  destruct (try_map (policy_node_diffs _ _ _) _) as [declared|] eqn:Hdecl; [|done].
  destruct (try_map (compare_node_allowlists _ _) _) as [allow|] eqn:Hallow; [|done].
  injection Hds as <-.
  rewrite !app_nil, (extra_nodes_nil d policy Hwf Hw), (extra_endpoints_nil _ _ _ Hwf Hsnap),
    (concat_try_map_nil _ _ _ Hdecl), (concat_try_map_nil _ _ _ Hallow).
  setoid_rewrite (canonical_ids _ _ _ Hcan Hids).
  assert (forall p, p ∈ pd_nodes policy ->
    (policy_node_diffs d (btree_map node_id (list_nodes d)) (btree_map et_endpoint_id endpoints) p
       = Ok [] /\ compare_node_allowlists policy (btree_map et_endpoint_id endpoints) p = Ok []) <->
    node_in_sync d policy p) as Hnode.
  { intros p Hp. destruct (try_map_each _ _ _ _ Hdecl Hp) as (x & Hx).
    destruct (try_map_each _ _ _ _ Hallow Hp) as (y & Hy).
    rewrite <- (node_in_sync_iff _ _ _ _ _ _ Hwf Hw Hsnap Hx Hy), Hx, Hy. naive_solver. }
  split.
  - intros (Hd & Hn & He & Ha). split; [|done..]. intros p Hp. apply Hnode; auto.
  - intros [Hd Hn He]. split_and!; [|done..|]; intros p Hp; by apply (Hnode p Hp), Hd.
Qed.
End agree.
