(* ===== verification/TrustPolicyReviewLemmas.v ===== *)
(** * TrustPolicyReviewLemmas: payloads, plans and the lines of the history *)

From S2P Require Import Prelude Text External Ordering AgentConfig InputValidation StoreTypes.
From S2P Require Import StoredText StoragePayloads StoreDb Enrollment AlertWebhook Certificates.
From S2P Require Import NodeMetadata TrustPolicy TrustPolicyReview TrustPolicySync.

(** RFC 3339 text is written in printable ASCII.  The parser takes any byte
    between the date and the time, also a line feed, but what follows has no
    date and is not such a text. *)
Class TimeTextLaws `{TimeOps} : Prop := {
  rfc3339_format_printable : forall t, printable (rfc3339_format t) = true;
  rfc3339_parse_after_line : forall s t, rfc3339_parse s = Some t ->
    forall before, rfc3339_parse (before +:+ lf +:+ s) = None;
}.

(** ** Specifications *)

Definition one_line (bs : list Z) : Prop := 10 ∉ bs.

(** The signed fields of an approval, but for its approver and time, are single
    lines. *)
Record approval_lines `{TimeOps} (revision plan_sha256 approved_at key_id : string) : Prop := {
  al_revision : one_line (str_bytes revision);
  al_plan : one_line (str_bytes plan_sha256);
  al_time : exists t, rfc3339_parse approved_at = Some t;
  al_key : one_line (str_bytes key_id);
}.

Section spec.
Context `{EndpointIdOps, TimeOps, JsonOps, Sha256Ops, JsonBytes, PolicyBytes}.
Context `{Ed25519Ops, Base64Standard, Base64Encode, ReviewJson}.

(** What an accepted approval is. *)
Record approval_checked (a : TrustPolicyApproval) (plan : TrustPolicyPlan)
    (keys : list TrustedReviewerKey) : Prop := {
  ac_revision : pa_policy_revision a = pl_policy_revision plan;
  ac_plan : pa_plan_sha256 a = sha256_hex (plan_bytes plan);
  ac_whole : pl_truncated plan = false;
  ac_key_id : validate_metadata_label "approval key_id" (pa_key_id a) = Ok tt;
  ac_time : exists t, rfc3339_parse (pa_approved_at a) = Some t;
  ac_verified : exists key signature, key ∈ keys /\ tk_actor key = pa_approver a /\
    tk_key_id key = pa_key_id a /\ base64_decode (pa_signature a) = Some signature /\
    ed25519_verify (tk_public_key key)
      (approval_signature_payload (pl_policy_revision plan) (sha256_hex (plan_bytes plan))
         (pa_approver a) (pa_approved_at a) (pa_key_id a)) signature = true;
}.

(** Entries whose texts are printable ASCII, as those of a record are, and whose
    count fits its type. *)
Definition entry_text (e : TrustPolicyHistoryEntry) : bool :=
  forallb printable
    [he_schema e; he_policy_revision e; he_policy_sha256 e; he_plan_sha256 e; he_recorded_at e]
  && from_option printable true (he_approved_by e) && from_option printable true (he_approval_key_id e)
  && from_option printable true (he_approval_sha256 e)
  && in_range 0 u64_max (he_total_change_count e).

(** serde_json writes such an entry as one line of printable ASCII that starts
    with a brace, and reads it back. *)
Class ReviewJsonLaws : Prop := {
  entry_line : forall e, entry_text e = true ->
    exists text, entry_bytes e = str_bytes (String "{" text) /\
      printable (String "{" text) = true /\ entry_parse (String "{" text) = Some e;
}.

Definition history_file (es : list TrustPolicyHistoryEntry) : list Z :=
  flat_map (fun e => entry_bytes e ++ [10]) es.

(** What the entries of a readable history satisfy. *)
Record history_ok (es : list TrustPolicyHistoryEntry) : Prop := {
  ho_revisions : NoDup (map he_policy_revision es);
  ho_count : Z.of_nat (length es) <= MAX_HISTORY_ENTRIES;
  ho_text : Forall (fun e => entry_text e = true) es;
  ho_checked : Forall (fun e => check_history_entry ∅ e = Ok tt) es;
}.

(** The entry that a record makes. *)
Definition history_entry (now : Z) (plan : TrustPolicyPlan) (approval : option TrustPolicyApproval)
    : TrustPolicyHistoryEntry :=
  {| he_schema := POLICY_HISTORY_SCHEMA; he_policy_revision := pl_policy_revision plan;
     he_policy_sha256 := pl_policy_sha256 plan; he_plan_sha256 := sha256_hex (plan_bytes plan);
     he_total_change_count := pl_total_change_count plan;
     he_drift_active := da_active (pl_drift_alert plan);
     he_approved_by := pa_approver <$> approval; he_approval_key_id := pa_key_id <$> approval;
     he_approval_sha256 := (fun a => sha256_hex (approval_bytes a)) <$> approval;
     he_recorded_at := rfc3339_format now |}.

(** The approval of a record, if there is one, was checked against its keyring. *)
Definition record_approved (plan : TrustPolicyPlan) (approval : option TrustPolicyApproval)
    (keyring : option ReviewerKeyringFile) : Prop :=
  match approval, keyring with
  | Some a, Some k => exists keys, load_reviewer_keyring k = Ok keys /\ approval_checked a plan keys
                                 /\ text (validate_actor (pa_approver a)) = Ok tt
  | None, None => True
  | _, _ => False
  end.

(** What the types of the arguments give: the count is a [usize], and the
    approver is printable text. *)
Definition request_text (plan : TrustPolicyPlan) (approval : option TrustPolicyApproval) : bool :=
  (pl_total_change_count plan <=? u64_max)
  && from_option (fun a => printable (pa_approver a)) true approval.

End spec.

(** ** Lines *)

Lemma one_line_cut a b x y :
  one_line a -> one_line b -> a ++ 10 :: x = b ++ 10 :: y -> a = b /\ x = y.
Proof.
  unfold one_line. revert b. induction a as [|c a IH]; intros [|e b] Ha Hb He; simplify_eq/=.
  - done.
  - set_solver.
  - set_solver.
  - destruct (IH b) as [-> ->]; set_solver.
Qed.

Lemma one_line_cut_end a b x y :
  one_line a -> one_line b -> x ++ 10 :: a = y ++ 10 :: b -> x = y /\ a = b.
Proof.
  intros Ha Hb He%(f_equal reverse). rewrite !reverse_app, !reverse_cons, <- !app_assoc in He.
  apply one_line_cut in He as [Ha' Hx]; [|unfold one_line; by rewrite elem_of_reverse..].
  split; [by apply (inj reverse)|]. apply (inj reverse). done.
Qed.

Lemma in_range_line lo hi s :
  10 < lo -> forallb (in_range lo hi) (str_bytes s) = true -> one_line (str_bytes s).
Proof.
  intros Hlo Hs Hin. rewrite forallb_forall in Hs.
  apply list_elem_of_In, Hs, in_range_spec in Hin. lia.
Qed.

Lemma printable_line s : printable s = true -> one_line (str_bytes s).
Proof. apply in_range_line. lia. Qed.

Lemma safe_byte_printable b : safe_byte b = true -> in_range 32 126 b = true.
Proof.
  unfold safe_byte, is_ascii_alphanumeric, is_ascii_alphabetic, is_ascii_lowercase,
    is_ascii_uppercase, is_ascii_digit, in_range. intros Hs. lia.
Qed.

Lemma forallb_weaken {A} (f g : A -> bool) l :
  (forall x, f x = true -> g x = true) -> forallb f l = true -> forallb g l = true.
Proof. intros Hfg. rewrite !forallb_forall. auto. Qed.

Lemma label_printable f v : validate_metadata_label f v = Ok tt -> printable v = true.
Proof.
  unfold validate_metadata_label. intros Hv. peel Hv.
  eapply forallb_weaken; [apply safe_byte_printable|done].
Qed.

Lemma sha256_hex_printable v : is_sha256_hex v = true -> printable v = true.
Proof.
  unfold is_sha256_hex. intros Hv. bool_facts. eapply forallb_weaken; [|done]. cbn.
  intros b Hb. unfold is_ascii_hexdigit, is_ascii_uppercase, is_ascii_digit, in_range in *. lia.
Qed.

Lemma line_cut_cases (a t a' t' : list Z) :
  a ++ 10 :: t = a' ++ 10 :: t' ->
  (a = a' /\ t = t') \/ (exists x, t' = x ++ 10 :: t) \/ (exists x, t = x ++ 10 :: t').
Proof.
  intros He. apply app_eq_app in He as (z & [[-> Hz]|[-> Hz]]); destruct z as [|c z]; cbn in Hz.
  1, 3: injection Hz as <-; rewrite app_nil_r; auto.
  all: injection Hz as <- Hz; eauto.
Qed.

Lemma str_bytes_after_line s t x :
  str_bytes s = x ++ 10 :: str_bytes t -> exists y, s = y +:+ lf +:+ t.
Proof.
  intros Hs. pose proof Hs as Hm. unfold str_bytes at 1 in Hm.
  apply map_eq_app in Hm as (l1 & l2 & _ & Hl1 & _). exists (string_of_list_ascii l1).
  apply str_bytes_inj. by rewrite !str_bytes_app, str_bytes_of_ascii, Hl1, Hs.
Qed.

(** A text before two last lines, the first of which is a time. *)
Lemma time_line_end `{TimeTextLaws} (a t k a' t' k' : string) :
  (exists u, rfc3339_parse t = Some u) -> one_line (str_bytes k) ->
  (exists u, rfc3339_parse t' = Some u) -> one_line (str_bytes k') ->
  str_bytes (a +:+ lf +:+ t +:+ lf +:+ k +:+ lf) = str_bytes (a' +:+ lf +:+ t' +:+ lf +:+ k' +:+ lf) ->
  a = a' /\ t = t' /\ k = k'.
Proof.
  intros [u Hu] Hk [u' Hu'] Hk'. rewrite !str_bytes_app. change (str_bytes lf) with [10]. intros He.
  assert (forall a t k : list Z, a ++ [10] ++ t ++ [10] ++ k ++ [10] = ((a ++ 10 :: t) ++ 10 :: k) ++ [10])
    as Hg by (intros; by rewrite <- !app_assoc).
  rewrite !Hg in He. apply app_inv_tail in He.
  apply one_line_cut_end in He as [He Hkk]; [|done..].
  apply line_cut_cases in He as [[Ha Ht]|[[x Hx]|[x Hx]]]; [split_and!; by apply str_bytes_inj|..].
  all: apply str_bytes_after_line in Hx as [y ->];
    erewrite rfc3339_parse_after_line in * by done; done.
Qed.

(** ** What is signed *)

(** The payload determines them, whatever the approver is. *)
Lemma approval_payload_inj `{TimeTextLaws} r p a t k r' p' a' t' k' :
  approval_lines r p t k -> approval_lines r' p' t' k' ->
  approval_signature_payload r p a t k = approval_signature_payload r' p' a' t' k' ->
  r = r' /\ p = p' /\ a = a' /\ t = t' /\ k = k'.
Proof.
  intros [? ? ? ?] [? ? ? ?]. unfold approval_signature_payload.
  set (z := a +:+ _). set (z' := a' +:+ _). rewrite !str_bytes_app.
  change (str_bytes lf) with [10]. intros He%app_inv_head. injection He as He. cbn [app] in He.
  apply one_line_cut in He as [Hr He]; [|done..].
  apply one_line_cut in He as [Hp He]; [|done..].
  apply time_line_end in He as (Ha & Ht & Hk); [|done..].
  split_and!; try done; by apply str_bytes_inj.
Qed.

Lemma policy_payload_inj r p r' p' :
  one_line (str_bytes r) -> one_line (str_bytes r') ->
  policy_signature_payload r p = policy_signature_payload r' p' -> r = r' /\ p = p'.
Proof.
  intros Hr Hr'. unfold policy_signature_payload. rewrite !str_bytes_app.
  change (str_bytes lf) with [10]. intros He%app_inv_head. injection He as He. cbn [app] in He.
  apply one_line_cut in He as [Hre He]; [|done..]. apply app_inv_tail in He.
  split; by apply str_bytes_inj.
Qed.

Section review.
Context `{EndpointIdOps, TimeOps, JsonOps, Sha256Ops, JsonBytes, PolicyBytes}.
Context `{Ed25519Ops, Base64Standard, Base64Encode, ReviewJson}.

Lemma trusted_reviewer_key_ok keys actor id key :
  trusted_reviewer_key keys actor id = Ok key ->
  key ∈ keys /\ tk_actor key = actor /\ tk_key_id key = id.
Proof.
  unfold trusted_reviewer_key. rewrite ok_or_ok. intros [Hin Hk]%find_some.
  bool_facts. split_and!; [by apply list_elem_of_In|done..].
Qed.

Lemma validate_approval_checked a plan keys :
  validate_approval a plan keys = Ok tt -> approval_checked a plan keys.
Proof.
  unfold validate_approval. intros Hv. peel_in Hv. unwrap. bool_facts.
  match goal with Hk : trusted_reviewer_key _ _ _ = Ok _ |- _ =>
    apply trusted_reviewer_key_ok in Hk as (? & ? & ?) end.
  match goal with Hr : pa_policy_revision a = _, Hp : pa_plan_sha256 a = _ |- _ => rewrite Hr, Hp in * end.
  split; try done; eauto 10.
Qed.

Lemma sha256_hex_ok `{!Sha256Laws} b : is_sha256_hex (sha256_hex b) = true.
Proof.
  unfold sha256_hex, is_sha256_hex. apply andb_true_iff. split.
  - rewrite str_len_hex_lower, sha256_length. done.
  - apply hex_lower_digits, sha256_bytes.
Qed.

(** The fields of an accepted approval of an accepted plan are single lines. *)
Lemma approval_checked_lines `{!Sha256Laws, !TimeTextLaws} a plan keys :
  validate_plan plan = Ok tt -> approval_checked a plan keys ->
  approval_lines (pl_policy_revision plan) (sha256_hex (plan_bytes plan)) (pa_approved_at a)
    (pa_key_id a).
Proof.
  unfold validate_plan. intros Hp [? ? ? Hk [t Ht] ?]. peel_in Hp. unwrap.
  split; eauto using printable_line, label_printable.
  apply printable_line, sha256_hex_printable, sha256_hex_ok.
Qed.

(** ** From the signature to the plan *)

Lemma label_any f g v : validate_metadata_label f v = Ok tt -> validate_metadata_label g v = Ok tt.
Proof. unfold validate_metadata_label. by destruct (_ || _). Qed.

(** The time of a validation is only written in its report. *)
Lemma validate_policy_now now now' p r :
  validate_policy now p = Ok r ->
  exists r', validate_policy now' p = Ok r' /\ vr_policy_revision r' = vr_policy_revision r /\
    vr_policy_sha256 r' = vr_policy_sha256 r.
Proof.
  unfold validate_policy. intros Hv. cbv zeta in *.
  repeat match type of Hv with
  | (if ?b then _ else _) = _ => destruct b; try discriminate Hv
  | match ?x with _ => _ end = _ => destruct x; try discriminate Hv
  end.
  injection Hv as <-. eexists. split; done.
Qed.

Lemma load_now now now' doc p r :
  load_and_validate_policy now doc = Ok (p, r) ->
  exists r', load_and_validate_policy now' doc = Ok (p, r') /\
    vr_policy_revision r' = vr_policy_revision r /\ vr_policy_sha256 r' = vr_policy_sha256 r.
Proof.
  unfold load_and_validate_policy. intros Hl. destruct (canonicalize_policy doc) as [q|]; [|done].
  destruct (validate_policy now q) as [r0|] eqn:Hv; [|done]. injection Hl as -> ->.
  destruct (validate_policy_now now now' _ _ Hv) as (r' & -> & ? & ?). by exists r'.
Qed.

(** An explicit revision is a label, and the report names it; the hash of the
    report is a digest. *)
Lemma load_report `{!Sha256Laws} now doc p r rev :
  load_and_validate_policy now doc = Ok (p, r) -> require_explicit_revision p = Ok rev ->
  vr_policy_revision r = rev /\ validate_metadata_label "policy_revision" rev = Ok tt /\
  is_sha256_hex (vr_policy_sha256 r) = true.
Proof.
  unfold load_and_validate_policy, require_explicit_revision. intros Hl Hr%ok_or_ok.
  peel_in Hl. injection Hl as -> ->.
  match goal with Hv : validate_policy _ _ = Ok _ |- _ => unfold validate_policy in Hv; rewrite Hr in Hv;
    peel_in Hv; injection Hv as <- end.
  cbn [vr_policy_revision vr_policy_sha256]. split; [done|]. split; [|apply sha256_hex_ok].
  destruct (pd_metadata p) as [m|]; [|done]. cbn in Hr.
  match goal with Ho : optional_check _ (Some m) = Ok ?u |- _ =>
    cbn [optional_check] in Ho; rewrite Hr in Ho; peel_in Ho; destruct u end.
  eauto using label_any.
Qed.

Section keys.
Context `{!Sha256Laws, !Ed25519Laws, !Base64Laws}.

Lemma sign_verifies now now' doc kb kid sf kf p r :
  run_trust_policy_sign now doc kb kid = Ok (sf, kf) ->
  load_and_validate_policy now' doc = Ok (p, r) ->
  exists rev v, require_explicit_revision p = Ok rev /\
    verify_policy_signature p r sf kf = Ok v /\ vs_key_id v = kid /\
    validate_metadata_label "signature_key_id" kid = Ok tt /\
    is_sha256_hex (vs_public_key_sha256 v) = true.
Proof.
  unfold run_trust_policy_sign. intros Hs Hl.
  destruct (validate_metadata_label "key_id" kid) as [[]|] eqn:Hkid; [|done].
  destruct (load_and_validate_policy now doc) as [[p0 r0]|] eqn:Hl0; [|done].
  destruct (load_now now now' _ _ _ Hl0) as (r' & Hl' & Hrev & Hsha).
  rewrite Hl in Hl'. injection Hl' as <- <-.
  destruct (require_explicit_revision p) as [rev|] eqn:Hr; [|done].
  destruct (key_from_pkcs8 kb) as [kp|]; [|done]. cbn [ok_or] in Hs. injection Hs as <- <-.
  unfold verify_policy_signature. rewrite Hr. cbn [sf_schema kf_schema sf_algorithm kf_algorithm
    sf_key_id kf_key_id sf_policy_revision sf_policy_sha256 kf_public_key sf_signature].
  rewrite Hrev, Hsha, !String.eqb_refl. cbn [negb orb].
  rewrite (label_any _ "signature key_id" _ Hkid), !base64_decode_encode by auto using key_public_bytes, key_sign_bytes. cbn [ok_or].
  rewrite key_public_length, key_sign_length, key_verifies. cbn [Nat.eqb negb orb].
  eexists _, _. split_and!; [done|done|done|eauto using label_any|apply sha256_hex_ok].
Qed.

(** The plan of a signed policy can be made when the difference can, and
    passes the checks on plans. *)
Lemma plan_of_signed now now' doc kb kid sf kf d p r diff :
  run_trust_policy_sign now doc kb kid = Ok (sf, kf) ->
  load_and_validate_policy now' doc = Ok (p, r) ->
  compute_policy_diff now' d p r = Ok diff ->
  exists plan, run_trust_policy_plan now' d doc sf kf = Ok plan /\ validate_plan plan = Ok tt /\
    pl_policy_revision plan = vr_policy_revision r /\
    pl_total_change_count plan = dr_total_diff_count diff /\
    pl_truncated plan = (MAX_DIFF_ITEMS <? dr_total_diff_count diff).
Proof.
  intros Hs Hl Hd. destruct (sign_verifies _ _ _ _ _ _ _ _ _ Hs Hl)
    as (rev & v & Hr & Hv & Hvk & Hlab & Hpk).
  destruct (load_report _ _ _ _ _ Hl Hr) as (Hrev & Hrl & Hsha).
  unfold run_trust_policy_plan. rewrite Hl, Hr, Hv, Hd. eexists. split; [done|].
  unfold compute_policy_diff in Hd. peel_in Hd. injection Hd as <-.
  cbn [pl_policy_revision pl_total_change_count pl_truncated dr_total_diff_count dr_truncated].
  split_and!; try done.
  unfold validate_plan. cbn [pl_schema pl_mode pl_policy_revision pl_drift_alert pl_policy_sha256
    pl_signature_public_key_sha256 pl_changes pl_change_count pl_total_change_count pl_truncated
    da_total_change_count da_active da_reason_code da_severity pl_signature_key_id
    dr_diffs dr_diff_count dr_total_diff_count dr_truncated].
  rewrite !String.eqb_refl, Hrev, Hrl, Hsha, Hpk, Hvk, Hlab, !Z.eqb_refl, !Bool.eqb_reflx.
  cbn [negb orb].
  match goal with |- context [sort_by diff_key ?l] => set (n := length (sort_by diff_key l)) end.
  rewrite length_take. fold n. replace (existsb _ ["none"; "warning"; "critical"]) with true.
  2: { symmetry. by destruct (existsb _ (take _ _)), (0 <? Z.of_nat n). }
  unfold MAX_DIFF_ITEMS. 
  match goal with |- (if ?b then _ else _) = _ => replace b with false; [done|] end.
  symmetry. rewrite !orb_false_iff. split_and!; try done; try (apply Z.ltb_ge; lia).
  destruct (Z.ltb_spec 512 (Z.of_nat n)), (Z.ltb_spec (Z.of_nat (Z.to_nat 512 `min` n)) (Z.of_nat n));
    done || lia.
Qed.

(** ** From the plan to the history *)

(** The keys of a keyring: checked, with distinct identifiers. *)
Lemma trusted_keys_spec reviewers : forall seen ids keys,
  trusted_keys seen ids reviewers = Ok keys ->
  NoDup (map tk_key_id keys) /\
  (forall k, k ∈ keys -> (tk_key_id k ∉ ids) /\ text (validate_actor (tk_actor k)) = Ok tt /\
     validate_metadata_label "reviewer key_id" (tk_key_id k) = Ok tt /\
     length (tk_public_key k) = 32%nat).
Proof.
  induction reviewers as [|r reviewers IH]; cbn [trusted_keys]; intros seen ids keys Hk.
  { injection Hk as <-. split; [constructor|set_solver]. }
  peel_in Hk. injection Hk as <-. unwrap. bool_facts.
  match goal with Ht : trusted_keys _ _ _ = Ok _ |- _ => destruct (IH _ _ _ Ht) as [Hnd Hall] end.
  split.
  - constructor; [|done]. intros (k & He & Hin)%list_elem_of_fmap.
    destruct (Hall k Hin) as [Hn _]. cbn in He. set_solver.
  - intros k [->|Hin]%elem_of_cons.
    + split_and!; try done; cbn; by (apply Nat.eqb_eq || idtac).
    + destruct (Hall k Hin) as (Hn & ? & ? & ?). split_and!; try done. set_solver.
Qed.

Lemma find_key keys k :
  NoDup (map tk_key_id keys) -> k ∈ keys ->
  trusted_reviewer_key keys (tk_actor k) (tk_key_id k) = Ok k.
Proof.
  intros Hnd Hin. unfold trusted_reviewer_key. apply ok_or_ok.
  induction keys as [|k' keys IH]; [set_solver|]. cbn [List.find].
  apply NoDup_cons in Hnd as [Hn Hnd]. apply elem_of_cons in Hin as [->|Hin].
  - by rewrite !String.eqb_refl.
  - destruct (String.eqb_spec (tk_key_id k') (tk_key_id k)) as [He|]; [|rewrite andb_false_r; auto].
    exfalso. apply Hn. rewrite He. by apply (list_elem_of_fmap_2 tk_key_id).
Qed.

(** An approval that a reviewer of the keyring makes passes its check. *)
Lemma approve_accepted `{!TimeLaws} now plan kb kp keyring keys k :
  validate_plan plan = Ok tt -> pl_truncated plan = false ->
  load_reviewer_keyring keyring = Ok keys -> k ∈ keys ->
  key_from_pkcs8 kb = Some kp -> key_public kp = tk_public_key k ->
  exists a, run_trust_policy_approve now plan kb (tk_key_id k) (tk_actor k) keyring = Ok a /\
    validate_approval a plan keys = Ok tt /\ pa_approver a = tk_actor k /\
    pa_key_id a = tk_key_id k.
Proof.
  intros Hp Ht Hk Hin Hkb Hpub. assert (Hk' := Hk). unfold load_reviewer_keyring in Hk'. peel_in Hk'.
  apply trusted_keys_spec in Hk' as [Hnd Hall]. destruct (Hall k Hin) as (_ & Hact & Hlab & _).
  unfold run_trust_policy_approve.
  rewrite (label_any _ "key_id" _ Hlab), Hact, Hp, Ht, Hk, (find_key _ _ Hnd Hin), Hkb. cbn [ok_or].
  rewrite (bool_decide_eq_false_2 _ (fun H => H Hpub)).
  eexists. split; [done|]. unfold validate_approval.
  cbn [pa_schema pa_policy_revision pa_plan_sha256 pa_approver pa_approved_at pa_key_id pa_signature].
  rewrite !String.eqb_refl, Ht, (label_any _ "approval key_id" _ Hlab), Hact, rfc3339_parse_format.
  cbn [negb orb ok_or]. rewrite (find_key _ _ Hnd Hin), base64_decode_encode by apply key_sign_bytes. cbn [ok_or].
  by rewrite key_sign_length, <- Hpub, key_verifies.
Qed.
End keys.

(** ** The lines of the history *)

Lemma check_entry_fresh revs e :
  check_history_entry ∅ e = Ok tt -> he_policy_revision e ∉ revs ->
  check_history_entry revs e = Ok tt.
Proof.
  intros Hc Hn. unfold check_history_entry in *. cbv zeta in *.
  rewrite (bool_decide_eq_false_2 (_ ∈ revs)) by done.
  by rewrite (bool_decide_eq_false_2 (_ ∈ ∅)) in Hc by set_solver.
Qed.

Section lines.
Context `{!ReviewJsonLaws}.

Lemma history_lines_ok es : forall pre,
  history_ok (pre ++ es) ->
  history_lines pre (map (fun e => str_of_bytes (entry_bytes e)) es) = Ok (pre ++ es).
Proof.
  induction es as [|e es IH]; intros pre Hok; cbn [map history_lines]; [by rewrite app_nil_r|].
  pose proof Hok as [Hnd Hlen Ht Hk]. rewrite length_app in Hlen. cbn in Hlen.
  assert (entry_text e = true) as He by (eapply Forall_forall in Ht; [done|set_solver]).
  destruct (entry_line e He) as (text & Hb & Hpr & Hparse).
  rewrite Hb, str_of_bytes_str_bytes, str_trim_head by done.
  rewrite (proj2 (Z.leb_gt _ _)) by lia. rewrite Hparse. cbn [ok_or].
  rewrite check_entry_fresh.
  - rewrite (cons_middle e pre es), app_assoc. apply IH. by rewrite <- app_assoc.
  - eapply Forall_forall in Hk; [done|set_solver].
  - rewrite map_app, NoDup_app in Hnd. rewrite elem_of_list_to_set. destruct Hnd as (_ & Hd & _).
    intros Hin. apply (Hd _ Hin). cbn. set_solver.
Qed.

Lemma history_file_unlines es :
  Forall (fun e => entry_text e = true) es ->
  history_file es = str_bytes (unlines (map (fun e => str_of_bytes (entry_bytes e)) es)) /\
  Forall (fun l => printable l = true) (map (fun e => str_of_bytes (entry_bytes e)) es).
Proof.
  induction 1 as [|e es He _ [IH IHp]]; [done|]. destruct (entry_line e He) as (text & Hb & Hpr & _).
  cbn [map unlines foldr history_file flat_map]. rewrite Hb, str_of_bytes_str_bytes. split.
  - rewrite str_bytes_app, <- app_assoc. f_equal. by apply (f_equal (cons 10)).
  - by constructor.
Qed.

(** A file of checked entries is read as these entries. *)
Lemma read_history_file es :
  history_ok es -> Z.of_nat (length (history_file es)) <= MAX_HISTORY_BYTES ->
  read_history_entries_from_file (history_file es) = Ok es.
Proof.
  intros Hok Hlen. unfold read_history_entries_from_file. rewrite (proj2 (Z.ltb_ge _ _)) by done.
  destruct (history_file_unlines es (ho_text _ Hok)) as [Hf Hp].
  unfold parse_history_entries. rewrite Hf.
  rewrite utf8_valid_ascii by (by apply unlines_ascii).
  rewrite str_of_bytes_str_bytes, str_lines_unlines by done. by apply (history_lines_ok es []).
Qed.

(** ** Recording *)

Lemma record_ok now plan approval keyring file file' e :
  run_trust_policy_history_record now plan approval keyring file = Ok (file', e) ->
  validate_plan plan = Ok tt /\ record_approved plan approval keyring /\
  e = history_entry now plan approval /\ file' = file ++ entry_bytes e ++ [10] /\
  exists entries, read_history_entries_from_file file = Ok entries /\
    (forall x, x ∈ entries -> he_policy_revision x <> pl_policy_revision plan) /\
    Z.of_nat (length entries) < MAX_HISTORY_ENTRIES /\
    Z.of_nat (length file') <= MAX_HISTORY_BYTES.
Proof.
  unfold run_trust_policy_history_record. fold (history_entry now plan approval). intros Hr.
  destruct (validate_plan plan) as [[]|] eqn:Hp; [|done].
  destruct (match approval with Some _ => _ | None => _ end) as [[]|] eqn:Ha; [|done].
  destruct (read_history_entries_from_file file) as [entries|] eqn:Hf; [|done].
  destruct (existsb _ entries) eqn:Hx; [done|]. destruct (Z.leb_spec MAX_HISTORY_ENTRIES
    (Z.of_nat (length entries))) as [|Hn]; [done|]. peel_in Hr. injection Hr as <- <-.
  split; [done|]. split.
  { unfold record_approved. destruct approval, keyring; try done. peel_in Ha. eexists. split; [done|].
    split; [by apply validate_approval_checked|]. unfold validate_approval in Ha. by peel_all Ha. }
  split; [done|]. split; [done|]. exists entries. split; [done|]. split.
  { intros x Hin He. apply not_true_iff_false in Hx. apply Hx, existsb_exists. exists x.
    split; [by apply list_elem_of_In|]. by apply String.eqb_eq. }
  split; [done|]. rewrite length_app, Nat2Z.inj_add.
  match goal with Hc : (MAX_HISTORY_BYTES <? saturating_add _ _ _) = false |- _ =>
    apply Z.ltb_ge in Hc; unfold saturating_add in Hc end.
  unfold MAX_HISTORY_BYTES, u64_max in *. lia.
Qed.

Lemma validate_plan_facts plan :
  validate_plan plan = Ok tt ->
  validate_metadata_label "policy_revision" (pl_policy_revision plan) = Ok tt /\
  is_sha256_hex (pl_policy_sha256 plan) = true /\ 0 <= pl_total_change_count plan.
Proof.
  unfold validate_plan. intros Hp. peel_in Hp. unwrap. bool_facts. split_and!; try done. lia.
Qed.

Lemma history_entry_ok `{!Sha256Laws, !TimeLaws, !TimeTextLaws} now plan approval keyring :
  validate_plan plan = Ok tt -> record_approved plan approval keyring ->
  request_text plan approval = true ->
  entry_text (history_entry now plan approval) = true /\
  check_history_entry ∅ (history_entry now plan approval) = Ok tt.
Proof.
  intros (Hrev & Hsha & Hcnt)%validate_plan_facts Hap Htx. unfold request_text in Htx. bool_facts.
  pose proof (rfc3339_parse_format now) as Hnow.
  pose proof (rfc3339_format_printable now) as Hnp. pose proof (label_printable _ _ Hrev).
  pose proof (sha256_hex_printable _ Hsha).
  assert (forall b, printable (sha256_hex b) = true) as Hhp
    by (intros; apply sha256_hex_printable, sha256_hex_ok).
  unfold entry_text, check_history_entry, history_entry.
  cbn [he_schema he_policy_revision he_policy_sha256 he_plan_sha256 he_recorded_at he_approved_by
       he_approval_key_id he_approval_sha256 he_total_change_count].
  rewrite String.eqb_refl, Hsha, sha256_hex_ok, (label_any _ _ _ Hrev), Hnow.
  rewrite (bool_decide_eq_false_2 (_ ∈ ∅)) by set_solver.
  assert (in_range 0 u64_max (pl_total_change_count plan) = true) as -> by (apply in_range_spec; lia).
  destruct approval as [a|]; cbn [fmap option_fmap option_map forallb from_option
    optional_check ok_or].
  - destruct keyring as [k|]; [|done]. destruct Hap as (keys & _ & [_ _ _ Hkid _ _] & Hact).
    rewrite sha256_hex_ok, (label_any _ _ _ Hkid), Hact, (label_printable _ _ Hkid), !Hhp.
    cbn in *. split; [|done]. rewrite !andb_true_iff. done.
  - split; [|done]. rewrite !andb_true_iff. by rewrite Hhp.
Qed.

(** A record appends its entry to the file. *)
Lemma record_step `{!Sha256Laws, !TimeLaws, !TimeTextLaws} now plan approval keyring es file' e :
  history_ok es -> Z.of_nat (length (history_file es)) <= MAX_HISTORY_BYTES ->
  request_text plan approval = true ->
  run_trust_policy_history_record now plan approval keyring (history_file es) = Ok (file', e) ->
  file' = history_file (es ++ [e]) /\ history_ok (es ++ [e]) /\
  Z.of_nat (length file') <= MAX_HISTORY_BYTES.
Proof.
  intros Hok Hlen Htx (Hp & Hap & -> & -> & entries & Hread & Hfresh & Hn & Hb)%record_ok.
  rewrite (read_history_file _ Hok Hlen) in Hread. injection Hread as <-.
  destruct (history_entry_ok now _ _ _ Hp Hap Htx) as [Ht Hk]. destruct Hok as [Hnd Hl Hts Hcs].
  split_and!; [|split|done].
  - unfold history_file. rewrite flat_map_app. cbn. by rewrite app_nil_r.
  - rewrite map_app, NoDup_app. split_and!; [done| |apply NoDup_singleton].
    intros r (x & -> & Hx)%list_elem_of_fmap Hr. apply list_elem_of_singleton in Hr.
    by apply (Hfresh x).
  - rewrite length_app. cbn. lia.
  - by apply Forall_app_2; [|constructor].
  - by apply Forall_app_2; [|constructor].
Qed.

(** A record is accepted when nothing stands in its way. *)
Lemma record_accepted now plan a keyring keys file entries :
  validate_plan plan = Ok tt -> load_reviewer_keyring keyring = Ok keys ->
  validate_approval a plan keys = Ok tt ->
  read_history_entries_from_file file = Ok entries ->
  (forall x, x ∈ entries -> he_policy_revision x <> pl_policy_revision plan) ->
  Z.of_nat (length entries) < MAX_HISTORY_ENTRIES ->
  let e := history_entry now plan (Some a) in
  Z.of_nat (length (file ++ entry_bytes e ++ [10])) <= MAX_HISTORY_BYTES ->
  run_trust_policy_history_record now plan (Some a) (Some keyring) file
    = Ok (file ++ entry_bytes e ++ [10], e).
Proof.
  intros Hp Hk Ha Hf Hfresh Hn e Hb. unfold run_trust_policy_history_record.
  fold (history_entry now plan (Some a)). fold e. rewrite Hp, Hk, Ha, Hf.
  replace (existsb _ entries) with false.
  2: { symmetry. apply not_true_iff_false. intros (x & Hin & He%String.eqb_eq)%existsb_exists.
       apply (Hfresh x); [by apply list_elem_of_In|done]. }
  rewrite (proj2 (Z.leb_gt _ _)) by done. rewrite length_app, Nat2Z.inj_add in Hb.
  rewrite (proj2 (Z.ltb_ge _ _)); [done|]. unfold saturating_add. lia.
Qed.
End lines.
End review.
