(* ===== verification/TrustPolicyProperties.v ===== *)
(** * TrustPolicyProperties: what the review of a trust policy guarantees

    The order of a policy file does not matter; a plan reports drift exactly
    when the registry is not what the policy declares; what a reviewer signed
    determines what is recorded; the chain from the signature to the history
    completes; the history only grows and stays readable. *)

From stdpp Require Import countable.
From S2P Require Import Prelude Text External Ordering AgentConfig InputValidation StoreTypes.
From S2P Require Import StoredText StoragePayloads StoreDb TrustStore Enrollment StoreScenario.
From S2P Require Import AlertWebhook Certificates SchedulerStore NodeMetadata TrustPolicy.
From S2P Require Import TrustPolicyReview StoreLemmas TrustInvariant StoreRuns StoreProperties.
From S2P Require Import TrustPolicySync TrustPolicyReviewLemmas.

(** ** Instances

    Small models of the third-party classes: a digest of the first bytes, keys
    of one byte, and texts of binary digits for base64 and the history. *)

#[export] Instance toy_digest32 : Sha256Ops :=
  {| sha256 b := map (fun x => x mod 256) (take 32 (b ++ replicate 32 0)) |}.
#[export] Instance toy_value_bytes : JsonBytes := {| json_bytes v := [toy_json_len v] |}.
#[export] Instance toy_policy_bytes : PolicyBytes :=
  {| policy_bytes p := pd_version p :: flat_map (fun n => str_bytes (pn_endpoint_id n)) (pd_nodes p) |}.

Definition toy_sign (k : Z) (m : list Z) : list Z :=
  take 64 (k :: map (fun x => x mod 256) m ++ replicate 64 0).

#[export] Instance toy_ed25519 : Ed25519Ops := {|
  KeyPair := Z;
  key_from_pkcs8 b := head b;
  key_public k := replicate 32 (k mod 256);
  key_sign k m := toy_sign (k mod 256) m;
  ed25519_verify pk m s := bool_decide (s = toy_sign (hd 0 pk) m);
|}.

#[export] Instance toy_base64_decode : Base64Standard :=
  {| base64_decode s := toy_parse_pos s ≫= decode |}.
#[export] Instance toy_base64_encode : Base64Encode := {| base64_encode b := toy_format_pos (encode b) |}.

#[export] Instance history_entry_eq_dec : EqDecision TrustPolicyHistoryEntry.
Proof. solve_decision. Defined.
#[export] Instance history_entry_countable : Countable TrustPolicyHistoryEntry.
Proof.
  apply (inj_countable
    (fun e => [Some (he_schema e); Some (he_policy_revision e); Some (he_policy_sha256 e);
               Some (he_plan_sha256 e); Some (toy_format (he_total_change_count e));
               (if he_drift_active e then Some EmptyString else None); he_approved_by e;
               he_approval_key_id e; he_approval_sha256 e; Some (he_recorded_at e)])
    (fun l => match l with
       | [Some a; Some b; Some c; Some d; Some e; f; g; h; i; Some j] =>
           e ← toy_parse e;
           Some {| he_schema := a; he_policy_revision := b; he_policy_sha256 := c;
                   he_plan_sha256 := d; he_total_change_count := e;
                   he_drift_active := bool_decide (is_Some f); he_approved_by := g;
                   he_approval_key_id := h; he_approval_sha256 := i; he_recorded_at := j |}
       | _ => None
       end)).
  intros []. pose proof rfc3339_parse_format as Ht.
  cbn [rfc3339_parse rfc3339_format toy_time_ops] in Ht. rewrite Ht.
  cbn. by destruct he_drift_active.
Defined.

#[export] Instance toy_review_json : ReviewJson := {|
  plan_bytes p := str_bytes (pl_policy_revision p) ++ str_bytes (pl_policy_sha256 p);
  approval_bytes a := str_bytes (pa_approver a) ++ str_bytes (pa_approved_at a);
  entry_bytes e := str_bytes (String "{" (toy_format_pos (encode e)));
  entry_parse s := match s with String "{" t => toy_parse_pos t ≫= decode | _ => None end;
|}.

Lemma toy_pos_printable q : printable (toy_format_pos q) = true.
Proof. induction q as [q IH|q IH|]; [apply IH..|done]. Qed.

#[export] Instance toy_digest32_laws : Sha256Laws.
Proof.
  split; intros b; cbn [sha256 toy_digest32].
  - rewrite length_map, length_take, length_app, length_replicate. lia.
  - apply Forall_map, Forall_true. intros x. pose proof (Z.mod_pos_bound x 256). lia.
Qed.

Lemma toy_parse_pos_printable s : forall q, toy_parse_pos s = Some q -> printable s = true.
Proof.
  induction s as [|c s IH]; intros q Hq; [done|].
  destruct c as [[] [] [] [] [] [] [] []]; try discriminate Hq.
  all: cbn in Hq; first [solve [repeat case_match; done]
    | destruct (toy_parse_pos s) as [q'|]; [by apply (IH q')|done]].
Qed.

Lemma toy_parse_printable s t : toy_parse s = Some t -> printable s = true.
Proof.
  unfold toy_parse. intros Ht. repeat case_match; simplify_eq; try done.
  all: destruct (toy_parse_pos _) eqn:E; [|done]; by apply toy_parse_pos_printable in E.
Qed.

#[export] Instance toy_time_text_laws : TimeTextLaws.
Proof.
  split.
  - intros [|q|q]; [done|apply toy_pos_printable..].
  - intros s t _ before. destruct (rfc3339_parse _) as [u|] eqn:E; [|done].
    apply toy_parse_printable in E. unfold printable in E.
    by rewrite !str_bytes_app, !forallb_app, andb_comm in E.
Qed.

Lemma byte_range x : 0 <= x mod 256 <= 255.
Proof. pose proof (Z.mod_pos_bound x 256). lia. Qed.

#[export] Instance toy_ed25519_laws : Ed25519Laws.
Proof.
  split; cbn [key_public key_sign ed25519_verify toy_ed25519].
  - intros k. apply length_replicate.
  - intros k m. unfold toy_sign. rewrite length_take, length_cons, length_app, length_replicate. lia.
  - intros k. apply Forall_replicate. apply byte_range.
  - intros k m. apply Forall_take. constructor; [apply byte_range|]. apply Forall_app.
    split; [|by apply Forall_replicate]. apply Forall_forall. intros x (y & -> & _)%list_elem_of_fmap.
    apply byte_range.
  - intros k m. by apply bool_decide_eq_true.
Qed.

#[export] Instance toy_base64_laws : Base64Laws.
Proof.
  split. intros b _. cbn [base64_decode base64_encode toy_base64_decode toy_base64_encode].
  rewrite toy_parse_format_pos. apply decode_encode.
Qed.

#[export] Instance toy_review_json_laws : ReviewJsonLaws.
Proof.
  split. intros e _. exists (toy_format_pos (encode e)). split_and!; [done|apply toy_pos_printable|].
  cbn [entry_parse toy_review_json]. rewrite toy_parse_format_pos. apply decode_encode.
Qed.

(** ** Successive records *)

Record HistoryRequest := {
  hq_now : Z;
  hq_plan : TrustPolicyPlan;
  hq_approval : option TrustPolicyApproval;
  hq_keyring : option ReviewerKeyringFile;
}.

Definition hq_text (q : HistoryRequest) : bool := request_text (hq_plan q) (hq_approval q).

Lemma forallb_Forall {A} (f : A -> bool) l : forallb f l = true -> Forall (fun x => f x = true) l.
Proof. rewrite forallb_forall, Forall_forall. setoid_rewrite list_elem_of_In. done. Qed.

Section runs.
Context `{EndpointIdOps, TimeOps, JsonOps, Sha256Ops, JsonBytes, PolicyBytes}.
Context `{Ed25519Ops, Base64Standard, Base64Encode, ReviewJson}.

(** One command: an error leaves the file as it was. *)
Definition record_request (file : list Z) (q : HistoryRequest) : list Z :=
  match run_trust_policy_history_record (hq_now q) (hq_plan q) (hq_approval q) (hq_keyring q) file with
  | Ok (file', _) => file'
  | Err _ => file
  end.

Definition record_all (qs : list HistoryRequest) (file : list Z) : list Z :=
  foldl record_request file qs.

(** An entry and the request it comes from. *)
Definition entry_from (qs : list HistoryRequest) (e : TrustPolicyHistoryEntry) : Prop :=
  exists q, q ∈ qs /\ e = history_entry (hq_now q) (hq_plan q) (hq_approval q) /\
    validate_plan (hq_plan q) = Ok tt /\ record_approved (hq_plan q) (hq_approval q) (hq_keyring q).

Lemma record_all_appends `{!Sha256Laws, !TimeLaws, !TimeTextLaws, !ReviewJsonLaws} qs : forall es,
  Forall (fun q => hq_text q = true) qs ->
  history_ok es -> Z.of_nat (length (history_file es)) <= MAX_HISTORY_BYTES ->
  exists es', record_all qs (history_file es) = history_file (es ++ es') /\
    history_ok (es ++ es') /\ Z.of_nat (length (history_file (es ++ es'))) <= MAX_HISTORY_BYTES /\
    Forall (entry_from qs) es'.
Proof.
  induction qs as [|q qs IH]; intros es Hq Hok Hlen.
  { exists []. rewrite app_nil_r. by split_and!. }
  apply Forall_cons in Hq as [Hq Hqs].
  change (record_all (q :: qs) ?f) with (record_all qs (record_request f q)).
  assert (forall e, entry_from qs e -> entry_from (q :: qs) e) as Hmore.
  { intros e (q' & ? & ?). exists q'. split; [by right|done]. }
  unfold record_request.
  destruct (run_trust_policy_history_record _ _ _ _ _) as [[file' e]|] eqn:Hr.
  - destruct (record_step _ _ _ _ _ _ _ Hok Hlen Hq Hr) as (-> & Hok' & Hlen').
    destruct (IH (es ++ [e]) Hqs Hok' Hlen') as (es' & He & Ho & Hl & Hf). exists (e :: es').
    rewrite (cons_middle e es es'), app_assoc. do 3 (split; [done|]). constructor.
    + apply record_ok in Hr as (? & ? & ? & _). exists q. split_and!; [by left|done..].
    + eapply Forall_impl; eauto.
  - destruct (IH es Hqs Hok Hlen) as (es' & He & Ho & Hl & Hf). exists es'.
    do 3 (split; [done|]). eapply Forall_impl; eauto.
Qed.

(** C24: the history of a policy is append-only and stays readable.  Whatever
    sequence of record commands runs on a new file, the file after more commands
    is the file before with further lines; it is read without an error as one
    entry per accepted record, in order, with distinct revisions, within 256
    entries and 1 MiB; and every entry was made by one of the requests, whose
    approval, if it has one, was verified against its keyring. *)
Theorem history_append_only `{!Sha256Laws, !TimeLaws, !TimeTextLaws, !ReviewJsonLaws} before after :
  Forall (fun q => hq_text q = true) (before ++ after) ->
  exists es es',
    record_all before [] = history_file es /\
    record_all (before ++ after) [] = history_file es ++ history_file es' /\
    read_history_entries_from_file (record_all before []) = Ok es /\
    read_history_entries_from_file (record_all (before ++ after) []) = Ok (es ++ es') /\
    NoDup (map he_policy_revision (es ++ es')) /\
    Z.of_nat (length (es ++ es')) <= MAX_HISTORY_ENTRIES /\
    Z.of_nat (length (record_all (before ++ after) [])) <= MAX_HISTORY_BYTES /\
    Forall (entry_from (before ++ after)) (es ++ es').
Proof.
  intros [Hb Ha]%Forall_app.
  destruct (record_all_appends before [] Hb) as (es & He & Hok & Hl & Hf).
  { split; [constructor|done|constructor..]. }
  { done. }
  cbn [app] in *. destruct (record_all_appends after es Ha Hok Hl) as (es' & He' & Hok' & Hl' & Hf').
  change (history_file []) with (@nil Z) in *.
  assert (record_all (before ++ after) [] = history_file (es ++ es')) as Hall.
  { unfold record_all in *. by rewrite foldl_app, He, He'. }
  exists es, es'. rewrite Hall, He. split_and!; try done.
  - unfold history_file. apply flat_map_app.
  - by apply read_history_file.
  - by apply read_history_file.
  - apply Hok'.
  - apply Hok'.
  - apply Forall_app. split; eapply Forall_impl; try done.
    all: intros e (q & ? & ?); exists q; split; [set_solver|done].
Qed.

(** The order of the nodes, controllers, peers and path probes in a policy
    file does not matter: two files with the same declarations load as the same
    canonical policy with the same hash and revision, and give the same
    signature and the same plan. *)
Theorem policy_order_irrelevant now a b loaded :
  same_policy a b -> load_and_validate_policy now a = Ok loaded ->
  load_and_validate_policy now b = Ok loaded /\
  (forall key_bytes key_id,
     run_trust_policy_sign now b key_bytes key_id = run_trust_policy_sign now a key_bytes key_id) /\
  (forall d signature public_key,
     run_trust_policy_plan now d b signature public_key
     = run_trust_policy_plan now d a signature public_key).
Proof.
  destruct loaded as [p r]. intros Hs Ha. pose proof (load_perm _ _ _ _ _ Hs Ha) as Hb.
  split; [done|]. unfold run_trust_policy_sign, run_trust_policy_plan. by rewrite Ha, Hb.
Qed.

Lemma plan_parts now d doc sf kf plan :
  run_trust_policy_plan now d doc sf kf = Ok plan ->
  exists policy report v ds, load_and_validate_policy now doc = Ok (policy, report) /\
    verify_policy_signature policy report sf kf = Ok v /\ policy_diffs d policy = Ok ds /\
    pl_total_change_count plan = Z.of_nat (length (sort_by diff_key ds)) /\
    pl_changes plan = take (Z.to_nat MAX_DIFF_ITEMS) (sort_by diff_key ds) /\
    da_active (pl_drift_alert plan) = (0 <? pl_total_change_count plan) /\
    da_severity (pl_drift_alert plan) =
      (if existsb (fun c => String.eqb (td_severity c) "high") (pl_changes plan)
       then "critical" else if 0 <? pl_total_change_count plan then "warning" else "none").
Proof.
  unfold run_trust_policy_plan, compute_policy_diff. intros Hp. peel_in Hp. injection Hp as <-.
  match goal with Hd : _ = Ok ?x |- context [dr_diffs ?x] => peel_in Hd; injection Hd as <- end.
  do 4 eexists. split_and!; done.
Qed.

Lemma verified_signature policy report sf kf v :
  verify_policy_signature policy report sf kf = Ok v ->
  exists key signature, base64_decode (kf_public_key kf) = Some key /\
    base64_decode (sf_signature sf) = Some signature /\
    ed25519_verify key (policy_signature_payload (vr_policy_revision report)
                          (vr_policy_sha256 report)) signature = true.
Proof. unfold verify_policy_signature. intros Hv. peel_in Hv. unwrap. eauto. Qed.

(** C22: a plan reports drift exactly when the registry is not what the policy
    declares.  For a coherent store and a plan made of a signed policy, the
    signature verifies over the revision and hash of the loaded policy, and the
    drift alert is off, with no changes and severity [none], if and only if every
    declared node is registered with the declared endpoint, region, role and
    enabled state, its advisory metadata are the declared ones, its endpoint has
    the declared lifecycle and a bundle with exactly the allowlists that follow
    from the policy, and nothing else is registered or trusted. *)
Theorem plan_drift_iff_out_of_sync `{!EndpointIdLaws} now d document signature public_key plan :
  trust_wf (rd_core d) ->
  run_trust_policy_plan now d document signature public_key = Ok plan ->
  exists policy report, load_and_validate_policy now document = Ok (policy, report) /\
    (exists key s, base64_decode (kf_public_key public_key) = Some key /\
       base64_decode (sf_signature signature) = Some s /\
       ed25519_verify key (policy_signature_payload (vr_policy_revision report)
                             (vr_policy_sha256 report)) s = true) /\
    (da_active (pl_drift_alert plan) = false <-> in_sync d policy) /\
    (pl_changes plan = [] <-> in_sync d policy) /\
    (da_severity (pl_drift_alert plan) = "none" <-> in_sync d policy).
Proof.
  intros Hwf Hplan.
  destruct (plan_parts _ _ _ _ _ _ Hplan) as (p & r & v & ds & Hl & Hv & Hd & Ht & Hch & Hac & Hsv).
  destruct (load_canonical _ _ _ _ Hl) as [Hw Hcan].
  pose proof (policy_diffs_nil _ _ _ Hwf Hw Hcan Hd) as Hnil.
  exists p, r. split; [done|]. split; [by eapply verified_signature|].
  rewrite Hac, Hsv, Ht, Hch, <- Hnil, <- (length_zero_iff_nil ds), sort_by_length.
  destruct ds as [|x ds]; cbn [length].
  { done. }
  split_and!; split; try done.
  - intros He%(f_equal length). rewrite length_take, sort_by_length in He.
    unfold MAX_DIFF_ITEMS in He. cbn [length] in He. lia.
  - rewrite (proj2 (Z.ltb_lt 0 _)) by lia. case (existsb _ _); discriminate.
Qed.

(** An endpoint that is no longer the endpoint of a node, as after a rotation, is
    drift from every policy: no plan of this store turns the alert off. *)
Lemma superseded_endpoint_is_drift `{!EndpointIdLaws} now d document signature public_key plan e row :
  trust_wf (rd_core d) -> db_trust (rd_core d) !! e = Some row ->
  (forall k n, db_nodes (rd_core d) !! k = Some n -> node_endpoint_id n <> e) ->
  run_trust_policy_plan now d document signature public_key = Ok plan ->
  da_active (pl_drift_alert plan) = true.
Proof.
  intros Hwf He Hno Hplan.
  destruct (plan_parts _ _ _ _ _ _ Hplan) as (p & r & v & ds & Hl & _ & Hd & Ht & _ & Hac & _).
  destruct (load_canonical _ _ _ _ Hl) as [Hw Hcan].
  rewrite Hac, Ht. apply Z.ltb_lt. rewrite sort_by_length. destruct ds as [|x ds]; [|cbn; lia].
  destruct (proj1 (policy_diffs_nil _ _ _ Hwf Hw Hcan Hd) eq_refl) as [Hdecl _ Hend].
  destruct (Hend _ _ He) as (q & Hq & Hqe). destruct (Hdecl q Hq) as [(n & Hn & [Hne _ _ _]) _ _].
  exfalso. apply (Hno _ _ Hn). congruence.
Qed.

(** The severity is taken from the changes that are shown: when the first 512 in
    the order of their codes are not high, a plan with high changes after them is
    only a warning. *)
Lemma severity_of_shown_changes now d document signature public_key plan policy report ds :
  run_trust_policy_plan now d document signature public_key = Ok plan ->
  load_and_validate_policy now document = Ok (policy, report) -> policy_diffs d policy = Ok ds ->
  ds <> [] ->
  (forall c, c ∈ take (Z.to_nat MAX_DIFF_ITEMS) (sort_by diff_key ds) -> td_severity c <> "high") ->
  da_severity (pl_drift_alert plan) = "warning".
Proof.
  intros Hplan Hl Hd Hne Hlow.
  destruct (plan_parts _ _ _ _ _ _ Hplan) as (p & r & v & ds' & Hl' & _ & Hd' & Ht & Hch & _ & Hsv).
  rewrite Hl in Hl'. injection Hl' as <- <-. rewrite Hd in Hd'. injection Hd' as <-.
  rewrite Hsv, Hch, Ht, sort_by_length. destruct ds as [|x ds]; [done|].
  rewrite (proj2 (Z.ltb_lt 0 _)) by (cbn [length]; lia).
  replace (existsb _ _) with false; [done|]. symmetry. apply not_true_iff_false.
  intros (c & Hin & Hs%String.eqb_eq)%existsb_exists. by apply (Hlow c); [apply list_elem_of_In|].
Qed.

(** C23: an approval is recorded only if a reviewer of the keyring signed it for
    this plan.  The plan was not truncated, a key of the keyring under the
    approver and key id of the approval verifies its signature over the revision
    and hash of the plan, the approver, the time and the key id; the entry names
    them; and these fields are determined by what was signed: an approval of any
    plan that passes the check with the same signed payload has the same approver,
    time and key id and is for the same revision and plan hash. *)
Theorem recorded_approval_was_signed `{!Sha256Laws, !TimeTextLaws} now plan a keyring file file' e :
  run_trust_policy_history_record now plan (Some a) (Some keyring) file = Ok (file', e) ->
  let payload a := approval_signature_payload (pa_policy_revision a) (pa_plan_sha256 a)
                     (pa_approver a) (pa_approved_at a) (pa_key_id a) in
  pl_truncated plan = false /\
  (exists keys key signature, load_reviewer_keyring keyring = Ok keys /\ key ∈ keys /\
     tk_actor key = pa_approver a /\ tk_key_id key = pa_key_id a /\
     base64_decode (pa_signature a) = Some signature /\
     ed25519_verify (tk_public_key key) (payload a) signature = true) /\
  he_policy_revision e = pa_policy_revision a /\ he_plan_sha256 e = pa_plan_sha256 a /\
  he_approved_by e = Some (pa_approver a) /\ he_approval_key_id e = Some (pa_key_id a) /\
  (forall a' plan' keys', validate_plan plan' = Ok tt -> validate_approval a' plan' keys' = Ok tt ->
     payload a' = payload a ->
     pl_policy_revision plan' = pl_policy_revision plan /\
     sha256_hex (plan_bytes plan') = sha256_hex (plan_bytes plan) /\
     pa_approver a' = pa_approver a /\ pa_approved_at a' = pa_approved_at a /\
     pa_key_id a' = pa_key_id a).
Proof.
  intros (Hp & (keys & Hk & Hch & _) & -> & _ & _)%record_ok payload.
  pose proof Hch as [Hrev Hsha Hwhole _ _ (key & s & Hin & Hact & Hid & Hb & Hver)].
  split; [done|]. split.
  { exists keys, key, s. split_and!; try done. unfold payload. by rewrite Hrev, Hsha. }
  cbn. split_and!; try done. intros a' plan' keys' Hp' Hch'%validate_approval_checked Hpay.
  pose proof (approval_checked_lines _ _ _ Hp Hch) as Hlines.
  pose proof (approval_checked_lines _ _ _ Hp' Hch') as Hlines'.
  destruct Hch' as [Hrev' Hsha' _ _ _ _]. unfold payload in Hpay.
  rewrite Hrev, Hsha, Hrev', Hsha' in Hpay.
  destruct (approval_payload_inj _ _ _ _ _ _ _ _ _ _ Hlines' Hlines Hpay) as (? & ? & ? & ? & ?).
  by split_and!.
Qed.

(** C30: the review chain completes.  A policy that was signed and whose
    difference to the registry can be computed has a plan; if the plan shows every
    change, any reviewer of the keyring can approve it with their key; and the
    approved plan is then recorded in any readable history that does not have the
    revision and has room. *)
Theorem review_chain_completes `{!Sha256Laws, !TimeLaws, !Ed25519Laws, !Base64Laws}
    now0 now1 now2 now3 document key_bytes key_id signature public_key d policy report diff :
  run_trust_policy_sign now0 document key_bytes key_id = Ok (signature, public_key) ->
  load_and_validate_policy now1 document = Ok (policy, report) ->
  compute_policy_diff now1 d policy report = Ok diff ->
  exists plan, run_trust_policy_plan now1 d document signature public_key = Ok plan /\
    pl_policy_revision plan = vr_policy_revision report /\
    pl_total_change_count plan = dr_total_diff_count diff /\
    (dr_total_diff_count diff <= MAX_DIFF_ITEMS ->
     forall keyring keys key reviewer_bytes pair,
       load_reviewer_keyring keyring = Ok keys -> key ∈ keys ->
       key_from_pkcs8 reviewer_bytes = Some pair -> key_public pair = tk_public_key key ->
       exists a, run_trust_policy_approve now2 plan reviewer_bytes (tk_key_id key) (tk_actor key)
                   keyring = Ok a /\
       forall file entries,
         read_history_entries_from_file file = Ok entries ->
         (forall x, x ∈ entries -> he_policy_revision x <> vr_policy_revision report) ->
         Z.of_nat (length entries) < MAX_HISTORY_ENTRIES ->
         let e := history_entry now3 plan (Some a) in
         Z.of_nat (length (file ++ entry_bytes e ++ [10])) <= MAX_HISTORY_BYTES ->
         run_trust_policy_history_record now3 plan (Some a) (Some keyring) file
           = Ok (file ++ entry_bytes e ++ [10], e) /\
         he_policy_revision e = vr_policy_revision report /\
         he_approved_by e = Some (tk_actor key)).
Proof.
  intros Hs Hl Hd. destruct (plan_of_signed _ _ _ _ _ _ _ _ _ _ _ Hs Hl Hd)
    as (plan & Hplan & Hok & Hrev & Htot & Htr).
  exists plan. split_and!; try done. intros Hmax keyring keys key rb pair Hk Hin Hrb Hpub.
  assert (pl_truncated plan = false) as Hwhole by (rewrite Htr; by apply Z.ltb_ge).
  destruct (approve_accepted now2 _ _ _ _ _ _ Hok Hwhole Hk Hin Hrb Hpub) as (a & Ha & Hv & Hact & _).
  exists a. split; [done|]. intros file entries Hf Hfresh Hn e Hb. split_and!.
  - eapply record_accepted; eauto. by rewrite Hrev.
  - done.
  - cbn. by rewrite Hact.
Qed.
End runs.

(** ** A concrete review *)

Definition sp_policy_node (id endpoint : string) (tier : option string) : PolicyNode :=
  {| pn_node_id := id; pn_endpoint_id := endpoint; pn_region := "eu"; pn_role := "ocserv";
     pn_lifecycle := "active"; pn_enabled := Some true; pn_environment := None; pn_site := None;
     pn_owner_team := None; pn_service_tier := tier; pn_labels := None;
     pn_expected_agent_version := None |}.

Definition sp_policy (revision : string) (nodes : list PolicyNode) (peers : list PolicyPeer)
    : TrustPolicyDocument :=
  {| pd_version := 1;
     pd_metadata := Some {| pm_name := None; pm_revision := Some revision |};
     pd_nodes := nodes; pd_controllers := []; pd_peers := peers; pd_path_probes := [] |}.

Definition sp_script : list (StoreEnv * StoreOp) :=
  [(sc_env, OpAddNode sc_node "alice"); (sc_env, OpCreateToken sc_token "alice");
   (sc_env, OpSubmitJoin sc_request "agent"); (sc_env, OpApproveJoin sc_approval "alice")].

Definition sp_registry (script : list (StoreEnv * StoreOp)) : RegistryDb :=
  {| rd_core := run_store script empty_db; rd_metadata := ∅; rd_maintenance := ∅ |}.

(** The registered nodes, written in another order and with another spelling of
    an endpoint. *)
Definition sp_document : TrustPolicyDocument :=
  sp_policy "rev-1" [sp_policy_node "edge-2" "K2" None; sp_policy_node "edge-1" "k1" None] [].
Definition sp_reordered : TrustPolicyDocument :=
  sp_policy "rev-1" [sp_policy_node "edge-1" "k1" None; sp_policy_node "edge-2" "K2" None] [].

Definition sp_plan (script : list (StoreEnv * StoreOp)) (document : TrustPolicyDocument)
    : result PolicyError TrustPolicyPlan :=
  let? (signature, public_key) := run_trust_policy_sign 1 document [7] "signer" in
  run_trust_policy_plan 2 (sp_registry script) document signature public_key.

Definition sp_keyring : ReviewerKeyringFile :=
  {| rk_schema := POLICY_REVIEWER_KEYRING_SCHEMA;
     rk_reviewers := [{| rk_actor := "bob"; rk_key_id := "bob-1";
                         rk_public_key := base64_encode (replicate 32 9) |}] |}.

(** The request to record the plan of a document with the approval of bob. *)
Definition sp_request (now : Z) (document : TrustPolicyDocument) : list HistoryRequest :=
  match sp_plan sp_script document with
  | Ok plan =>
      match run_trust_policy_approve 3 plan [9] "bob-1" "bob" sp_keyring with
      | Ok a => [{| hq_now := now; hq_plan := plan; hq_approval := Some a;
                    hq_keyring := Some sp_keyring |}]
      | Err _ => []
      end
  | Err _ => []
  end.


Definition sp_document2 : TrustPolicyDocument :=
  sp_policy "rev-2" [sp_policy_node "edge-1" "k1" None] [].

Lemma history_append_only_witness :
  length (sp_request 4 sp_document) = 1%nat /\ length (sp_request 5 sp_document2) = 1%nat /\
  exists es es',
    record_all (sp_request 4 sp_document) [] = history_file es /\
    record_all (sp_request 4 sp_document ++ sp_request 5 sp_document2) []
      = history_file es ++ history_file es' /\
    read_history_entries_from_file (record_all (sp_request 4 sp_document) []) = Ok es /\
    NoDup (map he_policy_revision (es ++ es')).
Proof.
  split; [vm_compute; reflexivity|]. split; [vm_compute; reflexivity|].
  destruct (history_append_only (sp_request 4 sp_document) (sp_request 5 sp_document2))
    as (es & es' & H1 & H2 & H3 & _ & H4 & _).
  - apply forallb_Forall. vm_compute. reflexivity.
  - exists es, es'. exact (conj H1 (conj H2 (conj H3 H4))).
Defined.

Lemma policy_order_irrelevant_witness :
  sp_reordered <> sp_document /\
  load_and_validate_policy 1 sp_reordered = load_and_validate_policy 1 sp_document /\
  run_trust_policy_sign 1 sp_reordered [7] "signer" = run_trust_policy_sign 1 sp_document [7] "signer".
Proof.
  split; [done|].
  destruct (load_and_validate_policy 1 sp_document) as [loaded|] eqn:E; [|by vm_compute in E].
  assert (same_policy sp_document sp_reordered) as Hs.
  { split; try done. apply perm_swap. }
  destruct (policy_order_irrelevant 1 sp_document sp_reordered loaded Hs E) as (Hl & Hsig & _).
  split; [exact Hl|apply Hsig].
Defined.

Lemma plan_drift_iff_out_of_sync_witness :
  exists plan policy report, sp_plan sp_script sp_document = Ok plan /\
    load_and_validate_policy 2 sp_document = Ok (policy, report) /\
    da_active (pl_drift_alert plan) = false /\ in_sync (sp_registry sp_script) policy.
Proof.
  destruct (run_trust_policy_sign 1 sp_document [7] "signer") as [[sf kf]|] eqn:Es;
    [|by vm_compute in Es].
  destruct (sp_plan sp_script sp_document) as [plan|] eqn:Ep; [|by vm_compute in Ep].
  assert (da_active (pl_drift_alert plan) = false) as Ha.
  { assert (match sp_plan sp_script sp_document with
            | Ok p => da_active (pl_drift_alert p) = false | Err _ => False end) as Hm
      by (vm_compute; reflexivity). by rewrite Ep in Hm. }
  unfold sp_plan in Ep. rewrite Es in Ep.
  destruct (plan_drift_iff_out_of_sync 2 (sp_registry sp_script) sp_document sf kf plan
              (store_reachable_wf sp_script) Ep) as (policy & report & Hl & _ & Hiff & _).
  exists plan, policy, report. split; [done|]. split; [exact Hl|]. split; [exact Ha|by apply Hiff].
Defined.

Lemma recorded_approval_was_signed_witness :
  exists plan a file' e keys key,
    run_trust_policy_history_record 4 plan (Some a) (Some sp_keyring) [] = Ok (file', e) /\
    pa_approver a = "bob" /\ load_reviewer_keyring sp_keyring = Ok keys /\ key ∈ keys /\
    tk_actor key = pa_approver a.
Proof.
  destruct (sp_plan sp_script sp_document) as [plan|] eqn:Ep; [|by vm_compute in Ep].
  destruct (run_trust_policy_approve 3 plan [9] "bob-1" "bob" sp_keyring) as [a|] eqn:Ea.
  2: { exfalso. assert (match sp_plan sp_script sp_document with
            | Ok p => is_ok (run_trust_policy_approve 3 p [9] "bob-1" "bob" sp_keyring) = true
            | Err _ => False end) as Hm by (vm_compute; reflexivity).
       rewrite Ep, Ea in Hm. done. }
  destruct (run_trust_policy_history_record 4 plan (Some a) (Some sp_keyring) [])
    as [[file' e]|] eqn:Er.
  2: { exfalso. assert (match sp_plan sp_script sp_document with
            | Ok p => match run_trust_policy_approve 3 p [9] "bob-1" "bob" sp_keyring with
                      | Ok a => is_ok (run_trust_policy_history_record 4 p (Some a)
                                         (Some sp_keyring) []) = true
                      | Err _ => False end
            | Err _ => False end) as Hm by (vm_compute; reflexivity).
       rewrite Ep, Ea, Er in Hm. done. }
  destruct (recorded_approval_was_signed 4 plan a sp_keyring [] file' e Er)
    as (_ & (keys & key & s & Hk & Hin & Hact & _) & _).
  exists plan, a, file', e, keys, key. split; [exact Er|]. split; [|by split_and!].
  unfold run_trust_policy_approve in Ea. peel_in Ea. by injection Ea as <-.
Defined.

Lemma review_chain_completes_witness :
  exists plan a, sp_plan sp_script sp_document = Ok plan /\
    run_trust_policy_approve 3 plan [9] "bob-1" "bob" sp_keyring = Ok a.
Proof.
  destruct (run_trust_policy_sign 1 sp_document [7] "signer") as [[sf kf]|] eqn:Es;
    [|by vm_compute in Es].
  destruct (load_and_validate_policy 2 sp_document) as [[policy report]|] eqn:El;
    [|by vm_compute in El].
  destruct (compute_policy_diff 2 (sp_registry sp_script) policy report) as [diff|] eqn:Ed.
  2: { exfalso. assert (match load_and_validate_policy 2 sp_document with
            | Ok (p, r) => is_ok (compute_policy_diff 2 (sp_registry sp_script) p r) = true
            | Err _ => False end) as Hm by (vm_compute; reflexivity).
       rewrite El, Ed in Hm. done. }
  destruct (review_chain_completes 1 2 3 4 sp_document [7] "signer" sf kf (sp_registry sp_script)
              policy report diff Es El Ed) as (plan & Hp & _ & _ & Hgo).
  assert (dr_total_diff_count diff <= MAX_DIFF_ITEMS) as Hmax.
  { assert (match load_and_validate_policy 2 sp_document with
            | Ok (p, r) => match compute_policy_diff 2 (sp_registry sp_script) p r with
                           | Ok d => (dr_total_diff_count d <=? MAX_DIFF_ITEMS) = true
                           | Err _ => False end
            | Err _ => False end) as Hm by (vm_compute; reflexivity).
    rewrite El, Ed in Hm. by apply Z.leb_le. }
  destruct (Hgo Hmax sp_keyring
    [{| tk_actor := "bob"; tk_key_id := "bob-1"; tk_public_key := replicate 32 9 |}]
    {| tk_actor := "bob"; tk_key_id := "bob-1"; tk_public_key := replicate 32 9 |} [9] 9)
    as (a & Ha & _); [vm_compute; reflexivity|by left|done|done|].
  exists plan, a. split; [|exact Ha]. unfold sp_plan. by rewrite Es.
Defined.
