(* ===== verification/Slo.v ===== *)
(** * Slo: service levels from health rollups (ocfleet-cli/src/slo.rs)

    A rollup counts the health samples of a node in one bucket.  A projection
    over a window adds up the buckets that are present, with every sum checked
    against 64 bits, and gives ratios in hundredths of a percent. *)

From S2P Require Import Prelude Text External.

Record HealthRollupRecord := {
  ru_node_id : string;
  ru_bucket_seconds : Z;
  ru_bucket_start : string;
  ru_bucket_end : string;
  ru_input_watermark : string;
  ru_health_samples : Z;
  ru_covered_slots : Z;
  ru_expected_slots : Z;
  ru_healthy_count : Z;
  ru_degraded_count : Z;
  ru_unreachable_count : Z;
  ru_stale_count : Z;
  ru_disabled_count : Z;
  ru_unknown_count : Z;
  ru_observation_count : Z;
  ru_observation_error_count : Z;
  ru_duration_sample_count : Z;
  ru_duration_p50_ms : option Z;
  ru_duration_p95_ms : option Z;
  ru_cert_warning_count : Z;
  ru_cert_critical_count : Z;
  ru_fingerprint_sample_count : Z;
  ru_fingerprint_change_count : Z;
  ru_computed_at : string;
}.

Inductive SloWindow := Hours24 | Days7 | Days30.

Definition window_seconds (w : SloWindow) : Z :=
  match w with Hours24 => 86400 | Days7 => 604800 | Days30 => 2592000 end.

Definition window_bucket_seconds (w : SloWindow) : Z :=
  match w with Hours24 => 300 | Days7 => 3600 | Days30 => 86400 end.

Definition window_as_str (w : SloWindow) : string :=
  match w with Hours24 => "24h" | Days7 => "7d" | Days30 => "30d" end.

Record HealthSloProjection := {
  sp_node_id : string;
  sp_window : string;
  sp_from : string;
  sp_to : string;
  sp_bucket_seconds : Z;
  sp_expected_buckets : Z;
  sp_present_buckets : Z;
  sp_expected_slots : Z;
  sp_covered_slots : Z;
  sp_missing_slots : Z;
  sp_covered_duration_seconds : Z;
  sp_missing_duration_seconds : Z;
  sp_coverage_basis_points : option Z;
  sp_health_samples : Z;
  sp_healthy_samples : Z;
  sp_degraded_samples : Z;
  sp_unreachable_samples : Z;
  sp_stale_samples : Z;
  sp_disabled_samples : Z;
  sp_unknown_samples : Z;
  sp_healthy_duration_seconds : Z;
  sp_degraded_duration_seconds : Z;
  sp_unreachable_duration_seconds : Z;
  sp_stale_duration_seconds : Z;
  sp_disabled_duration_seconds : Z;
  sp_unknown_duration_seconds : Z;
  sp_availability_eligible_samples : Z;
  sp_service_available_basis_points : option Z;
  sp_strictly_healthy_basis_points : option Z;
  sp_observation_count : Z;
  sp_observation_error_count : Z;
  sp_observation_error_basis_points : option Z;
  sp_duration_sample_count : Z;
  sp_latency_p50_ms_min : option Z;
  sp_latency_p50_ms_max : option Z;
  sp_latency_p95_ms_max : option Z;
  sp_cert_warning_count : Z;
  sp_cert_critical_count : Z;
  sp_fingerprint_sample_count : Z;
  sp_fingerprint_change_count : Z;
}.

(** ** Checked arithmetic on [u64] *)

Definition add_u64 (a b : Z) : option Z := checked_add u64_max a b.
Definition sub_u64 (a b : Z) : option Z := if b <=? a then Some (a - b) else None.
Definition mul_u64 (a b : Z) : option Z := if a * b <=? u64_max then Some (a * b) else None.

(** [try_fold(0, u64::checked_add)]. *)
Fixpoint try_sum (acc : Z) (l : list Z) : option Z :=
  match l with
  | [] => Some acc
  | x :: l' => add_u64 acc x ≫= fun acc' => try_sum acc' l'
  end.

Definition ratio_basis_points (numerator denominator : Z) : option Z :=
  if denominator =? 0 then None
  else mul_u64 numerator 10000 ≫= fun n => Some (n / denominator).

(** [Iterator::min] and [Iterator::max]. *)
Definition list_min (l : list Z) : option Z :=
  match l with [] => None | x :: l' => Some (foldl Z.min x l') end.
Definition list_max (l : list Z) : option Z :=
  match l with [] => None | x :: l' => Some (foldl Z.max x l') end.

(** ** The projection *)

Definition status_total (row : HealthRollupRecord) : option Z :=
  add_u64 (ru_healthy_count row) (ru_degraded_count row) ≫= fun n =>
  add_u64 n (ru_unreachable_count row) ≫= fun n =>
  add_u64 n (ru_stale_count row) ≫= fun n =>
  add_u64 n (ru_disabled_count row) ≫= fun n =>
  add_u64 n (ru_unknown_count row).

Definition is_none {A} (o : option A) : bool := match o with None => true | Some _ => false end.

(** The condition under which a row is refused, apart from repeated starts. *)
Definition row_refused (node_id : string) (window : SloWindow) (from to : string)
    (status_total : Z) (row : HealthRollupRecord) : bool :=
  negb (String.eqb (ru_node_id row) node_id)
  || negb (ru_bucket_seconds row =? window_bucket_seconds window)
  || str_ltb (ru_bucket_start row) from
  || negb (str_ltb (ru_bucket_start row) to)
  || negb (ru_expected_slots row =? ru_bucket_seconds row / 300)
  || negb (ru_health_samples row =? ru_covered_slots row)
  || (ru_expected_slots row <? ru_covered_slots row)
  || negb (status_total =? ru_health_samples row)
  || (ru_observation_count row <? ru_observation_error_count row)
  || (ru_fingerprint_sample_count row <? ru_fingerprint_change_count row)
  || negb (Bool.eqb (ru_duration_sample_count row =? 0)
                    (is_none (ru_duration_p50_ms row) && is_none (ru_duration_p95_ms row)))
  || match ru_duration_p50_ms row, ru_duration_p95_ms row with
     | Some p50, Some p95 => p95 <? p50
     | _, _ => false
     end.

(** The loop over the rows; [starts] is the set of bucket starts so far. *)
Fixpoint check_rows (node_id : string) (window : SloWindow) (from to : string)
    (starts : gset string) (rows : list HealthRollupRecord) : bool :=
  match rows with
  | [] => true
  | row :: rest =>
      match status_total row with
      | None => false
      | Some total =>
          negb (row_refused node_id window from to total row)
          && negb (bool_decide (ru_bucket_start row ∈ starts))
          && check_rows node_id window from to ({[ru_bucket_start row]} ∪ starts) rest
      end
  end.

Definition project_health_slo (node_id : string) (window : SloWindow) (from to : string)
    (rows : list HealthRollupRecord) : option HealthSloProjection :=
  let expected_buckets := window_seconds window / window_bucket_seconds window in
  let expected_slots := window_seconds window / 300 in
  let sum field := try_sum 0 (map field rows) in
  if expected_buckets <? Z.of_nat (length rows) then None
  else if negb (check_rows node_id window from to ∅ rows) then None
  else
    sum ru_health_samples ≫= fun health_samples =>
    sum ru_covered_slots ≫= fun covered_sum =>
    let covered_slots := Z.min covered_sum expected_slots in
    sub_u64 expected_slots covered_slots ≫= fun missing_slots =>
    sum ru_observation_count ≫= fun observation_count =>
    sum ru_observation_error_count ≫= fun observation_error_count =>
    sum ru_healthy_count ≫= fun healthy_samples =>
    sum ru_degraded_count ≫= fun degraded_samples =>
    sum ru_unreachable_count ≫= fun unreachable_samples =>
    sum ru_stale_count ≫= fun stale_samples =>
    sum ru_disabled_count ≫= fun disabled_samples =>
    sum ru_unknown_count ≫= fun unknown_samples =>
    add_u64 healthy_samples degraded_samples ≫= fun available_samples =>
    add_u64 available_samples unreachable_samples ≫= fun n =>
    add_u64 n stale_samples ≫= fun availability_eligible_samples =>
    mul_u64 covered_slots 300 ≫= fun covered_duration =>
    mul_u64 missing_slots 300 ≫= fun missing_duration =>
    mul_u64 healthy_samples 300 ≫= fun healthy_duration =>
    mul_u64 degraded_samples 300 ≫= fun degraded_duration =>
    mul_u64 unreachable_samples 300 ≫= fun unreachable_duration =>
    mul_u64 stale_samples 300 ≫= fun stale_duration =>
    mul_u64 disabled_samples 300 ≫= fun disabled_duration =>
    mul_u64 unknown_samples 300 ≫= fun unknown_duration =>
    sum ru_duration_sample_count ≫= fun duration_sample_count =>
    sum ru_cert_warning_count ≫= fun cert_warning_count =>
    sum ru_cert_critical_count ≫= fun cert_critical_count =>
    sum ru_fingerprint_sample_count ≫= fun fingerprint_sample_count =>
    sum ru_fingerprint_change_count ≫= fun fingerprint_change_count =>
    Some {|
      sp_node_id := node_id;
      sp_window := window_as_str window;
      sp_from := from;
      sp_to := to;
      sp_bucket_seconds := window_bucket_seconds window;
      sp_expected_buckets := expected_buckets;
      sp_present_buckets := Z.min (Z.of_nat (length rows)) expected_buckets;
      sp_expected_slots := expected_slots;
      sp_covered_slots := covered_slots;
      sp_missing_slots := missing_slots;
      sp_covered_duration_seconds := covered_duration;
      sp_missing_duration_seconds := missing_duration;
      sp_coverage_basis_points := ratio_basis_points covered_slots expected_slots;
      sp_health_samples := health_samples;
      sp_healthy_samples := healthy_samples;
      sp_degraded_samples := degraded_samples;
      sp_unreachable_samples := unreachable_samples;
      sp_stale_samples := stale_samples;
      sp_disabled_samples := disabled_samples;
      sp_unknown_samples := unknown_samples;
      sp_healthy_duration_seconds := healthy_duration;
      sp_degraded_duration_seconds := degraded_duration;
      sp_unreachable_duration_seconds := unreachable_duration;
      sp_stale_duration_seconds := stale_duration;
      sp_disabled_duration_seconds := disabled_duration;
      sp_unknown_duration_seconds := unknown_duration;
      sp_availability_eligible_samples := availability_eligible_samples;
      sp_service_available_basis_points :=
        ratio_basis_points available_samples availability_eligible_samples;
      sp_strictly_healthy_basis_points :=
        ratio_basis_points healthy_samples availability_eligible_samples;
      sp_observation_count := observation_count;
      sp_observation_error_count := observation_error_count;
      sp_observation_error_basis_points :=
        ratio_basis_points observation_error_count observation_count;
      sp_duration_sample_count := duration_sample_count;
      sp_latency_p50_ms_min := list_min (omap ru_duration_p50_ms rows);
      sp_latency_p50_ms_max := list_max (omap ru_duration_p50_ms rows);
      sp_latency_p95_ms_max := list_max (omap ru_duration_p95_ms rows);
      sp_cert_warning_count := cert_warning_count;
      sp_cert_critical_count := cert_critical_count;
      sp_fingerprint_sample_count := fingerprint_sample_count;
      sp_fingerprint_change_count := fingerprint_change_count |}.

(** ** A projection is exact and exists for all acceptable rows

    The rows of a window are acceptable when each of them is consistent and no
    bucket is repeated.  Then the projection exists unless one of the counters
    that are not bounded by the window leaves 64 bits, its sums are exact, and
    its ratios are parts of ten thousand. *)

Definition sum_of (field : HealthRollupRecord -> Z) (rows : list HealthRollupRecord) : Z :=
  foldr (fun row acc => field row + acc) 0 rows.

(** The status counters of a row. *)
Definition status_fields : list (HealthRollupRecord -> Z) :=
  [ru_healthy_count; ru_degraded_count; ru_unreachable_count; ru_stale_count; ru_disabled_count;
   ru_unknown_count].

(** The counters that the window does not bound. *)
Definition open_fields : list (HealthRollupRecord -> Z) :=
  [ru_observation_count; ru_observation_error_count; ru_duration_sample_count;
   ru_cert_warning_count; ru_cert_critical_count; ru_fingerprint_sample_count;
   ru_fingerprint_change_count].

(** The counters of a stored row are 64-bit unsigned numbers. *)
Definition row_nonneg (row : HealthRollupRecord) : Prop :=
  Forall (fun field => 0 <= field row)
         (ru_covered_slots :: ru_health_samples :: status_fields ++ open_fields).

Record row_acceptable (node_id : string) (window : SloWindow) (from to : string)
    (row : HealthRollupRecord) : Prop := {
  ra_node : ru_node_id row = node_id;
  ra_bucket : ru_bucket_seconds row = window_bucket_seconds window;
  ra_from : str_ltb (ru_bucket_start row) from = false;
  ra_to : str_ltb (ru_bucket_start row) to = true;
  ra_slots : ru_expected_slots row = window_bucket_seconds window / 300;
  ra_samples : ru_health_samples row = ru_covered_slots row;
  ra_covered : ru_covered_slots row <= ru_expected_slots row;
  ra_statuses : foldr (fun field acc => field row + acc) 0 status_fields = ru_health_samples row;
  ra_errors : ru_observation_error_count row <= ru_observation_count row;
  ra_changes : ru_fingerprint_change_count row <= ru_fingerprint_sample_count row;
  ra_durations : ru_duration_sample_count row = 0 <->
                 ru_duration_p50_ms row = None /\ ru_duration_p95_ms row = None;
  ra_percentiles : forall p50 p95,
    ru_duration_p50_ms row = Some p50 -> ru_duration_p95_ms row = Some p95 -> p50 <= p95;
}.

Definition expected_buckets (window : SloWindow) : Z :=
  window_seconds window / window_bucket_seconds window.

Record rows_acceptable (node_id : string) (window : SloWindow) (from to : string)
    (rows : list HealthRollupRecord) : Prop := {
  rs_count : Z.of_nat (length rows) <= expected_buckets window;
  rs_rows : Forall (row_acceptable node_id window from to) rows;
  rs_starts : NoDup (map ru_bucket_start rows);
}.

Definition counts_fit (rows : list HealthRollupRecord) : Prop :=
  Forall (fun field => sum_of field rows <= u64_max) open_fields.

Definition basis_points (o : option Z) : Prop :=
  match o with Some n => 0 <= n <= 10000 | None => True end.

(** The counters of a projection with the columns they add up. *)
Definition counter_columns : list ((HealthSloProjection -> Z) * (HealthRollupRecord -> Z)) :=
  [(sp_covered_slots, ru_covered_slots); (sp_health_samples, ru_health_samples);
   (sp_healthy_samples, ru_healthy_count); (sp_degraded_samples, ru_degraded_count);
   (sp_unreachable_samples, ru_unreachable_count); (sp_stale_samples, ru_stale_count);
   (sp_disabled_samples, ru_disabled_count); (sp_unknown_samples, ru_unknown_count);
   (sp_observation_count, ru_observation_count);
   (sp_observation_error_count, ru_observation_error_count);
   (sp_duration_sample_count, ru_duration_sample_count);
   (sp_cert_warning_count, ru_cert_warning_count); (sp_cert_critical_count, ru_cert_critical_count);
   (sp_fingerprint_sample_count, ru_fingerprint_sample_count);
   (sp_fingerprint_change_count, ru_fingerprint_change_count)].

(** The durations of a projection with the counters of slots they belong to. *)
Definition duration_counters : list ((HealthSloProjection -> Z) * (HealthSloProjection -> Z)) :=
  [(sp_covered_duration_seconds, sp_covered_slots); (sp_missing_duration_seconds, sp_missing_slots);
   (sp_healthy_duration_seconds, sp_healthy_samples);
   (sp_degraded_duration_seconds, sp_degraded_samples);
   (sp_unreachable_duration_seconds, sp_unreachable_samples);
   (sp_stale_duration_seconds, sp_stale_samples);
   (sp_disabled_duration_seconds, sp_disabled_samples);
   (sp_unknown_duration_seconds, sp_unknown_samples)].

(** A number of parts of ten thousand, rounded down; unknown in the given case
    only. *)
Definition parts_of (n d : Z) (unknown : Prop) (o : option Z) : Prop :=
  match o with
  | Some q => 0 < d /\ q * d <= n * 10000 < (q + 1) * d /\ ~ unknown
  | None => unknown
  end.

(** The least and the greatest of the values that are known. *)
Definition least (l : list Z) (o : option Z) : Prop :=
  match o with Some m => m ∈ l /\ Forall (fun x => m <= x) l | None => l = [] end.
Definition greatest (l : list Z) (o : option Z) : Prop :=
  match o with Some m => m ∈ l /\ Forall (fun x => x <= m) l | None => l = [] end.

(** What a projection says about the window and the rows. *)
Record projection_exact (node_id : string) (window : SloWindow) (from to : string)
    (rows : list HealthRollupRecord) (p : HealthSloProjection) : Prop := {
  pe_node : sp_node_id p = node_id;
  pe_text : sp_window p = window_as_str window;
  pe_from : sp_from p = from;
  pe_to : sp_to p = to;
  pe_bucket : sp_bucket_seconds p = window_bucket_seconds window;
  pe_buckets : sp_expected_buckets p * window_bucket_seconds window = window_seconds window;
  pe_expected : sp_expected_slots p * 300 = window_seconds window;
  pe_present : sp_present_buckets p = Z.of_nat (length rows);
  pe_counts : Forall (fun c => c.1 p = sum_of c.2 rows) counter_columns;
  pe_durations : Forall (fun c => c.1 p = c.2 p * 300) duration_counters;
  pe_missing : sp_covered_slots p + sp_missing_slots p = sp_expected_slots p;
  pe_missing_nonneg : 0 <= sp_missing_slots p;
  pe_window : sp_covered_duration_seconds p + sp_missing_duration_seconds p = window_seconds window;
  pe_samples : sp_healthy_samples p + sp_degraded_samples p + sp_unreachable_samples p
               + sp_stale_samples p + sp_disabled_samples p + sp_unknown_samples p
               = sp_health_samples p;
  pe_slots : sp_health_samples p = sp_covered_slots p;
  pe_eligible : sp_availability_eligible_samples p
                = sp_healthy_samples p + sp_degraded_samples p + sp_unreachable_samples p
                  + sp_stale_samples p;
  pe_coverage : parts_of (sp_covered_slots p) (sp_expected_slots p) False
                  (sp_coverage_basis_points p);
  pe_available : parts_of (sp_healthy_samples p + sp_degraded_samples p)
                   (sp_availability_eligible_samples p) (sp_availability_eligible_samples p = 0)
                   (sp_service_available_basis_points p);
  pe_healthy : parts_of (sp_healthy_samples p)
                 (sp_availability_eligible_samples p) (sp_availability_eligible_samples p = 0)
                 (sp_strictly_healthy_basis_points p);
  pe_errors : parts_of (sp_observation_error_count p) (sp_observation_count p)
                (sp_observation_count p = 0 \/ u64_max < sp_observation_error_count p * 10000)
                (sp_observation_error_basis_points p);
  pe_ratios : Forall basis_points
    [sp_coverage_basis_points p; sp_service_available_basis_points p;
     sp_strictly_healthy_basis_points p; sp_observation_error_basis_points p];
  pe_p50_min : least (omap ru_duration_p50_ms rows) (sp_latency_p50_ms_min p);
  pe_p50_max : greatest (omap ru_duration_p50_ms rows) (sp_latency_p50_ms_max p);
  pe_p95_max : greatest (omap ru_duration_p95_ms rows) (sp_latency_p95_ms_max p);
}.

(** ** Rows *)

Lemma add_u64_some a b n : add_u64 a b = Some n <-> a + b <= u64_max /\ n = a + b.
Proof.
  unfold add_u64, checked_add. destruct (a + b <=? u64_max) eqn:E; bool_facts; split; intros Hx.
  - by injection Hx as <-.
  - destruct Hx as [_ ->]. done.
  - done.
  - lia.
Qed.

Lemma add_u64_fits a b : a + b <= u64_max -> add_u64 a b = Some (a + b).
Proof. intros Hx. by apply add_u64_some. Qed.

Lemma mul_u64_fits a b : a * b <= u64_max -> mul_u64 a b = Some (a * b).
Proof. intros Hx. unfold mul_u64. by rewrite (proj2 (Z.leb_le _ _) Hx). Qed.

Lemma row_nonneg_fields row :
  row_nonneg row ->
  (0 <= ru_covered_slots row /\ 0 <= ru_health_samples row) /\
  (0 <= ru_healthy_count row /\ 0 <= ru_degraded_count row /\ 0 <= ru_unreachable_count row /\
   0 <= ru_stale_count row /\ 0 <= ru_disabled_count row /\ 0 <= ru_unknown_count row) /\
  (0 <= ru_observation_count row /\ 0 <= ru_observation_error_count row).
Proof.
  unfold row_nonneg, status_fields, open_fields. cbn [app]. rewrite !Forall_cons. tauto.
Qed.

Lemma status_total_some row n :
  row_nonneg row ->
  status_total row = Some n <->
  n <= u64_max /\ foldr (fun field acc => field row + acc) 0 status_fields = n.
Proof.
  intros (_ & Hs & _)%row_nonneg_fields. unfold status_total. cbn [foldr status_fields]. split.
  - intros Hn. repeat (apply bind_Some in Hn as (? & [? ->]%add_u64_some & Hn)).
    apply add_u64_some in Hn as [? ->]. lia.
  - intros [Hn <-]. rewrite add_u64_fits by lia. cbn. rewrite add_u64_fits by lia. cbn.
    rewrite add_u64_fits by lia. cbn. rewrite add_u64_fits by lia. cbn.
    rewrite add_u64_fits by lia. f_equal. lia.
Qed.

Lemma bucket_slots_bound window : window_bucket_seconds window / 300 <= 288.
Proof. by destruct window. Qed.

(** A row is accepted exactly when it is consistent. *)
Lemma row_check node_id window from to row :
  row_nonneg row ->
  match status_total row with
  | Some total => negb (row_refused node_id window from to total row)
  | None => false
  end = true <-> row_acceptable node_id window from to row.
Proof.
  intros Hn. split.
  - destruct (status_total row) as [total|] eqn:Et; [|done]. intros Hr.
    apply status_total_some in Et as [_ Et]; [|done].
    unfold row_refused in Hr. bool_facts. split; try done; try congruence; try lia.
    + match goal with H : Bool.eqb _ _ = true |- _ => apply Bool.eqb_prop in H; rename H into Hd end.
      destruct (ru_duration_p50_ms row), (ru_duration_p95_ms row); cbn in Hd; bool_facts;
        split; try lia; intros []; done.
    + intros p50 p95 E50 E95. repeat case_match; simplify_eq. bool_facts. done.
  - intros []. assert (status_total row = Some (ru_health_samples row)) as ->.
    { apply status_total_some; [done|]. split; [|done].
      pose proof (bucket_slots_bound window). unfold u64_max. lia. }
    unfold row_refused. rewrite ra_node0, ra_bucket0, ra_from0, ra_to0, ra_slots0, ra_samples0.
    rewrite String.eqb_refl, !Z.eqb_refl. rewrite ra_slots0 in ra_covered0.
    rewrite !(proj2 (Z.ltb_ge _ _)) by done. cbn. apply negb_true_iff, orb_false_iff. split.
    + apply negb_false_iff, Bool.eqb_true_iff, eq_true_iff_eq. rewrite Z.eqb_eq, ra_durations0.
      rewrite andb_true_iff.
      by destruct (ru_duration_p50_ms row), (ru_duration_p95_ms row); split; intros [].
    + repeat case_match; try done. apply Z.ltb_ge. by apply ra_percentiles0.
Qed.

Lemma check_rows_ok node_id window from to rows : forall starts,
  Forall row_nonneg rows ->
  check_rows node_id window from to starts rows = true <->
  Forall (row_acceptable node_id window from to) rows /\ NoDup (map ru_bucket_start rows) /\
  (forall s, s ∈ map ru_bucket_start rows -> s ∉ starts).
Proof.
  induction rows as [|row rows IH]; intros starts Hn; cbn [check_rows map].
  { split; [|done]. intros _. split_and!; try constructor. by intros s ?%elem_of_nil. }
  apply Forall_cons in Hn as [Hrow Hn]. rewrite Forall_cons, NoDup_cons.
  rewrite <- (row_check node_id window from to row Hrow).
  destruct (status_total row) as [total|]; [|split; [done|]; by intros [[] _]].
  rewrite !andb_true_iff, IH by done. rewrite (negb_true_iff (bool_decide _)), bool_decide_eq_false. split.
  - intros [[Hr Hs] (Ha & Hd & Hin)]. split_and!; try done.
    + intros Hm. specialize (Hin _ Hm). set_solver.
    + intros s [->|Hs']%elem_of_cons; [done|]. specialize (Hin _ Hs'). set_solver.
  - intros ([Hr Ha] & [Hd Hnd] & Hin). split_and!; try done.
    + apply Hin. left.
    + intros s Hs' [->%elem_of_singleton|He]%elem_of_union; [done|]. by apply (Hin s); [right|].
Qed.

(** ** Sums *)

Lemma try_sum_fits l : forall acc,
  Forall (fun x => 0 <= x) l -> acc + foldr Z.add 0 l <= u64_max ->
  try_sum acc l = Some (acc + foldr Z.add 0 l).
Proof.
  induction l as [|x l IH]; intros acc Hl Hs; cbn in *; [by rewrite Z.add_0_r|].
  apply Forall_cons in Hl as [Hx Hl].
  assert (0 <= foldr Z.add 0 l) by (clear -Hl; induction Hl; cbn; lia).
  rewrite add_u64_fits by lia. cbn. rewrite IH by (done || lia). f_equal. lia.
Qed.

Lemma try_sum_some l n : forall acc, try_sum acc l = Some n -> acc <= u64_max -> n <= u64_max.
Proof.
  induction l as [|x l IH]; intros acc; cbn; [by intros [= ->]|].
  destruct (add_u64 acc x) as [m|] eqn:E; [|done]. apply add_u64_some in E as [Hm ->].
  intros Hs _. by eapply IH.
Qed.

Lemma sum_of_foldr field rows : sum_of field rows = foldr Z.add 0 (map field rows).
Proof. induction rows as [|row rows IH]; [done|]. cbn. by rewrite <- IH. Qed.

Lemma try_sum_of field rows :
  Forall (fun row => 0 <= field row) rows ->
  try_sum 0 (map field rows) = if sum_of field rows <=? u64_max then Some (sum_of field rows) else None.
Proof.
  intros Hn. assert (Forall (fun x => 0 <= x) (map field rows)) as Hl by by apply Forall_fmap.
  destruct (sum_of field rows <=? u64_max) eqn:E; bool_facts; rewrite sum_of_foldr in *.
  - by rewrite try_sum_fits.
  - assert (forall l acc, Forall (fun x => 0 <= x) l -> u64_max < acc + foldr Z.add 0 l ->
              acc <= u64_max -> try_sum acc l = None) as Hnone.
    { clear. induction l as [|x l IH]; intros acc Hl Hs Ha; cbn in *; [lia|].
      apply Forall_cons in Hl as [Hx Hl]. destruct (add_u64 acc x) as [m|] eqn:E; [|done].
      apply add_u64_some in E as [Hm ->]. cbn. apply IH; [done|lia|done]. }
    apply Hnone; [done|lia|unfold u64_max; lia].
Qed.

Lemma sum_of_cons field row rows : sum_of field (row :: rows) = field row + sum_of field rows.
Proof. done. Qed.

Lemma sum_of_nonneg field rows :
  Forall (fun row => 0 <= field row) rows -> 0 <= sum_of field rows.
Proof. induction 1; rewrite ?sum_of_cons; [done|lia]. Qed.

Lemma sum_of_le f g rows :
  Forall (fun row => f row <= g row) rows -> sum_of f rows <= sum_of g rows.
Proof. induction 1; rewrite ?sum_of_cons; [done|lia]. Qed.

Lemma sum_of_eq f g rows :
  Forall (fun row => f row = g row) rows -> sum_of f rows = sum_of g rows.
Proof. induction 1; rewrite ?sum_of_cons; [done|lia]. Qed.

Lemma sum_of_const f n rows :
  Forall (fun row => f row <= n) rows -> sum_of f rows <= n * Z.of_nat (length rows).
Proof. induction 1; rewrite ?sum_of_cons, ?length_cons; [cbn; lia|lia]. Qed.

Lemma sum_of_statuses rows :
  sum_of (fun row => foldr (fun field acc => field row + acc) 0 status_fields) rows
  = sum_of ru_healthy_count rows + sum_of ru_degraded_count rows + sum_of ru_unreachable_count rows
    + sum_of ru_stale_count rows + sum_of ru_disabled_count rows + sum_of ru_unknown_count rows.
Proof.
  induction rows as [|row rows IH]; [done|]. rewrite !sum_of_cons, IH. cbn [foldr status_fields]. lia.
Qed.

Lemma ratio_bounded n d : 0 <= n <= d -> basis_points (ratio_basis_points n d).
Proof.
  intros Hn. unfold ratio_basis_points, mul_u64. destruct (d =? 0) eqn:E; bool_facts; [done|].
  destruct (n * 10000 <=? u64_max); [|done]. cbn. split; [apply Z.div_pos; lia|].
  apply Z.div_le_upper_bound; lia.
Qed.

Lemma ratio_parts n d (unknown : Prop) :
  0 <= n -> 0 <= d -> (unknown <-> d = 0 \/ u64_max < n * 10000) ->
  parts_of n d unknown (ratio_basis_points n d).
Proof.
  intros Hn Hd Hu. unfold ratio_basis_points, mul_u64.
  destruct (d =? 0) eqn:E; bool_facts; [by apply Hu; left|].
  destruct (n * 10000 <=? u64_max) eqn:Em; bool_facts; [|by apply Hu; right].
  cbn. split_and!; [lia| | |rewrite Hu; lia]; Z.div_mod_to_equations; nia.
Qed.

Lemma fold_least l : forall x, foldl Z.min x l ∈ x :: l /\ Forall (fun y => foldl Z.min x l <= y) (x :: l).
Proof.
  induction l as [|y l IH]; intros x; cbn [foldl].
  { split; [by apply list_elem_of_here|]. by constructor. }
  destruct (IH (Z.min x y)) as [Hin Hle]. rewrite !Forall_cons in *. destruct Hle as [Hx Hl]. split.
  - rewrite !elem_of_cons in *. destruct Hin as [Hin|Hin]; [|auto]. rewrite Hin. lia.
  - split_and!; [lia|lia|done].
Qed.

Lemma fold_greatest l : forall x, foldl Z.max x l ∈ x :: l /\ Forall (fun y => y <= foldl Z.max x l) (x :: l).
Proof.
  induction l as [|y l IH]; intros x; cbn [foldl].
  { split; [by apply list_elem_of_here|]. by constructor. }
  destruct (IH (Z.max x y)) as [Hin Hle]. rewrite !Forall_cons in *. destruct Hle as [Hx Hl]. split.
  - rewrite !elem_of_cons in *. destruct Hin as [Hin|Hin]; [|auto]. rewrite Hin. lia.
  - split_and!; [lia|lia|done].
Qed.

Lemma list_min_least l : least l (list_min l).
Proof. destruct l as [|x l]; [done|]. apply fold_least. Qed.

Lemma list_max_greatest l : greatest l (list_max l).
Proof. destruct l as [|x l]; [done|]. apply fold_greatest. Qed.

(** What acceptable rows sum up to. *)
Lemma acceptable_sums node_id window from to rows :
  Forall row_nonneg rows -> rows_acceptable node_id window from to rows ->
  sum_of ru_health_samples rows = sum_of ru_covered_slots rows /\
  sum_of ru_healthy_count rows + sum_of ru_degraded_count rows + sum_of ru_unreachable_count rows
    + sum_of ru_stale_count rows + sum_of ru_disabled_count rows + sum_of ru_unknown_count rows
    = sum_of ru_covered_slots rows /\
  0 <= sum_of ru_covered_slots rows <= window_seconds window / 300 /\
  sum_of ru_observation_error_count rows <= sum_of ru_observation_count rows.
Proof.
  intros Hn [Hc Hr _]. rewrite <- sum_of_statuses. split_and!.
  - apply sum_of_eq. eapply Forall_impl; [exact Hr|]. by intros row [].
  - apply sum_of_eq. eapply Forall_impl; [exact Hr|]. intros row []. congruence.
  - apply sum_of_nonneg. eapply Forall_impl; [exact Hn|]. by intros row [[] _]%row_nonneg_fields.
  - transitivity ((window_bucket_seconds window / 300) * Z.of_nat (length rows)).
    + apply sum_of_const. eapply Forall_impl; [exact Hr|]. intros row []. lia.
    + transitivity (window_bucket_seconds window / 300 * expected_buckets window);
        [apply Z.mul_le_mono_nonneg_l; [by destruct window|done]|by destruct window].
  - apply sum_of_le. eapply Forall_impl; [exact Hr|]. by intros row [].
Qed.

Lemma nonneg_field field rows :
  Forall row_nonneg rows -> field ∈ ru_covered_slots :: ru_health_samples :: status_fields ++ open_fields ->
  Forall (fun row => 0 <= field row) rows.
Proof.
  intros Hn Hf. eapply Forall_impl; [exact Hn|]. intros row Hr. unfold row_nonneg in Hr.
  rewrite Forall_forall in Hr. by apply Hr.
Qed.

Ltac field_listed := repeat first [by apply list_elem_of_here | apply list_elem_of_further].

(** One step through the chain of checked operations: a result that the window
    bounds is computed, an open counter either fits or ends the chain. *)
Ltac checked_step :=
  cbn [mbind option_bind];
  match goal with
  | |- context [add_u64 ?a ?b] => rewrite (add_u64_fits a b) by (unfold u64_max; lia)
  | |- context [mul_u64 ?a 300] => rewrite (mul_u64_fits a 300) by (unfold u64_max; lia)
  | |- context [sub_u64 ?a ?b] =>
      unfold sub_u64; rewrite (proj2 (Z.leb_le b a)) by lia
  | |- context [?x <=? u64_max] =>
      first [rewrite (proj2 (Z.leb_le x u64_max)) by (unfold u64_max; lia)
            |destruct (x <=? u64_max) eqn:?]
  end.

Lemma status_sums_nonneg rows :
  Forall row_nonneg rows ->
  (0 <= sum_of ru_healthy_count rows /\ 0 <= sum_of ru_degraded_count rows /\
   0 <= sum_of ru_unreachable_count rows /\ 0 <= sum_of ru_stale_count rows /\
   0 <= sum_of ru_disabled_count rows /\ 0 <= sum_of ru_unknown_count rows) /\
  0 <= sum_of ru_observation_error_count rows.
Proof. intros Hn. split_and!; apply sum_of_nonneg, nonneg_field; try done; field_listed. Qed.

(** The sums of the statuses fit, so the projection exists exactly when the
    open counters fit. *)
Lemma project_acceptable node_id window from to rows :
  Forall row_nonneg rows -> rows_acceptable node_id window from to rows ->
  (forall p, project_health_slo node_id window from to rows = Some p -> projection_exact node_id window from to rows p) /\
  (counts_fit rows <-> is_Some (project_health_slo node_id window from to rows)).
Proof.
  intros Hn Ha. destruct (acceptable_sums _ _ _ _ _ Hn Ha) as (Hh & Hst & Hcov & Herr).
  destruct Ha as [Hc Hr Hd]. destruct (status_sums_nonneg _ Hn) as [? ?].
  assert (0 < window_seconds window / 300 <= 8640) as Hw by by destruct window.
  assert (window_seconds window / 300 * 300 = window_seconds window) as Hws by by destruct window.
  unfold project_health_slo. cbv zeta. fold (expected_buckets window).
  rewrite (proj2 (Z.ltb_ge _ _) Hc).
  rewrite (proj2 (check_rows_ok node_id window from to rows ∅ Hn)) by (split_and!; set_solver).
  cbn [negb]. rewrite !try_sum_of by (apply nonneg_field; [done|field_listed]).
  unfold counts_fit, open_fields. rewrite !Forall_cons.
  repeat checked_step; bool_facts.
  all: try (split; [done|]; split; [intros; lia|by intros []]).
  split; [|split; [done|]; intros _; by split_and!].
  intros p [= <-]. rewrite !Z.min_l by lia.
  split; unfold counter_columns, duration_counters; rewrite ?Forall_cons; cbn; split_and?;
    try done; try apply ratio_bounded; try lia; try apply list_min_least;
    try apply list_max_greatest; try (by destruct window); try (apply ratio_parts; unfold u64_max; lia).
Qed.

(** C33: For rows whose counters are unsigned numbers, a health projection
    exists exactly when every row is consistent, no bucket is repeated and the
    counters that the window does not bound stay within 64 bits.  Every counter
    of it is the sum of its column over the rows, every duration is 300 seconds
    for each slot of its counter, covered and missing slots make up the window,
    and the samples are split by status without remainder.  Availability and
    strict health are parts of the samples that are neither disabled nor unknown,
    in ten thousandths rounded down, between 0 and 10000, and unknown only when
    there is nothing to divide by (for the observation errors, also when the
    product leaves 64 bits).  The latencies are the extremes of the percentiles
    of the rows. *)
Theorem slo_projection_correct node_id window from to rows :
  Forall row_nonneg rows ->
  (is_Some (project_health_slo node_id window from to rows) <->
   rows_acceptable node_id window from to rows /\ counts_fit rows) /\
  (forall p, project_health_slo node_id window from to rows = Some p -> projection_exact node_id window from to rows p).
Proof.
  intros Hn.
  assert (is_Some (project_health_slo node_id window from to rows) ->
          rows_acceptable node_id window from to rows) as Hacc.
  { unfold project_health_slo. cbv zeta. fold (expected_buckets window).
    destruct (expected_buckets window <? _) eqn:Ec; [by intros []|].
    destruct (check_rows _ _ _ _ _ _) eqn:Er; [|by intros []]. intros _. bool_facts.
    apply check_rows_ok in Er as (Hr & Hd & _); [|done]. by split. }
  split.
  - split; [intros Hs; split; [auto|]|intros [Ha Hf]];
      apply (project_acceptable node_id window from to rows Hn); auto.
  - intros p Hp. apply (project_acceptable node_id window from to rows Hn); [|done]. apply Hacc. by exists p.
Qed.

(** Two buckets of one day, one of them with gaps. *)
Definition sample_row (start : string) (covered healthy degraded : Z) : HealthRollupRecord :=
  {| ru_node_id := "node-a"; ru_bucket_seconds := 3600; ru_bucket_start := start;
     ru_bucket_end := "end"; ru_input_watermark := "w"; ru_health_samples := covered;
     ru_covered_slots := covered; ru_expected_slots := 12; ru_healthy_count := healthy;
     ru_degraded_count := degraded; ru_unreachable_count := covered - healthy - degraded;
     ru_stale_count := 0; ru_disabled_count := 0; ru_unknown_count := 0; ru_observation_count := 5;
     ru_observation_error_count := 1; ru_duration_sample_count := 5; ru_duration_p50_ms := Some 10;
     ru_duration_p95_ms := Some 50; ru_cert_warning_count := 1; ru_cert_critical_count := 0;
     ru_fingerprint_sample_count := 2; ru_fingerprint_change_count := 1; ru_computed_at := "end" |}.

Definition sample_rows : list HealthRollupRecord :=
  [sample_row "2026-07-11T00:00:00Z" 10 7 1; sample_row "2026-07-11T01:00:00Z" 12 12 0].

Lemma slo_projection_correct_witness :
  (sp_covered_slots <$> project_health_slo "node-a" Days7 "2026-07-05T00:00:00Z" "2026-07-12T00:00:00Z"
                          sample_rows) = Some 22 /\
  rows_acceptable "node-a" Days7 "2026-07-05T00:00:00Z" "2026-07-12T00:00:00Z" sample_rows.
Proof.
  split; [by vm_compute|].
  apply (slo_projection_correct "node-a" Days7 "2026-07-05T00:00:00Z" "2026-07-12T00:00:00Z").
  - repeat constructor; done.
  - by vm_compute; eexists.
Defined.
