(* ===== verification/ApiPayloads.v ===== *)
(** * ApiPayloads: stored documents that the API reads back
      (ocfleet-cli/src/storage_payloads.rs: AlertDetailPayloadV1,
      AuditDetailPayloadV1, the public form of an observation) *)

From stdpp Require Import pretty.
From S2P Require Import Prelude Text External Wire InputValidation StoreTypes StoredText.
From S2P Require Import StoragePayloads ObservationPayloads AlertWebhook.

(** [Map::insert] into a map that is kept in the order of its keys. *)
Fixpoint map_insert (k : string) (v : Value) (m : list (string * Value)) : list (string * Value) :=
  match m with
  | [] => [(k, v)]
  | (k', v') :: m' =>
      if String.eqb k k' then (k, v) :: m'
      else if str_ltb k k' then (k, v) :: m
      else (k', v') :: map_insert k v m'
  end.

(** [serde_json::to_value] of a struct: its fields in the order of their names. *)
Definition struct_value (fields : list (string * Value)) : Value :=
  VObject (foldr (fun e m => map_insert e.1 e.2 m) [] fields).

(** ** AlertDetailPayloadV1 *)

Definition ALERT_DETAIL_SCHEMA_V1 : string := "ocfleet.alert.detail.v1".

Record AlertSummaryFieldsV1 := {
  asf_freshness_seconds : option Z;
  asf_consecutive_failures : option Z;
  asf_days_remaining : option Z;
  asf_endpoint_id : option string;
  asf_status : option string;
  asf_last_error_code : option string;
  asf_endpoint_status : option string;
  asf_result_class : option string;
}.

Record AlertDetailPayloadV1 := {
  adl_schema : string;
  adl_methods : list string;
  adl_summary : AlertSummaryFieldsV1;
  adl_silenced_until : option string;
  adl_silence_reason : option string;
  adl_resolve_reason : option string;
}.

Definition asf_value (s : AlertSummaryFieldsV1) : list (string * Value) :=
  [("consecutive_failures", json_of_opt_u64 (asf_consecutive_failures s));
   ("days_remaining", json_opt json_i64 (asf_days_remaining s));
   ("endpoint_id", json_of_opt_str (asf_endpoint_id s));
   ("endpoint_status", json_of_opt_str (asf_endpoint_status s));
   ("freshness_seconds", json_of_opt_u64 (asf_freshness_seconds s));
   ("last_error_code", json_of_opt_str (asf_last_error_code s));
   ("result_class", json_of_opt_str (asf_result_class s));
   ("status", json_of_opt_str (asf_status s))].

Definition adl_to_value (p : AlertDetailPayloadV1) : Value :=
  VObject [("methods", json_strs (adl_methods p));
           ("resolve_reason", json_of_opt_str (adl_resolve_reason p));
           ("schema", VString (adl_schema p));
           ("silence_reason", json_of_opt_str (adl_silence_reason p));
           ("silenced_until", json_of_opt_str (adl_silenced_until p));
           ("summary", VObject (asf_value (adl_summary p)))].

Definition adl_public_detail (p : AlertDetailPayloadV1) : Value :=
  VObject (retain_non_null
    [("methods", json_strs (adl_methods p));
     ("resolve_reason", json_of_opt_str (adl_resolve_reason p));
     ("silence_reason", json_of_opt_str (adl_silence_reason p));
     ("silenced_until", json_of_opt_str (adl_silenced_until p));
     ("summary", VObject (retain_non_null (asf_value (adl_summary p))))]).

Definition asf_decode (v : Value) : option AlertSummaryFieldsV1 :=
  match default_fields ["freshness_seconds"; "consecutive_failures"; "days_remaining"; "endpoint_id";
          "status"; "last_error_code"; "endpoint_status"; "result_class"] v with
  | Some [a; b; c; d; e; f; g; h] =>
      match de_opt as_u64 a, de_opt as_u64 b, de_opt value_as_i64 c, de_opt as_str d,
            de_opt as_str e, de_opt as_str f, de_opt as_str g, de_opt as_str h with
      | Some a, Some b, Some c, Some d, Some e, Some f, Some g, Some h =>
          Some {| asf_freshness_seconds := a; asf_consecutive_failures := b;
                  asf_days_remaining := c; asf_endpoint_id := d; asf_status := e;
                  asf_last_error_code := f; asf_endpoint_status := g; asf_result_class := h |}
      | _, _, _, _, _, _, _, _ => None
      end
  | _ => None
  end.

Definition adl_decode (v : Value) : option AlertDetailPayloadV1 :=
  match opt_struct_fields [("schema", false); ("methods", false); ("summary", false);
          ("silenced_until", true); ("silence_reason", true); ("resolve_reason", true)] v with
  | Some [a; b; c; d; e; f] =>
      match as_str a, de_vec as_str b, asf_decode c, de_opt as_str d, de_opt as_str e,
            de_opt as_str f with
      | Some a, Some b, Some c, Some d, Some e, Some f =>
          Some {| adl_schema := a; adl_methods := b; adl_summary := c; adl_silenced_until := d;
                  adl_silence_reason := e; adl_resolve_reason := f |}
      | _, _, _, _, _, _ => None
      end
  | _ => None
  end.

(** [o.is_some_and(p)]. *)
Definition is_some_and {A} (p : A -> bool) (o : option A) : bool :=
  match o with Some a => p a | None => false end.

Definition alert_summary_statuses : list string :=
  ["healthy"; "degraded"; "unreachable"; "stale"; "disabled"; "unknown"; "ok"; "warning";
   "critical"; "expired"; "expiring_soon"; "unreadable"; "valid"; "invalid"; "unavailable"].

Definition asf_validate (s : AlertSummaryFieldsV1) : result string unit :=
  reject? is_some_and (fun value => u32_max <? value) (asf_freshness_seconds s)
          || is_some_and (fun value => u32_max <? value) (asf_consecutive_failures s)
    as "alert summary count is out of range" in
  reject? is_some_and (fun value => negb (in_range (-365000) 365000 value)) (asf_days_remaining s)
    as "alert summary days remaining is out of range" in
  let? _ := opt_check (fun id => validate_fixed_id id 128 "alert summary endpoint ID")
                      (asf_endpoint_id s) in
  reject? is_some_and (fun status => negb (str_in_list status alert_summary_statuses)) (asf_status s)
    as "alert summary status is unsupported" in
  let? _ := opt_check (fun code => validate_fixed_id code 128 "alert summary error code")
                      (asf_last_error_code s) in
  reject? is_some_and (fun status => negb (str_in_list status
            ["active"; "rotated"; "revoked"; "quarantined"])) (asf_endpoint_status s)
    as "alert summary endpoint status is unsupported" in
  reject? is_some_and (fun class => negb (str_in_list class observation_result_classes))
            (asf_result_class s)
    as "alert summary result class is unsupported" in
  Ok tt.

(** The loop over the methods; [seen] is the set of earlier ones. *)
Fixpoint alert_methods_loop (seen : list string) (methods : list string) : result string unit :=
  match methods with
  | [] => Ok tt
  | method :: rest =>
      check? is_allowed_alert_method method else "alert detail contains an unsupported method" in
      reject? str_in_list method seen as "alert detail methods must be unique" in
      alert_methods_loop (method :: seen) rest
  end.

Section payloads.
Context `{JsonOps, TimeOps}.

Definition adl_validate (p : AlertDetailPayloadV1) : result string unit :=
  check? String.eqb (adl_schema p) ALERT_DETAIL_SCHEMA_V1
    else "alert detail payload schema is unsupported" in
  reject? 8 <? Z.of_nat (length (adl_methods p)) as "alert detail has too many methods" in
  let? _ := alert_methods_loop [] (adl_methods p) in
  let? _ := asf_validate (adl_summary p) in
  reject? is_some_and (fun until => (64 <? str_len until)
                                    || negb (bool_decide (is_Some (rfc3339_parse until))))
            (adl_silenced_until p)
    as "alert silence deadline must be bounded RFC3339" in
  let? _ := opt_check validate_reason (adl_silence_reason p) in
  let? _ := opt_check validate_reason (adl_resolve_reason p) in
  map_err invalid_input_text (validate_low_sensitive_json (adl_to_value p) "alert detail payload").

Definition adl_new (methods : list string) (summary : AlertSummaryFieldsV1)
    (silenced_until silence_reason resolve_reason : option string)
    : result string AlertDetailPayloadV1 :=
  let payload := {| adl_schema := ALERT_DETAIL_SCHEMA_V1; adl_methods := methods;
                    adl_summary := summary; adl_silenced_until := silenced_until;
                    adl_silence_reason := silence_reason; adl_resolve_reason := resolve_reason |} in
  let? _ := adl_validate payload in
  Ok payload.

Definition adl_from_value (v : Value) : result string AlertDetailPayloadV1 :=
  let? payload := ok_or (adl_decode v) "alert detail payload is not closed v1 data" in
  let? _ := adl_validate payload in
  Ok payload.

(** ** AuditDetailPayloadV1 *)

(** [AuditDetailRecordV1]: the schema and the columns it repeats. *)
Definition adr_decode (v : Value) : option (string * AuditEvent) :=
  match opt_struct_fields [("schema", false); ("ts", false); ("actor", false); ("event", false);
          ("node_id", true); ("endpoint_id", true); ("method", true); ("request_id", true);
          ("params_hash", true); ("ok", true); ("error_code", true); ("duration_ms", true)] v with
  | Some [a; b; c; d; e; f; g; h; i; j; k; l] =>
      match as_str a, as_str b, as_str c, as_str d, de_opt as_str e, de_opt as_str f,
            de_opt as_str g, de_opt as_str h, de_opt as_str i, de_opt as_bool j, de_opt as_str k,
            de_opt as_u64 l with
      | Some a, Some b, Some c, Some d, Some e, Some f, Some g, Some h, Some i, Some j, Some k,
        Some l =>
          Some (a, {| ae_ts := b; ae_actor := c; ae_event := d; ae_node_id := e;
                      ae_endpoint_id := f; ae_method := g; ae_request_id := h; ae_params_hash := i;
                      ae_ok := j; ae_error_code := k; ae_duration_ms := l;
                      ae_detail_json := Null |})
      | _, _, _, _, _, _, _, _, _, _, _, _ => None
      end
  | _ => None
  end.

(** The other members are flattened into the fields. *)
Definition adp_from_value (v : Value) : result string AuditDetailPayloadV1 :=
  let failure := "audit detail payload is not closed v1 data" in
  let? members := ok_or (as_object v) failure in
  let? (schema, record) := ok_or (map_get "_audit" members ≫= adr_decode) failure in
  let payload := {| adp_record := record;
                    adp_fields := List.filter (fun e => negb (String.eqb e.1 "_audit")) members |} in
  check? String.eqb schema AUDIT_DETAIL_SCHEMA_V1
    else "audit detail payload schema is unsupported" in
  let? _ := adp_validate payload in
  Ok payload.

Definition adp_public_detail (p : AuditDetailPayloadV1) : Value := VObject (adp_fields p).

Definition adp_validate_relationship (p : AuditDetailPayloadV1) (e : AuditEvent)
    : result string unit :=
  let r := adp_record p in
  reject? negb (String.eqb (ae_ts r) (ae_ts e)) || negb (String.eqb (ae_actor r) (ae_actor e))
          || negb (String.eqb (ae_event r) (ae_event e))
          || bool_decide (ae_node_id r <> ae_node_id e)
          || bool_decide (ae_endpoint_id r <> ae_endpoint_id e)
          || bool_decide (ae_method r <> ae_method e)
          || bool_decide (ae_request_id r <> ae_request_id e)
          || bool_decide (ae_params_hash r <> ae_params_hash e)
          || bool_decide (ae_ok r <> ae_ok e)
          || bool_decide (ae_error_code r <> ae_error_code e)
          || bool_decide (ae_duration_ms r <> ae_duration_ms e)
    as "audit detail payload does not match its relational record" in
  Ok tt.

End payloads.

(** ** ObservationSummaryPayloadV1 *)

Definition osp_public_summary (p : ObservationSummaryPayloadV1) : Value :=
  VObject (map_insert "result_class" (VString (osp_result_class p)) (retain_non_null (osp_fields p))).
