(* ===== verification/VersionGovernance.v ===== *)
(** * VersionGovernance: agent versions against the declared ones
      (ocfleet-cli/src/version_governance.rs)

    For every node the declared agent version is compared with the one that its
    last capability exchange reported, and the protocol and snapshot schema with
    those the controller needs.  semver is a parameter. *)

From stdpp Require Import pretty.
From S2P Require Import Prelude Text External Ordering Wire StoreTypes ApiPayloads.

Definition MAX_VERSION_GOVERNANCE_NODES : Z := 1000.
Definition REQUIRED_OCSERV_SNAPSHOT_SCHEMA : Z := 2.

Inductive CapabilityNegotiationStatus :=
| NegCompatible | IncompatibleProtocol | UnsupportedCapability | LegacyUnsupported | InvalidResponse.

#[export] Instance CapabilityNegotiationStatus_eq_dec : EqDecision CapabilityNegotiationStatus.
Proof. solve_decision. Defined.

Definition negotiation_as_str (s : CapabilityNegotiationStatus) : string :=
  match s with
  | NegCompatible => "compatible" | IncompatibleProtocol => "incompatible_protocol"
  | UnsupportedCapability => "unsupported_capability" | LegacyUnsupported => "legacy_unsupported"
  | InvalidResponse => "invalid_response"
  end.

Record CapabilitySnapshot := {
  cap_node_id : string;
  cap_endpoint_id : string;
  cap_observed_at : string;
  cap_status : CapabilityNegotiationStatus;
  cap_agent_version : option string;
  cap_protocol_min : option Z;
  cap_protocol_max : option Z;
  cap_ocserv_snapshot_min : option Z;
  cap_ocserv_snapshot_max : option Z;
  cap_controlled_writes_compiled : option bool;
  cap_controlled_writes_locally_enabled : option bool;
}.

Definition out_of_u16 (value : option Z) : bool :=
  match value with Some v => (v =? 0) || (u16_max <? v) | None => false end.

Definition bad_range (range : option Z * option Z) : bool :=
  let '(min, max) := range in
  negb (Bool.eqb (bool_decide (is_Some min)) (bool_decide (is_Some max)))
  || out_of_u16 min || out_of_u16 max
  || match min, max with Some a, Some b => b <? a | _, _ => false end.

Definition capability_complete (c : CapabilitySnapshot) : bool :=
  bool_decide (is_Some (cap_agent_version c)) && bool_decide (is_Some (cap_protocol_min c))
  && bool_decide (is_Some (cap_ocserv_snapshot_min c))
  && bool_decide (is_Some (cap_controlled_writes_compiled c)).

Definition capability_carries_fields (c : CapabilitySnapshot) : bool :=
  bool_decide (is_Some (cap_agent_version c)) || bool_decide (is_Some (cap_protocol_min c))
  || bool_decide (is_Some (cap_ocserv_snapshot_min c))
  || bool_decide (is_Some (cap_controlled_writes_compiled c)).

(** [CapabilitySnapshot::validate]. *)
Definition capability_validate (c : CapabilitySnapshot) : result string unit :=
  reject? str_is_empty (cap_node_id c) || (128 <? str_len (cap_node_id c))
          || str_is_empty (cap_endpoint_id c) || (128 <? str_len (cap_endpoint_id c))
          || str_is_empty (cap_observed_at c) || (64 <? str_len (cap_observed_at c))
          || match cap_agent_version c with
             | Some value => str_is_empty value || (64 <? str_len value)
             | None => false
             end
    as "capability snapshot identity or text bound is invalid" in
  reject? existsb bad_range [(cap_protocol_min c, cap_protocol_max c);
                             (cap_ocserv_snapshot_min c, cap_ocserv_snapshot_max c)]
    as "capability snapshot version range is invalid" in
  reject? negb (Bool.eqb (bool_decide (is_Some (cap_controlled_writes_compiled c)))
                         (bool_decide (is_Some (cap_controlled_writes_locally_enabled c))))
          || bool_decide (cap_controlled_writes_locally_enabled c = Some true)
             && bool_decide (cap_controlled_writes_compiled c <> Some true)
    as "capability snapshot controlled-write state is invalid" in
  match cap_status c with
  | NegCompatible | IncompatibleProtocol | UnsupportedCapability =>
      if capability_complete c then Ok tt
      else Err "trusted capability status requires complete fields"
  | LegacyUnsupported | InvalidResponse =>
      if capability_carries_fields c
      then Err "untrusted capability status cannot carry response fields"
      else Ok tt
  end.

Record VersionGovernanceInput := {
  vi_node_id : string;
  vi_enabled : bool;
  vi_expected_agent_version : option string;
  vi_capability : option CapabilitySnapshot;
}.

Inductive VersionStatus :=
| Current | Ahead | Outdated | PolicyMissing | UnknownVersion | InvalidExpectedVersion
| InvalidObservedVersion.

#[export] Instance VersionStatus_eq_dec : EqDecision VersionStatus.
Proof. solve_decision. Defined.

Inductive CompatibilityStatus := CompCompatible | CompIncompatible | CompUnknown.

#[export] Instance CompatibilityStatus_eq_dec : EqDecision CompatibilityStatus.
Proof. solve_decision. Defined.

Inductive ReadinessStatus := Ready | Blocked | ReadinessUnknown | Disabled.

#[export] Instance ReadinessStatus_eq_dec : EqDecision ReadinessStatus.
Proof. solve_decision. Defined.

Definition version_status_str (s : VersionStatus) : string :=
  match s with
  | Current => "current" | Ahead => "ahead" | Outdated => "outdated"
  | PolicyMissing => "policy_missing" | UnknownVersion => "unknown_version"
  | InvalidExpectedVersion => "invalid_expected_version"
  | InvalidObservedVersion => "invalid_observed_version"
  end.
Definition compatibility_str (s : CompatibilityStatus) : string :=
  match s with
  | CompCompatible => "compatible" | CompIncompatible => "incompatible" | CompUnknown => "unknown"
  end.
Definition readiness_str (s : ReadinessStatus) : string :=
  match s with
  | Ready => "ready" | Blocked => "blocked" | ReadinessUnknown => "unknown" | Disabled => "disabled"
  end.

Record NodeVersionReadiness := {
  vr_node_id : string;
  vr_enabled : bool;
  vr_expected_agent_version : option string;
  vr_observed_agent_version : option string;
  vr_observed_at : option string;
  vr_negotiation_status : option CapabilityNegotiationStatus;
  vr_version_status : VersionStatus;
  vr_protocol_status : CompatibilityStatus;
  vr_provider_schema_status : CompatibilityStatus;
  vr_readiness : ReadinessStatus;
  vr_actions_enabled : bool;
}.

Record VersionDriftAlert := {
  vd_node_id : string;
  vd_severity : string;
  vd_reason_code : string;
  vd_version_status : VersionStatus;
  vd_protocol_status : CompatibilityStatus;
  vd_provider_schema_status : CompatibilityStatus;
  vd_observed_agent_version : option string;
  vd_expected_agent_version : option string;
}.

Record FleetVersionReport := {
  fv_schema : string;
  fv_required_protocol : Z;
  fv_required_ocserv_snapshot_schema : Z;
  fv_node_count : Z;
  fv_ready_count : Z;
  fv_blocked_count : Z;
  fv_unknown_count : Z;
  fv_disabled_count : Z;
  fv_outdated_count : Z;
  fv_protocol_incompatible_count : Z;
  fv_provider_incompatible_count : Z;
  fv_alert_count : Z;
  fv_distribution : list (string * Z);
  fv_nodes : list NodeVersionReadiness;
  fv_alerts : list VersionDriftAlert;
  fv_actions_enabled : bool;
}.

(** [semver::Version]: parsing and the order of precedence. *)
Class SemverOps := {
  Version : Type;
  version_parse : string -> option Version;
  version_cmp : Version -> Version -> comparison;
}.

Definition in_versions (min max required : Z) : bool := (min <=? required) && (required <=? max).

Definition protocol_status (c : CapabilitySnapshot) : CompatibilityStatus :=
  match cap_status c with
  | IncompatibleProtocol | UnsupportedCapability => CompIncompatible
  | LegacyUnsupported | InvalidResponse => CompUnknown
  | NegCompatible =>
      match cap_protocol_min c, cap_protocol_max c with
      | Some min, Some max => if in_versions min max PROTOCOL_VERSION then CompCompatible
                              else CompIncompatible
      | _, _ => CompUnknown
      end
  end.

Definition provider_status (c : CapabilitySnapshot) : CompatibilityStatus :=
  match protocol_status c with
  | CompCompatible =>
      match cap_ocserv_snapshot_min c, cap_ocserv_snapshot_max c with
      | Some min, Some max => if in_versions min max REQUIRED_OCSERV_SNAPSHOT_SCHEMA
                              then CompCompatible else CompIncompatible
      | _, _ => CompUnknown
      end
  | _ => CompUnknown
  end.

Section governance.
Context `{SemverOps}.

Definition compare_versions (expected observed : option string) : VersionStatus :=
  match expected with
  | None => PolicyMissing
  | Some expected =>
      match version_parse expected with
      | None => InvalidExpectedVersion
      | Some expected =>
          match observed with
          | None => UnknownVersion
          | Some observed =>
              match version_parse observed with
              | None => InvalidObservedVersion
              | Some observed =>
                  match version_cmp observed expected with
                  | Lt => Outdated
                  | Eq => Current
                  | Gt => Ahead
                  end
              end
          end
      end
  end.

Definition project_node (input : VersionGovernanceInput) : NodeVersionReadiness :=
  let capability := vi_capability input in
  let observed := capability ≫= cap_agent_version in
  let version_status := compare_versions (vi_expected_agent_version input) observed in
  let protocol := default CompUnknown (protocol_status <$> capability) in
  let provider := default CompUnknown (provider_status <$> capability) in
  let readiness :=
    if negb (vi_enabled input) then Disabled
    else if bool_decide (version_status = Outdated) || bool_decide (protocol = CompIncompatible)
            || bool_decide (provider = CompIncompatible) then Blocked
    else if (bool_decide (version_status = Current) || bool_decide (version_status = Ahead))
            && bool_decide (protocol = CompCompatible) && bool_decide (provider = CompCompatible)
         then Ready
    else ReadinessUnknown in
  {| vr_node_id := vi_node_id input; vr_enabled := vi_enabled input;
     vr_expected_agent_version := vi_expected_agent_version input;
     vr_observed_agent_version := observed; vr_observed_at := cap_observed_at <$> capability;
     vr_negotiation_status := cap_status <$> capability; vr_version_status := version_status;
     vr_protocol_status := protocol; vr_provider_schema_status := provider;
     vr_readiness := readiness; vr_actions_enabled := false |}.

Definition node_alert (n : NodeVersionReadiness) (severity reason_code : string) : VersionDriftAlert :=
  {| vd_node_id := vr_node_id n; vd_severity := severity; vd_reason_code := reason_code;
     vd_version_status := vr_version_status n; vd_protocol_status := vr_protocol_status n;
     vd_provider_schema_status := vr_provider_schema_status n;
     vd_observed_agent_version := vr_observed_agent_version n;
     vd_expected_agent_version := vr_expected_agent_version n |}.

Definition version_drift_alerts (nodes : list NodeVersionReadiness) : list VersionDriftAlert :=
  flat_map (fun n =>
    (if bool_decide (vr_version_status n = Outdated)
     then [node_alert n "warning" "AGENT_VERSION_OUTDATED"] else [])
    ++ (if bool_decide (vr_protocol_status n = CompIncompatible)
        then [node_alert n "critical" "PROTOCOL_INCOMPATIBLE"] else [])
    ++ (if bool_decide (vr_provider_schema_status n = CompIncompatible)
        then [node_alert n "critical" "PROVIDER_SCHEMA_INCOMPATIBLE"] else []))
    (List.filter vr_enabled nodes).

(** [windows(2).any(..)] on the sorted inputs. *)
Fixpoint adjacent_equal (l : list string) : bool :=
  match l with
  | x :: (y :: _) as rest => String.eqb x y || adjacent_equal rest
  | _ => false
  end.

Definition count_if {A} (p : A -> bool) (l : list A) : Z := Z.of_nat (length (List.filter p l)).

(** The reported versions in the order of their text, with the number of nodes
    of each. *)
Definition version_distribution (inputs : list VersionGovernanceInput) : list (string * Z) :=
  let versions := omap (fun i => vi_capability i ≫= cap_agent_version) inputs in
  map (fun version => (version, count_if (String.eqb version) versions))
      (btree_iter (list_to_set versions)).

Definition build_fleet_version_report (inputs : list VersionGovernanceInput)
    : result string FleetVersionReport :=
  reject? MAX_VERSION_GOVERNANCE_NODES <? Z.of_nat (length inputs)
    as ("version governance node count exceeds " +:+ pretty MAX_VERSION_GOVERNANCE_NODES) in
  let inputs := sort_by (fun i => [Some (vi_node_id i)]) inputs in
  reject? adjacent_equal (map vi_node_id inputs)
    as "version governance contains duplicate node IDs" in
  let nodes := map project_node inputs in
  let count_readiness status := count_if (fun n => bool_decide (vr_readiness n = status)) nodes in
  let alerts := version_drift_alerts nodes in
  Ok {| fv_schema := "ocfleet.version-readiness.v1"; fv_required_protocol := PROTOCOL_VERSION;
        fv_required_ocserv_snapshot_schema := REQUIRED_OCSERV_SNAPSHOT_SCHEMA;
        fv_node_count := Z.of_nat (length nodes);
        fv_ready_count := count_readiness Ready;
        fv_blocked_count := count_readiness Blocked;
        fv_unknown_count := count_readiness ReadinessUnknown;
        fv_disabled_count := count_readiness Disabled;
        fv_outdated_count := count_if (fun n => bool_decide (vr_version_status n = Outdated)) nodes;
        fv_protocol_incompatible_count :=
          count_if (fun n => bool_decide (vr_protocol_status n = CompIncompatible)) nodes;
        fv_provider_incompatible_count :=
          count_if (fun n => bool_decide (vr_provider_schema_status n = CompIncompatible)) nodes;
        fv_alert_count := Z.of_nat (length alerts);
        fv_distribution := version_distribution inputs;
        fv_nodes := nodes; fv_alerts := alerts; fv_actions_enabled := false |}.

End governance.

(** ** The report as JSON *)

Definition readiness_json (n : NodeVersionReadiness) : Value :=
  struct_value [("node_id", VString (vr_node_id n)); ("enabled", VBool (vr_enabled n));
           ("expected_agent_version", json_opt_str (vr_expected_agent_version n));
           ("observed_agent_version", json_opt_str (vr_observed_agent_version n));
           ("observed_at", json_opt_str (vr_observed_at n));
           ("negotiation_status",
             json_opt_str (negotiation_as_str <$> vr_negotiation_status n));
           ("version_status", VString (version_status_str (vr_version_status n)));
           ("protocol_status", VString (compatibility_str (vr_protocol_status n)));
           ("provider_schema_status", VString (compatibility_str (vr_provider_schema_status n)));
           ("readiness", VString (readiness_str (vr_readiness n)));
           ("actions_enabled", VBool (vr_actions_enabled n))].

Definition drift_alert_json (a : VersionDriftAlert) : Value :=
  struct_value [("node_id", VString (vd_node_id a)); ("severity", VString (vd_severity a));
           ("reason_code", VString (vd_reason_code a));
           ("version_status", VString (version_status_str (vd_version_status a)));
           ("protocol_status", VString (compatibility_str (vd_protocol_status a)));
           ("provider_schema_status", VString (compatibility_str (vd_provider_schema_status a)));
           ("observed_agent_version", json_opt_str (vd_observed_agent_version a));
           ("expected_agent_version", json_opt_str (vd_expected_agent_version a))].

Definition report_json (r : FleetVersionReport) : Value :=
  struct_value [("schema", VString (fv_schema r)); ("required_protocol", json_u64 (fv_required_protocol r));
           ("required_ocserv_snapshot_schema", json_u64 (fv_required_ocserv_snapshot_schema r));
           ("node_count", json_u64 (fv_node_count r)); ("ready_count", json_u64 (fv_ready_count r));
           ("blocked_count", json_u64 (fv_blocked_count r));
           ("unknown_count", json_u64 (fv_unknown_count r));
           ("disabled_count", json_u64 (fv_disabled_count r));
           ("outdated_count", json_u64 (fv_outdated_count r));
           ("protocol_incompatible_count", json_u64 (fv_protocol_incompatible_count r));
           ("provider_incompatible_count", json_u64 (fv_provider_incompatible_count r));
           ("alert_count", json_u64 (fv_alert_count r));
           ("distribution", VArray (map (fun e => struct_value [("version", VString e.1);
                                                           ("node_count", json_u64 e.2)])
                                        (fv_distribution r)));
           ("nodes", VArray (map readiness_json (fv_nodes r)));
           ("alerts", VArray (map drift_alert_json (fv_alerts r)));
           ("actions_enabled", VBool (fv_actions_enabled r))].
