(* ===== verification/ApiStore.v ===== *)
(** * ApiStore: the queries of the read-only API
      (ocfleet-api/src/readonly_store.rs)

    A table is the list of its rows in the order of their row identifiers; the
    documents of a row are JSON values.  The connection is opened read-only, so
    a query is a function of the tables.  [ORDER BY] compares text by bytes, a
    descending order is the reverse of the ascending one, and of several columns
    the last one is sorted first, stably. *)

From S2P Require Import Prelude Text External InputValidation StoreTypes StoredText.
From S2P Require Import StoragePayloads.
From S2P Require Import StoreDb ObservationPayloads AlertWebhook SchedulerStore NodeMetadata.
From S2P Require Import AlertQueue Ordering Slo ApiPayloads VersionGovernance.

(** ** Tables *)

Record HealthSnapshotRecord := {
  hs_node_id : string;
  hs_endpoint_id : option string;
  hs_computed_at : string;
  hs_status : string;
  hs_freshness_seconds : option Z;
  hs_last_success_at : option string;
  hs_last_failure_at : option string;
  hs_last_error_code : option string;
  hs_degraded_methods_json : Value;
  hs_summary_json : Value;
}.

Record HealthHistoryRecord := { hh_evaluation_id : string; hh_snapshot : HealthSnapshotRecord }.

(** A row of [node_capability_snapshots]: numbers and flags are integers. *)
Record CapabilityRow := {
  cw_node_id : string;
  cw_endpoint_id : string;
  cw_observed_at : string;
  cw_status : string;
  cw_agent_version : option string;
  cw_protocol_min : option Z;
  cw_protocol_max : option Z;
  cw_ocserv_snapshot_min : option Z;
  cw_ocserv_snapshot_max : option Z;
  cw_controlled_writes_compiled : option Z;
  cw_controlled_writes_locally_enabled : option Z;
}.

Record ApiDb := {
  api_nodes : list NodeRecord;
  api_snapshots : list HealthSnapshotRecord;
  api_history : list HealthHistoryRecord;
  api_metadata : list NodeMetadataRecord;
  api_maintenance : list NodeMaintenanceWindow;
  api_alerts : list AlertEventRecord;
  api_jobs : list ObservabilityJobRecord;
  api_runs : list ObservabilityRunInsert;
  api_observations : list ProbeObservationInsert;
  api_audit : list (Z * AuditEvent);
  api_rollups : list HealthRollupRecord;
  api_capabilities : list CapabilityRow;
  api_claims : list ClaimRow;
  api_attempts : list AlertDeliveryAttemptRecord;
  api_queue : list QueueRow;
}.

(** ** Records *)

Record NodeHealthRecord := {
  nh_node : NodeRecord;
  nh_snapshot : option HealthSnapshotRecord;
  nh_metadata : option Value;
  nh_maintenance : option Value;
}.

Record NodeListFilters := {
  nf_after_node_id : option string;
  nf_region : option string;
  nf_role : option string;
  nf_environment : option string;
  nf_label_key : option string;
  nf_label_value : option string;
  nf_status : option string;
}.

Record HistoryPageFilters := {
  hf_after : option (string * string * string);
  hf_node_id : option string;
  hf_status : option string;
  hf_from : string;
  hf_to : string;
}.

Record AlertPageFilters := {
  af_after : option (string * string);
  af_state : option string;
  af_severity : option string;
  af_node_id : option string;
  af_reason : option string;
  af_from : string;
  af_to : string;
}.

Record ObservabilityRunRecord := {
  orr_run_id : string;
  orr_job_id : option string;
  orr_started_at : string;
  orr_finished_at : option string;
  orr_status : string;
  orr_triggered_by : string;
  orr_summary_json : Value;
  orr_observation_count : Z;
  orr_failed_observation_count : Z;
}.

(** ** SQL *)

(** [?n IS NULL OR column = ?n] for a column that is not null, and for one that
    may be. *)
Definition sql_eq_opt (param : option string) (column : string) : bool :=
  match param with None => true | Some value => String.eqb column value end.
Definition sql_eq_null (param column : option string) : bool :=
  match param with None => true | Some value => bool_decide (column = Some value) end.

(** [column >= from AND column < to]. *)
Definition sql_window (from to column : string) : bool := sql_le from column && str_ltb column to.

(** [ORDER BY ... DESC]. *)
Definition sort_desc {A} (key : A -> list (option string)) (l : list A) : list A :=
  rev (sort_by key (rev l)).

(** [LIMIT ?n], with the conversion of the limit. *)
Definition limited {A} (limit : Z) (l : list A) : result StoreError (list A) :=
  let? n := u64_to_i64 limit in Ok (take (Z.to_nat n) l).

Definition conversion_failure (column : Z) : StoreError := Sqlite (FromSqlConversionFailure column).

(** A column of type [u64]: a negative number is an error. *)
Definition i64_to_u64 (column : Z) (value : Z) : result StoreError Z :=
  if 0 <=? value then Ok value else Err (conversion_failure column).

(** ** Health *)

Definition snapshot_of (db : ApiDb) (n : NodeRecord) : option HealthSnapshotRecord :=
  List.find (fun s => String.eqb (hs_node_id s) (node_id n)) (api_snapshots db).

(** [CASE WHEN n.enabled = 0 THEN 'disabled' ELSE COALESCE(h.status, 'unknown') END]. *)
Definition effective_status (db : ApiDb) (n : NodeRecord) : string :=
  if node_enabled n then default "unknown" (hs_status <$> snapshot_of db n) else "disabled".

Section store.
Context `{TimeOps, JsonOps}.

Definition check_health_payloads (degraded summary : Value) (status : string)
    (degraded_column summary_column : Z) : result StoreError unit :=
  let? _ := map_err (fun _ => conversion_failure degraded_column) (hdm_from_value degraded) in
  let? typed := map_err (fun _ => conversion_failure summary_column) (hsp_from_value summary) in
  map_err (fun _ => conversion_failure summary_column)
          (validate_health_payload_relationship status typed).

(** A negative freshness is read as none. *)
Definition node_health_from_row (n : NodeRecord) (s : option HealthSnapshotRecord)
    : result StoreError NodeHealthRecord :=
  let? snapshot := match s with
    | None => Ok None
    | Some s =>
        let? _ := check_health_payloads (hs_degraded_methods_json s) (hs_summary_json s)
                                        (hs_status s) 14 15 in
        Ok (Some {| hs_node_id := hs_node_id s; hs_endpoint_id := hs_endpoint_id s;
                    hs_computed_at := hs_computed_at s; hs_status := hs_status s;
                    hs_freshness_seconds :=
                      opt_filter (fun value => 0 <=? value) (hs_freshness_seconds s);
                    hs_last_success_at := hs_last_success_at s;
                    hs_last_failure_at := hs_last_failure_at s;
                    hs_last_error_code := hs_last_error_code s;
                    hs_degraded_methods_json := hs_degraded_methods_json s;
                    hs_summary_json := hs_summary_json s |})
    end in
  Ok {| nh_node := n; nh_snapshot := snapshot; nh_metadata := None; nh_maintenance := None |}.

Definition advisory_metadata (db : ApiDb) (id : string) : result StoreError (option Value) :=
  match List.find (fun m => String.eqb (nm_node_id m) id) (api_metadata db) with
  | None => Ok None
  | Some m =>
      let? _ := map_err (fun _ => conversion_failure 4) (validate_node_metadata_record m) in
      Ok (Some (VObject [("environment", VString (nm_environment m));
                         ("expected_agent_version", json_opt_str (nm_expected_agent_version m));
                         ("labels", nm_labels_json m);
                         ("owner_team", VString (nm_owner_team m));
                         ("service_tier", VString (nm_service_tier m));
                         ("site", VString (nm_site m));
                         ("updated_at", VString (nm_updated_at m))]))
  end.

Definition advisory_maintenance (db : ApiDb) (id : string) : result StoreError (option Value) :=
  match List.find (fun w => String.eqb (mw_node_id w) id) (api_maintenance db) with
  | None => Ok None
  | Some w =>
      let? _ := map_err (fun _ => conversion_failure 0) (validate_node_maintenance_record w) in
      Ok (Some (VObject [("from", VString (mw_starts_at w)); ("reason", VString (mw_reason w));
                         ("to", VString (mw_ends_at w)); ("updated_at", VString (mw_updated_at w))]))
  end.

Definition attach_node_advisory (db : ApiDb) (r : NodeHealthRecord)
    : result StoreError NodeHealthRecord :=
  let id := node_id (nh_node r) in
  let? metadata := advisory_metadata db id in
  let? maintenance := advisory_maintenance db id in
  Ok {| nh_node := nh_node r; nh_snapshot := nh_snapshot r; nh_metadata := metadata;
        nh_maintenance := maintenance |}.

(** The rows are read first, then the advisory data of each is attached. *)
Definition read_node_rows (db : ApiDb) (rows : list NodeRecord)
    : result StoreError (list NodeHealthRecord) :=
  let? records := try_map (fun n => node_health_from_row n (snapshot_of db n)) rows in
  try_map (attach_node_advisory db) records.

Definition node_key (n : NodeRecord) : list (option string) := [Some (node_id n)].

Definition list_node_health (db : ApiDb) (limit : Z) : result StoreError (list NodeHealthRecord) :=
  let? rows := limited limit (sort_by node_key (api_nodes db)) in
  read_node_rows db rows.

Definition get_node_health (db : ApiDb) (id : string) : result StoreError (option NodeHealthRecord) :=
  match List.find (fun n => String.eqb (node_id n) id) (api_nodes db) with
  | None => Ok None
  | Some n =>
      let? record := node_health_from_row n (snapshot_of db n) in
      let? record := attach_node_advisory db record in
      Ok (Some record)
  end.

(** [EXISTS (SELECT 1 FROM json_each(m.labels_json) ...)]. *)
Definition label_matches (m : NodeMetadataRecord) (key value : string) : bool :=
  match as_object (nm_labels_json m) with
  | Some members =>
      existsb (fun e => String.eqb e.1 key
                        && match e.2 with VString v => String.eqb v value | _ => false end) members
  | None => false
  end.

(** The conditions of the page query apart from the position. *)
Definition node_selected (db : ApiDb) (f : NodeListFilters) (n : NodeRecord) : bool :=
  let m := List.find (fun m => String.eqb (nm_node_id m) (node_id n)) (api_metadata db) in
  sql_eq_opt (nf_region f) (node_region n)
  && sql_eq_opt (nf_role f) (node_role n)
  && sql_eq_null (nf_environment f) (nm_environment <$> m)
  && match nf_label_key f with
     | None => true
     | Some key =>
         match m, nf_label_value f with
         | Some m, Some value => label_matches m key value
         | _, _ => false
         end
     end
  && sql_eq_opt (nf_status f) (effective_status db n).

Definition node_after (after : option string) (n : NodeRecord) : bool :=
  match after with None => true | Some id => str_ltb id (node_id n) end.

Definition list_node_health_page (db : ApiDb) (limit : Z) (f : NodeListFilters)
    : result StoreError (list NodeHealthRecord) :=
  let? rows := limited limit
    (sort_by node_key
       (List.filter (fun n => node_after (nf_after_node_id f) n && node_selected db f n)
                    (api_nodes db))) in
  read_node_rows db rows.

(** The groups in the order of the status; each one is stored at its index. *)
Definition status_index (status : string) : nat :=
  if String.eqb status "healthy" then 0 else if String.eqb status "degraded" then 1
  else if String.eqb status "unreachable" then 2 else if String.eqb status "stale" then 3
  else if String.eqb status "disabled" then 4 else 5.

Definition fleet_health_summary (db : ApiDb) : list Z :=
  let statuses := map (effective_status db) (api_nodes db) in
  foldl (fun counts status =>
           <[status_index status := Z.of_nat (length (List.filter (String.eqb status) statuses))]> counts)
        (replicate 6 0) (btree_iter (list_to_set statuses)).

(** ** History and rollups *)

Definition health_history_from_row_api (r : HealthHistoryRecord) : result StoreError HealthHistoryRecord :=
  let s := hh_snapshot r in
  let? _ := check_health_payloads (hs_degraded_methods_json s) (hs_summary_json s) (hs_status s) 9 10 in
  let? _ := match hs_freshness_seconds s with
            | Some v => let? _ := i64_to_u64 5 v in Ok tt
            | None => Ok tt
            end in
  Ok r.

Definition history_key (r : HealthHistoryRecord) : list (option string) :=
  [Some (hs_computed_at (hh_snapshot r)); Some (hs_node_id (hh_snapshot r));
   Some (hh_evaluation_id r)].

Definition history_selected (f : HistoryPageFilters) (r : HealthHistoryRecord) : bool :=
  sql_window (hf_from f) (hf_to f) (hs_computed_at (hh_snapshot r))
  && sql_eq_opt (hf_node_id f) (hs_node_id (hh_snapshot r))
  && sql_eq_opt (hf_status f) (hs_status (hh_snapshot r)).

Definition history_after (after : option (string * string * string)) (r : HealthHistoryRecord)
    : bool :=
  match after with
  | None => true
  | Some (ts, node, eval) => key_ltb (history_key r) [Some ts; Some node; Some eval]
  end.

Definition list_health_history_page (db : ApiDb) (limit : Z) (f : HistoryPageFilters)
    : result StoreError (list HealthHistoryRecord) :=
  let? rows := limited limit
    (sort_desc history_key
       (List.filter (fun r => history_after (hf_after f) r && history_selected f r)
                    (api_history db))) in
  try_map health_history_from_row_api rows.

Definition rollup_counters (r : HealthRollupRecord) : list Z :=
  [ru_bucket_seconds r; ru_health_samples r; ru_covered_slots r; ru_expected_slots r;
   ru_healthy_count r; ru_degraded_count r; ru_unreachable_count r; ru_stale_count r;
   ru_disabled_count r; ru_unknown_count r; ru_observation_count r;
   ru_observation_error_count r; ru_duration_sample_count r]
  ++ option_list (ru_duration_p50_ms r) ++ option_list (ru_duration_p95_ms r)
  ++ [ru_cert_warning_count r; ru_cert_critical_count r; ru_fingerprint_sample_count r;
      ru_fingerprint_change_count r].

Definition health_rollup_from_row (r : HealthRollupRecord) : result StoreError HealthRollupRecord :=
  check? forallb (fun value => 0 <=? value) (rollup_counters r) else conversion_failure 1 in
  Ok r.

Definition rollup_selected (bucket_seconds : Z) (from to : string) (r : HealthRollupRecord) : bool :=
  (ru_bucket_seconds r =? bucket_seconds) && sql_window from to (ru_bucket_start r).

(** [SELECT DISTINCT ... LIMIT 1001], refused above a thousand. *)
Definition health_slo_node_ids (db : ApiDb) (bucket_seconds : Z) (from to : string)
    : result StoreError (list string) :=
  let? _ := u64_to_i64 bucket_seconds in
  let ids := take 1001 (btree_iter (list_to_set
               (map ru_node_id (List.filter (rollup_selected bucket_seconds from to)
                                            (api_rollups db))))) in
  reject? 1000 <? Z.of_nat (length ids) as Sqlite InvalidQuery in
  Ok ids.

Definition list_health_rollups (db : ApiDb) (id : string) (bucket_seconds : Z) (from to : string)
    (limit : Z) : result StoreError (list HealthRollupRecord) :=
  let? _ := u64_to_i64 bucket_seconds in
  let? rows := limited limit
    (sort_by (fun r => [Some (ru_bucket_start r)])
       (List.filter (fun r => String.eqb (ru_node_id r) id && rollup_selected bucket_seconds from to r)
                    (api_rollups db))) in
  try_map health_rollup_from_row rows.

(** ** Capabilities *)

Definition negotiation_status (status : string) : option CapabilityNegotiationStatus :=
  if String.eqb status "compatible" then Some NegCompatible
  else if String.eqb status "incompatible_protocol" then Some IncompatibleProtocol
  else if String.eqb status "unsupported_capability" then Some UnsupportedCapability
  else if String.eqb status "legacy_unsupported" then Some LegacyUnsupported
  else if String.eqb status "invalid_response" then Some InvalidResponse
  else None.

Definition optional_u32 (column : Z) (value : option Z) : result StoreError (option Z) :=
  match value with
  | None => Ok None
  | Some v => if in_range 0 u32_max v then Ok (Some v) else Err (conversion_failure column)
  end.

Definition optional_bool (column : Z) (value : option Z) : result StoreError (option bool) :=
  match value with
  | None => Ok None
  | Some v => if v =? 0 then Ok (Some false) else if v =? 1 then Ok (Some true)
              else Err (conversion_failure column)
  end.

Definition capability_from_row (c : CapabilityRow) : result StoreError CapabilitySnapshot :=
  let? status := ok_or (negotiation_status (cw_status c)) (conversion_failure 6) in
  let? protocol_min := optional_u32 8 (cw_protocol_min c) in
  let? protocol_max := optional_u32 9 (cw_protocol_max c) in
  let? snapshot_min := optional_u32 10 (cw_ocserv_snapshot_min c) in
  let? snapshot_max := optional_u32 11 (cw_ocserv_snapshot_max c) in
  let? compiled := optional_bool 12 (cw_controlled_writes_compiled c) in
  let? enabled := optional_bool 13 (cw_controlled_writes_locally_enabled c) in
  let capability :=
    {| cap_node_id := cw_node_id c; cap_endpoint_id := cw_endpoint_id c;
       cap_observed_at := cw_observed_at c; cap_status := status;
       cap_agent_version := cw_agent_version c; cap_protocol_min := protocol_min;
       cap_protocol_max := protocol_max; cap_ocserv_snapshot_min := snapshot_min;
       cap_ocserv_snapshot_max := snapshot_max; cap_controlled_writes_compiled := compiled;
       cap_controlled_writes_locally_enabled := enabled |} in
  let? _ := map_err (fun _ => conversion_failure 3) (capability_validate capability) in
  Ok capability.

Definition version_governance_input_from_row (db : ApiDb) (n : NodeRecord)
    : result StoreError VersionGovernanceInput :=
  let m := List.find (fun m => String.eqb (nm_node_id m) (node_id n)) (api_metadata db) in
  let? capability :=
    match List.find (fun c => String.eqb (cw_node_id c) (node_id n)) (api_capabilities db) with
    | None => Ok None
    | Some c => let? capability := capability_from_row c in Ok (Some capability)
    end in
  Ok {| vi_node_id := node_id n; vi_enabled := node_enabled n;
        vi_expected_agent_version := m ≫= nm_expected_agent_version;
        vi_capability := capability |}.

Definition version_governance_inputs (db : ApiDb) (limit : Z)
    : result StoreError (list VersionGovernanceInput) :=
  let? rows := limited limit (sort_by node_key (api_nodes db)) in
  try_map (version_governance_input_from_row db) rows.

(** ** Alerts *)

Definition alert_event_from_row (row : AlertEventRecord) : result StoreError AlertEventRecord :=
  let? payload := map_err (fun _ => conversion_failure 10) (adl_from_value (al_detail_json row)) in
  Ok {| al_alert_id := al_alert_id row; al_dedupe_key := al_dedupe_key row;
        al_node_id := al_node_id row; al_severity := al_severity row; al_state := al_state row;
        al_reason_code := al_reason_code row; al_first_seen_at := al_first_seen_at row;
        al_last_seen_at := al_last_seen_at row; al_last_sent_at := al_last_sent_at row;
        al_resolved_at := al_resolved_at row; al_detail_json := adl_public_detail payload |}.

Definition alert_key (r : AlertEventRecord) : list (option string) :=
  [Some (al_last_seen_at r); Some (al_alert_id r)].

Definition alert_selected (f : AlertPageFilters) (r : AlertEventRecord) : bool :=
  sql_window (af_from f) (af_to f) (al_last_seen_at r)
  && sql_eq_opt (af_state f) (al_state r)
  && sql_eq_opt (af_severity f) (al_severity r)
  && sql_eq_null (af_node_id f) (al_node_id r)
  && sql_eq_opt (af_reason f) (al_reason_code r).

Definition alert_after (after : option (string * string)) (r : AlertEventRecord) : bool :=
  match after with
  | None => true
  | Some (ts, id) => key_ltb (alert_key r) [Some ts; Some id]
  end.

Definition list_alert_page (db : ApiDb) (limit : Z) (f : AlertPageFilters)
    : result StoreError (list AlertEventRecord) :=
  let? rows := limited limit
    (sort_desc alert_key
       (List.filter (fun r => alert_after (af_after f) r && alert_selected f r) (api_alerts db))) in
  try_map alert_event_from_row rows.

(** [ORDER BY last_seen_at DESC, alert_id]. *)
Definition recent_first (l : list AlertEventRecord) : list AlertEventRecord :=
  sort_desc (fun r => [Some (al_last_seen_at r)]) (sort_by (fun r => [Some (al_alert_id r)]) l).

Definition list_alerts (db : ApiDb) (limit : Z) (state severity node : option string)
    : result StoreError (list AlertEventRecord) :=
  let? rows := limited limit
    (recent_first (List.filter (fun r => sql_eq_opt state (al_state r)
                                         && sql_eq_opt severity (al_severity r)
                                         && sql_eq_null node (al_node_id r)) (api_alerts db))) in
  try_map alert_event_from_row rows.

Definition get_alert (db : ApiDb) (lookup : string) : result StoreError (option AlertEventRecord) :=
  optional_row alert_event_from_row
    (head (recent_first (List.filter (fun r => String.eqb (al_alert_id r) lookup
                                               || String.eqb (al_dedupe_key r) lookup)
                                     (api_alerts db)))).

(** ** Jobs, runs and observations *)

Definition list_jobs (db : ApiDb) (limit : Z) : result StoreError (list ObservabilityJobRecord) :=
  let? rows := limited limit (sort_by (fun j => [Some (job_id j)]) (api_jobs db)) in
  try_map observability_job_from_row rows.

Definition get_job (db : ApiDb) (id : string) : result StoreError (option ObservabilityJobRecord) :=
  optional_row observability_job_from_row
    (List.find (fun j => String.eqb (job_id j) id) (api_jobs db)).

Definition observability_run_from_row (db : ApiDb) (r : ObservabilityRunInsert)
    : result StoreError ObservabilityRunRecord :=
  let kind := match run_job_id r with
              | Some id => job_kind <$> List.find (fun j => String.eqb (job_id j) id) (api_jobs db)
              | None => None
              end in
  let observations := List.filter (fun o => bool_decide (ob_run_id o = Some (run_id r)))
                                  (api_observations db) in
  let? payload := map_err (fun _ => conversion_failure 6) (rsp_from_value (run_summary_json r)) in
  let? _ := map_err (fun _ => conversion_failure 6)
              (rsp_validate_relationship payload (run_job_id r) kind (run_status r)
                                         (run_triggered_by r)) in
  Ok {| orr_run_id := run_id r; orr_job_id := run_job_id r; orr_started_at := run_started_at r;
        orr_finished_at := run_finished_at r; orr_status := run_status r;
        orr_triggered_by := run_triggered_by r; orr_summary_json := rsp_public_summary payload;
        orr_observation_count := Z.of_nat (length observations);
        orr_failed_observation_count :=
          Z.of_nat (length (List.filter (fun o => bool_decide (ob_ok o = Some false)) observations)) |}.

Definition list_runs (db : ApiDb) (limit : Z) (job status : option string)
    : result StoreError (list ObservabilityRunRecord) :=
  let? rows := limited limit
    (sort_desc (fun r => [Some (run_started_at r); Some (run_id r)])
       (List.filter (fun r => sql_eq_null job (run_job_id r) && sql_eq_opt status (run_status r))
                    (api_runs db))) in
  try_map (observability_run_from_row db) rows.

Definition get_run (db : ApiDb) (id : string) : result StoreError (option ObservabilityRunRecord) :=
  match List.find (fun r => String.eqb (run_id r) id) (api_runs db) with
  | None => Ok None
  | Some r => let? record := observability_run_from_row db r in Ok (Some record)
  end.

Definition probe_observation_from_row (o : ProbeObservationInsert)
    : result StoreError ProbeObservationInsert :=
  let? payload := map_err (fun _ => conversion_failure 11) (osp_from_value (ob_summary_json o)) in
  reject? negb (String.eqb (osp_method payload) (ob_method o))
          || negb (String.eqb (osp_result_class payload) (ob_result_class o))
    as conversion_failure 11 in
  Ok {| ob_observation_id := ob_observation_id o; ob_run_id := ob_run_id o;
        ob_node_id := ob_node_id o; ob_endpoint_id := ob_endpoint_id o; ob_method := ob_method o;
        ob_ok := ob_ok o; ob_error_code := ob_error_code o;
        ob_duration_ms := opt_filter (fun value => 0 <=? value) (ob_duration_ms o);
        ob_observed_at := ob_observed_at o; ob_expires_at := ob_expires_at o;
        ob_result_class := ob_result_class o; ob_summary_json := osp_public_summary payload |}.

Definition list_observations (db : ApiDb) (limit : Z) (node method : option string)
    : result StoreError (list ProbeObservationInsert) :=
  let? rows := limited limit
    (sort_desc (fun o => [Some (ob_observed_at o); Some (ob_observation_id o)])
       (List.filter (fun o => sql_eq_null node (ob_node_id o) && sql_eq_opt method (ob_method o))
                    (api_observations db))) in
  try_map probe_observation_from_row rows.

Definition get_observation (db : ApiDb) (id : string)
    : result StoreError (option ProbeObservationInsert) :=
  optional_row probe_observation_from_row
    (List.find (fun o => String.eqb (ob_observation_id o) id) (api_observations db)).

(** ** Audit log *)

Definition audit_record_from_row (row : Z * AuditEvent) : result StoreError (Z * AuditEvent) :=
  let '(id, e) := row in
  let? _ := match ae_duration_ms e with
            | Some value => let? _ := i64_to_u64 11 value in Ok tt
            | None => Ok tt
            end in
  let? payload := map_err (fun _ => conversion_failure 12) (adp_from_value (ae_detail_json e)) in
  let? _ := map_err (fun _ => conversion_failure 12) (adp_validate_relationship payload e) in
  Ok (id, {| ae_ts := ae_ts e; ae_actor := ae_actor e; ae_event := ae_event e;
             ae_node_id := ae_node_id e; ae_endpoint_id := ae_endpoint_id e;
             ae_method := ae_method e; ae_request_id := ae_request_id e;
             ae_params_hash := ae_params_hash e; ae_ok := ae_ok e; ae_error_code := ae_error_code e;
             ae_duration_ms := ae_duration_ms e; ae_detail_json := adp_public_detail payload |}).

(** [ORDER BY ts ASC, id ASC]: the rows are kept in the order of their ids. *)
Definition list_audit_window (db : ApiDb) (from to : string) (limit : Z)
    : result StoreError (list (Z * AuditEvent)) :=
  let? rows := limited limit
    (sort_by (fun row => [Some (ae_ts row.2)])
       (List.filter (fun row => sql_window from to (ae_ts row.2)) (api_audit db))) in
  try_map audit_record_from_row rows.

End store.
