(* ===== verification/ApiMetrics.v ===== *)
(** * ApiMetrics: the controller metrics
      (ocfleet-api/src/metrics.rs, readonly_store.rs: controller_metrics)

    Counts over the tables, rendered in the text format of Prometheus.  The date
    arithmetic and the casts of SQLite and the size of the file are
    parameters. *)

From stdpp Require Import pretty.
From S2P Require Import Prelude Text External StoreTypes StoredText StoreDb AlertWebhook.
From S2P Require Import SchedulerStore AlertQueue VersionGovernance ApiStore.

(** [CAST((julianday(a) - julianday(b)) * 86400 AS INTEGER)], NULL for a text
    that is not a time, and [CAST(json AS INTEGER)]. *)
Class SqliteFunctions := {
  julian_seconds : string -> string -> option Z;
  cast_integer : Value -> Z;
}.

Record ControllerMetricsSnapshot := {
  cm_scheduler_jobs_due : Z;
  cm_scheduler_claims_active : Z;
  cm_scheduler_runs : list Z;
  cm_health_nodes : list Z;
  cm_alerts : list Z;
  cm_delivery_attempts : list Z;
  cm_delivery_queue : list Z;
  cm_rpc_calls : list Z;
  cm_rpc_duration_ms_sum : Z;
  cm_rpc_duration_count : Z;
  cm_observations_total : Z;
  cm_observation_freshness_seconds : Z;
  cm_sqlite_bytes : Z;
  cm_audit_exports : list Z;
  cm_retention_deleted_rows : Z;
}.

(** [fixed_counts]: one query for each value. *)
Definition fixed_counts (column : list string) (values : list string) : list Z :=
  map (fun value => count_if (String.eqb value) column) values.

Definition run_results : list string := ["running"; "succeeded"; "failed"; "skipped"].
Definition metric_statuses : list string := ["healthy"; "degraded"; "unreachable"; "unknown"].
Definition alert_states : list string := ["open"; "silenced"; "resolved"].
Definition attempt_results : list string := ["succeeded"; "failed"].
Definition queue_states : list string := ["pending"; "claimed"; "retry"; "dead_letter"; "succeeded"].

(** [SUM]: an integer overflow is an error. *)
Definition sql_sum (l : list Z) : result StoreError Z :=
  let total := foldr Z.add 0 l in
  if in_range i64_min i64_max total then Ok total else Err (Sqlite InvalidQuery).

(** The greatest text of a column. *)
Definition text_max (l : list string) : option string :=
  match l with
  | [] => None
  | x :: l' => Some (foldl (fun acc y => if str_ltb acc y then y else acc) x l')
  end.

Section metrics.
Context `{SqliteFunctions}.

Definition event_count (db : ApiDb) (event : string) (ok : bool) : Z :=
  count_if (fun row => String.eqb (ae_event row.2) event && bool_decide (ae_ok row.2 = Some ok))
           (api_audit db).

Definition controller_metrics (db : ApiDb) (sqlite_bytes : option Z) (now : string)
    : result StoreError ControllerMetricsSnapshot :=
  let due job := job_enabled job
                 && match job_next_run_at job with Some t => sql_le t now | None => false end in
  let active claim := match cr_held claim with Some h => str_ltb now h.2 | None => false end in
  let durations := omap (fun row => if String.eqb (ae_event row.2) "rpc.completed"
                                    then ae_duration_ms row.2 else None) (api_audit db) in
  let? duration_sum := sql_sum durations in
  let? duration_sum := i64_to_u64 0 duration_sum in
  let freshness := match text_max (map ob_observed_at (api_observations db)) with
                   | Some newest => default 0 (Z.max 0 <$> julian_seconds now newest)
                   | None => 0
                   end in
  let? sqlite_bytes := ok_or sqlite_bytes (Sqlite ToSqlConversionFailure) in
  let? deleted := sql_sum (omap (fun row =>
        if String.eqb (ae_event row.2) "retention.apply" && bool_decide (ae_ok row.2 = Some true)
        then cast_integer <$> value_get "deleted_count" (ae_detail_json row.2) else None)
        (api_audit db)) in
  let? deleted := i64_to_u64 0 deleted in
  Ok {| cm_scheduler_jobs_due := count_if due (api_jobs db);
        cm_scheduler_claims_active := count_if active (api_claims db);
        cm_scheduler_runs := fixed_counts (map run_status (api_runs db)) run_results;
        cm_health_nodes := fixed_counts (map hs_status (api_snapshots db)) metric_statuses;
        cm_alerts := fixed_counts (map al_state (api_alerts db)) alert_states;
        cm_delivery_attempts := fixed_counts (map at_status (api_attempts db)) attempt_results;
        cm_delivery_queue :=
          fixed_counts (map (fun r => queue_status_text (qr_status r)) (api_queue db)) queue_states;
        cm_rpc_calls := [event_count db "rpc.completed" true; event_count db "rpc.completed" false];
        cm_rpc_duration_ms_sum := duration_sum;
        cm_rpc_duration_count := Z.of_nat (length durations);
        cm_observations_total := Z.of_nat (length (api_observations db));
        cm_observation_freshness_seconds := freshness;
        cm_sqlite_bytes := sqlite_bytes;
        cm_audit_exports := [event_count db "audit.export" true; event_count db "audit.export" false];
        cm_retention_deleted_rows := deleted |}.

End metrics.

(** ** Rendering *)

Record MetricDescriptor := {
  mt_name : string;
  mt_help : string;
  mt_type : string;
  mt_label_name : option string;
  mt_label_values : list string;
}.

Definition descriptor (name help metric_type : string) : MetricDescriptor :=
  {| mt_name := name; mt_help := help; mt_type := metric_type; mt_label_name := None;
     mt_label_values := [] |}.
Definition labeled (name help metric_type label : string) (values : list string) : MetricDescriptor :=
  {| mt_name := name; mt_help := help; mt_type := metric_type; mt_label_name := Some label;
     mt_label_values := values |}.

Definition newline : string := str_of_bytes [10].
Definition quote : string := str_of_bytes [34].

Definition metric_metadata (d : MetricDescriptor) : string :=
  "# HELP " +:+ mt_name d +:+ " " +:+ mt_help d +:+ newline
  +:+ "# TYPE " +:+ mt_name d +:+ " " +:+ mt_type d +:+ newline.

Definition metric_scalar (d : MetricDescriptor) (value : Z) : string :=
  metric_metadata d +:+ mt_name d +:+ " " +:+ pretty value +:+ newline.

Definition metric_family (d : MetricDescriptor) (values : list Z) : string :=
  metric_metadata d +:+
  foldr (fun lv acc => mt_name d +:+ "{" +:+ default EmptyString (mt_label_name d) +:+ "=" +:+ quote
                       +:+ fst lv +:+ quote +:+ "} " +:+ pretty (snd lv) +:+ newline +:+ acc)
        EmptyString (zip (mt_label_values d) values).

(** [render_controller], with the descriptors of [CONTROLLER_CATALOG]. *)
Definition render_controller (s : ControllerMetricsSnapshot) : string :=
  metric_scalar (descriptor "ocfleet_controller_scheduler_jobs_due"
    "Enabled scheduler jobs currently due." "gauge") (cm_scheduler_jobs_due s)
  +:+ metric_scalar (descriptor "ocfleet_controller_scheduler_claims_active"
    "Scheduler claims with an unexpired lease." "gauge") (cm_scheduler_claims_active s)
  +:+ metric_family (labeled "ocfleet_controller_scheduler_runs_total"
    "Persisted scheduler runs by fixed result." "counter" "result" run_results) (cm_scheduler_runs s)
  +:+ metric_family (labeled "ocfleet_controller_health_nodes"
    "Controller health snapshots by fixed status." "gauge" "status" metric_statuses) (cm_health_nodes s)
  +:+ metric_family (labeled "ocfleet_controller_alerts"
    "Persisted alerts by fixed state." "gauge" "state" alert_states) (cm_alerts s)
  +:+ metric_family (labeled "ocfleet_controller_delivery_attempts_total"
    "Persisted delivery attempts by fixed result." "counter" "result" attempt_results)
    (cm_delivery_attempts s)
  +:+ metric_family (labeled "ocfleet_controller_delivery_queue"
    "Delivery queue rows by fixed state." "gauge" "state" queue_states) (cm_delivery_queue s)
  +:+ metric_family (labeled "ocfleet_controller_rpc_calls_total"
    "Completed controller RPC audits by fixed result." "counter" "result" attempt_results)
    (cm_rpc_calls s)
  +:+ metric_scalar (descriptor "ocfleet_controller_rpc_duration_milliseconds_sum"
    "Cumulative audited controller RPC duration in milliseconds." "counter") (cm_rpc_duration_ms_sum s)
  +:+ metric_scalar (descriptor "ocfleet_controller_rpc_duration_milliseconds_count"
    "Number of audited controller RPC duration observations." "counter") (cm_rpc_duration_count s)
  +:+ metric_scalar (descriptor "ocfleet_controller_observations_total"
    "Persisted probe observations." "counter") (cm_observations_total s)
  +:+ metric_scalar (descriptor "ocfleet_controller_observation_freshness_seconds"
    "Age of the newest persisted observation." "gauge") (cm_observation_freshness_seconds s)
  +:+ metric_scalar (descriptor "ocfleet_controller_sqlite_bytes"
    "Controller SQLite main database size." "gauge") (cm_sqlite_bytes s)
  +:+ metric_family (labeled "ocfleet_controller_audit_exports_total"
    "Audit export attempts by fixed result." "counter" "result" attempt_results) (cm_audit_exports s)
  +:+ metric_scalar (descriptor "ocfleet_controller_retention_deleted_rows_total"
    "Rows deleted by successful retention operations." "counter") (cm_retention_deleted_rows s).
