(* ===== verification/AuditExport.v ===== *)
(** * AuditExport: the redacted form of an audit record
      (ocfleet-cli/src/audit_export.rs: audit_record_payload and its helpers)

    The columns of a record and the members of its detail are filtered: texts
    with sensitive markers, members with sensitive names and deep or long values
    are replaced, and in the strict mode identifiers by a prefix of their
    digest. *)

From S2P Require Import Prelude Text External Wire Net StoreTypes StoredText.

(** [RedactionMode]. *)
Inductive RedactionMode := RedactNone | RedactDefault | RedactStrict.

#[export] Instance RedactionMode_eq_dec : EqDecision RedactionMode.
Proof. solve_decision. Defined.

Definition MAX_DETAIL_DEPTH : Z := 8.
Definition MAX_DETAIL_ENTRIES : nat := 64.
Definition MAX_DETAIL_STRING_BYTES : Z := 256.

Definition redacted : Value := VString "<redacted>".

Definition contains_marker (markers : list string) (value : string) : bool :=
  existsb (fun marker => str_contains marker (to_ascii_lowercase value)) markers.

Definition forbidden_detail_keys : list string :=
  ["token"; "secret"; "password"; "private_key"; "hmac"; "authorization"; "cookie"; "username";
   "user_name"; "account"; "client_ip"; "assigned_vpn_ip"; "source_address";
   "destination_address"; "source_port"; "destination_port"; "session_id"; "session_token";
   "certificate_subject"; "certificate_san"; "cert_subject"; "subject_alt_name"; "issuer";
   "serial"; "pem"; "raw_"; "log"; "stdout"; "stderr"; "command"; "shell"; "script"; "journal";
   "unit_name"; "provider_selector"; "path"; "dsn"; "url"].

Definition is_forbidden_detail_key (key : string) : bool := contains_marker forbidden_detail_keys key.

Definition forbidden_detail_values : list string :=
  ["/etc/"; "/var/"; "-----begin"; "systemctl"; "journalctl"; "occtl"; "username"; "client_ip";
   "client ip"; "session_id"; "session id"; "raw config"; "raw log"; "stdout"; "stderr"].

Definition has_forbidden_detail_value (value : string) : bool :=
  contains_marker forbidden_detail_values value.

Definition is_identifier_key (key : string) : bool :=
  String.eqb key "actor" || String.eqb key "node_id" || String.eqb key "endpoint_id"
  || String.eqb key "request_id" || ends_with "_id" key.

Definition is_safe_token (value : string) : bool :=
  negb (str_is_empty value)
  && forallb (fun b => is_ascii_alphanumeric b || (b =? 46) || (b =? 95) || (b =? 45) || (b =? 58))
             (str_bytes value)
  && negb (bool_decide (is_Some (parse_ip_addr value))).

Definition is_fixed_rpc_method (value : string) : bool :=
  match classify_phase_one_method value with MethodUnknown => false | _ => true end
  || str_in_list value [PROBE_PATH_ECHO; PROBE_PEER_ECHO].

Definition timestamp_detail_keys : list string :=
  ["from"; "to"; "cutoff"; "oldest_candidate"; "newest_candidate"; "checksum"; "report_checksum";
   "params_hash"; "fingerprint"; "signature_public_key_fingerprint"].

Definition token_detail_keys : list string :=
  ["status"; "state"; "reason_code"; "error_code"; "kind"; "hook_type"; "policy_class"; "scope";
   "triggered_by"; "redaction_mode"; "signature_algorithm"; "http_status_class"; "endpoint_status";
   "result_class"; "operation_kind"; "selector_kind"; "role"; "region"].

Definition is_allowed_detail_string (key value : string) : bool :=
  if str_in_list key ["method"; "methods"; "degraded_methods"] then is_fixed_rpc_method value
  else if is_identifier_key key then negb (str_is_empty (str_trim value))
  else if ends_with "_at" key || str_in_list key timestamp_detail_keys then is_safe_token value
  else str_in_list key token_detail_keys && is_safe_token value.

(** [value.bytes().any(|byte| !byte.is_ascii() || byte.is_ascii_control())]. *)
Definition has_unsafe_bytes (value : string) : bool := existsb unsafe_byte (str_bytes value).

Section redaction.
Context `{TimeOps, Sha256Ops}.

(** [format!("sha256:{}", &sha256_hex(..)[..16])]. *)
Definition digest_prefix (value : string) : Value :=
  VString ("sha256:" +:+ String.substring 0 16 (hex_lower (sha256 (str_bytes value)))).

Definition redact_top_level (key : string) (value : option string) (strict : bool) : Value :=
  match value with
  | None => Null
  | Some value =>
      if strict && str_in_list key ["actor"; "node_id"; "endpoint_id"; "request_id"]
      then digest_prefix value
      else if (256 <? str_len value) || has_unsafe_bytes value || has_forbidden_detail_value value
      then redacted
      else VString value
  end.

Definition safe_timestamp (value : string) : Value :=
  if bool_decide (is_Some (rfc3339_parse value)) then VString value else redacted.

Definition safe_top_level_token (value : string) : Value :=
  if (str_len value <=? 128) && is_safe_token value && negb (has_forbidden_detail_value value)
  then VString value else redacted.

Definition safe_rpc_method (value : string) : Value :=
  if is_fixed_rpc_method value then VString value else redacted.

Definition redact_identifier_value (value : Value) : Value :=
  match value with VString value => digest_prefix value | _ => redacted end.

(** The string arm: the key is the nearest member name. *)
Definition redact_detail_string (key : option string) (value : string) : Value :=
  match key with
  | None => redacted
  | Some key =>
      if (MAX_DETAIL_STRING_BYTES <? str_len value) || has_unsafe_bytes value
         || has_forbidden_detail_value value || negb (is_allowed_detail_string key value)
      then redacted else VString value
  end.

Fixpoint redact_detail_value (key : option string) (value : Value) (mode : RedactionMode) (depth : Z)
    {struct value} : Value :=
  if MAX_DETAIL_DEPTH <=? depth then redacted
  else match value with
  | VObject members =>
      VObject ((fix entries (n : nat) (l : list (string * Value)) : list (string * Value) :=
                  match n, l with
                  | S n', (k, v) :: rest =>
                      (k, if is_forbidden_detail_key k then redacted
                          else if bool_decide (mode = RedactStrict) && is_identifier_key k
                          then redact_identifier_value v
                          else redact_detail_value (Some k) v mode (depth + 1))
                      :: entries n' rest
                  | _, _ => []
                  end) MAX_DETAIL_ENTRIES members)
  | VArray values =>
      VArray ((fix items (n : nat) (l : list Value) : list Value :=
                 match n, l with
                 | S n', v :: rest => redact_detail_value key v mode (depth + 1) :: items n' rest
                 | _, _ => []
                 end) MAX_DETAIL_ENTRIES values)
  | VString text => redact_detail_string key text
  | Null | VBool _ | VNumber _ => value
  end.

Definition redact_value (value : Value) (mode : RedactionMode) : Value :=
  redact_detail_value None value mode 0.

Definition audit_record_payload (id : Z) (row : AuditEvent) (redact : RedactionMode) : Value :=
  let strict := bool_decide (redact = RedactStrict) in
  VObject [("actor", redact_top_level "actor" (Some (ae_actor row)) strict);
           ("detail", redact_value (ae_detail_json row) redact);
           ("duration_ms", json_opt json_u64 (ae_duration_ms row));
           ("endpoint_id", redact_top_level "endpoint_id" (ae_endpoint_id row) strict);
           ("error_code", json_opt safe_top_level_token (ae_error_code row));
           ("event", safe_top_level_token (ae_event row));
           ("id", VNumber (if 0 <=? id then PosInt id else NegInt id));
           ("method", json_opt safe_rpc_method (ae_method row));
           ("node_id", redact_top_level "node_id" (ae_node_id row) strict);
           ("ok", json_opt VBool (ae_ok row));
           ("params_hash", json_opt safe_top_level_token (ae_params_hash row));
           ("request_id", redact_top_level "request_id" (ae_request_id row) strict);
           ("ts", safe_timestamp (ae_ts row))].

End redaction.
