(* ===== verification/ApiProjections.v ===== *)
(** * ApiProjections: the JSON of the records that the API answers
      (ocfleet-api/src/projections.rs, ocfleet-cli/src/observation.rs)

    Members of an object are in the order of their names.  Summaries are
    projected with limits on depth, entries and text, and without members or
    texts that carry sensitive markers. *)

From S2P Require Import Prelude Text External Wire StoreTypes StoredText StoragePayloads.
From S2P Require Import ObservationPayloads AlertWebhook SchedulerStore AuditExport.
From S2P Require Import ApiPayloads ApiStore.

Definition MAX_METHODS_PER_SUMMARY : Z := 16.
Definition MAX_METHOD_BYTES : Z := 64.
Definition MAX_SUMMARY_DEPTH : Z := 4.
Definition MAX_SUMMARY_ENTRIES : Z := 32.
Definition MAX_TEXT_BYTES : Z := 256.
Definition REDACTED : string := "<redacted>".

(** ** Observations (observation.rs) *)

Definition observation_forbidden_keys : list string :=
  ["raw"; "stdout"; "stderr"; "body"; "username"; "client_ip"; "client-ip"; "session_id";
   "session-id"; "subject"; "issuer"; "serial"; "san"; "certificate_pem"; "private_key";
   "config_content"].

Definition observation_forbidden_values : list string :=
  ["/etc/"; "/var/log"; "systemctl"; "journalctl"; "occtl"; "username"; "client_ip"; "session_id";
   "-----begin certificate-----"; "-----begin private key-----"].

Record ProjectionBudget := { entries_remaining : nat; string_bytes_remaining : Z }.

(** The members that a budget of [n] entries keeps. *)
Definition budget_members (n : nat) (m : list (string * Value)) : list (string * Value) :=
  take n (List.filter (fun e => (str_len e.1 <=? 64)
                                && negb (contains_marker observation_forbidden_keys e.1)) m).

Definition project_text (budget : ProjectionBudget) (value : string) : Value * ProjectionBudget :=
  if (256 <? str_len value) || (string_bytes_remaining budget <? str_len value)
     || has_unsafe_bytes value || contains_marker observation_forbidden_values value
  then (VString REDACTED, budget)
  else (VString value, {| entries_remaining := entries_remaining budget;
                          string_bytes_remaining := string_bytes_remaining budget - str_len value |}).

(** [fuel] bounds the depth, which the source bounds by 8. *)
Fixpoint safe_observation_summary_inner (fuel : nat) (value : Value) (budget : ProjectionBudget)
    : Value * ProjectionBudget :=
  match fuel with
  | O => (VString REDACTED, budget)
  | S fuel' =>
      let spend n := {| entries_remaining := entries_remaining budget - n;
                        string_bytes_remaining := string_bytes_remaining budget |} in
      match value with
      | VObject m =>
          if (entries_remaining budget =? 0)%nat then (VString REDACTED, budget)
          else
            let members := budget_members (entries_remaining budget) m in
            let '(output, budget') :=
              foldl (fun acc e =>
                       let '(v, b) := safe_observation_summary_inner fuel' e.2 acc.2 in
                       (acc.1 ++ [(e.1, v)], b))
                    ([], spend (length members)) members in
            (VObject output, budget')
      | VArray values =>
          if (entries_remaining budget =? 0)%nat then (VString REDACTED, budget)
          else
            let n := Nat.min (length values) (entries_remaining budget) in
            let '(output, budget') :=
              foldl (fun acc x =>
                       let '(v, b) := safe_observation_summary_inner fuel' x acc.2 in
                       (acc.1 ++ [v], b))
                    ([], spend n) (take n values) in
            (VArray output, budget')
      | VString text => project_text budget text
      | Null | VBool _ | VNumber _ => (value, budget)
      end
  end.

Section projections.
Context `{TimeOps, JsonOps, Sha256Ops}.

Definition safe_observation_summary (value : Value) : Value :=
  match osp_from_value value with
  | Ok payload => osp_public_summary payload
  | Err _ =>
      fst (safe_observation_summary_inner 8 value
             {| entries_remaining := 256; string_bytes_remaining := 4096 |})
  end.

Definition observation_to_json (o : ProbeObservationInsert) : Value :=
  VObject [("duration_ms", json_of_opt_u64 (ob_duration_ms o));
           ("endpoint_id", json_of_opt_str (ob_endpoint_id o));
           ("error_code", json_of_opt_str (ob_error_code o));
           ("expires_at", json_of_opt_str (ob_expires_at o));
           ("method", VString (ob_method o));
           ("node_id", json_of_opt_str (ob_node_id o));
           ("observation_id", VString (ob_observation_id o));
           ("observed_at", VString (ob_observed_at o));
           ("ok", json_opt VBool (ob_ok o));
           ("result_class", VString (ob_result_class o));
           ("run_id", json_of_opt_str (ob_run_id o));
           ("summary", safe_observation_summary (ob_summary_json o))].

(** ** Filters (projections.rs) *)

Definition summary_forbidden_keys : list string :=
  observation_forbidden_keys ++ ["command"; "script"; "path"; "selector"].

Definition forbidden_summary_key (key : string) : bool := contains_marker summary_forbidden_keys key.

Definition payload_forbidden_values : list string :=
  ["/etc/"; "/var/log"; "systemctl"; "journalctl"; "occtl"; "username"; "client_ip"; "client-ip";
   "session_id"; "session-id"; "-----begin certificate-----"; "-----begin private key-----";
   "-----begin openvpn static key-----"; "bearer "].

Definition forbidden_payload_value (value : string) : bool :=
  contains_marker payload_forbidden_values value.

Definition allowed_alert_summary_key (key : string) : bool :=
  str_in_list key ["status"; "last_error_code"; "freshness_seconds"; "consecutive_failures";
    "days_remaining"; "endpoint_id"; "endpoint_status"; "result_class"].

(** [safe_summary_at_depth] and [safe_alert_summary_at_depth] differ in the
    members they keep. *)
Fixpoint project_at_depth (keep : string -> bool) (value : Value) (depth : Z) {struct value} : Value :=
  if MAX_SUMMARY_DEPTH <=? depth then Null
  else match value with
  | VObject m =>
      if MAX_SUMMARY_ENTRIES <? Z.of_nat (length m) then VObject []
      else VObject ((fix members (l : list (string * Value)) : list (string * Value) :=
                       match l with
                       | [] => []
                       | (k, v) :: rest =>
                           if keep k then (k, project_at_depth keep v (depth + 1)) :: members rest
                           else members rest
                       end) m)
  | VArray l =>
      if MAX_SUMMARY_ENTRIES <? Z.of_nat (length l) then VArray []
      else VArray (map (fun v => project_at_depth keep v (depth + 1)) l)
  | VString text =>
      if (MAX_TEXT_BYTES <? str_len text) || forbidden_payload_value text
      then VString REDACTED else value
  | Null | VBool _ | VNumber _ => value
  end.

Definition safe_summary (value : Value) : Value :=
  match value with
  | VObject _ =>
      project_at_depth (fun key => (str_len key <=? MAX_TEXT_BYTES) && negb (forbidden_summary_key key))
                       value 0
  | _ => VObject []
  end.

Definition safe_alert_summary (value : Value) : Value :=
  match value with
  | VObject _ => project_at_depth allowed_alert_summary_key value 0
  | _ => VObject []
  end.

Definition is_api_observation_method (method : string) : bool :=
  str_in_list method [NODE_PING; NODE_INFO; PROBE_CONTROLLER_PING; PROBE_PATH_ECHO;
    OCSERV_SERVICE_SUMMARY; OCSERV_VERSION; OCSERV_SESSIONS_SUMMARY; OCSERV_CERT_EXPIRY;
    OCSERV_CONFIG_FINGERPRINT].

(** The loop: one foreign entry empties the list. *)
Fixpoint collect_methods (methods : list string) (values : list Value) : list string :=
  match values with
  | [] => methods
  | VString method :: rest =>
      if (MAX_METHOD_BYTES <? str_len method) || negb (is_api_observation_method method) then []
      else if str_in_list method methods then collect_methods methods rest
      else collect_methods (methods ++ [method]) rest
  | _ :: _ => []
  end.

Definition safe_method_array (value : Value) : list string :=
  match as_array value with
  | None => []
  | Some values =>
      if MAX_METHODS_PER_SUMMARY <? Z.of_nat (length values) then [] else collect_methods [] values
  end.

(** ** Records *)

Definition safe_health_status (status : string) : string :=
  if str_in_list status ["healthy"; "degraded"; "unreachable"; "stale"; "disabled"; "unknown"]
  then status else "unknown".

Definition health_node_to_json (r : NodeHealthRecord) : Value :=
  let n := nh_node r in
  let snapshot := nh_snapshot r in
  let status := if node_enabled n
                then default "unknown" ((fun s => safe_health_status (hs_status s)) <$> snapshot)
                else "disabled" in
  let degraded_methods :=
    match (fun s => hdm_from_value (hs_degraded_methods_json s)) <$> snapshot with
    | Some (Ok payload) => hdm_methods payload
    | _ => []
    end in
  let summary :=
    match (fun s => hsp_from_value (hs_summary_json s)) <$> snapshot with
    | Some (Ok summary) =>
        VObject [("consecutive_failures", json_of_opt_u64 (hsp_consecutive_failures summary));
                 ("endpoint_status", json_of_opt_str (hsp_endpoint_status summary));
                 ("region", json_of_opt_str (hsp_region summary));
                 ("role", json_of_opt_str (hsp_role summary));
                 ("status", VString (hsp_status summary))]
    | _ => VObject []
    end in
  VObject [("computed_at", json_of_opt_str (hs_computed_at <$> snapshot));
           ("degraded_methods", json_strs degraded_methods);
           ("enabled", VBool (node_enabled n));
           ("endpoint_id", VString (node_endpoint_id n));
           ("freshness_seconds", json_of_opt_u64 (snapshot ≫= hs_freshness_seconds));
           ("last_error_code", json_of_opt_str (snapshot ≫= hs_last_error_code));
           ("last_failure_at", json_of_opt_str (snapshot ≫= hs_last_failure_at));
           ("last_success_at", json_of_opt_str (snapshot ≫= hs_last_success_at));
           ("maintenance", default Null (nh_maintenance r));
           ("metadata", default Null (nh_metadata r));
           ("name", VString (node_name n));
           ("node_id", VString (node_id n));
           ("region", VString (node_region n));
           ("role", VString (node_role n));
           ("status", VString status);
           ("summary", summary)].

(** [HealthCounts]: the number of records of each status; what is not one of
    the first five is counted as unknown. *)
Definition health_summary_to_json (records : list NodeHealthRecord) : Value :=
  let status r := if node_enabled (nh_node r) then default "unknown" (hs_status <$> nh_snapshot r)
                  else "disabled" in
  let named := ["healthy"; "degraded"; "unreachable"; "stale"; "disabled"] in
  let count p := json_u64 (Z.of_nat (length (List.filter (fun r => p (status r)) records))) in
  VObject [("degraded", count (String.eqb "degraded")); ("disabled", count (String.eqb "disabled"));
           ("healthy", count (String.eqb "healthy")); ("stale", count (String.eqb "stale"));
           ("total", count (fun _ => true));
           ("unknown", count (fun s => negb (str_in_list s named)));
           ("unreachable", count (String.eqb "unreachable"))].

Definition selector_label (job : ObservabilityJobRecord) : option string :=
  match ssp_from_value (job_selector_json job) with Ok p => Some (ssp_selector p) | Err _ => None end.

Definition explicit_pair (job : ObservabilityJobRecord) : option (string * string) :=
  match job_pair_selector_json job with
  | Some v => match spp_from_value v with
              | Ok p => Some (spp_source_node_id p, spp_target_node_id p)
              | Err _ => None
              end
  | None => None
  end.

Definition job_to_json (job : ObservabilityJobRecord) : Value :=
  let pair := explicit_pair job in
  let name := match ssp_from_value (job_selector_json job) with Ok p => ssp_name p | Err _ => None end in
  VObject [("created_at", VString (job_created_at job));
           ("enabled", VBool (job_enabled job));
           ("interval_seconds", json_u64 (job_interval_seconds job));
           ("jitter_seconds", json_u64 (job_jitter_seconds job));
           ("job_id", VString (job_id job));
           ("kind", VString (job_kind job));
           ("last_run_at", json_of_opt_str (job_last_run_at job));
           ("name", json_of_opt_str name);
           ("next_run_at", json_of_opt_str (job_next_run_at job));
           ("selector", VString (default "<invalid>" (selector_label job)));
           ("source_node_id", json_of_opt_str (fst <$> pair));
           ("target_node_id", json_of_opt_str (snd <$> pair));
           ("timeout_ms", json_u64 (job_timeout_ms job));
           ("updated_at", VString (job_updated_at job))].

Definition run_to_json (run : ObservabilityRunRecord) : Value :=
  VObject [("failed_observation_count", json_u64 (orr_failed_observation_count run));
           ("finished_at", json_of_opt_str (orr_finished_at run));
           ("job_id", json_of_opt_str (orr_job_id run));
           ("observation_count", json_u64 (orr_observation_count run));
           ("run_id", VString (orr_run_id run));
           ("started_at", VString (orr_started_at run));
           ("status", VString (orr_status run));
           ("triggered_by", VString (orr_triggered_by run))].

(** [Map::insert] of a member that is present. *)
Definition replace_member (k : string) (v : Value) (value : Value) : Value :=
  match value with
  | VObject m => VObject (map (fun e => if String.eqb e.1 k then (k, v) else e) m)
  | _ => value
  end.

Definition observation_record_to_json (o : ProbeObservationInsert) : Value :=
  let payload := observation_to_json o in
  let payload := match value_get "summary" payload with
                 | Some summary => replace_member "summary" (safe_summary summary) payload
                 | None => payload
                 end in
  if is_api_observation_method (ob_method o) then payload
  else replace_member "method" (VString REDACTED) payload.

Definition alert_to_json (alert : AlertEventRecord) : Value :=
  VObject [("alert_id", VString (al_alert_id alert));
           ("dedupe_key", VString (al_dedupe_key alert));
           ("first_seen_at", VString (al_first_seen_at alert));
           ("last_seen_at", VString (al_last_seen_at alert));
           ("last_sent_at", json_of_opt_str (al_last_sent_at alert));
           ("methods", json_strs (default [] (safe_method_array
                                    <$> value_get "methods" (al_detail_json alert))));
           ("node_id", json_of_opt_str (al_node_id alert));
           ("reason_code", VString (al_reason_code alert));
           ("resolved_at", json_of_opt_str (al_resolved_at alert));
           ("severity", VString (al_severity alert));
           ("state", VString (al_state alert));
           ("summary", default (VObject []) (safe_alert_summary
                                  <$> value_get "summary" (al_detail_json alert)))].

Definition audit_to_json (row : Z * AuditEvent) (redact : RedactionMode) : Value :=
  let payload := audit_record_payload row.1 row.2 redact in
  let payload := match value_get "detail" payload with
                 | Some detail => replace_member "detail" (safe_summary detail) payload
                 | None => payload
                 end in
  match value_get "method" payload ≫= as_str with
  | Some method =>
      if is_api_observation_method method then payload else replace_member "method" Null payload
  | None => payload
  end.

End projections.
