(* ===== verification/ApiAuth.v ===== *)
(** * ApiAuth: who may call the read-only API
      (ocfleet-api/src/auth.rs, the checks of args.rs and routes.rs: authorize)

    A request carries a bearer token or the headers of a TLS proxy.  A token is
    the legacy token, the token of a service account or of the break-glass
    account, all compared by digest, or a JWT signed with a configured key.
    Files are a function from paths to contents; SHA-256, Ed25519, base64 and
    the decoders of TOML and JSON are parameters.  Instants are nanoseconds. *)

From stdpp Require Import pretty.
From S2P Require Import Prelude Text External Net AlertWebhook.

Definition MAX_TOKEN_BYTES : Z := 16 * 1024.
Definition MIN_TOKEN_BYTES : Z := 32.
Definition MAX_AUTH_CONFIG_BYTES : Z := 256 * 1024.
Definition MAX_AUTH_ENTRIES : Z := 256.
Definition MAX_JWT_SEGMENT_BYTES : Z := 12 * 1024.
Definition MTLS_VERIFIED_HEADER : string := "x-ocfleet-mtls-verified".
Definition MTLS_SUBJECT_HEADER : string := "x-ocfleet-mtls-subject".
Definition MTLS_PROXY_SECRET_HEADER : string := "x-ocfleet-mtls-proxy-secret".

(** ** Roles and permissions *)

Inductive Role := Viewer | Operator | SecurityAdmin | ChangeApprover | Auditor.

#[export] Instance Role_eq_dec : EqDecision Role.
Proof. solve_decision. Defined.

(** The roles in the order of the enum. *)
Definition all_roles : list Role := [Viewer; Operator; SecurityAdmin; ChangeApprover; Auditor].

Definition role_index (r : Role) : nat :=
  match r with
  | Viewer => 0 | Operator => 1 | SecurityAdmin => 2 | ChangeApprover => 3 | Auditor => 4
  end.

#[export] Instance Role_countable : Countable Role.
Proof. refine (inj_countable role_index (fun i => all_roles !! i) _). by intros []. Defined.

Definition role_as_str (r : Role) : string :=
  match r with
  | Viewer => "viewer" | Operator => "operator" | SecurityAdmin => "security-admin"
  | ChangeApprover => "change-approver" | Auditor => "auditor"
  end.

Definition role_parse (value : string) : result string Role :=
  if String.eqb value "viewer" then Ok Viewer
  else if String.eqb value "operator" then Ok Operator
  else if String.eqb value "security-admin" then Ok SecurityAdmin
  else if String.eqb value "change-approver" then Ok ChangeApprover
  else if String.eqb value "auditor" then Ok Auditor
  else Err "unknown RBAC role".

Inductive Permission :=
| FleetRead | AuditRead | MetricsRead | HealthRead
| ControlledWriteCreate | ControlledWriteApprove | PermSecurityAdmin.

#[export] Instance Permission_eq_dec : EqDecision Permission.
Proof. solve_decision. Defined.

Definition role_permits (r : Role) (p : Permission) : bool :=
  match r, p with
  | (Viewer | Operator | SecurityAdmin), (FleetRead | AuditRead | MetricsRead | HealthRead) => true
  | Auditor, (AuditRead | HealthRead) => true
  | (Operator | SecurityAdmin), ControlledWriteCreate => true
  | (ChangeApprover | SecurityAdmin), ControlledWriteApprove => true
  | SecurityAdmin, PermSecurityAdmin => true
  | _, _ => false
  end.

Inductive AuthenticationMethod :=
| LocalDevelopment | LegacyBearer | Oidc | Mtls | ServiceAccountMethod | BreakGlass.

#[export] Instance AuthenticationMethod_eq_dec : EqDecision AuthenticationMethod.
Proof. solve_decision. Defined.

Record Principal := {
  pr_principal_id : string;
  pr_roles : gset Role;
  pr_method : AuthenticationMethod;
  pr_authenticated : bool;
}.

Definition local_viewer : Principal :=
  {| pr_principal_id := "local-development"; pr_roles := {[Viewer]};
     pr_method := LocalDevelopment; pr_authenticated := false |}.

Definition authenticated_viewer : Principal :=
  {| pr_principal_id := "legacy-bearer"; pr_roles := {[Viewer]};
     pr_method := LegacyBearer; pr_authenticated := true |}.

(** [Principal::role]: the first role in the order of the enum. *)
Definition principal_role (p : Principal) : Role :=
  default Viewer (List.find (fun r => bool_decide (r ∈ pr_roles p)) all_roles).

Definition principal_permits (p : Principal) (permission : Permission) : bool :=
  existsb (fun r => bool_decide (r ∈ pr_roles p) && role_permits r permission) all_roles.

(** ** Text and digests *)

(** [HeaderMap]: names in lower case; [get] answers the first value, and
    [to_str] takes visible ASCII and tabs. *)
Definition HeaderMap : Type := list (string * string).

Fixpoint header_get (name : string) (headers : HeaderMap) : option string :=
  match headers with
  | [] => None
  | (n, v) :: rest => if String.eqb n name then Some v else header_get name rest
  end.

Definition header_to_str (value : string) : option string :=
  if forallb (fun b => in_range 32 126 b || (b =? 9)) (str_bytes value) then Some value else None.

(** [headers.get(name).and_then(|value| value.to_str().ok())]. *)
Definition header_str (name : string) (headers : HeaderMap) : option string :=
  header_get name headers ≫= header_to_str.

Definition bearer_token (headers : HeaderMap) : option string :=
  header_str "authorization" headers ≫= strip_prefix "Bearer ".

Definition validate_token (token : string) : result string unit :=
  let len := str_len token in
  reject? negb (in_range MIN_TOKEN_BYTES MAX_TOKEN_BYTES len)
    as ("auth token must be between " +:+ pretty MIN_TOKEN_BYTES +:+ " and "
        +:+ pretty MAX_TOKEN_BYTES +:+ " bytes") in
  reject? existsb (fun b => is_ascii_control b || is_ascii_whitespace b) (str_bytes token)
    as "auth token must not contain whitespace or control characters" in
  Ok tt.

Definition validate_identity_text (value field : string) : result string string :=
  reject? str_is_empty (str_trim value) || (256 <? str_len value)
          || existsb (fun b => negb (b <? 128) || is_ascii_control b) (str_bytes value)
    as (field +:+ " is invalid") in
  Ok value.

(** [u8::from_str_radix(.., 16)] on one digit. *)
Definition hex_value (b : Z) : Z :=
  if is_ascii_digit b then b - 48 else if in_range 97 102 b then b - 87 else b - 55.

Fixpoint hex_pairs (bs : list Z) : list Z :=
  match bs with
  | hi :: lo :: rest => 16 * hex_value hi + hex_value lo :: hex_pairs rest
  | _ => []
  end.

Definition parse_sha256 (value field : string) : result string (list Z) :=
  reject? negb (str_len value =? 64)
          || negb (forallb (fun b => is_ascii_hexdigit b && negb (is_ascii_uppercase b))
                           (str_bytes value))
    as (field +:+ " must be lowercase SHA-256 hex") in
  Ok (hex_pairs (str_bytes value)).

(** [constant_time_eq] on two arrays of 32 bytes. *)
Definition constant_time_eq (left right : list Z) : bool :=
  foldl (fun diff lr => Z.lor diff (Z.lxor lr.1 lr.2)) 0 (zip left right) =? 0.

(** [parse_roles]: collected into a set. *)
Fixpoint collect_roles (values : list string) : result string (gset Role) :=
  match values with
  | [] => Ok ∅
  | value :: rest =>
      let? role := role_parse value in
      let? roles := collect_roles rest in
      Ok ({[role]} ∪ roles)
  end.

Definition parse_roles (values : list string) : result string (gset Role) :=
  reject? bool_decide (values = []) || (5 <? Z.of_nat (length values))
    as "identity must have 1-5 roles" in
  collect_roles values.

(** ** Configuration *)

Record ServiceAccountFile := {
  saf_principal_id : string;
  saf_token_sha256 : string;
  saf_expires_at : string;
  saf_roles : list string;
}.

Record BreakGlassFile := { bgf_enabled : bool; bgf_account : ServiceAccountFile }.

Record MtlsIdentityFile := {
  mif_subject : string;
  mif_principal_id : string;
  mif_roles : list string;
}.

Record OidcKeyFile := {
  okf_kid : string;
  okf_algorithm : string;
  okf_public_key_base64url : string;
}.

Record JwkFile := {
  jwk_kty : string;
  jwk_crv : string;
  jwk_alg : string;
  jwk_key_use : string;
  jwk_kid : string;
  jwk_x : string;
}.

Record RoleMappingFile := { rmf_group : string; rmf_role : string }.

Record OidcFile := {
  of_issuer : string;
  of_audience : string;
  of_groups_claim : string;
  of_keys : list OidcKeyFile;
  of_jwks_file : option string;
  of_role_mappings : list RoleMappingFile;
}.

Record AuthConfigFile := {
  acf_local_development : bool;
  acf_mtls_proxy_secret_sha256 : option string;
  acf_service_accounts : list ServiceAccountFile;
  acf_oidc : option OidcFile;
  acf_mtls_subjects : list MtlsIdentityFile;
  acf_break_glass : option BreakGlassFile;
}.

Record ServiceAccount := {
  sa_principal_id : string;
  sa_token_digest : list Z;
  sa_expires_at : Z;
  sa_roles : gset Role;
}.

Record MtlsIdentity := { mi_principal_id : string; mi_roles : gset Role }.

Record OidcVerifier := {
  ov_issuer : string;
  ov_audience : string;
  ov_groups_claim : string;
  ov_keys : gmap string (list Z);
  ov_mappings : gmap string (gset Role);
}.

Record AuthConfig := {
  ac_local_development : bool;
  ac_mtls_proxy_secret_digest : option (list Z);
  ac_service_accounts : list ServiceAccount;
  ac_oidc : option OidcVerifier;
  ac_mtls_subjects : gmap string MtlsIdentity;
  ac_break_glass : option ServiceAccount;
}.

(** [AuthConfig { local_development, ..AuthConfig::default() }]. *)
Definition default_auth_config (local_development : bool) : AuthConfig :=
  {| ac_local_development := local_development; ac_mtls_proxy_secret_digest := None;
     ac_service_accounts := []; ac_oidc := None; ac_mtls_subjects := ∅; ac_break_glass := None |}.

(** [AuthToken]: the digest of the legacy token. *)
Record AuthToken := { at_digest : list Z }.

Record Authenticator := { au_legacy_bearer : option AuthToken; au_config : AuthConfig }.

Inductive AuthFailure := AuthMissing | AuthInvalid | AuthExpired.

#[export] Instance AuthFailure_eq_dec : EqDecision AuthFailure.
Proof. solve_decision. Defined.

(** ** JWT *)

Record JwtHeader := { jh_alg : string; jh_kid : string; jh_typ : option string }.

Inductive Audience := One (value : string) | Many (values : list string).

Record JwtClaims := {
  jc_iss : string;
  jc_aud : Audience;
  jc_sub : string;
  jc_exp : Z;
  jc_nbf : option Z;
  jc_extra : list (string * Value);
}.

Definition audience_contains (a : Audience) (expected : string) : bool :=
  match a with
  | One value => String.eqb value expected
  | Many values => existsb (fun value => String.eqb value expected) values
  end.

(** toml and serde_json into the types above. *)
Class AuthDecoders := {
  auth_config_from_toml : string -> option AuthConfigFile;
  jwks_from_json : string -> option (list JwkFile);
  jwt_header_from_slice : list Z -> option JwtHeader;
  jwt_claims_from_slice : list Z -> option JwtClaims;
}.

(** [unix_timestamp]. *)
Definition unix_timestamp (now : Z) : Z := now / 1000000000.

(** [Duration::hours(1)]. *)
Definition one_hour : Z := 3600 * 1000000000.

Section auth.
Context `{TimeOps, Sha256Ops, Base64Ops, Ed25519Ops, AuthDecoders}.

Definition digest (token : string) : list Z := sha256 (str_bytes token).

(** *** Reading files *)

(** [open_existing_private_read], then at most one byte more than the limit. *)
Definition read_private_text (files : string -> option string) (path : string) (limit : Z)
    (label : string) : result string string :=
  let? content := ok_or (files path) "private file cannot be read" in
  let raw := String.substring 0 (Z.to_nat (limit + 1)) content in
  check? utf8_valid (str_bytes raw) else "stream did not contain valid UTF-8" in
  reject? limit <? str_len raw as (label +:+ " file is too large") in
  Ok raw.

Definition from_token_text (raw : string) : result string AuthToken :=
  let token := trim_end_matches (fun c => (c =? 13) || (c =? 10)) raw in
  let? _ := validate_token token in
  Ok {| at_digest := digest token |}.

Definition auth_token_from_private_file (files : string -> option string) (path : string)
    : result string AuthToken :=
  let? raw := read_private_text files path MAX_TOKEN_BYTES "auth token" in
  from_token_text raw.

Definition service_account_try_from (value : ServiceAccountFile) : result string ServiceAccount :=
  let? principal_id := validate_identity_text (saf_principal_id value) "principal_id" in
  let? token_digest := parse_sha256 (saf_token_sha256 value) "token_sha256" in
  let? expires_at := ok_or (rfc3339_parse (saf_expires_at value))
                           "service-account expiry must be RFC3339" in
  let? roles := parse_roles (saf_roles value) in
  Ok {| sa_principal_id := principal_id; sa_token_digest := token_digest;
        sa_expires_at := expires_at; sa_roles := roles |}.

Definition mtls_identity_try_from (value : MtlsIdentityFile) : result string MtlsIdentity :=
  let? principal_id := validate_identity_text (mif_principal_id value) "principal_id" in
  let? roles := parse_roles (mif_roles value) in
  Ok {| mi_principal_id := principal_id; mi_roles := roles |}.

(** The keys of a JWKS file, appended to the keys of the configuration. *)
Fixpoint jwks_keys (keys : list OidcKeyFile) (jwks : list JwkFile) : result string (list OidcKeyFile) :=
  match jwks with
  | [] => Ok keys
  | key :: rest =>
      reject? negb (String.eqb (jwk_kty key) "OKP") || negb (String.eqb (jwk_crv key) "Ed25519")
              || negb (String.eqb (jwk_alg key) "EdDSA")
              || negb (String.eqb (jwk_key_use key) "sig")
        as "OIDC JWKS key must be an Ed25519 signing key" in
      jwks_keys (keys ++ [{| okf_kid := jwk_kid key; okf_algorithm := jwk_alg key;
                             okf_public_key_base64url := jwk_x key |}]) rest
  end.

Definition load_jwks (files : string -> option string) (value : OidcFile)
    : result string (list OidcKeyFile) :=
  match of_jwks_file value with
  | None => Ok (of_keys value)
  | Some path =>
      check? starts_with "/" path else "OIDC jwks_file must be absolute" in
      let? text := read_private_text files path MAX_AUTH_CONFIG_BYTES "OIDC JWKS cache" in
      let? jwks := ok_or (jwks_from_json text) "OIDC JWKS cache is invalid" in
      jwks_keys (of_keys value) jwks
  end.

Fixpoint oidc_keys (keys : gmap string (list Z)) (l : list OidcKeyFile)
    : result string (gmap string (list Z)) :=
  match l with
  | [] => Ok keys
  | key :: rest =>
      check? String.eqb (okf_algorithm key) "EdDSA" else "OIDC key algorithm must be EdDSA" in
      let? kid := validate_identity_text (okf_kid key) "OIDC key id" in
      let? decoded := ok_or (base64url_decode (okf_public_key_base64url key))
                            "OIDC Ed25519 key is invalid" in
      check? (length decoded =? 32)%nat else "OIDC Ed25519 key must be 32 bytes" in
      reject? bool_decide (is_Some (keys !! kid)) as "OIDC key id is duplicated" in
      oidc_keys (<[kid := decoded]> keys) rest
  end.

Fixpoint oidc_mappings (mappings : gmap string (gset Role)) (l : list RoleMappingFile)
    : result string (gmap string (gset Role)) :=
  match l with
  | [] => Ok mappings
  | mapping :: rest =>
      let? group := validate_identity_text (rmf_group mapping) "OIDC group" in
      let? role := role_parse (rmf_role mapping) in
      oidc_mappings (<[group := {[role]} ∪ default ∅ (mappings !! group)]> mappings) rest
  end.

Definition oidc_verifier_try_from (files : string -> option string) (value : OidcFile)
    : result string OidcVerifier :=
  let? issuer := validate_identity_text (of_issuer value) "OIDC issuer" in
  let? audience := validate_identity_text (of_audience value) "OIDC audience" in
  let? groups_claim := validate_identity_text (of_groups_claim value) "OIDC groups claim" in
  let? keys := load_jwks files value in
  reject? bool_decide (keys = []) || (MAX_AUTH_ENTRIES <? Z.of_nat (length keys))
    as "OIDC must configure 1-256 JWKS keys" in
  let? keys := oidc_keys ∅ keys in
  let? mappings := oidc_mappings ∅ (of_role_mappings value) in
  Ok {| ov_issuer := issuer; ov_audience := audience; ov_groups_claim := groups_claim;
        ov_keys := keys; ov_mappings := mappings |}.

(** [map(f).transpose()?] on an option. *)
Definition transpose {A B} (f : A -> result string B) (o : option A) : result string (option B) :=
  match o with
  | None => Ok None
  | Some a => let? b := f a in Ok (Some b)
  end.

Definition break_glass_account (now : Z) (entry : BreakGlassFile) : result string ServiceAccount :=
  check? bgf_enabled entry else "break-glass identity must be explicitly enabled" in
  let? account := service_account_try_from (bgf_account entry) in
  check? bool_decide (SecurityAdmin ∈ sa_roles account)
    else "break-glass identity must include security-admin" in
  reject? (sa_expires_at account <=? now) || (now + one_hour <? sa_expires_at account)
    as "break-glass expiry must be within one hour" in
  Ok account.

Fixpoint mtls_subjects_loop (subjects : gmap string MtlsIdentity) (l : list MtlsIdentityFile)
    : result string (gmap string MtlsIdentity) :=
  match l with
  | [] => Ok subjects
  | entry :: rest =>
      let? subject := validate_identity_text (mif_subject entry) "mTLS subject" in
      let? identity := mtls_identity_try_from entry in
      reject? bool_decide (is_Some (subjects !! subject))
        as "auth config contains a duplicate mTLS subject" in
      mtls_subjects_loop (<[subject := identity]> subjects) rest
  end.

Fixpoint service_accounts (l : list ServiceAccountFile) : result string (list ServiceAccount) :=
  match l with
  | [] => Ok []
  | entry :: rest =>
      let? account := service_account_try_from entry in
      let? accounts := service_accounts rest in
      Ok (account :: accounts)
  end.

(** [AuthConfig::from_private_file] once the file is decoded. *)
Definition auth_config_from_file (files : string -> option string) (now : Z) (file : AuthConfigFile)
    : result string AuthConfig :=
  reject? (MAX_AUTH_ENTRIES <? Z.of_nat (length (acf_service_accounts file)))
          || (MAX_AUTH_ENTRIES <? Z.of_nat (length (acf_mtls_subjects file)))
    as "auth config contains too many identities" in
  let? mtls_proxy_secret_digest :=
    transpose (fun value => parse_sha256 value "mtls_proxy_secret_sha256")
              (acf_mtls_proxy_secret_sha256 file) in
  reject? bool_decide (acf_mtls_subjects file = [])
          && bool_decide (is_Some mtls_proxy_secret_digest)
    as "mTLS proxy secret requires at least one mTLS subject mapping" in
  reject? negb (bool_decide (acf_mtls_subjects file = []))
          && negb (bool_decide (is_Some mtls_proxy_secret_digest))
    as "mTLS subject mappings require mtls_proxy_secret_sha256" in
  let? accounts := service_accounts (acf_service_accounts file) in
  let? break_glass := transpose (break_glass_account now) (acf_break_glass file) in
  let? mtls_subjects := mtls_subjects_loop ∅ (acf_mtls_subjects file) in
  let? oidc := transpose (oidc_verifier_try_from files) (acf_oidc file) in
  Ok {| ac_local_development := acf_local_development file;
        ac_mtls_proxy_secret_digest := mtls_proxy_secret_digest;
        ac_service_accounts := accounts; ac_oidc := oidc; ac_mtls_subjects := mtls_subjects;
        ac_break_glass := break_glass |}.

Definition auth_config_from_private_file (files : string -> option string) (now : Z)
    (path : string) : result string AuthConfig :=
  let? text := read_private_text files path MAX_AUTH_CONFIG_BYTES "auth config" in
  let? file := ok_or (auth_config_from_toml text) "auth config is invalid" in
  auth_config_from_file files now file.

Definition has_remote_method (c : AuthConfig) : bool :=
  negb (bool_decide (ac_service_accounts c = [])) || bool_decide (is_Some (ac_oidc c))
  || negb (bool_decide (ac_mtls_subjects c = ∅)) || bool_decide (is_Some (ac_break_glass c)).

(** [Authenticator::load]. *)
Definition authenticator_load (files : string -> option string) (now : Z)
    (legacy_bearer : option AuthToken) (config_path : option string) : result string Authenticator :=
  let? loaded := transpose (auth_config_from_private_file files now) config_path in
  let config := default (default_auth_config (negb (bool_decide (is_Some (at_digest <$> legacy_bearer)))))
                        loaded in
  reject? ac_local_development config
          && (bool_decide (is_Some (at_digest <$> legacy_bearer)) || has_remote_method config)
    as "local development auth cannot be combined with remote authentication" in
  Ok {| au_legacy_bearer := legacy_bearer; au_config := config |}.

Definition auth_enabled (a : Authenticator) : bool :=
  bool_decide (is_Some (at_digest <$> au_legacy_bearer a)) || has_remote_method (au_config a).

Definition mtls_proxy_enabled (a : Authenticator) : bool :=
  negb (bool_decide (ac_mtls_subjects (au_config a) = ∅)).

(** ** Authentication *)

Definition service_account_principal (account : ServiceAccount) (now : Z)
    (method : AuthenticationMethod) : result AuthFailure Principal :=
  reject? sa_expires_at account <=? now as AuthExpired in
  Ok {| pr_principal_id := sa_principal_id account; pr_roles := sa_roles account;
        pr_method := method; pr_authenticated := true |}.

Definition mtls_principal (identity : MtlsIdentity) : Principal :=
  {| pr_principal_id := mi_principal_id identity; pr_roles := mi_roles identity;
     pr_method := Mtls; pr_authenticated := true |}.

(** The loop over the groups of a token. *)
Fixpoint group_roles (v : OidcVerifier) (roles : gset Role) (groups : list Value)
    : result AuthFailure (gset Role) :=
  match groups with
  | [] => Ok roles
  | group :: rest =>
      let? name := ok_or (as_str group) AuthInvalid in
      group_roles v (roles ∪ default ∅ (ov_mappings v !! name)) rest
  end.

(** The checks on the claims of a token whose signature is valid. *)
Definition claims_principal (v : OidcVerifier) (now : Z) (claims : JwtClaims)
    : result AuthFailure Principal :=
  reject? negb (String.eqb (jc_iss claims) (ov_issuer v))
          || negb (audience_contains (jc_aud claims) (ov_audience v)) as AuthInvalid in
  let now := unix_timestamp now in
  reject? jc_exp claims <=? now as AuthExpired in
  reject? match jc_nbf claims with Some not_before => now <? not_before | None => false end
    as AuthInvalid in
  let? subject := map_err (fun _ => AuthInvalid)
                          (validate_identity_text (jc_sub claims) "OIDC subject") in
  let? groups := ok_or (map_get (ov_groups_claim v) (jc_extra claims) ≫= as_array) AuthInvalid in
  reject? MAX_AUTH_ENTRIES <? Z.of_nat (length groups) as AuthInvalid in
  let? roles := group_roles v ∅ groups in
  reject? bool_decide (roles = ∅) as AuthInvalid in
  Ok {| pr_principal_id := subject; pr_roles := roles; pr_method := Oidc;
        pr_authenticated := true |}.

(** [token.split('.')] into exactly three segments. *)
Definition oidc_authenticate (v : OidcVerifier) (now : Z) (token : string)
    : result AuthFailure Principal :=
  reject? MAX_TOKEN_BYTES <? str_len token as AuthInvalid in
  match str_split (fun c => c =? 46) token with
  | [header_segment; claims_segment; signature_segment] =>
      reject? (MAX_JWT_SEGMENT_BYTES <? str_len header_segment)
              || (MAX_JWT_SEGMENT_BYTES <? str_len claims_segment)
              || (MAX_JWT_SEGMENT_BYTES <? str_len signature_segment) as AuthInvalid in
      let? header := ok_or (base64url_decode header_segment ≫= jwt_header_from_slice) AuthInvalid in
      reject? negb (String.eqb (jh_alg header) "EdDSA")
              || match jh_typ header with Some typ => negb (String.eqb typ "JWT") | None => false end
        as AuthInvalid in
      let? public_key := ok_or (ov_keys v !! jh_kid header) AuthInvalid in
      let? signature := ok_or (base64url_decode signature_segment) AuthInvalid in
      check? ed25519_verify public_key
               (str_bytes (header_segment +:+ "." +:+ claims_segment)) signature else AuthInvalid in
      let? claims := ok_or (base64url_decode claims_segment ≫= jwt_claims_from_slice) AuthInvalid in
      claims_principal v now claims
  | _ => Err AuthInvalid
  end.

(** [token.matches('.').count()]. *)
Definition dot_count (token : string) : nat :=
  length (List.filter (fun b => b =? 46) (str_bytes token)).

Definition authenticate_bearer (a : Authenticator) (now : Z) (token : string)
    : result AuthFailure Principal :=
  check? is_ok (validate_token token) else AuthInvalid in
  let token_digest := digest token in
  let config := au_config a in
  let matches_account account := constant_time_eq (sa_token_digest account) token_digest in
  if match au_legacy_bearer a with
     | Some legacy => constant_time_eq (at_digest legacy) token_digest
     | None => false
     end
  then Ok authenticated_viewer
  else match List.find matches_account (ac_service_accounts config) with
  | Some account => service_account_principal account now ServiceAccountMethod
  | None =>
      match opt_filter matches_account (ac_break_glass config) with
      | Some account => service_account_principal account now BreakGlass
      | None =>
          match ac_oidc config with
          | Some oidc =>
              if (dot_count token =? 2)%nat then oidc_authenticate oidc now token
              else Err AuthInvalid
          | None => Err AuthInvalid
          end
      end
  end.

Definition authenticate_mtls (a : Authenticator) (headers : HeaderMap) : result AuthFailure Principal :=
  let? proxy_secret := ok_or (header_str MTLS_PROXY_SECRET_HEADER headers) AuthInvalid in
  let? expected := ok_or (ac_mtls_proxy_secret_digest (au_config a)) AuthInvalid in
  check? is_ok (validate_token proxy_secret)
         && constant_time_eq expected (digest proxy_secret) else AuthInvalid in
  let? subject := ok_or (header_str MTLS_SUBJECT_HEADER headers) AuthInvalid in
  let? identity := ok_or (ac_mtls_subjects (au_config a) !! subject) AuthInvalid in
  Ok (mtls_principal identity).

Definition authenticate (a : Authenticator) (now : Z) (headers : HeaderMap)
    : result AuthFailure Principal :=
  match bearer_token headers with
  | Some token => authenticate_bearer a now token
  | None =>
      if bool_decide (header_str MTLS_VERIFIED_HEADER headers = Some "SUCCESS")
      then authenticate_mtls a headers
      else if ac_local_development (au_config a) then Ok local_viewer
      else Err AuthMissing
  end.

(** [AuthToken::authenticate_headers]. *)
Definition authenticate_headers (t : AuthToken) (headers : HeaderMap) : option Principal :=
  match bearer_token headers with
  | Some token =>
      if constant_time_eq (at_digest t) (digest token) then Some authenticated_viewer else None
  | None => None
  end.

End auth.

(** ** Failure counters *)

(** The four counters of the process. *)
Record AuthCounters := {
  auth_missing_total : Z;
  auth_invalid_total : Z;
  auth_expired_total : Z;
  auth_forbidden_total : Z;
}.

(** [fetch_add(1)] wraps around. *)
Definition fetch_add (n : Z) : Z := (n + 1) mod 2 ^ 64.

(** [AuthFailure::record]. *)
Definition record_failure (f : AuthFailure) (c : AuthCounters) : AuthCounters :=
  match f with
  | AuthMissing => {| auth_missing_total := fetch_add (auth_missing_total c);
                      auth_invalid_total := auth_invalid_total c;
                      auth_expired_total := auth_expired_total c;
                      auth_forbidden_total := auth_forbidden_total c |}
  | AuthInvalid => {| auth_missing_total := auth_missing_total c;
                      auth_invalid_total := fetch_add (auth_invalid_total c);
                      auth_expired_total := auth_expired_total c;
                      auth_forbidden_total := auth_forbidden_total c |}
  | AuthExpired => {| auth_missing_total := auth_missing_total c;
                      auth_invalid_total := auth_invalid_total c;
                      auth_expired_total := fetch_add (auth_expired_total c);
                      auth_forbidden_total := auth_forbidden_total c |}
  end.

Definition record_forbidden (c : AuthCounters) : AuthCounters :=
  {| auth_missing_total := auth_missing_total c; auth_invalid_total := auth_invalid_total c;
     auth_expired_total := auth_expired_total c;
     auth_forbidden_total := fetch_add (auth_forbidden_total c) |}.

Definition auth_failure_counts (c : AuthCounters) : list Z :=
  [auth_missing_total c; auth_invalid_total c; auth_expired_total c; auth_forbidden_total c].
