(* ===== verification/ApiCursor.v ===== *)
(** * ApiCursor: signed cursors and the checks on query parameters
      (ocfleet-api/src/cursor_keys.rs, responses.rs and the helpers of v1.rs)

    A cursor is the base64 text of a JSON payload, a dot, and the hexadecimal
    HMAC of that text under the current key.  The payload names the key, the
    resource, the digest of the filters and the position after which the next
    page starts.  base64 and the JSON codec of the payload are parameters. *)

From stdpp Require Import pretty.
From S2P Require Import Prelude Text External InputValidation StoreTypes AlertWebhook ApiAuth.

(** ** Errors (responses.rs) *)

(** [ApiError]; the identifier of the request is added where the response is
    built. *)
Record ApiError := { ap_status : Z; ap_error_code : string; ap_message : string }.

#[export] Instance ApiError_eq_dec : EqDecision ApiError.
Proof. solve_decision. Defined.

Definition ApiResult (A : Type) : Type := result ApiError A.

Definition bad_request (message : string) : ApiError :=
  {| ap_status := 400; ap_error_code := "BAD_REQUEST"; ap_message := message |}.
Definition invalid_cursor (message : string) : ApiError :=
  {| ap_status := 400; ap_error_code := "INVALID_CURSOR"; ap_message := message |}.
Definition unauthorized : ApiError :=
  {| ap_status := 401; ap_error_code := "UNAUTHORIZED";
     ap_message := "missing or invalid bearer token" |}.
Definition forbidden : ApiError :=
  {| ap_status := 403; ap_error_code := "FORBIDDEN";
     ap_message := "authenticated principal is not permitted for this route" |}.
Definition not_found (message : string) : ApiError :=
  {| ap_status := 404; ap_error_code := "NOT_FOUND"; ap_message := message |}.
Definition method_not_allowed : ApiError :=
  {| ap_status := 405; ap_error_code := "METHOD_NOT_ALLOWED";
     ap_message := "method not allowed; this API exposes read-only GET routes only" |}.
Definition internal : ApiError :=
  {| ap_status := 500; ap_error_code := "INTERNAL_ERROR"; ap_message := "internal server error" |}.

(** ** Keys (cursor_keys.rs) *)

Definition CURSOR_KEY_FILE_SCHEMA : string := "ocfleet.cursor-keys.v1".
Definition MAX_CURSOR_KEY_FILE_BYTES : Z := 4096.
Definition MAX_CURSOR_KEY_ID_BYTES : Z := 32.

Record CursorKey := { ck_key_id : string; ck_key : list Z }.
Record CursorKeyring := { kr_current : CursorKey; kr_previous : option CursorKey }.

Record CursorKeyEntry := { ke_key_id : string; ke_key_base64 : string }.
Record CursorKeyFile := {
  kfile_schema : string;
  kfile_current : CursorKeyEntry;
  kfile_previous : option CursorKeyEntry;
}.

Definition keyring_find (k : CursorKeyring) (key_id : string) : option CursorKey :=
  if String.eqb (ck_key_id (kr_current k)) key_id then Some (kr_current k)
  else opt_filter (fun previous => String.eqb (ck_key_id previous) key_id) (kr_previous k).

Definition validate_key_id (key_id : string) : result string unit :=
  reject? str_is_empty key_id || (MAX_CURSOR_KEY_ID_BYTES <? str_len key_id)
          || negb (forallb (fun b => is_ascii_alphanumeric b || (b =? 46) || (b =? 95) || (b =? 45))
                           (str_bytes key_id))
    as ("cursor key_id must be 1-" +:+ pretty MAX_CURSOR_KEY_ID_BYTES
        +:+ " ASCII letters, digits, '.', '_', or '-'") in
  Ok tt.

(** ** Payload *)

Definition DEFAULT_LIMIT : Z := 50.
Definition MAX_CURSOR_BYTES : Z := 2048.
Definition CURSOR_TTL_SECONDS : Z := 24 * 60 * 60.

Record CursorPayload := {
  cp_version : Z;
  cp_key_id : string;
  cp_expires_at : Z;
  cp_resource : string;
  cp_after : string;
  cp_filter_hash : string;
}.

Record CursorPosition := {
  pos_resource : string;
  pos_after : string;
  pos_filter_hash : string;
}.

(** base64 without padding and serde_json into the types above. *)
Class CursorCodec := {
  base64url_encode : list Z -> string;
  payload_to_vec : CursorPayload -> list Z;
  payload_from_slice : list Z -> option CursorPayload;
  key_file_from_slice : string -> option CursorKeyFile;
}.

(** [str::split_once] with an ASCII character. *)
Fixpoint split_once (c : Z) (s : string) : option (string * string) :=
  match s with
  | EmptyString => None
  | String a rest =>
      if byte_of a =? c then Some (EmptyString, rest)
      else match split_once c rest with
           | Some (before, after) => Some (String a before, after)
           | None => None
           end
  end.

(** [inner_key[index] ^= byte] for the bytes of the key. *)
Definition xor_into (pad key : list Z) : list Z :=
  zip_with Z.lxor (take (length key) pad) key ++ drop (length key) pad.

Definition clamp_i64 (x : Z) : Z := Z.max i64_min (Z.min x i64_max).

Definition cursor_expiry (now : Z) : Z :=
  clamp_i64 (clamp_i64 (now / CURSOR_TTL_SECONDS + 2) * CURSOR_TTL_SECONDS).

(** [constant_time_eq] on slices. *)
Definition slice_constant_time_eq (left right : list Z) : bool :=
  (length left =? length right)%nat
  && (foldl (fun difference lr => Z.lor difference (Z.lxor lr.1 lr.2)) 0 (zip left right) =? 0).

Definition split_after (value : string) (count : nat) : ApiResult (list string) :=
  let parts := str_split (fun c => c =? 124) value in
  if negb (length parts =? count)%nat || existsb str_is_empty parts
  then Err (invalid_cursor "cursor position is invalid")
  else Ok parts.

(** ** Query parameters *)

Definition page_limit (value : option Z) (max : Z) : ApiResult Z :=
  let v := default (Z.min DEFAULT_LIMIT max) value in
  if (v =? 0) || (max <? v)
  then Err (bad_request ("limit must be between 1 and " +:+ pretty max))
  else Ok v.

Definition validate_filter_value (field value : string) : ApiResult unit :=
  if negb (str_is_empty value) && (str_len value <=? 128)
     && forallb (fun b => is_ascii_alphanumeric b || (b =? 46) || (b =? 95) || (b =? 45)
                          || (b =? 64)) (str_bytes value)
  then Ok tt
  else Err (bad_request (field +:+ " is invalid")).

Definition validate_lookup (value : string) : ApiResult unit :=
  if negb (str_is_empty value) && (str_len value <=? 256)
     && forallb (fun b => is_ascii_alphanumeric b || (b =? 46) || (b =? 95) || (b =? 45)
                          || (b =? 58)) (str_bytes value)
  then Ok tt
  else Err (bad_request "alert lookup is invalid").

Definition parse_label_filter (value : string) : ApiResult (string * string) :=
  match split_once 61 value with
  | None => Err (bad_request "label must use key=value")
  | Some (key, v) =>
      let? _ := map_err bad_request (validate_label_json (VObject [(key, VString v)]) "label") in
      Ok (key, v)
  end.

(** [opt.map(f).transpose()?] for optional parameters. *)
Definition check_param {A} (f : A -> ApiResult unit) (o : option A) : ApiResult unit :=
  match o with Some a => f a | None => Ok tt end.

Definition health_statuses : list string :=
  ["healthy"; "degraded"; "unreachable"; "stale"; "disabled"; "unknown"].

Definition MAX_AUDIT_EXPORT_WINDOW_DAYS : Z := 31.
Definition day_ns : Z := 86400 * 1000000000.

Section cursor.
Context `{TimeOps, Sha256Ops, Base64Ops, Base64Standard, JsonBytes, CursorCodec}.

Definition decode_entry (entry : CursorKeyEntry) : result string CursorKey :=
  let? _ := validate_key_id (ke_key_id entry) in
  let? key := ok_or (base64_decode (ke_key_base64 entry)) "cursor key must be base64" in
  check? (length key =? 32)%nat else "cursor key must decode to exactly 32 bytes" in
  Ok {| ck_key_id := ke_key_id entry; ck_key := key |}.

(** [CursorKeyring::from_private_file]; at most one byte more than the limit is
    read. *)
Definition keyring_from_private_file (files : string -> option string) (path : string)
    : result string CursorKeyring :=
  let? content := ok_or (files path) "private file cannot be read" in
  let raw := String.substring 0 (Z.to_nat (MAX_CURSOR_KEY_FILE_BYTES + 1)) content in
  reject? MAX_CURSOR_KEY_FILE_BYTES <? str_len raw as "cursor key file is too large" in
  let? key_file := ok_or (key_file_from_slice raw) "cursor key file must be closed JSON" in
  check? String.eqb (kfile_schema key_file) CURSOR_KEY_FILE_SCHEMA
    else "cursor key file schema is unsupported" in
  let? current := decode_entry (kfile_current key_file) in
  let? previous := transpose decode_entry (kfile_previous key_file) in
  reject? match previous with
          | Some p => String.eqb (ck_key_id p) (ck_key_id current)
          | None => false
          end as "cursor current and previous key IDs must differ" in
  Ok {| kr_current := current; kr_previous := previous |}.

Definition hmac_sha256 (key message : list Z) : list Z :=
  let inner_key := xor_into (replicate 64 54) key in
  let outer_key := xor_into (replicate 64 92) key in
  sha256 (outer_key ++ sha256 (inner_key ++ message)).

Definition encode_cursor (position : CursorPosition) (keyring : CursorKeyring) (now : Z) : string :=
  let key := kr_current keyring in
  let payload := {| cp_version := 2; cp_key_id := ck_key_id key;
                    cp_expires_at := cursor_expiry (unix_timestamp now);
                    cp_resource := pos_resource position; cp_after := pos_after position;
                    cp_filter_hash := pos_filter_hash position |} in
  let encoded := base64url_encode (payload_to_vec payload) in
  let signature := hex_lower (hmac_sha256 (ck_key key) (str_bytes encoded)) in
  encoded +:+ "." +:+ signature.

Definition decode_cursor (cursor : string) (keyring : CursorKeyring) (resource filter_hash : string)
    (now : Z) : ApiResult string :=
  reject? MAX_CURSOR_BYTES <? str_len cursor as invalid_cursor "cursor is too large" in
  let? (encoded, supplied_signature) :=
    ok_or (split_once 46 cursor) (invalid_cursor "cursor is malformed") in
  let? bytes := ok_or (base64url_decode encoded) (invalid_cursor "cursor payload is invalid") in
  let? payload := ok_or (payload_from_slice bytes) (invalid_cursor "cursor payload is invalid") in
  let? key := ok_or (keyring_find keyring (cp_key_id payload))
                    (invalid_cursor "cursor signature is invalid") in
  let expected_signature := hex_lower (hmac_sha256 (ck_key key) (str_bytes encoded)) in
  check? slice_constant_time_eq (str_bytes supplied_signature) (str_bytes expected_signature)
    else invalid_cursor "cursor signature is invalid" in
  reject? negb (cp_version payload =? 2) || (cp_expires_at payload <=? unix_timestamp now)
          || negb (String.eqb (cp_resource payload) resource)
          || negb (String.eqb (cp_filter_hash payload) filter_hash)
          || str_is_empty (cp_after payload) || (256 <? str_len (cp_after payload))
    as invalid_cursor "cursor does not match this query" in
  Ok (cp_after payload).

(** [audit_export.rs: validate_window]. *)
Definition validate_window (from to : string) : result string (Z * Z) :=
  let? from := ok_or (rfc3339_parse from) "--from must be RFC3339" in
  let? to := ok_or (rfc3339_parse to) "--to must be RFC3339" in
  reject? to <=? from as "--from must be before --to" in
  reject? MAX_AUDIT_EXPORT_WINDOW_DAYS * day_ns <? to - from
    as ("audit export window must be at most " +:+ pretty MAX_AUDIT_EXPORT_WINDOW_DAYS +:+ " days") in
  Ok (from, to).

Definition normalize_window (from to : string) : ApiResult (string * string) :=
  let? (from, to) := map_err bad_request (validate_window from to) in
  Ok (rfc3339_format from, rfc3339_format to).

(** [generic_filter_hash]. *)
Definition generic_filter_hash (value : Value) : string := hex_lower (sha256 (json_bytes value)).

End cursor.
