(* ===== verification/ApiRoutes.v ===== *)
(** * ApiRoutes: the handlers of the read-only API
      (ocfleet-api/src/routes.rs, v1.rs, args.rs, responses.rs)

    A handler authorises the caller, which may advance one of the failure
    counters, and then computes its answer from the tables.  Query parameters
    are the decoded pairs of the URL and a path is its decoded segments.  The
    clock is read once for a request.  The page of the dashboard and a fresh
    request identifier are parameters. *)

From stdpp Require Import pretty.
From S2P Require Import Prelude Text External Net InputValidation StoreTypes StoredText.
From S2P Require Import StoragePayloads StoreDb ObservationPayloads AlertWebhook SchedulerStore.
From S2P Require Import Slo ApiPayloads VersionGovernance ApiStore ApiMetrics AuditExport.
From S2P Require Import ApiProjections ApiAuth ApiCursor.

(** ** Handlers as state over the failure counters *)

Definition Handler (A : Type) : Type := AuthCounters -> AuthCounters * ApiResult A.

#[export] Instance handler_ret : MRet Handler := fun A a c => (c, Ok a).
#[export] Instance handler_bind : MBind Handler := fun A B f m c =>
  let '(c', r) := m c in
  match r with Ok a => f a c' | Err e => (c', Err e) end.

Definition lift {A} (r : ApiResult A) : Handler A := fun c => (c, r).

(** [auth_failure_counts()]. *)
Definition get_counters : Handler AuthCounters := fun c => (c, Ok c).

(** ** Requests and responses *)

Record Request := {
  rq_method : string;
  rq_path : list string;
  rq_query : list (string * string);
  rq_headers : HeaderMap;
}.

Inductive Body := BEmpty | BJson (v : Value) | BText (s : string) | BHtml (s : string).

Record Response := { rs_status_code : Z; rs_headers : HeaderMap; rs_body : Body }.

(** [HeaderMap::insert]. *)
Definition header_insert (name value : string) (headers : HeaderMap) : HeaderMap :=
  List.filter (fun h => negb (String.eqb h.1 name)) headers ++ [(name, value)].

Definition json_response (body : Value) : Response :=
  {| rs_status_code := 200; rs_headers := [("content-type", "application/json")];
     rs_body := BJson body |}.

Record AppState := {
  st_max_limit : Z;
  st_redact : RedactionMode;
  st_authenticator : Authenticator;
  st_cursor_keys : CursorKeyring;
}.

(** What a request meets: the tables, the size of the file, the clock and a
    fresh identifier. *)
Record Env := {
  env_db : ApiDb;
  env_sqlite_bytes : option Z;
  env_now : Z;
  env_uuid : string;
}.

Definition db_result {A} (r : result StoreError A) : ApiResult A := map_err (fun _ => internal) r.

(** ** Query strings *)

(** [Query<T>] with [deny_unknown_fields]: every name is a field, none is
    repeated. *)
Definition closed_query (names : list string) (query : list (string * string)) : bool :=
  forallb (fun e => str_in_list e.1 names) query && bool_decide (NoDup (map fst query)).

Fixpoint param (name : string) (query : list (string * string)) : option string :=
  match query with
  | [] => None
  | (n, v) :: rest => if String.eqb n name then Some v else param name rest
  end.

(** [Option<u64>]. *)
Definition param_u64 (name : string) (query : list (string * string)) : option (option Z) :=
  match param name query with
  | None => Some None
  | Some text => Some <$> int_from_str 0 u64_max (str_bytes text)
  end.

Definition invalid_query : ApiError := bad_request "invalid or unsupported query parameters".
Definition query_refused : ApiError := bad_request "query parameters are not supported".

(** [Query<EmptyQuery>]. *)
Definition no_query (query : list (string * string)) : ApiResult unit :=
  check? closed_query [] query else query_refused in Ok tt.

Record NodesQuery := {
  nq_limit : option Z;
  nq_cursor : option string;
  nq_region : option string;
  nq_role : option string;
  nq_environment : option string;
  nq_label : option string;
  nq_status : option string;
}.

Definition nodes_query (q : list (string * string)) : ApiResult NodesQuery :=
  check? closed_query ["limit"; "cursor"; "region"; "role"; "environment"; "label"; "status"] q
    else invalid_query in
  let? limit := ok_or (param_u64 "limit" q) invalid_query in
  Ok {| nq_limit := limit; nq_cursor := param "cursor" q; nq_region := param "region" q;
        nq_role := param "role" q; nq_environment := param "environment" q;
        nq_label := param "label" q; nq_status := param "status" q |}.

Record HistoryQuery := {
  hq_from : string;
  hq_to : string;
  hq_limit : option Z;
  hq_cursor : option string;
  hq_node_id : option string;
  hq_status : option string;
}.

Definition history_query (q : list (string * string)) : ApiResult HistoryQuery :=
  check? closed_query ["from"; "to"; "limit"; "cursor"; "node_id"; "status"] q else invalid_query in
  let? from := ok_or (param "from" q) invalid_query in
  let? to := ok_or (param "to" q) invalid_query in
  let? limit := ok_or (param_u64 "limit" q) invalid_query in
  Ok {| hq_from := from; hq_to := to; hq_limit := limit; hq_cursor := param "cursor" q;
        hq_node_id := param "node_id" q; hq_status := param "status" q |}.

Record AlertsQuery := {
  aq_from : string;
  aq_to : string;
  aq_limit : option Z;
  aq_cursor : option string;
  aq_state : option string;
  aq_severity : option string;
  aq_node_id : option string;
  aq_reason : option string;
}.

Definition alerts_query (q : list (string * string)) : ApiResult AlertsQuery :=
  check? closed_query ["from"; "to"; "limit"; "cursor"; "state"; "severity"; "node_id"; "reason"] q
    else invalid_query in
  let? from := ok_or (param "from" q) invalid_query in
  let? to := ok_or (param "to" q) invalid_query in
  let? limit := ok_or (param_u64 "limit" q) invalid_query in
  Ok {| aq_from := from; aq_to := to; aq_limit := limit; aq_cursor := param "cursor" q;
        aq_state := param "state" q; aq_severity := param "severity" q;
        aq_node_id := param "node_id" q; aq_reason := param "reason" q |}.

(** ** Checks of routes.rs *)

Definition DEFAULT_QUERY_LIMIT : Z := 50.

Definition bounded_value (value : option Z) (maximum : Z) (name : string) : ApiResult Z :=
  let value := default (Z.min DEFAULT_QUERY_LIMIT maximum) value in
  reject? (value =? 0) || (maximum <? value)
    as bad_request (name +:+ " must be between 1 and " +:+ pretty maximum) in
  Ok value.

Definition parse_redaction (value : option string) (default_mode : RedactionMode)
    : ApiResult RedactionMode :=
  match value with
  | None => Ok default_mode
  | Some value =>
      if String.eqb value "none" then Ok RedactNone
      else if String.eqb value "default" then Ok RedactDefault
      else if String.eqb value "strict" then Ok RedactStrict
      else Err (bad_request "redact must be one of none, default, strict")
  end.

Definition join_comma (l : list string) : string :=
  match l with
  | [] => EmptyString
  | x :: l' => foldl (fun acc y => acc +:+ ", " +:+ y) x l'
  end.

Definition validate_allowed (field value : string) (allowed : list string) : ApiResult unit :=
  if str_in_list value allowed then Ok tt
  else Err (bad_request (field +:+ " must be one of " +:+ join_comma allowed)).

(** [validate_identifier] and [validate_correlation_id] differ in the length. *)
Definition safe_identifier (max_len : Z) (value : string) : bool :=
  negb (str_is_empty value) && (str_len value <=? max_len)
  && forallb (fun b => is_ascii_alphanumeric b || (b =? 45) || (b =? 95) || (b =? 46) || (b =? 58))
             (str_bytes value).

Definition validate_identifier (field value : string) : ApiResult unit :=
  if safe_identifier 256 value then Ok tt
  else Err (bad_request (field +:+ " must be a safe identifier")).

Definition validate_correlation_id (value : string) : bool := safe_identifier 128 value.

(** [if let Some(v) = value && !matches!(v, ...)]. *)
Definition check_supported (field : string) (supported : list string) (value : option string)
    : ApiResult unit :=
  reject? match value with Some v => negb (str_in_list v supported) | None => false end
    as bad_request (field +:+ " is not supported") in
  Ok tt.

(** ** Startup (args.rs) *)

Record ApiCli := {
  cli_read_only : bool;
  cli_listen : IpAddr;
  cli_max_limit : Z;
  cli_redact : RedactionMode;
  cli_auth_token_file : option string;
  cli_auth_config_file : option string;
  cli_cursor_key_file : option string;
}.

Definition ABSOLUTE_MAX_LIMIT : Z := 10000.

Definition is_loopback (ip : IpAddr) : bool :=
  match ip with V4 o => v4_is_loopback o | V6 g => v6_is_loopback g end.

Section api.
Context `{TimeOps, JsonOps, Sha256Ops, JsonBytes, Base64Ops, Base64Standard, Base64Encode}.
Context `{CursorCodec, Ed25519Ops, AuthDecoders, SemverOps, SqliteFunctions}.

(** [ApiConfig::from_cli] and [AppState::from_config]. *)
Definition from_cli (files : string -> option string) (now : Z) (cli : ApiCli)
    : result string AppState :=
  check? cli_read_only cli
    else "--read-only is required; ocfleet-api refuses to start without explicit read-only mode" in
  reject? (cli_max_limit cli =? 0) || (ABSOLUTE_MAX_LIMIT <? cli_max_limit cli)
    as ("--max-limit must be between 1 and " +:+ pretty ABSOLUTE_MAX_LIMIT) in
  let? auth_token := map_err (fun _ => "failed to load --auth-token-file")
    (transpose (auth_token_from_private_file files) (cli_auth_token_file cli)) in
  let? authenticator := map_err (fun _ => "failed to load authentication configuration")
    (authenticator_load files now auth_token (cli_auth_config_file cli)) in
  reject? negb (is_loopback (cli_listen cli)) && negb (auth_enabled authenticator)
    as "--auth-token-file or a remote method in --auth-config-file is required when --listen is not loopback" in
  reject? negb (is_loopback (cli_listen cli)) && mtls_proxy_enabled authenticator
    as "mTLS forwarded identity headers require a loopback listener behind a trusted TLS proxy" in
  let? cursor_key_file := ok_or (cli_cursor_key_file cli)
    "--cursor-key-file is required for stable signed /api/v1 cursors" in
  let? cursor_keys := map_err (fun _ => "failed to load --cursor-key-file")
    (keyring_from_private_file files cursor_key_file) in
  Ok {| st_max_limit := cli_max_limit cli; st_redact := cli_redact cli;
        st_authenticator := authenticator; st_cursor_keys := cursor_keys |}.

(** ** Authorisation *)

Definition authorize (st : AppState) (env : Env) (headers : HeaderMap) (permission : Permission)
    : Handler Principal := fun c =>
  match authenticate (st_authenticator st) (env_now env) headers with
  | Err failure => (record_failure failure c, Err unauthorized)
  | Ok principal =>
      if principal_permits principal permission then (c, Ok principal)
      else (record_forbidden c, Err forbidden)
  end.

Definition now_rfc3339 (env : Env) : string := rfc3339_format (env_now env).

(** ** Responses *)

Definition cache_policy : string := "private, max-age=0, must-revalidate".

Definition etag_of (data : Value) : string :=
  quote +:+ hex_lower (sha256 (json_bytes (VObject [("data", data)]))) +:+ quote.

Definition set_cache_headers (etag : string) (r : Response) : Response :=
  {| rs_status_code := rs_status_code r;
     rs_headers := header_insert "cache-control" cache_policy (header_insert "etag" etag (rs_headers r));
     rs_body := rs_body r |}.

Definition conditional_json (headers : HeaderMap) (data : Value) : Response :=
  let etag := etag_of data in
  if match header_str "if-none-match" headers with
     | Some value => existsb (fun candidate => String.eqb (str_trim candidate) etag)
                             (str_split (fun c => c =? 44) value)
     | None => false
     end
  then set_cache_headers etag {| rs_status_code := 304; rs_headers := []; rs_body := BEmpty |}
  else set_cache_headers etag (json_response (VObject [("data", data)])).

Definition list_response (env : Env) (limit : Z) (items : list Value) : Response :=
  json_response (VObject [("generated_at", VString (now_rfc3339 env)); ("limit", json_u64 limit);
                          ("count", json_u64 (Z.of_nat (length items))); ("items", VArray items)]).

Definition single_response (env : Env) (item : Value) : Response :=
  json_response (VObject [("generated_at", VString (now_rfc3339 env)); ("item", item)]).

Definition summary_response (env : Env) (summary : Value) : Response :=
  json_response (VObject [("generated_at", VString (now_rfc3339 env)); ("summary", summary)]).

Definition page_data (limit : Z) (next : option string) (items : list Value) : Value :=
  VObject [("count", json_u64 (Z.of_nat (length items))); ("items", VArray items);
           ("limit", json_u64 limit); ("next_cursor", json_opt_str next);
           ("schema", VString "ocfleet.api.v1.page")].

(** The position after the last row of a page, if there is more. *)
Definition next_cursor (st : AppState) (env : Env) (resource hash : string) (more : bool)
    (last_position : option string) : option string :=
  if more then
    (fun after => encode_cursor {| pos_resource := resource; pos_after := after;
                                   pos_filter_hash := hash |} (st_cursor_keys st) (env_now env))
    <$> last_position
  else None.

(** ** v1.rs *)

Definition fleet_summary (env : Env) (rq : Request) : ApiResult Response :=
  let? _ := no_query (rq_query rq) in
  let counts := fleet_health_summary (env_db env) in
  let at_ i := json_u64 (default 0 (counts !! i)) in
  Ok (conditional_json (rq_headers rq)
        (VObject [("schema", VString "ocfleet.api.v1.fleet-summary");
                  ("status", VObject [("degraded", at_ 1%nat); ("disabled", at_ 4%nat);
                                      ("healthy", at_ 0%nat); ("stale", at_ 3%nat);
                                      ("unknown", at_ 5%nat); ("unreachable", at_ 2%nat)]);
                  ("total", json_u64 (foldr Z.add 0 counts))])).

Definition version_readiness (env : Env) (rq : Request) : ApiResult Response :=
  let? _ := no_query (rq_query rq) in
  let? inputs := db_result (version_governance_inputs (env_db env) (MAX_VERSION_GOVERNANCE_NODES + 1)) in
  let? report := map_err (fun _ => internal) (build_fleet_version_report inputs) in
  Ok (conditional_json (rq_headers rq) (report_json report)).

Definition node (env : Env) (rq : Request) (id : string) : ApiResult Response :=
  let? _ := no_query (rq_query rq) in
  let? _ := validate_filter_value "node_id" id in
  let? found := db_result (get_node_health (env_db env) id) in
  let? record := ok_or found (not_found ("node not found: " +:+ id)) in
  Ok (conditional_json (rq_headers rq)
        (VObject [("item", health_node_to_json record); ("schema", VString "ocfleet.api.v1.node")])).

Definition filter_hash (q : NodesQuery) : string :=
  generic_filter_hash
    (VObject [("environment", json_opt_str (nq_environment q)); ("label", json_opt_str (nq_label q));
              ("region", json_opt_str (nq_region q)); ("role", json_opt_str (nq_role q));
              ("status", json_opt_str (nq_status q))]).

(** [cursor.map(decode_cursor).transpose()?]. *)
Definition decode_param (st : AppState) (env : Env) (resource hash : string) (cursor : option string)
    : ApiResult (option string) :=
  match cursor with
  | None => Ok None
  | Some cursor =>
      let? after := decode_cursor cursor (st_cursor_keys st) resource hash (env_now env) in
      Ok (Some after)
  end.

(** A page: its size, its rows and the cursor of the next one. *)
Definition Page (A : Type) : Type := Z * list A * option string.

(** The checks on the parameters of [nodes] apart from the cursor. *)
Definition nodes_params (st : AppState) (query : NodesQuery)
    : ApiResult (Z * option (string * string)) :=
  let? limit := page_limit (nq_limit query) (st_max_limit st) in
  let? _ := check_param (validate_filter_value "region") (nq_region query) in
  let? _ := check_param (validate_filter_value "role") (nq_role query) in
  let? _ := check_param (validate_filter_value "environment") (nq_environment query) in
  let? _ := check_supported "status" health_statuses (nq_status query) in
  match nq_label query with
  | None => Ok (limit, None)
  | Some text => let? label := parse_label_filter text in Ok (limit, Some label)
  end.

Definition nodes_filters (query : NodesQuery) (label : option (string * string))
    (after : option string) : NodeListFilters :=
  {| nf_after_node_id := after; nf_region := nq_region query; nf_role := nq_role query;
     nf_environment := nq_environment query; nf_label_key := fst <$> label;
     nf_label_value := snd <$> label; nf_status := nq_status query |}.

(** [nodes] after the parameters are decoded. *)
Definition nodes_page (st : AppState) (env : Env) (query : NodesQuery)
    : ApiResult (Page NodeHealthRecord) :=
  let? (limit, label) := nodes_params st query in
  let hash := filter_hash query in
  let? after := decode_param st env "nodes" hash (nq_cursor query) in
  let? fetch_limit := ok_or (checked_add u64_max limit 1) (bad_request "limit is too large") in
  let? records := db_result (list_node_health_page (env_db env) fetch_limit
                               (nodes_filters query label after)) in
  let has_more := limit <? Z.of_nat (length records) in
  let records := take (Z.to_nat limit) records in
  let next := next_cursor st env "nodes" hash has_more
                ((fun r => node_id (nh_node r)) <$> last records) in
  Ok (limit, records, next).

Definition nodes (st : AppState) (env : Env) (rq : Request) : ApiResult Response :=
  let? query := nodes_query (rq_query rq) in
  let? (limit, records, next) := nodes_page st env query in
  Ok (conditional_json (rq_headers rq) (page_data limit next (map health_node_to_json records))).

Definition history_item (r : HealthHistoryRecord) : Value :=
  let s := hh_snapshot r in
  VObject [("computed_at", VString (hs_computed_at s)); ("endpoint_id", json_of_opt_str (hs_endpoint_id s));
           ("evaluation_id", VString (hh_evaluation_id r));
           ("freshness_seconds", json_of_opt_u64 (hs_freshness_seconds s));
           ("last_error_code", json_of_opt_str (hs_last_error_code s));
           ("last_failure_at", json_of_opt_str (hs_last_failure_at s));
           ("last_success_at", json_of_opt_str (hs_last_success_at s));
           ("node_id", VString (hs_node_id s)); ("status", VString (hs_status s))].

(** [format!("{}|{}|{}", ..)]. *)
Definition history_position (r : HealthHistoryRecord) : string :=
  hs_computed_at (hh_snapshot r) +:+ "|" +:+ hs_node_id (hh_snapshot r) +:+ "|" +:+ hh_evaluation_id r.

Definition history_parts (after : option string) : ApiResult (option (string * string * string)) :=
  match after with
  | None => Ok None
  | Some text =>
      let? parts := split_after text 3 in
      match parts with [a; b; c] => Ok (Some (a, b, c)) | _ => Ok None end
  end.

(** The window and the size of the pages of [health_history]. *)
Definition history_params (st : AppState) (query : HistoryQuery)
    : ApiResult (Z * (string * string)) :=
  let? window := normalize_window (hq_from query) (hq_to query) in
  let? limit := page_limit (hq_limit query) (st_max_limit st) in
  let? _ := check_param (validate_filter_value "node_id") (hq_node_id query) in
  let? _ := check_supported "status" health_statuses (hq_status query) in
  Ok (limit, window).

Definition history_hash (query : HistoryQuery) (window : string * string) : string :=
  generic_filter_hash
    (VObject [("from", VString window.1); ("node_id", json_opt_str (hq_node_id query));
              ("status", json_opt_str (hq_status query)); ("to", VString window.2)]).

Definition history_filters (query : HistoryQuery) (window : string * string)
    (after : option (string * string * string)) : HistoryPageFilters :=
  {| hf_after := after; hf_node_id := hq_node_id query; hf_status := hq_status query;
     hf_from := window.1; hf_to := window.2 |}.

(** [limit + 1] does not overflow below the configured maximum. *)
Definition history_page (st : AppState) (env : Env) (query : HistoryQuery)
    : ApiResult (Page HealthHistoryRecord) :=
  let? (limit, window) := history_params st query in
  let hash := history_hash query window in
  let? after := decode_param st env "health-history" hash (hq_cursor query) in
  let? parts := history_parts after in
  let? rows := db_result (list_health_history_page (env_db env) (limit + 1)
                            (history_filters query window parts)) in
  let more := limit <? Z.of_nat (length rows) in
  let rows := take (Z.to_nat limit) rows in
  let next := next_cursor st env "health-history" hash more (history_position <$> last rows) in
  Ok (limit, rows, next).

Definition health_history (st : AppState) (env : Env) (rq : Request) : ApiResult Response :=
  let? query := history_query (rq_query rq) in
  let? (limit, rows, next) := history_page st env query in
  Ok (conditional_json (rq_headers rq) (page_data limit next (map history_item rows))).

Definition alert_position (r : AlertEventRecord) : string :=
  al_last_seen_at r +:+ "|" +:+ al_alert_id r.

Definition alert_parts (after : option string) : ApiResult (option (string * string)) :=
  match after with
  | None => Ok None
  | Some text =>
      let? parts := split_after text 2 in
      match parts with [a; b] => Ok (Some (a, b)) | _ => Ok None end
  end.

Definition alerts_params (st : AppState) (query : AlertsQuery)
    : ApiResult (Z * (string * string)) :=
  let? window := normalize_window (aq_from query) (aq_to query) in
  let? limit := page_limit (aq_limit query) (st_max_limit st) in
  let? _ := check_param (validate_filter_value "node_id") (aq_node_id query) in
  let? _ := check_param (validate_filter_value "reason") (aq_reason query) in
  let? _ := check_supported "state" ["open"; "silenced"; "resolved"] (aq_state query) in
  let? _ := check_supported "severity" ["warning"; "critical"] (aq_severity query) in
  Ok (limit, window).

Definition alerts_hash (query : AlertsQuery) (window : string * string) : string :=
  generic_filter_hash
    (VObject [("from", VString window.1); ("node_id", json_opt_str (aq_node_id query));
              ("reason", json_opt_str (aq_reason query));
              ("severity", json_opt_str (aq_severity query));
              ("state", json_opt_str (aq_state query)); ("to", VString window.2)]).

Definition alerts_filters (query : AlertsQuery) (window : string * string)
    (after : option (string * string)) : AlertPageFilters :=
  {| af_after := after; af_state := aq_state query; af_severity := aq_severity query;
     af_node_id := aq_node_id query; af_reason := aq_reason query; af_from := window.1;
     af_to := window.2 |}.

Definition alerts_page (st : AppState) (env : Env) (query : AlertsQuery)
    : ApiResult (Page AlertEventRecord) :=
  let? (limit, window) := alerts_params st query in
  let hash := alerts_hash query window in
  let? after := decode_param st env "alerts" hash (aq_cursor query) in
  let? parts := alert_parts after in
  let? rows := db_result (list_alert_page (env_db env) (limit + 1)
                            (alerts_filters query window parts)) in
  let more := limit <? Z.of_nat (length rows) in
  let rows := take (Z.to_nat limit) rows in
  let next := next_cursor st env "alerts" hash more (alert_position <$> last rows) in
  Ok (limit, rows, next).

Definition v1_alerts (st : AppState) (env : Env) (rq : Request) : ApiResult Response :=
  let? query := alerts_query (rq_query rq) in
  let? (limit, rows, next) := alerts_page st env query in
  Ok (conditional_json (rq_headers rq) (page_data limit next (map alert_to_json rows))).

Definition v1_alert (env : Env) (rq : Request) (lookup : string) : ApiResult Response :=
  let? _ := no_query (rq_query rq) in
  let? _ := validate_lookup lookup in
  let? found := db_result (get_alert (env_db env) lookup) in
  let? record := ok_or found (not_found ("alert not found: " +:+ lookup)) in
  Ok (conditional_json (rq_headers rq)
        (VObject [("item", alert_to_json record); ("schema", VString "ocfleet.api.v1.alert")])).

(** ** routes.rs *)

Definition healthz (st : AppState) (env : Env) : ApiResult Response :=
  Ok (json_response (VObject [("auth_enabled", VBool (auth_enabled (st_authenticator st)));
                              ("generated_at", VString (now_rfc3339 env));
                              ("read_only", VBool true); ("status", VString "ok")])).

Definition failure_lines (counts : list Z) : string :=
  let name := "ocfleet_controller_auth_failures_total" in
  "# HELP " +:+ name +:+ " Authentication and authorization failures." +:+ newline
  +:+ "# TYPE " +:+ name +:+ " counter" +:+ newline
  +:+ foldr (fun rv acc => name +:+ "{reason=" +:+ quote +:+ fst rv +:+ quote +:+ "} "
                           +:+ pretty (snd rv) +:+ newline +:+ acc)
            EmptyString (zip ["missing"; "invalid"; "expired"; "forbidden"] counts).

Definition metrics (env : Env) (c : AuthCounters) : ApiResult Response :=
  let? snapshot := db_result (controller_metrics (env_db env) (env_sqlite_bytes env) (now_rfc3339 env)) in
  Ok {| rs_status_code := 200;
        rs_headers := [("content-type", "text/plain; version=0.0.4; charset=utf-8")];
        rs_body := BText (render_controller snapshot +:+ failure_lines (auth_failure_counts c)) |}.

Definition health_summary (st : AppState) (env : Env) : ApiResult Response :=
  let? records := db_result (list_node_health (env_db env) (st_max_limit st)) in
  Ok (summary_response env (health_summary_to_json records)).

Definition health_nodes (st : AppState) (env : Env) : ApiResult Response :=
  let? records := db_result (list_node_health (env_db env) (st_max_limit st)) in
  Ok (list_response env (st_max_limit st) (map health_node_to_json records)).

Definition health_node (env : Env) (id : string) : ApiResult Response :=
  let? _ := validate_identifier "node_id" id in
  let? found := db_result (get_node_health (env_db env) id) in
  let? record := ok_or found (not_found ("node not found: " +:+ id)) in
  Ok (single_response env (health_node_to_json record)).

Definition slo_window (value : option string) : ApiResult SloWindow :=
  match value with
  | Some text =>
      if String.eqb text "24h" then Ok Hours24 else if String.eqb text "7d" then Ok Days7
      else if String.eqb text "30d" then Ok Days30
      else Err (bad_request "window must be one of 24h, 7d, 30d")
  | None => Err (bad_request "window must be one of 24h, 7d, 30d")
  end.

Definition projection_json (p : HealthSloProjection) : Value :=
  struct_value
    [("node_id", VString (sp_node_id p)); ("window", VString (sp_window p));
     ("from", VString (sp_from p)); ("to", VString (sp_to p));
     ("bucket_seconds", json_u64 (sp_bucket_seconds p));
     ("expected_buckets", json_u64 (sp_expected_buckets p));
     ("present_buckets", json_u64 (sp_present_buckets p));
     ("expected_slots", json_u64 (sp_expected_slots p));
     ("covered_slots", json_u64 (sp_covered_slots p));
     ("missing_slots", json_u64 (sp_missing_slots p));
     ("covered_duration_seconds", json_u64 (sp_covered_duration_seconds p));
     ("missing_duration_seconds", json_u64 (sp_missing_duration_seconds p));
     ("coverage_basis_points", json_of_opt_u64 (sp_coverage_basis_points p));
     ("health_samples", json_u64 (sp_health_samples p));
     ("healthy_samples", json_u64 (sp_healthy_samples p));
     ("degraded_samples", json_u64 (sp_degraded_samples p));
     ("unreachable_samples", json_u64 (sp_unreachable_samples p));
     ("stale_samples", json_u64 (sp_stale_samples p));
     ("disabled_samples", json_u64 (sp_disabled_samples p));
     ("unknown_samples", json_u64 (sp_unknown_samples p));
     ("healthy_duration_seconds", json_u64 (sp_healthy_duration_seconds p));
     ("degraded_duration_seconds", json_u64 (sp_degraded_duration_seconds p));
     ("unreachable_duration_seconds", json_u64 (sp_unreachable_duration_seconds p));
     ("stale_duration_seconds", json_u64 (sp_stale_duration_seconds p));
     ("disabled_duration_seconds", json_u64 (sp_disabled_duration_seconds p));
     ("unknown_duration_seconds", json_u64 (sp_unknown_duration_seconds p));
     ("availability_eligible_samples", json_u64 (sp_availability_eligible_samples p));
     ("service_available_basis_points", json_of_opt_u64 (sp_service_available_basis_points p));
     ("strictly_healthy_basis_points", json_of_opt_u64 (sp_strictly_healthy_basis_points p));
     ("observation_count", json_u64 (sp_observation_count p));
     ("observation_error_count", json_u64 (sp_observation_error_count p));
     ("observation_error_basis_points", json_of_opt_u64 (sp_observation_error_basis_points p));
     ("duration_sample_count", json_u64 (sp_duration_sample_count p));
     ("latency_p50_ms_min", json_of_opt_u64 (sp_latency_p50_ms_min p));
     ("latency_p50_ms_max", json_of_opt_u64 (sp_latency_p50_ms_max p));
     ("latency_p95_ms_max", json_of_opt_u64 (sp_latency_p95_ms_max p));
     ("cert_warning_count", json_u64 (sp_cert_warning_count p));
     ("cert_critical_count", json_u64 (sp_cert_critical_count p));
     ("fingerprint_sample_count", json_u64 (sp_fingerprint_sample_count p));
     ("fingerprint_change_count", json_u64 (sp_fingerprint_change_count p))].

(** One round of the loop over the nodes. *)
Definition node_projection (env : Env) (window : SloWindow) (from to id : string) : ApiResult Value :=
  let? _ := map_err (fun _ => internal) (validate_identifier "stored node_id" id) in
  let? rows := db_result (list_health_rollups (env_db env) id (window_bucket_seconds window) from to
                            (window_seconds window / window_bucket_seconds window)) in
  let? projection := ok_or (project_health_slo id window from to rows) internal in
  Ok (projection_json projection).

Definition health_slo (st : AppState) (env : Env) (rq : Request) : ApiResult Response :=
  let q := rq_query rq in
  check? closed_query ["window"; "to"; "node_id"] q else invalid_query in
  let? to := ok_or (param "to" q) (bad_request "to is required") in
  reject? 64 <? str_len to as bad_request "to must not exceed 64 characters" in
  let? window := slo_window (param "window" q) in
  let? _ := check_param (validate_identifier "node_id") (param "node_id" q) in
  let? to_time := ok_or (rfc3339_parse to) (bad_request "to must be RFC3339") in
  reject? negb (Z.rem (unix_timestamp to_time) (window_bucket_seconds window) =? 0)
    as bad_request "to must align to the selected SLO rollup bucket" in
  let from := rfc3339_format (to_time - window_seconds window * 1000000000) in
  let to := rfc3339_format to_time in
  let? node_ids :=
    match param "node_id" q with
    | Some id => Ok [id]
    | None =>
        let? nodes := db_result (health_slo_node_ids (env_db env) (window_bucket_seconds window) from to) in
        reject? (1000 <? Z.of_nat (length nodes)) || (st_max_limit st <? Z.of_nat (length nodes))
          as bad_request "health SLO node count exceeds the bounded fleet maximum" in
        Ok nodes
    end in
  let? projections := try_map (node_projection env window from to) node_ids in
  Ok (json_response (VObject
        [("from", VString from); ("generated_at", VString (now_rfc3339 env));
         ("node_count", json_u64 (Z.of_nat (length projections)));
         ("projections", VArray projections); ("schema", VString "ocfleet.health_slo.v1");
         ("to", VString to); ("window", VString (window_as_str window))])).

Definition jobs (st : AppState) (env : Env) : ApiResult Response :=
  let? jobs := db_result (list_jobs (env_db env) (st_max_limit st)) in
  Ok (list_response env (st_max_limit st) (map job_to_json jobs)).

Definition job (env : Env) (id : string) : ApiResult Response :=
  let? _ := validate_identifier "job_id" id in
  let? found := db_result (get_job (env_db env) id) in
  let? job := ok_or found (not_found ("job not found: " +:+ id)) in
  Ok (single_response env (job_to_json job)).

Definition runs (st : AppState) (env : Env) (rq : Request) : ApiResult Response :=
  let q := rq_query rq in
  check? closed_query ["limit"; "job_id"; "status"] q else invalid_query in
  let? limit := ok_or (param_u64 "limit" q) invalid_query in
  let? limit := bounded_value limit (st_max_limit st) "limit" in
  let? _ := check_param (validate_identifier "job_id") (param "job_id" q) in
  let? _ := check_param (fun s => validate_allowed "status" s run_results) (param "status" q) in
  let? runs := db_result (list_runs (env_db env) limit (param "job_id" q) (param "status" q)) in
  Ok (list_response env limit (map run_to_json runs)).

Definition run (env : Env) (id : string) : ApiResult Response :=
  let? _ := validate_identifier "run_id" id in
  let? found := db_result (get_run (env_db env) id) in
  let? run := ok_or found (not_found ("run not found: " +:+ id)) in
  Ok (single_response env (run_to_json run)).

Definition observations (st : AppState) (env : Env) (rq : Request) : ApiResult Response :=
  let q := rq_query rq in
  check? closed_query ["limit"; "node_id"; "method"] q else invalid_query in
  let? limit := ok_or (param_u64 "limit" q) invalid_query in
  let? limit := bounded_value limit (st_max_limit st) "limit" in
  let? _ := check_param (validate_identifier "node_id") (param "node_id" q) in
  let? _ := check_param (validate_identifier "method") (param "method" q) in
  let? observations := db_result (list_observations (env_db env) limit (param "node_id" q)
                                    (param "method" q)) in
  Ok (list_response env limit (map observation_record_to_json observations)).

Definition observation (env : Env) (id : string) : ApiResult Response :=
  let? _ := validate_identifier "observation_id" id in
  let? found := db_result (get_observation (env_db env) id) in
  let? observation := ok_or found (not_found ("observation not found: " +:+ id)) in
  Ok (single_response env (observation_record_to_json observation)).

Definition alerts (st : AppState) (env : Env) (rq : Request) : ApiResult Response :=
  let q := rq_query rq in
  check? closed_query ["state"; "severity"; "node_id"; "limit"] q else invalid_query in
  let? limit := ok_or (param_u64 "limit" q) invalid_query in
  let? limit := bounded_value limit (st_max_limit st) "limit" in
  let? _ := check_param (fun s => validate_allowed "state" s alert_states) (param "state" q) in
  let? _ := check_param (fun s => validate_allowed "severity" s ["warning"; "critical"])
                        (param "severity" q) in
  let? _ := check_param (validate_identifier "node_id") (param "node_id" q) in
  let? alerts := db_result (list_alerts (env_db env) limit (param "state" q) (param "severity" q)
                              (param "node_id" q)) in
  Ok (list_response env limit (map alert_to_json alerts)).

Definition alert (env : Env) (lookup : string) : ApiResult Response :=
  let? _ := validate_identifier "alert lookup" lookup in
  let? found := db_result (get_alert (env_db env) lookup) in
  let? alert := ok_or found (not_found ("alert not found: " +:+ lookup)) in
  Ok (single_response env (alert_to_json alert)).

(** The window is checked as instants; the query gets the texts of the caller. *)
Definition audit_export (st : AppState) (env : Env) (rq : Request) : ApiResult Response :=
  let q := rq_query rq in
  check? closed_query ["from"; "to"; "redact"; "max_rows"] q else invalid_query in
  let? max_rows := ok_or (param_u64 "max_rows" q) invalid_query in
  let? from := ok_or (param "from" q) (bad_request "from is required") in
  let? to := ok_or (param "to" q) (bad_request "to is required") in
  let? _ := map_err bad_request (validate_window from to) in
  let? max_rows := bounded_value max_rows (st_max_limit st) "max_rows" in
  let? redact := parse_redaction (param "redact" q) (st_redact st) in
  let? query_limit := ok_or (checked_add u64_max max_rows 1) (bad_request "max_rows is too large") in
  let? rows := db_result (list_audit_window (env_db env) from to query_limit) in
  reject? max_rows <? Z.of_nat (length rows)
    as bad_request "audit export row count exceeds max_rows" in
  Ok (list_response env max_rows (map (fun row => audit_to_json row redact) rows)).

(** ** The router *)

Inductive Route :=
| RDashboard | RHealthz | RMetrics | RHealthSummary | RHealthNodes | RHealthNode (id : string)
| RHealthSlo | RJobs | RJob (id : string) | RRuns | RRun (id : string) | RObservations
| RObservation (id : string) | RAlerts | RAlert (lookup : string) | RAuditExport
| RV1FleetSummary | RV1VersionReadiness | RV1Nodes | RV1Node (id : string) | RV1HealthHistory
| RV1Alerts | RV1Alert (lookup : string).

(** A captured segment is not empty. *)
Definition captured (segment : string) (route : string -> Route) : option Route :=
  if str_is_empty segment then None else Some (route segment).

Definition route_of (path : list string) : option Route :=
  match path with
  | [] => Some RDashboard
  | ["healthz"] => Some RHealthz
  | ["metrics"] => Some RMetrics
  | ["health"; "summary"] => Some RHealthSummary
  | ["health"; "nodes"] => Some RHealthNodes
  | ["health"; "nodes"; id] => captured id RHealthNode
  | ["health"; "slo"] => Some RHealthSlo
  | ["jobs"] => Some RJobs
  | ["jobs"; id] => captured id RJob
  | ["runs"] => Some RRuns
  | ["runs"; id] => captured id RRun
  | ["observations"] => Some RObservations
  | ["observations"; id] => captured id RObservation
  | ["alerts"] => Some RAlerts
  | ["alerts"; lookup] => captured lookup RAlert
  | ["audit"; "export"] => Some RAuditExport
  | ["api"; "v1"; "fleet"; "summary"] => Some RV1FleetSummary
  | ["api"; "v1"; "version"; "readiness"] => Some RV1VersionReadiness
  | ["api"; "v1"; "nodes"] => Some RV1Nodes
  | ["api"; "v1"; "nodes"; id] => captured id RV1Node
  | ["api"; "v1"; "health"; "history"] => Some RV1HealthHistory
  | ["api"; "v1"; "alerts"] => Some RV1Alerts
  | ["api"; "v1"; "alerts"; lookup] => captured lookup RV1Alert
  | _ => None
  end.

(** The permission that each handler asks for; the dashboard asks for none. *)
Definition route_permission (r : Route) : option Permission :=
  match r with
  | RDashboard => None
  | RHealthz | RHealthSummary | RHealthNodes | RHealthNode _ | RHealthSlo | RV1HealthHistory =>
      Some HealthRead
  | RMetrics => Some MetricsRead
  | RAuditExport => Some AuditRead
  | _ => Some FleetRead
  end.

(** The answer of a handler after its authorisation. *)
Definition route_body (st : AppState) (env : Env) (rq : Request) (c : AuthCounters) (r : Route)
    : ApiResult Response :=
  match r with
  | RDashboard => Err internal
  | RHealthz => healthz st env
  | RMetrics => metrics env c
  | RHealthSummary => health_summary st env
  | RHealthNodes => health_nodes st env
  | RHealthNode id => health_node env id
  | RHealthSlo => health_slo st env rq
  | RJobs => jobs st env
  | RJob id => job env id
  | RRuns => runs st env rq
  | RRun id => run env id
  | RObservations => observations st env rq
  | RObservation id => observation env id
  | RAlerts => alerts st env rq
  | RAlert lookup => alert env lookup
  | RAuditExport => audit_export st env rq
  | RV1FleetSummary => fleet_summary env rq
  | RV1VersionReadiness => version_readiness env rq
  | RV1Nodes => nodes st env rq
  | RV1Node id => node env rq id
  | RV1HealthHistory => health_history st env rq
  | RV1Alerts => v1_alerts st env rq
  | RV1Alert lookup => v1_alert env rq lookup
  end.

(** The page and the bodies of its style and script elements. *)
Variable dashboard_html style_body script_body : string.

Definition csp_hash (value : string) : string := base64_encode (sha256 (str_bytes value)).

Definition dashboard_csp : string :=
  "default-src 'none'; script-src 'sha256-" +:+ csp_hash script_body
  +:+ "'; style-src 'sha256-" +:+ csp_hash style_body
  +:+ "'; connect-src 'self'; img-src 'self'; base-uri 'none'; form-action 'self'; frame-ancestors 'none'".

Definition dashboard : Response :=
  {| rs_status_code := 200;
     rs_headers := [("content-type", "text/html; charset=utf-8");
                    ("content-security-policy", dashboard_csp);
                    ("x-content-type-options", "nosniff"); ("referrer-policy", "no-referrer");
                    ("cache-control", "no-store"); ("x-frame-options", "DENY")];
     rs_body := BHtml dashboard_html |}.

Definition run_route (st : AppState) (env : Env) (rq : Request) (r : Route) : Handler Response :=
  match route_permission r with
  | None => mret dashboard
  | Some permission =>
      _ ← authorize st env (rq_headers rq) permission;
      c ← get_counters;
      lift (route_body st env rq c r)
  end.

(** Unknown paths and, on known ones, methods other than GET and HEAD fall
    back to errors. *)
Definition dispatch (st : AppState) (env : Env) (rq : Request) : Handler Response :=
  match route_of (rq_path rq) with
  | None => lift (Err (not_found "route not found"))
  | Some r =>
      if str_in_list (rq_method rq) ["GET"; "HEAD"] then run_route st env rq r
      else lift (Err method_not_allowed)
  end.

(** [ApiError::into_response]. *)
Definition error_response (env : Env) (request_id : string) (e : ApiError) : Response :=
  {| rs_status_code := ap_status e;
     rs_headers := ("content-type", "application/json")
       :: (if ap_status e =? 401
           then [("www-authenticate", "Bearer realm=" +:+ quote +:+ "ocfleet-api" +:+ quote)]
           else if ap_status e =? 405 then [("allow", "GET, HEAD")] else []);
     rs_body := BJson (VObject [("generated_at", VString (now_rfc3339 env));
                                ("error_code", VString (ap_error_code e));
                                ("message", VString (ap_message e));
                                ("request_id", VString request_id)]) |}.

Definition request_id_of (env : Env) (rq : Request) : string :=
  match opt_filter validate_correlation_id (header_str "x-request-id" (rq_headers rq)) with
  | Some id => id
  | None => env_uuid env
  end.

(** [response_security_headers]. *)
Definition security_headers (request_id : string) (r : Response) : Response :=
  let headers := match header_get "cache-control" (rs_headers r) with
                 | Some _ => rs_headers r
                 | None => header_insert "cache-control" "no-store" (rs_headers r)
                 end in
  {| rs_status_code := rs_status_code r;
     rs_headers := header_insert "x-content-type-options" "nosniff"
                     (header_insert "x-request-id" request_id headers);
     rs_body := rs_body r |}.

(** One request; the body of an answer to HEAD is dropped. *)
Definition serve (st : AppState) (env : Env) (rq : Request) (c : AuthCounters)
    : AuthCounters * Response :=
  let request_id := request_id_of env rq in
  let '(c', r) := dispatch st env rq c in
  let response := match r with
                  | Ok response => response
                  | Err e => error_response env request_id e
                  end in
  let response := security_headers request_id response in
  (c', if String.eqb (rq_method rq) "HEAD"
       then {| rs_status_code := rs_status_code response; rs_headers := rs_headers response;
               rs_body := BEmpty |}
       else response).

End api.
