(* ===== verification/ApiCursorLemmas.v ===== *)
(** * ApiCursorLemmas: cursors are accepted exactly when they were signed

    The laws of base64 and of the JSON codec of a payload, the comparison of
    signatures, and the facts about cursors that the pages rely on. *)

From S2P Require Import Prelude Text External InputValidation StoreTypes AlertWebhook ApiAuth.
From S2P Require Import ApiCursor.

(** ** Plain text: JSON writes it as it is *)

Definition plain (s : string) : bool :=
  forallb (fun b => in_range 32 126 b && negb (b =? 34) && negb (b =? 92)) (str_bytes s).

Definition plain_payload (p : CursorPayload) : bool :=
  in_range 0 255 (cp_version p) && in_range i64_min i64_max (cp_expires_at p)
  && plain (cp_key_id p) && plain (cp_resource p) && plain (cp_after p) && plain (cp_filter_hash p).

Definition payload_text_len (p : CursorPayload) : Z :=
  str_len (cp_key_id p) + str_len (cp_resource p) + str_len (cp_after p) + str_len (cp_filter_hash p).

(** base64 needs four characters for three bytes, none of which is a dot; the
    names and the punctuation of a payload take fewer than 128 bytes. *)
Class CursorLaws `{Base64Ops, CursorCodec} : Prop := {
  base64url_decode_encode : forall b,
    Forall (fun x => 0 <= x <= 255) b -> base64url_decode (base64url_encode b) = Some b;
  base64url_no_dot : forall b,
    Forall (fun x => 0 <= x <= 255) b -> contains_byte 46 (base64url_encode b) = false;
  base64url_len : forall b, str_len (base64url_encode b) <= 2 * Z.of_nat (length b);
  payload_bytes : forall p, Forall (fun x => 0 <= x <= 255) (payload_to_vec p);
  payload_decode_encode : forall p,
    plain_payload p = true -> payload_from_slice (payload_to_vec p) = Some p;
  payload_len : forall p,
    plain_payload p = true -> Z.of_nat (length (payload_to_vec p)) <= 128 + payload_text_len p;
}.

(** A key that [decode_entry] accepts. *)
Definition cursor_key_ok (k : CursorKey) : Prop :=
  plain (ck_key_id k) = true /\ str_len (ck_key_id k) <= 32 /\ length (ck_key k) = 32%nat.

(** A position that a page may end at. *)
Definition position_ok (p : CursorPosition) : bool :=
  plain (pos_resource p) && plain (pos_after p) && plain (pos_filter_hash p)
  && (str_len (pos_resource p) <=? 32) && (str_len (pos_filter_hash p) <=? 64)
  && negb (str_is_empty (pos_after p)) && (str_len (pos_after p) <=? 256).

(** ** Constant-time comparison *)

Lemma difference_zero d l :
  foldl (fun difference lr => Z.lor difference (Z.lxor lr.1 lr.2)) d l = 0
  <-> d = 0 /\ Forall (fun lr : Z * Z => lr.1 = lr.2) l.
Proof.
  revert d. induction l as [|[x y] l IH]; intros d; cbn [foldl].
  - split; [intros ->; split; [done|constructor]|tauto].
  - rewrite IH, Z.lor_eq_0_iff, Z.lxor_eq_0_iff, Forall_cons. cbn [fst snd]. tauto.
Qed.

Lemma zip_equal {A} (l r : list A) :
  length l = length r -> (Forall (fun lr : A * A => lr.1 = lr.2) (zip l r) <-> l = r).
Proof.
  revert r. induction l as [|x l IH]; intros [|y r] Hlen; try done.
  cbn [zip zip_with]. injection Hlen as Hlen. rewrite Forall_cons, IH by done.
  cbn [fst snd]. split; [intros [-> ->]; done|by intros [= -> ->]].
Qed.

Lemma constant_time_eq_spec l r :
  length l = length r -> (constant_time_eq l r = true <-> l = r).
Proof.
  intros Hlen. unfold constant_time_eq.
  rewrite Z.eqb_eq, difference_zero, zip_equal by done. tauto.
Qed.

Lemma slice_constant_time_eq_spec l r : slice_constant_time_eq l r = true <-> l = r.
Proof.
  unfold slice_constant_time_eq. rewrite andb_true_iff, Nat.eqb_eq, Z.eqb_eq, difference_zero.
  split.
  - intros (Hlen & _ & Hz). by apply zip_equal.
  - intros ->. split; [done|]. split; [done|]. by apply zip_equal.
Qed.

(** ** Splitting at the dot *)

Lemma split_once_app c a b :
  contains_byte (byte_of c) a = false ->
  split_once (byte_of c) (a +:+ String c b) = Some (a, b).
Proof.
  unfold contains_byte, str_bytes.
  induction a as [|x a IH]; cbn [list_ascii_of_string map existsb].
  - intros _. change (EmptyString +:+ ?t) with t. cbn [split_once]. by rewrite Z.eqb_refl.
  - intros [Hx Ha]%orb_false_iff. change (String x a +:+ ?t) with (String x (a +:+ t)).
    cbn [split_once]. by rewrite Hx, IH.
Qed.

Lemma split_once_some c s a b :
  split_once (byte_of c) s = Some (a, b) ->
  s = a +:+ String c b /\ contains_byte (byte_of c) a = false.
Proof.
  revert a b. induction s as [|x s IH]; intros a b; cbn [split_once]; [done|].
  destruct (byte_of x =? byte_of c) eqn:E.
  - intros [= <- <-]. apply Z.eqb_eq, byte_of_inj in E. by subst x.
  - destruct (split_once _ s) as [[a' b']|]; [|done]. intros [= <- <-].
    destruct (IH a' b' eq_refl) as [-> Hn]. split; [done|].
    unfold contains_byte, str_bytes in *. cbn [list_ascii_of_string map existsb]. by rewrite E.
Qed.

(** ** Time to live *)

Lemma cursor_expiry_bounds now :
  0 <= now <= 2 ^ 62 ->
  now + CURSOR_TTL_SECONDS < cursor_expiry now <= now + 2 * CURSOR_TTL_SECONDS
  /\ cursor_expiry now <= i64_max.
Proof.
  intros Hn. unfold cursor_expiry, clamp_i64, CURSOR_TTL_SECONDS, i64_min, i64_max.
  change (24 * 60 * 60) with 86400.
  pose proof (Z.div_mod now 86400 ltac:(lia)). pose proof (Z.mod_pos_bound now 86400 ltac:(lia)).
  lia.
Qed.

(** ** Accepted cursors *)

Section cursor_lemmas.
Context `{TimeOps, Sha256Ops, Base64Ops, Base64Standard, JsonBytes, CursorCodec}.

Definition signed_text (key : CursorKey) (encoded : string) : string :=
  encoded +:+ String "." (hex_lower (hmac_sha256 (ck_key key) (str_bytes encoded))).

(** What [decode_cursor] accepts. *)
Definition cursor_accepted (cursor : string) (keyring : CursorKeyring) (resource hash : string)
    (now : Z) (after : string) : Prop :=
  exists encoded bytes payload key,
    str_len cursor <= MAX_CURSOR_BYTES
    /\ contains_byte 46 encoded = false
    /\ cursor = signed_text key encoded
    /\ base64url_decode encoded = Some bytes
    /\ payload_from_slice bytes = Some payload
    /\ keyring_find keyring (cp_key_id payload) = Some key
    /\ cp_version payload = 2
    /\ unix_timestamp now < cp_expires_at payload
    /\ cp_resource payload = resource
    /\ cp_filter_hash payload = hash
    /\ cp_after payload = after
    /\ 1 <= str_len after <= 256.

Lemma str_is_empty_len s : str_is_empty s = true <-> str_len s = 0.
Proof. destruct s; unfold str_is_empty, str_len; cbn; split; try done; lia. Qed.

Lemma str_is_empty_false s : str_is_empty s = false <-> 1 <= str_len s.
Proof. destruct s; unfold str_is_empty, str_len; cbn; split; try done; lia. Qed.

Lemma decode_cursor_spec cursor keyring resource hash now after :
  decode_cursor cursor keyring resource hash now = Ok after
  <-> cursor_accepted cursor keyring resource hash now after.
Proof.
  unfold decode_cursor, cursor_accepted, signed_text. split.
  - intros Hd. destruct (split_once 46 cursor) as [[enc sig]|] eqn:Hs;
      [|by destruct (_ <? _)].
    change 46 with (byte_of ".") in Hs. apply split_once_some in Hs as [-> Hn].
    cbn [ok_or] in Hd. peel_all Hd.
    apply slice_constant_time_eq_spec, str_bytes_inj in Hc0 as ->.
    rewrite str_is_empty_false in *. by eexists enc, _, _, _.
  - intros (enc & bytes & p & key & Hlen & Hn & -> & Hb & Hp & Hk & Hv & He & Hr & Hh & Ha & Hl).
    rewrite (proj2 (Z.ltb_ge _ _) Hlen). change 46 with (byte_of "."). rewrite split_once_app by done.
    cbn [ok_or]. rewrite Hb. cbn [ok_or]. rewrite Hp. cbn [ok_or]. rewrite Hk. cbn [ok_or].
    rewrite (proj2 (slice_constant_time_eq_spec _ _) eq_refl), Hv, Hr, Hh, Ha, !String.eqb_refl.
    rewrite (proj2 (Z.leb_gt _ _) He), (proj2 (str_is_empty_false _)) by lia.
    by rewrite (proj2 (Z.ltb_ge _ _)) by lia.
Qed.

Lemma signed_text_inj k1 k2 a b :
  contains_byte 46 a = false -> contains_byte 46 b = false ->
  signed_text k1 a = signed_text k2 b -> a = b.
Proof.
  unfold signed_text. intros Ha Hb Heq. apply (f_equal (split_once (byte_of "."))) in Heq.
  rewrite !split_once_app in Heq by done. by injection Heq.
Qed.

(** ** Issued cursors *)

Definition issued_payload (position : CursorPosition) (key : CursorKey) (now : Z) : CursorPayload :=
  {| cp_version := 2; cp_key_id := ck_key_id key;
     cp_expires_at := cursor_expiry (unix_timestamp now); cp_resource := pos_resource position;
     cp_after := pos_after position; cp_filter_hash := pos_filter_hash position |}.

Lemma encode_cursor_signed position keyring now :
  encode_cursor position keyring now
  = signed_text (kr_current keyring)
      (base64url_encode (payload_to_vec (issued_payload position (kr_current keyring) now))).
Proof. done. Qed.

Context `{!Sha256Laws, !CursorLaws}.

Lemma signed_text_len key encoded : str_len (signed_text key encoded) = str_len encoded + 65.
Proof.
  assert (forall a b, str_len (a +:+ b) = str_len a + str_len b) as Happ.
  { intros a b. rewrite <- !str_bytes_length, str_bytes_app, length_app. lia. }
  unfold signed_text. rewrite Happ.
  change (String "." ?t) with ("." +:+ t). rewrite Happ, str_len_hex_lower.
  unfold hmac_sha256. rewrite sha256_length. done.
Qed.

Lemma issued_plain position key issued :
  cursor_key_ok key -> position_ok position = true -> 0 <= unix_timestamp issued <= 2 ^ 62 ->
  plain_payload (issued_payload position key issued) = true.
Proof.
  intros (Hk1 & Hk2 & _) Hp Hi. unfold position_ok in Hp. bool_facts.
  pose proof (cursor_expiry_bounds _ Hi) as [[He1 _] He2].
  unfold plain_payload, issued_payload. cbn. rewrite !andb_true_iff, in_range_spec.
  unfold i64_min, CURSOR_TTL_SECONDS in *. repeat split; try done; lia.
Qed.

(** A cursor is accepted for a day, for the resource and the filters it was
    issued for, by every keyring that still holds its key. *)
Lemma issued_cursor_accepted position keyring keyring' issued now :
  cursor_key_ok (kr_current keyring) -> position_ok position = true ->
  keyring_find keyring' (ck_key_id (kr_current keyring)) = Some (kr_current keyring) ->
  0 <= unix_timestamp issued <= 2 ^ 62 ->
  unix_timestamp now <= unix_timestamp issued + CURSOR_TTL_SECONDS ->
  decode_cursor (encode_cursor position keyring issued) keyring' (pos_resource position)
    (pos_filter_hash position) now = Ok (pos_after position).
Proof.
  intros Hk Hp Hf Hi Hn. pose proof (issued_plain _ _ _ Hk Hp Hi) as Hplain.
  destruct Hk as (Hk1 & Hk2 & _). unfold position_ok in Hp. bool_facts.
  pose proof (cursor_expiry_bounds _ Hi) as [[He1 _] He2].
  apply decode_cursor_spec. rewrite encode_cursor_signed.
  eexists _, _, _, (kr_current keyring). split.
  { rewrite signed_text_len. pose proof (payload_len _ Hplain) as Hl.
    pose proof (base64url_len (payload_to_vec (issued_payload position (kr_current keyring) issued))).
    unfold payload_text_len, MAX_CURSOR_BYTES in *. cbn [cp_key_id cp_resource cp_after cp_filter_hash issued_payload] in Hl.
    lia. }
  split; [apply base64url_no_dot, payload_bytes|]. split; [done|].
  split; [apply base64url_decode_encode, payload_bytes|].
  split; [by apply payload_decode_encode|]. cbn.
  rewrite str_is_empty_false in *. repeat split; try done; lia.
Qed.

(** What the issuer wrote is what an accepted cursor is bound to. *)
Lemma issued_cursor_bound position keyring keyring' issued resource hash now after :
  plain_payload (issued_payload position (kr_current keyring) issued) = true ->
  decode_cursor (encode_cursor position keyring issued) keyring' resource hash now = Ok after ->
  resource = pos_resource position /\ hash = pos_filter_hash position /\ after = pos_after position
  /\ unix_timestamp now < cursor_expiry (unix_timestamp issued).
Proof.
  intros Hplain Hd. apply decode_cursor_spec in Hd
    as (enc & bytes & p & key & _ & Hn & Heq & Hb & Hp & _ & _ & He & <- & <- & <- & _).
  rewrite encode_cursor_signed in Heq.
  apply signed_text_inj in Heq as <-; [|apply base64url_no_dot, payload_bytes|done].
  rewrite base64url_decode_encode in Hb by apply payload_bytes. injection Hb as <-.
  rewrite payload_decode_encode in Hp by done. by injection Hp as <-.
Qed.

End cursor_lemmas.

(** ** Loaded keys *)

Section loaded_keys.
Context `{Base64Standard, CursorCodec}.

Lemma decode_entry_ok entry key : decode_entry entry = Ok key -> cursor_key_ok key.
Proof.
  unfold decode_entry, validate_key_id. intros Hd. peel_all Hd. unfold cursor_key_ok. cbn.
  apply Nat.eqb_eq in Hc. split; [|split]; [|unfold MAX_CURSOR_KEY_ID_BYTES in *; lia|done].
  unfold plain. rewrite forallb_forall in *. intros b Hb.
  match goal with Hf : forall x, In x _ -> _ = true |- _ => specialize (Hf b Hb) end.
  unfold is_ascii_alphanumeric, is_ascii_alphabetic, is_ascii_lowercase, is_ascii_uppercase,
    is_ascii_digit, in_range in *. lia.
Qed.

(** The keys of a loaded keyring are well formed and have different names. *)
Lemma keyring_loaded files path keyring :
  keyring_from_private_file files path = Ok keyring ->
  cursor_key_ok (kr_current keyring)
  /\ forall previous, kr_previous keyring = Some previous ->
       cursor_key_ok previous /\ keyring_find keyring (ck_key_id previous) = Some previous.
Proof.
  unfold keyring_from_private_file, keyring_find. intros Hk. peel_all Hk.
  cbn [kr_current kr_previous]. split; [by eapply decode_entry_ok|]. intros previous ->.
  match goal with Ht : transpose _ _ = Ok _ |- _ => unfold transpose in Ht; peel_all Ht end.
  split; [by eapply decode_entry_ok|].
  rewrite (proj2 (String.eqb_neq _ _)) by congruence. cbn. by rewrite String.eqb_refl.
Qed.
End loaded_keys.
