(* ===== verification/ApiPagination.v ===== *)
(** * ApiPagination: following the cursors yields every row exactly once

    A client asks for a page and, as long as the answer has a cursor, for the
    next one.  The rows of a page start after the position of the cursor, in
    the order of distinct keys, so that the pages together are the selected
    rows.  The pages may be asked for at different times, each at most a day
    after the one before. *)

From S2P Require Import Prelude Text External InputValidation StoreTypes StoredText.
From S2P Require Import StoragePayloads StoreDb ObservationPayloads AlertWebhook SchedulerStore.
From S2P Require Import NodeMetadata AlertQueue Ordering Slo ApiPayloads VersionGovernance.
From S2P Require Import ApiStore.
From S2P Require Import ApiMetrics AuditExport ApiProjections ApiAuth ApiCursor ApiCursorLemmas.
From S2P Require Import ApiRoutes.

(** ** The client *)

(** [page i cursor] is the answer to the [i]-th request; [None] when the fuel
    runs out. *)
Fixpoint crawl {A} (page : nat -> option string -> ApiResult (Page A)) (fuel i : nat)
    (cursor : option string) : option (ApiResult (list A)) :=
  match fuel with
  | O => None
  | S fuel =>
      match page i cursor with
      | Err e => Some (Err e)
      | Ok (_, rows, None) => Some (Ok rows)
      | Ok (_, rows, Some next) =>
          match crawl page fuel (S i) (Some next) with
          | Some (Ok rest) => Some (Ok (rows ++ rest))
          | other => other
          end
      end
  end.

(** ** Strictly ordered lists *)

Section keyset.
Context {A : Type} (lt : A -> A -> bool).

(** The rows after the row at index [k]. *)
Lemma filter_after l k x :
  (forall a b, lt a b = true -> lt b a = false) ->
  StronglySorted (fun a b => lt a b = true) l -> l !! k = Some x ->
  List.filter (lt x) l = drop (S k) l.
Proof.
  intros Hasym Hs. assert (forall a, lt a a = false) as Hirr.
  { intros a. destruct (lt a a) eqn:E; [|done]. pose proof (Hasym _ _ E). congruence. }
  revert k. induction Hs as [|y l Hl IH Hy]; intros k Hk; [done|].
  destruct k as [|k]; cbn [List.filter drop].
  - injection Hk as ->. rewrite Hirr. clear IH Hl.
    rewrite drop_0. induction Hy as [|z l Hz _ IHl]; [done|]. cbn. by rewrite Hz, IHl.
  - rewrite (IH k Hk). rewrite Hasym; [done|]. rewrite Forall_forall in Hy.
    by apply Hy, (list_elem_of_lookup_2 _ k).
Qed.
End keyset.

Lemma take_succ_more {A} n (l : list A) :
  (Z.of_nat n <? Z.of_nat (length (take (S n) l))) = (Z.of_nat n <? Z.of_nat (length l))
  /\ take n (take (S n) l) = take n l.
Proof.
  split; [apply Bool.eq_true_iff_eq; rewrite !Z.ltb_lt, length_take; lia|].
  by rewrite take_take, Nat.min_l by lia.
Qed.

Lemma last_take_drop {A} n k (l : list A) :
  (0 < n)%nat -> (n < length (drop k l))%nat -> last (take n (drop k l)) = l !! (k + n - 1)%nat.
Proof.
  intros Hn Hl. rewrite last_lookup, length_take, Nat.min_l by lia.
  rewrite lookup_take_lt, lookup_drop by lia. f_equal. lia.
Qed.

(** ** Pages that start at an index *)

Section crawl_lemmas.
Context {A : Type} (page : nat -> option string -> ApiResult (Page A)).
Variable recs : list A.
Variable limit : nat.
Hypothesis limit_pos : (0 < limit)%nat.

(** [denotes i cursor k]: at request [i] the cursor stands for index [k]. *)
Variable denotes : nat -> option string -> nat -> Prop.
Hypothesis page_spec : forall i cursor k,
  denotes i cursor k -> (k <= length recs)%nat ->
  exists next, page i cursor = Ok (Z.of_nat limit, take limit (drop k recs), next)
    /\ if (limit <? length (drop k recs))%nat
       then exists c, next = Some c /\ denotes (S i) (Some c) (k + limit)
       else next = None.

Lemma crawl_complete fuel i cursor k :
  denotes i cursor k -> (k <= length recs)%nat -> (length recs - k < fuel)%nat ->
  crawl page fuel i cursor = Some (Ok (drop k recs)).
Proof.
  revert i cursor k. induction fuel as [|fuel IH]; intros i cursor k Hd Hk Hf; [lia|].
  cbn [crawl]. destruct (page_spec _ _ _ Hd Hk) as (next & -> & Hn).
  rewrite length_drop in Hn. destruct (_ <? _)%nat eqn:E.
  - apply Nat.ltb_lt in E. destruct Hn as (c & -> & Hc). rewrite (IH (S i) (Some c) (k + limit)%nat);
      [|done|lia|lia].
    by rewrite <- drop_drop, take_drop.
  - apply Nat.ltb_ge in E. rewrite Hn, take_ge; [done|]. rewrite length_drop. lia.
Qed.
End crawl_lemmas.

Lemma crawl_ext {A} (page page' : nat -> option string -> ApiResult (Page A)) fuel i cursor :
  (forall i c, page i c = page' i c) -> crawl page fuel i cursor = crawl page' fuel i cursor.
Proof.
  intros He. revert i cursor. induction fuel as [|fuel IH]; intros i cursor; [done|].
  cbn [crawl]. rewrite He. destruct (page' i cursor) as [[[? ?] [c|]]|]; [by rewrite IH|done|done].
Qed.

(** ** Descending order *)

Lemma sorted_rev {A} (R : A -> A -> Prop) l :
  StronglySorted R l -> StronglySorted (fun a b => R b a) (rev l).
Proof.
  induction 1 as [|x l _ IH Hx]; cbn; [constructor|].
  rewrite Forall_forall in Hx. revert Hx.
  assert (forall y, y ∈ rev l -> y ∈ l) as Hin.
  { intros y. rewrite !list_elem_of_In. apply in_rev. }
  intros Hx. assert (Forall (fun y => R x y) (rev l)) as Hr
    by (rewrite Forall_forall; eauto). clear Hx Hin.
  induction IH as [|y r _ IHr Hy]; cbn; [by repeat constructor|].
  apply Forall_cons in Hr as [Hxy Hr]. constructor; [by apply IHr|].
  apply Forall_app_2; [done|]. by repeat constructor.
Qed.

Section descending.
Context {A : Type} (key : A -> list (option string)).

Lemma rev_keys l : NoDup (map key l) -> NoDup (map key (rev l)).
Proof. intros Hl. rewrite map_rev. by rewrite <- Permutation_rev. Qed.

Lemma sort_desc_filter (p : A -> bool) l :
  NoDup (map key l) -> sort_desc key (List.filter p l) = List.filter p (sort_desc key l).
Proof.
  intros Hl%rev_keys. unfold sort_desc. rewrite <- filter_rev, sort_by_filter by done.
  by rewrite filter_rev.
Qed.

Lemma sort_desc_sorted l :
  NoDup (map key l) -> StronglySorted (fun a b => key_ltb (key b) (key a) = true) (sort_desc key l).
Proof. intros Hl%rev_keys. by apply sorted_rev, sort_by_sorted. Qed.
End descending.

Lemma key_ltb_asym a b : key_ltb a b = true -> key_ltb b a = false.
Proof.
  intros Hab. destruct (key_ltb b a) eqn:Hba; [|done].
  pose proof (key_ltb_trans _ _ _ Hab Hba) as Ht. by rewrite key_ltb_irrefl in Ht.
Qed.

(** ** Reading rows *)

Lemma try_map_slice {E A B} (f : A -> result E B) l l' n k :
  try_map f l = Ok l' -> try_map f (take n (drop k l)) = Ok (take n (drop k l')).
Proof. rewrite !try_map_Forall2. intros Hf. by apply Forall2_take, Forall2_drop. Qed.

(** The key of a record is the key of its row. *)
Lemma try_map_keys {E A B C} (f : A -> result E B) (g : A -> C) (h : B -> C) l l' :
  (forall x y, f x = Ok y -> h y = g x) -> try_map f l = Ok l' -> map h l' = map g l.
Proof.
  intros Hfg. rewrite try_map_Forall2. induction 1 as [|x y l l' Hxy _ IH]; [done|].
  cbn. by rewrite IH, (Hfg x y).
Qed.

(** ** The shape that the three listings share *)

Section page_shape.
Context `{TimeOps, Sha256Ops, Base64Ops, Base64Standard, JsonBytes, CursorCodec}.

Definition keyset_page {P A} (resource hash : string) (parts_of : option string -> ApiResult P)
    (fetch : Z -> P -> ApiResult (list A)) (position : A -> string) (st : AppState) (env : Env)
    (limit : Z) (cursor : option string) : ApiResult (Page A) :=
  let? after := decode_param st env resource hash cursor in
  let? parts := parts_of after in
  let? rows := fetch (limit + 1) parts in
  let more := limit <? Z.of_nat (length rows) in
  let rows := take (Z.to_nat limit) rows in
  Ok (limit, rows, next_cursor st env resource hash more (position <$> last rows)).

(** The instants at which the pages are asked for: each at most a day after the
    one before. *)
Definition paced (envs : nat -> Env) : Prop :=
  forall i, 0 <= unix_timestamp (env_now (envs i)) <= 2 ^ 62
    /\ unix_timestamp (env_now (envs (S i))) <= unix_timestamp (env_now (envs i)) + CURSOR_TTL_SECONDS.

Context `{!Sha256Laws, !CursorLaws}.
Context {P A : Type} (resource hash : string) (parts_of : option string -> ApiResult P).
Context (fetch : nat -> Z -> P -> ApiResult (list A)) (position : A -> string).
Context (st : AppState) (envs : nat -> Env) (limit : nat) (recs : list A).
Hypothesis limit_pos : (0 < limit)%nat.
Hypothesis keys_ok : cursor_key_ok (kr_current (st_cursor_keys st)).
Hypothesis envs_paced : paced envs.
Hypothesis positions_ok : forall r, r ∈ recs ->
  position_ok {| pos_resource := resource; pos_after := position r; pos_filter_hash := hash |} = true.

(** The position of a page: none, or the one of the last row before it. *)
Definition position_before (k : nat) : option string :=
  match k with O => None | S j => position <$> recs !! j end.

Hypothesis fetch_spec : forall i k, (k <= length recs)%nat ->
  exists parts, parts_of (position_before k) = Ok parts
    /\ fetch i (Z.of_nat limit + 1) parts = Ok (take (S limit) (drop k recs)).

Definition denotes (i : nat) (cursor : option string) (k : nat) : Prop :=
  decode_param st (envs i) resource hash cursor = Ok (position_before k).

Lemma keyring_find_current : forall keyring,
  keyring_find keyring (ck_key_id (kr_current keyring)) = Some (kr_current keyring).
Proof. intros keyring. unfold keyring_find. by rewrite String.eqb_refl. Qed.

Lemma next_denotes i r k :
  (0 < k)%nat -> recs !! (k - 1)%nat = Some r ->
  denotes (S i)
    (Some (encode_cursor {| pos_resource := resource; pos_after := position r;
                            pos_filter_hash := hash |} (st_cursor_keys st) (env_now (envs i)))) k.
Proof.
  intros Hk Hr. unfold denotes, decode_param. destruct (envs_paced i) as [Hi Hn].
  pose proof (issued_cursor_accepted _ (st_cursor_keys st) (st_cursor_keys st) (env_now (envs i))
    (env_now (envs (S i))) keys_ok (positions_ok r (list_elem_of_lookup_2 _ _ _ Hr))
    (keyring_find_current _) Hi Hn) as Hacc.
  cbn [pos_resource pos_filter_hash pos_after] in Hacc. rewrite Hacc. clear Hacc.
  destruct k as [|k]; [lia|]. cbn [position_before]. replace (S k - 1)%nat with k in Hr by lia.
  by rewrite Hr.
Qed.

Lemma keyset_page_spec i cursor k :
  denotes i cursor k -> (k <= length recs)%nat ->
  exists next,
    keyset_page resource hash parts_of (fetch i) position st (envs i) (Z.of_nat limit) cursor
    = Ok (Z.of_nat limit, take limit (drop k recs), next)
    /\ if (limit <? length (drop k recs))%nat
       then exists c, next = Some c /\ denotes (S i) (Some c) (k + limit)
       else next = None.
Proof.
  intros Hd Hk. unfold keyset_page. rewrite Hd.
  destruct (fetch_spec i k Hk) as (parts & -> & ->). cbv zeta.
  destruct (take_succ_more limit (drop k recs)) as [-> Ht]. rewrite Nat2Z.id, Ht.
  eexists. split; [done|]. destruct (_ <? _)%nat eqn:E.
  - apply Nat.ltb_lt in E. rewrite (proj2 (Z.ltb_lt _ _)) by lia.
    rewrite last_take_drop by lia. rewrite length_drop in E.
    destruct (lookup_lt_is_Some_2 recs (k + limit - 1)%nat) as [r Hr]; [lia|].
    rewrite Hr. eexists. split; [done|]. by apply next_denotes; [lia|].
  - apply Nat.ltb_ge in E. by rewrite (proj2 (Z.ltb_ge _ _)) by lia.
Qed.

(** The pages together are the rows, and one request more than there are rows
    is enough. *)
Lemma keyset_crawl fuel :
  (length recs < fuel)%nat ->
  crawl (fun i => keyset_page resource hash parts_of (fetch i) position st (envs i) (Z.of_nat limit))
    fuel 0 None = Some (Ok recs).
Proof.
  intros Hf. rewrite <- (drop_0 recs).
  apply (crawl_complete _ recs limit limit_pos denotes keyset_page_spec); [done|lia|lia].
Qed.

End page_shape.

(** ** Positions as text *)

(** A field of a position: plain text without a bar. *)
Definition field_ok (s : string) : bool :=
  plain s && negb (contains_byte 124 s) && negb (str_is_empty s).

Lemma plain_ascii s : plain s = true -> forallb (fun b => b <? 128) (str_bytes s) = true.
Proof.
  unfold plain. rewrite !forallb_forall. intros Hs b Hb. specialize (Hs b Hb). bool_facts.
  apply Z.ltb_lt. lia.
Qed.

Lemma plain_app a b : plain (a +:+ b) = plain a && plain b.
Proof. unfold plain. by rewrite str_bytes_app, forallb_app. Qed.

Lemma str_len_app a b : str_len (a +:+ b) = str_len a + str_len b.
Proof. rewrite <- !str_bytes_length, str_bytes_app, length_app. lia. Qed.

Lemma no_bar_chunks a :
  contains_byte 124 a = false ->
  forallb (fun c : Z * string => negb (c.1 =? 124))
    (map (fun x => (byte_of x, String x EmptyString)) (list_ascii_of_string a)) = true.
Proof.
  unfold contains_byte, str_bytes. induction (list_ascii_of_string a) as [|x l IH]; [done|].
  cbn [map existsb forallb fst]. intros [Hx Hl]%orb_false_iff. by rewrite Hx, IH.
Qed.

Lemma split_bar_last a :
  plain a = true -> contains_byte 124 a = false -> str_split (fun c => c =? 124) a = [a].
Proof.
  intros Hp Hn. unfold str_split. rewrite char_chunks_ascii by (by apply plain_ascii).
  rewrite split_chunks_none by (by apply no_bar_chunks). cbn [map].
  by rewrite concat_chunks_ascii, string_of_list_ascii_of_string.
Qed.

Lemma split_bar a b :
  plain a = true -> plain b = true -> contains_byte 124 a = false ->
  str_split (fun c => c =? 124) (a +:+ "|" +:+ b) = a :: str_split (fun c => c =? 124) b.
Proof.
  intros Ha Hb Hn. unfold str_split.
  rewrite char_chunks_ascii by (apply plain_ascii; by rewrite !plain_app, Ha, Hb).
  rewrite !list_ascii_app, !map_app. change (map ?f (list_ascii_of_string "|")) with [(124, "|")].
  cbn [app]. rewrite split_chunks_head by (done || by apply no_bar_chunks). cbn [map].
  rewrite concat_chunks_ascii, string_of_list_ascii_of_string, char_chunks_ascii by (by apply plain_ascii).
  done.
Qed.

Lemma plain_hash `{Sha256Ops, !Sha256Laws, JsonBytes} v :
  plain (generic_filter_hash v) = true /\ str_len (generic_filter_hash v) = 64.
Proof.
  unfold generic_filter_hash. split; [|rewrite str_len_hex_lower, sha256_length; done].
  pose proof (hex_lower_digits _ (sha256_bytes (json_bytes v))) as Hd. unfold plain.
  rewrite forallb_forall in *. intros b Hb. specialize (Hd b Hb).
  unfold is_ascii_hexdigit, is_ascii_uppercase, is_ascii_digit, in_range in *. lia.
Qed.

(** A position with a digest of filters. *)
Lemma position_ok_hash `{Sha256Ops, !Sha256Laws, JsonBytes} resource after v :
  plain resource = true -> str_len resource <= 32 ->
  plain after && negb (str_is_empty after) && (str_len after <=? 256) = true ->
  position_ok {| pos_resource := resource; pos_after := after;
                 pos_filter_hash := generic_filter_hash v |} = true.
Proof.
  intros Hr Hl Ha. destruct (plain_hash v) as [Hh Hh']. unfold position_ok.
  cbn [pos_resource pos_after pos_filter_hash]. rewrite Hr, Hh, Hh'. bool_facts.
  rewrite !andb_true_iff, negb_true_iff, !Z.leb_le. repeat split; done || lia.
Qed.
