(* ===== verification/ApiPages.v ===== *)
(** * ApiPages: the listings of nodes, of the health history and of alerts
      are complete

    For each of the three listings: the rows that the filters select, in the
    order of the query, are exactly the rows of the pages that a client gets
    by following the cursors. *)

From S2P Require Import Prelude Text External InputValidation StoreTypes StoredText.
From S2P Require Import StoragePayloads StoreDb ObservationPayloads AlertWebhook SchedulerStore.
From S2P Require Import NodeMetadata AlertQueue Ordering Slo ApiPayloads VersionGovernance.
From S2P Require Import ApiStore.
From S2P Require Import ApiMetrics AuditExport ApiProjections ApiAuth ApiCursor ApiCursorLemmas.
From S2P Require Import ApiRoutes ApiPagination.

(** ** Queries with a cursor *)

Definition nodes_with_cursor (q : NodesQuery) (cursor : option string) : NodesQuery :=
  {| nq_limit := nq_limit q; nq_cursor := cursor; nq_region := nq_region q; nq_role := nq_role q;
     nq_environment := nq_environment q; nq_label := nq_label q; nq_status := nq_status q |}.

Definition history_with_cursor (q : HistoryQuery) (cursor : option string) : HistoryQuery :=
  {| hq_from := hq_from q; hq_to := hq_to q; hq_limit := hq_limit q; hq_cursor := cursor;
     hq_node_id := hq_node_id q; hq_status := hq_status q |}.

Definition alerts_with_cursor (q : AlertsQuery) (cursor : option string) : AlertsQuery :=
  {| aq_from := aq_from q; aq_to := aq_to q; aq_limit := aq_limit q; aq_cursor := cursor;
     aq_state := aq_state q; aq_severity := aq_severity q; aq_node_id := aq_node_id q;
     aq_reason := aq_reason q |}.

(** ** What a listing has to show *)

Section rows.
Context `{TimeOps, JsonOps}.

Definition selected_nodes (db : ApiDb) (query : NodesQuery) (label : option (string * string))
    : list NodeRecord :=
  sort_by node_key (List.filter (node_selected db (nodes_filters query label None)) (api_nodes db)).

Definition selected_history (db : ApiDb) (query : HistoryQuery) (window : string * string)
    : list HealthHistoryRecord :=
  sort_desc history_key
    (List.filter (history_selected (history_filters query window None)) (api_history db)).

Definition selected_alerts (db : ApiDb) (query : AlertsQuery) (window : string * string)
    : list AlertEventRecord :=
  sort_desc alert_key
    (List.filter (alert_selected (alerts_filters query window None)) (api_alerts db)).

(** The store keeps identifiers short and free of bars, quotes and controls. *)
Definition node_id_ok (n : NodeRecord) : bool :=
  plain (node_id n) && negb (str_is_empty (node_id n)) && (str_len (node_id n) <=? 256).

Definition history_row_ok (r : HealthHistoryRecord) : bool :=
  field_ok (hs_computed_at (hh_snapshot r)) && field_ok (hs_node_id (hh_snapshot r))
  && field_ok (hh_evaluation_id r) && (str_len (history_position r) <=? 256).

Definition alert_row_ok (r : AlertEventRecord) : bool :=
  field_ok (al_last_seen_at r) && field_ok (al_alert_id r) && (str_len (alert_position r) <=? 256).

(** ** Keys of rows and of records *)

Lemma read_node_rows_slice db l l' n k :
  read_node_rows db l = Ok l' -> read_node_rows db (take n (drop k l)) = Ok (take n (drop k l')).
Proof.
  unfold read_node_rows. intros Hr. peel_in Hr.
  erewrite try_map_slice by done. by erewrite try_map_slice.
Qed.

Lemma read_node_rows_ids db l l' :
  read_node_rows db l = Ok l' -> map (fun r => node_id (nh_node r)) l' = map node_id l.
Proof.
  unfold read_node_rows. intros Hr. peel_in Hr.
  rewrite (try_map_keys (attach_node_advisory db) (fun r => node_id (nh_node r)) _ _ _) with (2 := Hr).
  - apply (try_map_keys _ node_id) with (2 := Hm). intros x y Hy. unfold node_health_from_row in Hy.
    peel_in Hy; by injection Hy as <-.
  - intros x y Hy. unfold attach_node_advisory in Hy. peel_in Hy. by injection Hy as <-.
Qed.

Lemma history_row_same r r' : health_history_from_row_api r = Ok r' -> r' = r.
Proof. unfold health_history_from_row_api. intros Hr. peel_in Hr; congruence. Qed.

Lemma history_rows_same l l' : try_map health_history_from_row_api l = Ok l' -> l' = l.
Proof.
  rewrite try_map_Forall2. induction 1 as [|x y l l' Hxy _ IH]; [done|].
  by rewrite (history_row_same _ _ Hxy), IH.
Qed.

Lemma alert_row_position r r' :
  alert_event_from_row r = Ok r' -> alert_position r' = alert_position r.
Proof. unfold alert_event_from_row. intros Hr. peel_in Hr. by injection Hr as <-. Qed.

End rows.

(** ** Every listing reads slices of its rows *)

(** The rows after the last one of the page before. *)
Lemma rows_after {A} (key : A -> list (option string)) (flip : bool) (p : A -> bool) rows k :
  let lt a b := if flip then key_ltb (key b) (key a) else key_ltb (key a) (key b) in
  StronglySorted (fun a b => lt a b = true) rows -> (k <= length rows)%nat ->
  (forall r, p r = match k with
                   | O => true
                   | S j => match rows !! j with Some y => lt y r | None => true end
                   end) ->
  List.filter p rows = drop k rows.
Proof.
  intros lt Hs Hk Hp. rewrite (filter_ext _ _ Hp). destruct k as [|j].
  - rewrite drop_0. apply filter_true.
  - destruct (lookup_lt_is_Some_2 rows j) as [y Hy]; [lia|]. rewrite Hy.
    apply (filter_after lt rows j y); [|done|done].
    intros a b. unfold lt. destruct flip; apply key_ltb_asym.
Qed.

Section listings.
Context `{TimeOps, JsonOps, Sha256Ops, JsonBytes, Base64Ops, Base64Standard, Base64Encode}.
Context `{CursorCodec, Ed25519Ops, AuthDecoders, SemverOps, SqliteFunctions}.
Context `{!Sha256Laws, !CursorLaws}.
Context (st : AppState) (envs : nat -> Env) (db : ApiDb).
Hypothesis same_db : forall i, env_db (envs i) = db.
Hypothesis envs_paced : paced envs.
Hypothesis keys_ok : cursor_key_ok (kr_current (st_cursor_keys st)).
Hypothesis max_limit : 1 <= st_max_limit st <= ABSOLUTE_MAX_LIMIT.

Lemma page_limit_bounds value limit :
  page_limit value (st_max_limit st) = Ok (Z.of_nat limit) -> 1 <= Z.of_nat limit <= ABSOLUTE_MAX_LIMIT.
Proof. unfold page_limit. intros Hp. peel_all Hp. lia. Qed.

Lemma limited_ok {A} n (l : list A) :
  0 <= n <= ABSOLUTE_MAX_LIMIT + 1 -> limited n l = Ok (take (Z.to_nat n) l).
Proof.
  unfold limited, u64_to_i64, ABSOLUTE_MAX_LIMIT, i64_max. intros Hn.
  by rewrite (proj2 (Z.leb_le _ _)) by lia.
Qed.

(** *** Nodes *)

Lemma node_key_inj l : NoDup (map node_id l) -> NoDup (map node_key l).
Proof. apply NoDup_finer. by intros x y [= ?]. Qed.

Lemma nodes_page_keyset env query limit label cursor :
  nodes_params st query = Ok (limit, label) -> 1 <= limit <= ABSOLUTE_MAX_LIMIT ->
  nodes_page st env (nodes_with_cursor query cursor)
  = keyset_page "nodes" (filter_hash query) Ok
      (fun n after => db_result (list_node_health_page (env_db env) n (nodes_filters query label after)))
      (fun r => node_id (nh_node r)) st env limit cursor.
Proof.
  intros Hp Hl. unfold nodes_page, keyset_page.
  change (nodes_params st (nodes_with_cursor query cursor)) with (nodes_params st query). rewrite Hp.
  change (filter_hash (nodes_with_cursor query cursor)) with (filter_hash query). cbn [nq_cursor nodes_with_cursor].
  destruct (decode_param _ _ _ _ _) as [after|e]; [|done].
  unfold checked_add. rewrite (proj2 (Z.leb_le _ _)) by (unfold u64_max, ABSOLUTE_MAX_LIMIT in *; lia).
  done.
Qed.

Lemma nodes_fetch query label recs i k limit :
  NoDup (map node_id (api_nodes db)) ->
  read_node_rows db (selected_nodes db query label) = Ok recs ->
  (S limit <= Z.to_nat (ABSOLUTE_MAX_LIMIT + 1))%nat -> (k <= length recs)%nat ->
  exists parts,
    Ok (position_before (fun r => node_id (nh_node r)) recs k) = Ok (E := ApiError) parts
    /\ db_result (list_node_health_page (env_db (envs i)) (Z.of_nat limit + 1)
                    (nodes_filters query label parts))
       = Ok (take (S limit) (drop k recs)).
Proof.
  intros Hnd Hr Hl Hk. eexists. split; [done|]. rewrite same_db.
  pose proof (read_node_rows_ids _ _ _ Hr) as Hids.
  assert (length recs = length (selected_nodes db query label)) as Hlen.
  { apply (f_equal length) in Hids. by rewrite !length_map in Hids. }
  unfold list_node_health_page. rewrite limited_ok by (unfold ABSOLUTE_MAX_LIMIT in *; lia).
  replace (Z.to_nat (Z.of_nat limit + 1)) with (S limit) by lia. rewrite filter_both.
  rewrite sort_by_filter by (by apply filter_keys, node_key_inj).
  change (sort_by node_key (List.filter (node_selected db (nodes_filters query label _)) (api_nodes db)))
    with (selected_nodes db query label). cbn [nf_after_node_id nodes_filters].
  rewrite (rows_after node_key false _ _ k).
  - by erewrite read_node_rows_slice.
  - by apply sort_by_sorted, filter_keys, node_key_inj.
  - lia.
  - intros r. destruct k as [|j]; [done|]. cbn [position_before].
    apply (f_equal (lookup j)) in Hids. rewrite !list_lookup_fmap in Hids.
    destruct (recs !! j), (selected_nodes db query label !! j); simplify_eq/=; [|done].
    rewrite Hids. by rewrite andb_false_r, orb_false_r.
Qed.

Lemma nodes_positions query label recs r :
  forallb node_id_ok (api_nodes db) = true ->
  read_node_rows db (selected_nodes db query label) = Ok recs -> r ∈ recs ->
  position_ok {| pos_resource := "nodes"; pos_after := node_id (nh_node r);
                 pos_filter_hash := filter_hash query |} = true.
Proof.
  intros Hids Hr Hin. apply position_ok_hash; [done|done|].
  assert (node_id (nh_node r) ∈ map node_id (selected_nodes db query label)) as Hn.
  { rewrite <- (read_node_rows_ids _ _ _ Hr).
    by apply (list_elem_of_fmap_2 (fun r => node_id (nh_node r))). }
  apply list_elem_of_fmap in Hn as (n & -> & Hsel). unfold selected_nodes in Hsel.
  rewrite sort_by_elem, list_elem_of_In, filter_In in Hsel. destruct Hsel as [Hsel _].
  rewrite forallb_forall in Hids. by apply Hids in Hsel.
Qed.

Lemma nodes_params_limit query limit label :
  nodes_params st query = Ok (limit, label) -> page_limit (nq_limit query) (st_max_limit st) = Ok limit.
Proof. unfold nodes_params. intros Hp. peel_in Hp; congruence. Qed.

Lemma nodes_crawl query limit label recs fuel :
  NoDup (map node_id (api_nodes db)) -> forallb node_id_ok (api_nodes db) = true ->
  nodes_params st query = Ok (Z.of_nat limit, label) ->
  read_node_rows db (selected_nodes db query label) = Ok recs ->
  (length recs < fuel)%nat ->
  crawl (fun i cursor => nodes_page st (envs i) (nodes_with_cursor query cursor)) fuel 0 None
  = Some (Ok recs).
Proof.
  intros Hnd Hids Hp Hr Hf.
  pose proof (page_limit_bounds _ _ (nodes_params_limit _ _ _ Hp)) as Hl.
  rewrite (crawl_ext _ (fun i => keyset_page "nodes" (filter_hash query) Ok
    (fun n after => db_result (list_node_health_page (env_db (envs i)) n (nodes_filters query label after)))
    (fun r => node_id (nh_node r)) st (envs i) (Z.of_nat limit))).
  - apply (keyset_crawl "nodes" (filter_hash query) Ok
      (fun i n after => db_result (list_node_health_page (env_db (envs i)) n (nodes_filters query label after)))
      _ st envs limit recs); [lia|done|done| | |done].
    + intros r. by apply (nodes_positions query label).
    + intros i k Hk. apply nodes_fetch; [done|done|unfold ABSOLUTE_MAX_LIMIT in *; lia|done].
  - intros i c. by apply nodes_page_keyset.
Qed.

(** *** Health history *)

Lemma append_not_empty a b : str_is_empty a = false -> str_is_empty (a +:+ b) = false.
Proof. by destruct a. Qed.

Lemma history_parts_position r :
  history_row_ok r = true ->
  history_parts (Some (history_position r))
  = Ok (Some (hs_computed_at (hh_snapshot r), hs_node_id (hh_snapshot r), hh_evaluation_id r)).
Proof.
  unfold history_row_ok, field_ok. intros Hr. bool_facts. unfold history_parts, split_after, history_position.
  rewrite !split_bar by (rewrite ?plain_app; by rewrite ?andb_true_iff).
  rewrite split_bar_last by done. cbn [length Nat.eqb negb orb existsb].
  repeat match goal with E : str_is_empty _ = false |- _ => rewrite E; clear E end. done.
Qed.

Lemma history_position_ok r query window :
  history_row_ok r = true ->
  position_ok {| pos_resource := "health-history"; pos_after := history_position r;
                 pos_filter_hash := history_hash query window |} = true.
Proof.
  unfold history_row_ok, field_ok. intros Hr. bool_facts. apply position_ok_hash; [done|done|].
  rewrite !andb_true_iff, negb_true_iff, Z.leb_le. split; [split|done]; unfold history_position.
  - by rewrite !plain_app, !andb_true_iff.
  - by apply append_not_empty.
Qed.

Lemma selected_history_elem query window r :
  r ∈ selected_history db query window -> r ∈ api_history db.
Proof.
  unfold selected_history, sort_desc. rewrite list_elem_of_In, <- in_rev, <- list_elem_of_In, sort_by_elem.
  rewrite list_elem_of_In, <- in_rev, filter_In, <- list_elem_of_In. tauto.
Qed.

Lemma history_fetch query window recs i k limit :
  NoDup (map history_key (api_history db)) -> forallb history_row_ok (api_history db) = true ->
  try_map health_history_from_row_api (selected_history db query window) = Ok recs ->
  (S limit <= Z.to_nat (ABSOLUTE_MAX_LIMIT + 1))%nat -> (k <= length recs)%nat ->
  exists parts, history_parts (position_before history_position recs k) = Ok parts
    /\ db_result (list_health_history_page (env_db (envs i)) (Z.of_nat limit + 1)
                    (history_filters query window parts))
       = Ok (take (S limit) (drop k recs)).
Proof.
  intros Hnd Hok Hr Hl Hk. rewrite same_db.
  pose proof (history_rows_same _ _ Hr) as ->. set (rows := selected_history db query window) in *.
  assert (exists parts, history_parts (position_before history_position rows k) = Ok parts
    /\ forall r, history_after parts r = match k with
         | O => true
         | S j => match rows !! j with Some y => key_ltb (history_key r) (history_key y) | None => true end
         end) as (parts & Hparts & Hafter).
  { destruct k as [|j]; [by exists None|]. cbn [position_before].
    destruct (lookup_lt_is_Some_2 rows j) as [y Hy]; [lia|]. rewrite Hy. cbn [fmap option_fmap option_map].
    rewrite history_parts_position; [by eexists|].
    rewrite forallb_forall in Hok. apply Hok, list_elem_of_In.
    eapply selected_history_elem, list_elem_of_lookup_2, Hy. }
  exists parts. split; [done|]. unfold list_health_history_page.
  rewrite limited_ok by (unfold ABSOLUTE_MAX_LIMIT in *; lia).
  replace (Z.to_nat (Z.of_nat limit + 1)) with (S limit) by lia.
  rewrite filter_both, sort_desc_filter by (by apply filter_keys).
  change (sort_desc history_key (List.filter (history_selected (history_filters query window parts)) (api_history db)))
    with rows. cbn [hf_after history_filters].
  rewrite (rows_after history_key true _ _ k); [by erewrite try_map_slice| |done|done].
  by apply sort_desc_sorted, filter_keys.
Qed.

Lemma history_crawl query limit window recs fuel :
  NoDup (map history_key (api_history db)) -> forallb history_row_ok (api_history db) = true ->
  history_params st query = Ok (Z.of_nat limit, window) ->
  try_map health_history_from_row_api (selected_history db query window) = Ok recs ->
  (length recs < fuel)%nat ->
  crawl (fun i cursor => history_page st (envs i) (history_with_cursor query cursor)) fuel 0 None
  = Some (Ok recs).
Proof.
  intros Hnd Hok Hp Hr Hf.
  assert (page_limit (hq_limit query) (st_max_limit st) = Ok (Z.of_nat limit)) as Hl.
  { unfold history_params in Hp. peel_in Hp; congruence. }
  apply page_limit_bounds in Hl.
  rewrite (crawl_ext _ (fun i => keyset_page "health-history" (history_hash query window) history_parts
    (fun n parts => db_result (list_health_history_page (env_db (envs i)) n (history_filters query window parts)))
    history_position st (envs i) (Z.of_nat limit))).
  - apply (keyset_crawl "health-history" (history_hash query window) history_parts
      (fun i n parts => db_result (list_health_history_page (env_db (envs i)) n (history_filters query window parts)))
      _ st envs limit recs); [lia|done|done| | |done].
    + intros r Hin. rewrite (history_rows_same _ _ Hr) in Hin. apply history_position_ok.
      rewrite forallb_forall in Hok. by eapply Hok, list_elem_of_In, selected_history_elem.
    + intros i k Hk. apply history_fetch; [done|done|done|unfold ABSOLUTE_MAX_LIMIT in *; lia|done].
  - intros i c. unfold history_page, keyset_page.
    change (history_params st (history_with_cursor query c)) with (history_params st query). by rewrite Hp.
Qed.

(** *** Alerts *)

Lemma alert_parts_position r :
  alert_row_ok r = true ->
  alert_parts (Some (alert_position r)) = Ok (Some (al_last_seen_at r, al_alert_id r)).
Proof.
  unfold alert_row_ok, field_ok. intros Hr. bool_facts. unfold alert_parts, split_after, alert_position.
  rewrite split_bar, split_bar_last by done. cbn [length Nat.eqb negb orb existsb].
  repeat match goal with E : str_is_empty _ = false |- _ => rewrite E; clear E end. done.
Qed.

Lemma alert_position_ok r query window :
  alert_row_ok r = true ->
  position_ok {| pos_resource := "alerts"; pos_after := alert_position r;
                 pos_filter_hash := alerts_hash query window |} = true.
Proof.
  unfold alert_row_ok, field_ok. intros Hr. bool_facts. apply position_ok_hash; [done|done|].
  rewrite !andb_true_iff, negb_true_iff, Z.leb_le. split; [split|done]; unfold alert_position.
  - by rewrite !plain_app, !andb_true_iff.
  - by apply append_not_empty.
Qed.

Lemma selected_alerts_elem query window r :
  r ∈ selected_alerts db query window -> r ∈ api_alerts db.
Proof.
  unfold selected_alerts, sort_desc. rewrite list_elem_of_In, <- in_rev, <- list_elem_of_In, sort_by_elem.
  rewrite list_elem_of_In, <- in_rev, filter_In, <- list_elem_of_In. tauto.
Qed.

Lemma alert_positions l l' :
  try_map alert_event_from_row l = Ok l' -> map alert_position l' = map alert_position l.
Proof. apply try_map_keys, alert_row_position. Qed.

Lemma alerts_fetch query window recs i k limit :
  NoDup (map al_alert_id (api_alerts db)) -> forallb alert_row_ok (api_alerts db) = true ->
  try_map alert_event_from_row (selected_alerts db query window) = Ok recs ->
  (S limit <= Z.to_nat (ABSOLUTE_MAX_LIMIT + 1))%nat -> (k <= length recs)%nat ->
  exists parts, alert_parts (position_before alert_position recs k) = Ok parts
    /\ db_result (list_alert_page (env_db (envs i)) (Z.of_nat limit + 1)
                    (alerts_filters query window parts))
       = Ok (take (S limit) (drop k recs)).
Proof.
  intros Hid Hok Hr Hl Hk. rewrite same_db. pose proof (alert_positions _ _ Hr) as Hpos.
  assert (NoDup (map alert_key (api_alerts db))) as Hnd
    by (revert Hid; apply NoDup_finer; by intros x y [= _ ?]).
  set (rows := selected_alerts db query window) in *.
  assert (length recs = length rows) as Hlen.
  { apply (f_equal length) in Hpos. by rewrite !length_map in Hpos. }
  assert (exists parts, alert_parts (position_before alert_position recs k) = Ok parts
    /\ forall r, alert_after parts r = match k with
         | O => true
         | S j => match rows !! j with Some y => key_ltb (alert_key r) (alert_key y) | None => true end
         end) as (parts & Hparts & Hafter).
  { destruct k as [|j]; [by exists None|]. cbn [position_before].
    destruct (lookup_lt_is_Some_2 rows j) as [y Hy]; [lia|].
    apply (f_equal (lookup j)) in Hpos. rewrite !list_lookup_fmap, Hy in Hpos. rewrite Hpos, Hy.
    cbn [fmap option_fmap option_map]. rewrite alert_parts_position; [by eexists|].
    rewrite forallb_forall in Hok. apply Hok, list_elem_of_In.
    eapply selected_alerts_elem, list_elem_of_lookup_2, Hy. }
  exists parts. split; [done|]. unfold list_alert_page.
  rewrite limited_ok by (unfold ABSOLUTE_MAX_LIMIT in *; lia).
  replace (Z.to_nat (Z.of_nat limit + 1)) with (S limit) by lia.
  rewrite filter_both, sort_desc_filter by (by apply filter_keys).
  change (sort_desc alert_key (List.filter (alert_selected (alerts_filters query window parts)) (api_alerts db)))
    with rows. cbn [af_after alerts_filters].
  rewrite (rows_after alert_key true _ _ k); [by erewrite try_map_slice| |lia|done].
  by apply sort_desc_sorted, filter_keys.
Qed.

Lemma alerts_crawl query limit window recs fuel :
  NoDup (map al_alert_id (api_alerts db)) -> forallb alert_row_ok (api_alerts db) = true ->
  alerts_params st query = Ok (Z.of_nat limit, window) ->
  try_map alert_event_from_row (selected_alerts db query window) = Ok recs ->
  (length recs < fuel)%nat ->
  crawl (fun i cursor => alerts_page st (envs i) (alerts_with_cursor query cursor)) fuel 0 None
  = Some (Ok recs).
Proof.
  intros Hnd Hok Hp Hr Hf.
  assert (page_limit (aq_limit query) (st_max_limit st) = Ok (Z.of_nat limit)) as Hl.
  { unfold alerts_params in Hp. peel_in Hp; congruence. }
  apply page_limit_bounds in Hl.
  rewrite (crawl_ext _ (fun i => keyset_page "alerts" (alerts_hash query window) alert_parts
    (fun n parts => db_result (list_alert_page (env_db (envs i)) n (alerts_filters query window parts)))
    alert_position st (envs i) (Z.of_nat limit))).
  - apply (keyset_crawl "alerts" (alerts_hash query window) alert_parts
      (fun i n parts => db_result (list_alert_page (env_db (envs i)) n (alerts_filters query window parts)))
      _ st envs limit recs); [lia|done|done| | |done].
    + intros r Hin. apply (list_elem_of_fmap_2 alert_position) in Hin.
      change (alert_position <$> recs) with (map alert_position recs) in Hin.
      rewrite (alert_positions _ _ Hr) in Hin. apply list_elem_of_fmap in Hin as (y & -> & Hy).
      apply alert_position_ok. rewrite forallb_forall in Hok.
      by eapply Hok, list_elem_of_In, selected_alerts_elem.
    + intros i k Hk. apply alerts_fetch; [done|done|done|unfold ABSOLUTE_MAX_LIMIT in *; lia|done].
  - intros i c. unfold alerts_page, keyset_page.
    change (alerts_params st (alerts_with_cursor query c)) with (alerts_params st query). by rewrite Hp.
Qed.
End listings.
