(* ===== verification/ApiAuthLemmas.v ===== *)
(** * ApiAuthLemmas: which credentials open the API

    The relation of credentials to principals, the well-formedness of a loaded
    configuration, and what startup guarantees about it. *)

From S2P Require Import Prelude Text External Net InputValidation StoreTypes StoredText.
From S2P Require Import StoragePayloads StoreDb ObservationPayloads AlertWebhook SchedulerStore.
From S2P Require Import Slo ApiPayloads VersionGovernance ApiStore ApiMetrics AuditExport.
From S2P Require Import ApiProjections ApiAuth ApiCursor ApiCursorLemmas ApiRoutes.

(** ** Loaded configurations *)

(** A configured digest has 32 bytes. *)
Definition digest_ok (d : list Z) : Prop := length d = 32%nat.

Definition config_digests (c : AuthConfig) : list (list Z) :=
  map sa_token_digest (ac_service_accounts c)
  ++ option_list (sa_token_digest <$> ac_break_glass c)
  ++ option_list (ac_mtls_proxy_secret_digest c).

Definition authenticator_digests (a : Authenticator) : list (list Z) :=
  option_list (at_digest <$> au_legacy_bearer a) ++ config_digests (au_config a).

Definition authenticator_ok (a : Authenticator) : Prop := Forall digest_ok (authenticator_digests a).

(** ** Credentials *)

Section credentials.
Context `{TimeOps, Sha256Ops, Base64Ops, Ed25519Ops, AuthDecoders}.

(** A token signed with a configured key, whose claims hold now. *)
Inductive jwt_credential (v : OidcVerifier) (now : Z) (token : string) : Principal -> Prop :=
| jwt_signed h c s header key signature claims groups principal :
    str_len token <= MAX_TOKEN_BYTES ->
    str_split (fun b => b =? 46) token = [h; c; s] ->
    str_len h <= MAX_JWT_SEGMENT_BYTES -> str_len c <= MAX_JWT_SEGMENT_BYTES ->
    str_len s <= MAX_JWT_SEGMENT_BYTES ->
    base64url_decode h ≫= jwt_header_from_slice = Some header ->
    jh_alg header = "EdDSA" -> jh_typ header ∈ [None; Some "JWT"] ->
    ov_keys v !! jh_kid header = Some key ->
    base64url_decode s = Some signature ->
    ed25519_verify key (str_bytes (h +:+ "." +:+ c)) signature = true ->
    base64url_decode c ≫= jwt_claims_from_slice = Some claims ->
    jc_iss claims = ov_issuer v -> audience_contains (jc_aud claims) (ov_audience v) = true ->
    unix_timestamp now < jc_exp claims ->
    (forall not_before, jc_nbf claims = Some not_before -> not_before <= unix_timestamp now) ->
    validate_identity_text (jc_sub claims) "OIDC subject" = Ok (pr_principal_id principal) ->
    map_get (ov_groups_claim v) (jc_extra claims) = Some (VArray (map VString groups)) ->
    Z.of_nat (length groups) <= MAX_AUTH_ENTRIES ->
    (forall role, role ∈ pr_roles principal <->
       exists group roles, group ∈ groups /\ ov_mappings v !! group = Some roles /\ role ∈ roles) ->
    pr_roles principal <> ∅ -> pr_method principal = Oidc -> pr_authenticated principal = true ->
    jwt_credential v now token principal.

Definition account_matches (token : string) (account : ServiceAccount) : Prop :=
  sa_token_digest account = digest token.

Definition no_legacy (a : Authenticator) (token : string) : Prop :=
  forall t, au_legacy_bearer a = Some t -> at_digest t <> digest token.

Definition account_principal (account : ServiceAccount) (method : AuthenticationMethod) : Principal :=
  {| pr_principal_id := sa_principal_id account; pr_roles := sa_roles account;
     pr_method := method; pr_authenticated := true |}.

Inductive bearer_credential (a : Authenticator) (now : Z) (token : string) : Principal -> Prop :=
| by_legacy t :
    au_legacy_bearer a = Some t -> at_digest t = digest token ->
    bearer_credential a now token authenticated_viewer
| by_service_account before account after :
    no_legacy a token ->
    ac_service_accounts (au_config a) = before ++ account :: after ->
    Forall (fun other => ~ account_matches token other) before ->
    account_matches token account -> now < sa_expires_at account ->
    bearer_credential a now token (account_principal account ServiceAccountMethod)
| by_break_glass account :
    no_legacy a token ->
    Forall (fun other => ~ account_matches token other) (ac_service_accounts (au_config a)) ->
    ac_break_glass (au_config a) = Some account -> account_matches token account ->
    now < sa_expires_at account ->
    bearer_credential a now token (account_principal account BreakGlass)
| by_jwt oidc principal :
    no_legacy a token ->
    Forall (fun other => ~ account_matches token other) (ac_service_accounts (au_config a)) ->
    (forall account, ac_break_glass (au_config a) = Some account -> ~ account_matches token account) ->
    ac_oidc (au_config a) = Some oidc -> dot_count token = 2%nat ->
    jwt_credential oidc now token principal ->
    bearer_credential a now token principal.

(** The headers of a request that open the API as the principal. *)
Inductive credential (a : Authenticator) (now : Z) (headers : HeaderMap) : Principal -> Prop :=
| by_bearer token principal :
    bearer_token headers = Some token -> validate_token token = Ok tt ->
    bearer_credential a now token principal -> credential a now headers principal
| by_mtls secret subject identity :
    bearer_token headers = None ->
    header_str MTLS_VERIFIED_HEADER headers = Some "SUCCESS" ->
    header_str MTLS_PROXY_SECRET_HEADER headers = Some secret -> validate_token secret = Ok tt ->
    ac_mtls_proxy_secret_digest (au_config a) = Some (digest secret) ->
    header_str MTLS_SUBJECT_HEADER headers = Some subject ->
    ac_mtls_subjects (au_config a) !! subject = Some identity ->
    credential a now headers (mtls_principal identity)
| by_local_development :
    bearer_token headers = None ->
    header_str MTLS_VERIFIED_HEADER headers <> Some "SUCCESS" ->
    ac_local_development (au_config a) = true ->
    credential a now headers local_viewer.

(** ** Groups *)

Lemma group_roles_spec v roles groups out :
  group_roles v roles groups = Ok out <->
  exists names, groups = map VString names
    /\ out = roles ∪ ⋃ map (fun g => default ∅ (ov_mappings v !! g)) names.
Proof.
  revert roles. induction groups as [|g groups IH]; intros roles; cbn [group_roles].
  - split.
    + intros [= <-]. exists []. split; [done|]. cbn. set_solver.
    + intros (names & Hn & ->). destruct names; [|done]. cbn. f_equal. set_solver.
  - destruct g as [| | |name| |]; cbn [as_str ok_or];
      try (split; [done|intros ([|? ?] & [=] & _)]).
    rewrite IH. split.
    + intros (names & -> & ->). exists (name :: names). split; [done|]. cbn. set_solver.
    + intros ([|n names] & [= -> ->] & ->). exists names. split; [done|]. cbn. set_solver.
Qed.

Lemma mapped_roles v names role :
  role ∈ ⋃ map (fun g => default (∅ : gset Role) (ov_mappings v !! g)) names <->
  exists group roles, group ∈ names /\ ov_mappings v !! group = Some roles /\ role ∈ roles.
Proof.
  rewrite elem_of_union_list. split.
  - intros (X & HX & Hr). apply list_elem_of_fmap in HX as (g & -> & Hg).
    destruct (ov_mappings v !! g) as [roles|] eqn:E; [|cbn in Hr; set_solver]. eauto.
  - intros (g & roles & Hg & E & Hr). exists roles. split; [|done].
    apply list_elem_of_fmap. exists g. by rewrite E.
Qed.

(** ** Tokens *)

Lemma typ_allowed (typ : option string) :
  match typ with Some typ => negb (String.eqb typ "JWT") | None => false end = false
  <-> typ ∈ [None; Some "JWT"].
Proof.
  rewrite !elem_of_cons, elem_of_nil. destruct typ as [t|]; [|tauto].
  rewrite negb_false_iff, String.eqb_eq. split; [intros ->; tauto|].
  intros [?|[[= ->]|[]]]; done.
Qed.

Lemma nbf_allowed (nbf : option Z) now :
  match nbf with Some n => now <? n | None => false end = false
  <-> forall n, nbf = Some n -> n <= now.
Proof.
  destruct nbf as [n|]; [|done]. rewrite Z.ltb_ge. split; [by intros ? ? [= <-]|auto].
Qed.

Lemma claims_principal_spec v now claims principal :
  claims_principal v now claims = Ok principal <->
  jc_iss claims = ov_issuer v /\ audience_contains (jc_aud claims) (ov_audience v) = true
  /\ unix_timestamp now < jc_exp claims
  /\ (forall n, jc_nbf claims = Some n -> n <= unix_timestamp now)
  /\ validate_identity_text (jc_sub claims) "OIDC subject" = Ok (pr_principal_id principal)
  /\ (exists groups,
        map_get (ov_groups_claim v) (jc_extra claims) = Some (VArray (map VString groups))
        /\ Z.of_nat (length groups) <= MAX_AUTH_ENTRIES
        /\ forall role, role ∈ pr_roles principal <->
             exists group roles, group ∈ groups /\ ov_mappings v !! group = Some roles /\ role ∈ roles)
  /\ pr_roles principal <> ∅ /\ pr_method principal = Oidc /\ pr_authenticated principal = true.
Proof.
  unfold claims_principal. split.
  - intros Hp. peel_in Hp. unwrap. injection Hp as <-. bool_facts.
    pose proof (proj1 (nbf_allowed _ _) Hc1) as Hnbf. apply group_roles_spec in Hm1 as (names & -> & ->).
    destruct (map_get _ _) as [[]|] eqn:Hg; simplify_eq/=. rewrite length_map in *.
    do 5 (split; [done|]). split; [|done]. exists names. do 2 (split; [done|]).
    intros role. rewrite <- mapped_roles. set_solver.
  - intros (Hi & Ha & He & Hn & Hs & (groups & Hg & Hl & Hr) & Hne & Hm & Hau).
    rewrite Hi, String.eqb_refl, Ha. cbn [negb orb]. rewrite (proj2 (Z.leb_gt _ _) He).
    rewrite (proj2 (nbf_allowed (jc_nbf claims) _) Hn), Hs, Hg. cbn [map_err ok_or mbind option_bind as_array].
    rewrite length_map, (proj2 (Z.ltb_ge _ _) Hl).
    rewrite (proj2 (group_roles_spec _ _ _ _)) by (by exists groups).
    assert (∅ ∪ ⋃ map (fun g => default ∅ (ov_mappings v !! g)) groups = pr_roles principal) as ->.
    { apply set_eq. intros role. rewrite Hr, <- mapped_roles. set_solver. }
    rewrite bool_decide_false by done. destruct principal; cbn in *; by subst.
Qed.

Lemma oidc_authenticate_spec v now token principal :
  oidc_authenticate v now token = Ok principal <-> jwt_credential v now token principal.
Proof.
  unfold oidc_authenticate. split.
  - intros Hp. peel_in Hp. unwrap. bool_facts. match goal with E : match jh_typ ?h with _ => _ end = false |- _ => apply (typ_allowed (jh_typ h)) in E end.
    apply claims_principal_spec in Hp as (? & ? & ? & ? & ? & (groups & ? & ? & ?) & ? & ? & ?).
    by econstructor.
  - intros [h c s header key signature claims groups p Hl Hsp Hh Hc Hs Hhd Halg Htyp Hk Hsig Hver Hcl
      Hiss Haud Hexp Hnbf Hsub Hg Hgl Hr Hne Hm Hau].
    rewrite (proj2 (Z.ltb_ge _ _) Hl), Hsp, !(proj2 (Z.ltb_ge _ _)) by done. cbn [orb].
    rewrite Hhd. cbn [ok_or]. rewrite Halg, (proj2 (typ_allowed (jh_typ header)) Htyp). cbn [String.eqb negb orb].
    rewrite Hk. cbn [ok_or]. rewrite Hsig. cbn [ok_or]. rewrite Hver, Hcl. cbn [ok_or].
    apply claims_principal_spec. do 5 (split; [done|]). split; [|done]. by exists groups.
Qed.

(** ** Requests *)

Context `{!Sha256Laws}.

Lemma digest_matches d token : digest_ok d -> (constant_time_eq d (digest token) = true <-> d = digest token).
Proof. intros Hd. apply constant_time_eq_spec. unfold digest. by rewrite sha256_length. Qed.

Lemma legacy_matches a token :
  authenticator_ok a ->
  match au_legacy_bearer a with
  | Some legacy => constant_time_eq (at_digest legacy) (digest token)
  | None => false
  end = false <-> no_legacy a token.
Proof.
  unfold authenticator_ok, authenticator_digests, no_legacy. rewrite Forall_app. intros [Hl _].
  destruct (au_legacy_bearer a) as [t|]; [|by split; [intros _ ? [=]|]].
  rewrite <- not_true_iff_false, (digest_matches _ _ (Forall_inv Hl)).
  split; [by intros Hn ? [= <-]|]. intros Hn. by apply Hn.
Qed.

Lemma find_account token l :
  Forall digest_ok (map sa_token_digest l) ->
  match List.find (fun account => constant_time_eq (sa_token_digest account) (digest token)) l with
  | Some account => exists before after, l = before ++ account :: after
      /\ Forall (fun other => ~ account_matches token other) before /\ account_matches token account
  | None => Forall (fun other => ~ account_matches token other) l
  end.
Proof.
  induction l as [|x l IH]; cbn [map List.find]; [constructor|]. intros [Hx Hl]%Forall_cons.
  destruct (constant_time_eq _ _) eqn:E.
  - apply digest_matches in E; [|done]. by exists [], l.
  - rewrite <- not_true_iff_false, digest_matches in E by done. specialize (IH Hl).
    destruct (List.find _ l); [|by constructor].
    destruct IH as (before & after & -> & Hb & Hm). exists (x :: before), after.
    split; [done|]. by split; [constructor|].
Qed.

Lemma find_account_first token before account after :
  Forall digest_ok (map sa_token_digest (before ++ account :: after)) ->
  Forall (fun other => ~ account_matches token other) before -> account_matches token account ->
  List.find (fun account => constant_time_eq (sa_token_digest account) (digest token))
    (before ++ account :: after) = Some account.
Proof.
  induction before as [|x before IH]; cbn [app map List.find]; intros [Hx Hl]%Forall_cons Hb Hm.
  - by rewrite (proj2 (digest_matches _ _ Hx) Hm).
  - apply Forall_cons in Hb as [Hn Hb].
    destruct (constant_time_eq _ _) eqn:E; [by apply digest_matches in E|]. by apply IH.
Qed.

Lemma find_account_none token l :
  Forall digest_ok (map sa_token_digest l) ->
  Forall (fun other => ~ account_matches token other) l ->
  List.find (fun account => constant_time_eq (sa_token_digest account) (digest token)) l = None.
Proof.
  induction l as [|x l IH]; cbn [map List.find]; [done|].
  intros [Hx Hl]%Forall_cons [Hn Hb]%Forall_cons.
  destruct (constant_time_eq _ _) eqn:E; [by apply digest_matches in E|]. by apply IH.
Qed.

Lemma service_account_principal_spec account now method principal :
  service_account_principal account now method = Ok principal
  <-> now < sa_expires_at account /\ principal = account_principal account method.
Proof.
  unfold service_account_principal. destruct (_ <=? _) eqn:E; bool_facts.
  - split; [done|]. intros [? _]. lia.
  - split; [intros [= <-]|intros [_ ->]]; done.
Qed.

Lemma ok_accounts a :
  authenticator_ok a ->
  Forall digest_ok (map sa_token_digest (ac_service_accounts (au_config a)))
  /\ (forall account, ac_break_glass (au_config a) = Some account -> digest_ok (sa_token_digest account))
  /\ (forall d, ac_mtls_proxy_secret_digest (au_config a) = Some d -> digest_ok d).
Proof.
  unfold authenticator_ok, authenticator_digests, config_digests. rewrite !Forall_app.
  intros (_ & Ha & Hb & Hm). split; [done|]. split.
  - intros account E. rewrite E in Hb. exact (Forall_inv Hb).
  - intros d E. rewrite E in Hm. exact (Forall_inv Hm).
Qed.

Lemma ok_legacy a t : authenticator_ok a -> au_legacy_bearer a = Some t -> digest_ok (at_digest t).
Proof.
  unfold authenticator_ok, authenticator_digests. rewrite Forall_app. intros [Hl _] E.
  rewrite E in Hl. exact (Forall_inv Hl).
Qed.

Lemma bearer_sound a now token principal :
  authenticator_ok a -> authenticate_bearer a now token = Ok principal ->
  validate_token token = Ok tt /\ bearer_credential a now token principal.
Proof.
  intros Hok Hp. destruct (ok_accounts a Hok) as (Ha & Hb & _). unfold authenticate_bearer in Hp.
  destruct (validate_token token) as [[]|] eqn:Hv; [cbn [is_ok] in Hp|done]. split; [done|].
  cbv zeta in Hp. destruct (match au_legacy_bearer a with Some _ => _ | None => _ end) eqn:El.
  { injection Hp as <-. destruct (au_legacy_bearer a) as [t|] eqn:Et; [|done].
    apply digest_matches in El; [by econstructor|by apply (ok_legacy a)]. }
  pose proof (proj1 (legacy_matches _ _ Hok) El) as Hnl. pose proof (find_account token _ Ha) as Hf.
  destruct (List.find _ _) as [account|].
  { destruct Hf as (before & after & Hl & Hbf & Hm).
    apply service_account_principal_spec in Hp as [Hx ->]. by econstructor. }
  destruct (ac_break_glass (au_config a)) as [account|] eqn:Eb; cbn [opt_filter] in Hp.
  - destruct (constant_time_eq _ _) eqn:E.
    + apply service_account_principal_spec in Hp as [Hx ->].
      apply digest_matches in E; [|by apply Hb]. by eapply by_break_glass.
    + rewrite <- not_true_iff_false, digest_matches in E by (by apply Hb). peel_in Hp.
      apply oidc_authenticate_spec in Hp. apply Nat.eqb_eq in Hc.
      eapply by_jwt; [done|done| |done|done|done]. intros x. rewrite Eb. by intros [= <-].
  - peel_in Hp. apply oidc_authenticate_spec in Hp. apply Nat.eqb_eq in Hc.
    eapply by_jwt; [done|done| |done|done|done]. intros x. by rewrite Eb.
Qed.

Lemma bearer_complete a now token principal :
  authenticator_ok a -> validate_token token = Ok tt -> bearer_credential a now token principal ->
  authenticate_bearer a now token = Ok principal.
Proof.
  intros Hok Hv Hp. destruct (ok_accounts a Hok) as (Ha & Hb & _). unfold authenticate_bearer.
  rewrite Hv. cbn [is_ok]. cbv zeta. destruct Hp as [t Et Hd|before account after Hnl Hl Hbf Hm Hx
    |account Hnl Hno Eb Hm Hx|oidc p Hnl Hno Hbg Ho Hdot Hj].
  - rewrite Et. by rewrite (proj2 (digest_matches _ _ (ok_legacy a t Hok Et)) Hd).
  - rewrite (proj2 (legacy_matches _ _ Hok) Hnl). rewrite Hl in Ha |- *.
    rewrite find_account_first by done. by apply service_account_principal_spec.
  - rewrite (proj2 (legacy_matches _ _ Hok) Hnl), (find_account_none _ _ Ha Hno), Eb. cbn [opt_filter].
    rewrite (proj2 (digest_matches _ _ (Hb _ Eb)) Hm). by apply service_account_principal_spec.
  - rewrite (proj2 (legacy_matches _ _ Hok) Hnl), (find_account_none _ _ Ha Hno), Ho, Hdot.
    replace (opt_filter _ _) with (@None ServiceAccount); [by apply oidc_authenticate_spec|].
    destruct (ac_break_glass (au_config a)) as [account|] eqn:Eb; [|done]. cbn [opt_filter].
    destruct (constant_time_eq _ _) eqn:E; [|done].
    apply digest_matches in E; [|by apply Hb]. by destruct (Hbg account).
Qed.

Lemma authenticate_spec a now headers principal :
  authenticator_ok a ->
  (authenticate a now headers = Ok principal <-> credential a now headers principal).
Proof.
  intros Hok. destruct (ok_accounts a Hok) as (_ & _ & Hm). unfold authenticate. split.
  - destruct (bearer_token headers) as [token|] eqn:Hb.
    { intros [Hv Hp]%bearer_sound; [|done]. by eapply by_bearer. }
    case_bool_decide as Hs.
    + unfold authenticate_mtls. intros Hp. peel_in Hp. unwrap. bool_facts. injection Hp as <-.
      destruct (validate_token _) as [[]|] eqn:Hv; [|done].
      match goal with E : constant_time_eq _ _ = true |- _ =>
        apply digest_matches in E; [subst|by apply Hm] end.
      by eapply by_mtls.
    + destruct (ac_local_development _) eqn:Hd; [|done]. intros [= <-]. by apply by_local_development.
  - intros [token p Hb Hv Hp|secret subject identity Hb Hs Hse Hv Hd Hsu Hi|Hb Hs Hd].
    + rewrite Hb. by apply bearer_complete.
    + rewrite Hb, bool_decide_true by done. unfold authenticate_mtls. rewrite Hse, Hd. cbn [ok_or].
      rewrite Hv. cbn [is_ok andb]. rewrite (proj2 (digest_matches _ _ (Hm _ Hd)) eq_refl), Hsu.
      cbn [ok_or]. by rewrite Hi.
    + by rewrite Hb, bool_decide_false, Hd by done.
Qed.

End credentials.

(** ** Startup *)

Section startup.
Context `{TimeOps, JsonOps, Sha256Ops, JsonBytes, Base64Ops, Base64Standard, Base64Encode}.
Context `{CursorCodec, Ed25519Ops, AuthDecoders, !Sha256Laws}.

Lemma hex_pairs_length n bs : length bs = (2 * n)%nat -> length (hex_pairs bs) = n.
Proof.
  revert bs. induction n as [|n IH]; intros [|a [|b bs]] Hl; cbn in *; try lia.
  f_equal. apply IH. lia.
Qed.

Lemma parse_sha256_ok value field d : parse_sha256 value field = Ok d -> digest_ok d.
Proof.
  unfold parse_sha256. intros Hp. peel_all Hp. apply hex_pairs_length.
  pose proof (str_bytes_length value). lia.
Qed.

Lemma service_account_digest value account :
  service_account_try_from value = Ok account -> digest_ok (sa_token_digest account).
Proof.
  unfold service_account_try_from. intros Hp. peel_in Hp. injection Hp as <-. by eapply parse_sha256_ok.
Qed.

Lemma service_accounts_digests l accounts :
  service_accounts l = Ok accounts -> Forall digest_ok (map sa_token_digest accounts).
Proof.
  revert accounts. induction l as [|x l IH]; cbn [service_accounts]; intros accounts Hp.
  - injection Hp as <-. constructor.
  - peel_in Hp. injection Hp as <-. cbn [map]. constructor; [by eapply service_account_digest|by apply IH].
Qed.

(** The break-glass account of a loaded configuration. *)
Lemma break_glass_loaded now entry account :
  break_glass_account now entry = Ok account ->
  digest_ok (sa_token_digest account) /\ SecurityAdmin ∈ sa_roles account
  /\ now < sa_expires_at account <= now + one_hour.
Proof.
  unfold break_glass_account. intros Hp. peel_all Hp. split; [by eapply service_account_digest|].
  split; [done|lia].
Qed.

Lemma transpose_some {A B} (f : A -> result string B) o b :
  transpose f o = Ok (Some b) -> exists a, o = Some a /\ f a = Ok b.
Proof. unfold transpose. intros Ht. peel_all Ht. eauto. Qed.

Lemma auth_config_loaded files now file c :
  auth_config_from_file files now file = Ok c ->
  Forall digest_ok (config_digests c)
  /\ forall account, ac_break_glass c = Some account ->
       SecurityAdmin ∈ sa_roles account /\ sa_expires_at account <= now + one_hour.
Proof.
  unfold auth_config_from_file. intros Hp. peel_in Hp. injection Hp as <-.
  unfold config_digests. cbn [ac_service_accounts ac_break_glass ac_mtls_proxy_secret_digest].
  split.
  - rewrite !Forall_app. split; [by eapply service_accounts_digests|].
    split; match goal with |- Forall _ (option_list ?o) => destruct o eqn:Eo end; try constructor;
      try constructor.
    + destruct a1 as [account|]; [|done]. injection Eo as <-.
      apply transpose_some in Hm1 as (entry & _ & Hb).
      by apply break_glass_loaded in Hb as [Hd _].
    + simplify_eq. apply transpose_some in Hm as (text & _ & Hx). by eapply parse_sha256_ok.
  - intros account ->. apply transpose_some in Hm1 as (entry & _ & Hb).
    apply break_glass_loaded in Hb as (_ & Hr & He). split; [done|lia].
Qed.

Lemma auth_token_digest files path token :
  auth_token_from_private_file files path = Ok token -> digest_ok (at_digest token).
Proof.
  unfold auth_token_from_private_file, from_token_text. intros Hp. peel_in Hp. injection Hp as <-.
  apply sha256_length.
Qed.

(** What a started service knows about its authenticator: [t0] is the instant
    of the start. *)
Lemma startup_authenticator files t0 cli st :
  from_cli files t0 cli = Ok st ->
  authenticator_ok (st_authenticator st)
  /\ (forall account, ac_break_glass (au_config (st_authenticator st)) = Some account ->
        SecurityAdmin ∈ sa_roles account /\ sa_expires_at account <= t0 + one_hour)
  /\ (auth_enabled (st_authenticator st) = true ->
        ac_local_development (au_config (st_authenticator st)) = false).
Proof.
  unfold from_cli. intros Hp. peel_in Hp. unwrap. injection Hp as <-. cbn [st_authenticator].
  unfold authenticator_load in Hm0. peel_in Hm0. injection Hm0 as <-.
  rename a into legacy, a3 into loaded. set (config := default _ loaded) in *. cbn [au_config].
  assert (Forall digest_ok (config_digests config)
    /\ forall account, ac_break_glass config = Some account ->
       SecurityAdmin ∈ sa_roles account /\ sa_expires_at account <= t0 + one_hour) as [Hd Hb].
  { unfold config. destruct loaded as [c|]; [|by split; [constructor|intros ? [=]]].
    apply transpose_some in Hm3 as (path & _ & Hf). unfold auth_config_from_private_file in Hf.
    peel_in Hf. by eapply auth_config_loaded. }
  split; [|split; [done|]].
  - unfold authenticator_ok, authenticator_digests. cbn [au_legacy_bearer au_config].
    apply Forall_app_2; [|done]. destruct legacy as [t|]; [|constructor].
    apply transpose_some in Hm as (path & _ & Ht). constructor; [|constructor].
    by eapply auth_token_digest.
  - unfold auth_enabled. cbn [au_legacy_bearer au_config]. intros He.
    rewrite He, andb_true_r in *. done.
Qed.

Lemma startup_listener files t0 cli st :
  from_cli files t0 cli = Ok st -> is_loopback (cli_listen cli) = false ->
  auth_enabled (st_authenticator st) = true
  /\ ac_mtls_subjects (au_config (st_authenticator st)) = ∅.
Proof.
  unfold from_cli. intros Hp Hl. peel_in Hp. injection Hp as <-. rewrite Hl in *. cbn [negb andb] in *.
  cbn [st_authenticator]. unfold mtls_proxy_enabled in *. bool_facts. done.
Qed.

Lemma startup_keys files t0 cli st :
  from_cli files t0 cli = Ok st ->
  cursor_key_ok (kr_current (st_cursor_keys st))
  /\ (0 <= cli_max_limit cli -> 1 <= st_max_limit st <= ABSOLUTE_MAX_LIMIT).
Proof.
  unfold from_cli. intros Hp. peel_in Hp. unwrap. injection Hp as <-. cbn [st_cursor_keys st_max_limit].
  bool_facts. split; [|lia].
  match goal with Hk : keyring_from_private_file _ _ = Ok _ |- _ => by destruct (keyring_loaded _ _ _ Hk) end.
Qed.

End startup.
