(* ===== verification/ApiScenario.v ===== *)
(** * ApiScenario: small instances of the classes that the API uses

    A digest of the first bytes, hexadecimal text for base64, payloads with
    their texts closed by quotes, decoders that know one configuration, and a
    fleet of three nodes with a history of three evaluations.  The theorems
    about the API are applied here. *)

From S2P Require Import Prelude Text External Net InputValidation StoreTypes StoredText.
From S2P Require Import StoragePayloads StoreDb ObservationPayloads AlertWebhook SchedulerStore.
From S2P Require Import NodeMetadata AlertQueue Ordering Slo ApiPayloads VersionGovernance.
From S2P Require Import ApiStore.
From S2P Require Import ApiMetrics AuditExport ApiProjections ApiAuth ApiCursor ApiCursorLemmas.
From S2P Require Import ApiRoutes.

Import Toy.

Module ApiToy.

(** ** Digests, base64, JSON *)

#[export] Instance api_json_ops : JsonOps := {| json_encoded_len _ := 2 |}.
#[export] Instance api_sha256 : Sha256Ops :=
  {| sha256 b := map (fun x => x mod 256) (take 32 (b ++ replicate 32 0)) |}.
#[export] Instance api_json_bytes : JsonBytes := {| json_bytes _ := [123; 125] |}.
#[export] Instance api_base64url : Base64Ops :=
  {| base64url_decode s := Some (hex_pairs (str_bytes s)) |}.
#[export] Instance api_base64 : Base64Standard :=
  {| base64_decode s := Some (hex_pairs (str_bytes s)) |}.
#[export] Instance api_base64_encode : Base64Encode := {| base64_encode := hex_lower |}.

(** ** Payloads of cursors *)

Fixpoint le_bytes (n : nat) (x : Z) : list Z :=
  match n with O => [] | S n => x mod 256 :: le_bytes n (x / 256) end.

Fixpoint le_value (l : list Z) : Z :=
  match l with [] => 0 | x :: l => x + 256 * le_value l end.

(** A text up to the quote that closes it. *)
Fixpoint read_text (l : list Z) : option (list Z * list Z) :=
  match l with
  | [] => None
  | x :: l => if x =? 34 then Some ([], l)
              else match read_text l with Some (t, rest) => Some (x :: t, rest) | None => None end
  end.

Definition write_text (s : string) : list Z := str_bytes s ++ [34].

Definition toy_payload_to_vec (p : CursorPayload) : list Z :=
  (cp_version p mod 256) :: le_bytes 8 (cp_expires_at p - i64_min)
  ++ write_text (cp_key_id p) ++ write_text (cp_resource p) ++ write_text (cp_after p)
  ++ write_text (cp_filter_hash p).

Definition toy_payload_from_slice (l : list Z) : option CursorPayload :=
  match l with
  | [] => None
  | version :: l =>
      let expires := le_value (take 8 l) + i64_min in
      '(key_id, l) ← read_text (drop 8 l);
      '(resource, l) ← read_text l;
      '(after, l) ← read_text l;
      '(hash, _) ← read_text l;
      Some {| cp_version := version; cp_key_id := str_of_bytes key_id; cp_expires_at := expires;
              cp_resource := str_of_bytes resource; cp_after := str_of_bytes after;
              cp_filter_hash := str_of_bytes hash |}
  end.

Definition key_text : string := hex_lower (replicate 32 7).

#[export] Instance api_cursor_codec : CursorCodec := {|
  base64url_encode := hex_lower;
  payload_to_vec := toy_payload_to_vec;
  payload_from_slice := toy_payload_from_slice;
  key_file_from_slice _ :=
    Some {| kfile_schema := CURSOR_KEY_FILE_SCHEMA;
            kfile_current := {| ke_key_id := "key-2"; ke_key_base64 := key_text |};
            kfile_previous := None |};
|}.

(** *** The codec inverts itself *)

Lemma le_bytes_value n x : 0 <= x < 256 ^ Z.of_nat n -> le_value (le_bytes n x) = x.
Proof.
  revert x. induction n as [|n IH]; intros x Hx; cbn [le_bytes le_value]; [cbn in Hx; lia|].
  rewrite IH.
  - pose proof (Z.div_mod x 256 ltac:(lia)). lia.
  - rewrite Nat2Z.inj_succ, Z.pow_succ_r in Hx by lia.
    split; [apply Z.div_pos; lia|apply Z.div_lt_upper_bound; lia].
Qed.

Lemma le_bytes_length n x : length (le_bytes n x) = n.
Proof. revert x. induction n as [|n IH]; intros x; [done|]. cbn. by rewrite IH. Qed.

Lemma le_bytes_bound n x : Forall (fun b => 0 <= b <= 255) (le_bytes n x).
Proof.
  revert x. induction n as [|n IH]; intros x; [constructor|]. constructor; [|apply IH].
  pose proof (Z.mod_pos_bound x 256). lia.
Qed.

Lemma read_write_text s rest :
  plain s = true -> read_text (write_text s ++ rest) = Some (str_bytes s, rest).
Proof.
  unfold plain, write_text. induction (str_bytes s) as [|b l IH]; [done|].
  cbn [forallb app read_text]. intros Hs. bool_facts.
  rewrite (proj2 (Z.eqb_neq _ _)) by done. by rewrite IH.
Qed.

Lemma hex_pairs_digits b :
  Forall (fun x => 0 <= x <= 255) b -> hex_pairs (str_bytes (hex_lower b)) = b.
Proof.
  intros Hb. unfold hex_lower. rewrite str_bytes_of_ascii.
  induction Hb as [|x b Hx _ IH]; [done|]. cbn [flat_map app map hex_pairs]. rewrite IH. f_equal.
  assert (forall n, 0 <= n < 16 ->
    hex_value (byte_of (ascii_of_N (Z.to_N (if n <? 10 then 48 + n else 87 + n)))) = n) as Hd.
  { intros n Hn. unfold byte_of. rewrite N_ascii_embedding by (case_match; lia).
    rewrite Z2N.id by (case_match; lia). unfold hex_value, is_ascii_digit, in_range.
    destruct (n <? 10) eqn:E; bool_facts; repeat case_match; bool_facts; try lia.
    all: match goal with E : (_ && _) = false |- _ => apply andb_false_iff in E as [E|E]; bool_facts; lia end. }
  pose proof (Z.div_mod x 256 ltac:(lia)). pose proof (Z.mod_pos_bound x 16 ltac:(lia)).
  rewrite !Hd; [pose proof (Z.div_mod x 16 ltac:(lia)); lia|lia|].
  split; [apply Z.div_pos; lia|apply Z.div_lt_upper_bound; lia].
Qed.

#[export] Instance api_sha256_laws : Sha256Laws.
Proof.
  split; intros b; cbn [sha256 api_sha256].
  - rewrite length_map, length_take, length_app, length_replicate. lia.
  - apply Forall_map, Forall_true. intros x. pose proof (Z.mod_pos_bound x 256). lia.
Qed.

Lemma toy_payload_bytes p : Forall (fun x => 0 <= x <= 255) (toy_payload_to_vec p).
Proof.
  assert (forall s, Forall (fun x => 0 <= x <= 255) (write_text s)) as Hw.
  { intros s. apply Forall_app_2; [apply str_bytes_bound|]. by repeat constructor. }
  unfold toy_payload_to_vec. constructor; [pose proof (Z.mod_pos_bound (cp_version p) 256); lia|].
  apply Forall_app_2; [apply le_bytes_bound|]. do 3 (apply Forall_app_2; [apply Hw|]). apply Hw.
Qed.

Lemma toy_payload_decode p :
  plain_payload p = true -> toy_payload_from_slice (toy_payload_to_vec p) = Some p.
Proof.
  unfold plain_payload, toy_payload_to_vec, toy_payload_from_slice. intros Hp. bool_facts.
  rewrite take_app_length', drop_app_length' by (symmetry; apply le_bytes_length).
  rewrite le_bytes_value.
  2: { unfold i64_min, i64_max in *. change (256 ^ Z.of_nat 8) with (2 ^ 64). lia. }
  rewrite !read_write_text by done. cbn [mbind option_bind]. rewrite read_write_text by done.
  cbn [mbind option_bind]. rewrite read_write_text by done. cbn [mbind option_bind].
  rewrite <- (app_nil_r (write_text (cp_filter_hash p))), read_write_text by done.
  cbn [mbind option_bind]. rewrite !str_of_bytes_str_bytes, Z.mod_small by lia.
  destruct p; cbn. do 2 f_equal. lia.
Qed.

#[export] Instance api_cursor_laws : CursorLaws.
Proof.
  split.
  - intros b Hb. cbn [base64url_decode base64url_encode api_base64url api_cursor_codec].
    by rewrite hex_pairs_digits.
  - intros b Hb. cbn [base64url_encode api_cursor_codec]. unfold contains_byte. pose proof (hex_lower_digits _ Hb) as Hd.
    rewrite <- not_true_iff_false, existsb_exists. intros (x & Hx & E). rewrite forallb_forall in Hd.
    apply Hd in Hx. apply Z.eqb_eq in E as ->. done.
  - intros b. cbn [base64url_encode api_cursor_codec]. rewrite str_len_hex_lower. lia.
  - apply toy_payload_bytes.
  - apply toy_payload_decode.
  - intros p _. cbn [payload_to_vec api_cursor_codec]. unfold toy_payload_to_vec, write_text, payload_text_len.
    rewrite !length_cons, !length_app, le_bytes_length. cbn [length].
    rewrite <- !str_bytes_length. lia.
Qed.

(** ** Keys, versions, SQL *)

#[export] Instance api_ed25519 : Ed25519Ops := {|
  KeyPair := Z;
  key_from_pkcs8 b := head b;
  key_public k := replicate 32 k;
  key_sign k m := take 64 (k :: m ++ replicate 64 0);
  ed25519_verify pk m s := bool_decide (s = take 64 (hd 0 pk :: m ++ replicate 64 0));
|}.

#[export] Instance api_semver : SemverOps := {|
  Version := Z;
  version_parse := toy_parse;
  version_cmp := Z.compare;
|}.

#[export] Instance api_sqlite : SqliteFunctions := {|
  julian_seconds a b := Some 0;
  cast_integer v := default 0 (as_u64 v);
|}.

(** ** A configuration *)

Definition legacy_token : string := "legacy-token-legacy-token-legacy-token".
Definition account_token : string := "account-token-account-token-account-token".
Definition glass_token : string := "emergency-token-emergency-token-emergency".

Definition started_at : Z := 1000000 * 1000000000.
Definition glass_expiry : Z := started_at + one_hour.

Definition config_file : AuthConfigFile :=
  {| acf_local_development := false; acf_mtls_proxy_secret_sha256 := None;
     acf_service_accounts :=
       [{| saf_principal_id := "auditor-1"; saf_token_sha256 := hex_lower (digest account_token);
           saf_expires_at := toy_format (started_at + 24 * one_hour); saf_roles := ["auditor"] |}];
     acf_oidc := None; acf_mtls_subjects := [];
     acf_break_glass :=
       Some {| bgf_enabled := true;
               bgf_account :=
                 {| saf_principal_id := "on-call"; saf_token_sha256 := hex_lower (digest glass_token);
                    saf_expires_at := toy_format glass_expiry; saf_roles := ["security-admin"] |} |} |}.

#[export] Instance api_decoders : AuthDecoders := {|
  auth_config_from_toml _ := Some config_file;
  jwks_from_json _ := None;
  jwt_header_from_slice _ := None;
  jwt_claims_from_slice _ := None;
|}.

Definition files (path : string) : option string :=
  if String.eqb path "token" then Some legacy_token
  else if String.eqb path "config" then Some "config"
  else if String.eqb path "keys" then Some "keys" else None.

Definition cli : ApiCli :=
  {| cli_read_only := true; cli_listen := V4 [203; 0; 113; 7]; cli_max_limit := 100;
     cli_redact := RedactDefault; cli_auth_token_file := Some "token";
     cli_auth_config_file := Some "config"; cli_cursor_key_file := Some "keys" |}.

Definition state : AppState :=
  match from_cli files started_at cli with
  | Ok st => st
  | Err _ => {| st_max_limit := 0; st_redact := RedactNone;
                st_authenticator := {| au_legacy_bearer := None; au_config := default_auth_config true |};
                st_cursor_keys := {| kr_current := {| ck_key_id := EmptyString; ck_key := [] |};
                                     kr_previous := None |} |}
  end.

Lemma started : from_cli files started_at cli = Ok state.
Proof. vm_compute. reflexivity. Qed.

Definition bearer (token : string) : HeaderMap := [("authorization", "Bearer " +:+ token)].

(** ** A fleet *)

Definition fleet_node (id : string) : NodeRecord :=
  {| node_id := id; node_endpoint_id := "k1"; node_name := id; node_region := "eu";
     node_role := "ocserv"; node_enabled := true |}.

Definition evaluation (id at_ node : string) : HealthHistoryRecord :=
  {| hh_evaluation_id := id;
     hh_snapshot :=
       {| hs_node_id := node; hs_endpoint_id := None; hs_computed_at := at_; hs_status := "healthy";
          hs_freshness_seconds := Some 5; hs_last_success_at := None; hs_last_failure_at := None;
          hs_last_error_code := None;
          hs_degraded_methods_json := hdm_to_value {| hdm_schema := HEALTH_DEGRADED_METHODS_SCHEMA_V1; hdm_methods := [] |};
          hs_summary_json :=
            hsp_to_value {| hsp_schema := HEALTH_SUMMARY_SCHEMA_V1; hsp_region := None; hsp_role := None;
                            hsp_status := "healthy"; hsp_endpoint_status := None;
                            hsp_consecutive_failures := Some 0 |} |} |}.

Definition fleet_alert (id at_ : string) : AlertEventRecord :=
  {| al_alert_id := id; al_dedupe_key := id; al_node_id := Some "edge-1"; al_severity := "warning";
     al_state := "open"; al_reason_code := "stale"; al_first_seen_at := at_; al_last_seen_at := at_;
     al_last_sent_at := None; al_resolved_at := None;
     al_detail_json := VObject [] |}.

Definition fleet : ApiDb :=
  {| api_nodes := [fleet_node "edge-3"; fleet_node "edge-1"; fleet_node "edge-2"];
     api_snapshots := [];
     api_history := [evaluation "eval-1" "p0hZ" "edge-1"; evaluation "eval-2" "p0hZ" "edge-2";
                     evaluation "eval-2" "p0hZ" "edge-1"];
     api_metadata := []; api_maintenance := []; api_alerts := [];
     api_jobs := []; api_runs := []; api_observations := []; api_audit := []; api_rollups := [];
     api_capabilities := []; api_claims := []; api_attempts := []; api_queue := [] |}.

(** An hour passes between two of the first requests. *)
Definition fleet_env (i : nat) : Env :=
  {| env_db := fleet; env_sqlite_bytes := None; env_now := started_at + Z.of_nat (Nat.min i 8) * one_hour;
     env_uuid := "request" |}.

Definition two_nodes : NodesQuery :=
  {| nq_limit := Some 2; nq_cursor := None; nq_region := Some "eu"; nq_role := None;
     nq_environment := None; nq_label := None; nq_status := None |}.

Definition one_evaluation : HistoryQuery :=
  {| hq_from := "Z"; hq_to := "p1hZ"; hq_limit := Some 1; hq_cursor := None; hq_node_id := None;
     hq_status := Some "healthy" |}.

End ApiToy.
