(* ===== verification/ApiProperties.v ===== *)
(** * ApiProperties: what callers of the read-only API can rely on

    Who is let in, what a refused caller learns, how long a cursor lives, and
    that the listings are complete. *)

From S2P Require Import Prelude Text External Net InputValidation StoreTypes StoredText.
From S2P Require Import StoragePayloads StoreDb ObservationPayloads AlertWebhook SchedulerStore.
From S2P Require Import NodeMetadata AlertQueue Ordering Slo ApiPayloads VersionGovernance.
From S2P Require Import ApiStore.
From S2P Require Import ApiMetrics AuditExport ApiProjections ApiAuth ApiCursor ApiCursorLemmas.
From S2P Require Import ApiRoutes ApiPagination ApiPages ApiAuthLemmas ApiScenario.

Section properties.
Context `{TimeOps, JsonOps, Sha256Ops, JsonBytes, Base64Ops, Base64Standard, Base64Encode}.
Context `{CursorCodec, Ed25519Ops, AuthDecoders, SemverOps, SqliteFunctions}.
Context (dashboard_html style_body script_body : string).

(** ** Refused requests *)

(** The counter that a refusal advances. *)
Definition refusal (st : AppState) (now : Z) (headers : HeaderMap) (permission : Permission)
    (c : AuthCounters) : option (AuthCounters * ApiError) :=
  match authenticate (st_authenticator st) now headers with
  | Err failure => Some (record_failure failure c, unauthorized)
  | Ok principal =>
      if principal_permits principal permission then None else Some (record_forbidden c, forbidden)
  end.

Lemma refused_response st env rq r permission c c' e :
  route_of (rq_path rq) = Some r -> route_permission r = Some permission ->
  str_in_list (rq_method rq) ["GET"; "HEAD"] = true ->
  refusal st (env_now env) (rq_headers rq) permission c = Some (c', e) ->
  dispatch dashboard_html style_body script_body st env rq c = (c', Err e).
Proof.
  intros Hr Hp Hm He. unfold dispatch. rewrite Hr, Hm. unfold run_route. rewrite Hp.
  unfold refusal in He. unfold mbind, handler_bind, authorize.
  destruct (authenticate _ _ _) as [principal|failure]; [|by injection He as <- <-].
  destruct (principal_permits _ _); [done|]. by injection He as <- <-.
Qed.

(** C6: A caller that is refused, because their credentials do not open the API
    or because none of their roles has the permission of the route, gets an
    answer that is the same for every content of the database, with status 401
    or 403, and exactly one failure counter advances. *)
Theorem refused_callers_learn_nothing st env env' rq r permission c c' e :
  route_of (rq_path rq) = Some r -> route_permission r = Some permission ->
  str_in_list (rq_method rq) ["GET"; "HEAD"] = true ->
  refusal st (env_now env) (rq_headers rq) permission c = Some (c', e) ->
  env_now env' = env_now env -> env_uuid env' = env_uuid env ->
  serve dashboard_html style_body script_body st env rq c
  = serve dashboard_html style_body script_body st env' rq c
  /\ (serve dashboard_html style_body script_body st env rq c).1 = c'
  /\ rs_status_code (serve dashboard_html style_body script_body st env rq c).2 = ap_status e
  /\ (ap_status e = 401 \/ ap_status e = 403).
Proof.
  intros Hr Hp Hm He Hnow Huuid. unfold serve, request_id_of.
  rewrite (refused_response st env rq r permission c c' e) by done.
  rewrite (refused_response st env' rq r permission c c' e) by (done || by rewrite Hnow).
  unfold error_response, now_rfc3339. rewrite Hnow, Huuid. split; [done|]. split; [done|].
  split; [by destruct (String.eqb _ _)|]. unfold refusal in He.
  repeat case_match; simplify_eq; auto.
Qed.

(** ** Admission *)

Context `{!Sha256Laws}.

(** C4: A started service admits a request as a principal exactly when its
    headers carry a credential of that principal: the legacy token, the token
    of the first service account with its digest that has not expired, the
    token of the break-glass account, a JWT that a configured key signed and
    whose issuer, audience, validity and groups fit, the headers of the trusted
    TLS proxy, or nothing in local development. *)
Theorem admission_is_by_credential files t0 cli st now headers principal :
  from_cli files t0 cli = Ok st ->
  (authenticate (st_authenticator st) now headers = Ok principal
   <-> credential (st_authenticator st) now headers principal).
Proof. intros [Hok _]%startup_authenticator. by apply authenticate_spec. Qed.

Lemma bearer_principal a now token principal :
  bearer_credential a now token principal ->
  pr_authenticated principal = true
  /\ (pr_method principal ∉ [LocalDevelopment; Mtls])
  /\ (pr_method principal = BreakGlass ->
      exists account, ac_break_glass (au_config a) = Some account
        /\ pr_roles principal = sa_roles account /\ now < sa_expires_at account).
Proof.
  intros [|before account after|account|oidc p ? ? ? ? ? Hj]; cbn.
  - split; [done|]. split; [set_solver|done].
  - split; [done|]. split; [set_solver|done].
  - split; [done|]. split; [set_solver|]. eauto.
  - destruct Hj as [? ? ? ? ? ? ? ? ? ? ? ? ? ? ? ? ? ? ? ? ? ? ? ? ? ? ? ? ? ? Hm Ha].
    rewrite Hm. split; [done|]. split; [set_solver|done].
Qed.

(** C31: A service that listens on an address other than loopback admits only
    callers who authenticated, never by local development and never by
    forwarded headers; and the emergency account is admitted only within one
    hour of the start, with the role of a security administrator. *)
Theorem public_listener_is_authenticated files t0 cli st now headers principal :
  from_cli files t0 cli = Ok st -> is_loopback (cli_listen cli) = false ->
  authenticate (st_authenticator st) now headers = Ok principal ->
  pr_authenticated principal = true /\ (pr_method principal ∉ [LocalDevelopment; Mtls])
  /\ (pr_method principal = BreakGlass ->
      now < t0 + one_hour /\ SecurityAdmin ∈ pr_roles principal).
Proof.
  intros Hs Hl Ha. destruct (startup_authenticator _ _ _ _ Hs) as (Hok & Hbg & Hld).
  destruct (startup_listener _ _ _ _ Hs Hl) as [Hen Hmt].
  apply authenticate_spec in Ha; [|done].
  destruct Ha as [token p _ _ Hb|secret subject identity _ _ _ _ _ _ Hi|_ _ Hd].
  - apply bearer_principal in Hb as (H1' & H2' & H3'). split; [done|]. split; [done|].
    intros (account & Hacc & -> & Hx)%H3'. apply Hbg in Hacc as [Hr He]. split; [lia|done].
  - by rewrite Hmt, lookup_empty in Hi.
  - by rewrite Hld in Hd.
Qed.

(** ** Cursors *)

Context `{!CursorLaws}.

(** C32: A cursor that a service issued is accepted for a day by every service
    that holds its key, also as the previous key, for the same resource and
    filters, and continues at the position it was issued for; it is accepted
    for nothing else, and not two days later. *)
Theorem cursor_lifetime position keyring keyring' issued now :
  cursor_key_ok (kr_current keyring) -> position_ok position = true ->
  keyring_find keyring' (ck_key_id (kr_current keyring)) = Some (kr_current keyring) ->
  0 <= unix_timestamp issued <= 2 ^ 62 ->
  (unix_timestamp now <= unix_timestamp issued + CURSOR_TTL_SECONDS ->
   decode_cursor (encode_cursor position keyring issued) keyring' (pos_resource position)
     (pos_filter_hash position) now = Ok (pos_after position))
  /\ forall resource hash after,
       decode_cursor (encode_cursor position keyring issued) keyring' resource hash now = Ok after ->
       resource = pos_resource position /\ hash = pos_filter_hash position
       /\ after = pos_after position
       /\ unix_timestamp now < unix_timestamp issued + 2 * CURSOR_TTL_SECONDS.
Proof.
  intros Hk Hp Hf Hi. split; [by apply issued_cursor_accepted|]. intros resource hash after Hd.
  apply issued_cursor_bound in Hd as (-> & -> & -> & He); [|by apply issued_plain].
  pose proof (cursor_expiry_bounds _ Hi). do 3 (split; [done|]). lia.
Qed.

(** ** Listings *)

(** A client that lists the nodes and follows the cursors, each within a day,
    gets every node that matches the filters exactly once, in the order of the
    identifiers, whatever the size of the pages; one request more than there are
    nodes is enough. *)
Theorem nodes_listing_complete st envs db query limit label recs fuel :
  (forall i, env_db (envs i) = db) -> paced envs ->
  cursor_key_ok (kr_current (st_cursor_keys st)) -> 1 <= st_max_limit st <= ABSOLUTE_MAX_LIMIT ->
  NoDup (map node_id (api_nodes db)) -> forallb node_id_ok (api_nodes db) = true ->
  nodes_params st query = Ok (Z.of_nat limit, label) ->
  read_node_rows db (selected_nodes db query label) = Ok recs -> (length recs < fuel)%nat ->
  crawl (fun i cursor => nodes_page st (envs i) (nodes_with_cursor query cursor)) fuel 0 None
  = Some (Ok recs).
Proof. intros. by eapply nodes_crawl. Qed.

(** C5: The same of the health history: every evaluation in the window that
    matches the filters is listed exactly once, the latest first. *)
Theorem history_listing_complete st envs db query limit window recs fuel :
  (forall i, env_db (envs i) = db) -> paced envs ->
  cursor_key_ok (kr_current (st_cursor_keys st)) -> 1 <= st_max_limit st <= ABSOLUTE_MAX_LIMIT ->
  NoDup (map history_key (api_history db)) -> forallb history_row_ok (api_history db) = true ->
  history_params st query = Ok (Z.of_nat limit, window) ->
  try_map health_history_from_row_api (selected_history db query window) = Ok recs ->
  (length recs < fuel)%nat ->
  crawl (fun i cursor => history_page st (envs i) (history_with_cursor query cursor)) fuel 0 None
  = Some (Ok recs).
Proof. intros. by eapply history_crawl. Qed.

End properties.

(** ** The theorems on the fleet of the scenario *)

Import Toy ApiToy.

Definition empty_env : Env :=
  {| env_db := {| api_nodes := []; api_snapshots := []; api_history := []; api_metadata := [];
                  api_maintenance := []; api_alerts := []; api_jobs := []; api_runs := [];
                  api_observations := []; api_audit := []; api_rollups := []; api_capabilities := [];
                  api_claims := []; api_attempts := []; api_queue := [] |};
     env_sqlite_bytes := Some 0; env_now := started_at; env_uuid := "request" |}.

Definition no_failures : AuthCounters :=
  {| auth_missing_total := 0; auth_invalid_total := 0; auth_expired_total := 0;
     auth_forbidden_total := 0 |}.

(** The auditor asks for the nodes. *)
Definition auditor_request : Request :=
  {| rq_method := "GET"; rq_path := ["api"; "v1"; "nodes"]; rq_query := [];
     rq_headers := bearer account_token |}.

Lemma refused_callers_learn_nothing_witness :
  serve "page" "style" "script" state (fleet_env 0) auditor_request no_failures
  = serve "page" "style" "script" state empty_env auditor_request no_failures
  /\ (serve "page" "style" "script" state (fleet_env 0) auditor_request no_failures).1
     = record_forbidden no_failures
  /\ rs_status_code (serve "page" "style" "script" state (fleet_env 0) auditor_request no_failures).2
     = ap_status forbidden
  /\ (ap_status forbidden = 401 \/ ap_status forbidden = 403).
Proof.
  apply (refused_callers_learn_nothing "page" "style" "script" state (fleet_env 0) empty_env
    auditor_request RV1Nodes FleetRead no_failures (record_forbidden no_failures) forbidden);
    vm_compute; reflexivity.
Defined.

Lemma admission_is_by_credential_witness :
  authenticate (st_authenticator state) started_at (bearer legacy_token) = Ok authenticated_viewer
  <-> credential (st_authenticator state) started_at (bearer legacy_token) authenticated_viewer.
Proof.
  apply (admission_is_by_credential files started_at cli state started_at (bearer legacy_token)).
  vm_compute. reflexivity.
Defined.

Definition on_call : Principal :=
  {| pr_principal_id := "on-call"; pr_roles := {[SecurityAdmin]}; pr_method := BreakGlass;
     pr_authenticated := true |}.

Lemma public_listener_is_authenticated_witness :
  pr_authenticated on_call = true /\ (pr_method on_call ∉ [LocalDevelopment; Mtls])
  /\ (pr_method on_call = BreakGlass ->
      started_at + 5 < started_at + one_hour /\ SecurityAdmin ∈ pr_roles on_call).
Proof.
  apply (public_listener_is_authenticated files started_at cli state (started_at + 5)
    (bearer glass_token) on_call); vm_compute; reflexivity.
Defined.

Definition sample_position : CursorPosition :=
  {| pos_resource := "nodes"; pos_after := "edge-2"; pos_filter_hash := filter_hash two_nodes |}.

(** The key has become the previous one. *)
Definition rotated : CursorKeyring :=
  {| kr_current := {| ck_key_id := "key-3"; ck_key := replicate 32 9 |};
     kr_previous := Some (kr_current (st_cursor_keys state)) |}.

Lemma cursor_lifetime_witness :
  (unix_timestamp (started_at + one_hour) <= unix_timestamp started_at + CURSOR_TTL_SECONDS ->
   decode_cursor (encode_cursor sample_position (st_cursor_keys state) started_at) rotated
     (pos_resource sample_position) (pos_filter_hash sample_position) (started_at + one_hour)
   = Ok (pos_after sample_position))
  /\ forall resource hash after,
       decode_cursor (encode_cursor sample_position (st_cursor_keys state) started_at) rotated
         resource hash (started_at + one_hour) = Ok after ->
       resource = pos_resource sample_position /\ hash = pos_filter_hash sample_position
       /\ after = pos_after sample_position
       /\ unix_timestamp (started_at + one_hour)
          < unix_timestamp started_at + 2 * CURSOR_TTL_SECONDS.
Proof.
  apply (cursor_lifetime sample_position (st_cursor_keys state) rotated started_at
    (started_at + one_hour)).
  - apply (startup_keys files started_at cli state). vm_compute. reflexivity.
  - vm_compute. reflexivity.
  - vm_compute. reflexivity.
  - vm_compute. split; discriminate.
Defined.

Lemma fleet_paced : paced fleet_env.
Proof.
  intros i. unfold paced, unix_timestamp, fleet_env. cbn [env_now].
  assert (forall n, (started_at + Z.of_nat n * one_hour) / 1000000000 = 1000000 + Z.of_nat n * 3600) as Hd.
  { intros n. unfold started_at, one_hour.
    replace (1000000 * 1000000000 + Z.of_nat n * (3600 * 1000000000))
      with ((1000000 + Z.of_nat n * 3600) * 1000000000) by lia. by apply Z.div_mul. }
  rewrite !Hd. unfold CURSOR_TTL_SECONDS. lia.
Qed.

Lemma nodes_listing_complete_witness :
  exists recs, crawl (fun i cursor => nodes_page state (fleet_env i) (nodes_with_cursor two_nodes cursor))
                 4 0 None = Some (Ok recs)
    /\ map (fun r => node_id (nh_node r)) recs = ["edge-1"; "edge-2"; "edge-3"].
Proof.
  eexists. split.
  - apply (nodes_listing_complete state fleet_env fleet two_nodes 2 None
      (map (fun n => {| nh_node := n; nh_snapshot := None; nh_metadata := None; nh_maintenance := None |})
           [fleet_node "edge-1"; fleet_node "edge-2"; fleet_node "edge-3"])).
    + reflexivity.
    + exact fleet_paced.
    + apply (startup_keys files started_at cli state). vm_compute. reflexivity.
    + vm_compute. split; discriminate.
    + vm_compute. repeat constructor; set_solver.
    + vm_compute. reflexivity.
    + vm_compute. reflexivity.
    + vm_compute. reflexivity.
    + cbn. lia.
  - reflexivity.
Defined.

Lemma history_listing_complete_witness :
  crawl (fun i cursor => history_page state (fleet_env i) (history_with_cursor one_evaluation cursor))
    4 0 None
  = Some (Ok [evaluation "eval-2" "p0hZ" "edge-2"; evaluation "eval-2" "p0hZ" "edge-1";
              evaluation "eval-1" "p0hZ" "edge-1"]).
Proof.
  apply (history_listing_complete state fleet_env fleet one_evaluation 1 ("Z", "p1hZ")).
  - reflexivity.
  - exact fleet_paced.
  - apply (startup_keys files started_at cli state). vm_compute. reflexivity.
  - vm_compute. split; discriminate.
  - vm_compute. repeat constructor; set_solver.
  - vm_compute. reflexivity.
  - vm_compute. reflexivity.
  - vm_compute. reflexivity.
  - cbn. lia.
Defined.
