(* ===== verification/HealthStore.v ===== *)
(** * HealthStore: health snapshots, history, rollups, evaluation runs and the
      health policy (ocfleet-cli/src/store.rs)

    The tables of the health evaluation sit beside those of SchedulerStore,
    whose observations they are computed from and whose audit log they share.
    A window is compared with the stored texts byte by byte, after the code has
    parsed and printed it again at the offset it was given with. *)

From stdpp Require Import pretty.
From S2P Require Import Prelude Text External Wire AgentConfig InputValidation StoreTypes.
From S2P Require Import StoredText StoragePayloads StoreDb Enrollment ObservationPayloads.
From S2P Require Import AlertWebhook SchedulerStore NodeMetadata AlertQueue Ordering Slo.
From S2P Require Import ApiPayloads ApiStore.

(** ** Third-party code *)

(** [OffsetDateTime]: an instant in nanoseconds and the offset it is shown at,
    in seconds. *)
Record OffsetDateTime := { odt_instant : Z; odt_offset : Z }.

Definition odt_utc (instant : Z) : OffsetDateTime :=
  {| odt_instant := instant; odt_offset := 0 |}.

(** [time]: RFC 3339 text with the offset kept. *)
Class ZonedTimeOps := {
  zoned_parse : string -> option OffsetDateTime;
  zoned_format : OffsetDateTime -> string;
}.

(** Parsing reads the instant [rfc3339_parse] reads, printing at offset zero is
    [rfc3339_format], and a printed time is read back. *)
Class ZonedTimeLaws `{TimeOps, ZonedTimeOps} : Prop := {
  zoned_parse_instant : forall s, rfc3339_parse s = odt_instant <$> zoned_parse s;
  zoned_format_utc : forall t, zoned_format (odt_utc t) = rfc3339_format t;
  zoned_parse_format : forall z, zoned_parse (zoned_format z) = Some z;
}.

(** [blake3::hash(..).as_bytes()] and [Uuid::from_bytes(..).to_string()]. *)
Class Blake3Ops := {
  blake3 : list Z -> list Z;
  uuid_text : list Z -> string;
}.

(** BLAKE3 gives 32 bytes; a UUID prints as 36 characters, hexadecimal digits
    and hyphens, which parse again. *)
Class Blake3Laws `{DigestOps, Blake3Ops} : Prop := {
  blake3_length : forall b, length (blake3 b) = 32%nat;
  blake3_bytes : forall b, Forall (fun x => 0 <= x <= 255) (blake3 b);
  uuid_text_length : forall b, str_len (uuid_text b) = 36;
  uuid_text_chars : forall b,
    forallb (fun c => is_ascii_hexdigit c || (c =? 45)) (str_bytes (uuid_text b)) = true;
  uuid_text_parses : forall b, uuid_parses (uuid_text b) = true;
}.

(** ** Records and tables *)

Record HealthPolicyRecord := {
  hp_stale_window_seconds : Z;
  hp_unreachable_consecutive_failures : Z;
  hp_cert_warning_days : Z;
  hp_cert_critical_days : Z;
  hp_updated_at : string;
}.

Record HealthSnapshotWrite := {
  hw_evaluation_id : string;
  hw_event : string;
  hw_snapshots : list HealthSnapshotRecord;
}.

Record HealthEvaluationStart := {
  es_evaluation_id : string;
  es_input_watermark : string;
  es_policy_version : string;
  es_computation_version : string;
  es_started_at : string;
}.

Record HealthEvaluationFinish := {
  ef_evaluation_id : string;
  ef_finished_at : string;
  ef_snapshots : list HealthSnapshotRecord;
}.

Record HealthEvaluationFailure := {
  ex_evaluation_id : string;
  ex_finished_at : string;
  ex_failure_code : string;
}.

Record HealthEvaluationRunRecord := {
  er_evaluation_id : string;
  er_input_watermark : string;
  er_policy_version : string;
  er_computation_version : string;
  er_started_at : string;
  er_finished_at : option string;
  er_status : string;
  er_snapshot_count : Z;
  er_failure_code : option string;
}.

Record HealthRollupWrite := {
  rw_operation_id : string;
  rw_rows : list HealthRollupRecord;
}.

Record HealthRollupSource := {
  src_history : list HealthHistoryRecord;
  src_observations : list ProbeObservationInsert;
}.

(** The keys of [health_history] and [health_rollups]. *)
Definition history_pk (evaluation_id node_id : string) : string * string :=
  (evaluation_id, node_id).
Definition rollup_pk (r : HealthRollupRecord) : string * Z * string :=
  (ru_node_id r, ru_bucket_seconds r, ru_bucket_start r).

Record HealthDb := {
  hd_sched : SchedDb;
  hd_snapshots : gmap string HealthSnapshotRecord;
  hd_history : gmap (string * string) HealthHistoryRecord;
  hd_rollups : gmap (string * Z * string) HealthRollupRecord;
  hd_runs : gmap string HealthEvaluationRunRecord;
  hd_policy : option HealthPolicyRecord;
}.

Definition hd_core (d : HealthDb) : Db := sd_core (hd_sched d).

Definition set_health_core (c : Db) (d : HealthDb) : HealthDb :=
  {| hd_sched := set_core c (hd_sched d); hd_snapshots := hd_snapshots d;
     hd_history := hd_history d; hd_rollups := hd_rollups d; hd_runs := hd_runs d;
     hd_policy := hd_policy d |}.
Definition set_snapshots (s : gmap string HealthSnapshotRecord) (d : HealthDb) : HealthDb :=
  {| hd_sched := hd_sched d; hd_snapshots := s; hd_history := hd_history d;
     hd_rollups := hd_rollups d; hd_runs := hd_runs d; hd_policy := hd_policy d |}.
Definition set_history (h : gmap (string * string) HealthHistoryRecord) (d : HealthDb) : HealthDb :=
  {| hd_sched := hd_sched d; hd_snapshots := hd_snapshots d; hd_history := h;
     hd_rollups := hd_rollups d; hd_runs := hd_runs d; hd_policy := hd_policy d |}.
Definition set_rollups (r : gmap (string * Z * string) HealthRollupRecord) (d : HealthDb)
    : HealthDb :=
  {| hd_sched := hd_sched d; hd_snapshots := hd_snapshots d; hd_history := hd_history d;
     hd_rollups := r; hd_runs := hd_runs d; hd_policy := hd_policy d |}.
Definition set_eval_runs (r : gmap string HealthEvaluationRunRecord) (d : HealthDb) : HealthDb :=
  {| hd_sched := hd_sched d; hd_snapshots := hd_snapshots d; hd_history := hd_history d;
     hd_rollups := hd_rollups d; hd_runs := r; hd_policy := hd_policy d |}.
Definition set_policy (p : option HealthPolicyRecord) (d : HealthDb) : HealthDb :=
  {| hd_sched := hd_sched d; hd_snapshots := hd_snapshots d; hd_history := hd_history d;
     hd_rollups := hd_rollups d; hd_runs := hd_runs d; hd_policy := p |}.

(** The rows of a table. *)
Definition rows_of `{Countable K} {A} (m : gmap K A) : list A := map snd (map_to_list m).

(** ** Health policy *)

Definition DEFAULT_HEALTH_STALE_WINDOW_SECONDS : Z := 24 * 60 * 60.
Definition DEFAULT_HEALTH_UNREACHABLE_FAILURES : Z := 3.
Definition DEFAULT_HEALTH_CERT_WARNING_DAYS : Z := 30.
Definition DEFAULT_HEALTH_CERT_CRITICAL_DAYS : Z := 7.

Definition default_health_policy : HealthPolicyRecord :=
  {| hp_stale_window_seconds := DEFAULT_HEALTH_STALE_WINDOW_SECONDS;
     hp_unreachable_consecutive_failures := DEFAULT_HEALTH_UNREACHABLE_FAILURES;
     hp_cert_warning_days := DEFAULT_HEALTH_CERT_WARNING_DAYS;
     hp_cert_critical_days := DEFAULT_HEALTH_CERT_CRITICAL_DAYS;
     hp_updated_at := "default" |}.

Definition health_policy_from_row (p : HealthPolicyRecord) : result StoreError HealthPolicyRecord :=
  let? _ := i64_to_u64 0 (hp_stale_window_seconds p) in
  let? _ := i64_to_u64 0 (hp_unreachable_consecutive_failures p) in
  let? _ := i64_to_u64 0 (hp_cert_warning_days p) in
  let? _ := i64_to_u64 0 (hp_cert_critical_days p) in
  Ok p.

Definition get_health_policy (d : HealthDb) : result StoreError HealthPolicyRecord :=
  let? stored := optional_row health_policy_from_row (hd_policy d) in
  Ok (default default_health_policy stored).

Definition validate_health_policy (p : HealthPolicyRecord) : result StoreError unit :=
  let? _ := validate_u64_range "stale_window_seconds" (hp_stale_window_seconds p) 60 2592000 in
  let? _ := validate_u64_range "unreachable_consecutive_failures"
                               (hp_unreachable_consecutive_failures p) 1 100 in
  let? _ := validate_u64_range "cert_warning_days" (hp_cert_warning_days p) 1 3650 in
  let? _ := validate_u64_range "cert_critical_days" (hp_cert_critical_days p) 0 3650 in
  reject? hp_cert_warning_days p <? hp_cert_critical_days p
    as InvalidInput "cert_critical_days must be less than or equal to cert_warning_days" in
  Ok tt.

Definition health_policy_audit_json (p : HealthPolicyRecord) : Value :=
  VObject [("cert_critical_days", json_u64 (hp_cert_critical_days p));
           ("cert_warning_days", json_u64 (hp_cert_warning_days p));
           ("stale_window_seconds", json_u64 (hp_stale_window_seconds p));
           ("unreachable_consecutive_failures", json_u64 (hp_unreachable_consecutive_failures p))].

(** The fields of an event about a request with a hash of its parameters. *)
Definition audit_request (ok : bool) (request_id params_hash error_code : option string)
    (detail : Value) (e : AuditEvent) : AuditEvent :=
  {| ae_ts := ae_ts e; ae_actor := ae_actor e; ae_event := ae_event e;
     ae_node_id := ae_node_id e; ae_endpoint_id := ae_endpoint_id e; ae_method := ae_method e;
     ae_request_id := request_id; ae_params_hash := params_hash; ae_ok := Some ok;
     ae_error_code := error_code; ae_duration_ms := ae_duration_ms e;
     ae_detail_json := detail |}.

Definition HEALTH_STATUSES : list string :=
  ["healthy"; "degraded"; "unreachable"; "stale"; "disabled"; "unknown"].

Definition MAX_HEALTH_SNAPSHOT_WRITE_RECORDS : Z := 1000.
Definition MAX_HEALTH_ROLLUP_WRITE_RECORDS : Z := 100000.

Section health_store.
Context `{EndpointIdOps, TimeOps, ZonedTimeOps, JsonOps, JsonBytes, DigestOps, Blake3Ops}.
Implicit Types (env : StoreEnv).

Definition health_audit (d : HealthDb) (e : AuditEvent) : result StoreError HealthDb :=
  let? core := insert_audit_tx (hd_core d) e in
  Ok (set_health_core core d).

Definition set_health_policy env (d : HealthDb) (p : HealthPolicyRecord) (actor : string)
    : HealthDb * result StoreError unit :=
  transact d (
    let? _ := map_err InvalidInput (validate_actor actor) in
    let? _ := validate_health_policy p in
    let? old := get_health_policy d in
    let? _ := u64_to_i64 (hp_stale_window_seconds p) in
    let? _ := u64_to_i64 (hp_unreachable_consecutive_failures p) in
    let? _ := u64_to_i64 (hp_cert_warning_days p) in
    let? _ := u64_to_i64 (hp_cert_critical_days p) in
    let? d' := health_audit (set_policy (Some p) d)
      (audit_request true None None None
         (VObject [("new_value", health_policy_audit_json p);
                   ("old_value", health_policy_audit_json old);
                   ("policy_class", VString "health_thresholds")])
         (AuditEvent_new env actor "health.policy.set")) in
    Ok (d', tt)).

(** ** Windows *)

Definition normalize_half_open_window (from to field : string)
    : result StoreError (string * string) :=
  let? from := ok_or (zoned_parse from) (InvalidInput (field +:+ " from must be RFC3339")) in
  let? to := ok_or (zoned_parse to) (InvalidInput (field +:+ " to must be RFC3339")) in
  reject? odt_instant to <=? odt_instant from
    as InvalidInput (field +:+ " from must precede to") in
  Ok (zoned_format from, zoned_format to).

(** ** Snapshots *)

Definition validate_prefixed_uuid (prefix : string) (value field : string)
    : result StoreError unit :=
  match strip_prefix prefix value with
  | None => Err (InvalidInput (field +:+ " must use " +:+ prefix +:+ "<uuid> format"))
  | Some uuid => check? uuid_parses uuid else InvalidInput (field +:+ " must contain a UUID") in Ok tt
  end.

Definition validate_health_evaluation_id (id : string) : result StoreError unit :=
  let? _ := validate_audit_text id "health evaluation_id" 96 in
  validate_prefixed_uuid "health-eval-" id "health evaluation_id".

(** One pass of the loop of [validate_health_snapshot_write], with the node
    identifiers seen before. *)
Definition validate_snapshot (seen : list string) (s : HealthSnapshotRecord)
    : result StoreError unit :=
  let? _ := valid_node_id (hs_node_id s) in
  reject? bool_decide (hs_node_id s ∈ seen)
    as InvalidInput "health snapshot batch contains a duplicate node_id" in
  let? _ := match hs_endpoint_id s with
            | Some e => let? _ := map_err InvalidInput (validate_endpoint_id e) in Ok tt
            | None => Ok tt
            end in
  let? _ := validate_rfc3339 (hs_computed_at s) "health computed_at" in
  let? _ := opt_check (fun v => let? _ := validate_rfc3339 v "health last_success_at" in Ok tt)
                      (hs_last_success_at s) in
  let? _ := opt_check (fun v => let? _ := validate_rfc3339 v "health last_failure_at" in Ok tt)
                      (hs_last_failure_at s) in
  check? str_in_list (hs_status s) HEALTH_STATUSES
    else InvalidInput "health snapshot status is not allowed" in
  let? _ := opt_check (fun v => validate_audit_text v "health last_error_code" 64)
                      (hs_last_error_code s) in
  let? _ := map_err InvalidInput (hdm_from_value (hs_degraded_methods_json s)) in
  let? summary := map_err InvalidInput (hsp_from_value (hs_summary_json s)) in
  map_err InvalidInput (validate_health_payload_relationship (hs_status s) summary).

Fixpoint validate_snapshots (seen : list string) (l : list HealthSnapshotRecord)
    : result StoreError unit :=
  match l with
  | [] => Ok tt
  | s :: l' =>
      let? _ := validate_snapshot seen s in
      validate_snapshots (hs_node_id s :: seen) l'
  end.

Definition validate_health_snapshot_write (w : HealthSnapshotWrite) : result StoreError unit :=
  let? _ := validate_health_evaluation_id (hw_evaluation_id w) in
  check? str_in_list (hw_event w) ["health.summary"; "health.node"]
    else InvalidInput "health evaluation event is not allowed" in
  let count := Z.of_nat (length (hw_snapshots w)) in
  reject? MAX_HEALTH_SNAPSHOT_WRITE_RECORDS <? count
    as InvalidInput "health snapshot batch exceeds 1000 records" in
  reject? String.eqb (hw_event w) "health.node" && negb (count =? 1)
    as InvalidInput "health.node requires exactly one snapshot" in
  validate_snapshots [] (hw_snapshots w).

Definition snapshot_json (s : HealthSnapshotRecord) : Value :=
  VObject [("computed_at", VString (hs_computed_at s));
           ("degraded_methods", hs_degraded_methods_json s);
           ("endpoint_id", json_of_opt_str (hs_endpoint_id s));
           ("freshness_seconds", json_of_opt_u64 (hs_freshness_seconds s));
           ("last_error_code", json_of_opt_str (hs_last_error_code s));
           ("last_failure_at", json_of_opt_str (hs_last_failure_at s));
           ("last_success_at", json_of_opt_str (hs_last_success_at s));
           ("node_id", VString (hs_node_id s));
           ("status", VString (hs_status s));
           ("summary", hs_summary_json s)].

Definition blake3_json (v : Value) : string := hex_lower (blake3 (json_bytes v)).

Definition health_snapshot_write_hash (w : HealthSnapshotWrite) : string :=
  blake3_json (VObject [("event", VString (hw_event w));
                        ("snapshots", VArray (map snapshot_json (hw_snapshots w)))]).

(** [SELECT event, actor, params_hash ... WHERE request_id = ?1 ORDER BY id
    LIMIT 2]: no such event means a new request, exactly one that agrees a
    replay. *)
Definition audit_request_replay_tx (audit : list AuditEvent)
    (request_id event actor params_hash detail : string) : result StoreError bool :=
  match List.filter (fun e => bool_decide (ae_request_id e = Some request_id)) audit with
  | [] => Ok false
  | [e] =>
      if String.eqb (ae_event e) event && String.eqb (ae_actor e) actor
         && bool_decide (ae_params_hash e = Some params_hash)
      then Ok true else Err (HealthEvaluationConflict request_id detail)
  | _ => Err (HealthEvaluationConflict request_id detail)
  end.

Definition health_snapshot_replay_tx (d : HealthDb) (w : HealthSnapshotWrite) (actor params_hash : string)
    : result StoreError bool :=
  audit_request_replay_tx (db_audit (hd_core d)) (hw_evaluation_id w) (hw_event w) actor params_hash
    "evaluation audit provenance is mismatched or ambiguous".

Definition upsert_health_snapshot_tx (d : HealthDb) (s : HealthSnapshotRecord) : result StoreError HealthDb :=
  let? _ := option_u64_to_i64 (hs_freshness_seconds s) in
  Ok (set_snapshots (<[hs_node_id s := s]> (hd_snapshots d)) d).

(** The primary key and the bound on the endpoint; the other [CHECK]s repeat
    what has been validated. *)
Definition insert_health_history_tx (d : HealthDb) (evaluation_id : string) (s : HealthSnapshotRecord)
    : result StoreError HealthDb :=
  let? _ := option_u64_to_i64 (hs_freshness_seconds s) in
  reject? match hs_endpoint_id s with
          | Some e => negb (in_range 1 256 (str_len e))
          | None => false
          end
    as Sqlite (ConstraintViolation "health_history.endpoint_id") in
  match hd_history d !! history_pk evaluation_id (hs_node_id s) with
  | Some _ => Err (Sqlite (ConstraintViolation "health_history.evaluation_id, health_history.node_id"))
  | None => Ok (set_history (<[history_pk evaluation_id (hs_node_id s) :=
                               {| hh_evaluation_id := evaluation_id; hh_snapshot := s |}]>
                               (hd_history d)) d)
  end.

(** The loop of both operations that store an evaluation. *)
Fixpoint store_snapshots (d : HealthDb) (evaluation_id : string) (l : list HealthSnapshotRecord)
    : result StoreError HealthDb :=
  match l with
  | [] => Ok d
  | s :: l' =>
      let? d1 := upsert_health_snapshot_tx d s in
      let? d2 := insert_health_history_tx d1 evaluation_id s in
      store_snapshots d2 evaluation_id l'
  end.

Definition status_counts (l : list HealthSnapshotRecord) : Value :=
  VObject (map (fun status => (status, json_u64 (Z.of_nat (length
                  (List.filter (fun s => String.eqb (hs_status s) status) l)))))
               ["degraded"; "disabled"; "healthy"; "stale"; "unknown"; "unreachable"]).

Definition write_health_snapshots env (d : HealthDb) (w : HealthSnapshotWrite) (actor : string)
    : HealthDb * result StoreError unit :=
  transact d (
    let? _ := map_err InvalidInput (validate_actor actor) in
    let? _ := validate_health_snapshot_write w in
    let params_hash := health_snapshot_write_hash w in
    let? replayed := health_snapshot_replay_tx d w actor params_hash in
    if replayed : bool then Ok (d, tt) else
    let? d' := store_snapshots d (hw_evaluation_id w) (hw_snapshots w) in
    let? d' := health_audit d'
      (audit_request true (Some (hw_evaluation_id w)) (Some params_hash) None
         (VObject [("actor_type", VString "user");
                   ("node_count", json_u64 (Z.of_nat (length (hw_snapshots w))));
                   ("reason", Null);
                   ("status_counts", status_counts (hw_snapshots w));
                   ("target_id", VString (hw_evaluation_id w));
                   ("target_type", VString "health_snapshot_batch")])
         (AuditEvent_new env actor (hw_event w))) in
    Ok (d', tt)).

(** *** Reading *)

Definition health_snapshot_from_row (s : HealthSnapshotRecord)
    : result StoreError HealthSnapshotRecord :=
  let? _ := check_health_payloads (hs_degraded_methods_json s) (hs_summary_json s) (hs_status s) 8 9 in
  let? _ := opt_check (fun v => let? _ := i64_to_u64 0 v in Ok tt) (hs_freshness_seconds s) in
  Ok s.

Definition health_history_from_row (r : HealthHistoryRecord) : result StoreError HealthHistoryRecord :=
  let s := hh_snapshot r in
  let? _ := check_health_payloads (hs_degraded_methods_json s) (hs_summary_json s) (hs_status s) 9 10 in
  let? _ := opt_check (fun v => let? _ := i64_to_u64 0 v in Ok tt) (hs_freshness_seconds s) in
  Ok r.

Definition list_health_snapshots (d : HealthDb) : result StoreError (list HealthSnapshotRecord) :=
  try_map health_snapshot_from_row
    (sort_by (fun s => [Some (hs_node_id s)]) (rows_of (hd_snapshots d))).

(** [ORDER BY computed_at DESC, node_id]. *)
Definition list_health_snapshots_limited (d : HealthDb) (limit : Z)
    : result StoreError (list HealthSnapshotRecord) :=
  let? rows := limited limit
    (sort_desc (fun s => [Some (hs_computed_at s)])
       (sort_by (fun s => [Some (hs_node_id s)]) (rows_of (hd_snapshots d)))) in
  try_map health_snapshot_from_row rows.

Definition list_health_history (d : HealthDb) (node : option string) (from to : string) (limit : Z)
    : result StoreError (list HealthHistoryRecord) :=
  let? _ := opt_check valid_node_id node in
  let? window := normalize_half_open_window from to "health history" in
  reject? (limit =? 0) || (1000 <? limit)
    as InvalidInput "health history limit must be between 1 and 1000" in
  let? rows := limited limit
    (sort_desc (fun r => [Some (hs_computed_at (hh_snapshot r))])
       (sort_by (fun r => [Some (hs_node_id (hh_snapshot r)); Some (hh_evaluation_id r)])
          (List.filter (fun r => sql_eq_opt node (hs_node_id (hh_snapshot r))
                                 && sql_window window.1 window.2 (hs_computed_at (hh_snapshot r)))
                       (rows_of (hd_history d))))) in
  try_map health_history_from_row rows.

(** ** Rollups *)

Definition validate_health_rollup_bucket (bucket_seconds : Z) : result StoreError unit :=
  check? (bucket_seconds =? 300) || (bucket_seconds =? 3600) || (bucket_seconds =? 86400)
    else InvalidInput "health rollup bucket must be 300, 3600, or 86400 seconds" in
  Ok tt.

Definition probe_observation_from_row (o : ProbeObservationInsert)
    : result StoreError ProbeObservationInsert :=
  let? payload := map_err (fun _ => conversion_failure 11) (osp_from_value (ob_summary_json o)) in
  reject? negb (String.eqb (osp_method payload) (ob_method o))
          || negb (String.eqb (osp_result_class payload) (ob_result_class o))
    as conversion_failure 11 in
  let? _ := opt_check (fun v => let? _ := i64_to_u64 0 v in Ok tt) (ob_duration_ms o) in
  Ok (with_observation_summary (osp_public_summary payload) o).

(** [WHERE node_id = ?1 ORDER BY observed_at DESC, observation_id DESC LIMIT ?2]. *)
Definition list_probe_observations (d : HealthDb) (node : string) (limit : Z)
    : result StoreError (list ProbeObservationInsert) :=
  let? rows := limited limit
    (sort_desc (fun o => [Some (ob_observed_at o); Some (ob_observation_id o)])
       (List.filter (fun o => bool_decide (ob_node_id o = Some node))
                    (rows_of (sd_observations (hd_sched d))))) in
  try_map probe_observation_from_row rows.

(** [ORDER BY computed_at, evaluation_id]. *)
Definition history_order (r : HealthHistoryRecord) : list (option string) :=
  [Some (hs_computed_at (hh_snapshot r)); Some (hh_evaluation_id r)].

(** [node_id = ?1 AND column >= ?2 AND column < ?3] of both tables. *)
Definition history_in (node from to : string) (r : HealthHistoryRecord) : bool :=
  String.eqb (hs_node_id (hh_snapshot r)) node
  && sql_window from to (hs_computed_at (hh_snapshot r)).
Definition observation_in (node from to : string) (o : ProbeObservationInsert) : bool :=
  bool_decide (ob_node_id o = Some node) && sql_window from to (ob_observed_at o).

Definition health_rollup_source (d : HealthDb) (node from to : string) : result StoreError HealthRollupSource :=
  let? _ := valid_node_id node in
  let? window := normalize_half_open_window from to "health rollup source" in
  let SOURCE_LIMIT := 100001 in
  let? history := try_map health_history_from_row
    (take (Z.to_nat SOURCE_LIMIT)
       (sort_by history_order
          (List.filter (history_in node window.1 window.2) (rows_of (hd_history d))))) in
  let? observations := try_map probe_observation_from_row
    (take (Z.to_nat SOURCE_LIMIT)
       (sort_by (fun o => [Some (ob_observed_at o); Some (ob_observation_id o)])
          (List.filter (observation_in node window.1 window.2)
                       (rows_of (sd_observations (hd_sched d)))))) in
  reject? (SOURCE_LIMIT <=? Z.of_nat (length history))
          || (SOURCE_LIMIT <=? Z.of_nat (length observations))
    as InvalidInput "health rollup source exceeds 100000 rows in one bucket" in
  Ok {| src_history := history; src_observations := observations |}.

(** [UNION ... ORDER BY node_id LIMIT 1001]. *)
Definition health_rollup_node_ids (d : HealthDb) (from to : string) : result StoreError (list string) :=
  let? window := normalize_half_open_window from to "health rollup nodes" in
  let of_history := map (fun r => hs_node_id (hh_snapshot r))
    (List.filter (fun r => sql_window window.1 window.2 (hs_computed_at (hh_snapshot r)))
                 (rows_of (hd_history d))) in
  let of_observations := omap ob_node_id
    (List.filter (fun o => sql_window window.1 window.2 (ob_observed_at o))
                 (rows_of (sd_observations (hd_sched d)))) in
  let nodes := take 1001 (btree_iter (list_to_set (of_history ++ of_observations))) in
  reject? 1000 <? Z.of_nat (length nodes)
    as InvalidInput "health rollup window exceeds 1000 nodes" in
  Ok nodes.

(** [try_fold(0, u64::checked_add)]. *)
Definition checked_sum (l : list Z) : option Z :=
  foldl (fun acc n => acc ≫= fun total =>
           if total + n <=? u64_max then Some (total + n) else None) (Some 0) l.

Definition rollup_counters_inconsistent (r : HealthRollupRecord) : bool :=
  let status_total := checked_sum [ru_healthy_count r; ru_degraded_count r; ru_unreachable_count r;
                                   ru_stale_count r; ru_disabled_count r; ru_unknown_count r] in
  let some (o : option Z) := bool_decide (is_Some o) in
  let duration_invalid :=
    if ru_duration_sample_count r =? 0
    then some (ru_duration_p50_ms r) || some (ru_duration_p95_ms r)
    else negb (some (ru_duration_p50_ms r)) || negb (some (ru_duration_p95_ms r)) in
  negb (ru_expected_slots r =? ru_bucket_seconds r / 300)
  || negb (ru_health_samples r =? ru_covered_slots r)
  || (ru_expected_slots r <? ru_covered_slots r)
  || negb (bool_decide (status_total = Some (ru_health_samples r)))
  || (ru_observation_count r <? ru_observation_error_count r)
  || (ru_fingerprint_sample_count r <? ru_fingerprint_change_count r)
  || duration_invalid
  || match ru_duration_p50_ms r, ru_duration_p95_ms r with
     | Some p50, Some p95 => p95 <? p50
     | _, _ => false
     end.

Definition validate_rollup (seen : list (string * Z * string)) (r : HealthRollupRecord)
    : result StoreError unit :=
  let? _ := valid_node_id (ru_node_id r) in
  let? _ := validate_health_rollup_bucket (ru_bucket_seconds r) in
  let? window := normalize_half_open_window (ru_bucket_start r) (ru_bucket_end r)
                                            "health rollup bucket" in
  reject? negb (String.eqb window.1 (ru_bucket_start r))
          || negb (String.eqb window.2 (ru_bucket_end r))
    as InvalidInput "health rollup bucket timestamps must be canonical RFC3339" in
  let? start_at := ok_or (rfc3339_parse (ru_bucket_start r))
                         (InvalidInput "health rollup bucket start is invalid") in
  let? end_at := ok_or (rfc3339_parse (ru_bucket_end r))
                       (InvalidInput "health rollup bucket end is invalid") in
  reject? negb (Z.quot (end_at - start_at) 1000000000 =? ru_bucket_seconds r)
    as InvalidInput "health rollup bucket duration is inconsistent" in
  reject? bool_decide (rollup_pk r ∈ seen)
    as InvalidInput "health rollup batch contains a duplicate key" in
  let? _ := validate_sha256_hex (ru_input_watermark r) "health rollup input watermark" in
  let? _ := validate_rfc3339 (ru_computed_at r) "health rollup computed_at" in
  reject? rollup_counters_inconsistent r
    as InvalidInput "health rollup counters are inconsistent" in
  Ok tt.

Fixpoint validate_rollups (seen : list (string * Z * string)) (l : list HealthRollupRecord)
    : result StoreError unit :=
  match l with
  | [] => Ok tt
  | r :: l' =>
      let? _ := validate_rollup seen r in
      validate_rollups (rollup_pk r :: seen) l'
  end.

Definition validate_health_rollup_write (w : HealthRollupWrite) : result StoreError unit :=
  let? _ := validate_audit_text (rw_operation_id w) "health rollup operation_id" 96 in
  let? _ := validate_prefixed_uuid "health-rollup-" (rw_operation_id w)
                                   "health rollup operation_id" in
  reject? MAX_HEALTH_ROLLUP_WRITE_RECORDS <? Z.of_nat (length (rw_rows w))
    as InvalidInput "health rollup batch exceeds 100000 rows" in
  validate_rollups [] (rw_rows w).

Definition rollup_json (r : HealthRollupRecord) : Value :=
  VObject [("bucket_end", VString (ru_bucket_end r));
           ("bucket_seconds", json_u64 (ru_bucket_seconds r));
           ("bucket_start", VString (ru_bucket_start r));
           ("cert_critical_count", json_u64 (ru_cert_critical_count r));
           ("cert_warning_count", json_u64 (ru_cert_warning_count r));
           ("computed_at", VString (ru_computed_at r));
           ("covered_slots", json_u64 (ru_covered_slots r));
           ("degraded_count", json_u64 (ru_degraded_count r));
           ("disabled_count", json_u64 (ru_disabled_count r));
           ("duration_p50_ms", json_of_opt_u64 (ru_duration_p50_ms r));
           ("duration_p95_ms", json_of_opt_u64 (ru_duration_p95_ms r));
           ("duration_sample_count", json_u64 (ru_duration_sample_count r));
           ("expected_slots", json_u64 (ru_expected_slots r));
           ("fingerprint_change_count", json_u64 (ru_fingerprint_change_count r));
           ("fingerprint_sample_count", json_u64 (ru_fingerprint_sample_count r));
           ("health_samples", json_u64 (ru_health_samples r));
           ("healthy_count", json_u64 (ru_healthy_count r));
           ("input_watermark", VString (ru_input_watermark r));
           ("node_id", VString (ru_node_id r));
           ("observation_count", json_u64 (ru_observation_count r));
           ("observation_error_count", json_u64 (ru_observation_error_count r));
           ("stale_count", json_u64 (ru_stale_count r));
           ("unknown_count", json_u64 (ru_unknown_count r));
           ("unreachable_count", json_u64 (ru_unreachable_count r))].

Definition health_rollup_write_hash (w : HealthRollupWrite) : string :=
  blake3_json (VArray (map rollup_json (rw_rows w))).

(** The conversions of the counters, and the [CHECK] on the texts of the bucket;
    the other [CHECK]s repeat what has been validated. *)
Definition upsert_health_rollup_tx (d : HealthDb) (r : HealthRollupRecord) : result StoreError HealthDb :=
  let? _ := try_for_each (fun n => let? _ := u64_to_i64 n in Ok tt) (rollup_counters r) in
  reject? negb (str_ltb (ru_bucket_start r) (ru_bucket_end r))
    as Sqlite (ConstraintViolation "health_rollups.bucket_end") in
  Ok (set_rollups (<[rollup_pk r := r]> (hd_rollups d)) d).

Fixpoint store_rollups (d : HealthDb) (l : list HealthRollupRecord) : result StoreError HealthDb :=
  match l with
  | [] => Ok d
  | r :: l' => let? d' := upsert_health_rollup_tx d r in store_rollups d' l'
  end.

Definition write_health_rollups env (d : HealthDb) (w : HealthRollupWrite) (actor : string)
    : HealthDb * result StoreError unit :=
  transact d (
    let? _ := map_err InvalidInput (validate_actor actor) in
    let? _ := validate_health_rollup_write w in
    let params_hash := health_rollup_write_hash w in
    let? replayed := audit_request_replay_tx (db_audit (hd_core d)) (rw_operation_id w)
      "health.rollup.recompute" actor params_hash
      "rollup operation audit provenance is mismatched or ambiguous" in
    if replayed : bool then Ok (d, tt) else
    let? d' := store_rollups d (rw_rows w) in
    let? d' := health_audit d'
      (audit_request true (Some (rw_operation_id w)) (Some params_hash) None
         (VObject [("actor_type", VString "system");
                   ("batch_count", json_u64 (Z.of_nat (length (rw_rows w))));
                   ("reason", Null);
                   ("target_id", VString (rw_operation_id w));
                   ("target_type", VString "health_rollup_batch")])
         (AuditEvent_new env actor "health.rollup.recompute")) in
    Ok (d', tt)).

(** [ORDER BY bucket_start, node_id]. *)
Definition list_health_rollups (d : HealthDb) (node : option string) (bucket_seconds : Z) (from to : string)
    (limit : Z) : result StoreError (list HealthRollupRecord) :=
  let? _ := opt_check valid_node_id node in
  let? _ := validate_health_rollup_bucket bucket_seconds in
  let? window := normalize_half_open_window from to "health rollup" in
  reject? (limit =? 0) || (100000 <? limit)
    as InvalidInput "health rollup limit must be between 1 and 100000" in
  let? rows := limited limit
    (sort_by (fun r => [Some (ru_bucket_start r); Some (ru_node_id r)])
       (List.filter (fun r => sql_eq_opt node (ru_node_id r)
                              && rollup_selected bucket_seconds window.1 window.2 r)
                    (rows_of (hd_rollups d)))) in
  try_map health_rollup_from_row rows.

Definition health_rollup_stored_node_ids (d : HealthDb) (bucket_seconds : Z) (from to : string)
    : result StoreError (list string) :=
  let? _ := validate_health_rollup_bucket bucket_seconds in
  let? window := normalize_half_open_window from to "health SLO" in
  let rows := take 1001 (btree_iter (list_to_set
    (map ru_node_id (List.filter (rollup_selected bucket_seconds window.1 window.2)
                                 (rows_of (hd_rollups d)))))) in
  reject? 1000 <? Z.of_nat (length rows)
    as InvalidInput "health SLO window exceeds 1000 nodes" in
  Ok rows.

(** ** Evaluation runs *)

Definition health_evaluation_run_from_row (r : HealthEvaluationRunRecord)
    : result StoreError HealthEvaluationRunRecord :=
  check? 0 <=? er_snapshot_count r else conversion_failure 7 in
  Ok r.

Definition get_health_evaluation_run (d : HealthDb) (id : string)
    : result StoreError (option HealthEvaluationRunRecord) :=
  optional_row health_evaluation_run_from_row (hd_runs d !! id).

Definition validate_health_evaluation_start (s : HealthEvaluationStart) : result StoreError unit :=
  let? _ := validate_health_evaluation_id (es_evaluation_id s) in
  let? _ := validate_sha256_hex (es_input_watermark s) "health input watermark" in
  let? _ := validate_sha256_hex (es_policy_version s) "health policy version" in
  let? _ := validate_audit_text (es_computation_version s) "health computation version" 64 in
  let? _ := validate_rfc3339 (es_started_at s) "health evaluation started_at" in
  Ok tt.

Definition validate_health_evaluation_finish (f : HealthEvaluationFinish) : result StoreError unit :=
  let? _ := validate_health_evaluation_id (ef_evaluation_id f) in
  let? _ := validate_rfc3339 (ef_finished_at f) "health evaluation finished_at" in
  validate_health_snapshot_write
    {| hw_evaluation_id := ef_evaluation_id f; hw_event := "health.summary";
       hw_snapshots := ef_snapshots f |}.

Definition validate_health_evaluation_failure (f : HealthEvaluationFailure)
    : result StoreError unit :=
  let? _ := validate_health_evaluation_id (ex_evaluation_id f) in
  let? _ := validate_rfc3339 (ex_finished_at f) "health evaluation finished_at" in
  validate_audit_text (ex_failure_code f) "health evaluation failure_code" 64.

Definition insert_health_evaluation_audit_tx env (d : HealthDb) (actor event id : string) (ok : bool)
    (failure_code : option string) (snapshot_count : Z) : result StoreError HealthDb :=
  health_audit d
    (audit_request ok (Some id) None failure_code
       (VObject [("actor_type", VString "system"); ("batch_count", json_u64 snapshot_count);
                 ("reason", Null); ("target_id", VString id);
                 ("target_type", VString "health_evaluation")])
       (AuditEvent_new env actor event)).

(** [WHERE evaluation_id = ?1 OR (input_watermark = ?2 AND policy_version = ?3
    AND computation_version = ?4)]; the identifier is the primary key and the
    three columns have a unique index. *)
Definition existing_run (d : HealthDb) (s : HealthEvaluationStart) : option HealthEvaluationRunRecord :=
  match hd_runs d !! es_evaluation_id s with
  | Some run => Some run
  | None => head (select (fun run => String.eqb (er_input_watermark run) (es_input_watermark s)
                                     && String.eqb (er_policy_version run) (es_policy_version s)
                                     && String.eqb (er_computation_version run)
                                                   (es_computation_version s)) (hd_runs d))
  end.

Definition write_health_evaluation_start env (d : HealthDb) (s : HealthEvaluationStart) (actor : string)
    : HealthDb * result StoreError unit :=
  transact d (
    let? _ := map_err InvalidInput (validate_actor actor) in
    let? _ := validate_health_evaluation_start s in
    let? existing := optional_row health_evaluation_run_from_row (existing_run d s) in
    match existing with
    | Some run =>
        check? String.eqb (er_evaluation_id run) (es_evaluation_id s)
               && String.eqb (er_input_watermark run) (es_input_watermark s)
               && String.eqb (er_policy_version run) (es_policy_version s)
               && String.eqb (er_computation_version run) (es_computation_version s)
          else HealthEvaluationConflict (es_evaluation_id s)
                 "evaluation identity or replay key is already bound" in
        let audit_actor := ae_actor <$> List.find
          (fun e => bool_decide (ae_request_id e = Some (es_evaluation_id s))
                    && String.eqb (ae_event e) "health.evaluation.start")
          (db_audit (hd_core d)) in
        check? bool_decide (audit_actor = Some actor)
          else HealthEvaluationConflict (es_evaluation_id s)
                 "evaluation audit provenance is mismatched or missing" in
        Ok (d, tt)
    | None =>
        let run := {| er_evaluation_id := es_evaluation_id s;
                      er_input_watermark := es_input_watermark s;
                      er_policy_version := es_policy_version s;
                      er_computation_version := es_computation_version s;
                      er_started_at := es_started_at s; er_finished_at := None;
                      er_status := "running"; er_snapshot_count := 0;
                      er_failure_code := None |} in
        let? d' := insert_health_evaluation_audit_tx env
          (set_eval_runs (<[es_evaluation_id s := run]> (hd_runs d)) d)
          actor "health.evaluation.start" (es_evaluation_id s) true None 0 in
        Ok (d', tt)
    end).

Definition not_running (id : string) : StoreError :=
  HealthEvaluationConflict id "evaluation is missing or is not running".

Definition validate_health_evaluation_finish_order_tx (d : HealthDb) (id finished_at : string)
    : result StoreError unit :=
  let? started_at := ok_or (er_started_at <$> hd_runs d !! id) (not_running id) in
  let? started_at := ok_or (rfc3339_parse started_at)
                       (InvalidInput "stored health evaluation started_at is invalid") in
  let? finished_at := ok_or (rfc3339_parse finished_at)
                        (InvalidInput "health evaluation finished_at is invalid") in
  reject? finished_at <? started_at
    as InvalidInput "health evaluation finished_at precedes started_at" in
  Ok tt.

(** A run after [SET finished_at, status, snapshot_count, failure_code]. *)
Definition with_run_outcome (finished_at status : string) (count : Z) (code : option string)
    (r : HealthEvaluationRunRecord) : HealthEvaluationRunRecord :=
  {| er_evaluation_id := er_evaluation_id r; er_input_watermark := er_input_watermark r;
     er_policy_version := er_policy_version r; er_computation_version := er_computation_version r;
     er_started_at := er_started_at r; er_finished_at := Some finished_at; er_status := status;
     er_snapshot_count := count; er_failure_code := code |}.

Definition is_running (r : HealthEvaluationRunRecord) : bool := String.eqb (er_status r) "running".

(** [UPDATE ... WHERE evaluation_id = ?1 AND status = 'running' AND finished_at
    IS NULL] has to change one row. *)
Definition end_run (d : HealthDb) (id finished_at status : string) (count : option Z) (code : option string)
    : result StoreError HealthDb :=
  match hd_runs d !! id with
  | Some run =>
      check? is_running run && bool_decide (er_finished_at run = None) else not_running id in
      Ok (set_eval_runs
            (<[id := with_run_outcome finished_at status
                       (default (er_snapshot_count run) count)
                       (option_or code (er_failure_code run)) run]> (hd_runs d)) d)
  | None => Err (not_running id)
  end.

Definition write_health_evaluation_finish env (d : HealthDb) (f : HealthEvaluationFinish) (actor : string)
    : HealthDb * result StoreError unit :=
  let id := ef_evaluation_id f in
  let count := Z.of_nat (length (ef_snapshots f)) in
  transact d (
    let? _ := map_err InvalidInput (validate_actor actor) in
    let? _ := validate_health_evaluation_finish f in
    let? _ := validate_health_evaluation_finish_order_tx d id (ef_finished_at f) in
    let? d' := end_run d id (ef_finished_at f) "completed" (Some count) None in
    let? d' := store_snapshots d' id (ef_snapshots f) in
    let? d' := insert_health_evaluation_audit_tx env d' actor "health.evaluation.finish" id
                 true None count in
    Ok (d', tt)).

Definition write_health_evaluation_failure env (d : HealthDb) (f : HealthEvaluationFailure) (actor : string)
    : HealthDb * result StoreError unit :=
  let id := ex_evaluation_id f in
  transact d (
    let? _ := map_err InvalidInput (validate_actor actor) in
    let? _ := validate_health_evaluation_failure f in
    let? _ := validate_health_evaluation_finish_order_tx d id (ex_finished_at f) in
    let? d' := end_run d id (ex_finished_at f) "failed" None (Some (ex_failure_code f)) in
    let? d' := insert_health_evaluation_audit_tx env d' actor "health.evaluation.fail" id
                 false (Some (ex_failure_code f)) 0 in
    Ok (d', tt)).

(** [sort_by(|l, r| l.1.cmp(&r.1).then_with(|| l.0.cmp(&r.0)))] on identifiers
    with their instants. *)
Definition sort_candidates : list (string * Z) -> list (string * Z) :=
  AlertQueue.sort_by (fun l r => (l.2 <? r.2) || ((l.2 =? r.2) && str_ltb l.1 r.1)).

Definition ABANDONED : string := "HEALTH_EVALUATION_ABANDONED".

Fixpoint recover_runs env (d : HealthDb) (recovered_at actor : string) (ids : list string)
    : result StoreError HealthDb :=
  match ids with
  | [] => Ok d
  | id :: ids' =>
      let changed := HealthEvaluationConflict id "evaluation changed during recovery" in
      let? run := ok_or (hd_runs d !! id) changed in
      check? is_running run else changed in
      let run' := with_run_outcome recovered_at "failed" (er_snapshot_count run)
                                   (Some ABANDONED) run in
      let? d' := insert_health_evaluation_audit_tx env
        (set_eval_runs (<[id := run']> (hd_runs d)) d)
        actor "health.evaluation.recover" id false (Some ABANDONED) 0 in
      recover_runs env d' recovered_at actor ids'
  end.

(** The first thousand running evaluations, of which the hundred oldest that
    started before the cutoff are recovered. *)
Definition recovery_candidates (d : HealthDb) (cutoff : Z) : result StoreError (list string) :=
  let running := take 1000 (sort_by (fun r => [Some (er_evaluation_id r)])
                                    (select is_running (hd_runs d))) in
  let? candidates := try_map
    (fun r => let? started := ok_or (rfc3339_parse (er_started_at r))
                (InvalidInput "stored health evaluation started_at is invalid") in
              Ok (er_evaluation_id r, started)) running in
  Ok (map fst (take 100 (sort_candidates (List.filter (fun c => c.2 <? cutoff) candidates)))).

Definition write_health_evaluation_recovery env (d : HealthDb) (cutoff recovered_at actor : string)
    : HealthDb * result StoreError Z :=
  transact d (
    let? _ := map_err InvalidInput (validate_actor actor) in
    let? cutoff := validate_rfc3339 cutoff "health evaluation recovery cutoff" in
    let? recovered := validate_rfc3339 recovered_at "health evaluation recovered_at" in
    reject? recovered <? cutoff
      as InvalidInput "health evaluation recovered_at precedes cutoff" in
    let? ids := recovery_candidates d cutoff in
    let? d' := recover_runs env d recovered_at actor ids in
    Ok (d', Z.of_nat (length ids))).
End health_store.
