(* ===== verification/Health.v ===== *)
(** * Health: computing, storing and rolling up the health of the nodes
      (ocfleet-cli/src/health.rs, duration_args.rs)

    A command reads the store, computes, and writes in one or more
    transactions; [HealthM] threads the database through them, and what an
    earlier transaction committed stays when a later step fails.  Printing is
    left out: a command returns what it prints. *)

From S2P Require Import Prelude Text External Wire AgentConfig InputValidation StoreTypes.
From S2P Require Import StoredText StoragePayloads StoreDb Enrollment ObservationPayloads.
From S2P Require Import AlertWebhook SchedulerStore NodeMetadata AlertQueue Ordering Slo.
From S2P Require Import ApiPayloads ApiStore ApiProjections HealthStore.

(** ** Errors and steps *)

(** [anyhow::Error]: an error of the store, or a message. *)
Inductive HealthError :=
| StoreFailure (e : StoreError)
| Message (text : string).

Definition HealthM (A : Type) : Type := HealthDb -> HealthDb * result HealthError A.

#[export] Instance health_ret : MRet HealthM := fun A a d => (d, Ok a).
#[export] Instance health_bind : MBind HealthM := fun A B k m d =>
  match m d with
  | (d', Ok a) => k a d'
  | (d', Err e) => (d', Err e)
  end.

(** A query, a transaction, a computation. *)
Definition reading {A} (q : HealthDb -> result StoreError A) : HealthM A := fun d =>
  (d, map_err StoreFailure (q d)).
Definition writing {A} (w : HealthDb -> HealthDb * result StoreError A) : HealthM A := fun d =>
  let '(d', r) := w d in (d', map_err StoreFailure r).
Definition computing {A} (r : result HealthError A) : HealthM A := fun d => (d, r).
Definition bail {A} (text : string) : HealthM A := computing (Err (Message text)).

(** What one evaluation reads of its surroundings: the clock, the actor and
    what each of its transactions reads. *)
Record HealthClock := {
  hc_now : Z;
  hc_actor : string;
  hc_recover : StoreEnv;
  hc_start : StoreEnv;
  hc_finish : StoreEnv;
}.

(** ** Data *)

Definition OBSERVATION_READ_LIMIT : Z := 1000.
Definition HEALTH_COMPUTATION_VERSION : string := "health-v1".
Definition HEALTH_EVALUATION_BUCKET_SECONDS : Z := 60.
Definition HEALTH_EVALUATION_RECOVERY_SECONDS : Z := 300.
Definition NANOS : Z := 1000000000.

(** [OffsetDateTime::unix_timestamp]. *)
Definition unix_timestamp (instant : Z) : Z := instant / NANOS.

Inductive HealthEvaluationOutcome := Completed | Replayed | InProgress | Failed.

Inductive HealthStatus := Healthy | Degraded | Unreachable | Stale | Disabled | Unknown.

#[export] Instance health_status_eq_dec : EqDecision HealthStatus.
Proof. solve_decision. Defined.

Definition health_status_as_str (s : HealthStatus) : string :=
  match s with
  | Healthy => "healthy" | Degraded => "degraded" | Unreachable => "unreachable"
  | Stale => "stale" | Disabled => "disabled" | Unknown => "unknown"
  end.

Record NodeHealth := {
  no_node_id : string;
  no_endpoint_id : string;
  no_endpoint_status : option string;
  no_region : string;
  no_role : string;
  no_status : HealthStatus;
  no_freshness_seconds : option Z;
  no_last_success_at : option string;
  no_last_failure_at : option string;
  no_last_error_code : option string;
  no_consecutive_unreachable_failures : Z;
  no_degraded_methods : list string;
}.

Record HealthCounts := {
  ct_total : Z; ct_healthy : Z; ct_degraded : Z; ct_unreachable : Z; ct_stale : Z;
  ct_disabled : Z; ct_unknown : Z;
}.

Definition no_counts : HealthCounts :=
  {| ct_total := 0; ct_healthy := 0; ct_degraded := 0; ct_unreachable := 0; ct_stale := 0;
     ct_disabled := 0; ct_unknown := 0 |}.

(** [HealthCounts::record]. *)
Definition record_status (c : HealthCounts) (s : HealthStatus) : HealthCounts :=
  let one t := if bool_decide (s = t) then 1 else 0 in
  {| ct_total := ct_total c + 1; ct_healthy := ct_healthy c + one Healthy;
     ct_degraded := ct_degraded c + one Degraded;
     ct_unreachable := ct_unreachable c + one Unreachable; ct_stale := ct_stale c + one Stale;
     ct_disabled := ct_disabled c + one Disabled; ct_unknown := ct_unknown c + one Unknown |}.

Definition health_counts (rows : list NodeHealth) : HealthCounts :=
  foldl (fun c row => record_status c (no_status row)) no_counts rows.

(** ** Observations *)

(** [max_by(|l, r| l.observed_at.cmp(&r.observed_at))]: of equal ones the last. *)
Definition max_observed (l : list ProbeObservationInsert) : option ProbeObservationInsert :=
  foldl (fun best o =>
           match best with
           | Some b => if str_ltb (ob_observed_at o) (ob_observed_at b) then Some b else Some o
           | None => Some o
           end) None l.

Definition latest_observation : list ProbeObservationInsert -> option ProbeObservationInsert :=
  max_observed.

Definition latest_with_ok (l : list ProbeObservationInsert) (ok : bool)
    : option ProbeObservationInsert :=
  max_observed (List.filter (fun o => bool_decide (ob_ok o = Some ok)) l).

Definition latest_for_method (l : list ProbeObservationInsert) (method : string)
    : option ProbeObservationInsert :=
  max_observed (List.filter (fun o => String.eqb (ob_method o) method) l).

Definition inactive_endpoint_error_code (status : option EndpointStatus) : option string :=
  match status with
  | None => Some "ENDPOINT_TRUST_MISSING"
  | Some Active => None
  | Some Revoked => Some "ENDPOINT_REVOKED"
  | Some Quarantined => Some "ENDPOINT_QUARANTINED"
  | Some Rotated => Some "ENDPOINT_ROTATED"
  end.

Definition is_unreachable_error_code (code : string) : bool :=
  str_in_list code ["CONNECT_FAILED"; "RPC_TIMEOUT"; "ENDPOINT_NOT_ALLOWED"; "ENDPOINT_MISMATCH";
    "RESPONSE_TOO_LARGE"; "FRAME_READ_FAILED"; "NODE_NOT_FOUND"; "NODE_DISABLED";
    "ENDPOINT_REVOKED"; "ENDPOINT_QUARANTINED"; "ENDPOINT_ROTATED"; "ENDPOINT_TRUST_MISSING"].

Definition unreachable_ping (o : ProbeObservationInsert) : bool :=
  bool_decide (ob_ok o = Some false) && from_option is_unreachable_error_code false (ob_error_code o).

(** [take_while(..).count()]. *)
Fixpoint count_while {A} (p : A -> bool) (l : list A) : Z :=
  match l with
  | x :: l' => if p x then 1 + count_while p l' else 0
  | [] => 0
  end.

Definition consecutive_unreachable_controller_ping_failures (l : list ProbeObservationInsert) : Z :=
  count_while unreachable_ping
    (AlertQueue.sort_by (fun x y => str_ltb (ob_observed_at y) (ob_observed_at x))
       (List.filter (fun o => String.eqb (ob_method o) PROBE_CONTROLLER_PING) l)).

Definition latest_controller_ping_failed (l : list ProbeObservationInsert) : bool :=
  match latest_for_method l PROBE_CONTROLLER_PING with
  | Some o => bool_decide (ob_ok o = Some false)
  | None => false
  end.

Definition status_is_cert_warning (status : option string) : bool :=
  from_option (fun s => str_in_list s ["expiring_soon"; "expired"; "warning"; "critical"])
              false status.

(** [value.get(key).and_then(Value::as_array).into_iter().flatten()]. *)
Definition array_of (key : string) (v : Value) : list Value :=
  default [] (value_get key v ≫= as_array).

Definition degraded_methods_from_summary (summary : Value) : list string :=
  omap as_str (array_of "degraded_methods" summary).

Section health.
Context `{EndpointIdOps, TimeOps, ZonedTimeOps, JsonOps, JsonBytes, DigestOps, Blake3Ops}.

Definition freshness_seconds (generated_at observed_at : string) : option Z :=
  generated ← rfc3339_parse generated_at;
  observed ← rfc3339_parse observed_at;
  Some (if generated <? observed then 0 else Z.quot (generated - observed) NANOS).

Definition timestamp_before (left right : string) : option bool :=
  l ← rfc3339_parse left; r ← rfc3339_parse right; Some (l <? r).

Definition latest_is_stale_or_expired (generated_at : string) (l : list ProbeObservationInsert)
    (stale_window_seconds : Z) : bool :=
  match latest_observation l with
  | None => false
  | Some latest =>
      match ob_expires_at latest with
      | Some expires_at => default true (timestamp_before expires_at generated_at)
      | None => false
      end
      || match freshness_seconds generated_at (ob_observed_at latest) with
         | Some freshness => stale_window_seconds <? freshness
         | None => true
         end
  end.

Definition cert_observation_warns (o : ProbeObservationInsert) : bool :=
  String.eqb (ob_method o) OCSERV_CERT_EXPIRY
  && (let summary := safe_observation_summary (ob_summary_json o) in
      status_is_cert_warning
        (option_or (value_get "status" summary) (value_get "cert_status" summary) ≫= as_str)
      || existsb (fun cert => status_is_cert_warning (value_get "status" cert ≫= as_str))
                 (array_of "certs" (ob_summary_json o))).

(** The methods one observation adds to those collected before it. *)
Definition add_degraded (methods : list string) (o : ProbeObservationInsert) : list string :=
  let methods := if bool_decide (ob_ok o = Some false) || cert_observation_warns o
                 then methods ++ [ob_method o] else methods in
  foldl (fun ms m => if str_in_list m ms then ms else ms ++ [m]) methods
        (degraded_methods_from_summary (safe_observation_summary (ob_summary_json o))).

Definition degraded_sources : list string :=
  [OCSERV_SERVICE_SUMMARY; OCSERV_VERSION; OCSERV_SESSIONS_SUMMARY; OCSERV_CONFIG_FINGERPRINT;
   OCSERV_CERT_EXPIRY].

Definition degraded_methods (l : list ProbeObservationInsert) : list string :=
  dedup (sort_strs (foldl (fun methods method =>
    from_option (add_degraded methods) methods (latest_for_method l method)) [] degraded_sources)).

(** ** The health of a node *)

Definition classify_node (enabled inactive : bool) (observations : list ProbeObservationInsert)
    (generated_at : string) (policy : HealthPolicyRecord) : HealthStatus :=
  if negb enabled then Disabled
  else if inactive then Unreachable
  else if bool_decide (observations = []) then Unknown
  else if latest_is_stale_or_expired generated_at observations (hp_stale_window_seconds policy)
  then Stale
  else if hp_unreachable_consecutive_failures policy
          <=? consecutive_unreachable_controller_ping_failures observations
  then Unreachable
  else if negb (bool_decide (degraded_methods observations = []))
          || latest_controller_ping_failed observations
  then Degraded
  else Healthy.

Definition compute_node_health (d : HealthDb) (node : NodeRecord) (generated_at : string)
    (policy : HealthPolicyRecord) : result StoreError NodeHealth :=
  let? endpoint := get_endpoint_trust_tx (hd_core d) (node_endpoint_id node) in
  let endpoint_status := et_status <$> endpoint in
  let endpoint_error_code := inactive_endpoint_error_code endpoint_status in
  let? observations := list_probe_observations d (node_id node) OBSERVATION_READ_LIMIT in
  let last_failure := latest_with_ok observations false in
  Ok {| no_node_id := node_id node; no_endpoint_id := node_endpoint_id node;
        no_endpoint_status := endpoint_status_as_str <$> endpoint_status;
        no_region := node_region node; no_role := node_role node;
        no_status := classify_node (node_enabled node) (bool_decide (is_Some endpoint_error_code))
                       observations generated_at policy;
        no_freshness_seconds := o ← latest_observation observations;
                                freshness_seconds generated_at (ob_observed_at o);
        no_last_success_at := ob_observed_at <$> latest_with_ok observations true;
        no_last_failure_at := ob_observed_at <$> last_failure;
        no_last_error_code := option_or endpoint_error_code (last_failure ≫= ob_error_code);
        no_consecutive_unreachable_failures :=
          consecutive_unreachable_controller_ping_failures observations;
        no_degraded_methods := degraded_methods observations |}.

Definition health_snapshot (row : NodeHealth) (generated_at : string)
    : result HealthError HealthSnapshotRecord :=
  let? methods := map_err Message (hdm_new (no_degraded_methods row)) in
  let? summary := map_err Message
    (hsp_new (Some (no_region row)) (Some (no_role row)) (health_status_as_str (no_status row))
             (no_endpoint_status row) (Some (no_consecutive_unreachable_failures row))) in
  Ok {| hs_node_id := no_node_id row; hs_endpoint_id := Some (no_endpoint_id row);
        hs_computed_at := generated_at; hs_status := health_status_as_str (no_status row);
        hs_freshness_seconds := no_freshness_seconds row;
        hs_last_success_at := no_last_success_at row;
        hs_last_failure_at := no_last_failure_at row;
        hs_last_error_code := no_last_error_code row;
        hs_degraded_methods_json := hdm_to_value methods;
        hs_summary_json := hsp_to_value summary |}.

(** [SELECT ... FROM nodes ORDER BY node_id]. *)
Definition list_nodes (d : HealthDb) : list NodeRecord :=
  sort_by (fun n => [Some (node_id n)]) (rows_of (db_nodes (hd_core d))).

Definition compute_rows (d : HealthDb) (generated_at : string) (policy : HealthPolicyRecord)
    : list NodeRecord -> result StoreError (list NodeHealth) :=
  try_map (fun node => compute_node_health d node generated_at policy).

(** ** Evaluations *)

Definition health_policy_version (p : HealthPolicyRecord) : string :=
  blake3_json (health_policy_audit_json p).

Definition health_input_watermark (l : list HealthSnapshotRecord) : string :=
  blake3_json (VArray (map snapshot_json l)).

(** The first 16 bytes of a digest with the version and variant bits of a
    random UUID. *)
Definition uuid_bytes (digest : list Z) : list Z :=
  alter (fun b => Z.lor (Z.land b 63) 128) 8%nat
    (alter (fun b => Z.lor (Z.land b 15) 64) 6%nat (take 16 digest)).

Definition health_evaluation_id (input_watermark policy_version : string) : string :=
  "health-eval-" +:+ uuid_text (uuid_bytes (blake3 (str_bytes
    (input_watermark +:+ ":" +:+ policy_version +:+ ":" +:+ HEALTH_COMPUTATION_VERSION)))).

Definition evaluation_start (watermark policy_version started_at : string)
    : HealthEvaluationStart :=
  {| es_evaluation_id := health_evaluation_id watermark policy_version;
     es_input_watermark := watermark; es_policy_version := policy_version;
     es_computation_version := HEALTH_COMPUTATION_VERSION; es_started_at := started_at |}.

Definition failure_watermark (nodes : list NodeRecord) (generated_at : string) : string :=
  blake3_json (VObject
    [("evaluation_at", VString generated_at);
     ("input_state", VString "invalid");
     ("nodes", VArray (map (fun n => VObject [("enabled", VBool (node_enabled n));
                                              ("endpoint_id", VString (node_endpoint_id n));
                                              ("node_id", VString (node_id n))]) nodes))]).

Definition persist_health_evaluation_failure (c : HealthClock) (nodes : list NodeRecord)
    (generated_at finished_at policy_version : string) : HealthM HealthEvaluationOutcome :=
  let start := evaluation_start (failure_watermark nodes generated_at) policy_version generated_at in
  let id := es_evaluation_id start in
  _ ← writing (fun d => write_health_evaluation_start (hc_start c) d start (hc_actor c));
  run ← reading (fun d => get_health_evaluation_run d id);
  match run with
  | None => bail "health evaluation run disappeared after start"
  | Some run =>
      if negb (is_running run) then mret Replayed else
      _ ← writing (fun d => write_health_evaluation_failure (hc_finish c) d
                     {| ex_evaluation_id := id; ex_finished_at := finished_at;
                        ex_failure_code := "HEALTH_EVALUATION_FAILED" |} (hc_actor c));
      mret Failed
  end.

(** What is left to do for an evaluation that has been started. *)
Definition finish_evaluation (c : HealthClock) (id generated_at finished_at : string)
    (snapshots : list HealthSnapshotRecord) : HealthM HealthEvaluationOutcome :=
  let finish :=
    _ ← writing (fun d => write_health_evaluation_finish (hc_finish c) d
                   {| ef_evaluation_id := id; ef_finished_at := finished_at;
                      ef_snapshots := snapshots |} (hc_actor c));
    mret Completed in
  existing ← reading (fun d => get_health_evaluation_run d id);
  match existing with
  | None => finish
  | Some run =>
      if String.eqb (er_status run) "completed" || String.eqb (er_status run) "failed"
      then mret Replayed
      else if is_running run then
        if String.eqb (er_started_at run) generated_at then finish else mret InProgress
      else bail "stored health evaluation status is invalid"
  end.

(** The start of the minute of an instant. *)
Definition evaluation_at (now : Z) : Z :=
  unix_timestamp now / HEALTH_EVALUATION_BUCKET_SECONDS * HEALTH_EVALUATION_BUCKET_SECONDS * NANOS.

Definition run_health_evaluation_once (c : HealthClock) : HealthM HealthEvaluationOutcome :=
  let generated_at := rfc3339_format (evaluation_at (hc_now c)) in
  let recovered_at := rfc3339_format (hc_now c) in
  let recovery_cutoff :=
    rfc3339_format (hc_now c - HEALTH_EVALUATION_RECOVERY_SECONDS * NANOS) in
  _ ← writing (fun d => write_health_evaluation_recovery (hc_recover c) d recovery_cutoff
                          recovered_at (hc_actor c));
  policy ← reading get_health_policy;
  nodes ← reading (fun d => Ok (list_nodes d));
  let policy_version := health_policy_version policy in
  rows ← reading (fun d => Ok (compute_rows d generated_at policy nodes));
  match rows with
  | Err _ => persist_health_evaluation_failure c nodes generated_at recovered_at policy_version
  | Ok rows =>
      snapshots ← computing (try_map (fun row => health_snapshot row generated_at) rows);
      let start := evaluation_start (health_input_watermark snapshots) policy_version
                                    generated_at in
      _ ← writing (fun d => write_health_evaluation_start (hc_start c) d start (hc_actor c));
      finish_evaluation c (es_evaluation_id start) generated_at recovered_at snapshots
  end.

(** ** Interactive evaluations

    [uuid] is the fresh identifier of the evaluation. *)

Definition run_health_summary (env : StoreEnv) (actor uuid : string) (now : Z)
    : HealthM (HealthCounts * list NodeHealth) :=
  let generated_at := rfc3339_format now in
  policy ← reading get_health_policy;
  nodes ← reading (fun d => Ok (list_nodes d));
  rows ← reading (fun d => compute_rows d generated_at policy nodes);
  snapshots ← computing (try_map (fun row => health_snapshot row generated_at) rows);
  _ ← writing (fun d => write_health_snapshots env d
                 {| hw_evaluation_id := "health-eval-" +:+ uuid; hw_event := "health.summary";
                    hw_snapshots := snapshots |} actor);
  mret (health_counts rows, rows).

Definition run_health_node (env : StoreEnv) (actor uuid : string) (now : Z) (id : string)
    : HealthM (HealthCounts * list NodeHealth) :=
  _ ← computing (map_err (fun e => Message (validation_error_text e)) (validate_node_id id));
  let generated_at := rfc3339_format now in
  policy ← reading get_health_policy;
  node ← reading (fun d => Ok (get_node_tx (hd_core d) id));
  match node with
  | None => bail ("node not found: " +:+ id)
  | Some node =>
      row ← reading (fun d => compute_node_health d node generated_at policy);
      snapshot ← computing (health_snapshot row generated_at);
      _ ← writing (fun d => write_health_snapshots env d
                     {| hw_evaluation_id := "health-eval-" +:+ uuid; hw_event := "health.node";
                        hw_snapshots := [snapshot] |} actor);
      mret (health_counts [row], [row])
  end.

(** ** The policy *)

(** [str::parse::<u64>]. *)
Definition parse_u64 (s : string) : option Z :=
  let digits := match str_bytes s with 43 :: ds => ds | ds => ds end in
  match digits with
  | [] => None
  | _ => foldl (fun acc b =>
                  total ← acc;
                  if is_ascii_digit b && (10 * total + (b - 48) <=? u64_max)
                  then Some (10 * total + (b - 48)) else None) (Some 0) digits
  end.

(** [char::len_utf8]. *)
Definition len_utf8 (c : Z) : Z :=
  if c <? 128 then 1 else if c <? 2048 then 2 else if c <? 65536 then 3 else 4.

(** [number] is the text before the last character. *)
Definition parse_duration_seconds (value label : string) : result HealthError Z :=
  let suffix := Message (label +:+ " must use s, m, h, or d suffix") in
  let? unit := ok_or (last (chars value)) suffix in
  let number := str_of_bytes (take (length (str_bytes value) - Z.to_nat (len_utf8 unit))
                                   (str_bytes value)) in
  reject? str_is_empty number as Message (label +:+ " must include a positive number") in
  let? amount := ok_or (parse_u64 number) (Message ("invalid " +:+ label +:+ " value: " +:+ value)) in
  reject? amount =? 0 as Message (label +:+ " must be greater than zero") in
  let? multiplier :=
    if unit =? 115 then Ok 1 else if unit =? 109 then Ok 60 else if unit =? 104 then Ok 3600
    else if unit =? 100 then Ok 86400 else Err suffix in
  check? amount * multiplier <=? u64_max else Message (label +:+ " is too large") in
  Ok (amount * multiplier).

Record HealthPolicySet := {
  ps_stale_window : option string;
  ps_unreachable_failures : option Z;
  ps_cert_warning_days : option Z;
  ps_cert_critical_days : option Z;
}.

(** The policy with the thresholds of the command in place. *)
Definition merge_health_policy (old : HealthPolicyRecord) (s : HealthPolicySet) (now : string)
    : result HealthError HealthPolicyRecord :=
  let? stale := match ps_stale_window s with
                | Some value => parse_duration_seconds value "--stale-window"
                | None => Ok (hp_stale_window_seconds old)
                end in
  reject? bool_decide (ps_unreachable_failures s = Some 0)
    as Message "--unreachable-failures must be greater than zero" in
  let warning := default (hp_cert_warning_days old) (ps_cert_warning_days s) in
  let critical := default (hp_cert_critical_days old) (ps_cert_critical_days s) in
  reject? warning <? critical
    as Message "--cert-critical-days must be less than or equal to --cert-warning-days" in
  Ok {| hp_stale_window_seconds := stale;
        hp_unreachable_consecutive_failures :=
          default (hp_unreachable_consecutive_failures old) (ps_unreachable_failures s);
        hp_cert_warning_days := warning; hp_cert_critical_days := critical;
        hp_updated_at := now |}.

Definition run_health_policy_set (env : StoreEnv) (actor : string) (now : Z) (s : HealthPolicySet)
    : HealthM HealthPolicyRecord :=
  if bool_decide (ps_stale_window s = None) && bool_decide (ps_unreachable_failures s = None)
     && bool_decide (ps_cert_warning_days s = None) && bool_decide (ps_cert_critical_days s = None)
  then bail "health policy set requires at least one threshold flag" else
  old ← reading get_health_policy;
  policy ← computing (merge_health_policy old s (rfc3339_format now));
  _ ← writing (fun d => set_health_policy env d policy actor);
  mret policy.

(** ** Rollups *)

Definition rollup_status_index (status : string) : option nat :=
  if String.eqb status "healthy" then Some 0%nat else if String.eqb status "degraded" then Some 1%nat
  else if String.eqb status "unreachable" then Some 2%nat
  else if String.eqb status "stale" then Some 3%nat
  else if String.eqb status "disabled" then Some 4%nat
  else if String.eqb status "unknown" then Some 5%nat else None.

(** The last status of every five-minute slot. *)
Fixpoint status_by_slot (slots : gmap Z nat) (history : list HealthHistoryRecord)
    : result HealthError (gmap Z nat) :=
  match history with
  | [] => Ok slots
  | r :: history' =>
      let? index := ok_or (rollup_status_index (hs_status (hh_snapshot r)))
                          (Message "stored health history status is invalid") in
      let? timestamp := ok_or (rfc3339_parse (hs_computed_at (hh_snapshot r)))
                              (Message "stored health history time is invalid") in
      status_by_slot (<[unix_timestamp timestamp / 300 := index]> slots) history'
  end.

Definition slots_with (slots : gmap Z nat) (index : nat) : Z :=
  Z.of_nat (length (List.filter (Nat.eqb index) (rows_of slots))).

(** [percentile]: the value at the rank, rounded up; the arithmetic is that of
    [usize]. *)
Definition percentile (values : list Z) (p : Z) : option Z :=
  if bool_decide (values = []) then None else
  let scaled := p * Z.of_nat (length values) + 99 in
  if scaled <=? u64_max then values !! Z.to_nat (Z.max 0 (scaled / 100 - 1)) else None.

(** The certificate counters, warning and critical, after one observation. *)
Definition count_cert (counts : Z * Z) (o : ProbeObservationInsert) : Z * Z :=
  if String.eqb (ob_method o) OCSERV_CERT_EXPIRY then
    let summary := safe_observation_summary (ob_summary_json o) in
    let days := option_or (value_get "cert_min_days_remaining" summary)
                          (value_get "days_remaining" summary) ≫= value_as_i64 in
    let status := value_get "status" summary ≫= as_str in
    let days_within (n : Z) := from_option (fun days => days <=? n) false days in
    let status_in (l : list string) := from_option (fun s => str_in_list s l) false status in
    if days_within 7 || status_in ["critical"; "expired"] then (counts.1, counts.2 + 1)
    else if days_within 30 || status_in ["warning"; "expiring_soon"] then (counts.1 + 1, counts.2)
    else counts
  else counts.

(** The names of the configuration an observation reports, if any. *)
Definition fingerprint_aliases (o : ProbeObservationInsert) : list (list string) :=
  if String.eqb (ob_method o) OCSERV_CONFIG_FINGERPRINT then
    let summary := safe_observation_summary (ob_summary_json o) in
    let aliases := omap (fun key => value_get key summary ≫= as_str)
                        ["config_fingerprint_prefix"; "config_fingerprint_previous_prefix"] in
    if bool_decide (aliases = []) then [] else [aliases]
  else [].

(** [windows(2).filter(|pair| no value of the first is in the second).count()]. *)
Fixpoint fingerprint_changes (l : list (list string)) : Z :=
  match l with
  | a :: ((b :: _) as l') =>
      (if existsb (fun value => str_in_list value b) a then 0 else 1) + fingerprint_changes l'
  | _ => 0
  end.

Definition rollup_watermark (source : HealthRollupSource) : string :=
  blake3_json (VObject
    [("history", VArray (map (fun r => VObject
        [("computed_at", VString (hs_computed_at (hh_snapshot r)));
         ("evaluation_id", VString (hh_evaluation_id r));
         ("node_id", VString (hs_node_id (hh_snapshot r)));
         ("status", VString (hs_status (hh_snapshot r)));
         ("summary", hs_summary_json (hh_snapshot r))]) (src_history source)));
     ("observations", VArray (map (fun o => VObject
        [("duration_ms", json_of_opt_u64 (ob_duration_ms o));
         ("method", VString (ob_method o));
         ("observation_id", VString (ob_observation_id o));
         ("observed_at", VString (ob_observed_at o));
         ("ok", from_option VBool Null (ob_ok o));
         ("summary", ob_summary_json o)]) (src_observations source)))]).

Definition build_health_rollup (node : string) (bucket_seconds : Z)
    (bucket_start bucket_end : string) (source : HealthRollupSource)
    : result HealthError HealthRollupRecord :=
  let? slots := status_by_slot ∅ (src_history source) in
  let samples := Z.of_nat (size slots) in
  let classified := omap ob_ok (src_observations source) in
  let durations := AlertQueue.sort_by Z.ltb (omap ob_duration_ms (src_observations source)) in
  let certs := foldl count_cert (0, 0) (src_observations source) in
  let fingerprints := flat_map fingerprint_aliases (src_observations source) in
  Ok {| ru_node_id := node; ru_bucket_seconds := bucket_seconds;
        ru_bucket_start := bucket_start; ru_bucket_end := bucket_end;
        ru_input_watermark := rollup_watermark source;
        ru_health_samples := samples; ru_covered_slots := samples;
        ru_expected_slots := bucket_seconds / 300;
        ru_healthy_count := slots_with slots 0; ru_degraded_count := slots_with slots 1;
        ru_unreachable_count := slots_with slots 2; ru_stale_count := slots_with slots 3;
        ru_disabled_count := slots_with slots 4; ru_unknown_count := slots_with slots 5;
        ru_observation_count := Z.of_nat (length classified);
        ru_observation_error_count := Z.of_nat (length (List.filter negb classified));
        ru_duration_sample_count := Z.of_nat (length durations);
        ru_duration_p50_ms := percentile durations 50;
        ru_duration_p95_ms := percentile durations 95;
        ru_cert_warning_count := certs.1; ru_cert_critical_count := certs.2;
        ru_fingerprint_sample_count := Z.of_nat (length fingerprints);
        ru_fingerprint_change_count := fingerprint_changes fingerprints;
        ru_computed_at := bucket_end |}.

(** *** Windows of rollups *)

(** [from + Duration::seconds(n)], at the same offset. *)
Definition odt_add (t : OffsetDateTime) (seconds : Z) : OffsetDateTime :=
  {| odt_instant := odt_instant t + seconds * NANOS; odt_offset := odt_offset t |}.

Record HealthRollupRefreshResult := {
  rr_operation_id : string;
  rr_bucket_seconds : Z;
  rr_bucket_start : string;
  rr_bucket_end : string;
  rr_node_count : Z;
  rr_row_count : Z;
  rr_status : string;
}.

(** [to_be_bytes] of a 64-bit integer. *)
Definition be_bytes64 (n : Z) : list Z :=
  map (fun i => Z.shiftr n (8 * i) mod 256) [7; 6; 5; 4; 3; 2; 1; 0].

Definition rollup_operation_id (bucket_seconds : Z) (from to : OffsetDateTime)
    (rows : list HealthRollupRecord) : string :=
  "health-rollup-" +:+ uuid_text (uuid_bytes (blake3
    (str_bytes "ocfleet-health-rollup-refresh-v1" ++ [0] ++ be_bytes64 bucket_seconds
     ++ be_bytes64 (unix_timestamp (odt_instant from))
     ++ be_bytes64 (unix_timestamp (odt_instant to))
     ++ flat_map (fun r => str_bytes (ru_node_id r) ++ [0] ++ str_bytes (ru_input_watermark r)) rows))).

(** The row of one node for the bucket that starts [index] buckets after
    [from]. *)
Definition rollup_row (d : HealthDb) (from : OffsetDateTime) (bucket_seconds : Z)
    (key : Z * string) : result HealthError HealthRollupRecord :=
  let bucket_start := odt_add from (key.1 * bucket_seconds) in
  let start_text := zoned_format bucket_start in
  let end_text := zoned_format (odt_add bucket_start bucket_seconds) in
  let? source := map_err StoreFailure (health_rollup_source d key.2 start_text end_text) in
  build_health_rollup key.2 bucket_seconds start_text end_text source.

Definition write_health_rollup_window (env : StoreEnv) (actor : string) (from to : OffsetDateTime)
    (node : option string) (bucket_seconds : Z) (operation_id : option string)
    : HealthM HealthRollupRefreshResult :=
  nodes ← match node with
          | Some id =>
              _ ← computing (map_err (fun e => Message (validation_error_text e))
                                     (validate_node_id id));
              mret [id]
          | None => reading (fun d => health_rollup_node_ids d (zoned_format from) (zoned_format to))
          end;
  let seconds := Z.quot (odt_instant to - odt_instant from) NANOS in
  _ ← (if seconds <? 0 then bail "out of range integral type conversion attempted" else mret tt);
  let bucket_count := seconds / bucket_seconds in
  let row_count := bucket_count * Z.of_nat (length nodes) in
  _ ← (if u64_max <? row_count then bail "health rollup row count overflow" else mret tt);
  _ ← (if 100000 <? row_count then bail "health rollup recompute exceeds 100000 rows"
       else mret tt);
  rows ← (fun d => (d, try_map (rollup_row d from bucket_seconds)
            (flat_map (fun i => map (pair (Z.of_nat i)) nodes) (seq 0 (Z.to_nat bucket_count)))));
  let id := default (rollup_operation_id bucket_seconds from to rows) operation_id in
  status ← (if bool_decide (rows = []) then mret "no_source" else
            _ ← writing (fun d => write_health_rollups env d
                           {| rw_operation_id := id; rw_rows := rows |} actor);
            mret "written_or_replayed");
  mret {| rr_operation_id := id; rr_bucket_seconds := bucket_seconds;
          rr_bucket_start := zoned_format from; rr_bucket_end := zoned_format to;
          rr_node_count := Z.of_nat (length nodes); rr_row_count := row_count;
          rr_status := status |}.

(** The last closed bucket of a size at an instant. *)
Definition closed_bucket_end (at_instant bucket_seconds : Z) : OffsetDateTime :=
  odt_utc (unix_timestamp at_instant / bucket_seconds * bucket_seconds * NANOS).

Definition refresh_bucket (env : StoreEnv) (actor : string) (at_instant bucket_seconds : Z)
    : HealthM HealthRollupRefreshResult :=
  let bucket_end := closed_bucket_end at_instant bucket_seconds in
  write_health_rollup_window env actor (odt_add bucket_end (- bucket_seconds)) bucket_end None
    bucket_seconds None.

(** The three sizes one after the other; [envs] is what their transactions
    read. *)
Definition refresh_closed_health_rollups (envs : Z -> StoreEnv) (actor : string) (at_instant : Z)
    : HealthM (list HealthRollupRefreshResult) :=
  a ← refresh_bucket (envs 300) actor at_instant 300;
  b ← refresh_bucket (envs 3600) actor at_instant 3600;
  c ← refresh_bucket (envs 86400) actor at_instant 86400;
  mret [a; b; c].

(** [--at], or now. *)
Definition run_health_rollup_refresh (envs : Z -> StoreEnv) (actor : string) (now : Z)
    (at_text : option string) : HealthM (list HealthRollupRefreshResult) :=
  at_instant ← computing match at_text with
    | Some text =>
        reject? 64 <? str_len text as Message "--at must not exceed 64 characters" in
        ok_or (rfc3339_parse text) (Message "invalid RFC3339 time")
    | None => Ok now
    end;
  refresh_closed_health_rollups envs actor at_instant.

Definition validate_rollup_window (from to : string) (bucket_seconds : Z)
    : result HealthError (OffsetDateTime * OffsetDateTime) :=
  let? from := ok_or (zoned_parse from) (Message "invalid RFC3339 time") in
  let? to := ok_or (zoned_parse to) (Message "invalid RFC3339 time") in
  reject? odt_instant to <=? odt_instant from as Message "--from must precede --to" in
  reject? negb (Z.rem (unix_timestamp (odt_instant from)) bucket_seconds =? 0)
          || negb (Z.rem (unix_timestamp (odt_instant to)) bucket_seconds =? 0)
    as Message "rollup window must align to bucket boundaries" in
  reject? 31 * 86400 * NANOS <? odt_instant to - odt_instant from
    as Message "rollup recompute window must not exceed 31 days" in
  Ok (from, to).

Definition recompute_health_rollups (env : StoreEnv) (actor uuid : string) (from to : string)
    (node : option string) (bucket_seconds : Z) (operation_id : option string)
    : HealthM HealthRollupRefreshResult :=
  window ← computing (validate_rollup_window from to bucket_seconds);
  write_health_rollup_window env actor window.1 window.2 node bucket_seconds
    (Some (default ("health-rollup-" +:+ uuid) operation_id)).

(** ** Service levels *)

Definition run_health_slo (d : HealthDb) (to : string) (node : option string) (window : SloWindow)
    : result HealthError (list HealthSloProjection) :=
  reject? 64 <? str_len to as Message "--to must not exceed 64 characters" in
  let? _ := map_err (fun e => Message (validation_error_text e)) (opt_check validate_node_id node) in
  let? to_time := ok_or (zoned_parse to) (Message "invalid RFC3339 time") in
  reject? negb (Z.rem (unix_timestamp (odt_instant to_time)) (window_bucket_seconds window) =? 0)
    as Message "--to must align to the selected SLO rollup bucket" in
  let from := zoned_format (odt_add to_time (- window_seconds window)) in
  let to := zoned_format to_time in
  let? ids := match node with
              | Some id => Ok [id]
              | None => map_err StoreFailure
                          (health_rollup_stored_node_ids d (window_bucket_seconds window) from to)
              end in
  try_map (fun id =>
    let? rows := map_err StoreFailure
      (list_health_rollups d (Some id) (window_bucket_seconds window) from to
         (window_seconds window / window_bucket_seconds window)) in
    ok_or (project_health_slo id window from to rows) (Message "health SLO counters overflow")) ids.

Definition validate_snapshot_limit (limit : Z) : result HealthError Z :=
  reject? (limit =? 0) || (1000 <? limit) as Message "--limit must be between 1 and 1000" in
  Ok limit.

Definition run_health_snapshot_list (d : HealthDb) (limit : Z)
    : result HealthError (list HealthSnapshotRecord) :=
  let? limit := validate_snapshot_limit limit in
  map_err StoreFailure (list_health_snapshots_limited d limit).
End health.
