(* ===== verification/HealthRollups.v ===== *)
(** * HealthRollups: what a rollup counts

    The status counters of a rollup add up to the five-minute slots that have
    an evaluation, the percentiles are ordered, and a row built from
    evaluations whose instants lie in the bucket passes the checks of the
    store. *)

From S2P Require Import Prelude Text External Wire AgentConfig InputValidation StoreTypes.
From S2P Require Import StoredText StoragePayloads StoreDb Enrollment ObservationPayloads.
From S2P Require Import AlertWebhook SchedulerStore NodeMetadata AlertQueue Ordering Slo.
From S2P Require Import ApiPayloads ApiStore ApiProjections HealthStore Health.

(** ** Texts of instants *)

(** The seconds of the years 0 to 9999. *)
Definition in_years (s : Z) : Prop := -62167219200 <= s < 253402300800.

(** RFC 3339 texts at offset zero: of whole seconds, the order of the texts is
    that of the instants; with a fraction, a text is below the text of every
    whole second that is not below its own second, also of its own second,
    since a period is below [Z]. *)
Class TimeOrderLaws `{TimeOps} : Prop := {
  rfc3339_whole_order : forall a b, in_years a -> in_years b ->
    str_ltb (rfc3339_format (a * NANOS)) (rfc3339_format (b * NANOS)) = (a <? b);
  rfc3339_fraction_order : forall a b f, in_years a -> in_years b -> 0 < f < NANOS ->
    str_ltb (rfc3339_format (a * NANOS + f)) (rfc3339_format (b * NANOS)) = (a <=? b);
}.

(** The sizes of a bucket. *)
Definition bucket_size (n : Z) : Prop := n = 300 \/ n = 3600 \/ n = 86400.

(** The slot of a stored evaluation. *)
Definition slot_of `{TimeOps} (r : HealthHistoryRecord) : option Z :=
  (fun t => unix_timestamp t / 300) <$> rfc3339_parse (hs_computed_at (hh_snapshot r)).

(** ** Counting *)

Definition count_index (i : nat) (l : list nat) : Z := Z.of_nat (length (List.filter (Nat.eqb i) l)).

Lemma count_index_cons i j l :
  count_index i (j :: l) = (if Nat.eqb i j then 1 else 0) + count_index i l.
Proof. unfold count_index. cbn [List.filter]. destruct (Nat.eqb i j); simpl length; lia. Qed.

Lemma count_below_six l :
  Forall (fun i => (i < 6)%nat) l ->
  count_index 0 l + count_index 1 l + count_index 2 l + count_index 3 l + count_index 4 l
  + count_index 5 l = Z.of_nat (length l).
Proof.
  induction 1 as [|i l Hi _ IH]; [done|]. rewrite !count_index_cons, length_cons.
  destruct i as [|[|[|[|[|[|i]]]]]]; cbn [Nat.eqb]; lia.
Qed.

Lemma length_filter_le {A} (p : A -> bool) l : (length (List.filter p l) <= length l)%nat.
Proof. induction l as [|x l IH]; simpl; [lia|]. destruct (p x); simpl; lia. Qed.

Lemma fingerprint_changes_bound l : 0 <= fingerprint_changes l <= Z.of_nat (length l).
Proof.
  induction l as [|a [|b l] IH]; [done|simpl; lia|].
  change (fingerprint_changes (a :: b :: l)) with
    ((if existsb (fun value => str_in_list value b) a then 0 else 1) + fingerprint_changes (b :: l)).
  rewrite (length_cons a). destruct (existsb _ a); lia.
Qed.

(** *** Percentiles *)

Definition ascending (l : list Z) : Prop := StronglySorted Z.le l.

Lemma z_insert_elem x y l : y ∈ AlertQueue.insert_by Z.ltb x l <-> y = x \/ y ∈ l.
Proof.
  induction l as [|z l IH]; simpl; [by rewrite list_elem_of_singleton, elem_of_nil; tauto|].
  destruct (z <? x); rewrite ?elem_of_cons, ?IH; tauto.
Qed.

Lemma lt_sort_length {A} (lt : A -> A -> bool) l : length (AlertQueue.sort_by lt l) = length l.
Proof.
  assert (Hi : forall x l, length (AlertQueue.insert_by lt x l) = S (length l)).
  { intros x l0. induction l0 as [|z l0 IH]; simpl; [done|]. destruct (lt z x); simpl; lia. }
  induction l as [|x l IH]; simpl; [done|]. by rewrite Hi, IH.
Qed.

Lemma z_sort_ascending l : ascending (AlertQueue.sort_by Z.ltb l).
Proof.
  induction l as [|x l IH]; [constructor|]. cbn [AlertQueue.sort_by foldr].
  change (foldr (AlertQueue.insert_by Z.ltb) [] l) with (AlertQueue.sort_by Z.ltb l).
  induction IH as [|z l' Hs IH' Hz]; simpl; [repeat constructor|].
  destruct (z <? x) eqn:E; bool_facts.
  - constructor; [done|]. rewrite Forall_forall in *. intros y Hy.
    apply z_insert_elem in Hy as [->|Hy]; [lia|by apply Hz].
  - constructor; [by constructor|]. constructor; [lia|].
    eapply Forall_impl; [exact Hz|]. simpl. intros y Hy. lia.
Qed.

Lemma ascending_lookup l i j a b :
  ascending l -> (i <= j)%nat -> l !! i = Some a -> l !! j = Some b -> a <= b.
Proof.
  intros Hl. revert i j. induction Hl as [|x l _ IH Hx]; [done|].
  intros [|i] [|j] Hij Ha Hb; simpl in *; [simplify_eq; lia| |lia|].
  - simplify_eq. rewrite Forall_forall in Hx. apply Hx. by eapply list_elem_of_lookup_2.
  - eapply (IH i j); eauto. lia.
Qed.

(** A list of at most a hundred thousand values has every percentile. *)
Lemma percentile_some l p :
  l <> [] -> Z.of_nat (length l) <= 100000 -> 1 <= p <= 100 ->
  exists x, percentile l p = Some x /\
    l !! Z.to_nat (Z.max 0 ((p * Z.of_nat (length l) + 99) / 100 - 1)) = Some x.
Proof.
  intros Hne Hlen Hp. unfold percentile. rewrite bool_decide_false by done. cbn zeta.
  assert (0 < Z.of_nat (length l)) by (destruct l; [done|simpl; lia]).
  rewrite (proj2 (Z.leb_le _ _)) by (unfold u64_max; nia).
  destruct (lookup_lt_is_Some_2 l
    (Z.to_nat (Z.max 0 ((p * Z.of_nat (length l) + 99) / 100 - 1)))) as [x Hx]; [|by exists x].
  assert (p * Z.of_nat (length l) + 99 < 100 * (Z.of_nat (length l) + 1)) by nia.
  apply Nat2Z.inj_lt. rewrite Z2Nat.id by lia.
  pose proof (Z.div_lt_upper_bound (p * Z.of_nat (length l) + 99) 100
    (Z.of_nat (length l) + 1) ltac:(lia) ltac:(lia)). lia.
Qed.

Lemma percentiles_ordered l :
  let sorted := AlertQueue.sort_by Z.ltb l in
  l <> [] -> Z.of_nat (length l) <= 100000 ->
  exists p50 p95, percentile sorted 50 = Some p50 /\ percentile sorted 95 = Some p95 /\ p50 <= p95.
Proof.
  intros sorted Hne Hlen. pose proof (lt_sort_length Z.ltb l : length sorted = length l) as Hl.
  assert (sorted <> []) by (intros E; rewrite E in Hl; destruct l; done).
  destruct (percentile_some sorted 50) as (a & Ha & Hai); [done|lia|lia|].
  destruct (percentile_some sorted 95) as (b & Hb & Hbi); [done|lia|lia|].
  exists a, b. split_and!; [done|done|]. eapply ascending_lookup; [apply z_sort_ascending| |exact Hai|exact Hbi].
  apply Z2Nat.inj_le; [lia|lia|]. apply Z.max_le_compat_l, Z.sub_le_mono_r, Z.div_le_mono; nia.
Qed.

Lemma percentile_nil p : percentile [] p = None.
Proof. done. Qed.

(** ** Slots *)

Section rollups.
Context `{EndpointIdOps, TimeOps, ZonedTimeOps, JsonOps, JsonBytes, DigestOps, Blake3Ops}.

Lemma status_by_slot_spec history : forall slots result,
  status_by_slot slots history = Ok result ->
  dom result = dom slots ∪ list_to_set (omap slot_of history) /\
  (map_Forall (fun _ i => (i < 6)%nat) slots -> map_Forall (fun _ i => (i < 6)%nat) result).
Proof.
  induction history as [|r history IH]; intros slots result Hs; simpl in Hs.
  { simplify_eq. split; [set_solver|done]. }
  destruct (rollup_status_index _) as [i|] eqn:Hi; [|done]. simpl in Hs.
  destruct (rfc3339_parse _) as [t|] eqn:Ht; [|done]. simpl in Hs.
  assert (Hslot : slot_of r = Some (unix_timestamp t / 300)) by (unfold slot_of; by rewrite Ht).
  apply IH in Hs as [Hd Hf]. split.
  - simpl. rewrite Hslot, Hd. set_solver.
  - intros Hlt. apply Hf. apply map_Forall_insert_2; [|done].
    unfold rollup_status_index in Hi. repeat case_match; simplify_eq; lia.
Qed.

Lemma slots_sum (slots : gmap Z nat) :
  map_Forall (fun _ i => (i < 6)%nat) slots ->
  slots_with slots 0 + slots_with slots 1 + slots_with slots 2 + slots_with slots 3
  + slots_with slots 4 + slots_with slots 5 = Z.of_nat (size slots).
Proof.
  intros Hlt. etrans; [apply (count_below_six (rows_of slots))|unfold rows_of;
    by rewrite length_map, length_map_to_list].
  unfold rows_of. apply Forall_map. rewrite Forall_forall. intros [k i] Hk.
  apply elem_of_map_to_list in Hk. exact (Hlt _ _ Hk).
Qed.

(** At most as many slots as there are numbers in the range of the bucket. *)
Lemma slots_within (slots : gmap Z nat) a n :
  0 <= n -> (forall k, k ∈ dom slots -> a <= k < a + n) -> Z.of_nat (size slots) <= n.
Proof.
  intros Hn Hin. rewrite <- size_dom.
  assert (Hsub : dom slots ⊆ (list_to_set (seqZ a n) : gset Z)).
  { intros k Hk. apply elem_of_list_to_set, elem_of_seqZ. by apply Hin. }
  apply subseteq_size in Hsub. rewrite size_list_to_set in Hsub by apply NoDup_seqZ.
  rewrite length_seqZ in Hsub. lia.
Qed.

(** ** Reading *)

Lemma try_map_same {E A} (f : A -> result E A) l l' :
  (forall x y, f x = Ok y -> y = x) -> try_map f l = Ok l' -> l' = l.
Proof.
  intros Hf. revert l'. induction l as [|x l IH]; intros l' Hl; simpl in Hl; [by simplify_eq|].
  peel Hl. f_equal; eauto.
Qed.

Lemma health_history_from_row_same r r' : health_history_from_row r = Ok r' -> r' = r.
Proof. unfold health_history_from_row. intros Hr. by peel_all Hr. Qed.

Lemma normalize_formatted `{!ZonedTimeLaws} a b field w :
  normalize_half_open_window (zoned_format a) (zoned_format b) field = Ok w ->
  w = (zoned_format a, zoned_format b) /\ odt_instant a < odt_instant b.
Proof.
  unfold normalize_half_open_window. rewrite !zoned_parse_format. cbn [ok_or].
  intros Hw. by peel Hw.
Qed.

Lemma take_short {A} n (l : list A) : (length (take n l) < n)%nat -> take n l = l.
Proof. intros Hl. apply take_ge. rewrite length_take in Hl. lia. Qed.

(** What a source holds: the stored evaluations of the window and as many
    observations as a bucket may have. *)
Lemma rollup_source_spec `{!ZonedTimeLaws} d node a b src :
  health_rollup_source d node (zoned_format a) (zoned_format b) = Ok src ->
  valid_node_id node = Ok tt /\ odt_instant a < odt_instant b /\
  src_history src = sort_by history_order
    (List.filter (history_in node (zoned_format a) (zoned_format b)) (rows_of (hd_history d))) /\
  Z.of_nat (length (src_history src)) <= 100000 /\
  Z.of_nat (length (src_observations src)) <= 100000.
Proof.
  unfold health_rollup_source. intros Hs. peel_in Hs. unwrap. simplify_eq.
  apply orb_false_iff in Hc as [Hc1 Hc2]. bool_facts.
  match goal with H : normalize_half_open_window _ _ _ = Ok _ |- _ =>
    apply normalize_formatted in H as [-> Hlt] end.
  split_and!; [done|done| |cbn [src_history]; lia|cbn [src_observations]; lia].
  cbn [src_history fst snd] in *.
  match goal with H : try_map health_history_from_row _ = Ok ?l |- _ =>
    pose proof (try_map_same _ _ _ health_history_from_row_same H) as Hl end.
  rewrite Hl. apply take_short. rewrite <- Hl. lia.
Qed.

(** ** Rows *)

Lemma length_omap_le {A B} (f : A -> option B) l : (length (omap f l) <= length l)%nat.
Proof. induction l as [|x l IH]; [done|]. csimpl. destruct (f x); csimpl; lia. Qed.

Lemma bucket_size_slots n : bucket_size n -> 1 <= n / 300 <= 288.
Proof. intros [-> | [-> | ->]]; vm_compute; split; congruence. Qed.

Lemma slots_with_nonneg slots i : 0 <= slots_with slots i.
Proof. unfold slots_with. lia. Qed.

(** The number of slots that have an evaluation. *)
Definition slots_seen (history : list HealthHistoryRecord) : Z :=
  Z.of_nat (size (list_to_set (omap slot_of history) : gset Z)).

Lemma build_rollup_covered node bs st en src r :
  build_health_rollup node bs st en src = Ok r -> ru_covered_slots r = slots_seen (src_history src).
Proof.
  unfold build_health_rollup. intros Hb. destruct (status_by_slot _ _) as [slots|e] eqn:Hs; [|done].
  simplify_eq. cbn [ru_covered_slots]. unfold slots_seen. rewrite <- size_dom.
  apply status_by_slot_spec in Hs as [-> _]. do 2 f_equal. set_solver.
Qed.

Lemma slots_seen_bound history : slots_seen history <= Z.of_nat (length history).
Proof.
  unfold slots_seen. pose proof (length_omap_le slot_of history) as Hl.
  assert (Hs : forall l : list Z, (size (list_to_set l : gset Z) <= length l)%nat).
  { intros l. induction l as [|x l IH]; [by rewrite list_to_set_nil, size_empty|].
    rewrite list_to_set_cons, length_cons, size_union_alt, size_singleton.
    pose proof (subseteq_size (list_to_set l ∖ {[x]} : gset Z)
      (list_to_set l) ltac:(set_solver)). lia. }
  specialize (Hs (omap slot_of history)). lia.
Qed.

Lemma checked_sum_six a b c e f g :
  0 <= a -> 0 <= b -> 0 <= c -> 0 <= e -> 0 <= f -> 0 <= g ->
  a + b + c + e + f + g <= u64_max ->
  checked_sum [a; b; c; e; f; g] = Some (a + b + c + e + f + g).
Proof.
  intros. unfold checked_sum. cbn [foldl mbind option_bind].
  repeat (rewrite (proj2 (Z.leb_le _ _)) by lia; cbn [mbind option_bind]). f_equal; lia.
Qed.

(** The counters of a row are consistent exactly if its slots fit the bucket. *)
Lemma build_rollup_counters node bs st en src r :
  build_health_rollup node bs st en src = Ok r ->
  Z.of_nat (length (src_history src)) <= 100000 ->
  Z.of_nat (length (src_observations src)) <= 100000 ->
  rollup_counters_inconsistent r = (bs / 300 <? slots_seen (src_history src)).
Proof.
  intros Hb Hhist Hobs. pose proof (build_rollup_covered _ _ _ _ _ _ Hb) as Hcov.
  pose proof (slots_seen_bound (src_history src)) as Hseen.
  unfold build_health_rollup in Hb.
  destruct (status_by_slot _ _) as [slots|e] eqn:Hs; [|done].
  pose proof (status_by_slot_spec _ _ _ Hs) as [Hdom Hf].
  specialize (Hf ltac:(intros ? ? Hl; by rewrite lookup_empty in Hl)).
  pose proof (slots_sum slots Hf) as Hsum.
  set (durations := omap ob_duration_ms (src_observations src)) in *.
  assert (Hd : Z.of_nat (length durations) <= 100000).
  { pose proof (length_omap_le ob_duration_ms (src_observations src)). unfold durations. lia. }
  simplify_eq. unfold rollup_counters_inconsistent.
  cbn [ru_covered_slots ru_expected_slots ru_bucket_seconds ru_health_samples ru_healthy_count
       ru_degraded_count ru_unreachable_count ru_stale_count ru_disabled_count ru_unknown_count
       ru_observation_count ru_observation_error_count ru_fingerprint_sample_count
       ru_fingerprint_change_count ru_duration_sample_count ru_duration_p50_ms
       ru_duration_p95_ms] in *.
  rewrite checked_sum_six by (try apply slots_with_nonneg; unfold u64_max; lia).
  rewrite Hsum, bool_decide_true by done.
  rewrite !Z.eqb_refl, <- Hcov. cbn [negb orb].
  rewrite (proj2 (Z.ltb_ge _ (Z.of_nat (length (List.filter negb _)))))
    by (apply inj_le, length_filter_le).
  rewrite (proj2 (Z.ltb_ge _ (fingerprint_changes _))) by apply fingerprint_changes_bound.
  rewrite lt_sort_length, !orb_false_r. fold durations. clearbody durations.
  destruct (decide (durations = [])) as [E|E].
  { rewrite E. cbn. by rewrite !orb_false_r. }
  destruct (percentiles_ordered durations E Hd) as (p50 & p95 & -> & -> & Hle).
  rewrite (proj2 (Z.eqb_neq _ _)) by (destruct durations; [congruence|simpl; lia]).
  rewrite !bool_decide_true by done. rewrite (proj2 (Z.ltb_ge p95 p50)) by done.
  by rewrite !orb_false_r.
Qed.

(** *** What the columns can hold *)

(** The stored durations fit their column. *)
Definition durations_fit (d : HealthDb) : Prop :=
  map_Forall (fun _ o => forall n, ob_duration_ms o = Some n -> n <= i64_max)
             (sd_observations (hd_sched d)).

Lemma source_durations d node from to src o n :
  durations_fit d -> health_rollup_source d node from to = Ok src ->
  o ∈ src_observations src -> ob_duration_ms o = Some n -> n <= i64_max.
Proof.
  unfold health_rollup_source. intros Hd Hs Ho Hn. peel_in Hs. unwrap. simplify_eq. cbn in Ho.
  match goal with Hl : try_map probe_observation_from_row _ = Ok _ |- _ =>
    destruct (proj1 (try_map_ok_elem _ _ _ _ Hl) Ho) as (o0 & Hin & Hf) end.
  assert (Hin' : o0 ∈ rows_of (sd_observations (hd_sched d))).
  { eapply subseteq_take in Hin. apply sort_by_elem, list_elem_of_In, filter_In in Hin as [Hin _].
    by apply list_elem_of_In. }
  unfold rows_of in Hin'. apply list_elem_of_fmap in Hin' as ([k x] & -> & Hk).
  apply elem_of_map_to_list in Hk. apply (Hd _ _ Hk).
  unfold probe_observation_from_row in Hf. peel_in Hf. by injection Hf as <-.
Qed.

Lemma count_cert_bound l : forall c,
  0 <= c.1 -> 0 <= c.2 -> (foldl count_cert c l).1 + (foldl count_cert c l).2
    <= c.1 + c.2 + Z.of_nat (length l) /\
  0 <= (foldl count_cert c l).1 /\ 0 <= (foldl count_cert c l).2.
Proof.
  induction l as [|o l IH]; intros c Hc1 Hc2; cbn [foldl length]; [lia|].
  assert (Hc : 0 <= (count_cert c o).1 /\ 0 <= (count_cert c o).2 /\
               (count_cert c o).1 + (count_cert c o).2 <= c.1 + c.2 + 1).
  { unfold count_cert. repeat case_match; cbn; lia. }
  destruct (IH (count_cert c o)); lia.
Qed.

Lemma fingerprints_bound l : (length (flat_map fingerprint_aliases l) <= length l)%nat.
Proof.
  induction l as [|o l IH]; [done|]. cbn [flat_map length]. rewrite length_app.
  assert (length (fingerprint_aliases o) <= 1)%nat; [|lia].
  unfold fingerprint_aliases. repeat case_match; simpl; lia.
Qed.

Lemma percentile_elem l p x : percentile (AlertQueue.sort_by Z.ltb l) p = Some x -> x ∈ l.
Proof.
  unfold percentile. repeat case_match; try done. intros Hx%list_elem_of_lookup_2.
  revert Hx. clear. induction l as [|y l IH]; [done|]. cbn [AlertQueue.sort_by foldr].
  intros [->|Hx]%z_insert_elem; [by apply list_elem_of_here|by apply list_elem_of_further, IH].
Qed.

(** The counters of a row whose slots fit the bucket can be stored. *)
Lemma built_row_fits node bs st en src r :
  build_health_rollup node bs st en src = Ok r -> bucket_size bs ->
  slots_seen (src_history src) <= bs / 300 ->
  Z.of_nat (length (src_observations src)) <= 100000 ->
  (forall o n, o ∈ src_observations src -> ob_duration_ms o = Some n -> n <= i64_max) ->
  Forall (fun n => n <= i64_max) (rollup_counters r).
Proof.
  intros Hb Hbs Hseen Hobs Hdur. pose proof (bucket_size_slots _ Hbs) as Hslots.
  pose proof (build_rollup_covered _ _ _ _ _ _ Hb) as Hcov.
  assert (Hbs' : bs <= 86400) by (destruct Hbs as [-> | [-> | ->]]; lia).
  unfold build_health_rollup in Hb. destruct (status_by_slot _ _) as [slots|e] eqn:Hs; [|done].
  pose proof (status_by_slot_spec _ _ _ Hs) as [_ Hf].
  specialize (Hf ltac:(intros ? ? Hl; by rewrite lookup_empty in Hl)).
  pose proof (slots_sum slots Hf) as Hsum.
  pose proof (length_omap_le ob_ok (src_observations src)) as Hok.
  pose proof (length_omap_le ob_duration_ms (src_observations src)) as Hdl.
  pose proof (length_filter_le negb (omap ob_ok (src_observations src))) as Hneg.
  destruct (count_cert_bound (src_observations src) (0, 0)) as (Hcert & Hc1 & Hc2); [done|done|].
  pose proof (fingerprints_bound (src_observations src)) as Hfp.
  pose proof (fingerprint_changes_bound (flat_map fingerprint_aliases (src_observations src))) as Hch.
  assert (Hp : forall p, Forall (fun n => n <= i64_max)
    (option_list (percentile (AlertQueue.sort_by Z.ltb (omap ob_duration_ms (src_observations src))) p))).
  { intros p. apply Forall_forall. intros x Hx.
    destruct (percentile (AlertQueue.sort_by Z.ltb (omap ob_duration_ms (src_observations src))) p)
      as [y|] eqn:E; [|by apply elem_of_nil in Hx].
    apply list_elem_of_singleton in Hx as ->. apply percentile_elem, list_elem_of_omap in E as (o & Ho & Hn). by eapply Hdur. }
  injection Hb as <-. cbn [ru_covered_slots] in Hcov.
  pose proof (slots_with_nonneg slots 0). pose proof (slots_with_nonneg slots 1).
  pose proof (slots_with_nonneg slots 2). pose proof (slots_with_nonneg slots 3).
  pose proof (slots_with_nonneg slots 4). pose proof (slots_with_nonneg slots 5).
  cbn [fst snd] in Hcert. unfold rollup_counters.
  rewrite !Forall_app. split_and!; [|apply Hp|apply Hp|]; repeat apply Forall_cons_2; try apply Forall_nil_2;
    cbn [ru_bucket_seconds ru_health_samples ru_covered_slots ru_expected_slots ru_healthy_count
      ru_degraded_count ru_unreachable_count ru_stale_count ru_disabled_count ru_unknown_count
      ru_observation_count ru_observation_error_count ru_duration_sample_count ru_cert_warning_count
      ru_cert_critical_count ru_fingerprint_sample_count ru_fingerprint_change_count];
    rewrite ?lt_sort_length; unfold i64_max; lia.
Qed.

(** *** Storing rows *)

Definition storable (r : HealthRollupRecord) : Prop :=
  Forall (fun n => n <= i64_max) (rollup_counters r) /\
  str_ltb (ru_bucket_start r) (ru_bucket_end r) = true.

Lemma store_rollups_all rows : forall d,
  Forall storable rows ->
  store_rollups d rows
  = Ok (set_rollups (foldl (fun m r => <[rollup_pk r := r]> m) (hd_rollups d) rows) d).
Proof.
  induction rows as [|r rows IH]; intros d Hs; cbn [store_rollups foldl].
  { by destruct d. }
  apply Forall_cons in Hs as [[Hc Ht] Hs]. unfold upsert_health_rollup_tx.
  rewrite (proj2 (try_for_each_ok _ _)).
  - rewrite Ht. cbn [negb]. by rewrite IH.
  - eapply Forall_impl; [exact Hc|]. intros n Hn. unfold u64_to_i64. by rewrite (proj2 (Z.leb_le _ _)).
Qed.

Lemma stored_lookup rows : forall m k,
  k ∉ map rollup_pk rows ->
  foldl (fun m r => <[rollup_pk r := r]> m) m rows !! k = (m : gmap _ HealthRollupRecord) !! k.
Proof.
  induction rows as [|r rows IH]; intros m k Hk; [done|]. cbn [foldl map] in *.
  apply not_elem_of_cons in Hk as [Hne Hk]. rewrite IH by done. by rewrite lookup_insert_ne.
Qed.

Lemma stored_row rows : forall (m : gmap _ HealthRollupRecord) r,
  NoDup (map rollup_pk rows) -> r ∈ rows ->
  foldl (fun m r => <[rollup_pk r := r]> m) m rows !! rollup_pk r = Some r.
Proof.
  induction rows as [|x rows IH]; intros m r Hnd Hr; [by apply elem_of_nil in Hr|].
  cbn [foldl map] in *. apply NoDup_cons in Hnd as [Hx Hnd]. apply elem_of_cons in Hr as [->|Hr].
  - rewrite stored_lookup by done. apply lookup_insert_eq.
  - by apply IH.
Qed.

(** ** The window of a bucket *)

Definition utc_seconds (s : Z) : OffsetDateTime := odt_utc (s * NANOS).

(** Evaluations that were stored with the text of a whole second, as the
    evaluator stores them. *)
Definition whole_second_history (d : HealthDb) : Prop :=
  map_Forall (fun _ r => exists s, in_years s /\
                hs_computed_at (hh_snapshot r) = rfc3339_format (s * NANOS)) (hd_history d).

Lemma unix_timestamp_whole s : unix_timestamp (s * NANOS) = s.
Proof. unfold unix_timestamp. by apply Z.div_mul. Qed.

Lemma unix_timestamp_fraction s f : 0 <= f < NANOS -> unix_timestamp (s * NANOS + f) = s.
Proof. intros Hf. unfold unix_timestamp. rewrite Z.div_add_l by done. rewrite Z.div_small by done. lia. Qed.

Lemma rows_of_elem `{Countable K} {A} (m : gmap K A) x : x ∈ rows_of m <-> exists k, m !! k = Some x.
Proof.
  unfold rows_of. rewrite list_elem_of_fmap. split.
  - intros ([k y] & -> & Hk). exists k. by apply elem_of_map_to_list.
  - intros [k Hk]. exists (k, x). by rewrite elem_of_map_to_list.
Qed.

(** A whole second is in a window of whole seconds exactly if its text is. *)
Lemma window_whole `{!TimeLaws, !TimeOrderLaws} a b s :
  in_years a -> in_years b -> in_years s ->
  sql_window (rfc3339_format (a * NANOS)) (rfc3339_format (b * NANOS)) (rfc3339_format (s * NANOS))
  = (a <=? s) && (s <? b).
Proof.
  intros Ha Hb Hs. unfold sql_window, sql_le. rewrite !rfc3339_whole_order by done.
  by rewrite <- Z.leb_antisym.
Qed.

(** A second with a fraction is in a window of whole seconds if it is after its
    first second, or in its first second after the end. *)
Lemma window_fraction `{!TimeLaws, !TimeOrderLaws} a b s f :
  in_years a -> in_years b -> in_years s -> 0 < f < NANOS ->
  sql_window (rfc3339_format (a * NANOS)) (rfc3339_format (b * NANOS))
             (rfc3339_format (s * NANOS + f)) = (a <? s) && (s <=? b).
Proof.
  intros Ha Hb Hs Hf. unfold sql_window, sql_le. rewrite !rfc3339_fraction_order by done.
  by rewrite <- Z.ltb_antisym.
Qed.

(** ** Status of the slots *)

(** The rows are stored under their keys. *)
Definition history_keyed (d : HealthDb) : Prop :=
  map_Forall (fun k r => k = (hh_evaluation_id r, hs_node_id (hh_snapshot r))) (hd_history d).

Definition in_slot (k : Z) (r : HealthHistoryRecord) : bool := bool_decide (slot_of r = Some k).

(** The status of the last evaluation of a list in a slot. *)
Definition last_status (k : Z) (history : list HealthHistoryRecord) : option nat :=
  r ← last (List.filter (in_slot k) history);
  rollup_status_index (hs_status (hh_snapshot r)).

(** The status of the last stored evaluation of a node in a slot. *)
Definition slot_status (d : HealthDb) (node : string) (k : Z) : option nat :=
  last_status k (sort_by history_order
    (List.filter (fun r => String.eqb (hs_node_id (hh_snapshot r)) node) (rows_of (hd_history d)))).

Lemma status_by_slot_lookup history : forall slots result k,
  status_by_slot slots history = Ok result ->
  result !! k = match last (List.filter (in_slot k) history) with
                | Some _ => last_status k history
                | None => slots !! k
                end.
Proof.
  induction history as [|r history IH]; intros slots result k Hs; simpl in Hs; [by simplify_eq|].
  destruct (rollup_status_index _) as [i|] eqn:Hi; [|done]. simpl in Hs.
  destruct (rfc3339_parse _) as [t|] eqn:Ht; [|done]. simpl in Hs.
  assert (Hslot : slot_of r = Some (unix_timestamp t / 300)) by (unfold slot_of; by rewrite Ht).
  rewrite (IH _ _ k Hs). unfold last_status. cbn [List.filter].
  destruct (in_slot k r) eqn:Hk; unfold in_slot in Hk; bool_facts.
  - rewrite last_cons. destruct (last (List.filter _ history)) eqn:Hl; [done|]. simpl.
    rewrite Hslot in Hk. injection Hk as ->. by rewrite lookup_insert_eq, Hi.
  - destruct (last (List.filter _ history)) eqn:Hl; [done|].
    apply lookup_insert_ne. intros E. apply Hk. by rewrite Hslot, E.
Qed.

(** Counting the values of a map over a list that has all its keys. *)
Lemma slots_with_count (slots : gmap Z nat) ks j :
  NoDup ks -> (forall k, k ∈ dom slots -> k ∈ ks) ->
  slots_with slots j
  = Z.of_nat (length (List.filter (fun k => bool_decide (slots !! k = Some j)) ks)).
Proof.
  intros Hnd Hks. unfold slots_with, rows_of. f_equal.
  assert (Hl : length (List.filter (Nat.eqb j) (map snd (map_to_list slots)))
               = length (map fst (List.filter (fun e => Nat.eqb j e.2) (map_to_list slots)))).
  { rewrite length_map. generalize (map_to_list slots). intros l.
    induction l as [|e l IH]; simpl; [done|]. destruct (Nat.eqb j e.2); simpl; lia. }
  rewrite Hl. apply Permutation_length, NoDup_Permutation.
  - apply filter_keys. apply NoDup_fst_map_to_list.
  - assert (Hf := filter_keys (fun k : Z => k) (fun k => bool_decide (slots !! k = Some j)) ks).
    rewrite !map_id in Hf. by apply Hf.
  - intros k. rewrite list_elem_of_fmap, !list_elem_of_In, filter_In, bool_decide_eq_true,
      <- list_elem_of_In. split.
    + intros ([k' i] & -> & [Hin Hj]%list_elem_of_In%filter_In). simpl in *.
      apply Nat.eqb_eq in Hj as ->. apply list_elem_of_In, elem_of_map_to_list in Hin.
      split; [|done]. apply Hks, elem_of_dom. eauto.
    + intros [_ Hk]. exists (k, j). split; [done|]. apply list_elem_of_In, filter_In. simpl.
      rewrite Nat.eqb_refl. split; [|done]. by apply list_elem_of_In, elem_of_map_to_list.
Qed.

(** ** The rows of a refresh *)

Section rows.
Context `{!ZonedTimeLaws, !TimeLaws, !TimeOrderLaws, !Blake3Laws}.

Lemma zoned_format_seconds s x :
  zoned_format (odt_add (utc_seconds s) x) = rfc3339_format ((s + x) * NANOS).
Proof.
  rewrite <- zoned_format_utc. f_equal. unfold odt_add, utc_seconds, odt_utc. simpl. f_equal. lia.
Qed.

Lemma odt_add_twice t x y : odt_add (odt_add t x) y = odt_add t (x + y).
Proof. unfold odt_add. simpl. f_equal. lia. Qed.

Lemma rollup_row_parts d from bs i node r :
  rollup_row d (utc_seconds from) bs (i, node) = Ok r ->
  let start := from + i * bs in
  let st := rfc3339_format (start * NANOS) in
  let en := rfc3339_format ((start + bs) * NANOS) in
  exists src, health_rollup_source d node (zoned_format (utc_seconds start))
                (zoned_format (utc_seconds (start + bs))) = Ok src /\
    build_health_rollup node bs st en src = Ok r.
Proof.
  unfold rollup_row. cbn [fst snd]. rewrite odt_add_twice, !zoned_format_seconds.
  intros Hr. peel_in Hr. unwrap. unfold utc_seconds. rewrite !zoned_format_utc.
  rewrite <- Z.add_assoc. eauto.
Qed.

(** What the window of a bucket selects of evaluations at whole seconds. *)
Lemma history_in_whole d node start bs r :
  whole_second_history d -> r ∈ rows_of (hd_history d) ->
  in_years start -> in_years (start + bs) -> (300 | start) -> bucket_size bs ->
  exists s, slot_of r = Some (s / 300) /\
    history_in node (zoned_format (utc_seconds start)) (zoned_format (utc_seconds (start + bs))) r
    = String.eqb (hs_node_id (hh_snapshot r)) node
      && bool_decide (start / 300 <= s / 300 < start / 300 + bs / 300).
Proof.
  intros Hw [k Hk]%rows_of_elem Hs He [q ->] Hbs. destruct (Hw _ _ Hk) as (s & Hy & Ht).
  exists s. unfold slot_of, history_in, utc_seconds.
  rewrite !zoned_format_utc, Ht, window_whole by done.
  rewrite rfc3339_parse_format. simpl. rewrite unix_timestamp_whole. split; [done|]. f_equal.
  apply Bool.eq_true_iff_eq. rewrite andb_true_iff, bool_decide_eq_true, Z.leb_le, Z.ltb_lt.
  rewrite Z.div_mul by done. pose proof (Z.div_mod s 300 ltac:(done)).
  pose proof (Z.mod_pos_bound s 300 ltac:(done)).
  destruct Hbs as [-> | [-> | ->]]; [change (300 / 300) with 1|change (3600 / 300) with 12|
    change (86400 / 300) with 288]; lia.
Qed.

Lemma history_keys_distinct d node :
  history_keyed d ->
  NoDup (map history_order
    (List.filter (fun r => String.eqb (hs_node_id (hh_snapshot r)) node) (rows_of (hd_history d)))).
Proof.
  intros Hk.
  assert (Hpk : NoDup (map (fun r => (hh_evaluation_id r, hs_node_id (hh_snapshot r)))
                           (rows_of (hd_history d)))).
  { unfold rows_of. rewrite map_map.
    rewrite (map_ext_in _ fst); [apply NoDup_fst_map_to_list|].
    intros [k r] Hin. apply list_elem_of_In, elem_of_map_to_list in Hin. symmetry. exact (Hk _ _ Hin). }
  revert Hpk. generalize (rows_of (hd_history d)). intros l Hl.
  apply (NoDup_finer (fun r => hh_evaluation_id r)); [by intros x y [= _ He]|].
  induction l as [|r l IH]; [constructor|]. cbn [map] in Hl. apply NoDup_cons in Hl as [Hn Hl].
  cbn [List.filter]. destruct (String.eqb _ node) eqn:E; [|by apply IH]. cbn [map].
  apply NoDup_cons. split; [|by apply IH]. intros (y & Hy & Hin)%list_elem_of_fmap.
  apply list_elem_of_In, filter_In in Hin as [Hin Hyn]. bool_facts. apply Hn.
  apply list_elem_of_fmap. exists y. split; [congruence|by apply list_elem_of_In].
Qed.

Lemma filter_nested {A} (p q1 q2 : A -> bool) l :
  (forall x, x ∈ l -> p x = true -> q1 x = q2 x) ->
  List.filter p (List.filter q1 l) = List.filter p (List.filter q2 l).
Proof.
  induction l as [|x l IH]; intros Hq; [done|].
  assert (Hl : forall y, y ∈ l -> p y = true -> q1 y = q2 y)
    by (intros y Hy; apply Hq, elem_of_cons; auto).
  specialize (IH Hl). cbn [List.filter]. destruct (p x) eqn:Hp.
  - rewrite (Hq x ltac:(apply elem_of_cons; auto) Hp). destruct (q2 x); cbn [List.filter]; by rewrite ?Hp, IH.
  - destruct (q1 x), (q2 x); cbn [List.filter]; by rewrite ?Hp, IH.
Qed.

Lemma slots_seen_within history a n :
  0 <= n -> (forall r, r ∈ history -> exists k, slot_of r = Some k /\ a <= k < a + n) ->
  slots_seen history <= n.
Proof.
  intros Hn Hin. unfold slots_seen.
  assert (Hsub : list_to_set (omap slot_of history) ⊆ (list_to_set (seqZ a n) : gset Z)).
  { intros k. rewrite !elem_of_list_to_set, elem_of_seqZ. intros (r & Hr & Hk)%list_elem_of_omap.
    destruct (Hin r Hr) as (k' & Hk' & Hb). rewrite Hk in Hk'. by simplify_eq. }
  apply subseteq_size in Hsub. rewrite (size_list_to_set (seqZ a n)) in Hsub by apply NoDup_seqZ.
  rewrite length_seqZ in Hsub. lia.
Qed.

(** The buckets that have the last evaluation of a slot with a given status. *)
Definition slots_in_status (d : HealthDb) (node : string) (start n : Z) (j : nat) : Z :=
  Z.of_nat (length (List.filter (fun k => bool_decide (slot_status d node k = Some j))
                                (seqZ start n))).

Definition rollup_status_counts (r : HealthRollupRecord) : list Z :=
  [ru_healthy_count r; ru_degraded_count r; ru_unreachable_count r; ru_stale_count r;
   ru_disabled_count r; ru_unknown_count r].

(** A digest is a 64-character hexadecimal text. *)
Lemma blake3_json_hex v field : validate_sha256_hex (blake3_json v) field = Ok tt.
Proof.
  unfold validate_sha256_hex, blake3_json. rewrite str_len_hex_lower, blake3_length.
  replace (negb (2 * Z.of_nat 32 =? 64)) with false by done.
  rewrite (proj2 (forallb_forall _ _)); [done|]. intros b Hb.
  pose proof (proj1 (forallb_forall _ _) (hex_lower_digits _ (blake3_bytes (json_bytes v))) b Hb) as Hx.
  cbn beta in Hx. by bool_facts.
Qed.

(** The store takes a built row exactly if its slots fit the bucket. *)
Lemma built_row_checked d node start bs src r seen :
  bucket_size bs ->
  health_rollup_source d node (zoned_format (utc_seconds start))
    (zoned_format (utc_seconds (start + bs))) = Ok src ->
  build_health_rollup node bs (rfc3339_format (start * NANOS))
    (rfc3339_format ((start + bs) * NANOS)) src = Ok r ->
  rollup_pk r ∉ seen ->
  validate_rollup seen r
  = if bs / 300 <? slots_seen (src_history src)
    then Err (InvalidInput "health rollup counters are inconsistent") else Ok tt.
Proof.
  intros Hbs Hs Hb Hseen. apply rollup_source_spec in Hs as (Hn & Hlt & _ & Hl1 & Hl2).
  pose proof (build_rollup_counters _ _ _ _ _ _ Hb Hl1 Hl2) as Hc.
  unfold build_health_rollup in Hb. destruct (status_by_slot ∅ _) as [slots|]; [|done].
  assert (Hf : ru_node_id r = node /\ ru_bucket_seconds r = bs
    /\ ru_bucket_start r = rfc3339_format (start * NANOS)
    /\ ru_bucket_end r = rfc3339_format ((start + bs) * NANOS)
    /\ ru_computed_at r = rfc3339_format ((start + bs) * NANOS)
    /\ ru_input_watermark r = rollup_watermark src) by (by injection Hb as <-).
  destruct Hf as (E1 & E2 & E3 & E4 & E5 & E6).
  unfold validate_rollup. rewrite Hc, E1, E2, E3, E4, E5, E6, Hn.
  unfold rollup_watermark. rewrite blake3_json_hex. unfold validate_health_rollup_bucket.
  replace ((bs =? 300) || (bs =? 3600) || (bs =? 86400)) with true
    by (destruct Hbs as [-> | [-> | ->]]; done).
  unfold normalize_half_open_window, validate_rfc3339. rewrite <- !zoned_format_utc, !zoned_parse_format.
  cbn [ok_or odt_instant odt_utc]. rewrite (proj2 (Z.leb_gt _ _)) by (simpl in Hlt; lia).
  cbn [fst snd]. rewrite !String.eqb_refl, !zoned_format_utc, !rfc3339_parse_format. cbn [ok_or negb orb].
  replace (Z.quot ((start + bs) * NANOS - start * NANOS) 1000000000) with bs
    by (rewrite <- Z.mul_sub_distr_r, Z.add_simpl_l; symmetry; by apply Z.quot_mul).
  rewrite Z.eqb_refl, bool_decide_false by done. cbn [negb]. by case_match.
Qed.

Section bucket.
Context (d : HealthDb) (node : string) (start bs : Z).
Context (Hwhole : whole_second_history d) (Hkeyed : history_keyed d).
Context (Hstart : in_years start) (Hend : in_years (start + bs)).
Context (Haligned : (300 | start)) (Hbs : bucket_size bs).

Let window := history_in node (zoned_format (utc_seconds start))
                              (zoned_format (utc_seconds (start + bs))).
Let rows := rows_of (hd_history d).
Let of_node (r : HealthHistoryRecord) : bool := String.eqb (hs_node_id (hh_snapshot r)) node.

Lemma bucket_slots r :
  r ∈ sort_by history_order (List.filter window rows) ->
  exists k, slot_of r = Some k /\ start / 300 <= k < start / 300 + bs / 300.
Proof.
  rewrite sort_by_elem, list_elem_of_In. intros [Hin Hw]%filter_In.
  apply list_elem_of_In in Hin.
  destruct (history_in_whole d node start bs r) as (s & Hs & Hh); [done..|].
  exists (s / 300). split; [done|]. fold window in Hh. rewrite Hh in Hw. by bool_facts.
Qed.

Lemma window_keys_distinct : NoDup (map history_order (List.filter window rows)).
Proof.
  assert (E : List.filter window rows = List.filter window (List.filter of_node rows)).
  { rewrite <- filter_both. apply filter_ext. intros r. unfold window, history_in, of_node.
    by destruct (String.eqb _ _), (sql_window _ _ _). }
  rewrite E. apply filter_keys. by apply history_keys_distinct.
Qed.

(** Within the bucket, the source decides the slots as the stored evaluations
    do. *)
Lemma bucket_last_status k :
  start / 300 <= k < start / 300 + bs / 300 ->
  last_status k (sort_by history_order (List.filter window rows)) = slot_status d node k.
Proof.
  intros Hk. unfold slot_status, last_status. fold rows. fold of_node.
  rewrite <- !sort_by_filter by (apply window_keys_distinct || by apply history_keys_distinct).
  f_equal. f_equal. f_equal. apply filter_nested. intros r Hr Hs. unfold in_slot in Hs. bool_facts.
  destruct (history_in_whole d node start bs r) as (s & Hs' & Hh); [done..|].
  fold window in Hh. rewrite Hh. unfold of_node. rewrite bool_decide_true; [apply andb_true_r|].
  rewrite Hs in Hs'. simplify_eq. lia.
Qed.

Lemma rollup_row_status src st en r :
  health_rollup_source d node (zoned_format (utc_seconds start))
    (zoned_format (utc_seconds (start + bs))) = Ok src ->
  build_health_rollup node bs st en src = Ok r ->
  rollup_status_counts r
  = map (slots_in_status d node (start / 300) (bs / 300)) [0; 1; 2; 3; 4; 5]%nat.
Proof.
  intros Hs Hb. apply rollup_source_spec in Hs as (_ & _ & Hh & _ & _). fold window rows in Hh.
  unfold build_health_rollup in Hb.
  destruct (status_by_slot ∅ _) as [slots|] eqn:Hsl; [|done]. simplify_eq.
  assert (Hc : forall j, slots_with slots j = slots_in_status d node (start / 300) (bs / 300) j).
  { intros j. rewrite (slots_with_count slots (seqZ (start / 300) (bs / 300)));
      [|apply NoDup_seqZ|].
    - unfold slots_in_status. f_equal. f_equal. apply filter_ext_in. intros k Hk.
      apply list_elem_of_In, elem_of_seqZ in Hk.
      rewrite (status_by_slot_lookup _ _ _ k Hsl), Hh, <- bucket_last_status by lia.
      unfold last_status. by destruct (last _).
    - intros k Hk. apply status_by_slot_spec in Hsl as [Hd _]. rewrite Hd in Hk.
      apply elem_of_union in Hk as [Hk|Hk]; [by rewrite dom_empty in Hk; set_solver|].
      apply elem_of_list_to_set, list_elem_of_omap in Hk as (h & Hin & Hsk).
      rewrite Hh in Hin. destruct (bucket_slots h Hin) as (k' & Hk' & Hb).
      rewrite Hsk in Hk'. simplify_eq. apply elem_of_seqZ. lia. }
  unfold rollup_status_counts. simpl. by rewrite !Hc.
Qed.

Lemma bucket_seen src :
  health_rollup_source d node (zoned_format (utc_seconds start))
    (zoned_format (utc_seconds (start + bs))) = Ok src ->
  slots_seen (src_history src) <= bs / 300.
Proof.
  intros Hs. apply rollup_source_spec in Hs as (_ & _ & Hh & _ & _). fold window rows in Hh.
  apply (slots_seen_within _ (start / 300)).
  - pose proof (bucket_size_slots bs Hbs). lia.
  - intros r. rewrite Hh. apply bucket_slots.
Qed.
End bucket.
End rows.
End rollups.
