(* ===== verification/HealthRuns.v ===== *)
(** * HealthRuns: the evaluation runs over time

    A database is reached by the operations on the health tables in any order.
    In a reached one every run that has ended was ended by exactly one audited
    operation, a completed run has exactly the history rows it counts, and what
    is in the history stays there. *)

From S2P Require Import Prelude Text External Wire AgentConfig InputValidation StoreTypes.
From S2P Require Import StoredText StoragePayloads StoreDb Enrollment ObservationPayloads.
From S2P Require Import AlertWebhook SchedulerStore NodeMetadata AlertQueue Ordering Slo.
From S2P Require Import ApiPayloads ApiStore StoreLemmas HealthStore Health HealthRollups.

(** ** Events of a run *)

Definition end_events : list string :=
  ["health.evaluation.finish"; "health.evaluation.fail"; "health.evaluation.recover"].
Definition start_events : list string := ["health.evaluation.start"].

(** The events of a kind about one request. *)
Definition events_of (kinds : list string) (id : string) (audit : list AuditEvent)
    : list AuditEvent :=
  List.filter (fun e => bool_decide (ae_request_id e = Some id) && str_in_list (ae_event e) kinds)
              audit.

(** The history rows of an evaluation. *)
Definition rows_of_evaluation (d : HealthDb) (id : string) : list HealthHistoryRecord :=
  List.filter (fun r => String.eqb (hh_evaluation_id r) id) (rows_of (hd_history d)).

(** The [CHECK] of the table. *)
Definition run_check (r : HealthEvaluationRunRecord) : Prop :=
  (er_status r = "running" /\ er_finished_at r = None /\ er_failure_code r = None /\
   er_snapshot_count r = 0) \/
  (er_status r = "completed" /\ is_Some (er_finished_at r) /\ er_failure_code r = None) \/
  (er_status r = "failed" /\ is_Some (er_finished_at r) /\ is_Some (er_failure_code r) /\
   er_snapshot_count r = 0).

(** What is recorded about an identifier. *)
Record recorded (d : HealthDb) (id : string) : Prop := {
  rc_run : forall r, hd_runs d !! id = Some r -> er_evaluation_id r = id /\ run_check r;
  rc_started : length (events_of start_events id (db_audit (hd_core d)))
               = match hd_runs d !! id with Some _ => 1%nat | None => 0%nat end;
  rc_ended : length (events_of end_events id (db_audit (hd_core d)))
             = match hd_runs d !! id with
               | Some r => if is_running r then 0%nat else 1%nat
               | None => 0%nat
               end;
  rc_rows : forall r, hd_runs d !! id = Some r ->
            Z.of_nat (length (rows_of_evaluation d id)) = er_snapshot_count r;
}.

Record health_ok (d : HealthDb) : Prop := {
  ho_keyed : history_keyed d;
  ho_recorded : forall id, recorded d id;
}.

Section runs.
Context `{EndpointIdOps, TimeOps, ZonedTimeOps, JsonOps, JsonBytes, DigestOps, Blake3Ops}.

(** ** Steps *)

(** An event of another part of the program. *)
Definition other_event (e : AuditEvent) : bool :=
  negb (str_in_list (ae_event e) (start_events ++ end_events)).

(** One operation; [step_other] is any operation of another part.  An
    identifier that names a new run has not been used for an interactive
    evaluation: both are UUIDs. *)
Inductive health_step (d : HealthDb) : HealthDb -> Prop :=
| step_start env s actor :
    (hd_runs d !! es_evaluation_id s = None -> rows_of_evaluation d (es_evaluation_id s) = []) ->
    health_step d (write_health_evaluation_start env d s actor).1
| step_finish env f actor : health_step d (write_health_evaluation_finish env d f actor).1
| step_failure env f actor : health_step d (write_health_evaluation_failure env d f actor).1
| step_recovery env cutoff recovered_at actor :
    health_step d (write_health_evaluation_recovery env d cutoff recovered_at actor).1
| step_snapshots env w actor : health_step d (write_health_snapshots env d w actor).1
| step_rollups env w actor : health_step d (write_health_rollups env d w actor).1
| step_policy env p actor : health_step d (set_health_policy env d p actor).1
| step_other d' events :
    hd_runs d' = hd_runs d -> hd_history d' = hd_history d ->
    db_audit (hd_core d') = db_audit (hd_core d) ++ events -> forallb other_event events = true ->
    health_step d d'.

Inductive health_reached : HealthDb -> Prop :=
| reached_empty d :
    hd_runs d = ∅ -> hd_history d = ∅ -> forallb other_event (db_audit (hd_core d)) = true ->
    health_reached d
| reached_step d d' : health_reached d -> health_step d d' -> health_reached d'.

(** ** Frames *)

(** The audit log grew by one event about a request, nothing else changed. *)
Lemma health_audit_ok d e d' :
  health_audit d e = Ok d' ->
  exists e', d' = set_health_core (set_audit (db_audit (hd_core d) ++ [e']) (hd_core d)) d /\
    ae_event e' = ae_event e /\ ae_request_id e' = ae_request_id e /\ ae_actor e' = ae_actor e.
Proof.
  unfold health_audit. intros Ha. destruct (insert_audit_tx _ e) as [c|err] eqn:Hc; [|done].
  apply insert_audit_frame in Hc as (log & -> & p & _ & ->). simplify_eq. eexists. by split_and!.
Qed.

Lemma health_transact_ok {D A} (d : D) (body : result StoreError (D * A)) P :
  P d -> (forall d' a, body = Ok (d', a) -> P d') -> P (transact d body).1.
Proof. intros Hd Hb. unfold transact. destruct body as [[d' a]|e]; [by apply (Hb d' a)|done]. Qed.

Lemma upsert_snapshot_ok d s d' :
  upsert_health_snapshot_tx d s = Ok d' ->
  d' = set_snapshots (<[hs_node_id s := s]> (hd_snapshots d)) d.
Proof. unfold upsert_health_snapshot_tx. intros Hu. by peel Hu. Qed.

Lemma insert_history_ok d id s d' :
  insert_health_history_tx d id s = Ok d' ->
  hd_history d !! (id, hs_node_id s) = None /\
  d' = set_history (<[(id, hs_node_id s) := {| hh_evaluation_id := id; hh_snapshot := s |}]>
                      (hd_history d)) d.
Proof. unfold insert_health_history_tx, history_pk. intros Hi. by peel Hi. Qed.

(** Tables after storing snapshots: the runs and the log are as before, the
    history has one new row per snapshot. *)
Lemma store_snapshots_ok l : forall d id d',
  store_snapshots d id l = Ok d' -> history_keyed d ->
  hd_runs d' = hd_runs d /\ hd_core d' = hd_core d /\ hd_sched d' = hd_sched d /\
  hd_policy d' = hd_policy d /\
  history_keyed d' /\ hd_history d ⊆ hd_history d' /\
  (forall x, length (rows_of_evaluation d' x)
             = (length (rows_of_evaluation d x) + if String.eqb x id then length l else 0)%nat).
Proof.
  induction l as [|s l IH]; intros d id d' Hs Hk; cbn [store_snapshots] in Hs.
  { simplify_eq. split_and!; try done. intros x. destruct (String.eqb x id); simpl; lia. }
  destruct (upsert_health_snapshot_tx d s) as [d1|] eqn:E1; [|done].
  apply upsert_snapshot_ok in E1 as ->.
  destruct (insert_health_history_tx _ id s) as [d2|] eqn:E2; [|done].
  apply insert_history_ok in E2 as [Hnew ->]. simpl in Hnew.
  eapply IH in Hs as (Hr & Hc & Hsc & Hp & Hk' & Hsub & Hlen).
  2:{ intros k r. simpl. rewrite lookup_insert_Some.
      intros [[<- <-]|[_ Hl]]; [done|exact (Hk _ _ Hl)]. }
  split_and!; [done..| |].
  - etrans; [|exact Hsub]. simpl. by apply insert_subseteq.
  - intros x. rewrite Hlen. unfold rows_of_evaluation, rows_of. simpl.
    rewrite (Permutation_length (filter_perm _ _ _
      (Permutation_map snd (map_to_list_insert _ _ _ Hnew)))). simpl.
    rewrite (String.eqb_sym id x). destruct (String.eqb x id); simpl; lia.
Qed.

(** ** What an operation keeps *)

(** The history grows, and a run that has ended does not change. *)
Definition extends (d d' : HealthDb) : Prop :=
  hd_history d ⊆ hd_history d' /\
  (forall id r, hd_runs d !! id = Some r -> is_running r = false -> hd_runs d' !! id = Some r).

Lemma extends_refl d : extends d d.
Proof. by split. Qed.

Lemma extends_trans d1 d2 d3 : extends d1 d2 -> extends d2 d3 -> extends d1 d3.
Proof. intros [Hh1 Hr1] [Hh2 Hr2]. split; [by etrans|eauto]. Qed.

Lemma events_of_snoc kinds id audit e :
  length (events_of kinds id (audit ++ [e]))
  = (length (events_of kinds id audit)
     + if bool_decide (ae_request_id e = Some id) && str_in_list (ae_event e) kinds
       then 1 else 0)%nat.
Proof.
  unfold events_of. rewrite List.filter_app, length_app. cbn [List.filter].
  by destruct (bool_decide _ && str_in_list _ kinds).
Qed.

Lemma events_of_other kinds id audit events :
  (forall k, k ∈ kinds -> k ∈ start_events ++ end_events) -> forallb other_event events = true ->
  events_of kinds id (audit ++ events) = events_of kinds id audit.
Proof.
  intros Hk Ho. unfold events_of. rewrite List.filter_app.
  enough (E : List.filter (fun e => bool_decide (ae_request_id e = Some id)
                                    && str_in_list (ae_event e) kinds) events = [])
    by (by rewrite E, app_nil_r).
  induction events as [|e events IH]; [done|]. cbn [forallb] in Ho. bool_facts. cbn [List.filter].
  rewrite IH by done. destruct (bool_decide _ && str_in_list _ kinds) eqn:E; [|done]. bool_facts.
  unfold other_event, str_in_list in *. bool_facts.
  match goal with H : existsb _ kinds = true |- _ =>
    apply existsb_exists in H as (k & Hin & Hke) end. bool_facts. subst k.
  assert (Hx : existsb (String.eqb (ae_event e)) (start_events ++ end_events) = true).
  { apply existsb_exists. exists (ae_event e). split; [|apply String.eqb_refl].
    apply list_elem_of_In, Hk. by apply list_elem_of_In. }
  congruence.
Qed.

(** An operation that leaves runs and history alone. *)
Lemma other_step d d' events :
  health_ok d -> hd_runs d' = hd_runs d -> hd_history d' = hd_history d ->
  db_audit (hd_core d') = db_audit (hd_core d) ++ events -> forallb other_event events = true ->
  health_ok d' /\ extends d d'.
Proof.
  intros [Hk Hr] Er Eh Ea Ho. split; [split|].
  - unfold history_keyed. by rewrite Eh.
  - intros id. destruct (Hr id) as [R1 R2 R3 R4]. split.
    + by rewrite Er.
    + rewrite Er, Ea, events_of_other by (done || set_solver). done.
    + rewrite Er, Ea, events_of_other by (done || set_solver). done.
    + unfold rows_of_evaluation. by rewrite Er, Eh.
  - split; [by rewrite Eh|by rewrite Er].
Qed.

(** The tables after an operation about one run. *)
Record run_step (d d' : HealthDb) (id : string) (run : HealthEvaluationRunRecord)
    (event : string) (rows : nat) : Prop := {
  st_runs : hd_runs d' = <[id := run]> (hd_runs d);
  st_keyed : history_keyed d';
  st_history : hd_history d ⊆ hd_history d';
  st_rows : forall x, length (rows_of_evaluation d' x)
                      = (length (rows_of_evaluation d x) + if String.eqb x id then rows else 0)%nat;
  st_audit : exists e, db_audit (hd_core d') = db_audit (hd_core d) ++ [e] /\
                       ae_request_id e = Some id /\ ae_event e = event;
}.

(** The other identifiers are recorded as before. *)
Lemma run_step_other d d' id run event rows x :
  run_step d d' id run event rows -> x <> id -> recorded d x -> recorded d' x.
Proof.
  intros [Er Ek Eh Ew (e & Ea & He & Hn)] Hx [R1 R2 R3 R4].
  assert (El : hd_runs d' !! x = hd_runs d !! x) by (by rewrite Er, lookup_insert_ne).
  split; rewrite ?El, ?Ea, ?events_of_snoc, ?He.
  - done.
  - rewrite bool_decide_false by congruence. simpl. lia.
  - rewrite bool_decide_false by congruence. simpl. lia.
  - intros r Hr. rewrite Ew, (proj2 (String.eqb_neq x id)) by done.
    rewrite <- (R4 r Hr). f_equal. lia.
Qed.

(** A run that has not ended has no rows and no failure. *)
Lemma running_run run :
  run_check run -> is_running run = true -> er_snapshot_count run = 0 /\ er_failure_code run = None.
Proof.
  intros Hc Hr. unfold is_running in Hr. bool_facts.
  destruct Hc as [(_ & _ & ? & ?)|[(Hx & _)|(Hx & _)]]; [done|congruence..].
Qed.

Lemma start_step d d' id run :
  health_ok d -> run_step d d' id run "health.evaluation.start" 0 -> hd_runs d !! id = None ->
  rows_of_evaluation d id = [] -> er_evaluation_id run = id -> run_check run ->
  is_running run = true -> health_ok d' /\ extends d d'.
Proof.
  intros [Hk Hr] Hst Hnone Hrows Hid Hcheck Hrun. destruct (Hr id) as [_ R2 R3 _].
  pose proof Hst as [Er Ek Eh Ew (e & Ea & He & Hn)]. rewrite Hnone in R2, R3.
  destruct (running_run run Hcheck Hrun) as [Hc0 _].
  split; [split|split]; [done| |done|].
  - intros x. destruct (decide (x = id)) as [->|Hx]; [|by eapply run_step_other].
    assert (El : hd_runs d' !! id = Some run) by (by rewrite Er, lookup_insert_eq).
    split; rewrite ?El, ?Ea, ?events_of_snoc, ?He, ?Hn, ?bool_decide_true by done.
    + intros r Hrr. by simplify_eq.
    + cbn [str_in_list existsb start_events]. by rewrite R2.
    + rewrite Hrun, R3. done.
    + intros r Hrr. simplify_eq. rewrite Ew, Hrows, String.eqb_refl. simpl. lia.
  - intros x r Hx _. rewrite Er. rewrite lookup_insert_ne; [done|]. congruence.
Qed.

Lemma end_step d d' id run run' event rows :
  health_ok d -> run_step d d' id run' event rows -> hd_runs d !! id = Some run ->
  is_running run = true -> event ∈ end_events -> er_evaluation_id run' = id -> run_check run' ->
  is_running run' = false -> er_snapshot_count run' = Z.of_nat rows ->
  health_ok d' /\ extends d d'.
Proof.
  intros [Hk Hr] Hst Hrun Hrunning Hev Hid Hcheck Hended Hcount.
  pose proof Hst as [Er Ek Eh Ew (e & Ea & He & Hn)].
  destruct (Hr id) as [R1 R2 R3 R4]. destruct (R1 run Hrun) as [_ Hc]. specialize (R4 run Hrun).
  rewrite Hrun in R2, R3. rewrite Hrunning in R3.
  destruct (running_run run Hc Hrunning) as [Hc0 _].
  assert (Hes : str_in_list event start_events = false /\ str_in_list event end_events = true).
  { unfold end_events in *. rewrite !elem_of_cons, elem_of_nil in Hev.
    destruct Hev as [-> | [-> | [-> | []]]]; done. }
  destruct Hes as [Hes1 Hes2].
  split; [split|split]; [done| |done|].
  - intros x. destruct (decide (x = id)) as [->|Hx]; [|by eapply run_step_other].
    assert (El : hd_runs d' !! id = Some run') by (by rewrite Er, lookup_insert_eq).
    split; rewrite ?El, ?Ea, ?events_of_snoc, ?He, ?Hn, ?Hes1, ?Hes2, ?bool_decide_true by done.
    + intros r Hrr. by simplify_eq.
    + cbn [andb]. lia.
    + rewrite Hended, R3. done.
    + intros r Hrr. simplify_eq. rewrite Ew, String.eqb_refl. lia.
  - intros x r Hx Hnr. rewrite Er. rewrite lookup_insert_ne; [done|]. congruence.
Qed.

(** ** The operations *)

Lemma evaluation_audit_ok env d actor event id ok code n d' :
  insert_health_evaluation_audit_tx env d actor event id ok code n = Ok d' ->
  exists e, d' = set_health_core (set_audit (db_audit (hd_core d) ++ [e]) (hd_core d)) d /\
    ae_event e = event /\ ae_request_id e = Some id /\ ae_actor e = actor.
Proof. intros Ha. by apply health_audit_ok in Ha. Qed.

(** A run set and audited, after storing rows. *)
Lemma audited_run_step env d d1 d' id run actor event ok code n rows :
  hd_runs d1 = <[id := run]> (hd_runs d) -> history_keyed d1 -> hd_history d ⊆ hd_history d1 ->
  hd_core d1 = hd_core d ->
  (forall x, length (rows_of_evaluation d1 x)
             = (length (rows_of_evaluation d x) + if String.eqb x id then rows else 0)%nat) ->
  insert_health_evaluation_audit_tx env d1 actor event id ok code n = Ok d' ->
  run_step d d' id run event rows.
Proof.
  intros Er Ek Eh Ec Ew Ha. apply evaluation_audit_ok in Ha as (e & -> & He & Hi & _).
  split; try done. exists e. simpl. by rewrite <- Ec.
Qed.

Lemma same_rows d1 d2 id n :
  hd_history d1 = hd_history d2 -> n = 0%nat ->
  forall x, length (rows_of_evaluation d1 x)
            = (length (rows_of_evaluation d2 x) + if String.eqb x id then n else 0)%nat.
Proof. intros E -> x. unfold rows_of_evaluation. rewrite E. destruct (String.eqb x id); lia. Qed.

Lemma start_preserves env d s actor :
  health_ok d ->
  (hd_runs d !! es_evaluation_id s = None -> rows_of_evaluation d (es_evaluation_id s) = []) ->
  health_ok (write_health_evaluation_start env d s actor).1 /\
  extends d (write_health_evaluation_start env d s actor).1.
Proof.
  intros Hok Hfresh. unfold write_health_evaluation_start.
  apply (health_transact_ok d _ (fun d' => health_ok d' /\ extends d d')); [split; [done|apply extends_refl]|].
  intros d' [] Hb. destruct (map_err InvalidInput _); [|done].
  destruct (validate_health_evaluation_start s); [|done].
  destruct (optional_row _ (existing_run d s)) as [[run|]|] eqn:Hex; [| |done].
  { peel Hb. split; [done|apply extends_refl]. }
  assert (Hnone : hd_runs d !! es_evaluation_id s = None).
  { unfold existing_run in Hex. destruct (hd_runs d !! es_evaluation_id s); [|done].
    unfold optional_row in Hex. by peel Hex. }
  peel_in Hb. simplify_eq.
  match goal with H : insert_health_evaluation_audit_tx _ _ _ _ _ _ _ _ = Ok _ |- _ => rename H into Ha end.
  eapply start_step; [done| |done|by apply Hfresh| | |].
  - eapply (audited_run_step _ _ _ _ _ _ _ _ _ _ _ 0); [..|exact Ha]; [done|by destruct Hok|done|done|].
    by apply same_rows.
  - done.
  - left. by split_and!.
  - done.
Qed.

(** [UPDATE ... WHERE status = 'running']. *)
Lemma end_run_ok d id finished_at status count code d' :
  end_run d id finished_at status count code = Ok d' ->
  exists run, hd_runs d !! id = Some run /\ is_running run = true /\
    d' = set_eval_runs (<[id := with_run_outcome finished_at status
                                  (default (er_snapshot_count run) count)
                                  (option_or code (er_failure_code run)) run]> (hd_runs d)) d.
Proof. unfold end_run. intros He. peel He. eauto. Qed.

Lemma finish_preserves env d f actor :
  health_ok d ->
  health_ok (write_health_evaluation_finish env d f actor).1 /\
  extends d (write_health_evaluation_finish env d f actor).1.
Proof.
  intros Hok. unfold write_health_evaluation_finish.
  apply (health_transact_ok d _ (fun d' => health_ok d' /\ extends d d')); [split; [done|apply extends_refl]|].
  intros d' [] Hb. destruct (map_err InvalidInput _); [|done].
  destruct (validate_health_evaluation_finish f); [|done].
  destruct (validate_health_evaluation_finish_order_tx _ _ _); [|done].
  destruct (end_run _ _ _ _ _ _) as [d1|] eqn:He; [|done].
  apply end_run_ok in He as (run & Hrun & Hrunning & ->).
  destruct (store_snapshots _ _ _) as [d2|] eqn:Hs; [|done].
  apply store_snapshots_ok in Hs as (Sr & Sc & _ & _ & Sk & Sh & Sl); [|by destruct Hok].
  destruct (insert_health_evaluation_audit_tx _ _ _ _ _ _ _ _) as [d3|] eqn:Ha; [|done]. simplify_eq.
  destruct (rc_run _ _ (ho_recorded _ Hok (ef_evaluation_id f)) run Hrun) as [Hid Hc].
  pose proof (audited_run_step _ d _ _ _ _ _ _ _ _ _ _ Sr Sk Sh Sc Sl Ha) as Hst.
  apply (end_step _ _ _ run _ _ _ Hok Hst Hrun Hrunning); [|exact Hid| |done|done].
  - unfold end_events. set_solver.
  - right. left. destruct (running_run run Hc Hrunning) as [_ Hf].
    split_and!; [done|by eexists|]. simpl. by rewrite Hf.
Qed.

Lemma failure_preserves env d f actor :
  health_ok d ->
  health_ok (write_health_evaluation_failure env d f actor).1 /\
  extends d (write_health_evaluation_failure env d f actor).1.
Proof.
  intros Hok. unfold write_health_evaluation_failure.
  apply (health_transact_ok d _ (fun d' => health_ok d' /\ extends d d')); [split; [done|apply extends_refl]|].
  intros d' [] Hb. destruct (map_err InvalidInput _); [|done].
  destruct (validate_health_evaluation_failure f); [|done].
  destruct (validate_health_evaluation_finish_order_tx _ _ _); [|done].
  destruct (end_run _ _ _ _ _ _) as [d1|] eqn:He; [|done].
  apply end_run_ok in He as (run & Hrun & Hrunning & ->).
  destruct (insert_health_evaluation_audit_tx _ _ _ _ _ _ _ _) as [d3|] eqn:Ha; [|done]. simplify_eq.
  destruct (rc_run _ _ (ho_recorded _ Hok (ex_evaluation_id f)) run Hrun) as [Hid Hc].
  destruct (running_run run Hc Hrunning) as [Hc0 _].
  eapply audited_run_step in Ha as Hst; [|done|by destruct Hok|done|done|
    by apply (same_rows _ d _ 0)].
  apply (end_step _ _ _ run _ _ _ Hok Hst Hrun Hrunning); [|exact Hid| |done|done].
  - unfold end_events. set_solver.
  - right. right. split_and!; [done|by eexists|by eexists|done].
Qed.

Lemma recover_preserves env recovered_at actor ids : forall d d',
  recover_runs env d recovered_at actor ids = Ok d' -> health_ok d ->
  health_ok d' /\ extends d d'.
Proof.
  induction ids as [|id ids IH]; intros d d' Hr Hok; cbn [recover_runs] in Hr.
  { simplify_eq. split; [done|apply extends_refl]. }
  destruct (hd_runs d !! id) as [run|] eqn:Hrun; [|done]. cbn [ok_or] in Hr.
  destruct (is_running run) eqn:Hrunning; [|done].
  destruct (insert_health_evaluation_audit_tx _ _ _ _ _ _ _ _) as [d1|] eqn:Ha; [|done].
  destruct (rc_run _ _ (ho_recorded _ Hok id) run Hrun) as [Hid Hc].
  destruct (running_run run Hc Hrunning) as [Hc0 _].
  assert (Hstep : health_ok d1 /\ extends d d1).
  { eapply audited_run_step in Ha as Hst; [|done|by destruct Hok|done|done|
      by apply (same_rows _ d _ 0)].
    apply (end_step _ _ _ run _ _ _ Hok Hst Hrun Hrunning); [|exact Hid| |done|done].
    - unfold end_events. set_solver.
    - right. right. split_and!; [done|by eexists|by eexists|done]. }
  destruct Hstep as [Hok1 He1]. destruct (IH _ _ Hr Hok1) as [Hok' He'].
  split; [done|by eapply extends_trans].
Qed.

Lemma recovery_preserves env d cutoff recovered_at actor :
  health_ok d ->
  health_ok (write_health_evaluation_recovery env d cutoff recovered_at actor).1 /\
  extends d (write_health_evaluation_recovery env d cutoff recovered_at actor).1.
Proof.
  intros Hok. unfold write_health_evaluation_recovery.
  apply (health_transact_ok d _ (fun d' => health_ok d' /\ extends d d')); [split; [done|apply extends_refl]|].
  intros d' n Hb. peel_in Hb. simplify_eq. by eapply recover_preserves.
Qed.

(** Without an event about a request there is no run of that name. *)
Lemma unaudited_run d id :
  health_ok d ->
  List.filter (fun e => bool_decide (ae_request_id e = Some id)) (db_audit (hd_core d)) = [] ->
  hd_runs d !! id = None.
Proof.
  intros [_ Hr] Hf. destruct (Hr id) as [_ Hs _ _]. destruct (hd_runs d !! id); [|done].
  enough (E : events_of start_events id (db_audit (hd_core d)) = []) by (by rewrite E in Hs).
  unfold events_of. rewrite (filter_ext _ (fun e => str_in_list (ae_event e) start_events
    && bool_decide (ae_request_id e = Some id))) by (intros e; apply andb_comm).
  by rewrite filter_both, Hf.
Qed.

Lemma snapshots_preserve env d w actor :
  health_ok d ->
  health_ok (write_health_snapshots env d w actor).1 /\
  extends d (write_health_snapshots env d w actor).1.
Proof.
  intros Hok. unfold write_health_snapshots.
  apply (health_transact_ok d _ (fun d' => health_ok d' /\ extends d d')); [split; [done|apply extends_refl]|].
  intros d' [] Hb. destruct (map_err InvalidInput _); [|done].
  destruct (validate_health_snapshot_write w) eqn:Hv; [|done].
  destruct (health_snapshot_replay_tx _ _ _ _) as [[]|] eqn:Hrep; [| |done].
  { simplify_eq. split; [done|apply extends_refl]. }
  assert (Hnone : hd_runs d !! hw_evaluation_id w = None).
  { apply unaudited_run; [done|]. unfold health_snapshot_replay_tx, audit_request_replay_tx in Hrep.
    destruct (List.filter _ _) as [|e [|? ?]]; [done| |done]. by peel Hrep. }
  destruct (store_snapshots _ _ _) as [d1|] eqn:Hs; [|done].
  apply store_snapshots_ok in Hs as (Sr & Sc & _ & _ & Sk & Sh & Sl); [|by destruct Hok].
  destruct (health_audit _ _) as [d2|] eqn:Ha; [|done]. simplify_eq.
  apply health_audit_ok in Ha as (e & -> & He & _ & _). simpl in He.
  assert (Ho : forallb other_event [e] = true).
  { unfold validate_health_snapshot_write in Hv. peel_all Hv. cbn [forallb]. unfold other_event. rewrite He.
    match goal with H : str_in_list (hw_event w) _ = true |- _ => unfold str_in_list in H end.
    cbn [existsb] in *. destruct (String.eqb (hw_event w) "health.summary") eqn:E1; bool_facts;
    [by rewrite E1|]. destruct (String.eqb (hw_event w) "health.node") eqn:E2; bool_facts; [by rewrite E2|done]. }
  set (d' := set_health_core _ d1).
  assert (Er : hd_runs d' = hd_runs d) by exact Sr.
  assert (Ea : db_audit (hd_core d') = db_audit (hd_core d) ++ [e]) by (by rewrite <- Sc).
  split; [split|split]; [exact Sk| |exact Sh|intros x r Hx _; by rewrite Er].
  intros x. destruct (ho_recorded _ Hok x) as [R1 R2 R3 R4]. split; rewrite ?Er, ?Ea.
  - done.
  - by rewrite events_of_other by (done || set_solver).
  - by rewrite events_of_other by (done || set_solver).
  - intros r Hr. rewrite <- (R4 r Hr). f_equal.
    change (rows_of_evaluation d' x) with (rows_of_evaluation d1 x).
    rewrite Sl, (proj2 (String.eqb_neq x (hw_evaluation_id w))) by congruence. lia.
Qed.

Lemma store_rollups_ok l : forall d d',
  store_rollups d l = Ok d' ->
  hd_runs d' = hd_runs d /\ hd_history d' = hd_history d /\ hd_core d' = hd_core d.
Proof.
  induction l as [|r l IH]; intros d d' Hs; cbn [store_rollups] in Hs; [by simplify_eq|].
  destruct (upsert_health_rollup_tx d r) as [d1|] eqn:Hu; [|done].
  apply IH in Hs as (-> & -> & ->). unfold upsert_health_rollup_tx in Hu. by peel Hu.
Qed.

Lemma rollups_preserve env d w actor :
  health_ok d ->
  health_ok (write_health_rollups env d w actor).1 /\ extends d (write_health_rollups env d w actor).1.
Proof.
  intros Hok. unfold write_health_rollups.
  apply (health_transact_ok d _ (fun d' => health_ok d' /\ extends d d')); [split; [done|apply extends_refl]|].
  intros d' [] Hb. destruct (map_err InvalidInput _); [|done].
  destruct (validate_health_rollup_write w) eqn:Hv; [|done].
  destruct (audit_request_replay_tx _ _ _ _ _ _) as [[]|] eqn:Hrep; [| |done].
  { simplify_eq. split; [done|apply extends_refl]. }
  destruct (store_rollups _ _) as [d1|] eqn:Hs; [|done].
  apply store_rollups_ok in Hs as (Sr & Sh & Sc).
  destruct (health_audit _ _) as [d2|] eqn:Ha; [|done]. simplify_eq.
  apply health_audit_ok in Ha as (e & -> & He & _ & _). simpl in He.
  apply (other_step d _ [e]); [done|done|done|by rewrite <- Sc|].
  cbn [forallb]. unfold other_event. by rewrite He.
Qed.

Lemma policy_preserves env d p actor :
  health_ok d ->
  health_ok (set_health_policy env d p actor).1 /\ extends d (set_health_policy env d p actor).1.
Proof.
  intros Hok. unfold set_health_policy.
  apply (health_transact_ok d _ (fun d' => health_ok d' /\ extends d d')); [split; [done|apply extends_refl]|].
  intros d' [] Hb. peel_in Hb. simplify_eq.
  match goal with H : health_audit _ _ = Ok _ |- _ =>
    apply health_audit_ok in H as (e & -> & He & _ & _) end. simpl in He.
  apply (other_step d _ [e]); [done..|]. cbn [forallb]. unfold other_event. by rewrite He.
Qed.

Lemma health_step_preserves d d' : health_ok d -> health_step d d' -> health_ok d' /\ extends d d'.
Proof.
  intros Hok [env s actor Hf|env f actor|env f actor|env cutoff recovered_at actor|env w actor
             |env w actor|env p actor|d'' events Er Eh Ea Ho].
  - by apply start_preserves.
  - by apply finish_preserves.
  - by apply failure_preserves.
  - by apply recovery_preserves.
  - by apply snapshots_preserve.
  - by apply rollups_preserve.
  - by apply policy_preserves.
  - by eapply other_step.
Qed.

Lemma health_reached_ok d : health_reached d -> health_ok d.
Proof.
  induction 1 as [d Er Eh Ea|d d' _ IH Hs]; [|by eapply health_step_preserves].
  assert (Hnil : forall kinds id, (forall k, k ∈ kinds -> k ∈ start_events ++ end_events) ->
    events_of kinds id (db_audit (hd_core d)) = []).
  { intros kinds id Hk. exact (events_of_other kinds id [] _ Hk Ea). }
  split; [by unfold history_keyed; rewrite Eh; apply map_Forall_empty|].
  intros id. split; rewrite ?Er, ?lookup_empty; try done.
  - rewrite Hnil; [done|]. set_solver.
  - rewrite Hnil; [done|]. set_solver.
Qed.
End runs.
