(* ===== verification/HealthEvaluation.v ===== *)
(** * HealthEvaluation: one run of the evaluator

    The transactions of an evaluation change only the health tables and the
    audit log, so the evaluator computes the same snapshots again within the
    minute and finds its run. *)

From S2P Require Import Prelude Text External Wire AgentConfig InputValidation StoreTypes.
From S2P Require Import StoredText StoragePayloads StoreDb Enrollment ObservationPayloads.
From S2P Require Import AlertWebhook SchedulerStore NodeMetadata AlertQueue Ordering Slo.
From S2P Require Import ApiPayloads ApiStore ApiProjections StoreLemmas HealthStore Health.
From S2P Require Import HealthRollups HealthRuns.

(** ** What an evaluation reads *)

Record same_inputs (d d' : HealthDb) : Prop := {
  si_nodes : db_nodes (hd_core d') = db_nodes (hd_core d);
  si_trust : db_trust (hd_core d') = db_trust (hd_core d);
  si_observations : sd_observations (hd_sched d') = sd_observations (hd_sched d);
  si_policy : hd_policy d' = hd_policy d;
}.

Section evaluation.
Context `{EndpointIdOps, TimeOps, ZonedTimeOps, JsonOps, JsonBytes, DigestOps, Blake3Ops}.

Lemma same_inputs_refl d : same_inputs d d.
Proof. by split. Qed.

Lemma same_inputs_trans d1 d2 d3 : same_inputs d1 d2 -> same_inputs d2 d3 -> same_inputs d1 d3.
Proof. intros [] []. split; congruence. Qed.

Lemma compute_node_inputs d d' node generated_at policy :
  same_inputs d d' ->
  compute_node_health d' node generated_at policy = compute_node_health d node generated_at policy.
Proof.
  intros [_ Ht Ho _]. unfold compute_node_health, get_endpoint_trust_tx, list_probe_observations.
  by rewrite Ht, Ho.
Qed.

Lemma compute_rows_inputs d d' generated_at policy nodes :
  same_inputs d d' ->
  compute_rows d' generated_at policy nodes = compute_rows d generated_at policy nodes.
Proof.
  intros Hi. unfold compute_rows. induction nodes as [|n nodes IH]; [done|]. cbn [try_map].
  by rewrite (compute_node_inputs d d'), IH.
Qed.

Lemma list_nodes_inputs d d' : same_inputs d d' -> list_nodes d' = list_nodes d.
Proof. intros [Hn _ _ _]. unfold list_nodes. by rewrite Hn. Qed.

Lemma policy_inputs d d' : same_inputs d d' -> get_health_policy d' = get_health_policy d.
Proof. intros [_ _ _ Hp]. unfold get_health_policy. by rewrite Hp. Qed.

(** ** Steps *)

Lemma health_bind_ok {A B} (m : HealthM A) (k : A -> HealthM B) d d' b :
  mbind k m d = (d', Ok b) -> exists d1 a, m d = (d1, Ok a) /\ k a d1 = (d', Ok b).
Proof. unfold mbind, health_bind. destruct (m d) as [d1 [a|e]]; [eauto|done]. Qed.

Lemma writing_ok {A} (w : HealthDb -> HealthDb * result StoreError A) d d' a :
  writing w d = (d', Ok a) -> w d = (d', Ok a).
Proof. unfold writing. destruct (w d) as [d1 [b|e]]; simpl; [congruence|done]. Qed.

Lemma reading_ok {A} (q : HealthDb -> result StoreError A) d d' a :
  reading q d = (d', Ok a) -> d' = d /\ q d = Ok a.
Proof. unfold reading. intros [= -> Hq]. by apply map_err_ok in Hq. Qed.

Lemma computing_ok {A} (r : result HealthError A) d d' a :
  computing r d = (d', Ok a) -> d' = d /\ r = Ok a.
Proof. by intros [= -> ->]. Qed.

Lemma health_bind_run {A B} (m : HealthM A) (k : A -> HealthM B) d d1 a :
  m d = (d1, Ok a) -> mbind k m d = k a d1.
Proof. unfold mbind, health_bind. by intros ->. Qed.

Lemma reading_run {A} (q : HealthDb -> result StoreError A) d a :
  q d = Ok a -> reading q d = (d, Ok a).
Proof. unfold reading. by intros ->. Qed.

Lemma writing_run {A} (w : HealthDb -> HealthDb * result StoreError A) d d' a :
  w d = (d', Ok a) -> writing w d = (d', Ok a).
Proof. unfold writing. by intros ->. Qed.

(** ** The transactions of an evaluation *)

Lemma audit_inputs env d actor event id ok code n d' :
  insert_health_evaluation_audit_tx env d actor event id ok code n = Ok d' -> same_inputs d d'.
Proof. intros Ha. apply evaluation_audit_ok in Ha as (e & -> & _). by split. Qed.

Lemma recover_inputs env recovered_at actor ids : forall d d',
  recover_runs env d recovered_at actor ids = Ok d' -> same_inputs d d'.
Proof.
  induction ids as [|id ids IH]; intros d d' Hr; cbn [recover_runs] in Hr; [by simplify_eq|].
  destruct (hd_runs d !! id) as [run|]; [|done]. cbn [ok_or] in Hr. destruct (is_running run); [|done].
  destruct (insert_health_evaluation_audit_tx _ _ _ _ _ _ _ _) as [d1|] eqn:Ha; [|done].
  apply audit_inputs in Ha. apply IH in Hr. eapply same_inputs_trans; [|exact Hr].
  eapply same_inputs_trans; [|exact Ha]. by split.
Qed.

Lemma recovery_inputs env d cutoff recovered_at actor d' n :
  write_health_evaluation_recovery env d cutoff recovered_at actor = (d', Ok n) ->
  validate_actor actor = Ok tt /\ same_inputs d d'.
Proof.
  intros Hr. apply transact_body in Hr. peel_all Hr. split; [done|]. by eapply recover_inputs.
Qed.

(** What is known of a run that has been started. *)
Definition started (d : HealthDb) (s : HealthEvaluationStart) (actor : string)
    (run : HealthEvaluationRunRecord) : Prop :=
  hd_runs d !! es_evaluation_id s = Some run /\
  er_evaluation_id run = es_evaluation_id s /\ er_input_watermark run = es_input_watermark s /\
  er_policy_version run = es_policy_version s /\
  er_computation_version run = es_computation_version s /\
  ae_actor <$> List.find (fun e => bool_decide (ae_request_id e = Some (es_evaluation_id s))
                                   && String.eqb (ae_event e) "health.evaluation.start")
                         (db_audit (hd_core d)) = Some actor.

Lemma find_app {A} (p : A -> bool) l1 l2 :
  List.find p (l1 ++ l2) = match List.find p l1 with Some x => Some x | None => List.find p l2 end.
Proof. induction l1 as [|x l1 IH]; simpl; [done|]. by destruct (p x). Qed.

Lemma find_start_none d id :
  recorded d id -> hd_runs d !! id = None ->
  List.find (fun e => bool_decide (ae_request_id e = Some id)
                      && String.eqb (ae_event e) "health.evaluation.start")
            (db_audit (hd_core d)) = None.
Proof.
  intros [_ Hs _ _] Hn. rewrite Hn in Hs.
  destruct (List.find _ _) as [e|] eqn:Hf; [|done]. exfalso.
  apply find_some in Hf as [Hin Hp].
  enough (e ∈ events_of start_events id (db_audit (hd_core d))) as He.
  { destruct (events_of _ _ _); [by apply elem_of_nil in He|done]. }
  apply list_elem_of_In, filter_In. split; [done|]. bool_facts.
  rewrite bool_decide_true by done. unfold str_in_list, start_events. simpl.
  match goal with H : ae_event e = _ |- _ => by rewrite H end.
Qed.

Lemma existing_run_keyed d s run :
  health_ok d -> existing_run d s = Some run -> er_evaluation_id run = es_evaluation_id s ->
  hd_runs d !! es_evaluation_id s = Some run.
Proof.
  intros Hok Hex Hid. unfold existing_run in Hex.
  destruct (hd_runs d !! es_evaluation_id s) as [run'|] eqn:Hl; [done|]. exfalso.
  apply head_Some_elem_of, list_elem_of_In, filter_In in Hex as [Hin _].
  apply list_elem_of_In, list_elem_of_fmap in Hin as ([k r] & -> & Hk).
  apply elem_of_map_to_list in Hk. simpl in *.
  destruct (rc_run _ _ (ho_recorded _ Hok k) r Hk) as [E _]. congruence.
Qed.

Lemma start_ok env d s actor d' :
  health_ok d -> write_health_evaluation_start env d s actor = (d', Ok tt) ->
  validate_health_evaluation_start s = Ok tt /\ same_inputs d d' /\
  hd_history d' = hd_history d /\ exists run, started d' s actor run.
Proof.
  intros Hok Hs. apply transact_body in Hs.
  destruct (map_err InvalidInput _); [|done].
  destruct (validate_health_evaluation_start s) as [[]|] eqn:Hv; [|done]. split; [done|].
  destruct (optional_row _ (existing_run d s)) as [[run|]|] eqn:Hex; [| |done].
  - assert (Hrun : existing_run d s = Some run).
    { unfold optional_row in Hex. destruct (existing_run d s); [|done].
      unfold health_evaluation_run_from_row in Hex. by peel_all Hex. }
    peel Hs. split; [apply same_inputs_refl|]. split; [done|]. exists run.
    split_and!; [by apply existing_run_keyed|done..].
  - assert (Hnone : hd_runs d !! es_evaluation_id s = None).
    { unfold existing_run in Hex. destruct (hd_runs d !! es_evaluation_id s); [|done].
      unfold optional_row in Hex. by peel Hex. }
    cbn zeta in Hs. destruct (insert_health_evaluation_audit_tx _ _ _ _ _ _ _ _) as [d1|] eqn:Ha; [|done].
    simplify_eq. apply evaluation_audit_ok in Ha as (e & -> & He & Hi & Hact). split; [by split|]. split; [done|].
    eexists. split_and!; [apply lookup_insert_eq|done..|].
    change (db_audit (hd_core _)) with (db_audit (hd_core d) ++ [e]).
    rewrite find_app, (find_start_none d); [|by apply ho_recorded|done]. simpl.
    rewrite He, Hi, bool_decide_true by done. simpl. by rewrite Hact.
Qed.

(** A run that has been started stays so while the log grows and its identity
    is kept. *)
Lemma finish_ok env d f s actor d' run :
  history_keyed d -> started d s actor run -> ef_evaluation_id f = es_evaluation_id s ->
  write_health_evaluation_finish env d f actor = (d', Ok tt) ->
  same_inputs d d' /\
  exists run', started d' s actor run' /\ er_status run' = "completed" /\
    0 <= er_snapshot_count run'.
Proof.
  intros Hok (Hrun & Hid & Hw & Hp & Hc & Hf) Ef Hs. apply transact_body in Hs.
  destruct (map_err InvalidInput _); [|done].
  destruct (validate_health_evaluation_finish f); [|done].
  destruct (validate_health_evaluation_finish_order_tx _ _ _); [|done].
  destruct (end_run _ _ _ _ _ _) as [d1|] eqn:He; [|done].
  apply end_run_ok in He as (run0 & Hrun0 & _ & ->). rewrite Ef in Hrun0.
  assert (run0 = run) as -> by congruence.
  destruct (store_snapshots _ _ _) as [d2|] eqn:Hst; [|done].
  apply store_snapshots_ok in Hst as (Sr & Sc & Ss & Sp & _ & _ & _); [|done].
  destruct (insert_health_evaluation_audit_tx _ _ _ _ _ _ _ _) as [d3|] eqn:Ha; [|done].
  simplify_eq. apply evaluation_audit_ok in Ha as (e & -> & _). simpl in *.
  split; [split; simpl; by rewrite ?Sc, ?Ss, ?Sp|].
  exists (with_run_outcome (ef_finished_at f) "completed" (Z.of_nat (length (ef_snapshots f)))
            (er_failure_code run) run).
  split_and!; [split_and!|done|].
  - simpl. rewrite Sr, Ef. apply lookup_insert_eq.
  - done.
  - done.
  - done.
  - done.
  - simpl. rewrite Sc. simpl. rewrite find_app. by destruct (List.find _ _).
  - simpl. lia.
Qed.

(** ** A completed evaluation *)

(** What an evaluation that completed leaves behind. *)
Record evaluated (c : HealthClock) (d : HealthDb) (policy : HealthPolicyRecord)
    (rows : list NodeHealth) (snapshots : list HealthSnapshotRecord)
    (run : HealthEvaluationRunRecord) : Prop := {
  ev_actor : validate_actor (hc_actor c) = Ok tt;
  ev_policy : get_health_policy d = Ok policy;
  ev_rows : compute_rows d (rfc3339_format (evaluation_at (hc_now c))) policy (list_nodes d) = Ok rows;
  ev_snapshots : try_map (fun row => health_snapshot row (rfc3339_format (evaluation_at (hc_now c))))
                         rows = Ok snapshots;
  ev_start : validate_health_evaluation_start
    (evaluation_start (health_input_watermark snapshots) (health_policy_version policy)
       (rfc3339_format (evaluation_at (hc_now c)))) = Ok tt;
  ev_run : started d (evaluation_start (health_input_watermark snapshots)
    (health_policy_version policy) (rfc3339_format (evaluation_at (hc_now c)))) (hc_actor c) run;
  ev_completed : er_status run = "completed";
  ev_count : 0 <= er_snapshot_count run;
}.

Lemma finish_evaluation_completed c d s generated_at finished_at snapshots d' run :
  history_keyed d -> started d s (hc_actor c) run ->
  finish_evaluation c (es_evaluation_id s) generated_at finished_at snapshots d = (d', Ok Completed) ->
  same_inputs d d' /\
  exists run', started d' s (hc_actor c) run' /\ er_status run' = "completed" /\
    0 <= er_snapshot_count run'.
Proof.
  intros Hok Hst Hf. unfold finish_evaluation in Hf. cbn zeta in Hf.
  apply health_bind_ok in Hf as (d1 & existing & Hr & Hf).
  apply reading_ok in Hr as [-> Hr].
  assert (Hfin : (_ ← writing (fun d => write_health_evaluation_finish (hc_finish c) d
                   {| ef_evaluation_id := es_evaluation_id s; ef_finished_at := finished_at;
                      ef_snapshots := snapshots |} (hc_actor c)); mret Completed) d
                 = (d', Ok Completed)).
  { destruct existing as [r|]; [|done]. repeat case_match; try done; by inversion Hf. }
  apply health_bind_ok in Hfin as (d1 & [] & Hw & Hd). apply writing_ok in Hw.
  injection Hd as ->. eapply finish_ok; [done|done|..|exact Hw]. done.
Qed.

Lemma evaluation_completed c d0 d1 :
  health_ok d0 -> run_health_evaluation_once c d0 = (d1, Ok Completed) ->
  exists policy rows snapshots run, evaluated c d1 policy rows snapshots run.
Proof.
  intros Hok Hrun. unfold run_health_evaluation_once in Hrun. cbn zeta in Hrun.
  apply health_bind_ok in Hrun as (dr & n & Hw & Hrun). apply writing_ok in Hw.
  pose proof (recovery_preserves (hc_recover c) d0
    (rfc3339_format (hc_now c - HEALTH_EVALUATION_RECOVERY_SECONDS * NANOS))
    (rfc3339_format (hc_now c)) (hc_actor c) Hok) as [Hokr _]. rewrite Hw in Hokr. simpl in Hokr.
  apply recovery_inputs in Hw as [Hactor _].
  apply health_bind_ok in Hrun as (? & policy & Hp & Hrun). apply reading_ok in Hp as [-> Hp].
  apply health_bind_ok in Hrun as (? & nodes & Hn & Hrun). apply reading_ok in Hn as [-> Hn].
  apply health_bind_ok in Hrun as (? & rows & Hr & Hrun). apply reading_ok in Hr as [-> Hr].
  injection Hn as <-. injection Hr as <-.
  destruct (compute_rows dr _ policy _) as [rows|] eqn:Hrows.
  2:{ unfold persist_health_evaluation_failure in Hrun. cbn zeta in Hrun.
      apply health_bind_ok in Hrun as (? & ? & _ & Hrun).
      apply health_bind_ok in Hrun as (? & [run|] & _ & Hrun); [|done].
      destruct (negb _); [done|]. by apply health_bind_ok in Hrun as (? & ? & _ & [=]). }
  apply health_bind_ok in Hrun as (? & snapshots & Hs & Hrun). apply computing_ok in Hs as [-> Hs].
  apply health_bind_ok in Hrun as (ds & [] & Hw & Hrun). apply writing_ok in Hw.
  destruct (start_ok _ _ _ _ _ Hokr Hw) as (Hv & Hi1 & Hh & run & Hst).
  eapply finish_evaluation_completed in Hrun as (Hi2 & run' & Hst' & Hc & Hn);
    [|by unfold history_keyed; rewrite Hh; apply ho_keyed|exact Hst].
  pose proof (same_inputs_trans _ _ _ Hi1 Hi2) as Hi.
  exists policy, rows, snapshots, run'. split; try done.
  - by rewrite (policy_inputs dr).
  - by rewrite (compute_rows_inputs dr), (list_nodes_inputs dr).
Qed.

(** ** Again within the minute *)

Lemma recovery_idle `{!TimeLaws} env d now actor :
  (forall id r, hd_runs d !! id = Some r -> is_running r = false) -> validate_actor actor = Ok tt ->
  write_health_evaluation_recovery env d
    (rfc3339_format (now - HEALTH_EVALUATION_RECOVERY_SECONDS * NANOS)) (rfc3339_format now) actor
  = (d, Ok 0).
Proof.
  intros Hidle Ha. unfold write_health_evaluation_recovery, validate_rfc3339.
  rewrite Ha, !rfc3339_parse_format. cbn [map_err ok_or].
  rewrite (proj2 (Z.ltb_ge _ _)) by (unfold HEALTH_EVALUATION_RECOVERY_SECONDS, NANOS; lia).
  assert (E : select is_running (hd_runs d) = []).
  { destruct (select is_running (hd_runs d)) as [|r l] eqn:Es; [done|].
    assert (Hr : r ∈ select is_running (hd_runs d)) by (rewrite Es; apply elem_of_cons; auto).
    apply elem_of_select in Hr as (k & Hk & Hr). by rewrite (Hidle k r Hk) in Hr. }
  unfold recovery_candidates. by rewrite E.
Qed.

Lemma start_replays env d s actor run :
  started d s actor run -> 0 <= er_snapshot_count run -> validate_actor actor = Ok tt ->
  validate_health_evaluation_start s = Ok tt ->
  write_health_evaluation_start env d s actor = (d, Ok tt).
Proof.
  intros (Hrun & Hid & Hw & Hp & Hc & Hf) Hn Ha Hv. unfold write_health_evaluation_start.
  rewrite Ha, Hv. cbn [map_err]. unfold existing_run. rewrite Hrun.
  unfold optional_row, health_evaluation_run_from_row. rewrite (proj2 (Z.leb_le _ _)) by done.
  rewrite Hid, Hw, Hp, Hc, !String.eqb_refl. cbn [andb]. by rewrite bool_decide_true by exact Hf.
Qed.

Lemma evaluated_replays `{!TimeLaws} c c' d policy rows snapshots run :
  evaluated c d policy rows snapshots run ->
  (forall id r, hd_runs d !! id = Some r -> is_running r = false) ->
  evaluation_at (hc_now c') = evaluation_at (hc_now c) -> hc_actor c' = hc_actor c ->
  run_health_evaluation_once c' d = (d, Ok Replayed).
Proof.
  intros [Ha Hp Hr Hs Hv Hst Hc Hn] Hidle Hat Hact. unfold run_health_evaluation_once. cbn zeta.
  rewrite Hat, Hact.
  erewrite health_bind_run by (apply writing_run; by apply recovery_idle).
  erewrite health_bind_run by (by apply reading_run).
  erewrite health_bind_run by (by apply reading_run).
  erewrite health_bind_run by (by apply reading_run). rewrite Hr.
  erewrite health_bind_run by (unfold computing; by rewrite Hs).
  erewrite health_bind_run by (apply writing_run; by eapply start_replays).
  unfold finish_evaluation. cbn zeta. pose proof Hst as (Hrun & _).
  erewrite health_bind_run.
  2:{ apply reading_run. unfold get_health_evaluation_run. rewrite Hrun.
      unfold optional_row, health_evaluation_run_from_row. by rewrite (proj2 (Z.leb_le _ _)). }
  cbn [is_Some]. by rewrite Hc.
Qed.
End evaluation.
