(* ===== verification/HealthSnapshots.v ===== *)
(** * HealthSnapshots: the snapshots of an evaluation

    What the evaluator computes for a node from valid stored data is a snapshot
    the store takes, unless the projection of an observation has redacted the
    name of a degraded method; and a node is reported healthy only on a recent
    observation. *)

From S2P Require Import Prelude Text External Wire AgentConfig InputValidation StoreTypes.
From S2P Require Import StoredText StoragePayloads StoreDb Enrollment ObservationPayloads.
From S2P Require Import AlertWebhook SchedulerStore NodeMetadata AlertQueue Ordering Slo.
From S2P Require Import ApiPayloads ApiStore ApiProjections StoreLemmas HealthStore Health.
From S2P Require Import HealthRollups.

(** ** Sorting and removing duplicates *)

(** A sorted list without neighbours that are equal is ascending. *)
Lemma sort_strs_sorted l : StronglySorted (fun a b => str_ltb b a = false) (sort_strs l).
Proof.
  induction l as [|x l IH]; [constructor|]. cbn [sort_strs foldr].
  change (foldr insert_str [] l) with (sort_strs l).
  induction IH as [|z l' Hs IH' Hz]; simpl; [repeat constructor|].
  destruct (str_ltb z x) eqn:E.
  - constructor; [done|]. rewrite Forall_forall in *. intros y Hy.
    apply insert_str_elem in Hy as [->|Hy]; [|by apply Hz].
    destruct (str_ltb x z) eqn:E'; [|done]. pose proof (str_ltb_trans _ _ _ E E') as Ht.
    by rewrite str_ltb_irrefl in Ht.
  - constructor; [by constructor|]. constructor; [done|].
    rewrite Forall_forall in *. intros y Hy. specialize (Hz y Hy).
    destruct (str_ltb y x) eqn:E'; [|done].
    destruct (decide (y = z)) as [->|Hne]; [congruence|].
    destruct (str_ltb_total y z Hne) as [Hyz|Hzy]; [congruence|].
    pose proof (str_ltb_trans _ _ _ Hzy E'). congruence.
Qed.

Lemma dedup_ascending l :
  StronglySorted (fun a b => str_ltb b a = false) l -> not_ascending (dedup l) = false.
Proof.
  induction l as [|x [|z l] IH]; intros Hs; [done|done|]. apply StronglySorted_inv in Hs as [Hs Hx].
  change (dedup (x :: z :: l)) with (if String.eqb x z then dedup (z :: l) else x :: dedup (z :: l)).
  specialize (IH Hs). destruct (String.eqb x z) eqn:E; [done|]. bool_facts.
  assert (Hh : exists l', dedup (z :: l) = z :: l').
  { clear. revert z. induction l as [|y l IH]; intros z; [by eexists|].
    change (dedup (z :: y :: l)) with (if String.eqb z y then dedup (y :: l) else z :: dedup (y :: l)).
    destruct (String.eqb z y) eqn:E; bool_facts; [subst; apply IH|by eexists]. }
  destruct Hh as [l' El]. rewrite El in *. cbn [not_ascending] in *. rewrite IH, orb_false_r.
  apply Forall_inv in Hx. destruct (str_ltb_total x z E) as [->|Hzx]; [done|congruence].
Qed.

(** Distinct members of a list are no more than its length. *)
Lemma ascending_nodup l : not_ascending l = false -> NoDup l.
Proof.
  assert (Hall : forall l x, not_ascending (x :: l) = false -> Forall (fun y => str_ltb x y = true) l).
  { clear. induction l as [|y l IH]; intros x Hx; [constructor|]. cbn [not_ascending] in Hx. bool_facts.
    constructor; [done|]. specialize (IH y ltac:(done)).
    eapply Forall_impl; [exact IH|]. intros z Hz. simpl in Hz. by eapply str_ltb_trans. }
  induction l as [|x l IH]; intros Ha; [constructor|]. pose proof (Hall l x Ha) as Hx.
  constructor.
  - intros Hin. rewrite Forall_forall in Hx. specialize (Hx x Hin). by rewrite str_ltb_irrefl in Hx.
  - apply IH. destruct l; [done|]. cbn [not_ascending] in Ha. by bool_facts.
Qed.

(** ** Payloads *)

Lemma hdm_new_ok methods :
  (forall m, m ∈ methods -> m ∈ HEALTH_DEGRADED_METHODS) ->
  exists p, hdm_new methods = Ok p /\ hdm_from_value (hdm_to_value p) = Ok p.
Proof.
  intros Hm. set (l := dedup (sort_strs methods)).
  assert (Ha : not_ascending l = false) by (apply dedup_ascending, sort_strs_sorted).
  assert (Hl : forall m, m ∈ l -> m ∈ HEALTH_DEGRADED_METHODS).
  { intros m Hin. apply Hm. by rewrite <- sort_strs_elem, <- dedup_elem. }
  assert (Hlen : (length l <= length HEALTH_DEGRADED_METHODS)%nat).
  { apply submseteq_length, NoDup_submseteq; [by apply ascending_nodup|done]. }
  set (p := {| hdm_schema := HEALTH_DEGRADED_METHODS_SCHEMA_V1; hdm_methods := l |}).
  assert (Hv : hdm_validate p = Ok tt).
  { unfold hdm_validate. cbn [hdm_schema hdm_methods p]. rewrite String.eqb_refl, Ha. cbn [negb].
    rewrite (proj2 (Nat.ltb_ge _ _)) by done.
    destruct (existsb _ l) eqn:E; [|done]. apply existsb_exists in E as (m & Hin & Hn).
    apply list_elem_of_In in Hin. bool_facts. apply Hl, str_in_list_elem in Hin. congruence. }
  exists p. change (hdm_new methods) with (let? _ := hdm_validate p in Ok p). rewrite Hv.
  split; [done|].
  assert (Hd : hdm_decode (hdm_to_value p) = Some p).
  { unfold hdm_decode.
    change (struct_fields true ["schema"; "methods"] (hdm_to_value p))
      with (Some [VString (hdm_schema p); json_strs (hdm_methods p)]).
    cbn [as_str]. by rewrite de_vec_strs. }
  unfold hdm_from_value. rewrite Hd. cbn [ok_or]. by rewrite Hv.
Qed.

Lemma hdm_new_allowed methods p m :
  hdm_new methods = Ok p -> m ∈ methods -> m ∈ HEALTH_DEGRADED_METHODS.
Proof.
  unfold hdm_new, hdm_validate. intros Hn Hm. peel_all Hn. cbn [hdm_methods] in *.
  rewrite <- sort_strs_elem, <- dedup_elem in Hm.
  match goal with H : existsb _ (dedup _) = false |- _ => rename H into He end.
  apply str_in_list_elem. destruct (str_in_list m HEALTH_DEGRADED_METHODS) eqn:E; [done|].
  rewrite <- He. apply existsb_exists. exists m. rewrite E.
  split; [by apply list_elem_of_In|done].
Qed.

Lemma hsp_new_ok region role status endpoint_status failures :
  validate_region region = Ok tt -> validate_role role = Ok tt ->
  str_in_list status ["healthy"; "degraded"; "unreachable"; "stale"; "disabled"; "unknown"] = true ->
  match endpoint_status with
  | Some s => str_in_list s ["active"; "revoked"; "quarantined"; "rotated"] = true
  | None => True
  end ->
  failures <= 1000 ->
  exists p, hsp_new (Some region) (Some role) status endpoint_status (Some failures) = Ok p /\
    hsp_from_value (hsp_to_value p) = Ok p /\ hsp_status p = status.
Proof.
  intros Hr Ho Hs He Hf.
  set (p := {| hsp_schema := HEALTH_SUMMARY_SCHEMA_V1; hsp_region := Some region;
               hsp_role := Some role; hsp_status := status; hsp_endpoint_status := endpoint_status;
               hsp_consecutive_failures := Some failures |}).
  assert (Hv : hsp_validate p = Ok tt).
  { unfold hsp_validate, p. cbn -[Z.ltb]. rewrite Hr, Ho. cbn [map_err].
    unfold str_in_list in Hs. cbn [existsb] in Hs. rewrite Hs. cbn [negb].
    rewrite (proj2 (Z.ltb_ge _ _)) by lia. destruct endpoint_status as [e|]; [|done].
    unfold str_in_list in He. cbn [existsb] in He. by rewrite He. }
  exists p. unfold hsp_new. cbn zeta. fold p. rewrite Hv. split_and!; [done| |done].
  unfold hsp_from_value.
  assert (Hd : hsp_decode (hsp_to_value p) = Some p)
    by (unfold p; destruct endpoint_status; reflexivity).
  rewrite Hd. cbn [ok_or]. by rewrite Hv.
Qed.

(** ** The methods an observation reports as degraded *)

Definition method_or_redacted (m : string) : Prop := m ∈ HEALTH_DEGRADED_METHODS \/ m = REDACTED.

(** A member [degraded_methods] lists allowed methods. *)
Definition degraded_value (x : Value) : Prop :=
  x = Null \/ exists l, x = VArray (map VString l) /\ (forall m, m ∈ l -> m ∈ HEALTH_DEGRADED_METHODS).

Section degraded.
Context `{JsonOps}.

(** The decoded members are those of the declaration, with values of their
    types. *)
Lemma osf_members v fields :
  osf_decode v = Some fields ->
  Forall2 (fun name_type field => field.1 = name_type.1 /\ field_value name_type.2 field.2 = true)
          observation_fields fields.
Proof.
  assert (Hm : forall m, osf_decode_members m = Some fields ->
    Forall2 (fun name_type field => field.1 = name_type.1 /\ field_value name_type.2 field.2 = true)
            observation_fields fields).
  { intros m. unfold osf_decode_members. destruct (existsb _ m); [done|]. intros Hf.
    apply mapM_Some in Hf. eapply Forall2_impl; [exact Hf|]. intros [name t] [name' x].
    cbn [fst snd]. destruct (field_value t _) eqn:E; [|done]. by intros [= <- <-]. }
  unfold osf_decode. destruct v as [| | | |l|m]; try done; [|apply Hm].
  destruct (Nat.leb _ _); [apply Hm|done].
Qed.

Lemma map_get_nodup k x m : NoDup (map fst m) -> (k, x) ∈ m -> map_get k m = Some x.
Proof.
  induction m as [|[k' y] m IH]; [by intros _ ?%elem_of_nil|]. cbn [map fst map_get].
  intros [Hn Hnd]%NoDup_cons. rewrite elem_of_cons. intros [[= -> ->]|Hin]; [by rewrite String.eqb_refl|].
  destruct (String.eqb k k') eqn:E; [|by apply IH]. bool_facts. subst. exfalso. apply Hn.
  apply list_elem_of_fmap. by exists (k', x).
Qed.

Lemma degraded_field_type t : ("degraded_methods", t) ∈ observation_fields -> t = FStrs.
Proof.
  assert (Hf : Forall (fun e : string * FieldType => e.1 = "degraded_methods" -> e.2 = FStrs)
                      observation_fields) by (repeat constructor; done).
  rewrite Forall_forall in Hf. intros Hin. by apply (Hf _ Hin).
Qed.

(** The field of a payload that was decoded and validated. *)
Lemma degraded_field v p x :
  osp_from_value v = Ok p -> ("degraded_methods", x) ∈ osp_fields p -> degraded_value x.
Proof.
  unfold osp_from_value. intros Hp Hin. peel_in Hp. unwrap. simplify_eq.
  match goal with H : osp_decode v = Some p |- _ => rename H into Hd end.
  match goal with H : osp_validate p = Ok _ |- _ => rename H into Hv end.
  assert (Hf : exists u, osf_decode u = Some (osp_fields p)).
  { unfold osp_decode in Hd. repeat case_match; try done. simplify_eq. eauto. }
  destruct Hf as [u Hu%osf_members].
  assert (Hnd : NoDup (map fst (osp_fields p))).
  { replace (map fst (osp_fields p)) with (map fst observation_fields).
    - by apply (bool_decide_unpack _); vm_compute.
    - clear -Hu. induction Hu as [|a b l1 l2 [E _] _ IH]; [done|]. simpl. by rewrite E, IH. }
  assert (Ht : field_value FStrs x = true).
  { apply list_elem_of_lookup in Hin as [i Hi].
    destruct (Forall2_lookup_r _ _ _ _ _ Hu Hi) as ([k t] & Hk & E & Ht). simpl in E, Ht. subst k.
    apply list_elem_of_lookup_2, degraded_field_type in Hk. by subst t. }
  apply map_get_nodup in Hin; [|done].
  unfold osp_validate in Hv. rewrite Hin in Hv.
  destruct x as [| |[]| |l|]; try done; [by left|]. right.
  assert (Hl : exists names, l = map VString names).
  { clear -Ht. simpl in Ht. induction l as [|y l IH]; [by exists []|]. cbn [forallb] in Ht.
    destruct y; try done. destruct (IH Ht) as [names ->]. by exists (s :: names). }
  destruct Hl as [names ->]. exists names. split; [done|].
  change (VArray (map VString names)) with (json_strs names) in Hv. rewrite de_vec_strs in Hv.
  peel_in Hv. unwrap. intros m Hmem. by eapply hdm_new_allowed.
Qed.

(** *** The projection of a summary *)

Lemma take_elem {A} n (l : list A) x : x ∈ take n l -> x ∈ l.
Proof. intros Hx. rewrite <- (take_drop n l). apply elem_of_app. by left. Qed.

Lemma fold_projected {A B} (f : A -> ProjectionBudget -> Value * ProjectionBudget)
    (g : A -> Value -> B) l : forall out b out' b' y,
  foldl (fun acc e => let '(v, b) := f e acc.2 in (acc.1 ++ [g e v], b)) (out, b) l = (out', b') ->
  y ∈ out' -> y ∈ out \/ exists e b0, e ∈ l /\ y = g e (f e b0).1.
Proof.
  induction l as [|e l IH]; intros out b out' b' y Hf Hy; cbn [foldl] in Hf; [simplify_eq; by left|].
  cbn [fst snd] in Hf. destruct (f e b) as [v b1] eqn:Ef.
  destruct (IH _ _ _ _ _ Hf Hy) as [Hin|(e' & b0 & Hin & Hy')].
  - apply elem_of_app in Hin as [Hin|Hin]; [by left|]. apply list_elem_of_singleton in Hin as ->.
    right. exists e, b. rewrite Ef. split; [apply elem_of_cons; auto|done].
  - right. exists e', b0. split; [apply elem_of_cons; auto|done].
Qed.

Lemma projected_string fuel s b :
  exists s', (safe_observation_summary_inner fuel (VString s) b).1 = VString s' /\
    (s' = s \/ s' = REDACTED).
Proof.
  destruct fuel as [|fuel]; [by eexists; split; [reflexivity|right]|].
  cbn [safe_observation_summary_inner]. unfold project_text.
  destruct (_ || _ || _ || _); eexists; (split; [reflexivity|]); [by right|by left].
Qed.

(** The names in a projected list of names. *)
Lemma projected_names fuel l b x m :
  (forall m, m ∈ l -> m ∈ HEALTH_DEGRADED_METHODS) ->
  (safe_observation_summary_inner fuel (VArray (map VString l)) b).1 = x ->
  m ∈ omap as_str (default [] (as_array x)) -> method_or_redacted m.
Proof.
  intros Hl Hx Hm. destruct fuel as [|fuel]; [subst x; by apply elem_of_nil in Hm|].
  cbn [safe_observation_summary_inner] in Hx.
  destruct (Nat.eqb _ 0); [subst x; by apply elem_of_nil in Hm|].
  destruct (foldl _ _ _) as [out b'] eqn:Hf. subst x. cbn [fst as_array default] in Hm.
  apply list_elem_of_omap in Hm as (v & Hv & Hs).
  apply (fold_projected (fun e b0 => safe_observation_summary_inner fuel e b0) (fun _ v => v)) with (y := v)
    in Hf; [|done].
  destruct Hf as [Hv'|(e & b0 & He & ->)]; [by apply elem_of_nil in Hv'|].
  apply take_elem, list_elem_of_fmap in He as (s & -> & Hin).
  destruct (projected_string fuel s b0) as (s' & E & Hs'). rewrite E in Hs. injection Hs as <-.
  destruct Hs' as [-> | ->]; [left; by apply Hl|by right].
Qed.

(** The members of a projected object. *)
Lemma projected_member fuel m b k x :
  value_get k (safe_observation_summary_inner (S fuel) (VObject m) b).1 = Some x ->
  exists y b0, (k, y) ∈ m /\ x = (safe_observation_summary_inner fuel y b0).1.
Proof.
  cbn [safe_observation_summary_inner]. destruct (Nat.eqb _ 0); [done|].
  destruct (foldl _ _ _) as [out b'] eqn:Hf. cbn [fst value_get]. intros Hg.
  assert (Hin : (k, x) ∈ out).
  { clear -Hg. induction out as [|[k' y] out IH]; [done|]. cbn [map_get] in Hg.
    destruct (String.eqb k k') eqn:E; bool_facts; apply elem_of_cons; [left; congruence|right; auto]. }
  apply (fold_projected (fun e b0 => safe_observation_summary_inner fuel e.2 b0) (fun e v => (e.1, v)))
    with (y := (k, x)) in Hf; [|done].
  destruct Hf as [Hn|([k' y] & b0 & He & [= -> ->])]; [by apply elem_of_nil in Hn|].
  exists y, b0. split; [|done]. unfold budget_members in He.
  apply take_elem, list_elem_of_In, filter_In in He as [He _]. by apply list_elem_of_In.
Qed.

Lemma map_insert_elem k v m e : e ∈ map_insert k v m -> e = (k, v) \/ e ∈ m.
Proof.
  induction m as [|[k' v'] m IH]; cbn [map_insert].
  - rewrite list_elem_of_singleton. auto.
  - destruct (String.eqb k k'), (str_ltb k k'); rewrite !elem_of_cons; intuition.
Qed.

(** The methods an observation reports through its summary. *)
Lemma summary_names v p m :
  osp_from_value v = Ok p ->
  m ∈ degraded_methods_from_summary (safe_observation_summary (osp_public_summary p)) ->
  method_or_redacted m.
Proof.
  intros Hp Hm.
  assert (Hpub : forall v' p' x, osp_from_value v' = Ok p' ->
    ("degraded_methods", x) ∈ map_insert "result_class" (VString (osp_result_class p'))
                                (retain_non_null (osp_fields p')) -> degraded_value x).
  { intros v' p' x Hp' Hx. apply map_insert_elem in Hx as [[=]|Hx].
    apply list_elem_of_In, filter_In in Hx as [Hx _]. apply list_elem_of_In in Hx.
    by eapply degraded_field. }
  unfold degraded_methods_from_summary, array_of, safe_observation_summary in Hm.
  destruct (osp_from_value (osp_public_summary p)) as [p'|] eqn:Hp'.
  - destruct (value_get _ _) as [x|] eqn:Hg; [|by apply elem_of_nil in Hm].
    assert (Hx : degraded_value x).
    { eapply Hpub; [exact Hp'|]. cbn [value_get osp_public_summary] in Hg. revert Hg.
      generalize (map_insert "result_class" (VString (osp_result_class p'))
                    (retain_non_null (osp_fields p'))). intros l. clear.
      induction l as [|[k y] l IH]; [done|]. cbn [map_get].
      destruct (String.eqb _ k) eqn:E; bool_facts; rewrite elem_of_cons; intros Hg; [left; congruence|auto]. }
    destruct Hx as [->|(l & -> & Hl)]; [by apply elem_of_nil in Hm|].
    cbn [mbind option_bind as_array default] in Hm.
    apply list_elem_of_omap in Hm as (y & (s & -> & Hs)%list_elem_of_fmap & [= ->]). left. by apply Hl.
  - destruct (value_get _ _) as [x|] eqn:Hg; [|by apply elem_of_nil in Hm].
    apply projected_member in Hg as (y & b0 & Hy & ->).
    eapply Hpub in Hy as [->|(l & -> & Hl)]; [| |exact Hp].
    + by apply elem_of_nil in Hm.
    + by eapply projected_names.
Qed.
End degraded.

(** ** The observations of a node *)

Lemma max_observed_elem l o : max_observed l = Some o -> o ∈ l.
Proof.
  unfold max_observed.
  assert (Hg : forall l best, foldl (fun best o =>
     match best with
     | Some b => if str_ltb (ob_observed_at o) (ob_observed_at b) then Some b else Some o
     | None => Some o
     end) best l = Some o -> best = Some o \/ o ∈ l).
  { clear l. induction l as [|x l IH]; intros best Hb; cbn [foldl] in Hb; [by left|].
    apply IH in Hb as [Hb|Hb]; [|right; apply elem_of_cons; auto].
    destruct best as [b|]; [destruct (str_ltb _ _)|]; rewrite elem_of_cons; intuition congruence. }
  intros Hm. by apply Hg in Hm as [[=]|Hm].
Qed.

Lemma latest_for_method_elem l method o :
  latest_for_method l method = Some o -> o ∈ l /\ ob_method o = method.
Proof.
  intros Hm%max_observed_elem. apply list_elem_of_In, filter_In in Hm as [Hin Hm]. bool_facts.
  by apply list_elem_of_In in Hin.
Qed.

Lemma latest_with_ok_elem l ok o :
  latest_with_ok l ok = Some o -> o ∈ l /\ ob_ok o = Some ok.
Proof.
  intros Hm%max_observed_elem. apply list_elem_of_In, filter_In in Hm as [Hin Hm]. bool_facts.
  by apply list_elem_of_In in Hin.
Qed.

Lemma count_while_bound {A} (p : A -> bool) l : 0 <= count_while p l <= Z.of_nat (length l).
Proof. induction l as [|x l IH]; [done|]. cbn [count_while length]. destruct (p x); lia. Qed.

Lemma consecutive_bound l :
  0 <= consecutive_unreachable_controller_ping_failures l <= Z.of_nat (length l).
Proof.
  unfold consecutive_unreachable_controller_ping_failures.
  match goal with |- context [count_while ?p ?l'] => pose proof (count_while_bound p l') as Hb end.
  rewrite lt_sort_length in Hb.
  pose proof (length_filter_le (fun o => String.eqb (ob_method o) PROBE_CONTROLLER_PING) l). lia.
Qed.

Section snapshots.
Context `{EndpointIdOps, TimeOps, ZonedTimeOps, JsonOps, JsonBytes, DigestOps, Blake3Ops}.

(** A row of the observations of a node, as it is read. *)
Definition read_observation (d : HealthDb) (node : string) (o : ProbeObservationInsert) : Prop :=
  exists o0 p, (exists k, sd_observations (hd_sched d) !! k = Some o0) /\
    ob_node_id o0 = Some node /\ osp_from_value (ob_summary_json o0) = Ok p /\
    o = with_observation_summary (osp_public_summary p) o0.

Lemma list_observations_spec d node l :
  list_probe_observations d node OBSERVATION_READ_LIMIT = Ok l ->
  Z.of_nat (length l) <= 1000 /\ (forall o, o ∈ l -> read_observation d node o).
Proof.
  unfold list_probe_observations, limited. intros Hl. cbn [u64_to_i64] in Hl.
  replace (u64_to_i64 OBSERVATION_READ_LIMIT) with (Ok OBSERVATION_READ_LIMIT : result StoreError Z)
    in Hl by done.
  set (rows := take _ _) in Hl.
  assert (Hf : Forall2 (fun o0 o => probe_observation_from_row o0 = Ok o) rows l).
  { revert Hl. generalize rows. intros rs. revert l. induction rs as [|r rs IH]; intros l Hl;
      cbn [try_map] in Hl; [by simplify_eq|]. peel Hl. constructor; [done|by apply IH]. }
  split.
  { rewrite <- (Forall2_length _ _ _ Hf). unfold rows. rewrite length_take.
    unfold OBSERVATION_READ_LIMIT. lia. }
  intros o [i Hi]%list_elem_of_lookup. destruct (Forall2_lookup_r _ _ _ _ _ Hf Hi) as (o0 & Hin & Hr).
  apply list_elem_of_lookup_2, take_elem in Hin. unfold sort_desc in Hin.
  rewrite list_elem_of_In, <- in_rev, <- list_elem_of_In, sort_by_elem, list_elem_of_In, <- in_rev,
    filter_In, <- list_elem_of_In in Hin.
  destruct Hin as [Hin Hn]. bool_facts. apply rows_of_elem in Hin.
  unfold probe_observation_from_row in Hr. peel_in Hr. unwrap. simplify_eq. by eexists _, _.
Qed.

Lemma fold_names (P : string -> Prop) names : forall methods,
  (forall m, m ∈ methods -> P m) -> (forall m, m ∈ names -> P m) ->
  forall m, m ∈ foldl (fun ms m => if str_in_list m ms then ms else ms ++ [m]) methods names -> P m.
Proof.
  induction names as [|x names IH]; intros methods Hms Hns; [done|]. cbn [foldl]. apply IH.
  - destruct (str_in_list x methods); [done|]. intros m [Hm|Hm]%elem_of_app; [auto|].
    apply list_elem_of_singleton in Hm as ->. apply Hns, elem_of_cons. auto.
  - intros m Hm. apply Hns, elem_of_cons. auto.
Qed.

Lemma degraded_names d node l m :
  (forall o, o ∈ l -> read_observation d node o) -> m ∈ degraded_methods l -> method_or_redacted m.
Proof.
  intros Hread. unfold degraded_methods. rewrite dedup_elem, sort_strs_elem.
  assert (Hsrc : forall x, x ∈ degraded_sources -> x ∈ HEALTH_DEGRADED_METHODS).
  { apply Forall_forall. by apply (bool_decide_unpack _); vm_compute. }
  assert (Hg : forall sources methods, (forall x, x ∈ sources -> x ∈ degraded_sources) ->
    (forall x, x ∈ methods -> method_or_redacted x) ->
    forall x, x ∈ foldl (fun methods method =>
      from_option (add_degraded methods) methods (latest_for_method l method)) methods sources ->
    method_or_redacted x).
  { induction sources as [|s sources IH]; intros methods Hs Hms; [done|]. cbn [foldl].
    apply IH; [intros x Hx; apply Hs, elem_of_cons; auto|].
    destruct (latest_for_method l s) as [o|] eqn:Ho; [|done]. cbn [from_option].
    apply latest_for_method_elem in Ho as [Hin <-].
    destruct (Hread o Hin) as (o0 & p & _ & _ & Hp & ->). unfold add_degraded. cbn zeta.
    apply fold_names.
    - destruct (_ || _); [|done]. intros x [Hx|Hx]%elem_of_app; [auto|].
      apply list_elem_of_singleton in Hx as ->. left. apply Hsrc, Hs, elem_of_cons. auto.
    - intros x Hx. eapply summary_names; [exact Hp|exact Hx]. }
  apply Hg; [done|]. intros x Hx. by apply elem_of_nil in Hx.
Qed.

(** ** Snapshots *)

(** The stored data an evaluation relies on. *)
Record node_ok (n : NodeRecord) : Prop := {
  nk_id : valid_node_id (node_id n) = Ok tt;
  nk_region : validate_region (node_region n) = Ok tt;
  nk_role : validate_role (node_role n) = Ok tt;
  nk_endpoint : exists e, validate_endpoint_id (node_endpoint_id n) = Ok e;
}.

Definition observation_ok (o : ProbeObservationInsert) : Prop :=
  is_Some (rfc3339_parse (ob_observed_at o)) /\
  (forall code, ob_error_code o = Some code ->
    validate_audit_text code "health last_error_code" 64 = Ok tt).

Lemma inactive_code_ok status code :
  inactive_endpoint_error_code status = Some code ->
  validate_audit_text code "health last_error_code" 64 = Ok tt.
Proof. destruct status as [[]|]; intros [= <-]; by vm_compute. Qed.

Lemma snapshot_accepted d n generated_at policy row :
  node_ok n -> map_Forall (fun _ o => observation_ok o) (sd_observations (hd_sched d)) ->
  is_Some (rfc3339_parse generated_at) ->
  compute_node_health d n generated_at policy = Ok row -> REDACTED ∉ no_degraded_methods row ->
  exists s, health_snapshot row generated_at = Ok s /\ hs_node_id s = node_id n /\
    hs_computed_at s = generated_at /\ hs_status s = health_status_as_str (no_status row) /\
    forall seen, node_id n ∉ seen -> validate_snapshot seen s = Ok tt.
Proof.
  intros [Hid Hreg Hrole [e He]] Hobs [g Hg] Hc Hred. unfold compute_node_health in Hc.
  destruct (get_endpoint_trust_tx _ _) as [endpoint|]; [|done].
  destruct (list_probe_observations _ _ _) as [l|] eqn:Hl; [|done].
  apply list_observations_spec in Hl as [Hlen Hread].
  assert (Hok : forall o, o ∈ l -> observation_ok o).
  { intros o Ho. destruct (Hread o Ho) as (o0 & p & [k Hk] & _ & _ & ->). exact (Hobs k o0 Hk). }
  injection Hc as <-. cbn [no_degraded_methods] in Hred. unfold health_snapshot.
  cbn [no_degraded_methods no_region no_role no_status no_endpoint_status
       no_consecutive_unreachable_failures no_node_id no_endpoint_id no_freshness_seconds
       no_last_success_at no_last_failure_at no_last_error_code].
  destruct (hdm_new_ok (degraded_methods l)) as (methods & -> & Hmd).
  { intros m Hm. destruct (degraded_names d (node_id n) l m Hread Hm) as [?| ->]; done. }
  match goal with |- context [hsp_new _ _ ?status ?ends (Some ?failures)] =>
    destruct (hsp_new_ok (node_region n) (node_role n) status ends failures)
      as (summary & -> & Hsd & Hss) end.
  { done. } { done. }
  { by destruct (classify_node _ _ _ _ _). }
  { destruct endpoint as [endpoint|]; [|done]. simpl. by destruct (et_status endpoint). }
  { pose proof (consecutive_bound l). lia. }
  cbn [map_err]. eexists. split_and!; [reflexivity|done..|]. intros seen Hseen.
  unfold validate_snapshot, validate_rfc3339.
  cbn [hs_node_id hs_endpoint_id hs_computed_at hs_last_success_at hs_last_failure_at hs_status
       hs_last_error_code hs_degraded_methods_json hs_summary_json].
  rewrite Hid, bool_decide_false, He, Hg by done. cbn [map_err ok_or].
  assert (Htime : forall b field, opt_check (fun v => let? _ := ok_or (rfc3339_parse v)
      (InvalidInput (field +:+ " must be RFC3339")) in Ok tt) (ob_observed_at <$> latest_with_ok l b)
    = Ok tt).
  { intros b field. destruct (latest_with_ok l b) as [o|] eqn:Ho; [|done]. simpl.
    apply latest_with_ok_elem in Ho as [Hin _]. by destruct (Hok o Hin) as [[t ->] _]. }
  rewrite !Htime. 
  match goal with |- context [str_in_list (health_status_as_str ?st) HEALTH_STATUSES] =>
    replace (str_in_list (health_status_as_str st) HEALTH_STATUSES) with true by (by destruct st) end.
  match goal with |- context [opt_check (fun v => validate_audit_text v _ _) ?o] =>
    assert (Hcode : opt_check (fun v => validate_audit_text v "health last_error_code" 64) o = Ok tt) end.
  { destruct (inactive_endpoint_error_code _) as [code|] eqn:Hi; simpl; [by eapply inactive_code_ok|].
    destruct (latest_with_ok l false) as [o|] eqn:Ho; [|done]. simpl.
    apply latest_with_ok_elem in Ho as [Hin _]. destruct (Hok o Hin) as [_ Hcode].
    destruct (ob_error_code o); [by apply Hcode|done]. }
  rewrite Hcode, Hmd, Hsd. cbn [map_err].
  unfold validate_health_payload_relationship. rewrite Hss. by rewrite String.eqb_refl.
Qed.

(** ** A healthy node *)

Lemma fold_names_grow names : forall methods m,
  m ∈ methods ->
  m ∈ foldl (fun ms m => if str_in_list m ms then ms else ms ++ [m]) methods names.
Proof.
  induction names as [|x names IH]; intros methods m Hm; [done|]. cbn [foldl]. apply IH.
  destruct (str_in_list x methods); [done|]. apply elem_of_app. by left.
Qed.

Lemma add_degraded_grow methods o m : m ∈ methods -> m ∈ add_degraded methods o.
Proof.
  intros Hm. unfold add_degraded. apply fold_names_grow.
  destruct (_ || _); [apply elem_of_app; by left|done].
Qed.

(** The latest observation read of a node is recent at an instant. *)
Definition recent (t window : Z) (o : ProbeObservationInsert) : Prop :=
  (exists observed, rfc3339_parse (ob_observed_at o) = Some observed /\
     t - observed < (window + 1) * NANOS) /\
  (forall expires, ob_expires_at o = Some expires ->
     exists e, rfc3339_parse expires = Some e /\ t <= e).

Lemma not_stale_iff generated_at l window t o :
  rfc3339_parse generated_at = Some t -> latest_observation l = Some o -> 0 <= window ->
  latest_is_stale_or_expired generated_at l window = false <-> recent t window o.
Proof.
  intros Ht Ho Hw. unfold latest_is_stale_or_expired, recent. rewrite Ho, orb_false_iff, Logic.and_comm.
  unfold freshness_seconds, timestamp_before. rewrite Ht. apply Morphisms_Prop.and_iff_morphism.
  - destruct (rfc3339_parse (ob_observed_at o)) as [observed|]; cbn [mbind option_bind];
      [|split; [done|]; by intros (? & ? & _)].
    assert (E : (if t <? observed then 0 else Z.quot (t - observed) NANOS) <= window
                <-> t - observed < (window + 1) * NANOS).
    { destruct (t <? observed) eqn:E; bool_facts; [unfold NANOS; split; nia|].
      pose proof (Z.quot_rem' (t - observed) NANOS) as Hqr.
      pose proof (Z.rem_bound_pos (t - observed) NANOS ltac:(lia) ltac:(done)). split; nia. }
    split.
    + intros Hf. exists observed. split; [done|]. apply E. by destruct (t <? observed); bool_facts.
    + intros (x & [= <-] & Hx). apply E in Hx. destruct (t <? observed); by apply Z.ltb_ge.
  - destruct (ob_expires_at o) as [expires|]; [|split; [|done]; by intros _ ? [=]].
    destruct (rfc3339_parse expires) as [e|] eqn:Ee; cbn.
    + rewrite Z.ltb_ge. split; [intros Hle ? [= <-]; by exists e|].
      intros Hx. destruct (Hx _ eq_refl) as (e' & He & Hle). congruence.
    + split; [done|]. intros Hx. by destruct (Hx _ eq_refl) as (e' & He & _); rewrite Ee in He.
Qed.

(** An observation that gives no reason to call its method degraded. *)
Definition sound (o : ProbeObservationInsert) : Prop :=
  ob_ok o <> Some false /\ cert_observation_warns o = false /\
  degraded_methods_from_summary (safe_observation_summary (ob_summary_json o)) = [].

Lemma add_degraded_none o : add_degraded [] o = [] <-> sound o.
Proof.
  unfold add_degraded, sound. split.
  - intros Hn.
    assert (Hno : forall m, m ∉ foldl (fun ms m => if str_in_list m ms then ms else ms ++ [m])
      (if bool_decide (ob_ok o = Some false) || cert_observation_warns o then [] ++ [ob_method o] else [])
      (degraded_methods_from_summary (safe_observation_summary (ob_summary_json o))))
      by (rewrite Hn; intros m; apply not_elem_of_nil). clear Hn.
    destruct (bool_decide (ob_ok o = Some false) || cert_observation_warns o) eqn:E.
    { exfalso. apply (Hno (ob_method o)), fold_names_grow, list_elem_of_singleton. done. }
    apply orb_false_iff in E as [E1 E2]. apply bool_decide_eq_false_1 in E1. split_and!; [done|done|].
    destruct (degraded_methods_from_summary _) as [|m l]; [done|]. exfalso.
    apply (Hno m). cbn [foldl str_in_list existsb app]. apply fold_names_grow, list_elem_of_singleton. done.
  - intros (Hf & Hw & ->). rewrite bool_decide_false, Hw by done. done.
Qed.

(** No method is degraded exactly if the latest observations are sound. *)
Lemma degraded_none l :
  degraded_methods l = [] <->
  forall method o, method ∈ degraded_sources -> latest_for_method l method = Some o -> sound o.
Proof.
  unfold degraded_methods.
  set (step := fun methods m => from_option (add_degraded methods) methods (latest_for_method l m)).
  assert (Hnil : forall x : list string, dedup (sort_strs x) = [] <-> x = []).
  { intros x. split; [|by intros ->]. intros Hx. destruct x as [|m x]; [done|]. exfalso.
    apply (not_elem_of_nil m). rewrite <- Hx, dedup_elem, sort_strs_elem. by apply list_elem_of_here. }
  rewrite Hnil.
  assert (Hgrow : forall sources methods, methods <> [] -> foldl step methods sources <> []).
  { induction sources as [|s sources IH]; intros methods Hm; [done|]. cbn [foldl]. apply IH.
    unfold step. destruct (latest_for_method l s) as [o|]; [|done]. cbn. intros Hn.
    destruct methods as [|m methods]; [done|]. apply (not_elem_of_nil m). rewrite <- Hn.
    by apply add_degraded_grow, list_elem_of_here. }
  induction degraded_sources as [|s sources IH]; [split; [|done]; by intros _ ? ? ?%elem_of_nil|].
  cbn [foldl]. split.
  - intros Hf. assert (Hs : step [] s = []) by (destruct (step [] s) eqn:E; [done|]; by destruct (Hgrow sources (step [] s)); rewrite E).
    rewrite Hs in Hf. intros method o [->|Hin]%elem_of_cons Ho; [|by eapply IH].
    apply add_degraded_none. unfold step in Hs. by rewrite Ho in Hs.
  - intros Hall. assert (step [] s = []) as ->.
    { unfold step. destruct (latest_for_method l s) as [o|] eqn:Ho; [|done].
      apply add_degraded_none. eapply Hall; [by apply list_elem_of_here|done]. }
    apply IH. intros method o Hin. apply Hall. by apply list_elem_of_further.
Qed.
End snapshots.
