(* ===== verification/HealthScenario.v ===== *)
(** * HealthScenario: concrete times, digests and a small fleet

    Instances of the third-party classes whose laws the theorems on health
    use, and a database with one node.  An instant is written as the binary
    digits of its second, of a fixed width, then [Z] or a period and the
    fraction, so that the order of the texts is that of RFC 3339. *)

From S2P Require Import Prelude Text External Wire AgentConfig InputValidation StoreTypes.
From S2P Require Import StoredText StoragePayloads StoreDb TrustStore Enrollment ObservationPayloads.
From S2P Require Import AlertWebhook SchedulerStore NodeMetadata AlertQueue Ordering Slo.
From S2P Require Import ApiPayloads ApiStore ApiProjections HealthStore Health HealthRollups.
From S2P Require Import HealthRuns.

Module HealthToy.

(** ** Times *)

(** The lowest [n] binary digits of a number, the highest first. *)
Fixpoint bits (n : nat) (z : Z) : string :=
  match n with
  | O => EmptyString
  | S n' => String (if Z.testbit z (Z.of_nat n') then "1" else "0") (bits n' z)
  end.

Fixpoint read_bits (n : nat) (acc : Z) (s : string) : option (Z * string) :=
  match n, s with
  | O, _ => Some (acc, s)
  | S n', String "0" s' => read_bits n' (2 * acc) s'
  | S n', String "1" s' => read_bits n' (2 * acc + 1) s'
  | _, _ => None
  end.

(** The digits of a second count from the year 0. *)
Definition epoch : Z := 62167219200.
Definition digits : nat := 39.

Definition fraction_text (f : Z) : string :=
  match f with Zpos p => String "." (Toy.toy_format_pos p) | _ => "Z" end.

Definition format (t : Z) : string :=
  let s := unix_timestamp t + epoch in
  if (0 <=? s) && (s <? 2 ^ 39)
  then String "T" (bits digits s +:+ fraction_text (t mod NANOS))
  else String "X" (Toy.toy_format t).

Definition parse_fraction (s : string) : option Z :=
  match s with
  | "Z" => Some 0
  | String "." s' => p ← Toy.toy_parse_pos s'; if Zpos p <? NANOS then Some (Zpos p) else None
  | _ => None
  end.

Definition parse_utc (s : string) : option Z :=
  match s with
  | String "T" s' =>
      '(n, rest) ← read_bits digits 0 s';
      f ← parse_fraction rest;
      Some ((n - epoch) * NANOS + f)
  | String "X" s' => Toy.toy_parse s'
  | _ => None
  end.

(** A time at another offset is the code of both numbers. *)
Definition format_zoned (z : OffsetDateTime) : string :=
  if odt_offset z =? 0 then format (odt_instant z)
  else String "@" (Toy.toy_format_pos (encode (odt_instant z, odt_offset z))).

Definition parse_zoned (s : string) : option OffsetDateTime :=
  match s with
  | String "@" s' =>
      p ← Toy.toy_parse_pos s';
      '(t, o) ← decode p;
      Some {| odt_instant := t; odt_offset := o |}
  | _ => odt_utc <$> parse_utc s
  end.

#[export] Instance time_ops : TimeOps := {|
  rfc3339_parse s := odt_instant <$> parse_zoned s;
  rfc3339_format := format;
|}.

#[export] Instance zoned_ops : ZonedTimeOps := {|
  zoned_parse := parse_zoned;
  zoned_format := format_zoned;
|}.

(** ** Digests and documents *)

(** A polynomial of the bytes for every byte of the digest. *)
Definition toy_blake3 (b : list Z) : list Z :=
  map (fun i => fold_right (fun x acc => (x + (2 * i + 3) * acc) mod 256) i b)
      (seqZ 0 32).

Definition byte_at (b : list Z) (i : nat) : Z := nth i b 0 mod 256.

(** The usual groups of 8, 4, 4, 4 and 12 digits. *)
Definition toy_uuid (b : list Z) : string :=
  let group l := hex_lower (map (byte_at b) l) in
  group [0; 1; 2; 3]%nat +:+ "-" +:+ group [4; 5]%nat +:+ "-" +:+ group [6; 7]%nat +:+ "-"
  +:+ group [8; 9]%nat +:+ "-" +:+ group [10; 11; 12; 13; 14; 15]%nat.

#[export] Instance blake3_ops : Blake3Ops := {| blake3 := toy_blake3; uuid_text := toy_uuid |}.

#[export] Instance digest_ops : DigestOps :=
  {| blake3_hex := fun s => hex_lower (toy_blake3 (str_bytes s));
     uuid_parses := fun s => str_len s =? 36 |}.

(** The texts of a document one after the other. *)
Fixpoint value_bytes (v : Value) : list Z :=
  match v with
  | Null => [0]
  | VBool b => [if b then 1 else 2]
  | VNumber (PosInt n) => [3; n mod 256]
  | VNumber (NegInt n) => [4; n mod 256]
  | VNumber (Float n) => [5; n mod 256]
  | VString s => 34 :: str_bytes s
  | VArray l => fold_right (fun x acc => value_bytes x ++ acc) [93] l
  | VObject m => fold_right (fun e acc => str_bytes e.1 ++ value_bytes e.2 ++ acc) [125] m
  end.

#[export] Instance json_bytes_ops : JsonBytes := {| json_bytes := value_bytes |}.
#[export] Instance json_ops : JsonOps :=
  {| json_encoded_len := fun v => Z.of_nat (length (value_bytes v)) |}.
#[export] Instance endpoint_ops : EndpointIdOps := Toy.toy_endpoint_ops.

(** ** Laws *)

Lemma read_bits_bits n : forall z acc rest,
  read_bits n acc (bits n z +:+ rest) = Some (acc * 2 ^ Z.of_nat n + z mod 2 ^ Z.of_nat n, rest).
Proof.
  induction n as [|n IH]; intros z acc rest.
  { cbn [read_bits bits]. change (2 ^ Z.of_nat 0) with 1. rewrite Z.mod_1_r. repeat f_equal. lia. }
  assert (Hm : z mod 2 ^ Z.of_nat (S n)
               = Z.b2z (Z.testbit z (Z.of_nat n)) * 2 ^ Z.of_nat n + z mod 2 ^ Z.of_nat n).
  { rewrite Z.testbit_spec' by lia. rewrite Nat2Z.inj_succ, Z.pow_succ_r by lia.
    rewrite Z.mul_comm, Z.rem_mul_r by lia. lia. }
  rewrite Hm, Nat2Z.inj_succ, Z.pow_succ_r by lia. cbn [bits].
  change (String ?c (bits n z) +:+ rest) with (String c (bits n z +:+ rest)).
  destruct (Z.testbit z (Z.of_nat n)); cbn [read_bits]; rewrite IH; do 2 f_equal; simpl Z.b2z; lia.
Qed.

Lemma parse_fraction_text f : 0 <= f < NANOS -> parse_fraction (fraction_text f) = Some f.
Proof.
  intros Hf. destruct f as [|p|p]; [done| |lia]. cbn [fraction_text parse_fraction].
  rewrite Toy.toy_parse_format_pos. cbn [mbind option_bind]. by rewrite (proj2 (Z.ltb_lt _ _)) by lia.
Qed.

Lemma parse_format t : parse_utc (format t) = Some t.
Proof.
  unfold format. destruct (_ && _) eqn:E.
  - cbn [parse_utc]. rewrite read_bits_bits. cbn [mbind option_bind].
    bool_facts. rewrite parse_fraction_text by (apply Z.mod_pos_bound; done).
    cbn [mbind option_bind]. f_equal. unfold digits. change (2 ^ Z.of_nat 39) with (2 ^ 39).
    rewrite Z.mod_small by lia. unfold unix_timestamp. rewrite Z.mul_comm.
    pose proof (Z.div_mod t NANOS ltac:(done)). lia.
  - cbn [parse_utc]. apply (@rfc3339_parse_format Toy.toy_time_ops Toy.toy_time_laws).
Qed.

Lemma parse_zoned_format t : parse_zoned (format t) = Some (odt_utc t).
Proof.
  pose proof (parse_format t) as Hp. unfold format in *. destruct (_ && _); cbn [parse_zoned];
  rewrite Hp; done.
Qed.

#[export] Instance time_laws : TimeLaws.
Proof.
  split. intros t. unfold rfc3339_parse, rfc3339_format, time_ops. by rewrite parse_zoned_format.
Qed.

#[export] Instance zoned_laws : ZonedTimeLaws.
Proof.
  split; [done|by intros t|]. intros [t o]. unfold zoned_parse, zoned_format, zoned_ops, format_zoned.
  cbn [odt_instant odt_offset]. destruct (o =? 0) eqn:E; bool_facts.
  - subst. apply parse_zoned_format.
  - cbn [parse_zoned]. rewrite Toy.toy_parse_format_pos. cbn [mbind option_bind].
    by rewrite decode_encode.
Qed.

Lemma bits_order n : forall a b ra rb,
  0 <= a < 2 ^ Z.of_nat n -> 0 <= b < 2 ^ Z.of_nat n ->
  str_ltb (bits n a +:+ ra) (bits n b +:+ rb)
  = if a =? b then str_ltb ra rb else a <? b.
Proof.
  assert (Hg : forall n a b ra rb, str_ltb (bits n a +:+ ra) (bits n b +:+ rb)
    = let a' := a mod 2 ^ Z.of_nat n in let b' := b mod 2 ^ Z.of_nat n in
      if a' =? b' then str_ltb ra rb else a' <? b').
  { clear. induction n as [|n IH]; intros a b ra rb; cbn zeta.
    { change (2 ^ Z.of_nat 0) with 1. by rewrite !Z.mod_1_r. }
    assert (Hm : forall z, z mod 2 ^ Z.of_nat (S n)
                 = Z.b2z (Z.testbit z (Z.of_nat n)) * 2 ^ Z.of_nat n + z mod 2 ^ Z.of_nat n).
    { intros z. rewrite Z.testbit_spec' by lia. rewrite Nat2Z.inj_succ, Z.pow_succ_r by lia.
      rewrite Z.mul_comm, Z.rem_mul_r by lia. lia. }
    rewrite !Hm. cbn [bits].
    change (String (if Z.testbit a (Z.of_nat n) then "1"%char else "0"%char) (bits n a) +:+ ra)
      with (String (if Z.testbit a (Z.of_nat n) then "1"%char else "0"%char) (bits n a +:+ ra)).
    change (String (if Z.testbit b (Z.of_nat n) then "1"%char else "0"%char) (bits n b) +:+ rb)
      with (String (if Z.testbit b (Z.of_nat n) then "1"%char else "0"%char) (bits n b +:+ rb)).
    pose proof (Z.mod_pos_bound a (2 ^ Z.of_nat n) ltac:(lia)).
    pose proof (Z.mod_pos_bound b (2 ^ Z.of_nat n) ltac:(lia)).
    assert (Hs : forall c s t, str_ltb (String c s) (String c t) = str_ltb s t).
    { intros c s t. unfold str_ltb, str_bytes. cbn. by rewrite Z.ltb_irrefl, Z.eqb_refl. }
    destruct (Z.testbit a (Z.of_nat n)), (Z.testbit b (Z.of_nat n)); cbn [Z.b2z].
    - rewrite Hs, IH. cbn zeta. repeat case_match; bool_facts; try done; lia.
    - transitivity false; [done|]. rewrite (proj2 (Z.eqb_neq _ _)) by lia. symmetry.
      apply Z.ltb_ge. lia.
    - transitivity true; [done|]. rewrite (proj2 (Z.eqb_neq _ _)) by lia. symmetry.
      apply Z.ltb_lt. lia.
    - rewrite Hs, IH. cbn zeta. repeat case_match; bool_facts; try done; lia. }
  intros a b ra rb Ha Hb. rewrite Hg. cbn zeta. by rewrite !Z.mod_small.
Qed.

Lemma format_seconds s f :
  in_years s -> 0 <= f < NANOS ->
  format (s * NANOS + f) = String "T" (bits digits (s + epoch) +:+ fraction_text f).
Proof.
  intros Hs Hf. unfold format. rewrite unix_timestamp_fraction by done.
  unfold in_years in Hs. rewrite (proj2 (Z.leb_le _ _)), (proj2 (Z.ltb_lt _ _))
    by (unfold epoch; lia). cbn [andb].
  replace ((s * NANOS + f) mod NANOS) with f; [done|].
  rewrite (Z.add_comm (s * NANOS)), Z.mod_add by done. symmetry. by apply Z.mod_small.
Qed.

Lemma seconds_order a b fa fb :
  in_years a -> in_years b -> 0 <= fa < NANOS -> 0 <= fb < NANOS ->
  str_ltb (format (a * NANOS + fa)) (format (b * NANOS + fb))
  = if a =? b then str_ltb (fraction_text fa) (fraction_text fb) else a <? b.
Proof.
  intros Ha Hb Hfa Hfb. rewrite !format_seconds by done. unfold in_years in *.
  transitivity (str_ltb (bits digits (a + epoch) +:+ fraction_text fa)
                        (bits digits (b + epoch) +:+ fraction_text fb)); [done|].
  rewrite bits_order by (unfold digits, epoch; lia).
  destruct (a =? b) eqn:E; bool_facts; [subst; by rewrite Z.eqb_refl|].
  rewrite (proj2 (Z.eqb_neq _ _)) by lia. apply Bool.eq_true_iff_eq. rewrite !Z.ltb_lt. lia.
Qed.

#[export] Instance order_laws : TimeOrderLaws.
Proof.
  split; unfold rfc3339_format, time_ops.
  - intros a b Ha Hb. rewrite <- (Z.add_0_r (a * NANOS)), <- (Z.add_0_r (b * NANOS)).
    rewrite seconds_order by done. destruct (a =? b) eqn:E; bool_facts; [|done].
    subst. symmetry. apply Z.ltb_irrefl.
  - intros a b f Ha Hb Hf. rewrite <- (Z.add_0_r (b * NANOS)).
    rewrite seconds_order by (done || lia). destruct (a =? b) eqn:E; bool_facts.
    + subst. rewrite (proj2 (Z.leb_le _ _)) by lia. destruct f; [lia|done|lia].
    + apply Bool.eq_true_iff_eq. rewrite Z.ltb_lt, Z.leb_le. lia.
Qed.

Lemma hex_lower_chars b :
  Forall (fun x => 0 <= x <= 255) b ->
  forallb (fun c => is_ascii_hexdigit c || (c =? 45)) (str_bytes (hex_lower b)) = true.
Proof.
  intros Hb. apply forallb_forall. intros c Hc.
  pose proof (proj1 (forallb_forall _ _) (hex_lower_digits b Hb) c Hc) as Hx.
  cbn beta in Hx. bool_facts. by apply orb_true_iff; left.
Qed.

Lemma byte_at_bytes b l : Forall (fun x => 0 <= x <= 255) (map (byte_at b) l).
Proof.
  apply Forall_map, Forall_forall. intros i _. unfold byte_at.
  pose proof (Z.mod_pos_bound (nth i b 0) 256 ltac:(done)). lia.
Qed.

Lemma str_len_append a b : str_len (a +:+ b) = str_len a + str_len b.
Proof. induction a as [|c a IH]; [done|]. unfold str_len in *. simpl. lia. Qed.

#[export] Instance blake3_laws : Blake3Laws.
Proof.
  assert (Hlen : forall b, str_len (toy_uuid b) = 36).
  { intros b. unfold toy_uuid. cbn zeta. by rewrite !str_len_append, !str_len_hex_lower, !length_map. }
  split; [| |exact Hlen| |].
  - intros b. unfold blake3, blake3_ops, toy_blake3. by rewrite length_map.
  - intros b. unfold blake3, blake3_ops, toy_blake3. apply Forall_map, Forall_forall. intros i Hi.
    apply elem_of_seqZ in Hi. destruct b as [|x b]; cbn [fold_right]; [lia|].
    match goal with |- context [?n mod 256] => pose proof (Z.mod_pos_bound n 256 ltac:(done)) end. lia.
  - intros b. unfold uuid_text, blake3_ops, toy_uuid. cbn zeta. rewrite !str_bytes_app, !forallb_app.
    rewrite !hex_lower_chars by apply byte_at_bytes. done.
  - intros b. unfold uuid_parses, digest_ops, uuid_text, blake3_ops. by rewrite Hlen.
Qed.

(** ** A fleet of one node *)

Definition env (t : Z) : StoreEnv :=
  {| env_now := t; env_audit_now := t; env_sql_now := format t; env_uuid := "u" |}.

Definition node : NodeInsert :=
  {| ni_node_id := "edge-1"; ni_endpoint_id := "k1"; ni_name := "edge-1"; ni_region := "eu";
     ni_role := "ocserv" |}.

Definition core : Db := (add_node (env 0) empty_db node "alice").1.

(** A ping that answered and a certificate that runs out. *)
Definition observation (id method : string) (t : Z) (fields : list (string * Value))
    : ProbeObservationInsert :=
  {| ob_observation_id := id; ob_run_id := None; ob_node_id := Some "edge-1";
     ob_endpoint_id := Some "k1"; ob_method := method; ob_ok := Some true; ob_error_code := None;
     ob_duration_ms := Some (t mod 100); ob_observed_at := format (t * NANOS);
     ob_expires_at := None; ob_result_class := "low_sensitive_summary";
     ob_summary_json := osp_to_value
       {| osp_schema := OBSERVATION_SUMMARY_SCHEMA_V1; osp_result_class := "low_sensitive_summary";
          osp_method := method; osp_fields := fields |} |}.

Definition ping : ProbeObservationInsert := observation "o-1" PROBE_CONTROLLER_PING 1190 [].
(** A path probe from the node that failed. *)
Definition echo : ProbeObservationInsert :=
  {| ob_observation_id := "o-3"; ob_run_id := None; ob_node_id := Some "edge-1";
     ob_endpoint_id := Some "k1"; ob_method := PROBE_PATH_ECHO; ob_ok := Some false;
     ob_error_code := Some "CONNECT_FAILED"; ob_duration_ms := Some 20;
     ob_observed_at := format (1190 * NANOS); ob_expires_at := None;
     ob_result_class := "controller_rpc_summary";
     ob_summary_json := osp_to_value
       {| osp_schema := OBSERVATION_SUMMARY_SCHEMA_V1; osp_result_class := "controller_rpc_summary";
          osp_method := PROBE_PATH_ECHO;
          osp_fields := [("message", VString "path probe failed")] |} |}.
Definition expiring : ProbeObservationInsert :=
  observation "o-2" OCSERV_CERT_EXPIRY 1195 [("status", VString "expiring_soon")].

Definition fleet (observations : list ProbeObservationInsert) : HealthDb :=
  {| hd_sched := {| sd_core := core; sd_jobs := ∅; sd_claims := ∅; sd_runs := ∅;
                    sd_observations := list_to_map (map (fun o => (ob_observation_id o, o)) observations);
                    sd_maintenance := None |};
     hd_snapshots := ∅; hd_history := ∅; hd_rollups := ∅; hd_runs := ∅; hd_policy := None |}.

Definition clock (t : Z) : HealthClock :=
  {| hc_now := t * NANOS; hc_actor := "evaluator"; hc_recover := env t; hc_start := env t;
     hc_finish := env t |}.

(** One evaluation 1230 seconds after the epoch. *)
Definition evaluated_fleet : HealthDb := (run_health_evaluation_once (clock 1230) (fleet [ping])).1.

Definition get_ok {E A} (x : A) (r : result E A) : A := match r with Ok a => a | Err _ => x end.

(** The rows and snapshots of the fleet with both observations. *)
Definition expiring_rows : list NodeHealth :=
  get_ok [] (compute_rows (fleet [ping; expiring]) (format (1200 * NANOS)) default_health_policy
               (list_nodes (fleet [ping; expiring]))).
Definition expiring_snapshots : list HealthSnapshotRecord :=
  get_ok [] (try_map (fun row => health_snapshot row (format (1200 * NANOS))) expiring_rows).

(** The same evaluation step by step. *)
Definition start_1200 : HealthEvaluationStart :=
  evaluation_start (health_input_watermark expiring_snapshots)
    (health_policy_version default_health_policy) (format (1200 * NANOS)).
Definition started_fleet : HealthDb :=
  (write_health_evaluation_start (env 1230) (fleet [ping; expiring]) start_1200 "evaluator").1.
Definition completed_fleet : HealthDb :=
  (write_health_evaluation_finish (env 1230) started_fleet
     {| ef_evaluation_id := es_evaluation_id start_1200; ef_finished_at := format (1230 * NANOS);
        ef_snapshots := expiring_snapshots |} "evaluator").1.
Definition completed_run : HealthEvaluationRunRecord :=
  {| er_evaluation_id := es_evaluation_id start_1200;
     er_input_watermark := es_input_watermark start_1200;
     er_policy_version := es_policy_version start_1200; er_computation_version := "health-v1";
     er_started_at := format (1200 * NANOS); er_finished_at := Some (format (1230 * NANOS));
     er_status := "completed"; er_snapshot_count := 1; er_failure_code := None |}.

(** An interactive evaluation half a second after the bucket of the first. *)
Definition fraction_fleet : HealthDb :=
  (run_health_summary (env 1500) "alice" "44d48122-5fa0-4d8e-8b2c-d9ba7778e5a6"
     (1500 * NANOS + 500000000) evaluated_fleet).1.

Definition edge : NodeRecord :=
  {| node_id := "edge-1"; node_endpoint_id := "k1"; node_name := "edge-1"; node_region := "eu";
     node_role := "ocserv"; node_enabled := true |}.

(** What the first evaluation stored, and its rollup. *)
Definition ping_snapshots (t : Z) : list HealthSnapshotRecord :=
  get_ok [] (let? rows := map_err StoreFailure
               (compute_rows (fleet [ping]) (format t) default_health_policy
                  (list_nodes (fleet [ping]))) in
             try_map (fun row => health_snapshot row (format t)) rows).
Definition start_ping : HealthEvaluationStart :=
  evaluation_start (health_input_watermark (ping_snapshots (1200 * NANOS)))
    (health_policy_version default_health_policy) (format (1200 * NANOS)).
Definition ping_rows (id : string) (t : Z) : list HealthHistoryRecord :=
  map (fun s => {| hh_evaluation_id := id; hh_snapshot := s |}) (ping_snapshots t).
Definition no_row : HealthHistoryRecord :=
  {| hh_evaluation_id := EmptyString;
     hh_snapshot := {| hs_node_id := EmptyString; hs_endpoint_id := None;
       hs_computed_at := EmptyString; hs_status := EmptyString; hs_freshness_seconds := None;
       hs_last_success_at := None; hs_last_failure_at := None; hs_last_error_code := None;
       hs_degraded_methods_json := Null; hs_summary_json := Null |} |}.
Definition ping_row : HealthHistoryRecord :=
  default no_row (head (ping_rows (es_evaluation_id start_ping) (1200 * NANOS))).
Definition fraction_row : HealthHistoryRecord :=
  default no_row (head (ping_rows "health-eval-44d48122-5fa0-4d8e-8b2c-d9ba7778e5a6"
                          (1500 * NANOS + 500000000))).
Definition ping_rollups : list HealthRollupRecord :=
  get_ok [] (try_map (rollup_row evaluated_fleet (utc_seconds 1200) 300) [(0, "edge-1")]).

Definition no_health : NodeHealth :=
  {| no_node_id := EmptyString; no_endpoint_id := EmptyString; no_endpoint_status := None;
     no_region := EmptyString; no_role := EmptyString; no_status := Unknown;
     no_freshness_seconds := None; no_last_success_at := None; no_last_failure_at := None;
     no_last_error_code := None; no_consecutive_unreachable_failures := 0;
     no_degraded_methods := [] |}.
Definition echo_health : NodeHealth :=
  get_ok no_health (compute_node_health (fleet [echo]) edge (format (1200 * NANOS))
                      default_health_policy).
Definition echo_read : ProbeObservationInsert :=
  with_observation_summary (VObject [("message", VString "path probe failed");
                                     ("result_class", VString "controller_rpc_summary")]) echo.
Definition fraction_rollup : HealthRollupRecord :=
  get_ok {| ru_node_id := EmptyString; ru_bucket_seconds := 0; ru_bucket_start := EmptyString;
            ru_bucket_end := EmptyString; ru_input_watermark := EmptyString; ru_health_samples := 0;
            ru_covered_slots := 0; ru_expected_slots := 0; ru_healthy_count := 0;
            ru_degraded_count := 0; ru_unreachable_count := 0; ru_stale_count := 0;
            ru_disabled_count := 0; ru_unknown_count := 0; ru_observation_count := 0;
            ru_observation_error_count := 0; ru_duration_sample_count := 0;
            ru_duration_p50_ms := None; ru_duration_p95_ms := None; ru_cert_warning_count := 0;
            ru_cert_critical_count := 0; ru_fingerprint_sample_count := 0;
            ru_fingerprint_change_count := 0; ru_computed_at := EmptyString |}
         (rollup_row fraction_fleet (utc_seconds 1200) 300 (0, "edge-1")).
End HealthToy.
