(* ===== verification/HealthProperties.v ===== *)
(** * HealthProperties: what the health evaluation guarantees *)

From S2P Require Import Prelude Text External Wire AgentConfig InputValidation StoreTypes.
From S2P Require Import StoredText StoragePayloads StoreDb Enrollment ObservationPayloads.
From S2P Require Import AlertWebhook SchedulerStore NodeMetadata AlertQueue Ordering Slo.
From S2P Require Import ApiPayloads ApiStore ApiProjections StoreLemmas HealthStore Health.
From S2P Require Import HealthRollups HealthRuns HealthEvaluation HealthSnapshots HealthScenario.
Import HealthToy.


(** The stored nodes are valid and stored under their names. *)
Definition nodes_ok `{EndpointIdOps} (d : HealthDb) : Prop :=
  map_Forall (fun k n => node_id n = k /\ node_ok n) (db_nodes (hd_core d)).

Section properties.
Context `{EndpointIdOps, TimeOps, ZonedTimeOps, JsonOps, JsonBytes, DigestOps, Blake3Ops}.



Section windows.
Context `{!ZonedTimeLaws, !TimeLaws, !TimeOrderLaws, !Blake3Laws}.









(** A record checked in a batch is checked alone. *)
Lemma validate_rollup_alone seen r : validate_rollup seen r = Ok tt -> validate_rollup [] r = Ok tt.
Proof.
  unfold validate_rollup. intros Hv. peel_in Hv. bool_facts.
  rewrite bool_decide_false by apply not_elem_of_nil. done.
Qed.

Lemma validate_rollups_each rows : forall seen r,
  validate_rollups seen rows = Ok tt -> r ∈ rows -> validate_rollup [] r = Ok tt.
Proof.
  induction rows as [|x rows IH]; intros seen r Hv Hr; [by apply elem_of_nil in Hr|].
  cbn [validate_rollups] in Hv. destruct (validate_rollup seen x) as [[]|] eqn:Hx; [|done].
  apply elem_of_cons in Hr as [->|Hr]; [by eapply validate_rollup_alone|by eapply IH].
Qed.

(** A batch with a row that is refused is refused, and nothing is written. *)
Lemma refused_row_refuses_batch env d id rows actor r e :
  r ∈ rows -> validate_rollup [] r = Err e ->
  exists e', write_health_rollups env d {| rw_operation_id := id; rw_rows := rows |} actor = (d, Err e').
Proof.
  intros Hr He. unfold write_health_rollups. destruct (map_err _ _) as [|e1]; [|by exists e1].
  destruct (validate_health_rollup_write _) as [[]|e1] eqn:Hv; [|by exists e1]. exfalso.
  unfold validate_health_rollup_write in Hv. peel_in Hv. cbn [rw_rows] in Hv.
  by rewrite (validate_rollups_each _ _ _ Hv Hr) in He.
Qed.

(** An evaluation of a node at a whole second of the slot [k]. *)
Definition evaluated_in_slot (d : HealthDb) (node : string) (k : Z) : Prop :=
  exists key r s, hd_history d !! key = Some r /\ hs_node_id (hh_snapshot r) = node /\
    hs_computed_at (hh_snapshot r) = rfc3339_format (s * NANOS) /\ 300 * k <= s < 300 * k + 300.

(** The slots of a bucket that was evaluated in every slot, and once more in the
    first second after it, are one too many. *)
Lemma slot_too_many d node start bs src key r f :
  bucket_size bs -> in_years start -> in_years (start + bs) -> (300 | start) -> 0 < f < NANOS ->
  (forall k, start / 300 <= k < start / 300 + bs / 300 -> evaluated_in_slot d node k) ->
  hd_history d !! key = Some r -> hs_node_id (hh_snapshot r) = node ->
  hs_computed_at (hh_snapshot r) = rfc3339_format ((start + bs) * NANOS + f) ->
  health_rollup_source d node (zoned_format (utc_seconds start))
    (zoned_format (utc_seconds (start + bs))) = Ok src ->
  bs / 300 < slots_seen (src_history src).
Proof.
  intros Hbs Hy1 Hy2 [q Hq] Hf Hall Hk Hn Ht Hsrc.
  pose proof (bucket_size_slots bs Hbs) as Hslots.
  assert (Hdiv : start / 300 = q) by (rewrite Hq; by apply Z.div_mul). rewrite Hdiv in Hall.
  assert (Hmul : bs = bs / 300 * 300) by (destruct Hbs as [-> | [-> | ->]]; done).
  apply rollup_source_spec in Hsrc as (_ & _ & Hh & _ & _).
  unfold utc_seconds in Hh. rewrite !zoned_format_utc in Hh.
  assert (Hin : forall k x, hd_history d !! k = Some x -> hs_node_id (hh_snapshot x) = node ->
    sql_window (rfc3339_format (start * NANOS)) (rfc3339_format ((start + bs) * NANOS))
               (hs_computed_at (hh_snapshot x)) = true -> x ∈ src_history src).
  { intros k x Hk' Hn' Hwin. rewrite Hh, sort_by_elem. apply list_elem_of_In, filter_In.
    split; [apply list_elem_of_In, rows_of_elem; eauto|]. unfold history_in.
    by rewrite Hn', String.eqb_refl, Hwin. }
  assert (Hsub : (list_to_set (seqZ q (bs / 300 + 1)) : gset Z)
                 ⊆ list_to_set (omap slot_of (src_history src))).
  { intros k. rewrite !elem_of_list_to_set, elem_of_seqZ, list_elem_of_omap. intros Hkr.
    destruct (Z.eq_dec k (q + bs / 300)) as [->|Hne].
    - exists r. split.
      + eapply Hin; [done|done|]. rewrite Ht, window_fraction by done.
        apply andb_true_iff. rewrite Z.leb_le, Z.ltb_lt. lia.
      + unfold slot_of. rewrite Ht, rfc3339_parse_format. simpl.
        rewrite unix_timestamp_fraction by lia. f_equal. symmetry. apply (Z.div_unique _ _ _ 0); lia.
    - destruct (Hall k) as (key' & r' & s & Hk' & Hn' & Ht' & Hs'); [lia|]. exists r'.
      assert (in_years s) by (unfold in_years in *; lia). split.
      + eapply Hin; [done|done|]. rewrite Ht', window_whole by done.
        apply andb_true_iff. rewrite Z.leb_le, Z.ltb_lt. lia.
      + unfold slot_of. rewrite Ht', rfc3339_parse_format. simpl. rewrite unix_timestamp_whole. f_equal.
        symmetry. apply (Z.div_unique _ _ _ (s - 300 * k)); lia. }
  apply subseteq_size in Hsub. rewrite size_list_to_set, length_seqZ in Hsub by apply NoDup_seqZ.
  unfold slots_seen. lia.
Qed.

(** C37: Evaluations are compared with the bounds of a bucket as texts, and a text
    with a fraction is below the text of its own second.  So when a node has an
    evaluation at a whole second of every slot of a bucket (one, for a bucket of
    five minutes), one more evaluation of it in the first second after the
    bucket, but not at its very start, is read with the bucket: the row covers
    one slot too many, its check fails, and the write of every batch with that
    row is refused as a whole. *)
Theorem subsecond_evaluation_refused env actor d from bs i node f key r2 r id rows :
  let start := from + i * bs in
  bucket_size bs -> in_years start -> in_years (start + bs) -> (300 | start) -> 0 < f < NANOS ->
  (forall k, start / 300 <= k < start / 300 + bs / 300 -> evaluated_in_slot d node k) ->
  hd_history d !! key = Some r2 -> hs_node_id (hh_snapshot r2) = node ->
  hs_computed_at (hh_snapshot r2) = rfc3339_format ((start + bs) * NANOS + f) ->
  rollup_row d (utc_seconds from) bs (i, node) = Ok r -> r ∈ rows ->
  validate_rollup [] r = Err (InvalidInput "health rollup counters are inconsistent") /\
  exists e, write_health_rollups env d {| rw_operation_id := id; rw_rows := rows |} actor = (d, Err e).
Proof.
  intros start Hbs Hy1 Hy2 Hq Hf Hall Hk Hn Ht Hr Hin.
  apply rollup_row_parts in Hr as (src & Hsrc & Hb). fold start in Hsrc, Hb.
  assert (validate_rollup [] r = Err (InvalidInput "health rollup counters are inconsistent")) as He.
  { rewrite (built_row_checked d node start bs src r [] Hbs Hsrc Hb (not_elem_of_nil _)).
    rewrite (proj2 (Z.ltb_lt _ _)); [done|].
    eapply slot_too_many; [exact Hbs|exact Hy1|exact Hy2|exact Hq|exact Hf|exact Hall|exact Hk|exact Hn|exact Ht|exact Hsrc]. }
  split; [done|]. by eapply refused_row_refuses_batch.
Qed.
End windows.

(** C19: Whatever the order of the operations on the health tables, an evaluation
    that has been started is recorded by one audited start; it has ended exactly
    if one audited finish, failure or recovery ended it, with the columns its
    status asks for; it has exactly the history rows it counts; and none of these
    operations changes a run that has ended or removes a row of the history
    (pruning by retention is not one of them). *)
Theorem evaluation_recorded_once d id r :
  health_reached d -> hd_runs d !! id = Some r ->
  run_check r /\
  length (events_of start_events id (db_audit (hd_core d))) = 1%nat /\
  length (events_of end_events id (db_audit (hd_core d))) = (if is_running r then 0 else 1)%nat /\
  Z.of_nat (length (rows_of_evaluation d id)) = er_snapshot_count r /\
  (forall d', health_step d d' -> extends d d').
Proof.
  intros Hd Hr. apply health_reached_ok in Hd as Hok.
  destruct (ho_recorded _ Hok id) as [R1 R2 R3 R4]. rewrite Hr in R2, R3.
  split_and!; [by apply R1|done|done|by apply R4|].
  intros d' Hs. by apply (health_step_preserves d d' Hok Hs).
Qed.

(** C36: Running the evaluator again within the minute changes nothing: it computes
    the same snapshots, finds the run it completed and reports a replay. *)
Theorem evaluation_replays `{!TimeLaws} c c' d0 d1 :
  health_reached d0 -> run_health_evaluation_once c d0 = (d1, Ok Completed) ->
  map_Forall (fun _ r => is_running r = false) (hd_runs d1) ->
  evaluation_at (hc_now c') = evaluation_at (hc_now c) -> hc_actor c' = hc_actor c ->
  run_health_evaluation_once c' d1 = (d1, Ok Replayed).
Proof.
  intros Hd Hrun Hidle Hat Hact. apply health_reached_ok in Hd.
  destruct (evaluation_completed c d0 d1 Hd Hrun) as (policy & rows & snapshots & run & Hev).
  eapply evaluated_replays; [exact Hev| |done|done]. intros id r Hr. exact (Hidle id r Hr).
Qed.

(** From valid stored nodes and observations the evaluator computes, for every
    node, a snapshot that the store takes, unless the projection of an
    observation has replaced the name of a degraded method. *)
Theorem evaluation_snapshots_accepted d generated_at policy rows :
  nodes_ok d -> map_Forall (fun _ o => observation_ok o) (sd_observations (hd_sched d)) ->
  is_Some (rfc3339_parse generated_at) ->
  compute_rows d generated_at policy (list_nodes d) = Ok rows ->
  Forall (fun row => REDACTED ∉ no_degraded_methods row) rows ->
  exists snapshots, try_map (fun row => health_snapshot row generated_at) rows = Ok snapshots /\
    validate_snapshots [] snapshots = Ok tt /\
    map hs_node_id snapshots = map node_id (list_nodes d).
Proof.
  intros Hn Hobs Hg Hrows Hred. unfold compute_rows in Hrows. apply try_map_Forall2 in Hrows.
  assert (Hok : Forall node_ok (list_nodes d)).
  { apply Forall_forall. intros n Hin. unfold list_nodes in Hin.
    apply sort_by_elem, rows_of_elem in Hin as [k Hk]. by apply (Hn k n). }
  assert (Hnd : NoDup (map node_id (list_nodes d))).
  { unfold list_nodes. rewrite (Permutation_map node_id (sort_by_perm _ _)). unfold rows_of.
    rewrite map_map, (map_ext_in _ fst); [apply NoDup_fst_map_to_list|].
    intros [k n] Hin. apply list_elem_of_In, elem_of_map_to_list in Hin. by apply (Hn k n). }
  assert (Hseen : forall n, n ∈ list_nodes d -> node_id n ∉ @nil string)
    by (intros; apply not_elem_of_nil).
  revert Hseen. generalize (@nil string). revert Hok Hnd Hred. clear Hn.
  induction Hrows as [|n row nodes rows Hc _ IH]; intros Hok Hnd Hred seen Hseen; [by exists []|].
  apply Forall_cons in Hok as [Hn Hok]. apply Forall_cons in Hred as [Hr Hred].
  cbn [map] in Hnd. apply NoDup_cons in Hnd as [Hni Hnd].
  destruct (snapshot_accepted d n generated_at policy row Hn Hobs Hg Hc Hr)
    as (s & Hs & Hid & _ & _ & Hv).
  destruct (IH Hok Hnd Hred (node_id n :: seen)) as (snapshots & Hss & Hvs & Hids).
  { intros n' Hin [E|Hin']%elem_of_cons.
    - apply Hni. rewrite <- E. by apply list_elem_of_fmap_2.
    - eapply Hseen; [|exact Hin']. apply elem_of_cons. auto. }
  exists (s :: snapshots). cbn [try_map validate_snapshots map]. rewrite Hs, Hss, Hid, Hids.
  split_and!; [done| |done]. rewrite Hv; [done|]. apply Hseen, elem_of_cons. auto.
Qed.



End properties.

(** ** Concrete evaluations *)

Lemma fleet_reached observations : health_reached (fleet observations).
Proof. by apply reached_empty. Qed.

Lemma evaluation_recorded_once_witness :
  exists r, hd_runs completed_fleet !! es_evaluation_id start_1200 = Some r /\
    er_status r = "completed" /\
    length (events_of end_events (es_evaluation_id start_1200)
              (db_audit (hd_core completed_fleet))) = 1%nat /\
    Z.of_nat (length (rows_of_evaluation completed_fleet (es_evaluation_id start_1200))) = 1.
Proof.
  assert (Hr : health_reached completed_fleet).
  { eapply reached_step; [|apply step_finish]. eapply reached_step; [apply fleet_reached|].
    apply step_start. by vm_compute. }
  assert (E : hd_runs completed_fleet !! es_evaluation_id start_1200 = Some completed_run)
    by (vm_compute; reflexivity).
  pose proof (evaluation_recorded_once completed_fleet _ _ Hr E) as (_ & _ & He & Hn & _).
  exists completed_run. split_and!; [exact E|reflexivity|exact He|exact Hn].
Defined.

Lemma evaluation_replays_witness :
  run_health_evaluation_once (clock 1250) evaluated_fleet = (evaluated_fleet, Ok Replayed).
Proof.
  apply (evaluation_replays (clock 1230) (clock 1250) (fleet [ping]) evaluated_fleet).
  - apply fleet_reached.
  - apply injective_projections; [cbn [fst]; unfold evaluated_fleet; reflexivity|].
    vm_compute. reflexivity.
  - by apply (bool_decide_unpack _); vm_compute.
  - vm_compute. reflexivity.
  - reflexivity.
Defined.

(** The rows of a table whose list has been evaluated. *)
Ltac table_rows Hk rows :=
  apply (proj2 (elem_of_map_to_list _ _ _)) in Hk; rewrite rows in Hk;
  rewrite !elem_of_cons, elem_of_nil in Hk;
  repeat match type of Hk with
  | _ \/ _ => destruct Hk as [Hk|Hk]
  end; [apply (proj1 (pair_eq _ _ _ _)) in Hk as [-> ->]..|destruct Hk].

Lemma fleet_nodes observations :
  map_to_list (db_nodes (hd_core (fleet observations))) = [("edge-1", edge)].
Proof. vm_compute. reflexivity. Qed.

Lemma fleet_observations :
  map_to_list (sd_observations (hd_sched (fleet [ping; expiring]))) = [("o-1", ping); ("o-2", expiring)].
Proof. vm_compute. reflexivity. Qed.

Lemma evaluation_snapshots_accepted_witness :
  exists snapshots,
    try_map (fun row => health_snapshot row (format (1200 * NANOS))) expiring_rows = Ok snapshots /\
    validate_snapshots [] snapshots = Ok tt /\ map hs_node_id snapshots = ["edge-1"].
Proof.
  assert (E : map node_id (list_nodes (fleet [ping; expiring])) = ["edge-1"])
    by (vm_compute; reflexivity).
  rewrite <- E. apply (evaluation_snapshots_accepted (fleet [ping; expiring])
    (format (1200 * NANOS)) default_health_policy expiring_rows).
  - intros k n Hk. table_rows Hk (fleet_nodes [ping; expiring]). split; [done|].
    split; [done..|by eexists].
  - intros k o Hk. table_rows Hk fleet_observations; (split; [by vm_compute; eexists|done]).
  - by vm_compute; eexists.
  - by vm_compute.
  - by apply (bool_decide_unpack _); vm_compute.
Defined.






Lemma subsecond_evaluation_refused_witness :
  rollup_row fraction_fleet (utc_seconds 1200) 300 (0, "edge-1") = Ok fraction_rollup /\
  exists e, write_health_rollups (env 1600) fraction_fleet
    {| rw_operation_id := "health-rollup-33d48122-5fa0-4d8e-8b2c-d9ba7778e5a6";
       rw_rows := [fraction_rollup] |} "evaluator" = (fraction_fleet, Err e).
Proof.
  assert (B : bucket_size 300) by (by left).
  assert (Y : in_years (1200 + 0 * 300) /\ in_years (1200 + 0 * 300 + 300) /\ (300 | 1200 + 0 * 300) /\
              0 < 500000000 < NANOS) by (split_and!; [done|done|by exists 4|done|done]).
  destruct Y as (Y1 & Y2 & Q & F).
  assert (E : rollup_row fraction_fleet (utc_seconds 1200) 300 (0, "edge-1") = Ok fraction_rollup)
    by (vm_compute; reflexivity).
  assert (H1 : hd_history fraction_fleet !! (es_evaluation_id start_ping, "edge-1")
    = Some ping_row) by (vm_compute; reflexivity).
  assert (H2 : hd_history fraction_fleet
    !! ("health-eval-44d48122-5fa0-4d8e-8b2c-d9ba7778e5a6", "edge-1") = Some fraction_row)
    by (vm_compute; reflexivity).
  assert (T1 : hs_computed_at (hh_snapshot ping_row) = rfc3339_format (1200 * NANOS))
    by (vm_compute; reflexivity).
  assert (T2 : hs_computed_at (hh_snapshot fraction_row)
    = rfc3339_format (((1200 + 0 * 300) + 300) * NANOS + 500000000)) by (vm_compute; reflexivity).
  assert (A : forall k, (1200 + 0 * 300) / 300 <= k < (1200 + 0 * 300) / 300 + 300 / 300 ->
    evaluated_in_slot fraction_fleet "edge-1" k).
  { change ((1200 + 0 * 300) / 300) with 4. change (300 / 300) with 1. intros k Hk. exists (es_evaluation_id start_ping, "edge-1"), ping_row, 1200.
    split; [exact H1|]. split; [vm_compute; reflexivity|]. split; [exact T1|lia]. }
  split; [exact E|].
  apply (subsecond_evaluation_refused (env 1600) "evaluator" fraction_fleet 1200 300 0 "edge-1" 500000000
    ("health-eval-44d48122-5fa0-4d8e-8b2c-d9ba7778e5a6", "edge-1") fraction_row fraction_rollup);
    [exact B|exact Y1|exact Y2|exact Q|exact F|exact A|exact H2|vm_compute; reflexivity|exact T2|exact E|].
  apply list_elem_of_here.
Defined.
