(* ===== verification/AlertEvents.v ===== *)
(** * AlertEvents: the tables of alerts and of webhooks
      (ocfleet-cli/src/store.rs, storage_payloads.rs)

    Alerts are kept by identifier with a unique dedupe key; the evaluation of
    alerts, the operators' transitions and the end of a delivery write them, each
    with the state it has read.  Hooks are created, enabled and disabled.  The
    tables are those of AlertQueue. *)

From stdpp Require Import pretty.
From S2P Require Import Prelude Text External Wire AgentConfig InputValidation StoreTypes.
From S2P Require Import StoredText StoragePayloads StoreDb Enrollment ObservationPayloads.
From S2P Require Import AlertWebhook SchedulerStore NodeMetadata AlertQueue.
From S2P Require Import Ordering ApiPayloads ApiStore HealthStore.

(** ** The detail of an alert before it is stored *)

(** A member of [LegacyAlertDetailV1], by name or by position. *)
Definition legacy_names : list string :=
  ["methods"; "summary"; "silenced_until"; "silence_reason"; "resolve_reason"; "freshness_seconds";
   "consecutive_failures"; "days_remaining"; "endpoint_id"; "status"; "last_error_code";
   "endpoint_status"; "result_class"].

Definition legacy_members (v : Value) : option (list (option Value)) :=
  match v with
  | VObject m =>
      if existsb (fun e => negb (str_in_list e.1 legacy_names)) m then None
      else Some (map (fun name => map_get name m) legacy_names)
  | VArray l =>
      if Nat.leb (length l) (length legacy_names)
      then Some (map Some l ++ replicate (length legacy_names - length l) None) else None
  | _ => None
  end.

Record LegacyAlertDetailV1 := {
  ld_methods : list string;
  ld_summary : option AlertSummaryFieldsV1;
  ld_silenced_until : option string;
  ld_silence_reason : option string;
  ld_resolve_reason : option string;
  ld_fields : AlertSummaryFieldsV1;
}.

Definition legacy_decode (v : Value) : option LegacyAlertDetailV1 :=
  match legacy_members v with
  | Some (methods :: summary :: until :: silence :: resolve :: fields) =>
      let opt {A} (de : Value -> option A) (o : option Value) := de_opt de (default Null o) in
      methods ← from_option (de_vec as_str) (Some []) methods;
      summary ← opt asf_decode summary;
      until ← opt as_str until;
      silence ← opt as_str silence;
      resolve ← opt as_str resolve;
      fields ← asf_decode (VArray (map (default Null) fields));
      Some {| ld_methods := methods; ld_summary := summary; ld_silenced_until := until;
              ld_silence_reason := silence; ld_resolve_reason := resolve; ld_fields := fields |}
  | _ => None
  end.

(** [AlertSummaryFieldsV1::default()]. *)
Definition no_summary : AlertSummaryFieldsV1 :=
  {| asf_freshness_seconds := None; asf_consecutive_failures := None; asf_days_remaining := None;
     asf_endpoint_id := None; asf_status := None; asf_last_error_code := None;
     asf_endpoint_status := None; asf_result_class := None |}.

Definition merge_alert_summary_field {T} (nested legacy : option T) (field : string)
    : result string (option T) :=
  match nested, legacy with
  | Some _, Some _ => Err ("alert detail has duplicate " +:+ field)
  | _, Some _ => Ok legacy
  | _, None => Ok nested
  end.

Record AlertEvaluationEntry := {
  ae_before : option AlertEventRecord;
  ae_after : AlertEventRecord;
}.

Record AlertEvaluationWrite := {
  aw_evaluation_id : string;
  aw_entries : list AlertEvaluationEntry;
}.

Record AlertStateTransition := {
  tr_operation_id : string;
  tr_event : string;
  tr_before : AlertEventRecord;
  tr_after : AlertEventRecord;
  tr_reason : string;
}.

#[export] Instance alert_event_eq_dec : EqDecision AlertEventRecord.
Proof. solve_decision. Defined.

Record AlertDeliveryFinalizeWrite := {
  fw_delivery_id : string;
  fw_hook_type : string;
  fw_ok : bool;
  fw_dry_run : bool;
  fw_alert_count : Z;
  fw_bytes_written : Z;
  fw_error_code : option string;
  fw_entries : list AlertEvaluationEntry;
}.

Definition MAX_ALERT_EVALUATION_RECORDS : Z := 1000.
Definition MAX_ALERT_DELIVERY_FINALIZE_RECORDS : Z := 1000.

Definition with_alert_detail (detail : Value) (a : AlertEventRecord) : AlertEventRecord :=
  {| al_alert_id := al_alert_id a; al_dedupe_key := al_dedupe_key a; al_node_id := al_node_id a;
     al_severity := al_severity a; al_state := al_state a; al_reason_code := al_reason_code a;
     al_first_seen_at := al_first_seen_at a; al_last_seen_at := al_last_seen_at a;
     al_last_sent_at := al_last_sent_at a; al_resolved_at := al_resolved_at a;
     al_detail_json := detail |}.

(** The [CHECK] on [reason_code]. *)
Definition ALERT_REASON_CODES : list string :=
  ["NODE_UNREACHABLE"; "NODE_STALE"; "OCSERV_DEGRADED"; "CERT_EXPIRING_CRITICAL";
   "CERT_EXPIRING_WARNING"; "ENDPOINT_INACTIVE"].

(** [WHERE dedupe_key = ?1]; the column is unique. *)
Definition alert_row (key : string) (d : QueueDb) : option AlertEventRecord :=
  snd <$> List.find (fun e => String.eqb (al_dedupe_key e.2) key) (map_to_list (qd_alerts d)).

Section alert_events.
Context `{EndpointIdOps, TimeOps, JsonOps, JsonBytes, DigestOps, Blake3Ops}.
Implicit Types (env : StoreEnv).

Definition adl_from_legacy (v : Value) : result string AlertDetailPayloadV1 :=
  let? l := ok_or (legacy_decode v) "alert detail contains unsupported fields or values" in
  let s := default no_summary (ld_summary l) in
  let f := ld_fields l in
  let? freshness := merge_alert_summary_field (asf_freshness_seconds s) (asf_freshness_seconds f)
                      "freshness_seconds" in
  let? failures := merge_alert_summary_field (asf_consecutive_failures s)
                     (asf_consecutive_failures f) "consecutive_failures" in
  let? days := merge_alert_summary_field (asf_days_remaining s) (asf_days_remaining f)
                 "days_remaining" in
  let? endpoint := merge_alert_summary_field (asf_endpoint_id s) (asf_endpoint_id f)
                     "endpoint_id" in
  let? status := merge_alert_summary_field (asf_status s) (asf_status f) "status" in
  let? code := merge_alert_summary_field (asf_last_error_code s) (asf_last_error_code f)
                 "last_error_code" in
  let? endpoint_status := merge_alert_summary_field (asf_endpoint_status s) (asf_endpoint_status f)
                            "endpoint_status" in
  let? class := merge_alert_summary_field (asf_result_class s) (asf_result_class f)
                  "result_class" in
  adl_new (ld_methods l)
    {| asf_freshness_seconds := freshness; asf_consecutive_failures := failures;
       asf_days_remaining := days; asf_endpoint_id := endpoint; asf_status := status;
       asf_last_error_code := code; asf_endpoint_status := endpoint_status;
       asf_result_class := class |}
    (ld_silenced_until l) (ld_silence_reason l) (ld_resolve_reason l).

(** [from_value(..).or_else(|_| from_legacy(..)).map_err(InvalidInput)]. *)
Definition alert_detail_payload (v : Value) : result StoreError AlertDetailPayloadV1 :=
  match adl_from_value v with
  | Ok payload => Ok payload
  | Err _ => map_err InvalidInput (adl_from_legacy v)
  end.

Definition canonical_alert_detail (v : Value) : result StoreError Value :=
  let? payload := alert_detail_payload v in Ok (adl_to_value payload).

Definition normalize_optional_alert (alert : option AlertEventRecord)
    : result StoreError (option AlertEventRecord) :=
  match alert with
  | None => Ok None
  | Some a =>
      let? payload := alert_detail_payload (al_detail_json a) in
      Ok (Some (with_alert_detail (adl_public_detail payload) a))
  end.

(** ** The table *)

Definition validate_alert_event_record (a : AlertEventRecord) : result StoreError unit :=
  let? _ := validate_safe_id "alert_id" (al_alert_id a) 128 in
  let? _ := validate_safe_id "dedupe_key" (al_dedupe_key a) 256 in
  let? _ := opt_check valid_node_id (al_node_id a) in
  check? str_in_list (al_severity a) ["warning"; "critical"]
    else InvalidInput "alert severity is not allowed" in
  check? str_in_list (al_state a) ["open"; "silenced"; "resolved"]
    else InvalidInput "alert state is not allowed" in
  let? _ := validate_safe_id "reason_code" (al_reason_code a) 64 in
  let? _ := validate_rfc3339 (al_first_seen_at a) "alert first_seen_at" in
  let? _ := validate_rfc3339 (al_last_seen_at a) "alert last_seen_at" in
  let? _ := opt_check (fun t => let? _ := validate_rfc3339 t "alert last_sent_at" in Ok tt)
                      (al_last_sent_at a) in
  let? _ := opt_check (fun t => let? _ := validate_rfc3339 t "alert resolved_at" in Ok tt)
                      (al_resolved_at a) in
  let? _ := validate_low_sensitive_json (al_detail_json a) "alert detail" in
  let? _ := canonical_alert_detail (al_detail_json a) in
  Ok tt.

Definition get_alert_event_tx (d : QueueDb) (key : string)
    : result StoreError (option AlertEventRecord) :=
  optional_row alert_event_from_row (alert_row key d).

(** A delivery that refers to an alert. *)
Definition alert_referenced (id : string) (d : QueueDb) : bool :=
  existsb (fun e => String.eqb (qr_alert_id e.2) id) (map_to_list (qd_queue d))
  || existsb (fun e => String.eqb (at_alert_id e.2) id) (map_to_list (qd_attempts d)).

(** [INSERT ... ON CONFLICT(dedupe_key) DO UPDATE SET alert_id = ..., ...]: a
    row with another identifier is renamed, which its deliveries forbid. *)
Definition upsert_alert_event_tx (d : QueueDb) (a : AlertEventRecord) : result StoreError QueueDb :=
  let? detail := canonical_alert_detail (al_detail_json a) in
  check? str_in_list (al_reason_code a) ALERT_REASON_CODES
    else Sqlite (ConstraintViolation "alert_events.reason_code") in
  let id := al_alert_id a in
  let row := with_alert_detail detail a in
  let taken := bool_decide (is_Some (qd_alerts d !! id)) in
  match al_alert_id <$> alert_row (al_dedupe_key a) d with
  | Some old =>
      if String.eqb old id then Ok (set_alerts (<[id := row]> (qd_alerts d)) d) else
      reject? taken as Sqlite (ConstraintViolation "alert_events.alert_id") in
      reject? alert_referenced old d as Sqlite (ConstraintViolation "FOREIGN KEY") in
      Ok (set_alerts (<[id := row]> (delete old (qd_alerts d))) d)
  | None =>
      reject? taken as Sqlite (ConstraintViolation "alert_events.alert_id") in
      Ok (set_alerts (<[id := row]> (qd_alerts d)) d)
  end.

Definition upsert_alert_event (d : QueueDb) (a : AlertEventRecord) : QueueDb * result StoreError unit :=
  transact d (
    let? _ := validate_alert_event_record a in
    let? d' := upsert_alert_event_tx d a in
    Ok (d', tt)).

Definition list_alert_events (d : QueueDb) : result StoreError (list AlertEventRecord) :=
  try_map alert_event_from_row (recent_first (rows_of (qd_alerts d))).

Definition list_alert_events_limited (d : QueueDb) (limit : Z)
    : result StoreError (list AlertEventRecord) :=
  let? rows := limited limit (recent_first (rows_of (qd_alerts d))) in
  try_map alert_event_from_row rows.

Definition list_alert_events_filtered (d : QueueDb) (state severity node : option string)
    : result StoreError (list AlertEventRecord) :=
  try_map alert_event_from_row
    (recent_first (List.filter (fun a => sql_eq_opt state (al_state a)
                                         && sql_eq_opt severity (al_severity a)
                                         && sql_eq_null node (al_node_id a))
                               (rows_of (qd_alerts d)))).
(** ** Evaluation *)

(** The loop of [validate_alert_evaluation_write]; the identifiers and keys of
    the earlier entries are in [ids] and [keys]. *)
Fixpoint validate_evaluation_entries (ids keys : list string) (l : list AlertEvaluationEntry)
    : result StoreError unit :=
  match l with
  | [] => Ok tt
  | e :: l' =>
      let after := ae_after e in
      let? _ := match ae_before e with
                | None => Ok tt
                | Some before =>
                    let? _ := validate_alert_event_record before in
                    check? String.eqb (al_alert_id before) (al_alert_id after)
                           && String.eqb (al_dedupe_key before) (al_dedupe_key after)
                      else InvalidInput "alert evaluation cannot change alert identity" in
                    Ok tt
                end in
      let? _ := validate_alert_event_record after in
      reject? str_in_list (al_alert_id after) ids || str_in_list (al_dedupe_key after) keys
        as InvalidInput "alert evaluation contains duplicate alert identity" in
      check? str_in_list (al_state after) ["open"; "silenced"]
        else InvalidInput "alert evaluation can write only open or silenced candidates" in
      validate_evaluation_entries (al_alert_id after :: ids) (al_dedupe_key after :: keys) l'
  end.

Definition validate_alert_evaluation_write (w : AlertEvaluationWrite) : result StoreError unit :=
  let? _ := validate_audit_text (aw_evaluation_id w) "alert evaluation_id" 96 in
  let? _ := validate_prefixed_uuid "alert-eval-" (aw_evaluation_id w) "alert evaluation_id" in
  let n := Z.of_nat (length (aw_entries w)) in
  reject? (n =? 0) || (MAX_ALERT_EVALUATION_RECORDS <? n)
    as InvalidInput "alert evaluation must contain 1-1000 records" in
  validate_evaluation_entries [] [] (aw_entries w).

Definition alert_event_hash_json (a : AlertEventRecord) : Value :=
  VObject [("alert_id", VString (al_alert_id a)); ("dedupe_key", VString (al_dedupe_key a));
           ("detail", al_detail_json a); ("first_seen_at", VString (al_first_seen_at a));
           ("last_seen_at", VString (al_last_seen_at a));
           ("last_sent_at", json_of_opt_str (al_last_sent_at a));
           ("node_id", json_of_opt_str (al_node_id a));
           ("reason_code", VString (al_reason_code a));
           ("resolved_at", json_of_opt_str (al_resolved_at a));
           ("severity", VString (al_severity a)); ("state", VString (al_state a))].

Definition entry_hash_json (e : AlertEvaluationEntry) : Value :=
  VObject [("after", alert_event_hash_json (ae_after e));
           ("before", json_opt alert_event_hash_json (ae_before e))].

Definition alert_evaluation_write_hash (w : AlertEvaluationWrite) : string :=
  blake3_json (VArray (map entry_hash_json (aw_entries w))).

(** [SELECT event, actor, params_hash ... WHERE request_id = ?1 ORDER BY id LIMIT
    2], and what the two functions make of it. *)
Definition replay_rows (d : QueueDb) (id event actor params_hash : string) (conflict : StoreError)
    : result StoreError bool :=
  match List.filter (fun e => bool_decide (ae_request_id e = Some id)) (db_audit (qd_core d)) with
  | [] => Ok false
  | [e] =>
      check? String.eqb (ae_event e) event && String.eqb (ae_actor e) actor
             && bool_decide (ae_params_hash e = Some params_hash)
        else conflict in
      Ok true
  | _ => Err conflict
  end.

Definition alert_evaluation_replay_tx (d : QueueDb) (w : AlertEvaluationWrite)
    (actor params_hash : string) : result StoreError bool :=
  replay_rows d (aw_evaluation_id w) "alert.evaluate" actor params_hash
    (AlertEvaluationConflict (aw_evaluation_id w)
       "evaluation audit provenance is mismatched or ambiguous").

Definition alert_mutation_replay_tx (d : QueueDb) (operation_id event actor params_hash : string)
    : result StoreError bool :=
  replay_rows d operation_id event actor params_hash
    (AlertMutationConflict operation_id "mutation audit provenance is mismatched or ambiguous").

(** One round of the loops that compare and write: the row of [key] has to be
    the [before] of the entry. *)
Definition compare_and_upsert (conflict : StoreError) (key : string) (d : QueueDb)
    (e : AlertEvaluationEntry) : result StoreError QueueDb :=
  let? current := get_alert_event_tx d key in
  let? current := normalize_optional_alert current in
  let? before := normalize_optional_alert (ae_before e) in
  check? bool_decide (current = before) else conflict in
  upsert_alert_event_tx d (ae_after e).

Fixpoint write_entries (conflict : StoreError) (key : AlertEvaluationEntry -> string)
    (l : list AlertEvaluationEntry) (d : QueueDb) : result StoreError QueueDb :=
  match l with
  | [] => Ok d
  | e :: l' =>
      let? d' := compare_and_upsert conflict (key e) d e in
      write_entries conflict key l' d'
  end.

Definition alert_audit (d : QueueDb) (event : AuditEvent) : result StoreError QueueDb :=
  let? core := insert_audit_tx (qd_core d) event in
  Ok (set_qcore core d).

Definition write_alert_evaluation env (d : QueueDb) (w : AlertEvaluationWrite) (actor : string)
    : QueueDb * result StoreError unit :=
  transact d (
    let? _ := map_err InvalidInput (validate_actor actor) in
    let? _ := validate_alert_evaluation_write w in
    let id := aw_evaluation_id w in
    let params_hash := alert_evaluation_write_hash w in
    let? replayed := alert_evaluation_replay_tx d w actor params_hash in
    if replayed : bool then Ok (d, tt) else
    let? d' := write_entries
      (AlertEvaluationConflict id "alert state changed after candidate evaluation")
      (fun e => al_dedupe_key (ae_after e)) (aw_entries w) d in
    let count := Z.of_nat (length (aw_entries w)) in
    let open_alerts := Z.of_nat (length
      (List.filter (fun e => String.eqb (al_state (ae_after e)) "open") (aw_entries w))) in
    let? d' := alert_audit d'
      (audit_request true (Some id) (Some params_hash) None
         (VObject [("actor_type", VString "user"); ("created_or_updated_count", json_u64 count);
                   ("evaluated_candidates", json_u64 count); ("open_alerts", json_u64 open_alerts);
                   ("reason", Null); ("silenced_alerts", json_u64 (count - open_alerts));
                   ("target_id", VString id); ("target_type", VString "alert_evaluation");
                   ("upserted_alerts", json_u64 count)])
         (AuditEvent_new env actor "alert.evaluate")) in
    Ok (d', tt)).

(** ** Operators *)

Definition validate_alert_state_transition (w : AlertStateTransition) : result StoreError unit :=
  let? _ := validate_audit_text (tr_operation_id w) "alert operation_id" 96 in
  let? _ := validate_prefixed_uuid "alert-action-" (tr_operation_id w) "alert operation_id" in
  check? str_in_list (tr_event w) ["alert.silence"; "alert.resolve"]
    else InvalidInput "alert transition event is not allowed" in
  let? _ := map_err InvalidInput (validate_reason (tr_reason w)) in
  let before := tr_before w in
  let after := tr_after w in
  let? _ := validate_alert_event_record before in
  let? _ := validate_alert_event_record after in
  check? String.eqb (al_alert_id before) (al_alert_id after)
         && String.eqb (al_dedupe_key before) (al_dedupe_key after)
         && bool_decide (al_node_id before = al_node_id after)
    else InvalidInput "alert transition cannot change alert identity" in
  let silence := String.eqb (tr_event w) "alert.silence" in
  check? String.eqb (al_state after) (if silence then "silenced" else "resolved")
    else InvalidInput "alert transition after-state does not match event" in
  check? bool_decide (value_get (if silence then "silence_reason" else "resolve_reason")
                                (al_detail_json after) ≫= as_str = Some (tr_reason w))
    else InvalidInput "alert transition reason does not match stored detail" in
  if silence then
    let? until := ok_or (value_get "silenced_until" (al_detail_json after) ≫= as_str)
                        (InvalidInput "alert silence requires silenced_until") in
    let? _ := validate_rfc3339 until "alert silenced_until" in
    reject? bool_decide (is_Some (al_resolved_at after))
      as InvalidInput "silenced alert cannot have resolved_at" in
    Ok tt
  else
    check? bool_decide (al_resolved_at after = Some (al_last_seen_at after))
      else InvalidInput "resolved alert timestamps must match" in
    Ok tt.

Definition alert_state_transition_hash (w : AlertStateTransition) : string :=
  blake3_json (VObject [("after", alert_event_hash_json (tr_after w));
                        ("before", alert_event_hash_json (tr_before w));
                        ("event", VString (tr_event w)); ("reason", VString (tr_reason w))]).

Definition write_alert_state_transition env (d : QueueDb) (w : AlertStateTransition) (actor : string)
    : QueueDb * result StoreError unit :=
  transact d (
    let? _ := map_err InvalidInput (validate_actor actor) in
    let? _ := validate_alert_state_transition w in
    let id := tr_operation_id w in
    let params_hash := alert_state_transition_hash w in
    let? replayed := alert_mutation_replay_tx d id (tr_event w) actor params_hash in
    if replayed : bool then Ok (d, tt) else
    let? d' := compare_and_upsert
      (AlertMutationConflict id "alert state changed before operator transition")
      (al_dedupe_key (tr_before w)) d
      {| ae_before := Some (tr_before w); ae_after := tr_after w |} in
    let? d' := alert_audit d'
      (audit_request true (Some id) (Some params_hash) None
         (VObject [("actor_type", VString "user");
                   ("after_state", VString (al_state (tr_after w)));
                   ("before_state", VString (al_state (tr_before w)));
                   ("dedupe_key", VString (al_dedupe_key (tr_after w)));
                   ("reason", VString (tr_reason w));
                   ("target_id", VString (al_alert_id (tr_after w)));
                   ("target_type", VString "alert")])
         (AuditEvent_new env actor (tr_event w))) in
    Ok (d', tt)).

(** ** Deliveries outside the queue *)

(** The loop of [validate_alert_delivery_finalize]. *)
Fixpoint validate_finalize_entries (keys : list string) (l : list AlertEvaluationEntry)
    : result StoreError unit :=
  match l with
  | [] => Ok tt
  | e :: l' =>
      let after := ae_after e in
      let? before := ok_or (ae_before e)
        (InvalidInput "delivery finalization requires before-state") in
      let? _ := validate_alert_event_record before in
      let? _ := validate_alert_event_record after in
      check? String.eqb (al_alert_id before) (al_alert_id after)
             && String.eqb (al_dedupe_key before) (al_dedupe_key after)
             && negb (str_in_list (al_dedupe_key before) keys)
        else InvalidInput "delivery finalization contains invalid alert identity" in
      check? match al_last_sent_at after with
             | Some at_ => bool_decide (after = with_last_sent at_ before)
             | None => false
             end
        else InvalidInput "delivery finalization may change only last_sent_at" in
      validate_finalize_entries (al_dedupe_key before :: keys) l'
  end.

Definition validate_alert_delivery_finalize (w : AlertDeliveryFinalizeWrite) : result StoreError unit :=
  let? _ := validate_audit_text (fw_delivery_id w) "alert delivery_id" 96 in
  let? _ := validate_prefixed_uuid "delivery-" (fw_delivery_id w) "alert delivery_id" in
  check? str_in_list (fw_hook_type w) ["jsonl_file"; "webhook"; "rejected"]
    else InvalidInput "alert delivery hook_type is invalid" in
  let n := Z.of_nat (length (fw_entries w)) in
  reject? MAX_ALERT_DELIVERY_FINALIZE_RECORDS <? n
    as InvalidInput "alert delivery finalization exceeds 1000 records" in
  reject? MAX_ALERT_DELIVERY_FINALIZE_RECORDS <? fw_alert_count w
    as InvalidInput "alert delivery count exceeds 1000 records" in
  reject? 16777216 <? fw_bytes_written w as InvalidInput "alert delivery byte count exceeds 16 MiB" in
  reject? eqb (fw_ok w) (bool_decide (is_Some (fw_error_code w)))
    as InvalidInput "alert delivery error_code must be present exactly when delivery failed" in
  let? _ := opt_check (fun code => validate_safe_id "error_code" code 64) (fw_error_code w) in
  let? _ := if fw_dry_run w || negb (fw_ok w)
            then check? n =? 0 else InvalidInput "dry-run or failed delivery cannot update alerts" in
                 Ok tt
            else check? n =? fw_alert_count w
                   else InvalidInput "successful delivery must update every delivered alert" in
                 Ok tt in
  validate_finalize_entries [] (fw_entries w).

Definition alert_delivery_finalize_hash (w : AlertDeliveryFinalizeWrite) : string :=
  blake3_json (VObject
    [("alert_count", json_u64 (fw_alert_count w)); ("bytes_written", json_u64 (fw_bytes_written w));
     ("dry_run", VBool (fw_dry_run w)); ("entries", VArray (map entry_hash_json (fw_entries w)));
     ("error_code", json_of_opt_str (fw_error_code w)); ("hook_type", VString (fw_hook_type w));
     ("ok", VBool (fw_ok w))]).

Definition write_alert_delivery_finalize env (d : QueueDb) (w : AlertDeliveryFinalizeWrite)
    (actor : string) : QueueDb * result StoreError unit :=
  transact d (
    let? _ := map_err InvalidInput (validate_actor actor) in
    let? _ := validate_alert_delivery_finalize w in
    let id := fw_delivery_id w in
    let params_hash := alert_delivery_finalize_hash w in
    let? replayed := alert_mutation_replay_tx d id "alert.delivery" actor params_hash in
    if replayed : bool then Ok (d, tt) else
    let? d' := write_entries
      (AlertMutationConflict id "alert state changed before delivery finalization")
      (fun e => from_option al_dedupe_key EmptyString (ae_before e)) (fw_entries w) d in
    let? d' := alert_audit d'
      (audit_request (fw_ok w) (Some id) (Some params_hash) None
         (VObject [("actor_type", VString "user"); ("alert_count", json_u64 (fw_alert_count w));
                   ("bytes_written", json_u64 (fw_bytes_written w));
                   ("dry_run", VBool (fw_dry_run w));
                   ("error_code", json_of_opt_str (fw_error_code w));
                   ("hook_type", VString (fw_hook_type w)); ("ok", VBool (fw_ok w));
                   ("reason", Null); ("target_id", VString id);
                   ("target_type", VString "alert_delivery");
                   ("updated_alerts", json_u64 (Z.of_nat (length (fw_entries w))))])
         (AuditEvent_new env actor "alert.delivery")) in
    Ok (d', tt)).

Definition alert_delivery_attempt_hash (a : AlertDeliveryAttemptRecord) : string :=
  blake3_json (VObject
    [("alert_id", VString (at_alert_id a)); ("attempt_id", VString (at_attempt_id a));
     ("attempt_no", json_u64 (at_attempt_no a)); ("attempted_at", VString (at_attempted_at a));
     ("bytes_sent", json_u64 (at_bytes_sent a)); ("error_code", json_of_opt_str (at_error_code a));
     ("hook_id", VString (at_hook_id a));
     ("http_status_class", json_of_opt_str (at_http_status_class a));
     ("status", VString (at_status a))]).

Definition write_alert_delivery_attempt env (d : QueueDb) (a : AlertDeliveryAttemptRecord)
    (actor : string) : QueueDb * result StoreError unit :=
  transact d (
    let? _ := map_err InvalidInput (validate_actor actor) in
    let? _ := validate_alert_delivery_attempt_record a in
    let params_hash := alert_delivery_attempt_hash a in
    let? replayed := alert_mutation_replay_tx d (at_attempt_id a) "alert.delivery.attempt" actor
                       params_hash in
    if replayed : bool then Ok (d, tt) else
    let? d' := insert_alert_delivery_attempt_tx d a in
    let? d' := alert_audit d'
      (audit_request (negb (String.eqb (at_status a) "failed")) (Some (at_attempt_id a))
         (Some params_hash) None
         (VObject [("actor_type", VString "user"); ("alert_id", VString (at_alert_id a));
                   ("attempt_no", json_u64 (at_attempt_no a));
                   ("bytes_sent", json_u64 (at_bytes_sent a));
                   ("error_code", json_of_opt_str (at_error_code a));
                   ("hook_id", VString (at_hook_id a));
                   ("http_status_class", json_of_opt_str (at_http_status_class a));
                   ("reason", Null); ("status", VString (at_status a));
                   ("target_id", VString (at_attempt_id a));
                   ("target_type", VString "alert_delivery_attempt")])
         (AuditEvent_new env actor "alert.delivery.attempt")) in
    Ok (d', tt)).

(** ** Hooks *)

(** [AlertHostAllowPayloadV1::new], and [validate] on its result: the list is in
    the normal form that it was brought to. *)
Definition host_allow_validate (hosts : list string) : result string unit :=
  let? normalized := map_err (fun _ => "alert host allowlist contains invalid hosts")
                             (normalize_host_allow hosts) in
  check? bool_decide (normalized = hosts) else "alert host allowlist payload is not canonical" in
  Ok tt.

Definition host_allow_new (hosts : list string) : result string (list string) :=
  let? normalized := map_err (fun _ => "alert host allowlist contains invalid hosts")
                             (normalize_host_allow hosts) in
  let? _ := host_allow_validate normalized in
  Ok normalized.

Definition host_allow_relationship (hosts : list string) (endpoint_host : string)
    : result string unit :=
  check? str_in_list endpoint_host hosts else "alert endpoint host is absent from its allowlist" in
  Ok tt.

Definition validate_alert_webhook_hook_record (h : AlertWebhookHookRecord) : result StoreError unit :=
  let? _ := map_err InvalidInput (validate_description (wh_name h)) in
  let? _ := validate_safe_id "hook_id" (wh_hook_id h) 128 in
  let? _ := validate_safe_id "endpoint_host" (wh_endpoint_host h) 253 in
  let? _ := validate_safe_id "hmac_key_id" (wh_hmac_key_id h) 128 in
  check? String.eqb (wh_hook_type h) "webhook" else InvalidInput "alert hook type must be webhook" in
  let n := Z.of_nat (length (wh_host_allow h)) in
  reject? (n =? 0) || (16 <? n)
    as InvalidInput "alert webhook host allowlist must contain 1-16 hosts" in
  let? _ := try_for_each (fun host => validate_safe_id "host_allow" host 253) (wh_host_allow h) in
  let? hosts := map_err InvalidInput (host_allow_new (wh_host_allow h)) in
  check? bool_decide (hosts = wh_host_allow h)
    else InvalidInput "alert webhook host allowlist must be canonical" in
  let? _ := map_err InvalidInput (host_allow_relationship hosts (wh_endpoint_host h)) in
  let? _ := validate_u64_range "max_attempts" (wh_max_attempts h) 1 5 in
  let? _ := validate_u64_range "timeout_ms" (wh_timeout_ms h) 1000 5000 in
  let? _ := validate_rfc3339 (wh_created_at h) "alert hook created_at" in
  let? _ := validate_rfc3339 (wh_updated_at h) "alert hook updated_at" in
  Ok tt.

Definition alert_webhook_hook_hash (h : AlertWebhookHookRecord) : string :=
  blake3_json (VObject
    [("created_at", VString (wh_created_at h)); ("enabled", VBool (wh_enabled h));
     ("endpoint_host", VString (wh_endpoint_host h)); ("endpoint_url", VString (wh_endpoint_url h));
     ("endpoint_url_redacted", VString (wh_endpoint_url_redacted h));
     ("hmac_key_id", VString (wh_hmac_key_id h)); ("hook_id", VString (wh_hook_id h));
     ("hook_type", VString (wh_hook_type h)); ("host_allow", json_strs (wh_host_allow h));
     ("max_attempts", json_u64 (wh_max_attempts h)); ("name", VString (wh_name h));
     ("timeout_ms", json_u64 (wh_timeout_ms h)); ("updated_at", VString (wh_updated_at h))]).

(** The primary key and the unique name; the [CHECK]s repeat what has been
    validated. *)
Definition insert_alert_webhook_hook_tx (d : QueueDb) (h : AlertWebhookHookRecord)
    : result StoreError QueueDb :=
  let? _ := map_err InvalidInput (host_allow_new (wh_host_allow h)) in
  let? _ := u64_to_i64 (wh_max_attempts h) in
  let? _ := u64_to_i64 (wh_timeout_ms h) in
  reject? bool_decide (is_Some (qd_hooks d !! wh_hook_id h))
    as Sqlite (ConstraintViolation "alert_hooks.hook_id") in
  reject? existsb (fun e => String.eqb (wh_name e.2) (wh_name h)) (map_to_list (qd_hooks d))
    as Sqlite (ConstraintViolation "alert_hooks.name") in
  Ok (set_hooks (<[wh_hook_id h := h]> (qd_hooks d)) d).

Definition write_alert_webhook_hook_create env (d : QueueDb) (h : AlertWebhookHookRecord)
    (actor : string) : QueueDb * result StoreError unit :=
  transact d (
    let? _ := map_err InvalidInput (validate_actor actor) in
    let? _ := validate_alert_webhook_hook_record h in
    let params_hash := alert_webhook_hook_hash h in
    let? replayed := alert_mutation_replay_tx d (wh_hook_id h) "alert.hook.add_webhook" actor
                       params_hash in
    if replayed : bool then Ok (d, tt) else
    let? d' := insert_alert_webhook_hook_tx d h in
    let? d' := alert_audit d'
      (audit_request true (Some (wh_hook_id h)) (Some params_hash) None
         (VObject [("actor_type", VString "user"); ("enabled", VBool (wh_enabled h));
                   ("endpoint_host", VString (wh_endpoint_host h));
                   ("hmac_key_id", VString (wh_hmac_key_id h));
                   ("hook_type", VString (wh_hook_type h));
                   ("max_attempts", json_u64 (wh_max_attempts h)); ("reason", Null);
                   ("target_id", VString (wh_hook_id h));
                   ("target_type", VString "alert_webhook_hook");
                   ("timeout_ms", json_u64 (wh_timeout_ms h))])
         (AuditEvent_new env actor "alert.hook.add_webhook")) in
    Ok (d', tt)).

Definition with_hook_enabled (enabled : bool) (updated_at : string) (h : AlertWebhookHookRecord)
    : AlertWebhookHookRecord :=
  {| wh_hook_id := wh_hook_id h; wh_name := wh_name h; wh_hook_type := wh_hook_type h;
     wh_endpoint_url := wh_endpoint_url h; wh_endpoint_url_redacted := wh_endpoint_url_redacted h;
     wh_endpoint_host := wh_endpoint_host h; wh_host_allow := wh_host_allow h;
     wh_hmac_key_id := wh_hmac_key_id h; wh_enabled := enabled;
     wh_max_attempts := wh_max_attempts h; wh_timeout_ms := wh_timeout_ms h;
     wh_created_at := wh_created_at h; wh_updated_at := updated_at |}.

(** [WHERE hook_id = ?1 AND hook_type = 'webhook']. *)
Definition webhook_row (d : QueueDb) (id : string) : option AlertWebhookHookRecord :=
  opt_filter (fun h => String.eqb (wh_hook_type h) "webhook") (qd_hooks d !! id).

Definition write_alert_webhook_hook_enabled env (d : QueueDb) (id : string) (enabled : bool)
    (updated_at actor : string) : QueueDb * result StoreError bool :=
  transact d (
    let? _ := map_err InvalidInput (validate_actor actor) in
    let? _ := validate_safe_id "hook_id" id 128 in
    let? _ := validate_rfc3339 updated_at "alert hook updated_at" in
    let? current := ok_or (webhook_row d id) (InvalidInput "alert webhook hook does not exist") in
    if eqb (wh_enabled current) enabled then Ok (d, false) else
    let d' := set_hooks (<[id := with_hook_enabled enabled updated_at current]> (qd_hooks d)) d in
    let event_name := if enabled then "alert.hook.enable" else "alert.hook.disable" in
    let? d' := alert_audit d'
      (audit_request true (Some (event_name +:+ ":" +:+ id +:+ ":" +:+ updated_at))
         (Some (blake3_hex (id +:+ ":" +:+ (if enabled then "true" else "false") +:+ ":"
                            +:+ updated_at))) None
         (VObject [("actor_type", VString "user"); ("enabled", VBool enabled); ("reason", Null);
                   ("target_id", VString id); ("target_type", VString "alert_webhook_hook")])
         (AuditEvent_new env actor event_name)) in
    Ok (d', true)).

(** The column of the allowlist holds the payload that was written. *)
Definition alert_webhook_hook_from_row (row : AlertWebhookHookRecord)
    : result StoreError AlertWebhookHookRecord :=
  let? _ := map_err (fun _ => conversion_failure 6) (host_allow_validate (wh_host_allow row)) in
  let? _ := map_err (fun _ => conversion_failure 6)
                    (host_allow_relationship (wh_host_allow row) (wh_endpoint_host row)) in
  Ok row.

(** [ORDER BY name, hook_id]. *)
Definition list_alert_webhook_hooks (d : QueueDb) : result StoreError (list AlertWebhookHookRecord) :=
  try_map alert_webhook_hook_from_row
    (Ordering.sort_by (fun h => [Some (wh_name h); Some (wh_hook_id h)])
       (List.filter (fun h => String.eqb (wh_hook_type h) "webhook") (rows_of (qd_hooks d)))).

Definition get_alert_webhook_hook (d : QueueDb) (id : string)
    : result StoreError (option AlertWebhookHookRecord) :=
  optional_row alert_webhook_hook_from_row (webhook_row d id).
End alert_events.
