(* ===== verification/AlertWorker.v ===== *)
(** * AlertWorker: delivering alerts from the queue
      (ocfleet-cli/src/alerts.rs, alert_webhook.rs)

    A pass of the worker evaluates the alerts, fills the queue and works it off:
    claim the next item, put a crowded group off, otherwise read the alert and
    the hook, send, and record the outcome.  Clock readings, secret files, the
    sender and the candidates of the evaluation are arguments.  Then the histories of the alert tables under any number of
    workers, and what holds in all of them. *)

From stdpp Require Import pretty.
From S2P Require Import Prelude Text External Wire AgentConfig InputValidation StoreTypes StoredText.
From S2P Require Import StoragePayloads StoreDb Enrollment ObservationPayloads AlertWebhook.
From S2P Require Import AlertWebhookProperties SchedulerStore SchedulerProtocol AlertQueue Ordering.
From S2P Require Import AlertQueueProperties.
From S2P Require Import ApiPayloads ApiStore HealthStore Health HealthRollups HealthScenario AlertEvents.

(** ** Secrets *)

Definition MAX_HMAC_SECRET_BYTES : Z := 4096.
Definition MIN_HMAC_SECRET_BYTES : Z := 16.

Fixpoint pop_newlines (reversed : list Z) : list Z :=
  match reversed with
  | b :: rest => if (b =? 10) || (b =? 13) then pop_newlines rest else reversed
  | [] => []
  end.

(** [file] is what the private file holds, if it can be opened and read. *)
Definition read_hmac_secret_file (file : option (list Z)) : result string (list Z) :=
  let? bytes := ok_or file "failed to read webhook HMAC secret file" in
  let secret := firstn (Z.to_nat (MAX_HMAC_SECRET_BYTES + 1)) bytes in
  reject? MAX_HMAC_SECRET_BYTES <? Z.of_nat (length secret) as "webhook HMAC secret is too large" in
  let secret := rev (pop_newlines (rev secret)) in
  reject? Z.of_nat (length secret) <? MIN_HMAC_SECRET_BYTES
    as "webhook HMAC secret is too short" in
  Ok secret.

(** ** One delivery *)

Definition ALERT_WORKER_LEASE_SECONDS : Z := 60.
Definition MAX_ALERT_WORKER_DELIVERIES : Z := 100.
Definition ALERT_WORKER_REPEAT_SECONDS : Z := 300.
Definition MAX_ALERT_WORKER_PER_GROUP : Z := 3.
Definition ALERT_WORKER_GROUP_DEFER_SECONDS : Z := 60.

(** What the worker uses besides the store: the private files of the secret
    directory by name, and the [WebhookSender]. *)
Record Outside := {
  out_secrets : string -> option (list Z);
  out_send : WebhookHttpRequest -> WebhookHttpResult;
}.

(** The readings of the clock during an attempt. *)
Record AttemptClock := {
  ac_attempted : Z;
  ac_completed : Z;
  ac_retry : Z;
}.

Inductive WorkerError :=
| WorkerStore (e : StoreError)
| WorkerContext (message : string).

Definition worker_store {A} (r : result StoreError A) : result WorkerError A :=
  map_err WorkerStore r.

(** A candidate, as it is computed from the health of the nodes, their
    observations and the trust table. *)
Record AlertCandidate := {
  ca_dedupe_key : string;
  ca_node_id : option string;
  ca_severity : string;
  ca_reason_code : string;
  ca_methods : list string;
  ca_summary : Value;
}.

(** What an evaluation finds: the time, the candidates or an error, and the
    random identifiers of new alerts by key. *)
Record Candidates := {
  fo_now : Z;
  fo_candidates : result WorkerError (list AlertCandidate);
  fo_fresh : string -> string;
}.

Section worker.
Context `{EndpointIdOps, TimeOps, JsonOps, JsonBytes, DigestOps, Blake3Ops}.
Context `{Sha256Ops, UrlOps, NetOps}.
Implicit Types (env : StoreEnv).

Definition NANOSECONDS : Z := 1000000000.

Definition preflight (outside : Outside) (claim : AlertDeliveryQueueClaim) (alert : AlertEventRecord)
    (hook : AlertWebhookHookRecord) (attempted_at : string) : result string WebhookHttpRequest :=
  let? secret := read_hmac_secret_file (out_secrets outside (wh_hook_id hook +:+ ".key")) in
  check? wh_enabled hook else "webhook hook is disabled" in
  check? String.eqb (hmac_key_id secret) (wh_hmac_key_id hook)
    else "webhook HMAC secret does not match hook key id" in
  let? _ := validate_webhook_endpoint (wh_endpoint_url hook) (wh_host_allow hook) in
  let delivery_id := "delivery-" +:+ qc_queue_id claim +:+ "-" +:+ pretty (qc_attempt_count claim + 1) in
  build_webhook_request hook alert secret attempted_at delivery_id.

(** [(status, status_class, error_code, bytes_sent)]. *)
Definition attempt_result (outside : Outside) (request : result string WebhookHttpRequest)
    : string * option string * option string * Z :=
  match request with
  | Ok request =>
      let bytes_sent := Z.of_nat (length (hr_body request)) in
      match out_send outside request with
      | AlertWebhook.Completed status_code status_class _ =>
          let error_code := webhook_error_for_status status_code in
          (match error_code with None => "succeeded" | Some _ => "failed" end,
           Some status_class, error_code, bytes_sent)
      | AlertWebhook.Failed error_code => ("failed", None, Some error_code, bytes_sent)
      end
  | Err _ => ("failed", None, Some "ALERT_DELIVERY_PREFLIGHT_FAILED", 0)
  end.

(** The outcome that [deliver_alert_queue_attempt] writes. *)
Definition attempt_outcome (outside : Outside) (clock : AttemptClock)
    (claim : AlertDeliveryQueueClaim) (alert : AlertEventRecord) (hook : AlertWebhookHookRecord)
    : AlertDeliveryQueueOutcome :=
  let attempted_at := rfc3339_format (ac_attempted clock) in
  let attempt_no := qc_attempt_count claim + 1 in
  let '(status, status_class, error_code, bytes_sent) :=
    attempt_result outside (preflight outside claim alert hook attempted_at) in
  let retryable := is_some_and is_retryable_webhook_error error_code in
  let should_retry := String.eqb status "failed" && retryable && (attempt_no <? wh_max_attempts hook) in
  let delay := Z.shiftl 1 (Z.min (Z.max (attempt_no - 1) 0) 8) in
  {| qo_claim := claim;
     qo_attempt := {| at_attempt_id := "attempt-" +:+ qc_queue_id claim +:+ "-" +:+ pretty attempt_no;
                      at_alert_id := qc_alert_id claim; at_hook_id := qc_hook_id claim;
                      at_attempt_no := attempt_no; at_attempted_at := attempted_at;
                      at_status := status; at_http_status_class := status_class;
                      at_error_code := error_code; at_bytes_sent := bytes_sent |};
     qo_completed_at := rfc3339_format (ac_completed clock);
     qo_retry_at := if should_retry then Some (rfc3339_format (ac_retry clock + delay * NANOSECONDS))
                    else None;
     qo_retryable := retryable;
     qo_max_attempts := wh_max_attempts hook |}.

(** [deliver_alert_queue_attempt]; the label of an outcome is its status. *)
Definition deliver_alert_queue_attempt env (d : QueueDb) (outside : Outside) (clock : AttemptClock)
    (claim : AlertDeliveryQueueClaim) (alert : AlertEventRecord) (hook : AlertWebhookHookRecord)
    (actor : string) : QueueDb * result StoreError string :=
  let o := attempt_outcome outside clock claim alert hook in
  let (d', written) := write_alert_delivery_queue_outcome env d o actor in
  (d', let? _ := written in
       Ok (if String.eqb (at_status (qo_attempt o)) "succeeded" then "succeeded"
           else if bool_decide (is_Some (qo_retry_at o)) then "retry" else "dead_letter")).

(** ** Evaluating alerts *)

(** [object_from_value]. *)
Definition object_from_value (v : Value) : list (string * Value) :=
  match v with VObject m => m | _ => [] end.

Definition timestamp_after (left right : string) : option bool :=
  left ← rfc3339_parse left;
  right ← rfc3339_parse right;
  Some (right <? left).

Definition alert_is_silenced (alert : AlertEventRecord) (now : string) : bool :=
  String.eqb (al_state alert) "silenced"
  && is_some_and (fun until => default false (timestamp_after until now))
       (value_get "silenced_until" (al_detail_json alert) ≫= as_str).

(** [fresh] is the random identifier of a new alert. *)
Definition candidate_record (existing_alerts : list AlertEventRecord) (fresh : string -> string)
    (candidate : AlertCandidate) (now : string) : AlertEvaluationEntry :=
  let existing := List.find (fun a => String.eqb (al_dedupe_key a) (ca_dedupe_key candidate))
                            existing_alerts in
  let keep_silenced := is_some_and (fun a => alert_is_silenced a now) existing in
  let detail := from_option (fun a => object_from_value (al_detail_json a)) [] existing in
  let detail := map_insert "methods" (json_strs (ca_methods candidate)) detail in
  let detail := map_insert "summary" (project_summary (ca_summary candidate)) detail in
  {| ae_before := existing;
     ae_after :=
       {| al_alert_id := from_option al_alert_id ("alert-" +:+ fresh (ca_dedupe_key candidate)) existing;
          al_dedupe_key := ca_dedupe_key candidate; al_node_id := ca_node_id candidate;
          al_severity := ca_severity candidate;
          al_state := if keep_silenced then "silenced" else "open";
          al_reason_code := ca_reason_code candidate;
          al_first_seen_at := from_option al_first_seen_at now existing; al_last_seen_at := now;
          al_last_sent_at := existing ≫= al_last_sent_at;
          al_resolved_at := if keep_silenced then existing ≫= al_resolved_at else None;
          al_detail_json := VObject detail |} |}.

(** [evaluate_alert_records] for the candidates that were found; the writes are
    the updated alerts. *)
Definition evaluate_alert_records env (d : QueueDb) (found : Candidates) (actor : string)
    : QueueDb * result WorkerError (list AlertEventRecord) :=
  match worker_store (list_alert_events d) with
  | Err e => (d, Err e)
  | Ok existing =>
      match fo_candidates found with
      | Err e => (d, Err e)
      | Ok candidates =>
          let entries := map (fun c => candidate_record existing (fo_fresh found) c
                                         (rfc3339_format (fo_now found))) candidates in
          let updated := map ae_after entries in
          match entries with
          | [] => (d, Ok updated)
          | _ =>
              let (d', written) := write_alert_evaluation env d
                {| aw_evaluation_id := "alert-eval-" +:+ env_uuid env; aw_entries := entries |} actor in
              (d', let? _ := worker_store written in Ok updated)
          end
      end
  end.

(** ** Filling the queue *)

Definition alert_worker_alert_due (alert : AlertEventRecord) (now : Z) : result WorkerError bool :=
  match al_last_sent_at alert with
  | None => Ok true
  | Some last_sent =>
      let? last_sent := ok_or (rfc3339_parse last_sent)
                              (WorkerContext "stored alert last_sent_at is invalid") in
      Ok (ALERT_WORKER_REPEAT_SECONDS * NANOSECONDS <=? now - last_sent)
  end.

Definition alert_queue_idempotency_key (alert : AlertEventRecord) (hook : AlertWebhookHookRecord)
    : string :=
  hex_lower (blake3 (str_bytes
    (al_alert_id alert +:+ ":" +:+ al_last_seen_at alert +:+ ":" +:+ al_reason_code alert
     +:+ ":" +:+ al_state alert +:+ ":" +:+ wh_hook_id hook))).

Definition alert_queue_id (idempotency_key : string) : string :=
  "delivery-queue-" +:+ uuid_text (uuid_bytes (blake3 (str_bytes idempotency_key))).

Definition alert_enqueue (now : string) (hook : AlertWebhookHookRecord) (alert : AlertEventRecord)
    : AlertDeliveryQueueEnqueue :=
  let key := alert_queue_idempotency_key alert hook in
  {| qe_queue_id := alert_queue_id key; qe_alert_id := al_alert_id alert;
     qe_hook_id := wh_hook_id hook; qe_idempotency_key := key;
     qe_group_key := to_ascii_lowercase (al_severity alert +:+ ":" +:+ al_reason_code alert);
     qe_enqueued_at := now |}.

(** The two nested loops, as one over the pairs. *)
Fixpoint enqueue_all env (actor : string) (l : list AlertDeliveryQueueEnqueue) (d : QueueDb)
    : QueueDb * result WorkerError unit :=
  match l with
  | [] => (d, Ok tt)
  | e :: l' =>
      let (d', written) := write_alert_delivery_queue_enqueue env d e actor in
      match written with
      | Ok _ => enqueue_all env actor l' d'
      | Err error => (d', Err (WorkerStore error))
      end
  end.

(** The items of a pass: every enabled hook with every open alert that is due. *)
Definition pass_items (d : QueueDb) (now : Z) : result WorkerError (list AlertDeliveryQueueEnqueue) :=
  let? hooks := worker_store (list_alert_webhook_hooks d) in
  let hooks := List.filter wh_enabled hooks in
  let? alerts := worker_store (list_alert_events d) in
  let alerts := List.filter (fun a => String.eqb (al_state a) "open") alerts in
  let? due := try_map (fun a => let? due := alert_worker_alert_due a now in Ok (a, due)) alerts in
  let alerts := map fst (List.filter snd due) in
  Ok (flat_map (fun hook => map (alert_enqueue (rfc3339_format now) hook) alerts) hooks).

(** ** Working it off *)

Record AlertWorkerSummary := {
  sm_enqueued : Z;
  sm_attempted : Z;
  sm_succeeded : Z;
  sm_retried : Z;
  sm_dead_lettered : Z;
  sm_deferred : Z;
}.

Definition count_deferred (s : AlertWorkerSummary) : AlertWorkerSummary :=
  {| sm_enqueued := sm_enqueued s; sm_attempted := sm_attempted s; sm_succeeded := sm_succeeded s;
     sm_retried := sm_retried s; sm_dead_lettered := sm_dead_lettered s;
     sm_deferred := sm_deferred s + 1 |}.

Definition count_result (label : string) (s : AlertWorkerSummary) : AlertWorkerSummary :=
  let one (l : string) := if String.eqb label l then 1 else 0 in
  {| sm_enqueued := sm_enqueued s; sm_attempted := sm_attempted s + 1;
     sm_succeeded := sm_succeeded s + one "succeeded"; sm_retried := sm_retried s + one "retry";
     sm_dead_lettered := sm_dead_lettered s + one "dead_letter"; sm_deferred := sm_deferred s |}.

(** The environment and the readings of the clock in one round. *)
Record WorkerTurn := {
  wt_env : StoreEnv;
  wt_claim_now : Z;
  wt_deferred_at : Z;
  wt_defer_now : Z;
  wt_clock : AttemptClock;
}.

(** What a round does with its claim, when its group is not crowded. *)
Definition deliver_claim (outside : Outside) (turn : WorkerTurn) (actor : string)
    (claim : AlertDeliveryQueueClaim) (d : QueueDb) : QueueDb * result WorkerError string :=
  match worker_store (list_alert_events d) with
  | Err e => (d, Err e)
  | Ok alerts =>
      match List.find (fun a => String.eqb (al_alert_id a) (qc_alert_id claim)) alerts with
      | None => (d, Err (WorkerContext "claimed delivery alert disappeared"))
      | Some alert =>
          match worker_store (get_alert_webhook_hook d (qc_hook_id claim)) with
          | Err e => (d, Err e)
          | Ok None => (d, Err (WorkerContext ("webhook hook not found: " +:+ qc_hook_id claim)))
          | Ok (Some hook) =>
              let (d', label) := deliver_alert_queue_attempt (wt_env turn) d outside (wt_clock turn)
                                   claim alert hook actor in
              (d', worker_store label)
          end
      end
  end.

(** The rounds of the loop, the first one with the first turn. *)
Fixpoint worker_rounds (outside : Outside) (owner_id actor : string) (max_deliveries : Z)
    (turns : list WorkerTurn) (groups : gmap string Z) (s : AlertWorkerSummary) (d : QueueDb)
    : QueueDb * result WorkerError AlertWorkerSummary :=
  match turns with
  | [] => (d, Ok s)
  | turn :: turns' =>
      if max_deliveries <=? sm_attempted s then (d, Ok s) else
      let (d, claimed) := write_alert_delivery_queue_claim_next (wt_env turn) d owner_id
        (rfc3339_format (wt_claim_now turn)) ALERT_WORKER_LEASE_SECONDS actor in
      match claimed with
      | Err e => (d, Err (WorkerStore e))
      | Ok None => (d, Ok s)
      | Ok (Some claim) =>
          let group_count := default 0 (groups !! qc_group_key claim) in
          if MAX_ALERT_WORKER_PER_GROUP <=? group_count then
            let (d, deferred) := write_alert_delivery_queue_defer (wt_env turn) d claim
              (rfc3339_format (wt_deferred_at turn))
              (rfc3339_format (wt_defer_now turn + ALERT_WORKER_GROUP_DEFER_SECONDS * NANOSECONDS))
              actor in
            match deferred with
            | Err e => (d, Err (WorkerStore e))
            | Ok _ =>
                worker_rounds outside owner_id actor max_deliveries turns'
                  (<[qc_group_key claim := group_count]> groups) (count_deferred s) d
            end
          else
            let (d, label) := deliver_claim outside turn actor claim d in
            match label with
            | Err e => (d, Err e)
            | Ok label =>
                worker_rounds outside owner_id actor max_deliveries turns'
                  (<[qc_group_key claim := group_count + 1]> groups) (count_result label s) d
            end
      end
  end.

(** [run_alert_worker_once_with_sender]; [directory] is the check of the
    directory of the secrets. *)
Definition worker_pass env (outside : Outside) (directory : bool) (found : Candidates)
    (owner_id actor : string) (max_deliveries now : Z) (turn : nat -> WorkerTurn) (d : QueueDb)
    : QueueDb * result WorkerError AlertWorkerSummary :=
  if negb (in_range 1 MAX_ALERT_WORKER_DELIVERIES max_deliveries)
  then (d, Err (WorkerContext "--max-deliveries must be between 1 and 100")) else
  if negb directory
  then (d, Err (WorkerContext
    "--hmac-secret-dir must be an owned, non-symlink directory with mode 0700")) else
  let (d, evaluated) := evaluate_alert_records env d found actor in
  match evaluated with Err e => (d, Err e) | Ok _ =>
  match pass_items d now with
  | Err e => (d, Err e)
  | Ok items =>
      let (d, enqueued) := enqueue_all env actor items d in
      match enqueued with
      | Err e => (d, Err e)
      | Ok _ =>
          worker_rounds outside owner_id actor max_deliveries
            (map turn (seq 0 (Z.to_nat (Z.min (max_deliveries * 2) 200)))) ∅
            {| sm_enqueued := Z.of_nat (length items); sm_attempted := 0; sm_succeeded := 0;
               sm_retried := 0; sm_dead_lettered := 0; sm_deferred := 0 |} d
      end
  end end.
End worker.

(** ** Histories *)

(** What a worker holds: the claim it obtained last, and the hook if it has
    been read.  The owner identifier of a pass is random, so a worker is known
    by it. *)
Definition Holding : Type := AlertDeliveryQueueClaim * option AlertWebhookHookRecord.

(** The store, the workers by owner, and the outcomes that have been recorded on
    the items that are there. *)
Record WorkerState := {
  ws_db : QueueDb;
  ws_holding : gmap string Holding;
  ws_log : list AlertDeliveryQueueOutcome;
}.

Definition start : WorkerState := {| ws_db := empty_queue; ws_holding := ∅; ws_log := [] |}.

Definition item_of (o : AlertDeliveryQueueOutcome) : string := qc_queue_id (qo_claim o).

Definition live (d : QueueDb) (log : list AlertDeliveryQueueOutcome) : list AlertDeliveryQueueOutcome :=
  List.filter (fun o => bool_decide (is_Some (qd_queue d !! item_of o))) log.

Definition with_db (d : QueueDb) (ws : WorkerState) : WorkerState :=
  {| ws_db := d; ws_holding := ws_holding ws; ws_log := live d (ws_log ws) |}.
Definition with_holding (owner : string) (x : Holding) (ws : WorkerState) : WorkerState :=
  {| ws_db := ws_db ws; ws_holding := <[owner := x]> (ws_holding ws); ws_log := ws_log ws |}.
Definition with_outcome (o : AlertDeliveryQueueOutcome) (ws : WorkerState) : WorkerState :=
  {| ws_db := ws_db ws; ws_holding := ws_holding ws; ws_log := o :: ws_log ws |}.

(** The writes on the tables of alerts and hooks, by any process; retention
    deletes alerts.  Then the steps of the workers, which can be interleaved with
    them and with each other in any way. *)
Inductive WorkerOp :=
| WUpsert (a : AlertEventRecord)
| WEvaluate (w : AlertEvaluationWrite) (actor : string)
| WTransition (w : AlertStateTransition) (actor : string)
| WFinalize (w : AlertDeliveryFinalizeWrite) (actor : string)
| WAttempt (a : AlertDeliveryAttemptRecord) (actor : string)
| WHookCreate (h : AlertWebhookHookRecord) (actor : string)
| WHookEnabled (id : string) (enabled : bool) (updated_at actor : string)
| WPrune (gone : list string)
| WEnqueue (e : AlertDeliveryQueueEnqueue) (actor : string)
| WClaim (owner now : string) (lease : Z) (actor : string)
| WLoad (owner : string)
| WRenew (owner now : string) (lease : Z) (actor : string)
| WDefer (owner deferred_at next_attempt_at actor : string)
| WDeliver (owner : string) (outside : Outside) (clock : AttemptClock) (alert : AlertEventRecord)
    (actor : string).

(** [DELETE FROM alert_events], which the queue and the attempts follow. *)
Definition prune_alerts (gone : list string) (d : QueueDb) : QueueDb :=
  {| qd_core := qd_core d;
     qd_queue := filter (fun kv => str_in_list (qr_alert_id kv.2) gone = false) (qd_queue d);
     qd_attempts := filter (fun kv => str_in_list (at_alert_id kv.2) gone = false) (qd_attempts d);
     qd_hooks := qd_hooks d;
     qd_alerts := filter (fun kv => str_in_list kv.1 gone = false) (qd_alerts d) |}.

Section histories.
Context `{EndpointIdOps, TimeOps, JsonOps, JsonBytes, DigestOps, Blake3Ops}.
Context `{Sha256Ops, UrlOps, NetOps}.

Definition worker_apply (env : StoreEnv) (op : WorkerOp) (ws : WorkerState) : WorkerState :=
  let d := ws_db ws in
  match op with
  | WUpsert a => with_db (upsert_alert_event d a).1 ws
  | WEvaluate w actor => with_db (write_alert_evaluation env d w actor).1 ws
  | WTransition w actor => with_db (write_alert_state_transition env d w actor).1 ws
  | WFinalize w actor => with_db (write_alert_delivery_finalize env d w actor).1 ws
  | WAttempt a actor => with_db (write_alert_delivery_attempt env d a actor).1 ws
  | WHookCreate h actor => with_db (write_alert_webhook_hook_create env d h actor).1 ws
  | WHookEnabled id enabled updated_at actor =>
      with_db (write_alert_webhook_hook_enabled env d id enabled updated_at actor).1 ws
  | WPrune gone => with_db (prune_alerts gone d) ws
  | WEnqueue e actor => with_db (write_alert_delivery_queue_enqueue env d e actor).1 ws
  | WClaim owner now lease actor =>
      let (d', claimed) := write_alert_delivery_queue_claim_next env d owner now lease actor in
      match claimed with
      | Ok (Some claim) => with_holding owner (claim, None) (with_db d' ws)
      | _ => with_db d' ws
      end
  | WLoad owner =>
      match ws_holding ws !! owner with
      | Some (claim, _) =>
          match get_alert_webhook_hook d (qc_hook_id claim) with
          | Ok (Some hook) => with_holding owner (claim, Some hook) ws
          | _ => ws
          end
      | None => ws
      end
  | WRenew owner now lease actor =>
      match ws_holding ws !! owner with
      | Some (claim, hook) =>
          let (d', renewed) := write_alert_delivery_queue_renew env d claim now lease actor in
          match renewed with
          | Ok claim' => with_holding owner (claim', hook) (with_db d' ws)
          | Err _ => with_db d' ws
          end
      | None => ws
      end
  | WDefer owner deferred_at next_attempt_at actor =>
      match ws_holding ws !! owner with
      | Some (claim, _) =>
          with_db (write_alert_delivery_queue_defer env d claim deferred_at next_attempt_at actor).1 ws
      | None => ws
      end
  | WDeliver owner outside clock alert actor =>
      match ws_holding ws !! owner with
      | Some (claim, Some hook) =>
          let (d', label) := deliver_alert_queue_attempt env d outside clock claim alert hook actor in
          match label with
          | Ok _ => with_outcome (attempt_outcome outside clock claim alert hook) (with_db d' ws)
          | Err _ => with_db d' ws
          end
      | _ => ws
      end
  end.

Definition run_workers (script : list (StoreEnv * WorkerOp)) (ws : WorkerState) : WorkerState :=
  foldl (fun ws s => worker_apply s.1 s.2 ws) ws script.
End histories.

(** ** The payload of a stored alert *)

Definition is_safe_id (max_len : Z) (value : string) : bool :=
  negb (str_is_empty value) && (str_len value <=? max_len)
  && forallb (fun b => is_ascii_alphanumeric b || (b =? 46) || (b =? 95) || (b =? 45) || (b =? 58))
             (str_bytes value).

Definition ALERT_SUMMARY_KEYS : list string :=
  ["consecutive_failures"; "days_remaining"; "endpoint_id"; "endpoint_status"; "freshness_seconds";
   "last_error_code"; "result_class"; "status"].

(** A string with a property, and the same or null. *)
Definition text_value (p : string -> Prop) (v : Value) : Prop := exists s, v = VString s /\ p s.
Definition nullable_text (p : string -> Prop) (v : Value) : Prop := v = Null \/ text_value p v.

Section payloads.
Context `{EndpointIdOps, TimeOps, JsonOps, JsonBytes, DigestOps, Blake3Ops}.
Context `{Sha256Ops, UrlOps, NetOps}.

Definition is_rfc3339 (s : string) : Prop := is_Some (rfc3339_parse s).

(** The members of a payload in their order, each with what its value can be. *)
Definition payload_members (hook_type : string) : list (string * (Value -> Prop)) :=
  [("alert_id", text_value (fun s => is_safe_id 128 s = true));
   ("dedupe_key", text_value (fun s => is_safe_id 256 s = true));
   ("first_seen_at", text_value is_rfc3339);
   ("hook_type", fun v => v = VString hook_type);
   ("last_seen_at", text_value is_rfc3339);
   ("last_sent_at", nullable_text is_rfc3339);
   ("methods", fun v => exists l, v = VArray (map VString l) /\ (length l <= MAX_ALERT_METHODS)%nat /\
                                  Forall (fun x => is_allowed_alert_method x = true) l);
   ("node_id", nullable_text (fun s => validate_node_id s = Ok tt));
   ("reason_code", text_value (fun s => s ∈ ALERT_REASON_CODES));
   ("resolved_at", nullable_text is_rfc3339);
   ("schema", fun v => v = VString "ocfleet.alert.v1");
   ("severity", text_value (fun s => s ∈ ["warning"; "critical"]));
   ("state", text_value (fun s => s ∈ ["open"; "silenced"; "resolved"]));
   ("summary", fun v => exists m, v = VObject m /\ Forall summary_member_ok m /\
                                  sublist (map fst m) ALERT_SUMMARY_KEYS)].

Definition closed_payload (hook_type : string) (v : Value) : Prop :=
  exists m, v = VObject m /\
    Forall2 (fun e k => e.1 = k.1 /\ k.2 e.2) m (payload_members hook_type).

(** The columns of an alert that the store has checked. *)
Record columns_ok (a : AlertEventRecord) : Prop := {
  co_id : is_safe_id 128 (al_alert_id a) = true;
  co_key : is_safe_id 256 (al_dedupe_key a) = true;
  co_node : forall n, al_node_id a = Some n -> validate_node_id n = Ok tt;
  co_severity : al_severity a ∈ ["warning"; "critical"];
  co_state : al_state a ∈ ["open"; "silenced"; "resolved"];
  co_reason : al_reason_code a ∈ ALERT_REASON_CODES;
  co_first : is_rfc3339 (al_first_seen_at a);
  co_last : is_rfc3339 (al_last_seen_at a);
  co_sent : forall t, al_last_sent_at a = Some t -> is_rfc3339 t;
  co_resolved : forall t, al_resolved_at a = Some t -> is_rfc3339 t;
}.

Lemma json_opt_text (p : string -> Prop) o :
  (forall s, o = Some s -> p s) -> nullable_text p (json_of_opt_str o).
Proof. intros Hp. destruct o as [s|]; [right; exists s; split; [done|by apply Hp]|by left]. Qed.

(** The summary of a record that was read. *)
Lemma public_summary p :
  exists m, summary_from_detail (adl_public_detail p) = VObject m /\ Forall summary_member_ok m /\
    sublist (map fst m) ALERT_SUMMARY_KEYS.
Proof.
  assert (value_get "summary" (adl_public_detail p)
          = Some (VObject (retain_non_null (asf_value (adl_summary p))))) as Hs.
  { unfold adl_public_detail. destruct p as [? ? ? [?|] [?|] [?|]]; reflexivity. }
  unfold summary_from_detail. rewrite Hs.
  destruct (project_members (retain_non_null (asf_value (adl_summary p)))) as (m & -> & Hok & Hsub).
  exists m. split; [done|]. split; [done|]. etrans; [exact Hsub|].
  change ALERT_SUMMARY_KEYS with (map fst (asf_value (adl_summary p))). unfold retain_non_null.
  generalize (asf_value (adl_summary p)). intros l. induction l as [|[k v] l IH]; [constructor|].
  cbn [List.filter map snd]. destruct v; by constructor.
Qed.

Lemma read_alert_payload row alert hook_type :
  columns_ok row -> alert_event_from_row row = Ok alert ->
  closed_payload hook_type (alert_delivery_payload_for_hook alert hook_type).
Proof.
  intros [] Hr. unfold alert_event_from_row in Hr. peel_in Hr. injection Hr as <-.
  eexists. split; [done|]. cbn [al_alert_id al_dedupe_key al_node_id al_severity al_state
    al_reason_code al_first_seen_at al_last_seen_at al_last_sent_at al_resolved_at al_detail_json].
  repeat (apply Forall2_cons; split); try done;
    (split; [done|]); cbn [fst snd]; eauto using json_opt_text; try (by eexists).
  - eexists. split; [done|]. apply methods_allowed.
  - apply public_summary.
Qed.

(** ** What the writes keep *)

Lemma safe_id_ok field value max_len u :
  validate_safe_id field value max_len = Ok u -> is_safe_id max_len value = true.
Proof. unfold validate_safe_id, is_safe_id. by intros Hv; peel_in Hv. Qed.

Lemma rfc3339_ok value field t : validate_rfc3339 value field = Ok t -> is_rfc3339 value.
Proof. unfold validate_rfc3339. intros Hv%ok_or_ok. by exists t. Qed.

(** A checked record has checked columns, whatever its detail becomes. *)
Lemma checked_columns a detail :
  validate_alert_event_record a = Ok tt -> al_reason_code a ∈ ALERT_REASON_CODES ->
  columns_ok (with_alert_detail detail a).
Proof.
  unfold validate_alert_event_record. intros Hv Hreason. peel_in Hv. split; cbn; try done.
  - by eapply safe_id_ok.
  - by eapply safe_id_ok.
  - intros n Hn. rewrite Hn in *. cbn in *.
    match goal with Ho : _ n = Ok _ |- _ => apply map_err_ok in Ho end. by destruct a2.
  - by apply str_in_list_elem.
  - by apply str_in_list_elem.
  - by eapply rfc3339_ok.
  - by eapply rfc3339_ok.
  - intros t Ht. rewrite Ht in *. cbn in *. repeat case_match; simplify_eq. by eapply rfc3339_ok.
  - intros t Ht. rewrite Ht in *. cbn in *. repeat case_match; simplify_eq. by eapply rfc3339_ok.
Qed.

Definition alerts_ok (d : QueueDb) : Prop := map_Forall (fun _ a => columns_ok a) (qd_alerts d).

(** A write on the alerts alone. *)
Definition alerts_written (d d' : QueueDb) : Prop :=
  qd_queue d' = qd_queue d /\ qd_hooks d' = qd_hooks d /\ (alerts_ok d -> alerts_ok d').

#[export] Instance alerts_written_preorder : PreOrder alerts_written.
Proof.
  split; [intros d; split_and!; auto|]. intros d1 d2 d3 (Q1 & K1 & A1) (Q2 & K2 & A2).
  split; [congruence|]. split; [congruence|]. auto.
Qed.

Lemma audit_written d event d' : alert_audit d event = Ok d' -> alerts_written d d'.
Proof. unfold alert_audit. intros Ha. peel Ha. split_and!; auto. Qed.

Lemma upsert_written d a d' :
  validate_alert_event_record a = Ok tt -> upsert_alert_event_tx d a = Ok d' -> alerts_written d d'.
Proof.
  unfold upsert_alert_event_tx. intros Hv Hu. peel_in Hu.
  all: assert (columns_ok (with_alert_detail a0 a)) as Hcols
    by (apply checked_columns; [done|by apply str_in_list_elem]).
  all: injection Hu as <-; split; [done|split; [done|]]; intros Hok; unfold alerts_ok in *; cbn.
  all: apply map_Forall_insert_2; [exact Hcols|]; try apply map_Forall_delete; exact Hok.
Qed.

Lemma entries_written conflict key l : forall d d',
  Forall (fun e => validate_alert_event_record (ae_after e) = Ok tt) l ->
  write_entries conflict key l d = Ok d' -> alerts_written d d'.
Proof.
  induction l as [|e l IH]; intros d d' Hl Hw; cbn [write_entries] in Hw; [by simplify_eq|].
  apply Forall_cons in Hl as [He Hl]. destruct (compare_and_upsert _ _ _ _) as [d1|] eqn:Hc; [|done].
  etrans; [|by eapply IH]. unfold compare_and_upsert in Hc. peel_in Hc. by eapply upsert_written.
Qed.

Lemma evaluation_entries_checked l : forall ids keys u,
  validate_evaluation_entries ids keys l = Ok u ->
  Forall (fun e => validate_alert_event_record (ae_after e) = Ok tt) l.
Proof.
  induction l as [|e l IH]; intros ids keys u Hv; [constructor|]. cbn [validate_evaluation_entries] in Hv.
  destruct (match ae_before e with Some _ => _ | None => _ end); [|done].
  destruct (validate_alert_event_record (ae_after e)) as [[]|] eqn:He; [|done]. peel_in Hv.
  constructor; [done|by eapply IH].
Qed.

Lemma finalize_entries_checked l : forall keys u,
  validate_finalize_entries keys l = Ok u ->
  Forall (fun e => validate_alert_event_record (ae_after e) = Ok tt) l.
Proof.
  induction l as [|e l IH]; intros keys u Hv; [constructor|]. cbn [validate_finalize_entries] in Hv.
  destruct (ok_or _ _) as [before|]; [|done]. destruct (validate_alert_event_record before); [|done].
  destruct (validate_alert_event_record (ae_after e)) as [[]|] eqn:He; [|done]. peel_in Hv.
  constructor; [done|by eapply IH].
Qed.

Lemma transition_checked w u :
  validate_alert_state_transition w = Ok u -> validate_alert_event_record (tr_after w) = Ok tt.
Proof.
  unfold validate_alert_state_transition. intros Hv.
  destruct (validate_alert_event_record (tr_after w)) as [[]|] eqn:He; [done|]. peel_in Hv.
Qed.

(** Every write but those on the queue and on the hooks. *)
Lemma other_writes env d :
  (forall a, alerts_written d (upsert_alert_event d a).1) /\
  (forall w actor, alerts_written d (write_alert_evaluation env d w actor).1) /\
  (forall w actor, alerts_written d (write_alert_state_transition env d w actor).1) /\
  (forall w actor, alerts_written d (write_alert_delivery_finalize env d w actor).1) /\
  (forall a actor, alerts_written d (write_alert_delivery_attempt env d a actor).1).
Proof.
  split_and!; intros; apply (transact_keeps (alerts_written d)); try done; intros d' u Hb; peel_in Hb; simplify_eq; try done.
  all: repeat match goal with Ha : alert_audit _ _ = Ok _ |- _ => apply audit_written in Ha end.
  - by match goal with u : () |- _ => destruct u end; eapply upsert_written.
  - etrans; [|done]. eapply entries_written; [|done].
    match goal with Hv : validate_alert_evaluation_write w = Ok _ |- _ =>
      unfold validate_alert_evaluation_write in Hv; peel_in Hv; by eapply evaluation_entries_checked end.
  - etrans; [|done]. match goal with Hc : compare_and_upsert _ _ _ _ = Ok _ |- _ =>
      unfold compare_and_upsert in Hc; peel_in Hc; eapply upsert_written; [|done] end.
    by eapply transition_checked.
  - etrans; [|done]. eapply entries_written; [|done].
    match goal with Hv : validate_alert_delivery_finalize w = Ok _ |- _ =>
      unfold validate_alert_delivery_finalize in Hv; peel_in Hv; by eapply finalize_entries_checked end.
  - etrans; [|done]. match goal with Hi : insert_alert_delivery_attempt_tx _ _ = Ok _ |- _ =>
      unfold insert_alert_delivery_attempt_tx in Hi; peel Hi end. split_and!; auto.
Qed.
End payloads.

(** ** Rows of the queue *)

Definition owner_of (r : QueueRow) : option string := (fun h => h.1.1) <$> qr_held r.

(** What a write without a new claim and without an outcome does to a row. *)
Definition kept (r r' : QueueRow) : Prop :=
  qr_hook_id r' = qr_hook_id r /\ qr_attempt_count r' = qr_attempt_count r /\
  finished r' = finished r /\
  (qr_status r' = Claimed -> qr_status r = Claimed /\ owner_of r' = owner_of r /\
                             qr_fence_token r' = qr_fence_token r).

#[export] Instance kept_preorder : PreOrder kept.
Proof.
  split; [by intros r; split_and!|].
  intros r1 r2 r3 (A & B & C & D) (A' & B' & C' & D'). split_and!; [congruence..|].
  intros (S2 & O2 & F2)%D'. destruct (D S2) as (S1 & O1 & F1). split_and!; congruence.
Qed.

(** The rows of [d'] are rows of [d]. *)
Definition rows_kept (d d' : QueueDb) : Prop :=
  forall id r', qd_queue d' !! id = Some r' -> exists r, qd_queue d !! id = Some r /\ kept r r'.

#[export] Instance rows_kept_preorder : PreOrder rows_kept.
Proof.
  split; [intros d id r Hr; by exists r|]. intros d1 d2 d3 H12 H23 id r3 Hr3.
  destruct (H23 _ _ Hr3) as (r2 & Hr2 & K2). destruct (H12 _ _ Hr2) as (r1 & Hr1 & K1).
  exists r1. split; [done|]. by etrans.
Qed.

(** A write on the queue alone. *)
Definition queue_kept (d d' : QueueDb) : Prop :=
  rows_kept d d' /\ qd_hooks d' = qd_hooks d /\ qd_alerts d' = qd_alerts d.

#[export] Instance queue_kept_preorder : PreOrder queue_kept.
Proof.
  split; [by intros d; split_and!|]. intros d1 d2 d3 (R & K & A) (R' & K' & A').
  split_and!; [by etrans|congruence|congruence].
Qed.

Lemma insert_kept d d' id r r' :
  qd_queue d !! id = Some r -> kept r r' -> qd_queue d' = <[id := r']> (qd_queue d) ->
  qd_hooks d' = qd_hooks d -> qd_alerts d' = qd_alerts d -> queue_kept d d'.
Proof.
  intros Hr Hk Hq Hh Ha. split_and!; [|done|done]. intros i x. rewrite Hq.
  destruct (decide (id = i)) as [<-|Hne]; [rewrite lookup_insert_eq; intros [= <-]; by exists r|].
  rewrite lookup_insert_ne by done. intros Hx. by exists x.
Qed.

Section rows.
Context `{EndpointIdOps, TimeOps, JsonOps}.

Ltac queue_audit :=
  repeat match goal with Ha : insert_alert_delivery_queue_audit_tx _ _ _ _ _ _ _ _ = Ok _ |- _ =>
    apply queue_audit_frame in Ha as [? ->] end.

(** A claimed row that goes back or stays claimed. *)
Lemma back_kept next at_ error r :
  qr_status r = Claimed -> kept r (with_queue_state Retry None next at_ error r).
Proof. intros Hs. split_and!; try done. unfold finished. by rewrite Hs. Qed.

Lemma recover_items_kept env now actor l : forall d d',
  recover_items env d now actor l = Ok d' -> queue_kept d d'.
Proof.
  induction l as [|[id t] l IH]; intros d d' Hr; simpl in Hr; [by simplify_eq|].
  peel_in Hr; simplify_eq. unwrap. bool_facts. queue_audit. etrans; [|by eapply IH].
  eapply insert_kept; [done|by apply back_kept|done..].
Qed.

Lemma recover_kept env d t now actor d' :
  recover_expired_alert_delivery_claims_tx env d t now actor = Ok d' -> queue_kept d d'.
Proof.
  unfold recover_expired_alert_delivery_claims_tx. intros Hr. peel_in Hr.
  by eapply recover_items_kept.
Qed.

Lemma defer_kept env d claim t next actor :
  queue_kept d (write_alert_delivery_queue_defer env d claim t next actor).1.
Proof.
  apply (transact_keeps (queue_kept d)); [done|]. intros d' a Hb. peel_in Hb; simplify_eq. unwrap.
  queue_audit. match goal with Hh : held_row _ _ _ = Some _ |- _ =>
    apply held_row_some in Hh as (Hr & Hs & _) end.
  eapply insert_kept; [done|by apply back_kept|done..].
Qed.

Lemma renew_kept env d claim now lease actor d' claim' :
  write_alert_delivery_queue_renew env d claim now lease actor = (d', Ok claim') ->
  queue_kept d d' /\ exists lease', claim' = with_claim_lease lease' claim.
Proof.
  intros Hb%transact_body. peel_in Hb; simplify_eq. unwrap. queue_audit.
  match goal with Hh : held_row _ _ _ = Some _ |- _ => apply held_row_some in Hh as (Hr & Hs & _) end.
  split; [|by eexists]. eapply insert_kept; [done| |done..].
  split_and!; try done; [by unfold finished; rewrite Hs|]. intros _. split_and!; [done| |done].
  unfold owner_of. cbn. by destruct (qr_held _) as [[[? ?] ?]|].
Qed.

(** The claim describes the row that it takes. *)
Definition claim_of (c : AlertDeliveryQueueClaim) (r : QueueRow) : Prop :=
  qr_status r = Claimed /\ owner_of r = Some (qc_owner_id c) /\
  qr_fence_token r = qc_fence_token c /\ qr_attempt_count r = qc_attempt_count c /\
  qr_hook_id r = qc_hook_id c.

Lemma claim_next_row env d owner now lease actor d' claimed :
  write_alert_delivery_queue_claim_next env d owner now lease actor = (d', claimed) ->
  match claimed with
  | Ok (Some c) =>
      exists d1 r r', queue_kept d d1 /\ qd_queue d1 !! qc_queue_id c = Some r /\ waiting r = true /\
        qd_queue d' = <[qc_queue_id c := r']> (qd_queue d1) /\ qd_hooks d' = qd_hooks d1 /\
        qd_alerts d' = qd_alerts d1 /\ qc_owner_id c = owner /\ claim_of c r' /\
        qr_attempt_count r' = qr_attempt_count r /\ qr_hook_id r' = qr_hook_id r
  | _ => queue_kept d d'
  end.
Proof.
  intros Hc. destruct claimed as [claimed|e].
  2: { by apply transact_rolled_back in Hc as ->. }
  apply transact_body in Hc. destruct (map_err _ _); [|done].
  destruct (validate_alert_delivery_queue_claim_input _ _ _) as [t|]; [|done].
  destruct (recover_expired_alert_delivery_claims_tx _ _ _ _ _) as [d1|] eqn:Hrec; [|done].
  apply recover_kept in Hrec. destruct (page_instants _ _) as [l|] eqn:Hp; [|done].
  destruct (due_first t l) as [|[id u] rest] eqn:Hd; [cbn in Hc; by simplify_eq|].
  destruct (due_first_waiting _ _ _ _ _ _ Hp Hd) as (r & Hr & Hw). rewrite Hr in Hc. cbn in Hc.
  unfold get_alert_delivery_queue_claim_tx in Hc. cbn in Hc. rewrite lookup_insert_eq in Hc. cbn in Hc.
  peel_in Hc. simplify_eq. cbn in *. queue_audit.
  match goal with Ho : ok_or _ _ = Ok _ |- _ => apply ok_or_ok in Ho as -> end.
  match goal with Hg : _ = Ok (Some _) |- _ => peel_in Hg; injection Hg as <- end. cbn.
  exists d1, r, (claimed_row owner now (rfc3339_format (t + lease * 1000000000)) r).
  by split_and!.
Qed.

Lemma enqueue_row env d e actor :
  let d' := (write_alert_delivery_queue_enqueue env d e actor).1 in
  d' = d \/
  (exists h, qd_hooks d !! qe_hook_id e = Some h) /\ qd_queue d !! qe_queue_id e = None /\
  qd_queue d' = <[qe_queue_id e := enqueued_row e]> (qd_queue d) /\ qd_hooks d' = qd_hooks d /\
  qd_alerts d' = qd_alerts d.
Proof.
  apply (transact_keeps (fun d' => d' = d \/ _ /\ _ /\ qd_queue d' = _ /\ _ d' = _ d /\ _ d' = _ d)); [by left|].
  intros d' [] Hb. peel_in Hb; simplify_eq; [|by left]. right. queue_audit. split_and!; try done.
  - destruct (qd_hooks d !! qe_hook_id e) as [h|]; [by exists h|done].
  - apply bound_items_none. done.
Qed.

Lemma held_owner d c t r : held_row d c t = Some r -> owner_of r = Some (qc_owner_id c).
Proof.
  unfold held_row, owner_of. intros Hh. peel Hh.
  repeat match goal with Hb : _ && _ = true |- _ => apply andb_prop in Hb as [? ?] end.
  bool_facts. match goal with Hr : qr_held _ = Some _ |- _ => by rewrite Hr; simplify_eq end.
Qed.

Lemma outcome_written env d o actor d' :
  write_alert_delivery_queue_outcome env d o actor = (d', Ok tt) ->
  exists r next, qd_queue d !! item_of o = Some r /\ qr_status r = Claimed /\
    owner_of r = Some (qc_owner_id (qo_claim o)) /\ qr_fence_token r = qc_fence_token (qo_claim o) /\
    qd_queue d' = <[item_of o := outcome_row o next r]> (qd_queue d) /\ qd_hooks d' = qd_hooks d /\
    (alerts_ok d -> alerts_ok d').
Proof.
  intros Hb%transact_body. cbn zeta in Hb.
  destruct (map_err InvalidInput (validate_actor actor)); [|done].
  destruct (validate_alert_delivery_queue_outcome o) as [[]|] eqn:Hv; [|done].
  assert (is_rfc3339 (qo_completed_at o)) as Hcompleted.
  { unfold validate_alert_delivery_queue_outcome in Hv.
    destruct (validate_alert_delivery_queue_claim _); [|done].
    destruct (validate_alert_delivery_attempt_record _); [|done].
    destruct (validate_rfc3339 (qo_completed_at o) _) eqn:Ht; [|done]. by eapply rfc3339_ok. }
  clear Hv. peel_in Hb; simplify_eq. queue_audit.
  match goal with Hh : ok_or (held_row _ _ _) _ = Ok _ |- _ => apply ok_or_ok in Hh end.
  match goal with Hh : held_row _ _ _ = Some _ |- _ =>
    pose proof (held_owner _ _ _ _ Hh) as Hown; apply held_row_some in Hh as (Hr & Hs & Hf) end.
  match goal with Hi : insert_alert_delivery_attempt_tx _ _ = Ok _ |- _ =>
    unfold insert_alert_delivery_attempt_tx in Hi; peel_in Hi; simplify_eq end.
  match goal with Hi : (if outcome_succeeded o then _ else _) = Ok _ |- _ =>
    peel_in Hi; simplify_eq end; eexists _, _; split_and!; try done.
  match goal with Ho : ok_or _ _ = Ok _ |- _ => apply ok_or_ok in Ho; rename Ho into Hal end.
  intros Hok. apply map_Forall_insert_2; [|exact Hok].
  destruct (Hok _ _ Hal). split; try done. cbn. by intros t [= <-].
Qed.
End rows.

(** ** The ledger of the deliveries *)

(** How many outcomes have been recorded on an item. *)
Definition recorded_on (id : string) (log : list AlertDeliveryQueueOutcome) : Z :=
  Z.of_nat (length (List.filter (fun o => String.eqb (item_of o) id) log)).

(** A row counts its outcomes, and leaves room for another one until it is
    finished. *)
Definition row_ok (d : QueueDb) (log : list AlertDeliveryQueueOutcome) (id : string) (r : QueueRow)
    : Prop :=
  qr_attempt_count r = recorded_on id log /\
  exists h, qd_hooks d !! qr_hook_id r = Some h /\ qr_attempt_count r <= wh_max_attempts h /\
    (finished r = false -> qr_attempt_count r < wh_max_attempts h).

(** A claim that still holds its row describes it; a hook that was read has the
    limit of the stored one. *)
Definition holding_ok (d : QueueDb) (owner : string) (x : Holding) : Prop :=
  qc_owner_id x.1 = owner /\
  (forall r, qd_queue d !! qc_queue_id x.1 = Some r -> qr_status r = Claimed ->
     owner_of r = Some owner -> qr_fence_token r = qc_fence_token x.1 ->
     qr_attempt_count r = qc_attempt_count x.1 /\ qr_hook_id r = qc_hook_id x.1) /\
  (forall h, x.2 = Some h -> exists h', qd_hooks d !! qc_hook_id x.1 = Some h' /\
     wh_max_attempts h' = wh_max_attempts h).

Record ledger_ok (ws : WorkerState) : Prop := {
  lo_hooks : map_Forall (fun _ h => 1 <= wh_max_attempts h <= 5) (qd_hooks (ws_db ws));
  lo_rows : map_Forall (row_ok (ws_db ws) (ws_log ws)) (qd_queue (ws_db ws));
  lo_log : Forall (fun o => is_Some (qd_queue (ws_db ws) !! item_of o)) (ws_log ws);
  lo_held : map_Forall (holding_ok (ws_db ws)) (ws_holding ws);
}.

(** Hooks stay, with their limit. *)
Definition hooks_kept (d d' : QueueDb) : Prop :=
  forall id h, qd_hooks d !! id = Some h ->
    exists h', qd_hooks d' !! id = Some h' /\ wh_max_attempts h' = wh_max_attempts h.

Lemma hooks_same d d' : qd_hooks d' = qd_hooks d -> hooks_kept d d'.
Proof. intros He id h Hh. rewrite He. by exists h. Qed.

Lemma holding_step d d' owner x :
  holding_ok d owner x -> hooks_kept d d' ->
  (forall r', qd_queue d' !! qc_queue_id x.1 = Some r' -> qr_status r' = Claimed ->
     owner_of r' = Some owner -> exists r, qd_queue d !! qc_queue_id x.1 = Some r /\ kept r r') ->
  holding_ok d' owner x.
Proof.
  intros (Ho & Hr & Hh) Hk Hrow. split_and!; [done| |].
  - intros r' Hr' Hs Hown Hf. destruct (Hrow r' Hr' Hs Hown) as (r & Hq & K1 & K2 & _ & K3).
    destruct (K3 Hs) as (S & O & F). destruct (Hr r) as [A B]; [done|done|congruence|congruence|].
    split; congruence.
  - intros h E. destruct (Hh h E) as (h1 & H1 & M1). destruct (Hk _ _ H1) as (h2 & H2 & M2).
    exists h2. split; [done|congruence].
Qed.

Lemma recorded_live id d log :
  is_Some (qd_queue d !! id) -> recorded_on id (live d log) = recorded_on id log.
Proof.
  intros Hs. unfold recorded_on, live. f_equal. f_equal.
  induction log as [|o log IH]; [done|]. cbn [List.filter].
  destruct (bool_decide (is_Some (qd_queue d !! item_of o))) eqn:E; cbn [List.filter]; [by rewrite IH|].
  destruct (String.eqb (item_of o) id) eqn:Eo; [|done]. apply String.eqb_eq in Eo.
  rewrite Eo in E. by apply bool_decide_eq_false in E.
Qed.

Lemma recorded_absent id d log :
  Forall (fun o => is_Some (qd_queue d !! item_of o)) log -> qd_queue d !! id = None ->
  recorded_on id log = 0.
Proof.
  intros Hl Hn. unfold recorded_on. induction Hl as [|o log Ho _ IH]; [done|]. cbn [List.filter].
  destruct (String.eqb (item_of o) id) eqn:Eo; [|done]. apply String.eqb_eq in Eo.
  rewrite Eo, Hn in Ho. by destruct Ho.
Qed.

Lemma live_all d log : Forall (fun o => is_Some (qd_queue d !! item_of o)) (live d log).
Proof.
  apply Forall_forall. intros o Ho. apply list_elem_of_In, filter_In in Ho as [_ Ho].
  by apply bool_decide_eq_true in Ho.
Qed.

Lemma row_ok_step d d' log log' id r r' :
  row_ok d log id r -> hooks_kept d d' -> recorded_on id log' = recorded_on id log ->
  qr_hook_id r' = qr_hook_id r -> qr_attempt_count r' = qr_attempt_count r ->
  finished r' = finished r -> row_ok d' log' id r'.
Proof.
  intros (Hc & h & Hh & Hle & Hlt) Hk Hl K1 K2 K3.
  destruct (Hk _ _ Hh) as (h' & Hh' & M). split; [congruence|]. exists h'.
  rewrite K1, K2, K3, M. done.
Qed.

(** A write that keeps the rows, or deletes them. *)
Lemma ledger_kept ws d' :
  ledger_ok ws -> rows_kept (ws_db ws) d' -> hooks_kept (ws_db ws) d' ->
  map_Forall (fun _ h => 1 <= wh_max_attempts h <= 5) (qd_hooks d') -> ledger_ok (with_db d' ws).
Proof.
  intros [Lh Lr Ll Lo] Hr Hk Hrange. split; cbn; [done| |apply live_all|].
  - intros id r' Hr'. destruct (Hr id r' Hr') as (r & Hq & K1 & K2 & K3 & _).
    apply (row_ok_step (ws_db ws) _ (ws_log ws) _ _ r); [by apply Lr|done|by apply recorded_live|done..].
  - intros owner x Hx. apply (holding_step (ws_db ws)); [by apply Lo|done|]. eauto.
Qed.

Lemma live_ext d d' log :
  (forall id, is_Some (qd_queue d !! id) <-> is_Some (qd_queue d' !! id)) -> live d' log = live d log.
Proof.
  intros He. apply filter_ext. intros o. apply bool_decide_ext. symmetry. apply He.
Qed.

Lemma live_id d log : Forall (fun o => is_Some (qd_queue d !! item_of o)) log -> live d log = log.
Proof.
  induction 1 as [|o log Ho _ IH]; [done|]. cbn. rewrite bool_decide_eq_true_2 by done.
  f_equal. exact IH.
Qed.

(** A write on one row. *)
Lemma ledger_row d d' held held' log log' id r' :
  ledger_ok {| ws_db := d; ws_holding := held; ws_log := log |} ->
  qd_queue d' = <[id := r']> (qd_queue d) -> qd_hooks d' = qd_hooks d -> row_ok d log' id r' ->
  (forall i, i <> id -> recorded_on i log' = recorded_on i log) ->
  Forall (fun o => item_of o = id \/ is_Some (qd_queue d !! item_of o)) log' ->
  map_Forall (fun owner x => holding_ok d' owner x \/ holding_ok d owner x /\
    (qc_queue_id x.1 = id -> qr_status r' = Claimed -> owner_of r' = Some owner -> False)) held' ->
  ledger_ok {| ws_db := d'; ws_holding := held'; ws_log := log' |}.
Proof.
  intros [Lh Lr Ll Lo] Hq Hh Hrow Hrec Hlog Hheld. cbn in *. apply hooks_same in Hh as Hk.
  split; cbn; [by rewrite Hh| | |].
  - intros i x. rewrite Hq. destruct (decide (id = i)) as [<-|Hne].
    + rewrite lookup_insert_eq. intros [= <-]. by eapply row_ok_step; [exact Hrow|exact Hk|..].
    + rewrite lookup_insert_ne by done. intros Hx.
      eapply row_ok_step; [by apply Lr|done|by apply Hrec|done..].
  - apply (Forall_impl _ _ _ Hlog). intros o [->|Ho]; rewrite Hq; [rewrite lookup_insert_eq; eauto|].
    destruct (decide (id = item_of o)) as [->|]; [rewrite lookup_insert_eq; eauto|by rewrite lookup_insert_ne].
  - intros owner x Hx. destruct (Hheld owner x Hx) as [?|[Hx' Hno]]; [done|].
    apply (holding_step d); [done|done|]. intros r0. rewrite Hq.
    destruct (decide (id = qc_queue_id x.1)) as [->|Hne].
    + rewrite lookup_insert_eq. intros [= <-] Hs Ho. by destruct (Hno eq_refl Hs Ho).
    + rewrite lookup_insert_ne by done. intros Hr0 _ _. by exists r0.
Qed.

Section steps.
Context `{EndpointIdOps, TimeOps, JsonOps, JsonBytes, DigestOps, Blake3Ops}.
Context `{Sha256Ops, UrlOps, NetOps}.

Lemma enqueue_ledger env ws e actor :
  ledger_ok ws -> ledger_ok (with_db (write_alert_delivery_queue_enqueue env (ws_db ws) e actor).1 ws).
Proof.
  intros L. destruct ws as [d held log], (enqueue_row env d e actor) as [E|((h & Hh) & Hn & Hq & Hk & _)].
  { cbn [ws_db]. rewrite E. apply ledger_kept; [done|done|by apply hooks_same|by destruct L]. }
  cbn [ws_db] in *. set (d' := (write_alert_delivery_queue_enqueue env d e actor).1) in *.
  pose proof L as [Lh Lr Ll Lo]. cbn in *.
  assert (live d' log = log) as Hl.
  { apply live_id. apply (Forall_impl _ _ _ Ll). intros o Ho. rewrite Hq.
    destruct (decide (qe_queue_id e = item_of o)) as [->|]; [rewrite lookup_insert_eq; eauto|].
    by rewrite lookup_insert_ne. }
  change (ledger_ok {| ws_db := d'; ws_holding := held; ws_log := live d' log |}).
  rewrite Hl. eapply ledger_row; [exact L|exact Hq|exact Hk| |done| |].
  - split; [symmetry; by eapply recorded_absent|]. exists h. split; [done|].
    destruct (Lh _ _ Hh). cbn. split; [lia|]. intros _. lia.
  - apply (Forall_impl _ _ _ Ll). by right.
  - intros owner x Hx. right. split; [by apply Lo|done].
Qed.

Lemma claim_ledger env ws owner now lease actor :
  ledger_ok ws -> ledger_ok (worker_apply env (WClaim owner now lease actor) ws).
Proof.
  intros L. cbn [worker_apply].
  destruct (write_alert_delivery_queue_claim_next _ _ _ _ _ _) as [d' claimed] eqn:Hc.
  apply claim_next_row in Hc. pose proof (lo_hooks _ L) as Lh.
  assert (forall d1, queue_kept (ws_db ws) d1 -> ledger_ok (with_db d1 ws)) as Hkept.
  { intros d1 (Hr & Hk & _). apply ledger_kept; [done|done|by apply hooks_same|by rewrite Hk]. }
  destruct claimed as [[c|]|e]; [|by apply Hkept..].
  destruct Hc as (d1 & r & r' & Hk1 & Hr & Hw & Hq & Hh & _ & Ho & Hof & Hcount & Hhook).
  apply Hkept in Hk1 as L1. pose proof L1 as [_ Lr _ Lo]. unfold with_holding, with_db in *. cbn in *.
  assert (live d' (ws_log ws) = live d1 (ws_log ws)) as ->.
  { apply live_ext. intros id. rewrite Hq. destruct (decide (qc_queue_id c = id)) as [<-|].
    - rewrite lookup_insert_eq. split; eauto.
    - by rewrite lookup_insert_ne. }
  destruct Hof as (Hs & Hown & Hf & Hc & Hhk). rewrite Ho in Hown.
  eapply ledger_row; [exact L1|exact Hq|exact Hh| |done| |].
  - eapply row_ok_step; [by apply Lr|by apply hooks_same|done|done|done|].
    unfold finished. rewrite Hs. unfold waiting in Hw. by destruct (qr_status r).
  - apply (Forall_impl _ _ _ (live_all d1 _)). by right.
  - intros w x. destruct (decide (owner = w)) as [<-|Hne].
    + rewrite lookup_insert_eq. intros [= <-]. left. split_and!; [done| |done]. cbn.
      rewrite Hq, lookup_insert_eq. by intros ? [= <-].
    + rewrite lookup_insert_ne by done. intros Hx. right. split; [by apply Lo|]. congruence.
Qed.

(** The outcome of an attempt is under its claim, with the limit of its hook. *)
Lemma attempt_outcome_claim outside clock claim alert hook :
  qo_claim (attempt_outcome outside clock claim alert hook) = claim /\
  qo_max_attempts (attempt_outcome outside clock claim alert hook) = wh_max_attempts hook.
Proof. unfold attempt_outcome. by destruct (attempt_result _ _) as [[[? ?] ?] ?]. Qed.

Lemma unfinished_outcome o next r :
  finished (outcome_row o next r) = false -> qc_attempt_count (qo_claim o) + 1 < qo_max_attempts o.
Proof.
  unfold finished. cbn. unfold outcome_status, should_retry. intros Hf.
  repeat case_match; try done. bool_facts. lia.
Qed.

Lemma outcome_not_claimed o next r : qr_status (outcome_row o next r) <> Claimed.
Proof. cbn. unfold outcome_status. by repeat case_match. Qed.

Lemma recorded_cons o log id :
  recorded_on id (o :: log) = (if String.eqb (item_of o) id then 1 else 0) + recorded_on id log.
Proof. unfold recorded_on. cbn [List.filter]. destruct (String.eqb _ _); cbn [length]; lia. Qed.

Lemma outcome_ledger env d held log owner claim hook o actor d' :
  ledger_ok {| ws_db := d; ws_holding := held; ws_log := log |} ->
  held !! owner = Some (claim, Some hook) -> qo_claim o = claim ->
  qo_max_attempts o = wh_max_attempts hook ->
  write_alert_delivery_queue_outcome env d o actor = (d', Ok tt) ->
  ledger_ok {| ws_db := d'; ws_holding := held; ws_log := o :: live d' log |}.
Proof.
  intros L Hheld Hc Hm Hw. pose proof L as [Lh Lr Ll Lo]. cbn in *.
  destruct (outcome_written _ _ _ _ _ Hw) as (r & next & Hr & Hs & Hown & Hf & Hq & Hh & _).
  rewrite Hc in Hown, Hf. destruct (Lo _ _ Hheld) as (Ho & Hrow & Hhook). cbn in Ho, Hrow, Hhook.
  assert (item_of o = qc_queue_id claim) as Hi by (unfold item_of; by rewrite Hc).
  rewrite Ho in Hown. rewrite Hi in *.
  destruct (Hrow r Hr Hs Hown Hf) as [Hcount Hhid].
  destruct (Hhook hook eq_refl) as (h' & Hh' & Hmax).
  destruct (Lr _ _ Hr) as (Hrec & h & Hhr & _ & Hlt). rewrite Hhid in Hhr. simplify_eq.
  assert (live d' log = log) as ->.
  { apply live_id. apply (Forall_impl _ _ _ Ll). intros x Hx. rewrite Hq.
    destruct (decide (qc_queue_id (qo_claim o) = item_of x)) as [<-|]; [rewrite lookup_insert_eq; eauto|].
    by rewrite lookup_insert_ne. }
  eapply ledger_row; [exact L|exact Hq|exact Hh| | | |].
  - split; [rewrite recorded_cons, Hi, String.eqb_refl; cbn; lia|]. exists h'. cbn [outcome_row qr_hook_id].
    rewrite Hhid. split; [done|]. change (qr_attempt_count (outcome_row o next r)) with
      (qc_attempt_count (qo_claim o) + 1). split.
    + unfold finished in Hlt. rewrite Hs in Hlt. specialize (Hlt eq_refl). lia.
    + intros Hu%unfinished_outcome. lia.
  - intros i Hne. rewrite recorded_cons, Hi. apply not_eq_sym, String.eqb_neq in Hne. by rewrite Hne.
  - constructor; [by left|]. apply (Forall_impl _ _ _ Ll). by right.
  - intros w x Hx. right. split; [by apply Lo|]. intros _ Hst. by destruct (outcome_not_claimed o next r).
Qed.

Lemma deliver_ledger env ws owner outside clock alert actor :
  ledger_ok ws -> ledger_ok (worker_apply env (WDeliver owner outside clock alert actor) ws).
Proof.
  intros L. cbn [worker_apply]. destruct (ws_holding ws !! owner) as [[claim [hook|]]|] eqn:Hheld; [|done..].
  unfold deliver_alert_queue_attempt.
  destruct (attempt_outcome_claim outside clock claim alert hook) as [Hc Hm].
  destruct (write_alert_delivery_queue_outcome _ _ _ _) as [d' [[]|e]] eqn:Hw; cbn.
  - destruct ws as [d held log]. cbn in *. by eapply outcome_ledger.
  - apply transact_rolled_back in Hw as ->.
    apply ledger_kept; [done|done|by apply hooks_same|by destruct L].
Qed.

(** A write on the hooks alone. *)
Definition hooks_written (d d' : QueueDb) : Prop :=
  qd_queue d' = qd_queue d /\ qd_alerts d' = qd_alerts d /\ hooks_kept d d' /\
  (map_Forall (fun _ h => 1 <= wh_max_attempts h <= 5) (qd_hooks d) ->
   map_Forall (fun _ h => 1 <= wh_max_attempts h <= 5) (qd_hooks d')).

Lemma hooks_written_refl d : hooks_written d d.
Proof. split_and!; auto using hooks_same. Qed.

Lemma hook_create_written env d h actor :
  hooks_written d (write_alert_webhook_hook_create env d h actor).1.
Proof.
  apply (transact_keeps (hooks_written d)); [apply hooks_written_refl|]. intros d' u Hb.
  destruct (map_err InvalidInput (validate_actor actor)); [|done].
  destruct (validate_alert_webhook_hook_record h) as [v|] eqn:Hv; [|done].
  assert (1 <= wh_max_attempts h <= 5) as Hmax.
  { unfold validate_alert_webhook_hook_record in Hv. peel_in Hv.
    match goal with Hr : validate_u64_range "max_attempts" _ _ _ = _ |- _ =>
      unfold validate_u64_range in Hr; destruct (in_range _ _ _) eqn:E in Hr; [|done] end.
    by apply in_range_spec in E. }
  clear Hv. peel_in Hb; simplify_eq; [apply hooks_written_refl|].
  match goal with Ha : alert_audit _ _ = Ok _ |- _ => unfold alert_audit in Ha; peel Ha end.
  match goal with Hi : insert_alert_webhook_hook_tx _ _ = Ok _ |- _ =>
    unfold insert_alert_webhook_hook_tx in Hi; peel_in Hi; simplify_eq end.
  bool_facts. split_and!; [done|done| |intros Hd; by apply map_Forall_insert_2].
  intros id h0 Hh0. cbn. destruct (decide (wh_hook_id h = id)) as [<-|].
  - match goal with Hn : ~ is_Some _ |- _ => destruct Hn; eauto end.
  - rewrite lookup_insert_ne by done. by exists h0.
Qed.

Lemma webhook_row_some d id h : webhook_row d id = Some h -> qd_hooks d !! id = Some h.
Proof. unfold webhook_row. by intros [Hh _]%opt_filter_some. Qed.

Lemma hook_enabled_written env d id enabled updated_at actor :
  hooks_written d (write_alert_webhook_hook_enabled env d id enabled updated_at actor).1.
Proof.
  apply (transact_keeps (hooks_written d)); [apply hooks_written_refl|]. intros d' u Hb.
  peel_in Hb; simplify_eq; [apply hooks_written_refl|].
  match goal with Ha : alert_audit _ _ = Ok _ |- _ => unfold alert_audit in Ha; peel Ha end.
  match goal with Ho : ok_or _ _ = Ok _ |- _ => apply ok_or_ok, webhook_row_some in Ho; rename Ho into Hh end.
  split_and!; [done|done| |].
  - intros i h0 Hh0. cbn. destruct (decide (id = i)) as [<-|].
    + rewrite lookup_insert_eq. eexists. split; [done|]. by simplify_eq.
    + rewrite lookup_insert_ne by done. by exists h0.
  - intros Hd. apply map_Forall_insert_2; [exact (Hd _ _ Hh)|done].
Qed.

Lemma ledger_hooks ws d' : ledger_ok ws -> hooks_written (ws_db ws) d' -> ledger_ok (with_db d' ws).
Proof.
  intros L (Hq & _ & Hk & Hr). apply ledger_kept; [done| |done|by apply Hr; destruct L].
  intros id r Hid. rewrite Hq in Hid. by exists r.
Qed.

Lemma ledger_alerts ws d' : ledger_ok ws -> alerts_written (ws_db ws) d' -> ledger_ok (with_db d' ws).
Proof.
  intros L (Hq & Hh & _). apply ledger_kept; [done| |by apply hooks_same|rewrite Hh; by destruct L].
  intros id r Hid. rewrite Hq in Hid. by exists r.
Qed.

Lemma ledger_holding ws owner x :
  ledger_ok ws -> holding_ok (ws_db ws) owner x -> ledger_ok (with_holding owner x ws).
Proof. intros [? ? ? ?] Hx. split; try done. by apply map_Forall_insert_2. Qed.

Lemma load_ledger env ws owner : ledger_ok ws -> ledger_ok (worker_apply env (WLoad owner) ws).
Proof.
  intros L. cbn [worker_apply]. destruct (ws_holding ws !! owner) as [[claim hook]|] eqn:Hheld; [|done].
  destruct (get_alert_webhook_hook _ _) as [[h|]|] eqn:Hg; [|done..].
  apply ledger_holding; [done|]. destruct (lo_held _ L _ _ Hheld) as (Ho & Hr & _).
  split_and!; [done|done|]. intros h0 [= <-]. exists h. split; [|done]. cbn.
  unfold get_alert_webhook_hook, optional_row in Hg.
  destruct (webhook_row _ _) as [row|] eqn:Hrow; [|done]. apply webhook_row_some in Hrow.
  unfold alert_webhook_hook_from_row in Hg. peel_in Hg. peel_in Hm. by simplify_eq.
Qed.

Lemma renew_ledger env ws owner now lease actor :
  ledger_ok ws -> ledger_ok (worker_apply env (WRenew owner now lease actor) ws).
Proof.
  intros L. cbn [worker_apply]. destruct (ws_holding ws !! owner) as [[claim hook]|] eqn:Hheld; [|done].
  destruct (write_alert_delivery_queue_renew _ _ _ _ _ _) as [d' [claim'|e]] eqn:Hw.
  2: { apply transact_rolled_back in Hw as ->.
       apply ledger_kept; [done|done|by apply hooks_same|by destruct L]. }
  apply renew_kept in Hw as ((Hr & Hk & _) & lease' & ->).
  assert (ledger_ok (with_db d' ws)) as L'.
  { apply ledger_kept; [done|done|by apply hooks_same|rewrite Hk; by destruct L]. }
  apply ledger_holding; [done|]. destruct (lo_held _ L' _ _ Hheld) as (Ho & Hrow & Hhook). by split_and!.
Qed.

Lemma prune_rows gone d : rows_kept d (prune_alerts gone d).
Proof. intros id r' [Hr _]%map_lookup_filter_Some. by exists r'. Qed.

Lemma apply_ledger env op ws : ledger_ok ws -> ledger_ok (worker_apply env op ws).
Proof.
  intros L. destruct (other_writes env (ws_db ws)) as (W1 & W2 & W3 & W4 & W5).
  destruct op; try by (apply ledger_alerts; [done|]; cbn; auto).
  - apply ledger_hooks; [done|apply hook_create_written].
  - apply ledger_hooks; [done|apply hook_enabled_written].
  - apply ledger_kept; [done|apply prune_rows|by apply hooks_same|by destruct L].
  - by apply enqueue_ledger.
  - by apply claim_ledger.
  - by apply load_ledger.
  - by apply renew_ledger.
  - cbn [worker_apply]. destruct (ws_holding ws !! owner) as [[claim hook]|]; [|done].
    destruct (defer_kept env (ws_db ws) claim deferred_at next_attempt_at actor) as (Hr & Hk & _).
    apply ledger_kept; [done|done|by apply hooks_same|rewrite Hk; by destruct L].
  - by apply deliver_ledger.
Qed.

Lemma apply_alerts env op ws : alerts_ok (ws_db ws) -> alerts_ok (ws_db (worker_apply env op ws)).
Proof.
  intros A. destruct (other_writes env (ws_db ws)) as (W1 & W2 & W3 & W4 & W5).
  assert (forall d', qd_alerts d' = qd_alerts (ws_db ws) -> alerts_ok d') as Hsame.
  { intros d' He. unfold alerts_ok. by rewrite He. }
  assert (forall d', alerts_written (ws_db ws) d' -> alerts_ok d') as Hother.
  { intros d' (_ & _ & Ha). by apply Ha. }
  destruct op; cbn [worker_apply with_db ws_db]; try by (apply Hother; auto).
  - apply Hsame, hook_create_written.
  - apply Hsame, hook_enabled_written.
  - intros id a [Ha _]%map_lookup_filter_Some. by apply (A id).
  - cbn. destruct (enqueue_row env (ws_db ws) e actor) as [->|(_ & _ & _ & _ & Ha)]; [done|by apply Hsame].
  - destruct (write_alert_delivery_queue_claim_next _ _ _ _ _ _) as [d' claimed] eqn:Hc.
    apply claim_next_row in Hc. destruct claimed as [[c|]|e]; cbn; [|by apply Hsame, Hc..].
    destruct Hc as (d1 & r & r' & (_ & _ & A1) & _ & _ & _ & _ & A2 & _). apply Hsame. congruence.
  - by repeat case_match.
  - destruct (ws_holding ws !! owner) as [[claim hook]|]; [|done].
    destruct (write_alert_delivery_queue_renew _ _ _ _ _ _) as [d' [claim'|e]] eqn:Hw; cbn.
    + apply renew_kept in Hw as [(_ & _ & Ha) _]. by apply Hsame.
    + by apply transact_rolled_back in Hw as ->.
  - destruct (ws_holding ws !! owner) as [[claim hook]|]; [|done]. apply Hsame, defer_kept.
  - destruct (ws_holding ws !! owner) as [[claim [hook|]]|]; [|done..]. unfold deliver_alert_queue_attempt.
    destruct (write_alert_delivery_queue_outcome _ _ _ _) as [d' [[]|e]] eqn:Hw; cbn.
    + apply outcome_written in Hw as (r & next & _ & _ & _ & _ & _ & _ & Ha). by apply Ha.
    + by apply transact_rolled_back in Hw as ->.
Qed.

Lemma start_ledger : ledger_ok start.
Proof. split; cbn; [apply map_Forall_empty..|constructor|apply map_Forall_empty]. Qed.

Lemma run_invariant script : forall ws,
  ledger_ok ws /\ alerts_ok (ws_db ws) ->
  ledger_ok (run_workers script ws) /\ alerts_ok (ws_db (run_workers script ws)).
Proof.
  unfold run_workers. induction script as [|[env op] script IH]; intros ws [L A]; [done|].
  apply IH. split; [by apply apply_ledger|by apply apply_alerts].
Qed.

Lemma run_app s1 s2 ws : run_workers (s1 ++ s2) ws = run_workers s2 (run_workers s1 ws).
Proof. apply foldl_app. Qed.

(** ** A pass is such a history *)

(** [d] is the store after some steps from [ws]. *)
Definition reaches (ws : WorkerState) (d : QueueDb) : Prop :=
  exists script, ws_db (run_workers script ws) = d.

Lemma reaches_here ws : reaches ws (ws_db ws).
Proof. by exists []. Qed.

Lemma reaches_step env op ws d : reaches (worker_apply env op ws) d -> reaches ws d.
Proof. intros [script Hs]. by exists ((env, op) :: script). Qed.

Lemma enqueue_all_run env actor l : forall ws,
  exists script, ws_db (run_workers script ws) = (enqueue_all env actor l (ws_db ws)).1.
Proof.
  induction l as [|e l IH]; intros ws; [by exists []|]. cbn [enqueue_all].
  apply (reaches_step env (WEnqueue e actor)).
  assert (ws_db (worker_apply env (WEnqueue e actor) ws)
          = (write_alert_delivery_queue_enqueue env (ws_db ws) e actor).1) as Hd by done.
  destruct (write_alert_delivery_queue_enqueue env (ws_db ws) e actor) as [d' [u|error]];
    cbn [fst] in Hd; rewrite <- Hd; [apply IH|apply reaches_here].
Qed.

(** Reading the hook and delivering are two steps. *)
Lemma deliver_claim_run outside turn actor owner claim ws :
  ws_holding ws !! owner = Some (claim, None) ->
  exists script, ws_db (run_workers script ws) = (deliver_claim outside turn actor claim (ws_db ws)).1.
Proof.
  intros Hh. unfold deliver_claim. destruct (worker_store _) as [alerts|e]; [|apply reaches_here].
  destruct (List.find _ _) as [alert|]; [|apply reaches_here].
  destruct (get_alert_webhook_hook _ _) as [[hook|]|e] eqn:Hg; cbn [worker_store map_err];
    [|apply reaches_here..].
  apply (reaches_step (wt_env turn) (WLoad owner)),
    (reaches_step (wt_env turn) (WDeliver owner outside (wt_clock turn) alert actor)).
  cbn [worker_apply]. rewrite Hh, Hg. cbn [with_holding ws_holding ws_db]. rewrite lookup_insert_eq.
  destruct (deliver_alert_queue_attempt _ _ _ _ _ _ _ _) as [d' [label|e]]; by exists [].
Qed.

Lemma rounds_run outside owner actor max turns : forall groups s ws,
  exists script, ws_db (run_workers script ws)
    = (worker_rounds outside owner actor max turns groups s (ws_db ws)).1.
Proof.
  induction turns as [|turn turns IH]; intros groups s ws; cbn [worker_rounds]; [apply reaches_here|].
  destruct (max <=? sm_attempted s); [apply reaches_here|].
  set (now := rfc3339_format (wt_claim_now turn)).
  apply (reaches_step (wt_env turn) (WClaim owner now ALERT_WORKER_LEASE_SECONDS actor)).
  cbn [worker_apply].
  destruct (write_alert_delivery_queue_claim_next _ _ _ _ _ _) as [d [[claim|]|e]];
    [|by exists []..].
  set (ws1 := with_holding owner (claim, None) (with_db d ws)).
  assert (Hheld : ws_holding ws1 !! owner = Some (claim, None)) by apply lookup_insert_eq.
  change d with (ws_db ws1). clearbody ws1. cbv zeta. destruct (_ <=? default 0 _).
  - match goal with |- context [write_alert_delivery_queue_defer _ _ _ ?t ?n _] =>
      apply (reaches_step (wt_env turn) (WDefer owner t n actor)) end.
    cbn [worker_apply]. rewrite Hheld.
    destruct (write_alert_delivery_queue_defer _ _ _ _ _ _) as [d1 [u|e]].
    + match goal with |- reaches ?w _ => exact (IH _ _ w) end.
    + by exists [].
  - destruct (deliver_claim_run outside turn actor owner claim ws1 Hheld) as [script Hs].
    destruct (deliver_claim outside turn actor claim (ws_db ws1)) as [d1 [label|e]]; cbn [fst] in Hs.
    + rewrite <- Hs. destruct (IH (<[qc_group_key claim := default 0 (groups !! qc_group_key claim) + 1]>
        groups) (count_result label s) (run_workers script ws1)) as [script' Hs'].
      exists (script ++ script'). by rewrite run_app.
    + by exists script.
Qed.

Lemma evaluate_run env found actor ws :
  reaches ws (evaluate_alert_records env (ws_db ws) found actor).1.
Proof.
  unfold evaluate_alert_records. destruct (worker_store _) as [existing|e]; [|apply reaches_here].
  destruct (fo_candidates found) as [candidates|e]; [|apply reaches_here]. cbv zeta.
  destruct (map _ candidates) as [|x entries]; [apply reaches_here|].
  match goal with |- context [write_alert_evaluation _ _ ?w _] =>
    apply (reaches_step env (WEvaluate w actor)) end. cbn [worker_apply].
  destruct (write_alert_evaluation _ _ _ _) as [d' written]. by exists [].
Qed.

(** The store after a pass is the store after a history. *)
Lemma pass_run env outside directory found owner actor max now turn ws :
  reaches ws (worker_pass env outside directory found owner actor max now turn (ws_db ws)).1.
Proof.
  unfold worker_pass. destruct (negb (in_range _ _ _)); [apply reaches_here|].
  destruct (negb directory); [apply reaches_here|].
  destruct (evaluate_run env found actor ws) as [script0 Hs0].
  destruct (evaluate_alert_records env (ws_db ws) found actor) as [d0 [u0|e]]; cbn [fst] in Hs0;
    [|by exists script0].
  rewrite <- Hs0. destruct (pass_items _ _) as [items|e]; [|by exists script0].
  destruct (enqueue_all_run env actor items (run_workers script0 ws)) as [script Hs].
  destruct (enqueue_all _ _ _ _) as [d [u|e]]; cbn [fst] in Hs;
    [|exists (script0 ++ script); by rewrite run_app].
  rewrite <- Hs. match goal with |- reaches _ (worker_rounds _ _ _ _ ?ts ?g ?s _).1 =>
    destruct (rounds_run outside owner actor max ts g s
                (run_workers script (run_workers script0 ws))) as [script' Hs'] end.
  exists (script0 ++ script ++ script'). by rewrite !run_app.
Qed.

(** C39: However the writes on alerts, hooks and queue and the steps of any number
    of workers are interleaved, an item of the queue counts exactly the outcomes
    that have been recorded on it, these are at most as many as the stored limit
    of its hook, which is at most five, and an item that is not finished has
    room for another one.  A worker acts on the claim it obtained last, and on
    the hook as it has read it.  A pass of the worker is such a history. *)
Theorem delivery_attempts_bounded script :
  let ws := run_workers script start in
  (forall id r, qd_queue (ws_db ws) !! id = Some r ->
     qr_attempt_count r = recorded_on id (ws_log ws) /\
     exists h, qd_hooks (ws_db ws) !! qr_hook_id r = Some h /\ wh_max_attempts h <= 5 /\
       recorded_on id (ws_log ws) <= wh_max_attempts h /\
       (finished r = false -> recorded_on id (ws_log ws) < wh_max_attempts h)) /\
  (forall env outside directory found owner actor max now turn, exists script',
     ws_db (run_workers script' start)
     = (worker_pass env outside directory found owner actor max now turn (ws_db ws)).1).
Proof.
  intros ws. destruct (run_invariant script start) as [[Lh Lr _ _] _].
  { split; [apply start_ledger|apply map_Forall_empty]. }
  fold ws in Lh, Lr. split.
  - intros id r Hr. destruct (Lr _ _ Hr) as (Hc & h & Hh & Hle & Hlt). split; [done|]. exists h.
    rewrite <- Hc. split_and!; try done. by destruct (Lh _ _ Hh).
  - intros env outside directory found owner actor max now turn.
    destruct (pass_run env outside directory found owner actor max now turn ws) as [script' Hs].
    exists (script ++ script'). by rewrite run_app.
Qed.

Lemma listed_row d l alert :
  list_alert_events d = Ok l -> alert ∈ l ->
  exists id row, qd_alerts d !! id = Some row /\ alert_event_from_row row = Ok alert.
Proof.
  intros Hl Ha. apply (try_map_ok_elem _ _ _ _ Hl) in Ha as (row & Hr & Hf).
  unfold recent_first, sort_desc in Hr.
  rewrite list_elem_of_In, <- in_rev, <- list_elem_of_In, Ordering.sort_by_perm in Hr.
  rewrite list_elem_of_In, <- in_rev, <- list_elem_of_In, Ordering.sort_by_perm in Hr.
  apply rows_of_elem in Hr as [id Hid]. eauto.
Qed.

(** C40: After any such history, the payload of every alert that the controller
    lists has a closed shape: fourteen known members in a fixed order, each
    with a value in bounds.  The identifiers are short and of safe characters,
    the times are RFC 3339, severity, state and reason are of fixed lists, the
    node is a valid identifier; there are at most eight methods, all of the
    fixed list, and the summary has at most eight known members with numbers in
    bounds, short safe tokens or the text of an endpoint.  The body of a request
    is the encoding of this payload, of at most 16 KiB. *)
Theorem alert_payload_has_closed_shape script l alert :
  list_alert_events (ws_db (run_workers script start)) = Ok l -> alert ∈ l ->
  (forall hook_type, closed_payload hook_type (alert_delivery_payload_for_hook alert hook_type)) /\
  (forall hook secret timestamp delivery_id request,
     build_webhook_request hook alert secret timestamp delivery_id = Ok request ->
     hr_body request = json_bytes (alert_delivery_payload_for_hook alert "webhook") /\
     Z.of_nat (length (hr_body request)) <= MAX_JSONL_PAYLOAD_BYTES).
Proof.
  intros Hl Ha. destruct (run_invariant script start) as [_ A].
  { split; [apply start_ledger|apply map_Forall_empty]. }
  destruct (listed_row _ _ _ Hl Ha) as (id & row & Hid & Hrow). split.
  - intros hook_type. eapply read_alert_payload; [by apply (A id)|done].
  - unfold build_webhook_request. intros hook secret timestamp delivery_id request Hb. peel_in Hb.
    injection Hb as <-. match goal with Hp : webhook_payload_bytes _ = Ok _ |- _ =>
      unfold webhook_payload_bytes in Hp; peel Hp end. cbn. split; [done|lia].
Qed.
End steps.

(** ** A concrete history *)

Module WorkerToy.
Import HealthToy.

#[export] Instance worker_url_ops : UrlOps := ToyNet.toy_url_ops.
#[export] Instance worker_net_ops : NetOps := ToyNet.toy_net_ops.
#[export] Instance worker_sha256_ops : Sha256Ops := ToyNet.toy_sha256_ops.

Definition at_second (s : Z) : string := rfc3339_format (s * NANOS).

Definition hook : AlertWebhookHookRecord :=
  {| wh_hook_id := "hook-1"; wh_name := "pager"; wh_hook_type := "webhook";
     wh_endpoint_url := "https://pager.example";
     wh_endpoint_url_redacted := "https://pager.example/<redacted>";
     wh_endpoint_host := "pager.example"; wh_host_allow := ["pager.example"];
     wh_hmac_key_id := "0000000000000000"; wh_enabled := true; wh_max_attempts := 2;
     wh_timeout_ms := 3000; wh_created_at := at_second 100; wh_updated_at := at_second 100 |}.

Definition alert : AlertEventRecord :=
  {| al_alert_id := "alert-1"; al_dedupe_key := "edge-1:NODE_STALE"; al_node_id := Some "edge-1";
     al_severity := "warning"; al_state := "open"; al_reason_code := "NODE_STALE";
     al_first_seen_at := at_second 100; al_last_seen_at := at_second 100; al_last_sent_at := None;
     al_resolved_at := None;
     al_detail_json := VObject [("freshness_seconds", json_u64 900)] |}.

(** A secret that fits the hook, and a target that does not answer. *)
Definition outside : Outside :=
  {| out_secrets := fun _ => Some (replicate 16 65 ++ [10]);
     out_send := fun _ => AlertWebhook.Failed "WEBHOOK_TIMEOUT" |}.

Definition attempt_clock (s : Z) : AttemptClock :=
  {| ac_attempted := (s + 1) * NANOS; ac_completed := (s + 2) * NANOS; ac_retry := (s + 2) * NANOS |}.

(** Claim, read and deliver at second [s]. *)
Definition attempt_at (owner : string) (s : Z) : list (StoreEnv * WorkerOp) :=
  [(env s, WClaim owner (at_second s) 60 "worker"); (env s, WLoad owner);
   (env s, WDeliver owner outside (attempt_clock s) alert "worker")].

Definition two_attempts : list (StoreEnv * WorkerOp) :=
  [(env 100, WHookCreate hook "operator"); (env 100, WUpsert alert);
   (env 100, WEnqueue (alert_enqueue (at_second 100) hook alert) "worker")]
  ++ attempt_at "alert-worker-1" 200 ++ attempt_at "alert-worker-2" 300.

Definition item : string := alert_queue_id (alert_queue_idempotency_key alert hook).
Definition after : WorkerState := run_workers two_attempts start.
End WorkerToy.
Import HealthToy WorkerToy.

(** Two attempts time out, which is what the hook allows. *)
Lemma delivery_attempts_bounded_witness :
  recorded_on item (ws_log after) = 2 /\
  exists h, qd_hooks (ws_db after) !! "hook-1" = Some h /\ recorded_on item (ws_log after) <= wh_max_attempts h.
Proof.
  destruct (delivery_attempts_bounded two_attempts) as [Hb _].
  assert (Hq : exists r, qd_queue (ws_db (run_workers two_attempts start)) !! item = Some r /\
                         qr_attempt_count r = 2 /\ qr_hook_id r = "hook-1")
    by (eexists; split; [|split]; vm_compute; reflexivity).
  destruct Hq as (r & Hr & Hc & Hk). destruct (Hb item r Hr) as (He & h & Hh & _ & Hle & _).
  split; [exact (eq_trans (eq_sym He) Hc)|]. exists h. rewrite Hk in Hh. split; [exact Hh|exact Hle].
Defined.

Lemma alert_payload_has_closed_shape_witness :
  exists a, list_alert_events (ws_db after) = Ok [a] /\
    closed_payload "webhook" (alert_delivery_payload_for_hook a "webhook").
Proof.
  assert (Hl : exists a, list_alert_events (ws_db (run_workers two_attempts start)) = Ok [a])
    by (eexists; vm_compute; reflexivity).
  destruct Hl as [a Hl]. exists a. split; [exact Hl|].
  apply (alert_payload_has_closed_shape two_attempts [a] a Hl). apply list_elem_of_here.
Defined.
