(* ===== verification/Retention.v ===== *)
(** * Retention: pruning of old rows (ocfleet-cli/src/store.rs, retention.rs)

    Six tables are pruned by age and by number of rows.  Of their rows the model
    keeps the columns that pruning reads: the rowid, the timestamp, the
    identifier that other tables refer to, and the run of an observation.
    Deleting a row has the effects of the foreign keys: claims and observations
    forget a deleted run, and the queue and the attempts of a deleted alert go
    with it.  Timestamps are compared as texts.  Every transaction of a command
    has its own [StoreEnv], given by scope. *)

From stdpp Require Import pretty.
From S2P Require Import Prelude Text External StoreTypes StoredText StoragePayloads StoreDb.
From S2P Require Import Enrollment InputValidation ObservationPayloads AlertWebhook SchedulerStore.
From S2P Require Import ApiStore AlertQueue HealthStore Health.

(** ** Records and tables *)

Definition MAX_RETENTION_APPLY_LIMIT : Z := 100000.
Definition MAX_RETENTION_BATCH_SIZE : Z := 1000.
Definition MAX_RETENTION_POLICY_AGE_DAYS : Z := 36500.
Definition MAX_RETENTION_POLICY_ROWS : Z := 10000000.

Record RetentionPolicyRecord := {
  rp_scope : string;
  rp_max_age_days : option Z;
  rp_max_rows : option Z;
  rp_updated_at : string;
}.

Record RetentionCandidateReport := {
  cr_matched_count : Z;
  cr_oldest_timestamp : option string;
  cr_newest_timestamp : option string;
}.

Record RetentionApplyInput := {
  ri_operation_id : string;
  ri_scope : string;
  ri_cutoff : option string;
  ri_max_age_days : option Z;
  ri_max_rows : option Z;
  ri_limit : option Z;
  ri_batch_size : Z;
}.

Record RetentionApplyResult := {
  ra_cutoff : option string;
  ra_candidate_report : RetentionCandidateReport;
  ra_planned_delete_count : Z;
  ra_rows_deleted : Z;
  ra_batch_count : Z;
}.

(** A row of one of the six tables. *)
Record RetentionRow := {
  rr_rowid : Z;
  rr_timestamp : string;
  rr_id : string;
  rr_run_id : option string;
}.

#[export] Instance retention_row_eq_dec : EqDecision RetentionRow.
Proof. solve_decision. Defined.

(** The tables by name, and the references to runs and alerts: the active run of
    a claim by job, and the alerts of queue items and attempts by identifier. *)
Record RetentionDb := {
  rd_core : Db;
  rd_policies : gmap string RetentionPolicyRecord;
  rd_tables : gmap string (list RetentionRow);
  rd_active_runs : gmap string (option string);
  rd_queue : gmap string string;
  rd_attempts : gmap string string;
}.

Definition table_rows (table : string) (d : RetentionDb) : list RetentionRow :=
  default [] (rd_tables d !! table).

Definition set_retention_core (core : Db) (d : RetentionDb) : RetentionDb :=
  {| rd_core := core; rd_policies := rd_policies d; rd_tables := rd_tables d;
     rd_active_runs := rd_active_runs d; rd_queue := rd_queue d; rd_attempts := rd_attempts d |}.
Definition set_policies (policies : gmap string RetentionPolicyRecord) (d : RetentionDb)
    : RetentionDb :=
  {| rd_core := rd_core d; rd_policies := policies; rd_tables := rd_tables d;
     rd_active_runs := rd_active_runs d; rd_queue := rd_queue d; rd_attempts := rd_attempts d |}.

(** ** Policies *)

(** The table and its column of a scope; the model has one timestamp per row. *)
Definition retention_target (scope : string) : result StoreError string :=
  if String.eqb scope "observations" then Ok "probe_observations"
  else if String.eqb scope "observability-runs" then Ok "observability_runs"
  else if String.eqb scope "health-snapshots" then Ok "health_snapshots"
  else if String.eqb scope "health-history" then Ok "health_history"
  else if String.eqb scope "health-rollups" then Ok "health_rollups"
  else if String.eqb scope "alert-events" then Ok "alert_events"
  else Err (Sqlite (InvalidParameterName scope)).

Definition retention_policy_from_row (p : RetentionPolicyRecord)
    : result StoreError RetentionPolicyRecord :=
  let? _ := opt_check (fun v => let? _ := i64_to_u64 0 v in Ok tt) (rp_max_age_days p) in
  let? _ := opt_check (fun v => let? _ := i64_to_u64 0 v in Ok tt) (rp_max_rows p) in
  Ok p.

Definition get_retention_policy (d : RetentionDb) (scope : string)
    : result StoreError (option RetentionPolicyRecord) :=
  optional_row retention_policy_from_row (rd_policies d !! scope).

(** [value.is_some_and(|value| value == 0 || value > max)]. *)
Definition out_of_range (value : option Z) (max : Z) : bool :=
  from_option (fun v => (v =? 0) || (max <? v)) false value.

Definition range_error (field : string) (max : Z) : StoreError :=
  InvalidInput ("retention " +:+ field +:+ " must be 1-" +:+ pretty max).

Section retention.
Context `{EndpointIdOps, TimeOps, ZonedTimeOps, JsonOps, JsonBytes, DigestOps, Sha256Ops}.
Implicit Types (env : StoreEnv).

Definition validate_retention_policy (p : RetentionPolicyRecord) : result StoreError unit :=
  let? _ := retention_target (rp_scope p) in
  reject? out_of_range (rp_max_age_days p) MAX_RETENTION_POLICY_AGE_DAYS
    as range_error "max_age_days" MAX_RETENTION_POLICY_AGE_DAYS in
  reject? out_of_range (rp_max_rows p) MAX_RETENTION_POLICY_ROWS
    as range_error "max_rows" MAX_RETENTION_POLICY_ROWS in
  reject? bool_decide (rfc3339_parse (rp_updated_at p) = None)
    as InvalidInput "retention updated_at must be RFC3339" in
  Ok tt.

Definition retention_policy_audit_json (p : RetentionPolicyRecord) : Value :=
  VObject [("max_age_days", json_opt json_u64 (rp_max_age_days p));
           ("max_rows", json_opt json_u64 (rp_max_rows p));
           ("scope", VString (rp_scope p));
           ("updated_at", VString (rp_updated_at p))].

Definition retention_audit (d : RetentionDb) (e : AuditEvent) : result StoreError RetentionDb :=
  let? core := insert_audit_tx (rd_core d) e in
  Ok (set_retention_core core d).

Definition set_retention_policy env (d : RetentionDb) (p : RetentionPolicyRecord) (actor : string)
    : RetentionDb * result StoreError RetentionPolicyRecord :=
  transact d (
    let? _ := map_err InvalidInput (validate_actor actor) in
    let? _ := validate_retention_policy p in
    let? before := get_retention_policy d (rp_scope p) in
    let write :=
      let? _ := option_u64_to_i64 (rp_max_age_days p) in
      let? _ := option_u64_to_i64 (rp_max_rows p) in
      let? d' := retention_audit (set_policies (<[rp_scope p := p]> (rd_policies d)) d)
        (audit_request true None None None
           (VObject [("actor_type", VString "user");
                     ("after", retention_policy_audit_json p);
                     ("before", json_opt retention_policy_audit_json before);
                     ("reason", Null);
                     ("target_id", VString (rp_scope p));
                     ("target_type", VString "retention_policy")])
           (AuditEvent_new env actor "retention.set")) in
      Ok (d', p) in
    match before with
    | Some existing =>
        if bool_decide (rp_max_age_days existing = rp_max_age_days p)
           && bool_decide (rp_max_rows existing = rp_max_rows p)
        then Ok (d, existing) else write
    | None => write
    end).

(** ** Candidates *)

(** [ORDER BY timestamp, rowid]. *)
Definition row_ltb (a b : RetentionRow) : bool :=
  str_ltb (rr_timestamp a) (rr_timestamp b)
  || (String.eqb (rr_timestamp a) (rr_timestamp b) && (rr_rowid a <? rr_rowid b)).
Definition oldest_first : list RetentionRow -> list RetentionRow := sort_by row_ltb.
Definition newest_first : list RetentionRow -> list RetentionRow :=
  sort_by (fun a b => row_ltb b a).

(** [rowid IN (...)]. *)
Definition rowid_in (rows : list RetentionRow) (r : RetentionRow) : bool :=
  existsb (fun x => rr_rowid x =? rr_rowid r) rows.

(** [SELECT rowid ... ORDER BY timestamp DESC, rowid DESC LIMIT -1 OFFSET ?1]. *)
Definition beyond (max_rows : Z) (rows : list RetentionRow) : list RetentionRow :=
  drop (Z.to_nat max_rows) (newest_first rows).

(** The four conditions of the queries on a table. *)
Definition is_candidate (cutoff : option string) (max_rows : option Z) (rows : list RetentionRow)
    (r : RetentionRow) : bool :=
  from_option (fun c => str_ltb (rr_timestamp r) c) false cutoff
  || from_option (fun m => rowid_in (beyond m rows) r) false max_rows.

(** [min] and [max] of a column. *)
Definition text_min (a b : string) : string := if str_ltb b a then b else a.
Definition text_max (a b : string) : string := if str_ltb a b then b else a.
Definition aggregate (f : string -> string -> string) (rows : list RetentionRow) : option string :=
  match map rr_timestamp rows with [] => None | t :: ts => Some (foldl f t ts) end.

Definition retention_candidate_report_for_target (rows : list RetentionRow)
    (cutoff : option string) (max_rows : option Z) : result StoreError RetentionCandidateReport :=
  let? _ := option_u64_to_i64 max_rows in
  let matched := List.filter (is_candidate cutoff max_rows rows) rows in
  Ok {| cr_matched_count := Z.of_nat (length matched);
        cr_oldest_timestamp := aggregate text_min matched;
        cr_newest_timestamp := aggregate text_max matched |}.

Definition retention_candidate_report (d : RetentionDb) (scope : string) (cutoff : option string)
    (max_rows : option Z) : result StoreError RetentionCandidateReport :=
  let? table := retention_target scope in
  retention_candidate_report_for_target (table_rows table d) cutoff max_rows.

Definition count_retention_candidates (d : RetentionDb) (scope : string) (cutoff : option string)
    (max_rows : option Z) : result StoreError Z :=
  let? report := retention_candidate_report d scope cutoff max_rows in
  Ok (cr_matched_count report).

(** ** Deleting *)

(** [ON DELETE SET NULL] on a column that refers to a run. *)
Definition forget (gone : list RetentionRow) (run : option string) : option string :=
  if existsb (fun r => bool_decide (Some (rr_id r) = run)) gone then None else run.
Definition forget_run (gone : list RetentionRow) (r : RetentionRow) : RetentionRow :=
  {| rr_rowid := rr_rowid r; rr_timestamp := rr_timestamp r; rr_id := rr_id r;
     rr_run_id := forget gone (rr_run_id r) |}.

(** [ON DELETE CASCADE] on a table that refers to alerts. *)
Definition cascade (gone : list RetentionRow) (alerts : gmap string string) : gmap string string :=
  filter (fun kv => existsb (fun r => String.eqb (rr_id r) kv.2) gone = false) alerts.

(** [DELETE FROM table WHERE rowid IN (...)], with the foreign keys. *)
Definition delete_rows (table : string) (gone : list RetentionRow) (d : RetentionDb)
    : RetentionDb :=
  let runs := String.eqb table "observability_runs" in
  let alerts := String.eqb table "alert_events" in
  let kept := <[table := List.filter (fun r => negb (rowid_in gone r)) (table_rows table d)]>
                (rd_tables d) in
  {| rd_core := rd_core d; rd_policies := rd_policies d;
     rd_tables := if runs
                  then alter (map (forget_run gone)) "probe_observations" kept
                  else kept;
     rd_active_runs := if runs then forget gone <$> rd_active_runs d else rd_active_runs d;
     rd_queue := if alerts then cascade gone (rd_queue d) else rd_queue d;
     rd_attempts := if alerts then cascade gone (rd_attempts d) else rd_attempts d |}.

Definition prune_retention_target_batch (d : RetentionDb) (table : string) (cutoff : option string)
    (max_rows : option Z) (batch_size : Z) : result StoreError (RetentionDb * Z) :=
  if batch_size =? 0 then Ok (d, 0) else
  let? batch_size := u64_to_i64 batch_size in
  let? _ := option_u64_to_i64 max_rows in
  let rows := table_rows table d in
  let gone := take (Z.to_nat batch_size)
                (oldest_first (List.filter (is_candidate cutoff max_rows rows) rows)) in
  Ok (delete_rows table gone d, Z.of_nat (length gone)).

(** [while rows_deleted < planned_delete_count].  A round that goes on has
    deleted a row, so as many rounds as planned rows are enough. *)
Fixpoint prune_loop (fuel : nat) (d : RetentionDb) (table : string) (cutoff : option string)
    (max_rows : option Z) (batch_size planned rows_deleted batch_count : Z)
    : result StoreError (RetentionDb * Z * Z) :=
  if planned <=? rows_deleted then Ok (d, rows_deleted, batch_count) else
  match fuel with
  | O => Ok (d, rows_deleted, batch_count)
  | S fuel =>
      let? (d', deleted) := prune_retention_target_batch d table cutoff max_rows
                              (Z.min (planned - rows_deleted) batch_size) in
      if deleted =? 0 then Ok (d', rows_deleted, batch_count) else
      reject? u64_max <? rows_deleted + deleted
        as InvalidInput "retention deleted row count overflow" in
      reject? u64_max <? batch_count + 1 as InvalidInput "retention batch count overflow" in
      prune_loop fuel d' table cutoff max_rows batch_size planned (rows_deleted + deleted)
        (batch_count + 1)
  end.

(** ** Applying *)

Definition validate_retention_apply_input (i : RetentionApplyInput) : result StoreError unit :=
  let? _ := validate_audit_text (ri_operation_id i) "retention operation_id" 96 in
  let? _ := validate_prefixed_uuid "retention-" (ri_operation_id i) "retention operation_id" in
  let? _ := retention_target (ri_scope i) in
  reject? from_option (fun c => bool_decide (rfc3339_parse c = None)) false (ri_cutoff i)
    as InvalidInput "retention cutoff must be RFC3339" in
  reject? out_of_range (ri_max_age_days i) MAX_RETENTION_POLICY_AGE_DAYS
    as range_error "max_age_days" MAX_RETENTION_POLICY_AGE_DAYS in
  reject? out_of_range (ri_max_rows i) MAX_RETENTION_POLICY_ROWS
    as range_error "max_rows" MAX_RETENTION_POLICY_ROWS in
  reject? out_of_range (ri_limit i) MAX_RETENTION_APPLY_LIMIT
    as range_error "limit" MAX_RETENTION_APPLY_LIMIT in
  reject? out_of_range (Some (ri_batch_size i)) MAX_RETENTION_BATCH_SIZE
    as range_error "batch_size" MAX_RETENTION_BATCH_SIZE in
  Ok tt.

(** The payload of the checksum, here and in [scope_report]. *)
Definition checksum_payload (scope : string) (dry_run : bool) (cutoff : option string)
    (max_rows limit : option Z) (batch_size : Z) (report : RetentionCandidateReport)
    (planned rows_deleted batch_count : Z) : Value :=
  VObject [("batch_count", json_u64 batch_count); ("batch_size", json_u64 batch_size);
           ("cutoff", json_opt_str cutoff); ("dry_run", VBool dry_run);
           ("limit", json_opt json_u64 limit);
           ("matched_count", json_u64 (cr_matched_count report));
           ("max_rows", json_opt json_u64 max_rows);
           ("newest_candidate", json_opt_str (cr_newest_timestamp report));
           ("oldest_candidate", json_opt_str (cr_oldest_timestamp report));
           ("planned_delete_count", json_u64 planned);
           ("rows_deleted", json_u64 rows_deleted); ("scope", VString scope)].

Definition sha256_json (value : Value) : string := hex_lower (sha256 (json_bytes value)).

Definition retention_apply_audit_json (i : RetentionApplyInput) (r : RetentionApplyResult) : Value :=
  let report := ra_candidate_report r in
  VObject [("actor_type", VString "user");
           ("batch_count", json_u64 (ra_batch_count r));
           ("batch_size", json_u64 (ri_batch_size i));
           ("cutoff", json_opt_str (ra_cutoff r));
           ("deleted_count", json_u64 (ra_rows_deleted r));
           ("dry_run", VBool false);
           ("limit", json_opt json_u64 (ri_limit i));
           ("matched_count", json_u64 (cr_matched_count report));
           ("max_age_days", json_opt json_u64 (ri_max_age_days i));
           ("max_rows", json_opt json_u64 (ri_max_rows i));
           ("newest_candidate", json_opt_str (cr_newest_timestamp report));
           ("oldest_candidate", json_opt_str (cr_oldest_timestamp report));
           ("planned_delete_count", json_u64 (ra_planned_delete_count r));
           ("reason", Null);
           ("report_checksum", VString (sha256_json
              (checksum_payload (ri_scope i) false (ra_cutoff r) (ri_max_rows i) (ri_limit i)
                 (ri_batch_size i) report (ra_planned_delete_count r) (ra_rows_deleted r)
                 (ra_batch_count r))));
           ("requested_cutoff", json_opt_str (ri_cutoff i));
           ("scope", VString (ri_scope i));
           ("target_id", VString (ri_scope i));
           ("target_type", VString "retention_scope")].

(** [SELECT actor, detail_json ... WHERE event = 'retention.apply' AND request_id
    = ?1 AND json_extract(detail_json, '$.target_id') = ?2 ORDER BY id LIMIT 2]. *)
Definition applied (operation_id scope : string) (e : AuditEvent) : bool :=
  String.eqb (ae_event e) "retention.apply"
  && bool_decide (ae_request_id e = Some operation_id)
  && bool_decide (value_get "target_id" (ae_detail_json e) = Some (VString scope)).

Definition required_keys : list string :=
  ["requested_cutoff"; "max_age_days"; "cutoff"; "max_rows"; "limit"; "batch_size";
   "matched_count"; "planned_delete_count"; "deleted_count"; "batch_count";
   "oldest_candidate"; "newest_candidate"].

Definition read_optional_string (conflict : StoreError) (detail : Value) (key : string)
    : result StoreError (option string) :=
  match value_get key detail with
  | Some Null => Ok None
  | Some (VString value) => Ok (Some value)
  | _ => Err conflict
  end.

(** The result that the detail of an earlier operation describes. *)
Definition replayed_result (conflict : StoreError) (detail : Value)
    : result StoreError RetentionApplyResult :=
  let read_u64 key := ok_or (value_get key detail ≫= as_u64) conflict in
  let? cutoff := read_optional_string conflict detail "cutoff" in
  let? matched := read_u64 "matched_count" in
  let? oldest := read_optional_string conflict detail "oldest_candidate" in
  let? newest := read_optional_string conflict detail "newest_candidate" in
  let? planned := read_u64 "planned_delete_count" in
  let? deleted := read_u64 "deleted_count" in
  let? batches := read_u64 "batch_count" in
  Ok {| ra_cutoff := cutoff;
        ra_candidate_report := {| cr_matched_count := matched; cr_oldest_timestamp := oldest;
                                  cr_newest_timestamp := newest |};
        ra_planned_delete_count := planned; ra_rows_deleted := deleted;
        ra_batch_count := batches |}.

Definition retention_apply_replay_tx (d : RetentionDb) (i : RetentionApplyInput) (actor : string)
    : result StoreError (option RetentionApplyResult) :=
  let conflict := RetentionOperationConflict (ri_operation_id i)
                    "operation audit provenance is mismatched or ambiguous" in
  match take 2 (List.filter (applied (ri_operation_id i) (ri_scope i)) (db_audit (rd_core d))) with
  | [] => Ok None
  | [e] =>
      let detail := ae_detail_json e in
      reject? negb (String.eqb (ae_actor e) actor)
              || existsb (fun key => bool_decide (value_get key detail = None)) required_keys
              || negb (bool_decide (value_get "requested_cutoff" detail
                                    = Some (json_opt_str (ri_cutoff i))))
              || negb (bool_decide (value_get "max_age_days" detail
                                    = Some (json_opt json_u64 (ri_max_age_days i))))
              || negb (bool_decide (value_get "max_rows" detail
                                    = Some (json_opt json_u64 (ri_max_rows i))))
              || negb (bool_decide (value_get "limit" detail
                                    = Some (json_opt json_u64 (ri_limit i))))
              || negb (bool_decide (value_get "batch_size" detail ≫= as_u64
                                    = Some (ri_batch_size i)))
        as conflict in
      let? result := replayed_result conflict detail in
      Ok (Some result)
  | _ => Err conflict
  end.

(** [(now - Duration::days(days)).format(&Rfc3339)]. *)
Definition days_before (now days : Z) : string := rfc3339_format (now - days * 86400 * NANOS).

Definition apply_cutoff env (i : RetentionApplyInput) : result StoreError (option string) :=
  match ri_cutoff i, ri_max_age_days i with
  | Some cutoff, _ => Ok (Some cutoff)
  | None, Some days =>
      reject? i64_max <? days as InvalidInput "retention max_age_days is too large" in
      Ok (Some (days_before (env_now env) days))
  | None, None => Ok None
  end.

(** [limit.map(|limit| matched.min(limit)).unwrap_or(matched)]. *)
Definition planned_count (limit : option Z) (matched : Z) : Z :=
  match limit with Some limit => Z.min matched limit | None => matched end.

Definition apply_retention env (d : RetentionDb) (i : RetentionApplyInput) (actor : string)
    : RetentionDb * result StoreError RetentionApplyResult :=
  transact d (
    let? _ := map_err InvalidInput (validate_actor actor) in
    let? _ := validate_retention_apply_input i in
    let? table := retention_target (ri_scope i) in
    let? replayed := retention_apply_replay_tx d i actor in
    match replayed with
    | Some result => Ok (d, result)
    | None =>
        let? cutoff := apply_cutoff env i in
        let? report := retention_candidate_report_for_target (table_rows table d) cutoff
                         (ri_max_rows i) in
        let planned := planned_count (ri_limit i) (cr_matched_count report) in
        let? (d', rows_deleted, batch_count) :=
          prune_loop (Z.to_nat planned) d table cutoff (ri_max_rows i) (ri_batch_size i) planned
            0 0 in
        let result := {| ra_cutoff := cutoff; ra_candidate_report := report;
                         ra_planned_delete_count := planned; ra_rows_deleted := rows_deleted;
                         ra_batch_count := batch_count |} in
        let? d'' := retention_audit d' (audit_request true (Some (ri_operation_id i)) None None
          (retention_apply_audit_json i result) (AuditEvent_new env actor "retention.apply")) in
        Ok (d'', result)
    end).

(** ** Commands *)

Inductive RetentionScope :=
| Observations | ObservabilityRuns | HealthSnapshots | HealthHistory | HealthRollups | AlertEvents.

Definition retention_scope_name (s : RetentionScope) : string :=
  match s with
  | Observations => "observations"
  | ObservabilityRuns => "observability-runs"
  | HealthSnapshots => "health-snapshots"
  | HealthHistory => "health-history"
  | HealthRollups => "health-rollups"
  | AlertEvents => "alert-events"
  end.

Definition RETENTION_SCOPES : list string :=
  ["observations"; "observability-runs"; "health-snapshots"; "health-history"; "health-rollups";
   "alert-events"].

Definition selected_retention_scopes (scope : option RetentionScope) : list string :=
  match scope with Some s => [retention_scope_name s] | None => RETENTION_SCOPES end.

Definition default_retention_policy (scope : string) : RetentionPolicyRecord :=
  let '(max_age_days, max_rows) :=
    if String.eqb scope "observations" then (Some 30, Some 100000)
    else if String.eqb scope "observability-runs" then (Some 30, Some 100000)
    else if String.eqb scope "health-snapshots" then (Some 30, None)
    else if String.eqb scope "health-history" then (Some 90, Some 1000000)
    else if String.eqb scope "health-rollups" then (Some 1095, Some 5000000)
    else if String.eqb scope "alert-events" then (Some 180, None)
    else (None, None) in
  {| rp_scope := scope; rp_max_age_days := max_age_days; rp_max_rows := max_rows;
     rp_updated_at := "default" |}.

Definition effective_retention_policy (d : RetentionDb) (scope : string)
    : result HealthError RetentionPolicyRecord :=
  let? stored := map_err StoreFailure (get_retention_policy d scope) in
  Ok (default (default_retention_policy scope) stored).

Definition run_retention_show (d : RetentionDb) : result HealthError (list RetentionPolicyRecord) :=
  try_map (effective_retention_policy d) RETENTION_SCOPES.

Definition parse_retention_max_age_days (value : string) : result HealthError Z :=
  let? seconds := parse_duration_seconds value "--max-age" in
  reject? negb (seconds mod 86400 =? 0) as Message "--max-age must resolve to whole days" in
  let days := seconds / 86400 in
  reject? days =? 0 as Message "--max-age must be at least one day" in
  Ok days.

(** The policy that [retention set] writes. *)
Definition changed_policy (now : Z) (d : RetentionDb) (scope : RetentionScope)
    (max_age : option string) (max_rows : option Z) : result HealthError RetentionPolicyRecord :=
  reject? bool_decide (max_age = None) && bool_decide (max_rows = None)
    as Message "retention set requires --max-age or --max-rows" in
  let? policy := effective_retention_policy d (retention_scope_name scope) in
  let? days := match max_age with
               | Some value => let? days := parse_retention_max_age_days value in Ok (Some days)
               | None => Ok (rp_max_age_days policy)
               end in
  reject? bool_decide (max_rows = Some 0) as Message "--max-rows must be greater than zero" in
  Ok {| rp_scope := rp_scope policy; rp_max_age_days := days;
        rp_max_rows := option_or max_rows (rp_max_rows policy);
        rp_updated_at := rfc3339_format now |}.

Definition run_retention_set env (actor : string) (now : Z) (d : RetentionDb)
    (scope : RetentionScope) (max_age : option string) (max_rows : option Z)
    : RetentionDb * result HealthError RetentionPolicyRecord :=
  match changed_policy now d scope max_age max_rows with
  | Err e => (d, Err e)
  | Ok policy =>
      let '(d', r) := set_retention_policy env d policy actor in (d', map_err StoreFailure r)
  end.

Definition validate_retention_apply_bounds (limit : option Z) (batch_size : Z)
    : result HealthError unit :=
  reject? out_of_range limit MAX_RETENTION_APPLY_LIMIT
    as Message ("--limit must be between 1 and " +:+ pretty MAX_RETENTION_APPLY_LIMIT) in
  reject? out_of_range (Some batch_size) MAX_RETENTION_BATCH_SIZE
    as Message ("--batch-size must be between 1 and " +:+ pretty MAX_RETENTION_BATCH_SIZE) in
  Ok tt.

Definition retention_cutoff (now : Z) (p : RetentionPolicyRecord)
    : result HealthError (option string) :=
  match rp_max_age_days p with
  | None => Ok None
  | Some days =>
      reject? i64_max <? days as Message "retention max age is too large" in
      Ok (Some (days_before now days))
  end.

Record RetentionScopeReport := {
  sr_scope : string;
  sr_dry_run : bool;
  sr_cutoff : option string;
  sr_max_rows : option Z;
  sr_matched_count : Z;
  sr_planned_delete_count : Z;
  sr_rows_deleted : Z;
  sr_batch_count : Z;
  sr_batch_size : Z;
  sr_limit : option Z;
  sr_oldest_candidate : option string;
  sr_newest_candidate : option string;
  sr_report_checksum : string;
}.

Definition scope_report (scope : string) (dry_run : bool) (cutoff : option string)
    (max_rows : option Z) (report : RetentionCandidateReport)
    (planned rows_deleted batch_count batch_size : Z) (limit : option Z) : RetentionScopeReport :=
  {| sr_scope := scope; sr_dry_run := dry_run; sr_cutoff := cutoff; sr_max_rows := max_rows;
     sr_matched_count := cr_matched_count report; sr_planned_delete_count := planned;
     sr_rows_deleted := rows_deleted; sr_batch_count := batch_count; sr_batch_size := batch_size;
     sr_limit := limit; sr_oldest_candidate := cr_oldest_timestamp report;
     sr_newest_candidate := cr_newest_timestamp report;
     sr_report_checksum := sha256_json
       (checksum_payload scope dry_run cutoff max_rows limit batch_size report planned
          rows_deleted batch_count) |}.

(** [RetentionScopeApply]; the operation has an identifier unless it is a dry
    run. *)
Record RetentionScopeApply := {
  sa_operation_id : option string;
  sa_actor : string;
  sa_explicit_cutoff : option string;
  sa_limit : option Z;
  sa_batch_size : Z;
}.

Definition scope_input (operation_id scope : string) (p : RetentionPolicyRecord)
    (a : RetentionScopeApply) : RetentionApplyInput :=
  {| ri_operation_id := operation_id; ri_scope := scope; ri_cutoff := sa_explicit_cutoff a;
     ri_max_age_days := rp_max_age_days p; ri_max_rows := rp_max_rows p;
     ri_limit := sa_limit a; ri_batch_size := sa_batch_size a |}.

(** A dry run of a scope. *)
Definition dry_run_scope env (d : RetentionDb) (scope : string) (a : RetentionScopeApply)
    : result HealthError RetentionScopeReport :=
  let? p := effective_retention_policy d scope in
  let? by_age := retention_cutoff (env_now env) p in
  let cutoff := option_or (sa_explicit_cutoff a) by_age in
  let? report := map_err StoreFailure
    (retention_candidate_report d scope cutoff (rp_max_rows p)) in
  Ok (scope_report scope true cutoff (rp_max_rows p) report
        (planned_count (sa_limit a) (cr_matched_count report)) 0 0 (sa_batch_size a) (sa_limit a)).

Definition apply_retention_scope env (d : RetentionDb) (scope : string) (a : RetentionScopeApply)
    : RetentionDb * result HealthError RetentionScopeReport :=
  match sa_operation_id a with
  | None => (d, dry_run_scope env d scope a)
  | Some operation_id =>
      match effective_retention_policy d scope with
      | Err e => (d, Err e)
      | Ok p =>
          let '(d', r) := apply_retention env d (scope_input operation_id scope p a) (sa_actor a) in
          (d', let? result := map_err StoreFailure r in
               Ok (scope_report scope false (ra_cutoff result) (rp_max_rows p)
                     (ra_candidate_report result) (ra_planned_delete_count result)
                     (ra_rows_deleted result) (ra_batch_count result) (sa_batch_size a)
                     (sa_limit a)))
      end
  end.

(** The loop over the scopes: what a scope committed stays when a later one
    fails. *)
Fixpoint apply_scopes (envs : string -> StoreEnv) (d : RetentionDb) (a : RetentionScopeApply)
    (scopes : list string) : RetentionDb * result HealthError (list RetentionScopeReport) :=
  match scopes with
  | [] => (d, Ok [])
  | scope :: rest =>
      match apply_retention_scope (envs scope) d scope a with
      | (d', Err e) => (d', Err e)
      | (d', Ok report) =>
          let '(d'', r) := apply_scopes envs d' a rest in
          (d'', let? reports := r in Ok (report :: reports))
      end
  end.

Record RetentionApplyOptions := {
  ao_dry_run : bool;
  ao_operation_id : option string;
  ao_scope : option RetentionScope;
  ao_before : option string;
  ao_limit : option Z;
  ao_batch_size : Z;
}.

Definition run_retention_apply (envs : string -> StoreEnv) (uuid actor : string) (d : RetentionDb)
    (o : RetentionApplyOptions) : RetentionDb * result HealthError (list RetentionScopeReport) :=
  match (let? _ := validate_retention_apply_bounds (ao_limit o) (ao_batch_size o) in
         match ao_before o with
         | Some before => let? _ := ok_or (rfc3339_parse before) (Message "timestamp must be RFC3339") in
                          Ok tt
         | None => Ok tt
         end) with
  | Err e => (d, Err e)
  | Ok _ =>
      apply_scopes envs d
        {| sa_operation_id := if ao_dry_run o then None
                              else Some (default ("retention-" +:+ uuid) (ao_operation_id o));
           sa_actor := actor; sa_explicit_cutoff := ao_before o; sa_limit := ao_limit o;
           sa_batch_size := ao_batch_size o |}
        (selected_retention_scopes (ao_scope o))
  end.

Definition run_retention_explain (now : Z) (d : RetentionDb) (scope : RetentionScope)
    : result HealthError (RetentionPolicyRecord * option string * RetentionCandidateReport) :=
  let name := retention_scope_name scope in
  let? policy := effective_retention_policy d name in
  let? cutoff := retention_cutoff now policy in
  let? report := map_err StoreFailure
    (retention_candidate_report d name cutoff (rp_max_rows policy)) in
  Ok (policy, cutoff, report).
End retention.
