(* ===== verification/RetentionLemmas.v ===== *)
(** * RetentionLemmas: which rows a retention operation deletes

    A table with distinct rowids is totally ordered by timestamp and rowid, so a
    row is described by its rank, the number of older rows.  The candidates are
    the rows below a rank, and deleting them in batches is deleting the rows
    below a rank. *)

From stdpp Require Import pretty.
From S2P Require Import Prelude Text External StoreTypes StoredText StoragePayloads StoreDb.
From S2P Require Import Enrollment InputValidation ObservationPayloads AlertWebhook SchedulerStore.
From S2P Require Import Ordering ApiStore AlertQueue HealthStore Health Retention.
From Stdlib Require Import Sorted.

(** ** Sorting by a comparison *)

Section order.
Context {A : Type} (lt : A -> A -> bool).
Hypothesis lt_irrefl : forall x, lt x x = false.
Hypothesis lt_trans : forall x y z, lt x y = true -> lt y z = true -> lt x z = true.

Definition distinct (l : list A) : Prop :=
  NoDup l /\ (forall x y, x ∈ l -> y ∈ l -> x <> y -> lt x y = true \/ lt y x = true).

(** The number of elements below one. *)
Definition rank (l : list A) (x : A) : nat := length (List.filter (fun y => lt y x) l).

Lemma insert_lt_perm x l : insert_by lt x l ≡ₚ x :: l.
Proof.
  induction l as [|y l IH]; simpl; [done|]. destruct (lt y x); [|done]. rewrite IH. apply Permutation_swap.
Qed.

Lemma sort_lt_perm l : sort_by lt l ≡ₚ l.
Proof. induction l as [|x l IH]; simpl; [done|]. by rewrite insert_lt_perm, IH. Qed.

Lemma distinct_perm l l' : l ≡ₚ l' -> distinct l -> distinct l'.
Proof. intros Hp [Hn Ht]. split; [by rewrite <- Hp|]. intros x y. rewrite <- !Hp. apply Ht. Qed.

Lemma distinct_filter (p : A -> bool) l : distinct l -> distinct (List.filter p l).
Proof.
  intros [Hn Ht]. split.
  - apply NoDup_ListNoDup, List.NoDup_filter. by apply NoDup_ListNoDup.
  - intros x y (Hx & _)%list_elem_of_In%filter_In (Hy & _)%list_elem_of_In%filter_In.
    apply Ht; by apply list_elem_of_In.
Qed.

Lemma rank_perm l l' x : l ≡ₚ l' -> rank l x = rank l' x.
Proof. intros Hp. unfold rank. by rewrite (filter_perm _ _ _ Hp). Qed.

Lemma insert_lt_sorted x l :
  distinct (x :: l) -> StronglySorted (fun a b => lt a b = true) l ->
  StronglySorted (fun a b => lt a b = true) (insert_by lt x l).
Proof.
  intros [Hn Ht] Hs. induction Hs as [|y l Hl IH Hy]; simpl; [by repeat constructor|].
  apply NoDup_cons in Hn as [Hx Hn]. apply NoDup_cons in Hn as [Hyl Hn].
  destruct (lt y x) eqn:E.
  - constructor.
    + apply IH.
      * apply NoDup_cons. split; [|done]. intros Hin. apply Hx. by right.
      * intros a b Ha Hb. apply Ht; rewrite elem_of_cons in *; rewrite elem_of_cons; tauto.
    + apply Forall_forall. intros z. rewrite insert_lt_perm, elem_of_cons.
      rewrite Forall_forall in Hy. intros [->|Hz]; auto.
  - assert (Hxy : lt x y = true).
    { destruct (Ht x y) as [|]; [by left|by right; left| |done|congruence].
      intros ->. apply Hx. by left. }
    constructor; [by constructor|]. constructor; [done|].
    rewrite Forall_forall in Hy |- *. intros z Hz. eapply lt_trans; [exact Hxy|by apply Hy].
Qed.

Lemma sort_lt_sorted l : distinct l -> StronglySorted (fun a b => lt a b = true) (sort_by lt l).
Proof.
  induction l as [|x l IH]; intros Hd; [constructor|]. simpl. apply insert_lt_sorted.
  - eapply distinct_perm; [|exact Hd]. constructor. symmetry. apply sort_lt_perm.
  - apply IH. destruct Hd as [Hn Ht]. apply NoDup_cons in Hn as [_ Hn]. split; [done|].
    intros a b Ha Hb. apply Ht; by right.
Qed.

(** In a sorted list the rank of an element is its position. *)
Lemma sorted_rank l i x :
  StronglySorted (fun a b => lt a b = true) l -> l !! i = Some x -> rank l x = i.
Proof.
  intros Hs. revert i. induction Hs as [|y l Hl IH Hy]; intros i Hi; [done|].
  rewrite Forall_forall in Hy. unfold rank in *. cbn [List.filter]. destruct i as [|i]; cbn in Hi.
  - injection Hi as ->. rewrite lt_irrefl. apply length_zero_iff_nil.
    destruct (List.filter _ l) as [|z r] eqn:E; [done|].
    assert (Hz : z ∈ List.filter (fun y => lt y x) l) by (rewrite E; by left).
    apply list_elem_of_In, filter_In in Hz as [Hz Hlt]. apply list_elem_of_In, Hy in Hz.
    pose proof (lt_trans _ _ _ Hz Hlt) as Hc. by rewrite lt_irrefl in Hc.
  - rewrite (Hy x) by (by eapply list_elem_of_lookup_2). cbn. by rewrite (IH i).
Qed.

Lemma elem_of_take_sort n l x :
  distinct l -> x ∈ take n (sort_by lt l) <-> x ∈ l /\ (rank l x < n)%nat.
Proof.
  intros Hd. pose proof (sort_lt_sorted l Hd) as Hs. rewrite <- (sort_lt_perm l) at 2.
  rewrite <- (rank_perm _ _ x (sort_lt_perm l)). split.
  - intros (i & Hi)%list_elem_of_lookup. apply lookup_take_Some in Hi as [Hi Hn].
    rewrite (sorted_rank _ i x Hs Hi). split; [by eapply list_elem_of_lookup_2|done].
  - intros [(i & Hi)%list_elem_of_lookup Hr]. rewrite (sorted_rank _ i x Hs Hi) in Hr.
    apply list_elem_of_lookup. exists i. by apply lookup_take_Some.
Qed.

Lemma elem_of_drop_sort n l x :
  distinct l -> x ∈ drop n (sort_by lt l) <-> x ∈ l /\ (n <= rank l x)%nat.
Proof.
  intros Hd. pose proof (sort_lt_sorted l Hd) as Hs. rewrite <- (sort_lt_perm l) at 2.
  rewrite <- (rank_perm _ _ x (sort_lt_perm l)). split.
  - intros (i & Hi)%list_elem_of_lookup. rewrite lookup_drop in Hi.
    rewrite (sorted_rank _ _ x Hs Hi). split; [by eapply list_elem_of_lookup_2|lia].
  - intros [(i & Hi)%list_elem_of_lookup Hr]. rewrite (sorted_rank _ i x Hs Hi) in Hr.
    apply list_elem_of_lookup. exists (i - n)%nat. rewrite lookup_drop. by rewrite Nat.add_comm, Nat.sub_add.
Qed.

Lemma sort_lt_elem l x : x ∈ l -> exists i, sort_by lt l !! i = Some x.
Proof. intros Hx. apply list_elem_of_lookup. by rewrite sort_lt_perm. Qed.

Lemma StronglySorted_lookup (l : list A) i j x y :
  StronglySorted (fun a b => lt a b = true) l -> (i < j)%nat -> l !! i = Some x -> l !! j = Some y ->
  lt x y = true.
Proof.
  intros Hs. revert i j. induction Hs as [|z l _ IH Hz]; intros [|i] [|j] Hij Hi Hj; try (done || lia).
  - injection Hi as ->. rewrite Forall_forall in Hz. apply Hz. by eapply list_elem_of_lookup_2.
  - apply (IH i j); [lia|done|done].
Qed.

(** *** Ranks *)

Lemma filter_below n l :
  distinct l -> length (List.filter (fun x => bool_decide (rank l x < n)%nat) l) = Nat.min n (length l).
Proof.
  intros Hd. transitivity (length (take n (sort_by lt l))).
  - apply Permutation_length, NoDup_Permutation.
    + by apply distinct_filter.
    + eapply sublist_NoDup; [|apply sublist_take]. rewrite sort_lt_perm. apply Hd.
    + intros x. rewrite elem_of_take_sort by done. by rewrite filter_elem, bool_decide_eq_true.
  - rewrite length_take. by rewrite (Permutation_length (sort_lt_perm l)).
Qed.

Lemma rank_lt l x y : distinct l -> x ∈ l -> y ∈ l -> lt x y = true <-> (rank l x < rank l y)%nat.
Proof.
  intros Hd (i & Hi)%(sort_lt_elem l) (j & Hj)%(sort_lt_elem l).
  pose proof (sort_lt_sorted l Hd) as Hs. rewrite <- !(rank_perm _ _ _ (sort_lt_perm l)).
  rewrite (sorted_rank _ _ _ Hs Hi), (sorted_rank _ _ _ Hs Hj). split.
  - intros Hxy. destruct (Nat.lt_trichotomy i j) as [|[->|Hji]]; [done| |].
    + rewrite Hi in Hj. injection Hj as ->. by rewrite lt_irrefl in Hxy.
    + pose proof (StronglySorted_lookup _ _ _ _ _ Hs Hji Hj Hi) as Hyx.
      pose proof (lt_trans _ _ _ Hxy Hyx) as Hc. by rewrite lt_irrefl in Hc.
  - intros Hij. exact (StronglySorted_lookup _ _ _ _ _ Hs Hij Hi Hj).
Qed.

(** A set that contains the elements below its elements is the set of the
    elements below a rank. *)
Lemma down_closed_rank (p : A -> bool) l x :
  distinct l -> (forall x y, x ∈ l -> y ∈ l -> lt x y = true -> p y = true -> p x = true) -> x ∈ l ->
  p x = bool_decide (rank l x < length (List.filter p l))%nat.
Proof.
  intros Hd Hp Hx. destruct (p x) eqn:E; symmetry.
  - apply bool_decide_eq_true. unfold rank.
    assert (Hsub : x :: List.filter (fun y => lt y x) l ⊆+ List.filter p l).
    { apply NoDup_submseteq.
      - apply NoDup_cons. split; [|apply (distinct_filter _ _ Hd)].
        intros [_ Hc]%filter_elem. by rewrite lt_irrefl in Hc.
      - intros y. rewrite elem_of_cons, !filter_elem. intros [->|[Hy Hlt]]; [done|].
        split; [done|]. by apply (Hp y x). }
    apply submseteq_length in Hsub. cbn in Hsub. lia.
  - apply bool_decide_eq_false. unfold rank. apply Nat.le_ngt, submseteq_length, NoDup_submseteq.
    + apply (distinct_filter _ _ Hd).
    + intros y [Hy Hpy]%filter_elem. apply filter_elem. split; [done|]. destruct Hd as [_ Ht]. destruct (Ht y x Hy Hx) as [|Hxy]; [|done|].
      * intros ->. congruence.
      * rewrite (Hp x y Hx Hy Hxy Hpy) in E. done.
Qed.

(** *** Deleting the elements below a rank *)

Definition above (n : nat) (l : list A) : list A :=
  List.filter (fun x => bool_decide (n <= rank l x)%nat) l.

Lemma above_elem n l x : x ∈ above n l <-> x ∈ l /\ (n <= rank l x)%nat.
Proof. unfold above. by rewrite filter_elem, bool_decide_eq_true. Qed.

Lemma above_distinct n l : distinct l -> distinct (above n l).
Proof. apply distinct_filter. Qed.

Lemma above_length n l : distinct l -> length (above n l) = (length l - n)%nat.
Proof.
  intros Hd. pose proof (filter_below n l Hd) as Hb.
  pose proof (filter_length (fun x => bool_decide (rank l x < n)%nat) l) as Hl. unfold above.
  rewrite (List.filter_ext (fun x => bool_decide (n <= rank l x)%nat)
             (fun x => negb (bool_decide (rank l x < n)%nat))); [lia|].
  intros x. rewrite <- bool_decide_not. apply bool_decide_ext. lia.
Qed.

Lemma rank_above n l x :
  distinct l -> x ∈ l -> (n <= rank l x)%nat -> rank (above n l) x = (rank l x - n)%nat.
Proof.
  intros Hd Hx Hn. unfold rank at 1. unfold above. rewrite <- filter_both.
  assert (Hb : length (List.filter (fun y => bool_decide (rank l y < n)%nat) l) = n).
  { rewrite filter_below by done. apply Nat.min_l. transitivity (rank l x); [done|]. apply filter_length_le. }
  pose proof (filter_length (fun y => bool_decide (rank l y < n)%nat) (List.filter (fun y => lt y x) l)) as Hl.
  rewrite <- !filter_both in Hl. fold (rank l x) in Hl.
  rewrite (List.filter_ext_in (fun y => bool_decide (rank l y < n)%nat && lt y x)
             (fun y => bool_decide (rank l y < n)%nat)) in Hl.
  - rewrite (List.filter_ext (fun y => lt y x && bool_decide (n <= rank l y)%nat)
               (fun y => negb (bool_decide (rank l y < n)%nat) && lt y x)); [lia|].
    intros y. rewrite <- bool_decide_not, andb_comm. f_equal. apply bool_decide_ext. lia.
  - intros y Hy. case_bool_decide as Hr; [|done]. cbn.
    apply (rank_lt l y x Hd); [by apply list_elem_of_In|done|lia].
Qed.

Lemma above_above n m l : distinct l -> above m (above n l) = above (n + m) l.
Proof.
  intros Hd. transitivity (List.filter (fun x => bool_decide (m <= rank (above n l) x)%nat
    && bool_decide (n <= rank l x)%nat) l); [symmetry; apply filter_both|].
  apply List.filter_ext_in. intros x Hx%list_elem_of_In.
  destruct (decide (n <= rank l x)%nat) as [Hn|Hn].
  - rewrite (rank_above n l x) by done. rewrite (bool_decide_true (n <= _)%nat), andb_true_r by done.
    apply bool_decide_ext. lia.
  - rewrite (bool_decide_false (n <= _)%nat), andb_false_r by done. symmetry. apply bool_decide_false. lia.
Qed.

Lemma above_0 l : above 0 l = l.
Proof.
  unfold above. induction l as [|x l IH]; [done|]. cbn [List.filter]. rewrite bool_decide_true by lia.
  f_equal. transitivity (List.filter (fun _ : A => true) l); [|by apply List.filter_true].
  apply List.filter_ext. intros y. apply bool_decide_eq_true. lia.
Qed.
End order.

(** ** Tables *)

Lemma row_ltb_irrefl r : row_ltb r r = false.
Proof. unfold row_ltb. by rewrite str_ltb_irrefl, Z.ltb_irrefl, andb_false_r. Qed.

Lemma row_ltb_trans a b c : row_ltb a b = true -> row_ltb b c = true -> row_ltb a c = true.
Proof.
  unfold row_ltb. rewrite !orb_true_iff, !andb_true_iff, !String.eqb_eq, !Z.ltb_lt.
  intros [Hab|[Eab Hab]] [Hbc|[Ebc Hbc]].
  - left. by eapply str_ltb_trans.
  - left. by rewrite <- Ebc.
  - left. by rewrite Eab.
  - right. split; [congruence|lia].
Qed.

Lemma row_ltb_total a b : rr_rowid a <> rr_rowid b -> row_ltb a b = true \/ row_ltb b a = true.
Proof.
  intros Hne. unfold row_ltb. destruct (decide (rr_timestamp a = rr_timestamp b)) as [E|E].
  - rewrite E, str_ltb_irrefl, String.eqb_refl. cbn. rewrite !Z.ltb_lt. lia.
  - destruct (str_ltb_total _ _ E) as [-> | ->]; auto.
Qed.

Definition newer_ltb (a b : RetentionRow) : bool := row_ltb b a.

Lemma newer_ltb_trans a b c : newer_ltb a b = true -> newer_ltb b c = true -> newer_ltb a c = true.
Proof. unfold newer_ltb. intros Hab Hbc. by apply (row_ltb_trans c b a). Qed.

(** Rowids are distinct. *)
Definition table_ok (rows : list RetentionRow) : Prop := NoDup (map rr_rowid rows).

Lemma table_ok_inj rows r r' :
  table_ok rows -> r ∈ rows -> r' ∈ rows -> rr_rowid r = rr_rowid r' -> r = r'.
Proof.
  intros Hok (i & Hi)%list_elem_of_lookup (j & Hj)%list_elem_of_lookup He.
  assert (i = j) as <-; [|congruence].
  apply (NoDup_lookup (rr_rowid <$> rows) i j (rr_rowid r) Hok); rewrite list_lookup_fmap.
  - by rewrite Hi.
  - rewrite Hj. cbn. by rewrite He.
Qed.

Lemma table_ok_distinct rows : table_ok rows -> distinct row_ltb rows.
Proof.
  intros Hok. split; [by eapply NoDup_fmap_1|]. intros x y Hx Hy Hne. apply row_ltb_total.
  intros He. by apply Hne, (table_ok_inj rows).
Qed.

Lemma table_ok_newer rows : table_ok rows -> distinct newer_ltb rows.
Proof.
  intros [Hn Ht]%table_ok_distinct. split; [done|]. intros x y Hx Hy Hne. unfold newer_ltb.
  destruct (Ht x y Hx Hy Hne); auto.
Qed.

Lemma table_ok_filter (p : RetentionRow -> bool) rows : table_ok rows -> table_ok (List.filter p rows).
Proof. apply filter_keys. Qed.

(** The numbers of older and of newer rows. *)
Definition older (rows : list RetentionRow) (r : RetentionRow) : nat := rank row_ltb rows r.
Definition newer (rows : list RetentionRow) (r : RetentionRow) : nat := rank newer_ltb rows r.

Lemma rowid_in_elem rows some r :
  table_ok rows -> some ⊆ rows -> r ∈ rows -> rowid_in some r = bool_decide (r ∈ some).
Proof.
  intros Hok Hsub Hr. apply eq_true_iff_eq. unfold rowid_in.
  rewrite bool_decide_eq_true, existsb_exists. split.
  - intros (x & Hx & He%Z.eqb_eq). apply list_elem_of_In in Hx.
    by rewrite <- (table_ok_inj rows x r Hok (Hsub x Hx) Hr He).
  - intros Hs. exists r. split; [by apply list_elem_of_In|]. apply Z.eqb_refl.
Qed.

(** A row is due when it is older than the cutoff or as many rows as are kept
    are newer. *)
Definition due (cutoff : option string) (max_rows : option Z) (rows : list RetentionRow)
    (r : RetentionRow) : bool :=
  from_option (fun c => str_ltb (rr_timestamp r) c) false cutoff
  || from_option (fun m => bool_decide (Z.to_nat m <= newer rows r)%nat) false max_rows.

Lemma candidate_due cutoff max_rows rows r :
  table_ok rows -> r ∈ rows -> is_candidate cutoff max_rows rows r = due cutoff max_rows rows r.
Proof.
  intros Hok Hr. unfold is_candidate, due. f_equal. destruct max_rows as [m|]; [|done]. cbn.
  assert (Hel : forall x, x ∈ beyond m rows <-> x ∈ rows /\ (Z.to_nat m <= newer rows x)%nat).
  { intros x. apply (elem_of_drop_sort newer_ltb); [apply row_ltb_irrefl|apply newer_ltb_trans|].
    by apply table_ok_newer. }
  rewrite (rowid_in_elem rows) by (done || (intros x [Hx _]%Hel; done)).
  apply bool_decide_ext. rewrite Hel. tauto.
Qed.

(** The rows that are due are the oldest ones. *)
Lemma newer_mono rows x y :
  table_ok rows -> x ∈ rows -> y ∈ rows -> row_ltb x y = true -> (newer rows y < newer rows x)%nat.
Proof.
  intros Hok Hx Hy Hlt. apply (rank_lt newer_ltb); [apply row_ltb_irrefl|apply newer_ltb_trans|..]; try done.
  by apply table_ok_newer.
Qed.

Lemma due_down cutoff max_rows rows x y :
  table_ok rows -> x ∈ rows -> y ∈ rows -> row_ltb x y = true ->
  due cutoff max_rows rows y = true -> due cutoff max_rows rows x = true.
Proof.
  intros Hok Hx Hy Hlt. unfold due. rewrite !orb_true_iff. intros [Hc|Hm].
  - left. destruct cutoff as [c|]; [|done]. cbn in *. unfold row_ltb in Hlt.
    apply orb_true_iff in Hlt as [Hlt|[E _]%andb_true_iff]; [by eapply str_ltb_trans|].
    apply String.eqb_eq in E. by rewrite E.
  - right. destruct max_rows as [m|]; [|done]. cbn in *. apply bool_decide_eq_true in Hm.
    apply bool_decide_eq_true. pose proof (newer_mono rows x y Hok Hx Hy Hlt). lia.
Qed.

Definition due_count (cutoff : option string) (max_rows : option Z) (rows : list RetentionRow) : nat :=
  length (List.filter (due cutoff max_rows rows) rows).

Lemma due_rank cutoff max_rows rows r :
  table_ok rows -> r ∈ rows ->
  due cutoff max_rows rows r = bool_decide (older rows r < due_count cutoff max_rows rows)%nat.
Proof.
  intros Hok Hr. apply (down_closed_rank row_ltb); [apply row_ltb_irrefl|..]; try done.
  - by apply table_ok_distinct.
  - intros x y. by apply due_down.
Qed.

(** ** Deleting the rows that are due *)

Lemma due_candidates cutoff max_rows rows :
  table_ok rows ->
  List.filter (is_candidate cutoff max_rows rows) rows = List.filter (due cutoff max_rows rows) rows.
Proof. intros Hok. apply List.filter_ext_in. intros r Hr%list_elem_of_In. by apply candidate_due. Qed.

Lemma older_due cutoff max_rows rows r :
  table_ok rows -> r ∈ rows -> due cutoff max_rows rows r = true ->
  rank row_ltb (List.filter (due cutoff max_rows rows) rows) r = older rows r.
Proof.
  intros Hok Hr Hd. unfold older, rank. rewrite <- filter_both. f_equal.
  apply List.filter_ext_in. intros x Hx%list_elem_of_In.
  destruct (row_ltb x r) eqn:E; [|done]. by rewrite (due_down _ _ _ x r Hok Hx Hr E Hd).
Qed.

Lemma pruned_rows cutoff max_rows rows n :
  table_ok rows ->
  let gone := take n (oldest_first (List.filter (is_candidate cutoff max_rows rows) rows)) in
  let count := Nat.min n (due_count cutoff max_rows rows) in
  List.filter (fun r => negb (rowid_in gone r)) rows = above row_ltb count rows /\
  length gone = count /\ gone ⊆ rows.
Proof.
  intros Hok gone count.
  assert (Hg : forall x, x ∈ gone <-> x ∈ rows /\ (older rows x < count)%nat).
  { intros x. unfold gone, oldest_first. rewrite due_candidates by done.
    rewrite (elem_of_take_sort row_ltb row_ltb_irrefl row_ltb_trans)
      by (by apply distinct_filter, table_ok_distinct).
    rewrite filter_elem. unfold count. rewrite Nat.min_glb_lt_iff. split.
    - intros [[Hx Hd] Hr]. rewrite older_due in Hr by done. rewrite due_rank in Hd by done.
      by apply bool_decide_eq_true in Hd.
    - intros (Hx & Hn & Hc). assert (Hd : due cutoff max_rows rows x = true).
      { rewrite due_rank by done. by apply bool_decide_eq_true. }
      by rewrite older_due. }
  split_and!.
  - apply List.filter_ext_in. intros r Hr%list_elem_of_In.
    rewrite (rowid_in_elem rows) by (done || (intros x [Hx _]%Hg; done)).
    rewrite <- bool_decide_not. apply bool_decide_ext. rewrite Hg. fold (older rows r).
    split; [|lia]. intros Hn. apply Nat.nlt_ge. tauto.
  - unfold gone, oldest_first. rewrite length_take, (Permutation_length (sort_lt_perm _ _)).
    by rewrite due_candidates.
  - by intros x [Hx _]%Hg.
Qed.

Lemma due_count_le cutoff max_rows rows : (due_count cutoff max_rows rows <= length rows)%nat.
Proof. apply filter_length_le. Qed.

Lemma newer_above rows n r :
  table_ok rows -> r ∈ rows -> (n <= older rows r)%nat -> newer (above row_ltb n rows) r = newer rows r.
Proof.
  intros Hok Hr Hn. unfold newer, rank, above. rewrite <- filter_both. f_equal. apply List.filter_ext_in.
  intros x Hx%list_elem_of_In. unfold newer_ltb. destruct (row_ltb r x) eqn:E; [|done]. cbn.
  apply bool_decide_eq_true. apply (rank_lt row_ltb row_ltb_irrefl row_ltb_trans rows) in E; try done.
  - unfold older in Hn. lia.
  - by apply table_ok_distinct.
Qed.

(** The rows that are due after the [n] oldest have been deleted. *)
Lemma due_count_above cutoff max_rows rows n :
  table_ok rows -> (n <= due_count cutoff max_rows rows)%nat ->
  due_count cutoff max_rows (above row_ltb n rows) = (due_count cutoff max_rows rows - n)%nat.
Proof.
  intros Hok Hn. set (c := due_count cutoff max_rows rows) in *.
  pose proof (table_ok_distinct rows Hok) as Hd. pose proof (due_count_le cutoff max_rows rows) as Hc.
  transitivity (length (List.filter (fun x => bool_decide (rank row_ltb (above row_ltb n rows) x < c - n)%nat)
                          (above row_ltb n rows))).
  - unfold due_count. f_equal. apply List.filter_ext_in. intros x Hx%list_elem_of_In.
    apply above_elem in Hx as [Hx Hr].
    rewrite (rank_above row_ltb row_ltb_irrefl row_ltb_trans n rows x Hd Hx Hr).
    transitivity (due cutoff max_rows rows x).
    + unfold due. f_equal. destruct max_rows as [m|]; [|done]. cbn. by rewrite newer_above.
    + rewrite due_rank by done. apply bool_decide_ext. unfold older, c in *. lia.
  - rewrite (filter_below row_ltb row_ltb_irrefl row_ltb_trans) by (by apply above_distinct).
    rewrite (above_length row_ltb row_ltb_irrefl row_ltb_trans) by done. unfold c in *. lia.
Qed.

(** ** References *)

(** The runs of observations and claims, and the alerts of queue and attempts,
    exist. *)
Record references_ok (d : RetentionDb) : Prop := {
  ref_observations : forall r run, r ∈ table_rows "probe_observations" d -> rr_run_id r = Some run ->
    run ∈ map rr_id (table_rows "observability_runs" d);
  ref_claims : forall job run, rd_active_runs d !! job = Some (Some run) ->
    run ∈ map rr_id (table_rows "observability_runs" d);
  ref_queue : forall item alert, rd_queue d !! item = Some alert ->
    alert ∈ map rr_id (table_rows "alert_events" d);
  ref_attempts : forall attempt alert, rd_attempts d !! attempt = Some alert ->
    alert ∈ map rr_id (table_rows "alert_events" d);
}.

(** A row without its reference to a run. *)
Definition row_key (r : RetentionRow) : Z * string * string :=
  (rr_rowid r, rr_timestamp r, rr_id r).

(** What a deletion from a table leaves as it was. *)
Record only_table (table : string) (d d' : RetentionDb) : Prop := {
  ot_core : rd_core d' = rd_core d;
  ot_policies : rd_policies d' = rd_policies d;
  ot_rows : forall other, other <> table ->
    map row_key (table_rows other d') = map row_key (table_rows other d);
  ot_references : references_ok d -> references_ok d';
}.

Lemma only_table_refl table d : only_table table d d.
Proof. by split. Qed.

Lemma only_table_trans table d1 d2 d3 :
  only_table table d1 d2 -> only_table table d2 d3 -> only_table table d1 d3.
Proof.
  intros [C1 P1 R1 F1] [C2 P2 R2 F2]. split; [congruence|congruence| |auto].
  intros other Hne. by rewrite R2, R1.
Qed.

Lemma delete_table table gone d :
  table_rows table (delete_rows table gone d)
  = List.filter (fun r => negb (rowid_in gone r)) (table_rows table d).
Proof.
  unfold delete_rows, table_rows. cbn [rd_tables]. destruct (String.eqb_spec table "observability_runs") as [->|Hne].
  - rewrite lookup_alter_ne by done. by rewrite lookup_insert_eq.
  - by rewrite lookup_insert_eq.
Qed.

Lemma delete_other table gone d other :
  other <> table ->
  table_rows other (delete_rows table gone d)
  = if String.eqb table "observability_runs" && String.eqb other "probe_observations"
    then map (forget_run gone) (table_rows other d) else table_rows other d.
Proof.
  intros Hne. unfold delete_rows, table_rows. cbn [rd_tables].
  destruct (String.eqb_spec table "observability_runs") as [->|_]; cbn [andb].
  - destruct (String.eqb_spec other "probe_observations") as [->|Hp].
    + rewrite lookup_alter_eq, lookup_insert_ne by done. by destruct (rd_tables d !! _).
    + rewrite lookup_alter_ne, lookup_insert_ne by done. done.
  - by rewrite lookup_insert_ne.
Qed.

(** The identifier of a row that is not deleted is left. *)
Lemma kept_id rows gone id :
  table_ok rows -> gone ⊆ rows -> id ∈ map rr_id rows ->
  (forall r, r ∈ gone -> rr_id r <> id) ->
  id ∈ map rr_id (List.filter (fun r => negb (rowid_in gone r)) rows).
Proof.
  intros Hok Hsub (r & -> & Hr)%list_elem_of_fmap Hg. apply list_elem_of_fmap. exists r. split; [done|].
  apply filter_elem. split; [done|]. rewrite (rowid_in_elem rows) by done.
  apply negb_true_iff, bool_decide_eq_false. intros Hin. by apply (Hg r).
Qed.

Lemma forget_some gone run id : forget gone run = Some id -> run = Some id /\ forall r, r ∈ gone -> rr_id r <> id.
Proof.
  unfold forget. destruct (existsb _ gone) eqn:E; [done|]. intros ->. split; [done|]. intros r Hr Hid.
  apply not_true_iff_false in E. apply E, existsb_exists. exists r. split; [by apply list_elem_of_In|].
  apply bool_decide_eq_true. congruence.
Qed.

Lemma cascade_some gone alerts item alert :
  cascade gone alerts !! item = Some alert ->
  alerts !! item = Some alert /\ forall r, r ∈ gone -> rr_id r <> alert.
Proof.
  unfold cascade. intros [Hl Hf]%map_lookup_filter_Some. split; [done|]. intros r Hr Hid. cbn in Hf.
  apply not_true_iff_false in Hf. apply Hf, existsb_exists. exists r. split; [by apply list_elem_of_In|].
  by apply String.eqb_eq.
Qed.

Lemma map_forget gone l : map row_key (map (forget_run gone) l) = map row_key l.
Proof. rewrite map_map. by apply map_ext. Qed.

Lemma delete_only table gone d :
  table_ok (table_rows table d) -> gone ⊆ table_rows table d ->
  only_table table d (delete_rows table gone d).
Proof.
  intros Hok Hsub. split; [done|done| |].
  - intros other Hne. rewrite delete_other by done. destruct (_ && _); [apply map_forget|done].
  - intros [F1 F2 F3 F4].
    assert (Hkeep : forall t id, id ∈ map rr_id (table_rows t d) ->
      (t = table -> forall r, r ∈ gone -> rr_id r <> id) ->
      id ∈ map rr_id (table_rows t (delete_rows table gone d))).
    { intros t id Hin Hg. destruct (decide (t = table)) as [->|Hne].
      - rewrite delete_table. by apply kept_id, Hg.
      - rewrite delete_other by done. destruct (_ && _); [|done]. by rewrite map_map. }
    split.
    + intros r run Hr Hrun. destruct (decide ("probe_observations" = table)) as [<-|Hne].
      * rewrite delete_table in Hr. apply filter_elem in Hr as [Hr _].
        apply Hkeep; [by eapply F1|done].
      * rewrite delete_other in Hr by done. destruct (String.eqb_spec table "observability_runs") as [->|Ht].
        -- cbn in Hr. apply list_elem_of_fmap in Hr as (r0 & -> & Hr). cbn in Hrun.
           apply forget_some in Hrun as [Hrun Hg]. apply Hkeep; [by eapply F1|done].
        -- cbn in Hr. apply Hkeep; [by eapply F1|congruence].
    + intros job run Hj. unfold delete_rows in Hj. cbn [rd_active_runs] in Hj.
      destruct (String.eqb_spec table "observability_runs") as [->|Ht].
      * rewrite lookup_fmap in Hj. destruct (rd_active_runs d !! job) as [o|] eqn:E; [|done].
        cbn in Hj. injection Hj as Hj. apply forget_some in Hj as [-> Hg]. apply Hkeep; [by eapply F2|done].
      * apply Hkeep; [by eapply F2|congruence].
    + intros item alert Hi. unfold delete_rows in Hi. cbn [rd_queue] in Hi.
      destruct (String.eqb_spec table "alert_events") as [->|Ht].
      * apply cascade_some in Hi as [Hi Hg]. apply Hkeep; [by eapply F3|done].
      * apply Hkeep; [by eapply F3|congruence].
    + intros item alert Hi. unfold delete_rows in Hi. cbn [rd_attempts] in Hi.
      destruct (String.eqb_spec table "alert_events") as [->|Ht].
      * apply cascade_some in Hi as [Hi Hg]. apply Hkeep; [by eapply F4|done].
      * apply Hkeep; [by eapply F4|congruence].
Qed.

(** ** The loop *)

(** The number of batches. *)
Definition batches (planned batch_size : Z) : Z := (planned + batch_size - 1) / batch_size.

Lemma batches_step planned batch_size :
  0 < planned -> 0 < batch_size ->
  batches planned batch_size = 1 + batches (planned - Z.min planned batch_size) batch_size.
Proof.
  intros Hp Hb. unfold batches. destruct (Z.min_spec planned batch_size) as [[Hlt ->]|[Hge ->]].
  - rewrite Z.sub_diag, Z.add_0_l. rewrite (Z.div_small (batch_size - 1)) by lia.
    replace (planned + batch_size - 1) with (1 * batch_size + (planned - 1)) by lia.
    rewrite Z.div_add_l by lia. rewrite Z.div_small by lia. lia.
  - replace (planned + batch_size - 1) with (1 * batch_size + (planned - batch_size + batch_size - 1)) by lia.
    rewrite Z.div_add_l by lia. lia.
Qed.

Lemma batches_bound planned batch_size : 0 <= planned -> 0 < batch_size -> 0 <= batches planned batch_size <= planned.
Proof.
  intros Hp Hb. unfold batches. split; [apply Z.div_pos; lia|].
  destruct (Z.eq_dec planned 0) as [->|Hne]; [rewrite Z.div_small; lia|].
  apply Z.div_le_upper_bound; nia.
Qed.

Section loop.
Context (table : string) (cutoff : option string) (max_rows : option Z) (batch_size : Z).
Hypothesis Hbatch : 0 < batch_size <= i64_max.
Hypothesis Hmax : option_u64_to_i64 max_rows = Ok tt.

Lemma prune_batch_spec d n :
  table_ok (table_rows table d) -> 0 < n <= i64_max ->
  (Z.to_nat n <= due_count cutoff max_rows (table_rows table d))%nat ->
  exists d', prune_retention_target_batch d table cutoff max_rows n = Ok (d', n) /\
    table_rows table d' = above row_ltb (Z.to_nat n) (table_rows table d) /\ only_table table d d'.
Proof.
  intros Hok Hn Hdue. unfold prune_retention_target_batch, u64_to_i64.
  rewrite (proj2 (Z.eqb_neq n 0)), (proj2 (Z.leb_le n i64_max)) by lia. rewrite Hmax.
  cbv beta iota zeta.
  destruct (pruned_rows cutoff max_rows _ (Z.to_nat n) Hok) as (Hrows & Hlen & Hsub).
  rewrite Nat.min_l in Hrows, Hlen by done.
  eexists. split; [rewrite Hlen, Z2Nat.id by lia; reflexivity|].
  split; [by rewrite delete_table|by apply delete_only].
Qed.

Lemma prune_batches_spec planned : forall fuel d done count,
  table_ok (table_rows table d) -> 0 <= done <= planned -> planned <= i64_max -> 0 <= count <= done ->
  (Z.to_nat (planned - done) <= fuel)%nat ->
  (Z.to_nat (planned - done) <= due_count cutoff max_rows (table_rows table d))%nat ->
  exists d', prune_loop fuel d table cutoff max_rows batch_size planned done count
      = Ok (d', planned, count + batches (planned - done) batch_size) /\
    table_rows table d' = above row_ltb (Z.to_nat (planned - done)) (table_rows table d) /\
    only_table table d d'.
Proof.
  induction fuel as [|fuel IH]; intros d done count Hok Hdone Hplan Hcount Hfuel Hdue; cbn [prune_loop].
  all: destruct (Z.leb_spec planned done) as [Hle|Hgt].
  1, 3: assert (done = planned) as -> by lia; rewrite Z.sub_diag; exists d;
    unfold batches; rewrite Z.div_small by lia; rewrite Z.add_0_r;
    split_and!; [done|by rewrite above_0|apply only_table_refl].
  - lia.
  - set (n := Z.min (planned - done) batch_size).
    destruct (prune_batch_spec d n) as (d1 & -> & Hrows & Hot); [done|lia|lia|]. cbv beta iota.
    rewrite (proj2 (Z.eqb_neq n 0)) by lia.
    rewrite (proj2 (Z.ltb_ge u64_max (done + n))) by (unfold u64_max, i64_max in *; lia).
    rewrite (proj2 (Z.ltb_ge u64_max (count + 1))) by (unfold u64_max, i64_max in *; lia).
    assert (Hok1 : table_ok (table_rows table d1)) by (rewrite Hrows; by apply table_ok_filter).
    destruct (IH d1 (done + n) (count + 1)) as (d2 & -> & Hrows2 & Hot2); try (done || lia).
    { rewrite Hrows, due_count_above by (done || lia). lia. }
    exists d2. split_and!.
    + rewrite (batches_step (planned - done)) by lia. fold n.
      replace (planned - done - n) with (planned - (done + n)) by lia. do 2 f_equal. lia.
    + rewrite Hrows2, Hrows, (above_above row_ltb row_ltb_irrefl row_ltb_trans) by (by apply table_ok_distinct).
      f_equal. lia.
    + by eapply only_table_trans.
Qed.
End loop.

(** ** What a report reads *)

(** Rowids and timestamps determine the report. *)
Section report.
Context (f : RetentionRow -> RetentionRow).
Hypothesis f_rowid : forall r, rr_rowid (f r) = rr_rowid r.
Hypothesis f_timestamp : forall r, rr_timestamp (f r) = rr_timestamp r.

Lemma sort_map (lt : RetentionRow -> RetentionRow -> bool) l :
  (forall x y, lt (f x) (f y) = lt x y) -> sort_by lt (map f l) = map f (sort_by lt l).
Proof.
  intros Hlt. assert (Hi : forall x l, insert_by lt (f x) (map f l) = map f (insert_by lt x l)).
  { intros x l'. induction l' as [|y l' IH]; [done|]. cbn. rewrite Hlt. destruct (lt y x); [|done].
    cbn. by rewrite IH. }
  induction l as [|x l IH]; [done|]. cbn [map sort_by foldr] in *. unfold sort_by in IH. by rewrite IH, Hi.
Qed.

Lemma filter_map_comm (p q : RetentionRow -> bool) l :
  (forall x, p (f x) = q x) -> List.filter p (map f l) = map f (List.filter q l).
Proof. intros Hp. induction l as [|x l IH]; [done|]. cbn. rewrite Hp, IH. by destruct (q x). Qed.

Lemma exists_map_comm (p q : RetentionRow -> bool) l :
  (forall x, p (f x) = q x) -> existsb p (map f l) = existsb q l.
Proof. intros Hp. induction l as [|x l IH]; [done|]. cbn. by rewrite Hp, IH. Qed.

Lemma candidate_map cutoff max_rows rows r :
  is_candidate cutoff max_rows (map f rows) (f r) = is_candidate cutoff max_rows rows r.
Proof.
  unfold is_candidate. rewrite f_timestamp. f_equal. destruct max_rows as [m|]; [|done]. cbn.
  unfold beyond, newest_first. rewrite sort_map.
  - change (drop (Z.to_nat m) (f <$> sort_by (fun a b => row_ltb b a) rows)) with
      (drop (Z.to_nat m) (f <$> newest_first rows)). rewrite <- fmap_drop.
    apply exists_map_comm. intros x. by rewrite !f_rowid.
  - intros x y. unfold row_ltb. by rewrite !f_timestamp, !f_rowid.
Qed.

Lemma report_map cutoff max_rows rows :
  retention_candidate_report_for_target (map f rows) cutoff max_rows
  = retention_candidate_report_for_target rows cutoff max_rows.
Proof.
  unfold retention_candidate_report_for_target.
  rewrite (filter_map_comm _ (is_candidate cutoff max_rows rows)) by (intros; apply candidate_map).
  rewrite length_map. unfold aggregate. rewrite map_map.
  by rewrite (map_ext (fun x => rr_timestamp (f x)) rr_timestamp).
Qed.
End report.

Lemma report_keys rows rows' cutoff max_rows :
  map row_key rows' = map row_key rows ->
  retention_candidate_report_for_target rows' cutoff max_rows
  = retention_candidate_report_for_target rows cutoff max_rows.
Proof.
  intros Hk. set (key_row := fun k : Z * string * string =>
    {| rr_rowid := k.1.1; rr_timestamp := k.1.2; rr_id := k.2; rr_run_id := None |}).
  assert (Hr : forall l, retention_candidate_report_for_target (map key_row (map row_key l)) cutoff max_rows
    = retention_candidate_report_for_target l cutoff max_rows)
    by (intros l; rewrite map_map; by apply report_map).
  by rewrite <- (Hr rows), <- (Hr rows'), Hk.
Qed.

Lemma table_ok_keys rows rows' : map row_key rows' = map row_key rows -> table_ok rows -> table_ok rows'.
Proof.
  intros Hk. unfold table_ok. assert (Hm : forall l, map rr_rowid l = map (fun k => k.1.1) (map row_key l))
    by (intros l; by rewrite map_map). by rewrite !Hm, Hk.
Qed.

Lemma keys_length rows rows' : map row_key rows' = map row_key rows -> length rows' = length rows.
Proof. intros Hk%(f_equal length). by rewrite !length_map in Hk. Qed.
