(* ===== verification/RetentionProperties.v ===== *)
(** * RetentionProperties: what pruning does, once and again *)

From stdpp Require Import pretty.
From S2P Require Import Prelude Text External StoreTypes StoredText StoragePayloads StoreDb.
From S2P Require Import Enrollment InputValidation ObservationPayloads AlertWebhook SchedulerStore.
From S2P Require Import StoreLemmas Ordering ApiStore AlertQueue HealthStore Health HealthScenario.
From S2P Require Import Retention RetentionLemmas.

Section retention_properties.
Context `{EndpointIdOps, TimeOps, ZonedTimeOps, JsonOps, JsonBytes, DigestOps, Sha256Ops}.
Implicit Types (env : StoreEnv).

(** ** One operation *)

Definition apply_event env (i : RetentionApplyInput) (actor : string) (r : RetentionApplyResult)
    : AuditEvent :=
  audit_request true (Some (ri_operation_id i)) None None (retention_apply_audit_json i r)
    (AuditEvent_new env actor "retention.apply").

(** What a new operation finds, and what it leaves. *)
Definition pruned env (d : RetentionDb) (i : RetentionApplyInput) (table : string)
    (r : RetentionApplyResult) (d' : RetentionDb) : Prop :=
  let rows := table_rows table d in
  let planned := ra_planned_delete_count r in
  apply_cutoff env i = Ok (ra_cutoff r) /\
  retention_candidate_report_for_target rows (ra_cutoff r) (ri_max_rows i)
    = Ok (ra_candidate_report r) /\
  cr_matched_count (ra_candidate_report r)
    = Z.of_nat (due_count (ra_cutoff r) (ri_max_rows i) rows) /\
  planned = planned_count (ri_limit i) (cr_matched_count (ra_candidate_report r)) /\
  ra_rows_deleted r = planned /\ ra_batch_count r = batches planned (ri_batch_size i) /\
  table_rows table d' = List.filter (fun x => planned <=? Z.of_nat (older rows x)) rows /\
  only_table table d d'.

Lemma out_of_range_some v max : out_of_range (Some v) max = false -> v <> 0 /\ v <= max.
Proof. unfold out_of_range. cbn. intros Hr. bool_facts. lia. Qed.

Lemma valid_input i :
  validate_retention_apply_input i = Ok tt ->
  out_of_range (ri_max_age_days i) MAX_RETENTION_POLICY_AGE_DAYS = false /\
  out_of_range (ri_max_rows i) MAX_RETENTION_POLICY_ROWS = false /\
  out_of_range (ri_limit i) MAX_RETENTION_APPLY_LIMIT = false /\
  ri_batch_size i <> 0 /\ ri_batch_size i <= MAX_RETENTION_BATCH_SIZE.
Proof.
  unfold validate_retention_apply_input. intros Hv. peel_in Hv.
  repeat match goal with
  | Hb : out_of_range (Some _) _ = false |- _ => apply out_of_range_some in Hb
  end. tauto.
Qed.

Lemma valid_cutoff env i :
  validate_retention_apply_input i = Ok tt -> exists cutoff, apply_cutoff env i = Ok cutoff.
Proof.
  intros (Hage & _)%valid_input. unfold apply_cutoff. destruct (ri_cutoff i) as [c|]; [by eexists|].
  destruct (ri_max_age_days i) as [n|]; [|by eexists]. apply out_of_range_some in Hage.
  rewrite (proj2 (Z.ltb_ge i64_max n)) by (unfold MAX_RETENTION_POLICY_AGE_DAYS, i64_max in *; lia).
  by eexists.
Qed.

(** The cutoff is the one of the command, or the age before now. *)
Lemma cutoff_of_input env i cutoff :
  apply_cutoff env i = Ok cutoff ->
  cutoff = match ri_cutoff i with
           | Some explicit => Some explicit
           | None => (fun days => rfc3339_format (env_now env - days * 86400 * NANOS))
                     <$> ri_max_age_days i
           end.
Proof.
  unfold apply_cutoff. destruct (ri_cutoff i) as [c|]; [by intros [= <-]|].
  destruct (ri_max_age_days i) as [n|]; [|by intros [= <-]]. intros Hc. peel_in Hc. by injection Hc as <-.
Qed.

Lemma valid_max_rows i :
  validate_retention_apply_input i = Ok tt -> option_u64_to_i64 (ri_max_rows i) = Ok tt.
Proof.
  intros (_ & Hmax & _)%valid_input. destruct (ri_max_rows i) as [n|]; [|done].
  apply out_of_range_some in Hmax. cbn. unfold u64_to_i64.
  by rewrite (proj2 (Z.leb_le n i64_max)) by (unfold MAX_RETENTION_POLICY_ROWS, i64_max in *; lia).
Qed.

Lemma above_filter n rows :
  above row_ltb (Z.to_nat n) rows = List.filter (fun x => n <=? Z.of_nat (older rows x)) rows.
Proof.
  apply List.filter_ext. intros x. unfold older.
  destruct (Z.leb_spec n (Z.of_nat (rank row_ltb rows x))); [apply bool_decide_true|apply bool_decide_false]; lia.
Qed.

(** Numbers of type [u64] are not negative. *)
Definition unsigned (i : RetentionApplyInput) : Prop :=
  from_option (fun n => 0 <= n) True (ri_limit i) /\ 0 <= ri_batch_size i.

Lemma apply_fresh env d i actor table :
  validate_actor actor = Ok tt -> validate_retention_apply_input i = Ok tt -> unsigned i ->
  retention_target (ri_scope i) = Ok table ->
  table_ok (table_rows table d) -> Z.of_nat (length (table_rows table d)) <= i64_max ->
  retention_apply_replay_tx d i actor = Ok None ->
  exists d1 r, pruned env d i table r d1 /\
    apply_retention env d i actor
    = match insert_audit_tx (rd_core d) (apply_event env i actor r) with
      | Ok core => (set_retention_core core d1, Ok r)
      | Err e => (d, Err e)
      end.
Proof.
  intros Ha Hv [Hul Hub] Ht Hok Hsize Hreplay.
  destruct (valid_input i Hv) as (_ & _ & _ & Hb0 & Hb1).
  unfold apply_retention. rewrite Ha, Hv, Ht, Hreplay. cbn [map_err transact].
  destruct (valid_cutoff env i Hv) as [cutoff Hcut]. pose proof (valid_max_rows i Hv) as Hrows.
  set (rows := table_rows table d) in *. set (matched := due_count cutoff (ri_max_rows i) rows).
  pose proof (due_count_le cutoff (ri_max_rows i) rows) as Hle. fold matched in Hle.
  set (planned := planned_count (ri_limit i) (Z.of_nat matched)).
  assert (Hp : 0 <= planned <= Z.of_nat matched).
  { unfold planned, planned_count. destruct (ri_limit i); cbn in Hul; lia. }
  destruct (prune_batches_spec table cutoff (ri_max_rows i) (ri_batch_size i)) with (planned := planned)
    (fuel := Z.to_nat planned) (d := d) (done := 0) (count := 0) as (d1 & Hloop & Hr1 & Hot).
  all: try (fold rows; done || lia).
  { unfold MAX_RETENTION_BATCH_SIZE, i64_max in *; lia. }
  rewrite Z.sub_0_r in Hloop, Hr1. rewrite Z.add_0_l in Hloop. rewrite Hcut.
  unfold retention_candidate_report_for_target. rewrite Hrows, (due_candidates cutoff _ rows Hok).
  cbn [cr_matched_count]. fold (due_count cutoff (ri_max_rows i) rows). fold matched. fold planned.
  rewrite Hloop. cbv beta iota zeta. unfold transact.
  set (r := Build_RetentionApplyResult _ _ _ _ _). exists d1, r. split.
  - unfold pruned, retention_candidate_report_for_target. fold rows. subst r. cbn [ra_cutoff
      ra_candidate_report ra_planned_delete_count ra_rows_deleted ra_batch_count cr_matched_count].
    rewrite Hrows, (due_candidates cutoff _ rows Hok). rewrite <- above_filter. by split_and!.
  - unfold retention_audit. rewrite (ot_core _ _ _ Hot). fold (apply_event env i actor r).
    by destruct (insert_audit_tx _ _) as [core|e].
Qed.

(** C34: A new operation deletes the planned number of rows that are due, the
    oldest ones first, whatever the size of its batches: a row stays if and only
    if at least the planned number of rows are older.  The cutoff is the explicit
    one of the command, and otherwise the given number of days before now.
    Without a limit exactly the rows stay that are not older than the cutoff and
    have fewer newer rows than are to be kept.  Nothing else changes but that
    references to deleted runs and alerts go, and if the audit event cannot be
    written everything stays as it was. *)
Theorem retention_deletes_oldest env d i actor table :
  validate_actor actor = Ok tt -> validate_retention_apply_input i = Ok tt -> unsigned i ->
  retention_target (ri_scope i) = Ok table ->
  table_ok (table_rows table d) -> Z.of_nat (length (table_rows table d)) <= i64_max ->
  retention_apply_replay_tx d i actor = Ok None ->
  exists d1 r,
    apply_retention env d i actor
    = match insert_audit_tx (rd_core d) (apply_event env i actor r) with
      | Ok core => (set_retention_core core d1, Ok r)
      | Err e => (d, Err e)
      end /\
    let rows := table_rows table d in
    let planned := ra_planned_delete_count r in
    ra_cutoff r = match ri_cutoff i with
                  | Some explicit => Some explicit
                  | None => (fun days => rfc3339_format (env_now env - days * 86400 * NANOS))
                            <$> ri_max_age_days i
                  end /\
    planned = planned_count (ri_limit i) (Z.of_nat (due_count (ra_cutoff r) (ri_max_rows i) rows)) /\
    table_rows table d1 = List.filter (fun x => planned <=? Z.of_nat (older rows x)) rows /\
    (ri_limit i = None ->
     table_rows table d1 = List.filter (fun x => negb (due (ra_cutoff r) (ri_max_rows i) rows x)) rows) /\
    ra_rows_deleted r = planned /\ ra_batch_count r = batches planned (ri_batch_size i) /\
    only_table table d d1.
Proof.
  intros Ha Hv Hu Ht Hok Hsize Hr.
  destruct (apply_fresh env d i actor table Ha Hv Hu Ht Hok Hsize Hr)
    as (d1 & r & (Hc%cutoff_of_input & _ & Hm & Hp & Hd & Hb & Hrows & Hot) & He).
  exists d1, r. rewrite Hm in Hp. cbv zeta. split_and!; try done. intros Hl. rewrite Hrows, Hp, Hl. cbn.
  apply List.filter_ext_in. intros x Hx%list_elem_of_In. rewrite due_rank by done.
  case_bool_decide; cbn; [apply Z.leb_gt|apply Z.leb_le]; lia.
Qed.

(** ** Operations again *)

(** The detail of the event reads back as the result. *)
Lemma replayed_detail conflict record i r :
  replayed_result conflict
    (VObject (("_audit", record) :: default [] (as_object (retention_apply_audit_json i r)))) = Ok r.
Proof.
  destruct r as [cutoff [matched oldest newest] planned deleted count]. unfold replayed_result, read_optional_string.
  cbn. destruct cutoff, oldest, newest; reflexivity.
Qed.

Lemma apply_logged env d i actor r core :
  insert_audit_tx (rd_core d) (apply_event env i actor r) = Ok core ->
  exists e, db_audit core = db_audit (rd_core d) ++ [e] /\ ae_actor e = actor /\
    ae_event e = "retention.apply" /\ ae_request_id e = Some (ri_operation_id i) /\
    exists record, ae_detail_json e
      = VObject (("_audit", record) :: default [] (as_object (retention_apply_audit_json i r))).
Proof.
  intros (e & -> & p & Hp & ->)%insert_audit_frame. eexists. split; [reflexivity|].
  unfold adp_new in Hp. change (as_object (ae_detail_json (apply_event env i actor r)))
    with (Some (default [] (as_object (retention_apply_audit_json i r)))) in Hp.
  cbn [ok_or] in Hp. peel_in Hp. injection Hp as <-. split_and!; [done|done|done|].
  eexists. reflexivity.
Qed.

Lemma applied_own record i r :
  value_get "target_id"
    (VObject (("_audit", record) :: default [] (as_object (retention_apply_audit_json i r))))
  = Some (VString (ri_scope i)).
Proof. reflexivity. Qed.

(** What a replay reads of the database. *)
Definition logged (d : RetentionDb) (operation_id scope : string) : list AuditEvent :=
  List.filter (applied operation_id scope) (db_audit (rd_core d)).

Lemma replay_logged d i r e record :
  logged d (ri_operation_id i) (ri_scope i) = [e] ->
  ae_detail_json e
  = VObject (("_audit", record) :: default [] (as_object (retention_apply_audit_json i r))) ->
  retention_apply_replay_tx d i (ae_actor e) = Ok (Some r).
Proof.
  intros Hl Hd. unfold retention_apply_replay_tx. fold (logged d (ri_operation_id i) (ri_scope i)).
  rewrite Hl. cbn [take]. rewrite Hd, replayed_detail, String.eqb_refl.
  cbn [existsb required_keys negb orb].
  rewrite !(bool_decide_false (value_get _ _ = None)) by (cbn; congruence).
  by rewrite !bool_decide_true.
Qed.

Lemma prune_loop_frame table cutoff max_rows batch_size planned : forall fuel d rows_deleted count d' n b,
  prune_loop fuel d table cutoff max_rows batch_size planned rows_deleted count = Ok (d', n, b) ->
  rd_core d' = rd_core d /\ rd_policies d' = rd_policies d.
Proof.
  induction fuel as [|fuel IH]; intros d rows_deleted count d' n b; cbn [prune_loop];
    (destruct (planned <=? rows_deleted); [by intros [= -> _ _]|]); [by intros [= -> _ _]|].
  destruct (prune_retention_target_batch _ _ _ _ _) as [[d1 deleted]|] eqn:E; [|done].
  assert (rd_core d1 = rd_core d /\ rd_policies d1 = rd_policies d) as [<- <-].
  { unfold prune_retention_target_batch in E. peel_in E; by injection E as <- _. }
  intros Hl. peel_in Hl; [by injection Hl as -> _ _|]. by eapply IH.
Qed.

(** A successful operation was replayed, or logged one event. *)
Lemma apply_cases env d i actor d' r :
  apply_retention env d i actor = (d', Ok r) ->
  (d' = d /\ retention_apply_replay_tx d i actor = Ok (Some r)) \/
  (retention_apply_replay_tx d i actor = Ok None /\ rd_policies d' = rd_policies d /\
   insert_audit_tx (rd_core d) (apply_event env i actor r) = Ok (rd_core d')).
Proof.
  unfold apply_retention, transact.
  destruct (map_err _ _) as [[]|]; [|done]. destruct (validate_retention_apply_input i) as [[]|]; [|done].
  destruct (retention_target _) as [table|]; [|done].
  destruct (retention_apply_replay_tx d i actor) as [[r'|]|] eqn:Er; [| |done].
  - intros [= <- ->]. by left.
  - destruct (apply_cutoff env i) as [cutoff|]; [|done].
    destruct (retention_candidate_report_for_target _ _ _) as [report|]; [|done].
    destruct (prune_loop _ _ _ _ _ _ _ _ _) as [[[d1 deleted] count]|] eqn:El; [|done].
    apply prune_loop_frame in El as [Hc Hp]. unfold retention_audit.
    destruct (insert_audit_tx (rd_core d1) _) as [core|] eqn:Ea; [|done]. intros [= <- <-].
    rewrite Hc in Ea. right. split_and!; [done|exact Hp|exact Ea].
Qed.

Lemma apply_elsewhere env d i actor d' r operation_id scope :
  apply_retention env d i actor = (d', Ok r) -> scope <> ri_scope i ->
  logged d' operation_id scope = logged d operation_id scope /\ rd_policies d' = rd_policies d.
Proof.
  intros [[-> _]|(_ & Hp & (e & Ha & _ & _ & _ & record & Hd)%apply_logged)]%apply_cases Hne; [done|].
  split; [|done]. unfold logged. rewrite Ha, List.filter_app. cbn [List.filter]. unfold applied at 2.
  rewrite Hd, applied_own, (bool_decide_false (Some _ = _)), andb_false_r by congruence. by rewrite app_nil_r.
Qed.

(** An operation that would be answered from the log. *)
Definition replayable (d : RetentionDb) (i : RetentionApplyInput) (actor : string)
    (r : RetentionApplyResult) : Prop :=
  validate_actor actor = Ok tt /\ validate_retention_apply_input i = Ok tt /\
  retention_apply_replay_tx d i actor = Ok (Some r).

Lemma apply_replayable env d i actor d' r :
  apply_retention env d i actor = (d', Ok r) -> replayable d' i actor r.
Proof.
  intros Ha. split_and!.
  - revert Ha. unfold apply_retention, transact. by destruct (validate_actor actor) as [[]|].
  - revert Ha. unfold apply_retention, transact. destruct (map_err _ _); [|done].
    by destruct (validate_retention_apply_input i) as [[]|].
  - destruct (apply_cases _ _ _ _ _ _ Ha) as [[-> Hr]|(Hr & _ & Hl)]; [done|].
    apply apply_logged in Hl as (e & Hlog & <- & He & Hid & record & Hd). eapply replay_logged; [|exact Hd].
    unfold logged. rewrite Hlog, List.filter_app. cbn [List.filter]. unfold applied at 2.
    rewrite He, Hid, Hd, applied_own, String.eqb_refl, !bool_decide_true by done. cbn [andb].
    unfold retention_apply_replay_tx in Hr. destruct (List.filter _ _) as [|e1 [|e2 l]]; [done| |done].
    cbn [take] in Hr. peel_in Hr.
Qed.

Lemma replayable_apply env d i actor r :
  replayable d i actor r -> apply_retention env d i actor = (d, Ok r).
Proof.
  intros (Ha & Hv & Hr). unfold apply_retention, transact. rewrite Ha, Hv, Hr. cbn [map_err].
  unfold validate_retention_apply_input in Hv. by destruct (retention_target (ri_scope i)); [|peel_in Hv].
Qed.

Lemma replayable_logged d d' i actor r :
  logged d' (ri_operation_id i) (ri_scope i) = logged d (ri_operation_id i) (ri_scope i) ->
  replayable d i actor r -> replayable d' i actor r.
Proof.
  intros Hl (Ha & Hv & Hr). split_and!; [done|done|]. revert Hr. unfold retention_apply_replay_tx.
  fold (logged d (ri_operation_id i) (ri_scope i)). fold (logged d' (ri_operation_id i) (ri_scope i)).
  by rewrite Hl.
Qed.

(** ** Commands *)

Definition result_report (scope : string) (p : RetentionPolicyRecord) (a : RetentionScopeApply)
    (r : RetentionApplyResult) : RetentionScopeReport :=
  scope_report scope false (ra_cutoff r) (rp_max_rows p) (ra_candidate_report r)
    (ra_planned_delete_count r) (ra_rows_deleted r) (ra_batch_count r) (sa_batch_size a) (sa_limit a).

(** A scope that would be answered from the log. *)
Definition scope_replays (d : RetentionDb) (a : RetentionScopeApply) (operation_id scope : string)
    (report : RetentionScopeReport) : Prop :=
  exists p r, effective_retention_policy d scope = Ok p /\
    replayable d (scope_input operation_id scope p a) (sa_actor a) r /\
    report = result_report scope p a r.

Lemma effective_frame d d' scope :
  rd_policies d' = rd_policies d -> effective_retention_policy d' scope = effective_retention_policy d scope.
Proof. intros Hp. unfold effective_retention_policy, get_retention_policy. by rewrite Hp. Qed.

Lemma scope_cases env d scope a operation_id d' report :
  sa_operation_id a = Some operation_id -> apply_retention_scope env d scope a = (d', Ok report) ->
  scope_replays d' a operation_id scope report /\
  forall other rep, other <> scope -> scope_replays d a operation_id other rep ->
    scope_replays d' a operation_id other rep.
Proof.
  intros Ho. unfold apply_retention_scope. rewrite Ho.
  destruct (effective_retention_policy d scope) as [p|] eqn:Ep; [|done].
  destruct (apply_retention env d _ _) as [d1 [r|e]] eqn:Ea; [|done]. intros [= <- <-].
  assert (Hp : rd_policies d1 = rd_policies d).
  { destruct (apply_cases _ _ _ _ _ _ Ea) as [[-> _]|(_ & Hp & _)]; done. }
  split.
  - exists p, r. split_and!; [by rewrite (effective_frame d)|by eapply apply_replayable|done].
  - intros other rep Hne (p' & r' & Hp' & Hr' & ->). exists p', r'.
    split_and!; [by rewrite (effective_frame d)| |done].
    eapply replayable_logged; [|exact Hr']. by apply (apply_elsewhere _ _ _ _ _ _ _ _ Ea).
Qed.

Lemma scope_replays_run env d scope a operation_id report :
  sa_operation_id a = Some operation_id -> scope_replays d a operation_id scope report ->
  apply_retention_scope env d scope a = (d, Ok report).
Proof.
  intros Ho (p & r & Hp & Hr & ->). unfold apply_retention_scope.
  by rewrite Ho, Hp, (replayable_apply _ _ _ _ _ Hr).
Qed.

Lemma scopes_replay envs a operation_id scopes : forall d d' reports,
  sa_operation_id a = Some operation_id -> NoDup scopes ->
  apply_scopes envs d a scopes = (d', Ok reports) ->
  Forall2 (scope_replays d' a operation_id) scopes reports /\
  forall other rep, other ∉ scopes -> scope_replays d a operation_id other rep ->
    scope_replays d' a operation_id other rep.
Proof.
  induction scopes as [|scope scopes IH]; intros d d' reports Ho Hn; cbn [apply_scopes].
  - intros [= <- <-]. by split; [constructor|].
  - apply NoDup_cons in Hn as [Hnin Hn].
    destruct (apply_retention_scope _ d scope a) as [d1 [rep|]] eqn:E1; [|done].
    destruct (apply_scopes envs d1 a scopes) as [d2 [reps|]] eqn:E2; [|done]. intros [= <- <-].
    destruct (scope_cases _ _ _ _ _ _ _ Ho E1) as [R1 R2]. destruct (IH _ _ _ Ho Hn E2) as [R3 R4].
    split; [constructor; [by apply R4|done]|]. intros other rep' Hother Hr. apply not_elem_of_cons in Hother.
    apply R4; [tauto|]. apply R2; tauto.
Qed.

Lemma replayed_scopes envs a operation_id scopes : forall d reports,
  sa_operation_id a = Some operation_id -> Forall2 (scope_replays d a operation_id) scopes reports ->
  apply_scopes envs d a scopes = (d, Ok reports).
Proof.
  intros d reports Ho. induction 1 as [|scope rep scopes reps Hs _ IH]; [done|]. cbn [apply_scopes].
  by rewrite (scope_replays_run _ _ _ _ _ _ Ho Hs), IH.
Qed.

Lemma selected_distinct scope : NoDup (selected_retention_scopes scope).
Proof. destruct scope as [[]|]; by apply (bool_decide_unpack _). Qed.

(** C35: Repeating a retention command with its operation identifier, as the same
    actor and at any later time, deletes nothing more: it answers with the
    reports of the first run, scope by scope, and leaves the database as it
    is. *)
Theorem retention_command_replays envs envs' uuid uuid' actor d o operation_id d' reports :
  ao_dry_run o = false -> ao_operation_id o = Some operation_id ->
  run_retention_apply envs uuid actor d o = (d', Ok reports) ->
  run_retention_apply envs' uuid' actor d' o = (d', Ok reports).
Proof.
  intros Hd Ho. unfold run_retention_apply. destruct (let? _ := _ in _) as [u|]; [|done].
  rewrite Hd, Ho. cbn [default from_option]. intros Hrun.
  apply (scopes_replay envs _ operation_id) in Hrun as [Hf _]; [|done|apply selected_distinct].
  by eapply replayed_scopes.
Qed.


(** *** Dry runs *)

(** A report of a dry run and the report of the run. *)
Definition predicted (dry real : RetentionScopeReport) : Prop :=
  sr_scope real = sr_scope dry /\ sr_cutoff real = sr_cutoff dry /\
  sr_matched_count real = sr_matched_count dry /\
  sr_planned_delete_count real = sr_planned_delete_count dry /\
  sr_oldest_candidate real = sr_oldest_candidate dry /\
  sr_newest_candidate real = sr_newest_candidate dry /\
  sr_rows_deleted real = sr_planned_delete_count dry.

(** A scope in a database to which only other scopes have been applied. *)
Record untouched (operation_id : string) (d0 d : RetentionDb) (scope : string) : Prop := {
  un_policies : rd_policies d = rd_policies d0;
  un_rows : forall table, retention_target scope = Ok table ->
    map row_key (table_rows table d) = map row_key (table_rows table d0);
  un_logged : logged d operation_id scope = [];
}.

Lemma unlogged_new d i actor :
  logged d (ri_operation_id i) (ri_scope i) = [] -> retention_apply_replay_tx d i actor = Ok None.
Proof.
  intros Hl. unfold retention_apply_replay_tx. fold (logged d (ri_operation_id i) (ri_scope i)). by rewrite Hl.
Qed.

Lemma target_inj scope scope' table :
  retention_target scope = Ok table -> retention_target scope' = Ok table -> scope = scope'.
Proof.
  unfold retention_target. intros Ht Ht'. peel_in Ht; peel_in Ht'; bool_facts; congruence.
Qed.

Lemma cutoff_agrees env operation_id scope p a by_age :
  retention_cutoff (env_now env) p = Ok by_age ->
  apply_cutoff env (scope_input operation_id scope p a) = Ok (option_or (sa_explicit_cutoff a) by_age).
Proof.
  unfold retention_cutoff, apply_cutoff. cbn. destruct (sa_explicit_cutoff a); [done|].
  destruct (rp_max_age_days p); [|by intros [= <-]]. destruct (_ <? _); [done|]. by intros [= <-].
Qed.

(** What the operation of one scope does, for a run that succeeds. *)
Lemma scope_run env d0 d scope table a operation_id d' report :
  sa_operation_id a = Some operation_id -> from_option (fun n => 0 <= n) True (sa_limit a) ->
  0 <= sa_batch_size a -> retention_target scope = Ok table -> untouched operation_id d0 d scope ->
  table_ok (table_rows table d0) -> Z.of_nat (length (table_rows table d0)) <= i64_max ->
  apply_retention_scope env d scope a = (d', Ok report) ->
  (forall dry, dry_run_scope env d0 scope a = Ok dry -> predicted dry report) /\
  (forall other, other <> scope -> untouched operation_id d0 d other -> untouched operation_id d0 d' other).
Proof.
  intros Ho Hl Hb Ht [Up Ur Ul] Hok Hsize. unfold apply_retention_scope. rewrite Ho.
  rewrite (effective_frame d0) by done.
  destruct (effective_retention_policy d0 scope) as [p|] eqn:Ep; [|done].
  destruct (apply_retention env d _ _) as [d1 [r|e]] eqn:Ea; [|done]. intros [= <- <-].
  destruct (apply_replayable _ _ _ _ _ _ Ea) as (Hact & Hval & _). pose proof (Ur table Ht) as Hkeys.
  destruct (apply_fresh env d (scope_input operation_id scope p a) (sa_actor a) table)
    as (d2 & r' & (Hcut & Hrep & _ & Hp & Hd & _ & _ & Hot) & He); try done.
  { by eapply table_ok_keys. }
  { by rewrite (keys_length _ _ Hkeys). }
  { by apply unlogged_new. }
  rewrite He in Ea. destruct (insert_audit_tx _ _) as [core|]; [|done]. injection Ea as <- ->. split.
  - intros dry. unfold dry_run_scope. rewrite Ep. destruct (retention_cutoff _ p) as [by_age|] eqn:Eb; [|done].
    rewrite (cutoff_agrees _ operation_id scope _ a _ Eb) in Hcut. injection Hcut as Hcut.
    unfold retention_candidate_report. rewrite Ht, Hcut. rewrite (report_keys _ _ _ _ Hkeys) in Hrep.
    cbn [ri_max_rows scope_input] in Hrep. rewrite Hrep. cbn [map_err]. intros [= <-].
    unfold predicted. cbn. cbn in Hp. split_and!; try done. by rewrite Hd.
  - intros other Hne [_ Vr Vl]. split.
    + cbn. by rewrite (ot_policies _ _ _ Hot).
    + intros t Hto. transitivity (map row_key (table_rows t d)); [|by apply Vr].
      apply (ot_rows _ _ _ Hot). intros ->. by apply Hne, (target_inj _ _ table).
    + pose proof He as Ha. by rewrite (proj1 (apply_elsewhere _ _ _ _ _ _ operation_id other Ha Hne)).
Qed.

(** Every scope, dry and then for real. *)
Lemma scopes_predicted envs d0 dry real operation_id scopes :
  sa_operation_id real = Some operation_id -> sa_operation_id dry = None ->
  sa_explicit_cutoff dry = sa_explicit_cutoff real -> sa_limit dry = sa_limit real ->
  sa_batch_size dry = sa_batch_size real ->
  from_option (fun n => 0 <= n) True (sa_limit real) -> 0 <= sa_batch_size real -> NoDup scopes ->
  (forall table, table_ok (table_rows table d0) /\ Z.of_nat (length (table_rows table d0)) <= i64_max) ->
  forall d d' d'' dries reals,
  (forall scope, scope ∈ scopes -> untouched operation_id d0 d scope) ->
  apply_scopes envs d0 dry scopes = (d', Ok dries) -> apply_scopes envs d real scopes = (d'', Ok reals) ->
  d' = d0 /\ Forall2 predicted dries reals.
Proof.
  intros Ho Hdry Ec El Eb Hl Hb Hn Hok. induction scopes as [|scope scopes IH]; intros d d' d'' dries reals Hu;
    cbn [apply_scopes]; [by intros [= <- <-] [= _ <-]|].
  apply NoDup_cons in Hn as [Hnin Hn]. unfold apply_retention_scope at 1. rewrite Hdry.
  destruct (dry_run_scope _ d0 scope dry) as [r1|] eqn:E1; [|done].
  destruct (apply_scopes envs d0 dry scopes) as [d1 [rs1|]] eqn:E2; [|done]. intros [= <- <-].
  destruct (apply_retention_scope _ d scope real) as [d2 [r2|]] eqn:E3; [|done].
  destruct (apply_scopes envs d2 real scopes) as [d3 [rs2|]] eqn:E4; [|done]. intros [= _ <-].
  assert (exists table, retention_target scope = Ok table) as [table Ht].
  { revert E1. unfold dry_run_scope, retention_candidate_report. intros E1. peel_in E1. unwrap. peel_in Hm1. eauto. }
  assert (E1' : dry_run_scope (envs scope) d0 scope real = Ok r1)
    by (rewrite <- E1; unfold dry_run_scope; by rewrite Ec, El, Eb).
  destruct (scope_run (envs scope) d0 d scope table real operation_id d2 r2) as [Hp Hun]; try done.
  { apply Hu. by left. }
  { apply Hok. }
  { apply Hok. }
  destruct (IH Hn d2 d1 d3 rs1 rs2) as [-> Hf]; try done.
  - intros other Hin. apply Hun; [by intros ->|]. apply Hu. by right.
  - split; [done|]. constructor; [by apply Hp|done].
Qed.

(** A dry run changes nothing, and a run at the same instants that succeeds
    does what it reported for every scope: the same cutoff, the same candidates
    with the same ends, and exactly the planned number of rows deleted. *)
Theorem dry_run_predicts envs uuid actor d d' d'' o operation_id dries reals :
  (forall table, table_ok (table_rows table d) /\ Z.of_nat (length (table_rows table d)) <= i64_max) ->
  from_option (fun n => 0 <= n) True (ao_limit o) -> 0 <= ao_batch_size o ->
  (forall scope, logged d operation_id scope = []) -> ao_dry_run o = true ->
  run_retention_apply envs uuid actor d o = (d', Ok dries) ->
  run_retention_apply envs uuid actor d
    {| ao_dry_run := false; ao_operation_id := Some operation_id; ao_scope := ao_scope o;
       ao_before := ao_before o; ao_limit := ao_limit o; ao_batch_size := ao_batch_size o |}
  = (d'', Ok reals) ->
  d' = d /\ Forall2 predicted dries reals.
Proof.
  intros Hok Hl Hb Hlog Hdry. unfold run_retention_apply.
  cbn [ao_limit ao_batch_size ao_before ao_dry_run ao_operation_id ao_scope default from_option].
  rewrite Hdry. destruct (let? _ := _ in _) as [u|]; [|done]. intros E1 E2.
  eapply (scopes_predicted envs d _ _ operation_id); [..|exact E1|exact E2]; try done.
  apply selected_distinct.
Qed.
End retention_properties.

(** ** A database to prune

    Three runs, of which the first two are older than the cutoff of the
    command, with an observation of the first and a claim on the third. *)
Module RetentionToy.
Import HealthToy.

#[export] Instance sha256_ops : Sha256Ops := {| sha256 _ := replicate 32 7 |}.

Definition row (rowid t : Z) (id : string) (run : option string) : RetentionRow :=
  {| rr_rowid := rowid; rr_timestamp := format (t * NANOS); rr_id := id; rr_run_id := run |}.

Definition runs : list RetentionRow :=
  [row 1 100 "run-1" None; row 2 200 "run-2" None; row 3 300 "run-3" None].

Definition store : RetentionDb :=
  {| rd_core := {| db_nodes := ∅; db_trust := ∅; db_tokens := ∅; db_joins := ∅; db_audit := [] |};
     rd_policies := ∅;
     rd_tables := {["observability_runs" := runs;
                    "probe_observations" := [row 1 150 "obs-1" (Some "run-1")]]};
     rd_active_runs := {["job-1" := Some "run-3"]}; rd_queue := ∅; rd_attempts := ∅ |}.

Definition operation : string := "retention-33d48122-5fa0-4d8e-8b2c-d9ba7778e5a6".

Definition environment (_ : string) : StoreEnv :=
  {| env_now := 1000 * NANOS; env_audit_now := 1000 * NANOS; env_sql_now := format (1000 * NANOS);
     env_uuid := "33d48122-5fa0-4d8e-8b2c-d9ba7778e5a6" |}.

Definition input : RetentionApplyInput :=
  {| ri_operation_id := operation; ri_scope := "observability-runs";
     ri_cutoff := Some (format (250 * NANOS)); ri_max_age_days := Some 30; ri_max_rows := Some 100000;
     ri_limit := None; ri_batch_size := 1 |}.

Definition options (dry : bool) : RetentionApplyOptions :=
  {| ao_dry_run := dry; ao_operation_id := Some operation; ao_scope := None;
     ao_before := Some (format (250 * NANOS)); ao_limit := None; ao_batch_size := 1 |}.

Definition run_on (d : RetentionDb) (dry : bool) :=
  run_retention_apply environment "33d48122-5fa0-4d8e-8b2c-d9ba7778e5a6" "alice" d (options dry).
End RetentionToy.

Import HealthToy RetentionToy.

Lemma store_tables table :
  table_ok (table_rows table store) /\ Z.of_nat (length (table_rows table store)) <= i64_max.
Proof.
  assert (Ha : map_Forall (fun _ rows => NoDup (map rr_rowid rows) /\ Z.of_nat (length rows) <= i64_max)
    (rd_tables store)) by (apply (bool_decide_unpack _); vm_compute; exact I).
  unfold table_rows, table_ok. destruct (rd_tables store !! table) as [rows|] eqn:E; [exact (Ha _ _ E)|].
  split; [constructor|done].
Qed.

Definition after_input : RetentionDb * result StoreError RetentionApplyResult :=
  apply_retention (environment EmptyString) store input "alice".

Lemma retention_deletes_oldest_witness :
  is_ok after_input.2 = true /\
  table_rows "observability_runs" after_input.1 = [row 3 300 "run-3" None].
Proof.
  assert (Hr : retention_apply_replay_tx store input "alice" = Ok None) by (vm_compute; reflexivity).
  assert (Ho : is_ok after_input.2 = true) by (vm_compute; reflexivity).
  assert (Hc : forall r, after_input.2 = Ok r ->
    List.filter (fun x => negb (due (ra_cutoff r) (Some 100000) runs x)) runs = [row 3 300 "run-3" None])
    by (vm_compute; intros r [= <-]; reflexivity).
  destruct (store_tables "observability_runs") as [Hok Hlen].
  destruct (retention_deletes_oldest (environment EmptyString) store input "alice" "observability_runs")
    as (d1 & r & He & _ & _ & _ & Hrows & _).
  - vm_compute. reflexivity.
  - vm_compute. reflexivity.
  - split; [exact I|]. vm_compute. discriminate.
  - reflexivity.
  - exact Hok.
  - exact Hlen.
  - exact Hr.
  - split; [exact Ho|]. unfold after_input in *. rewrite He in Ho, Hc |- *.
    destruct (insert_audit_tx _ _) as [core|e]; [|discriminate Ho].
    transitivity (table_rows "observability_runs" d1); [reflexivity|].
    rewrite (Hrows eq_refl). exact (Hc r eq_refl).
Defined.

Definition pruned_store : RetentionDb := (run_on store false).1.
Definition pruned_reports : list RetentionScopeReport :=
  match (run_on store false).2 with Ok reports => reports | Err _ => [] end.
Definition planned_reports : list RetentionScopeReport :=
  match (run_on store true).2 with Ok reports => reports | Err _ => [] end.

Lemma retention_command_replays_witness :
  map sr_rows_deleted pruned_reports = [1; 2; 0; 0; 0; 0] /\
  run_on pruned_store false = (pruned_store, Ok pruned_reports).
Proof.
  split; [vm_compute; reflexivity|].
  apply (retention_command_replays environment environment "33d48122-5fa0-4d8e-8b2c-d9ba7778e5a6"
    "33d48122-5fa0-4d8e-8b2c-d9ba7778e5a6" "alice" store (options false) operation).
  - reflexivity.
  - reflexivity.
  - vm_compute. reflexivity.
Defined.

Lemma dry_run_predicts_witness :
  map sr_planned_delete_count planned_reports = [1; 2; 0; 0; 0; 0] /\
  Forall2 predicted planned_reports pruned_reports.
Proof.
  split; [vm_compute; reflexivity|].
  apply (dry_run_predicts environment "33d48122-5fa0-4d8e-8b2c-d9ba7778e5a6" "alice" store store
    pruned_store (options true) operation).
  - exact store_tables.
  - exact I.
  - vm_compute. discriminate.
  - reflexivity.
  - reflexivity.
  - vm_compute. reflexivity.
  - vm_compute. reflexivity.
Defined.
